(* ===== verification/_CoqProject ===== *)
-Q . S2P
Prelude.v
Json.v
TaskFailure.v
TaskStore.v
TaskRepo.v
Scenario.v
TaskInv.v
TaskOps.v
TaskCascade.v
SlotTable.v
Checkpoint.v
Queue.v
WorkerClaim.v
WorkerRun.v
Recovery.v
WorkerLoop.v
GenerationResult.v
BatchAdmission.v
Planning.v
QueueClient.v
Assets.v
ShotParser.v
Workflow.v
Speech.v
Pricing.v
Usage.v
Guards.v
AssetRename.v
EpisodeLedger.v
TextMetrics.v
EpisodePlanner.v
EpisodeReset.v
EpisodeCover.v
DurationMigration.v
ScriptReview.v
ReviewGate.v
VersionManager.v
VersionHistory.v
VersionAtomic.v
VersionRename.v
Codec.v
ArtifactKey.v
ArtifactStore.v
ArtifactAdapter.v
ArtifactClaims.v
ScriptEditor.v
ScriptBatch.v
Narration.v
Presentation.v
