(* ===== verification/Prelude.v ===== *)
(** * MatrixSpooll: the generation core and its rules, verified

    MatrixSpooll turns novels into short videos.  Its server keeps projects as
    JSON files, lets users and agents request images, videos and speech, puts
    the requests as tasks into a database, and has one worker run them against
    paid external services.  This library models the parts that decide what is
    generated, when, at whose cost, and what is remembered of it, and proves
    the theorems that make them correct.  What the parts are and how they call
    one another, from the table upwards:

    - a failure reason is stored as text with a code ([TaskFailure]), on top
      of Python's JSON ([Json]);
    - the task table ([TaskStore]) is written only by the repository
      ([TaskRepo]), which records a terminal event with every end of a task;
    - the queue ([Queue]) wraps each repository call in a transaction,
      publishes the terminal events after the commit, normalises requests and
      signals cancellations; the client ([QueueClient]) validates requests,
      enqueues batches in dependency order and waits by polling;
    - the worker holds a lease ([WorkerLoop]), claims tasks up to the limit of
      each provider and lane ([WorkerClaim], [SlotTable]), runs or resumes
      them and settles the row ([WorkerRun]), and after a restart decides what
      becomes of the tasks of the dead process ([Recovery]) from the
      checkpoints they left ([Checkpoint]);
    - every paid call is written into a ledger and priced when it ends
      ([Usage], [Pricing]); retries, login throttling and the choice of a
      supported duration are small guards around the calls ([Guards]);
    - before tasks are made, a batch is admitted as a whole or refused
      ([BatchAdmission]), targets are selected and reported under one contract
      ([GenerationResult]), storyboards are ordered and packed into grids
      ([Planning]), and the next step of a project is planned ([Workflow]);
    - the source of a novel is divided into episodes whose ledger records the
      range of the text each covers ([EpisodeLedger], [EpisodePlanner]), and can
      be taken back from any episode on ([EpisodeReset], [EpisodeCover]);
    - the first draft of an episode's script passes a review before the second
      step reads it ([ScriptReview], [ReviewGate]);
    - generated media enter a version history when they are put in force
      ([VersionManager]), which the worker's executors and the editors call, and
      a manifest claims for each formal file what it was made from
      ([ArtifactClaims] on [ArtifactAdapter]);
    - scripts refer to assets by name ([Assets], [AssetRename]), in a small
      writing syntax ([ShotParser]), each unit of a script has one kind of
      speech ([Speech]), and scripts are edited in batches that keep the
      products of their units ([ScriptEditor], [ScriptBatch]).

    ** Files and sources (under [src/])

    - [Prelude]: scope, tactics, hint database [spool], the result monad of
      code that raises ([let!]), loops with fuel, lemmas on lists and updates.
    - [Json]: [json.dumps]/[json.loads] and insertion-ordered dictionaries.
    - [TaskFailure]: [lib/task_failure.py].
    - [TaskStore]: [lib/db/models/task.py], and SQL statements as functions on
      lists of rows.
    - [TaskRepo]: [lib/db/repositories/task_repo.py], one definition per method,
      with [lib/db/project_identity.py] and [lib/db/actor_identity.py].
    - [Scenario]: concrete sessions for the witnesses.
    - [TaskInv]: the step relation of the repository's writes and its
      invariants; [TaskOps], [TaskCascade]: what each operation does.
    - [SlotTable], [WorkerClaim], [WorkerRun], [Recovery], [WorkerLoop]:
      [lib/generation_worker.py].  The claim loop is proved against the class
      [SlotLedger], which [SlotTable] implements.
    - [Checkpoint]: [lib/free_video_checkpoint.py] and
      [lib/reference_video/execution_checkpoint.py].
    - [Queue]: [lib/generation_queue.py], [lib/task_terminal_events.py];
      [QueueClient]: [lib/generation_queue_client.py].
    - [GenerationResult]: [lib/generation_result.py]; [BatchAdmission]:
      [lib/batch_admission.py]; [Planning]: [lib/storyboard_sequence.py] and
      [lib/grid/layout.py].
    - [Assets]: [lib/asset_types.py] and the asset writes of
      [lib/project_manager.py]; [AssetRename]: [lib/asset_rename.py];
      [ShotParser]: [lib/reference_video/shot_parser.py]; [Speech]:
      [lib/speech_composition/__init__.py].
    - [Workflow]: [lib/workflow_rules.py], [lib/workflow_plan.py] and the types
      of [lib/workflow_state.py].
    - [Pricing]: [lib/pricing], [lib/cost_calculator.py], [lib/vidu_shared.py];
      [Usage]: [lib/ledger.py], [lib/db/repositories/usage_repo.py].
    - [Guards]: [server/security/login_throttle.py], [lib/retry.py],
      [lib/reference_video/duration_slots.py].
    - [EpisodeLedger]: [lib/episode_ledger.py], [lib/episode_paths.py];
      [TextMetrics]: [lib/text_metrics.py]; [EpisodePlanner]:
      [lib/episode_planner.py]; [EpisodeReset]: [lib/episode_reset.py];
      [EpisodeCover]: planner and reset composed.  A project is its JSON
      object, its directory the record [Disk] of the entries the code looks at.
    - [ScriptReview], [ReviewGate]: [lib/script_review.py],
      [server/services/script_review.py] and what they use of the drafts;
      [DurationMigration]: [lib/reference_video/duration_migration.py].
    - [VersionManager]: [lib/version_manager.py], [lib/resource_paths.py];
      [VersionHistory], [VersionAtomic], [VersionRename]: its theorems and
      [rename_resource].  The state is the media files and [versions.json], and
      every file operation can fail.
    - [Codec]: bytes, base64 and indented JSON; [ArtifactKey],
      [ArtifactStore], [ArtifactAdapter], [ArtifactClaims]:
      [lib/artifact_manifest.py]: keys, the bytes of the manifest, the storage
      seam as a class with its two instances, and the domain against the class.
      The operating system's view of a path and the troubles of the storage are
      part of the state.
    - [ScriptEditor]: [lib/script_editor.py] and the kinds of script of
      [lib/script_skeleton.py]; [ScriptBatch]: [lib/script_batch_edit.py] with
      the commit of [locked_episode_script] and [lib/formal_write.py].  The
      store is the scripts, the project and the claims of the manifest; a fault
      says which write of a commit fails.
    State is passed explicitly.  A method that raises returns [Raise]; a
    transaction that raises leaves the tables as they were.  The clock is an
    argument of every call that reads it.  Concurrency appears in three forms:
    writes of other sessions between two database calls are an arbitrary
    reachable change ([env]); the resume dispatcher's coroutines are a step
    relation; and what an executor, a backend or a poll comes back with is a
    value the theorems quantify over.

    ** What the theorems show

    - Tasks.  A task only starts after its dependency has succeeded; every
      reachable session is well formed with one terminal event per ended task;
      a terminal status is final; failing and cancelling reach exactly the
      queued descendants, and the cancel preview lists exactly those; a lease
      that has not run out excludes other workers.
    - Worker.  A claim cycle ends and never exceeds a limit; a processed or
      resumed task ends terminal whatever happens in between; recovery never
      submits a paid job a second time; the dispatcher keeps its limit and is
      never stuck; a cycle without the lease starts nothing; the nested slot
      table refines a flat ledger of entries.
    - Requests.  Conflicting requests are refused; batches are all or nothing;
      results partition the requested units; waiting answers within its limit;
      storyboards are chained exactly along the script.
    - Projects.  Asset names are unique over the four kinds; renames change
      exactly the references to the renamed asset; the writing syntax survives
      a round trip through its parser; an admitted unit has speech of one kind;
      the plan of a project never offers videos before what they need.
    - Episodes.  A plan extends the ledger by ranges that follow one another
      from where the last one ended, and writes each episode's text; a full
      reset always succeeds and starts the plan over; an accepted partial reset
      keeps episodes that hold exactly the text before the new cursor, apart
      from white space, and every ledger that plans and resets produce can be
      taken back from each of its episodes; the offset of a reading unit is
      the end of that unit.
    - Review.  The second step of script writing only runs on a first step
      that was confirmed as it stands, over all histories of saves, rebuilds,
      migrations and confirmations; a confirmation opens the gate; a save is
      all or nothing and never overwrites content its author has not seen; a
      migration of durations keeps what it does not migrate.
    - Versions.  A recorded version keeps its number, file and content for
      ever, whatever fails; a commit, restoration or rejection that raises has
      changed nothing, one that returns has put the new file in force; a paid
      result stays recorded whatever becomes of its selection; a rename of an
      asset can be repeated until it has moved the whole history.
    - Artifacts.  The text of a key names it exactly; the manifest file
      refines a map of claims under any sequence of calls, a failing call having
      done all or nothing; recovery only replaces what cannot be read; a
      registration, removal or move of a claim is all or nothing and can be taken
      back; a formal file is current exactly with the expected claim for its path.
    - Script edits.  An edit changes its target and nothing else, ids stay
      unique and no item gains products that are not its own, also over a
      batch that removes and inserts again; a batch is committed as a whole
      against the revision its author saw, or leaves everything as it was.
    - Money.  A pending call is settled at most once by the guarded write; the
      bracket of a call leaves its row as its outcome says; reported costs are
      the sums of the billed calls; a price is that of the first declared
      candidate; a lock of the login throttle holds for its time; the chosen
      duration holds the content where one does.

    ** Fuel

    The loops of the program that are not structural run on fuel: cascades
    (as many rounds as there are rows: each round ends at least one queued
    row, [cascade_fuel]), the claim lanes (one round per queued row and one
    more), waiting (polls up to the time limit, which [QueueClient] shows to be
    enough when the clock advances), collapsing nested reasons (the bound of
    the program itself) and JSON parsing (the length of the text).  Each use
    has a theorem or lemma that the fuel does not run out, so results are
    proved to be returned and not only to be right if returned.

    ** Not modelled

    Services outside the repository and pure input and output: the HTTP
    routers, the frontend, the provider backends and media processing, prompt
    texts and translations, the file system and locks (a mutation of a project
    is a function on its JSON value).  Float arithmetic is an interface, and
    so are the Unicode tables the code takes from Python.  The statistics and
    listings of the call ledger, and the migrations of old projects, are left
    out.  So are the parts that only assemble what is modelled: the bases that each
    artifact should have ([lib/artifact_currency.py], [lib/artifact_planner.py]),
    the services and agent tools above the library, the schemas of scripts
    ([lib/script_models.py]; the batch edit takes the validators as arguments),
    the timing of speech ([lib/speech_presentation.py]) and the derivation of the workflow status
    ([lib/workflow_state.py]), whose types the plan model takes as given. *)

From stdpp Require Export base decidable list strings option sets gmap.
From Stdlib Require Export ZArith NArith Lia Ascii String.
From Stdlib Require Import Permutation Sorted.
From stdpp Require Export strings.

(** ** Scope, hint database and tactics *)

Declare Scope spool_scope.
Delimit Scope spool_scope with spool.
Open Scope spool_scope.

Create HintDb spool.
#[export] Hint Constants Opaque : spool.

(** Case on the discriminee of the first [match] or [if] of the goal. *)
Ltac case_goal :=
  match goal with
  | |- context [match ?x with _ => _ end] => destruct x eqn:?
  end.

(** The same in the hypotheses. *)
Ltac case_hyp :=
  match goal with
  | H : context [match ?x with _ => _ end] |- _ => destruct x eqn:?
  end.

(** Turn boolean facts into propositions. *)
Ltac to_prop :=
  repeat match goal with
  | H : bool_decide _ = true |- _ => apply bool_decide_eq_true in H
  | H : bool_decide _ = false |- _ => apply bool_decide_eq_false in H
  | H : (_ && _)%bool = true |- _ => apply andb_true_iff in H; destruct H
  | H : (_ || _)%bool = false |- _ => apply orb_false_iff in H; destruct H
  | H : negb _ = true |- _ => apply negb_true_iff in H
  | H : negb _ = false |- _ => apply negb_false_iff in H
  end.

(** ** Python values used throughout *)

(** A Python [str] whose contents are inspected is the list of its code
    points, so that [len] is [length] and slicing is [take]. *)
Abbreviation pystr := (list N).

(** The code points of an ASCII literal. *)
Fixpoint u (s : string) : pystr :=
  match s with
  | EmptyString => []
  | String a s' => N_of_ascii a :: u s'
  end.

(** Back to a [string]; exact on code points below 256. *)
Fixpoint of_u (s : pystr) : string :=
  match s with
  | [] => EmptyString
  | c :: s' => String (ascii_of_N c) (of_u s')
  end.

(** JSON text as a literal, with single quotes for double ones. *)
Definition uq (s : string) : pystr := map (fun c => if (c =? 39)%N then 34%N else c) (u s).

Lemma u_length (s : string) : length (u s) = String.length s.
Proof. induction s; simpl; congruence. Qed.

Lemma u_app (a b : string) : u (a +:+ b) = u a ++ u b.
Proof. induction a as [|c a IH]; [done|]. simpl. by rewrite IH. Qed.

Lemma u_inj (a b : string) : u a = u b -> a = b.
Proof.
  revert b. induction a as [|c a IH]; intros [|d b] H; simplify_eq/=; try done.
  f_equal; [|by apply IH].
  rewrite <- (ascii_N_embedding c), <- (ascii_N_embedding d). congruence.
Qed.

(** [str.isspace] on one code point, and [str.strip]. *)
Definition is_space (c : N) : bool :=
  ((c =? 32) || ((9 <=? c) && (c <=? 13)) || ((28 <=? c) && (c <=? 31)) || (c =? 133) || (c =? 160) || (c =? 5760)
   || ((8192 <=? c) && (c <=? 8202)) || (c =? 8232) || (c =? 8233) || (c =? 8239) || (c =? 8287) || (c =? 12288))%N.

Fixpoint lstrip (s : pystr) : pystr :=
  match s with
  | c :: r => if is_space c then lstrip r else s
  | [] => []
  end.

Definition strip (s : pystr) : pystr := reverse (lstrip (reverse (lstrip s))).

(** [str.upper] on ASCII letters. *)
Definition ascii_upper (s : pystr) : pystr :=
  map (fun c => if ((97 <=? c) && (c <=? 122))%N then (c - 32)%N else c) s.

(** The exceptions the modelled code raises. *)
Inductive exc :=
| ValueError
| TypeError
| KeyError
| IndexError
| StopIteration
| RuntimeError
| IntegrityError
| ActiveTaskRequestConflict (resource_id existing_task_id : string)
| ProviderError (message : pystr)
| WorkerOfflineError
| TaskWaitTimeoutError
| TaskFailedError (message : pystr)
| TaskCancelledError (task : string)
| TaskSpecValidationError (code : string)
| ProjectAssetNameConflictError (name existing : pystr)
| SpeechAdmissionError
| AttributeError
| OSError
| OverflowError
| EpisodePlanningError (why : string)
| PlanningConflictError
| EpisodeResetError (why : string)
| EpisodeResetConflictError
| UnicodeEncodeError
| ScriptReviewError (code : string)
| Step1WriteConflict (expected actual : option pystr)
| Step1RebuildCompletionError (code : string)
| FileNotFoundError
| BadRequestError (code : string)
| NotFoundError (code : string)
| AssetRenameHistoryCollisionError (name : pystr)
| ArtifactManifestError
| ArtifactRegistrationError
| ScriptEditError
| EpisodeScriptReboundError
| ProjectMigrationError (violation : pystr)
| RollbackIncomplete.

(** A call either returns or raises. *)
Inductive result (A : Type) :=
| Ok (a : A)
| Raise (e : exc).
Arguments Ok {A} a.
Arguments Raise {A} e.

Definition bind {A B} (m : result A) (k : A -> result B) : result B :=
  match m with
  | Ok a => k a
  | Raise e => Raise e
  end.

Notation "'let!' x := m 'in' k" := (bind m (fun x => k))
  (at level 10, x binder, m at level 100, k at level 200) : spool_scope.

Lemma bind_Ok {A B} (m : result A) (k : A -> result B) b :
  bind m k = Ok b -> exists a, m = Ok a /\ k a = Ok b.
Proof. destruct m; simpl; [eauto|done]. Qed.

Lemma Ok_inj {A} (x y : A) : Ok x = Ok y -> x = y.
Proof. congruence. Qed.

(** A call on a state [S] returns or raises, and leaves a state either way. *)
Definition act (S A : Type) : Type := S -> result A * S.

Section act.
Context {S A B : Type}.

Definition ret (a : A) : act S A := fun s => (Ok a, s).
Definition lift (r : result A) : act S A := fun s => (r, s).
Definition then_ (m : act S A) (k : A -> act S B) : act S B :=
  fun s => match m s with (Ok a, s') => k a s' | (Raise e, s') => (Raise e, s') end.

Lemma then_Ok (m : act S A) (k : A -> act S B) s b s' :
  then_ m k s = (Ok b, s') -> exists a s1, m s = (Ok a, s1) /\ k a s1 = (Ok b, s').
Proof. unfold then_. destruct (m s) as [[a|e] s1]; [eauto|done]. Qed.

Lemma lift_Ok (r : result A) s a s' : lift r s = (Ok a, s') -> r = Ok a /\ s' = s.
Proof. unfold lift. intros H. injection H as -> ->. done. Qed.
End act.

Notation "'do!' x := m 'in' k" := (then_ m (fun x => k))
  (at level 10, x binder, m at level 100, k at level 200) : spool_scope.

(** [x or y] on an optional string: the empty string is falsy. *)
Definition str_or (x : option string) (y : string) : string :=
  match x with
  | Some s => if bool_decide (s = "") then y else s
  | None => y
  end.

(** ** Stable insertion sort: [sorted(..., key=...)] and [ORDER BY]

    Rows that compare equal keep the order they had. *)
Section isort.
Context {A : Type} (le : A -> A -> bool).

Fixpoint insert_by (x : A) (l : list A) : list A :=
  match l with
  | [] => [x]
  | y :: l' => if le x y then x :: l else y :: insert_by x l'
  end.

Fixpoint isort (l : list A) : list A :=
  match l with
  | [] => []
  | x :: l' => insert_by x (isort l')
  end.

Lemma insert_by_perm x l : insert_by x l ≡ₚ x :: l.
Proof.
  induction l as [|y l IH]; simpl; [done|].
  destruct (le x y); [done|]. rewrite IH. constructor.
Qed.

Lemma isort_perm l : isort l ≡ₚ l.
Proof. induction l; simpl; [done|]. rewrite insert_by_perm. by f_equiv. Qed.

Lemma elem_of_isort x l : x ∈ isort l <-> x ∈ l.
Proof. by rewrite isort_perm. Qed.

Lemma length_isort l : length (isort l) = length l.
Proof. by rewrite isort_perm. Qed.

Lemma isort_nil_inv l : isort l = [] -> l = [].
Proof. intros H. apply Permutation_nil. by rewrite <- H, isort_perm. Qed.

Context (le_total : forall x y, le x y = true \/ le y x = true).
Context (le_trans : forall x y z, le x y = true -> le y z = true -> le x z = true).

Lemma insert_by_sorted x l :
  StronglySorted le l -> StronglySorted le (insert_by x l).
Proof.
  induction 1 as [|y l Hs IH Hy]; simpl; [repeat constructor|].
  destruct (le x y) eqn:E.
  - constructor; [by constructor|]. constructor; [by rewrite E|].
    eapply Forall_impl; [exact Hy|]. intros z Hz. simpl in *.
    apply Is_true_true. eapply le_trans; [exact E|by apply Is_true_true].
  - constructor; [done|]. rewrite insert_by_perm. constructor; [|done].
    destruct (le_total x y) as [|Hyx]; [congruence|]. by rewrite Hyx.
Qed.

Lemma isort_sorted l : StronglySorted le (isort l).
Proof. induction l; simpl; [constructor|by apply insert_by_sorted]. Qed.

(** The head of the sorted list is below every element. *)
Lemma isort_head_le l x l' y : isort l = x :: l' -> y ∈ l -> le x y = true.
Proof.
  intros Hl Hy. pose proof (isort_sorted l) as Hs. rewrite Hl in Hs.
  assert (y ∈ x :: l') as Hin by (rewrite <- Hl; by rewrite elem_of_isort).
  inv Hs. apply elem_of_cons in Hin as [->|Hin].
  - destruct (le_total x x); done.
  - apply Is_true_true. by eapply Forall_forall in Hin; [|done].
Qed.
End isort.

(** Sorting commutes with a map that preserves the comparison. *)
Lemma isort_map {A B} (leA : A -> A -> bool) (leB : B -> B -> bool) (f : A -> B) l :
  (forall x y, leB (f x) (f y) = leA x y) ->
  isort leB (map f l) = map f (isort leA l).
Proof.
  intros Hf. induction l as [|x l IH]; simpl; [done|]. rewrite IH.
  generalize (isort leA l) as k. induction k as [|y k IHk]; simpl; [done|].
  rewrite Hf. destruct (leA x y); simpl; [done|]. by rewrite IHk.
Qed.

(** A list that is already sorted is left alone. *)
Lemma isort_id {A} (le : A -> A -> bool) l :
  StronglySorted le l -> isort le l = l.
Proof.
  induction 1 as [|x l Hs IH Hx]; simpl; [done|]. rewrite IH.
  destruct l as [|y l]; simpl; [done|].
  inv Hx. by rewrite (Is_true_true_1 _ H1).
Qed.

(** ** Lists of rows with a key *)

Lemma find_Some_elem {A} (p : A -> bool) l x :
  List.find p l = Some x -> x ∈ l /\ p x = true.
Proof. intros [H1 H2]%List.find_some. split; [by apply list_elem_of_In|done]. Qed.

Lemma find_None_elem {A} (p : A -> bool) l x :
  List.find p l = None -> x ∈ l -> p x = false.
Proof. intros H Hx%list_elem_of_In. by eapply List.find_none in H. Qed.

Lemma find_app {A} (p : A -> bool) l l' :
  List.find p (l ++ l') = match List.find p l with Some x => Some x | None => List.find p l' end.
Proof. induction l as [|x l IH]; [done|]. cbn. by destruct (p x). Qed.

(** Filtering with a boolean predicate; [stdpp]'s [filter] wants a
    [Decision], so the code's own guards go through this one. *)
Abbreviation where_ p l := (List.filter p l).

Lemma elem_of_where {A} (p : A -> bool) (l : list A) x :
  x ∈ where_ p l <-> x ∈ l /\ p x = true.
Proof. rewrite !list_elem_of_In. apply List.filter_In. Qed.

Lemma where_nil {A} (p : A -> bool) (l : list A) :
  where_ p l = [] <-> forall x, x ∈ l -> p x = false.
Proof.
  split.
  - intros H x Hx. destruct (p x) eqn:E; [|done].
    assert (x ∈ where_ p l) as Hin by by apply elem_of_where.
    rewrite H in Hin. by apply not_elem_of_nil in Hin.
  - intros H. induction l as [|y l IH]; simpl; [done|].
    rewrite (H y) by left. apply IH. intros x Hx. apply H. by right.
Qed.

#[export] Instance where_proper {A} (p : A -> bool) : Proper ((≡ₚ) ==> (≡ₚ)) (List.filter p).
Proof.
  intros l l'. induction 1 as [|x l l' _ IH|x y l|l l1 l2 _ IH1 _ IH2]; cbn [List.filter]; [done| | |by etrans].
  - destruct (p x); by rewrite IH.
  - destruct (p x), (p y); try done. constructor.
Qed.

(** Sorting keeps the order of what a filter lets through. *)
Lemma where_insert {A} (le : A -> A -> bool) (p : A -> bool) x l :
  (forall x y z, le x y = true -> le y z = true -> le x z = true) -> StronglySorted (fun a b => Is_true (le a b)) l ->
  where_ p (insert_by le x l) = if p x then insert_by le x (where_ p l) else where_ p l.
Proof.
  intros Ht. induction 1 as [|y l Hs IH Hy]; cbn [insert_by List.filter]; [done|].
  destruct (le x y) eqn:E; cbn [List.filter].
  - destruct (p x); [|done]. destruct (p y); cbn [insert_by]; [by rewrite E|].
    assert (Forall (fun z => le x z = true) (where_ p l)) as Hf.
    { apply Forall_forall. intros z [Hz _]%elem_of_where. eapply Forall_forall in Hy; [|done]. eapply Ht; [done|by apply Is_true_true]. }
    destruct (where_ p l) as [|z k]; [done|]. inv Hf. cbn [insert_by]. by rewrite H1.
  - destruct (p y) eqn:Ey; cbn [List.filter]; rewrite IH; [|done]. destruct (p x); [|done]. cbn [insert_by]. by rewrite E.
Qed.

Lemma where_isort {A} (le : A -> A -> bool) (p : A -> bool) l :
  (forall x y, le x y = true \/ le y x = true) -> (forall x y z, le x y = true -> le y z = true -> le x z = true) ->
  where_ p (isort le l) = isort le (where_ p l).
Proof.
  intros Htot Ht. induction l as [|x l IH]; [done|]. cbn [isort List.filter]. rewrite where_insert; [|done|by apply isort_sorted].
  rewrite IH. by destruct (p x).
Qed.

Lemma where_length_le {A} (p : A -> bool) (l : list A) :
  length (where_ p l) <= length l.
Proof. induction l as [|x l IH]; simpl; [lia|]. destruct (p x); simpl; lia. Qed.

Lemma where_ext {A} (p q : A -> bool) (l : list A) :
  (forall x, x ∈ l -> p x = q x) -> where_ p l = where_ q l.
Proof.
  intros H. induction l as [|x l IH]; simpl; [done|].
  rewrite (H x) by left. rewrite IH; [done|]. intros y Hy. apply H. by right.
Qed.

(** Counting rows: a pointwise implication that is strict somewhere. *)
Lemma where_length_mono {A} (p q : A -> bool) (l : list A) :
  (forall x, x ∈ l -> p x = true -> q x = true) ->
  length (where_ p l) <= length (where_ q l).
Proof.
  intros H. induction l as [|x l IH]; simpl; [lia|].
  assert (length (where_ p l) <= length (where_ q l)).
  { apply IH. intros y Hy. apply H. by right. }
  specialize (H x ltac:(left)). destruct (p x), (q x); simpl; lia.
Qed.

(** ** Python dictionaries: insertion-ordered association lists *)

Section alist.
Context {K V : Type} `{EqDecision K}.
Implicit Types (k : K) (v : V) (d : list (K * V)).

Fixpoint aget k d : option V :=
  match d with
  | [] => None
  | (k', v) :: d' => if bool_decide (k' = k) then Some v else aget k d'
  end.

(** Assignment keeps the position of an existing key. *)
Fixpoint aset k v d : list (K * V) :=
  match d with
  | [] => [(k, v)]
  | (k', v') :: d' => if bool_decide (k' = k) then (k', v) :: d' else (k', v') :: aset k v d'
  end.

Definition adel k d : list (K * V) := where_ (fun kv => negb (bool_decide (kv.1 = k))) d.

Lemma aget_aset k k' v d : aget k (aset k' v d) = if bool_decide (k' = k) then Some v else aget k d.
Proof.
  induction d as [|[k0 v0] d IH]; simpl; [done|].
  destruct (decide (k0 = k')) as [->|Hne].
  - rewrite (bool_decide_eq_true_2 (k' = k')) by done. simpl. by case_bool_decide.
  - rewrite (bool_decide_eq_false_2 (k0 = k')) by done. simpl. rewrite IH.
    destruct (decide (k0 = k)) as [->|]; [|by rewrite (bool_decide_eq_false_2 (k0 = k))].
    by rewrite (bool_decide_eq_true_2 (k = k)), (bool_decide_eq_false_2 (k' = k)).
Qed.

Lemma aget_adel k k' d : aget k (adel k' d) = if bool_decide (k' = k) then None else aget k d.
Proof.
  unfold adel. induction d as [|[k0 v0] d IH]; simpl; [by case_bool_decide|].
  destruct (decide (k0 = k')) as [->|Hne].
  - rewrite (bool_decide_eq_true_2 (k' = k')) by done. simpl. rewrite IH. by case_bool_decide.
  - rewrite (bool_decide_eq_false_2 (k0 = k')) by done. simpl. rewrite IH.
    destruct (decide (k0 = k)) as [->|]; [|by rewrite (bool_decide_eq_false_2 (k0 = k))].
    by rewrite (bool_decide_eq_true_2 (k = k)), (bool_decide_eq_false_2 (k' = k)).
Qed.

Lemma aset_keys k v d : (aset k v d).*1 = if bool_decide (k ∈ d.*1) then d.*1 else d.*1 ++ [k].
Proof.
  induction d as [|[k' v'] d IH]; [done|]. simpl. destruct (decide (k' = k)) as [->|E].
  - rewrite (bool_decide_eq_true_2 (k = k)) by done. by rewrite bool_decide_eq_true_2 by set_solver.
  - rewrite (bool_decide_eq_false_2 (k' = k)) by done. rewrite fmap_cons, IH. simpl. clear IH.
    repeat case_bool_decide; try done; exfalso; set_solver.
Qed.

Lemma elem_of_aset k v d e : e ∈ aset k v d -> e.1 = k \/ e ∈ d.
Proof.
  induction d as [|[k' v'] d IH]; cbn [aset]; [intros ->%list_elem_of_singleton; by left|].
  case_bool_decide as H; intros [->|He]%elem_of_cons; cbn [fst]; auto.
  - right. by right.
  - right. left.
  - destruct (IH He); [by left|right; by right].
Qed.

Lemma aset_NoDup k v d : NoDup d.*1 -> NoDup (aset k v d).*1.
Proof.
  intros Hnd. rewrite aset_keys. case_bool_decide; [done|]. apply NoDup_app. split; [done|].
  split; [|apply NoDup_singleton]. by intros x Hx ->%list_elem_of_singleton.
Qed.

Lemma adel_NoDup k d : NoDup d.*1 -> NoDup (adel k d).*1.
Proof.
  unfold adel. induction d as [|[k' v'] d IH]; simpl; [done|]. intros [Hni Hnd]%NoDup_cons.
  case_bool_decide; simpl; [by apply IH|]. apply NoDup_cons. split; [|by apply IH].
  intros (x & Heq & [Hx _]%elem_of_where)%list_elem_of_fmap. apply Hni, list_elem_of_fmap. by exists x.
Qed.

Lemma aget_Some_elem k v d : aget k d = Some v -> (k, v) ∈ d.
Proof.
  induction d as [|[k' v'] d IH]; simpl; [done|]. case_bool_decide.
  - intros [= ->]. subst. left.
  - intros Hg. right. by apply IH.
Qed.

Lemma aget_elem k v d : NoDup d.*1 -> (k, v) ∈ d -> aget k d = Some v.
Proof.
  induction d as [|[k' v'] d IH]; simpl; intros Hnd Hin; [by apply not_elem_of_nil in Hin|].
  apply NoDup_cons in Hnd as [Hni Hnd]. apply elem_of_cons in Hin as [[= -> ->]|Hin].
  - by rewrite bool_decide_eq_true_2.
  - rewrite bool_decide_eq_false_2; [by apply IH|]. intros ->. apply Hni, list_elem_of_fmap. by exists (k, v).
Qed.

Lemma aget_None k d : aget k d = None <-> k ∉ d.*1.
Proof.
  induction d as [|[k' v'] d IH]; simpl.
  - split; [intros _; apply not_elem_of_nil|done].
  - rewrite not_elem_of_cons. case_bool_decide as E; [subst; naive_solver|]. rewrite IH.
    split; [intros; split; [congruence|done]|by intros [_ ?]].
Qed.

Lemma length_aset k v d :
  length (aset k v d) = length d + match aget k d with Some _ => 0 | None => 1 end.
Proof.
  induction d as [|[k' v'] d IH]; simpl; [done|]. destruct (decide (k' = k)) as [->|E].
  - rewrite (bool_decide_eq_true_2 (k = k)) by done. simpl. lia.
  - rewrite (bool_decide_eq_false_2 (k' = k)) by done. simpl. lia.
Qed.
End alist.

#[export] Hint Resolve isort_perm : spool.
