(* ===== verification/Json.v ===== *)
(** * Python's [json] module, as the task code uses it

    [json.dumps(value, ensure_ascii=False[, sort_keys=True])] and
    [json.loads(text)] on strings of code points.  Floats are kept as the
    literal that denotes them; the interpreter's recursion limit is not
    modelled.  The main result is the round trip [loads (dumps v) = v]. *)

From S2P Require Import Prelude.
From Stdlib Require DecimalN DecimalFacts.


(** ** Values *)

Inductive json :=
| JNull
| JBool (b : bool)
| JInt (z : Z)
| JFloat (literal : pystr)
| JStr (s : pystr)
| JArr (items : list json)
| JObj (members : list (pystr * json)).

(** Induction that reaches through arrays and objects. *)
Section json_ind.
Context (P : json -> Prop).
Context (HNull : P JNull) (HBool : forall b, P (JBool b)) (HInt : forall z, P (JInt z)).
Context (HFloat : forall l, P (JFloat l)) (HStr : forall s, P (JStr s)).
Context (HArr : forall l, Forall P l -> P (JArr l)).
Context (HObj : forall m, Forall (fun kv => P kv.2) m -> P (JObj m)).

Fixpoint json_ind' (j : json) : P j :=
  match j with
  | JNull => HNull
  | JBool b => HBool b
  | JInt z => HInt z
  | JFloat l => HFloat l
  | JStr s => HStr s
  | JArr l => HArr l ((fix go l : Forall P l :=
      match l with
      | [] => Forall_nil_2 _
      | x :: l' => Forall_cons_2 _ _ _ (json_ind' x) (go l')
      end) l)
  | JObj m => HObj m ((fix go m : Forall (fun kv => P kv.2) m :=
      match m with
      | [] => Forall_nil_2 _
      | kv :: m' => Forall_cons_2 _ _ _ (json_ind' kv.2) (go m')
      end) m)
  end.
End json_ind.

(** ** Dictionaries: insertion-ordered association lists *)

Abbreviation dict := (list (pystr * json)).

Fixpoint dict_get (k : pystr) (d : dict) : option json :=
  match d with
  | [] => None
  | (k', v) :: d' => if bool_decide (k' = k) then Some v else dict_get k d'
  end.

(** [d[k] = v]: an existing key keeps its place. *)
Fixpoint dict_set (k : pystr) (v : json) (d : dict) : dict :=
  match d with
  | [] => [(k, v)]
  | (k', v') :: d' => if bool_decide (k' = k) then (k', v) :: d' else (k', v') :: dict_set k v d'
  end.

(** [dict(pairs)]: a repeated key takes the last value. *)
Definition dict_of_pairs (l : dict) : dict := foldl (fun d kv => dict_set kv.1 kv.2 d) [] l.

Lemma dict_get_set_eq k v d : dict_get k (dict_set k v d) = Some v.
Proof.
  induction d as [|[k' v'] d IH]; simpl; repeat case_bool_decide; simpl; try done;
    by case_bool_decide.
Qed.

Lemma dict_get_set_ne k k' v d : k <> k' -> dict_get k' (dict_set k v d) = dict_get k' d.
Proof.
  intros Hne. induction d as [|[k0 v0] d IH]; simpl.
  - by rewrite bool_decide_eq_false_2.
  - case_bool_decide as E; simpl; [|by rewrite IH]. subst.
    by rewrite bool_decide_eq_false_2.
Qed.

Lemma dict_set_fresh k v d : k ∉ d.*1 -> dict_set k v d = d ++ [(k, v)].
Proof.
  induction d as [|[k' v'] d IH]; csimpl; [done|].
  intros [Hne Hin]%not_elem_of_cons. rewrite bool_decide_eq_false_2 by done.
  by rewrite IH.
Qed.

Lemma dict_set_same k v d : dict_get k d = Some v -> dict_set k v d = d.
Proof.
  induction d as [|[k' v'] d IH]; simpl; [done|]. case_bool_decide; [by intros [= ->]|].
  intros H'. by rewrite IH.
Qed.

Lemma dict_set_keys k v d k' : k' ∈ (dict_set k v d).*1 <-> k' = k \/ k' ∈ d.*1.
Proof.
  induction d as [|[k0 v0] d IH]; csimpl; [set_solver|].
  case_bool_decide; subst; csimpl; set_solver.
Qed.

Lemma dict_set_NoDup k v d : NoDup d.*1 -> NoDup (dict_set k v d).*1.
Proof.
  induction d as [|[k' v'] d IH]; csimpl.
  - intros _. apply NoDup_singleton.
  - intros [Hin Hd]%NoDup_cons. case_bool_decide; csimpl; apply NoDup_cons; [done|].
    split; [|by apply IH]. rewrite dict_set_keys. naive_solver.
Qed.

Lemma dict_of_pairs_go l d :
  NoDup (d ++ l).*1 -> foldl (fun d kv => dict_set kv.1 kv.2 d) d l = d ++ l.
Proof.
  revert d. induction l as [|[k v] l IH]; intros d Hd; simpl; [by rewrite app_nil_r|].
  rewrite fmap_app in Hd. csimpl in *. apply NoDup_app in Hd as (Hd & Hdis & Hl).
  rewrite dict_set_fresh.
  - rewrite IH; [by rewrite <- app_assoc|]. rewrite <- app_assoc. simpl.
    rewrite fmap_app. csimpl. by apply NoDup_app.
  - intros Hin. apply (Hdis _ Hin). by left.
Qed.

Lemma dict_of_pairs_id l : NoDup l.*1 -> dict_of_pairs l = l.
Proof. apply (dict_of_pairs_go l []). Qed.

(** ** Printing *)

(** The code points with a meaning in JSON text. *)
Definition c_quote := 34%N.
Definition c_backslash := 92%N.
Definition c_comma := 44%N.
Definition c_colon := 58%N.
Definition c_lbrace := 123%N.
Definition c_rbrace := 125%N.
Definition c_lbracket := 91%N.
Definition c_rbracket := 93%N.
Definition c_minus := 45%N.
Definition c_plus := 43%N.
Definition c_dot := 46%N.
Definition c_space := 32%N.

(** Lower-case hexadecimal digit. *)
Definition hex_digit (n : N) : N := if (n <? 10)%N then (48 + n)%N else (87 + n)%N.

(** [ESCAPE_DCT] of [json.encoder]. *)
Definition escape_char (c : N) : pystr :=
  if (c =? 34)%N then [92; 34]%N
  else if (c =? 92)%N then [92; 92]%N
  else if (c =? 10)%N then [92; 110]%N
  else if (c =? 13)%N then [92; 114]%N
  else if (c =? 9)%N then [92; 116]%N
  else if (c =? 12)%N then [92; 102]%N
  else if (c =? 8)%N then [92; 98]%N
  else if (c <? 32)%N then [92; 117; 48; 48; hex_digit (c / 16); hex_digit (c mod 16)]%N
  else [c].

Definition dumps_str (s : pystr) : pystr := [c_quote] ++ (s ≫= escape_char) ++ [c_quote].

Fixpoint uint_codes (d : Decimal.uint) : pystr :=
  match d with
  | Decimal.Nil => []
  | Decimal.D0 d => 48%N :: uint_codes d
  | Decimal.D1 d => 49%N :: uint_codes d
  | Decimal.D2 d => 50%N :: uint_codes d
  | Decimal.D3 d => 51%N :: uint_codes d
  | Decimal.D4 d => 52%N :: uint_codes d
  | Decimal.D5 d => 53%N :: uint_codes d
  | Decimal.D6 d => 54%N :: uint_codes d
  | Decimal.D7 d => 55%N :: uint_codes d
  | Decimal.D8 d => 56%N :: uint_codes d
  | Decimal.D9 d => 57%N :: uint_codes d
  end.

Definition dumps_nat (n : N) : pystr := uint_codes (N.to_uint n).

Definition dumps_int (z : Z) : pystr :=
  match z with
  | Zneg p => c_minus :: dumps_nat (Npos p)
  | _ => dumps_nat (Z.to_N z)
  end.

(** ** Python's [str] and [bool] on decoded values

    [str] of a float or a container and the truth of a float are arguments. *)
Definition py_str (py_repr : json -> pystr) (v : json) : pystr :=
  match v with
  | JNull => u "None"
  | JBool true => u "True"
  | JBool false => u "False"
  | JInt z => dumps_int z
  | JStr s => s
  | JFloat _ | JArr _ | JObj _ => py_repr v
  end.

Definition py_bool (float_true : pystr -> bool) (v : option json) : bool :=
  match v with
  | None | Some JNull | Some (JStr []) | Some (JArr []) | Some (JObj []) => false
  | Some (JBool b) => b
  | Some (JInt z) => negb (z =? 0)%Z
  | Some (JFloat l) => float_true l
  | Some _ => true
  end.

Fixpoint join (sep : pystr) (l : list pystr) : pystr :=
  match l with
  | [] => []
  | [x] => x
  | x :: l' => x ++ sep ++ join sep l'
  end.

(** Code-point order on strings, the order of [sorted] on [str]. *)
Fixpoint str_leb (a b : pystr) : bool :=
  match a, b with
  | [], _ => true
  | _ :: _, [] => false
  | x :: a', y :: b' => if (x <? y)%N then true else if (x =? y)%N then str_leb a' b' else false
  end.

Lemma str_leb_total a b : str_leb a b = true \/ str_leb b a = true.
Proof.
  revert b. induction a as [|x a IH]; intros [|y b]; simpl; auto.
  destruct (N.ltb_spec x y); [auto|]. destruct (N.ltb_spec y x); [auto|].
  assert (x = y) as -> by lia. rewrite N.eqb_refl. apply IH.
Qed.

Lemma str_leb_trans a b c : str_leb a b = true -> str_leb b c = true -> str_leb a c = true.
Proof.
  revert b c. induction a as [|x a IH]; intros [|y b] [|z c]; simpl; try done.
  destruct (N.ltb_spec x y), (N.ltb_spec y z), (N.ltb_spec x z), (N.eqb_spec x y), (N.eqb_spec y z), (N.eqb_spec x z);
    try done; try lia. apply IH.
Qed.

Lemma str_leb_antisym a b : str_leb a b = true -> str_leb b a = true -> a = b.
Proof.
  revert b. induction a as [|x a IH]; intros [|y b]; simpl; try done.
  destruct (N.ltb_spec x y), (N.ltb_spec y x), (N.eqb_spec x y), (N.eqb_spec y x); try done; try lia.
  subst. intros H1 H2. f_equal. by apply IH.
Qed.

Definition key_leb {V} (a b : pystr * V) : bool := str_leb a.1 b.1.

(** What follows a separator: the default separators are [", "] and [": "],
    the compact ones [","] and [":"]. *)
Definition gap (compact : bool) : pystr := if compact then [] else [c_space].

Definition dumps_member (compact : bool) (kt : pystr * pystr) : pystr :=
  dumps_str kt.1 ++ (c_colon :: gap compact) ++ kt.2.

(** [json.dumps(value, ensure_ascii=False, sort_keys=sort_keys)], with
    [separators=(",", ":")] when [compact]. *)
Fixpoint dumps_sep (compact sort_keys : bool) (j : json) : pystr :=
  match j with
  | JNull => u "null"
  | JBool true => u "true"
  | JBool false => u "false"
  | JInt z => dumps_int z
  | JFloat l => l
  | JStr s => dumps_str s
  | JArr l => [c_lbracket] ++ join (c_comma :: gap compact) (map (dumps_sep compact sort_keys) l) ++ [c_rbracket]
  | JObj m =>
      let texts := map (fun kv => (kv.1, dumps_sep compact sort_keys kv.2)) m in
      let texts := if sort_keys then isort key_leb texts else texts in
      [c_lbrace] ++ join (c_comma :: gap compact) (map (dumps_member compact) texts) ++ [c_rbrace]
  end.

Abbreviation dumps := (dumps_sep false).

(** The value whose members are sorted at every level. *)
Fixpoint sort_json (j : json) : json :=
  match j with
  | JArr l => JArr (map sort_json l)
  | JObj m => JObj (isort key_leb (map (fun kv => (kv.1, sort_json kv.2)) m))
  | _ => j
  end.

(** ** Parsing *)

Definition is_digit (c : N) : bool := ((48 <=? c) && (c <=? 57))%N.

Definition is_ws (c : N) : bool := ((c =? 32) || (c =? 9) || (c =? 10) || (c =? 13))%N.

Fixpoint skip_ws (s : pystr) : pystr :=
  match s with
  | c :: r => if is_ws c then skip_ws r else s
  | [] => []
  end.

Fixpoint span_digits (s : pystr) : pystr * pystr :=
  match s with
  | c :: r => if is_digit c then let p := span_digits r in (c :: p.1, p.2) else ([], s)
  | [] => ([], [])
  end.

(** The optional sign of [NUMBER_RE]. *)
Definition scan_sign (s : pystr) : pystr * pystr :=
  match s with
  | c :: r => if (c =? c_minus)%N then ([c], r) else ([], s)
  | [] => ([], [])
  end.

(** The integer part of [NUMBER_RE]: an optional minus sign and then a
    single zero or a digit run that does not start with zero. *)
Definition scan_int (s : pystr) : option (pystr * pystr) :=
  let sg := scan_sign s in
  let ds := span_digits sg.2 in
  match ds.1 with
  | [] => None
  | d :: ds' => if (d =? 48)%N then Some (sg.1 ++ [d], ds' ++ ds.2) else Some (sg.1 ++ d :: ds', ds.2)
  end.

(** The optional fraction: a dot and at least one digit. *)
Definition scan_frac (s : pystr) : pystr * pystr :=
  match s with
  | c :: r =>
      if (c =? c_dot)%N then
        let ds := span_digits r in
        match ds.1 with [] => ([], s) | _ => (c :: ds.1, ds.2) end
      else ([], s)
  | [] => ([], [])
  end.

Definition scan_exp_sign (s : pystr) : pystr * pystr :=
  match s with
  | c :: r => if ((c =? c_minus) || (c =? c_plus))%N then ([c], r) else ([], s)
  | [] => ([], [])
  end.

(** The optional exponent, with its optional sign. *)
Definition scan_exp (s : pystr) : pystr * pystr :=
  match s with
  | c :: r =>
      if ((c =? 101) || (c =? 69))%N then
        let sg := scan_exp_sign r in
        let ds := span_digits sg.2 in
        match ds.1 with [] => ([], s) | _ => (c :: sg.1 ++ ds.1, ds.2) end
      else ([], s)
  | [] => ([], [])
  end.

Fixpoint codes_uint (s : pystr) : Decimal.uint :=
  match s with
  | [] => Decimal.Nil
  | c :: r =>
      let d := codes_uint r in
      if (c =? 48)%N then Decimal.D0 d else if (c =? 49)%N then Decimal.D1 d else if (c =? 50)%N then Decimal.D2 d
      else if (c =? 51)%N then Decimal.D3 d else if (c =? 52)%N then Decimal.D4 d else if (c =? 53)%N then Decimal.D5 d
      else if (c =? 54)%N then Decimal.D6 d else if (c =? 55)%N then Decimal.D7 d else if (c =? 56)%N then Decimal.D8 d
      else Decimal.D9 d
  end.

Definition int_of_text (s : pystr) : Z :=
  let sg := scan_sign s in
  let n := Z.of_N (N.of_uint (codes_uint sg.2)) in
  match sg.1 with [] => n | _ => - n end.

Definition scan_number (s : pystr) : option (json * pystr) :=
  match scan_int s with
  | None => None
  | Some (i, r1) =>
      let f := scan_frac r1 in
      let e := scan_exp f.2 in
      Some (match f.1 ++ e.1 with
            | [] => JInt (int_of_text i)
            | fe => JFloat (i ++ fe)
            end, e.2)
  end.

Definition hex_val (c : N) : option N :=
  if is_digit c then Some (c - 48)%N
  else if ((97 <=? c) && (c <=? 102))%N then Some (c - 87)%N
  else if ((65 <=? c) && (c <=? 70))%N then Some (c - 55)%N
  else None.

(** The four hexadecimal digits after [\u]. *)
Definition hex4 (a b c d : N) : option N :=
  match hex_val a, hex_val b, hex_val c, hex_val d with
  | Some a, Some b, Some c, Some d => Some (((a * 16 + b) * 16 + c) * 16 + d)%N
  | _, _, _, _ => None
  end.

(** [BACKSLASH] of [json.decoder]. *)
Definition unescape (e : N) : option N :=
  if ((e =? 34) || (e =? 92) || (e =? 47))%N then Some e
  else if (e =? 98)%N then Some 8%N
  else if (e =? 102)%N then Some 12%N
  else if (e =? 110)%N then Some 10%N
  else if (e =? 114)%N then Some 13%N
  else if (e =? 116)%N then Some 9%N
  else None.

Definition push (c : N) (o : option (pystr * pystr)) : option (pystr * pystr) :=
  match o with
  | Some (s, r) => Some (c :: s, r)
  | None => None
  end.

(** [scanstring]: the body of a string literal, after its opening quote. *)
Fixpoint scan_str (s : pystr) : option (pystr * pystr) :=
  match s with
  | [] => None
  | c :: r =>
      if (c =? 34)%N then Some ([], r)
      else if (c =? 92)%N then
        match r with
        | [] => None
        | e :: r1 =>
            if (e =? 117)%N then
              match r1 with
              | h1 :: h2 :: h3 :: h4 :: r2 =>
                  match hex4 h1 h2 h3 h4 with
                  | None => None
                  | Some x =>
                      if ((0xd800 <=? x) && (x <=? 0xdbff))%N then
                        match r2 with
                        | b :: e2 :: k1 :: k2 :: k3 :: k4 :: r3 =>
                            if ((b =? 92) && (e2 =? 117))%N then
                              match hex4 k1 k2 k3 k4 with
                              | None => None
                              | Some y =>
                                  if ((0xdc00 <=? y) && (y <=? 0xdfff))%N
                                  then push (0x10000 + (x - 0xd800) * 1024 + (y - 0xdc00))%N (scan_str r3)
                                  else push x (scan_str r2)
                              end
                            else push x (scan_str r2)
                        | _ => push x (scan_str r2)
                        end
                      else push x (scan_str r2)
                  end
              | _ => None
              end
            else match unescape e with
                 | Some x => push x (scan_str r1)
                 | None => None
                 end
        end
      else if (c <? 32)%N then None
      else push c (scan_str r)
  end.

(** A keyword of the grammar. *)
Definition scan_word (w : pystr) (s : pystr) : option pystr :=
  if bool_decide (take (length w) s = w) then Some (drop (length w) s) else None.

Definition scan_atom (s : pystr) : option (json * pystr) :=
  match scan_word (u "null") s with
  | Some r => Some (JNull, r)
  | None =>
  match scan_word (u "true") s with
  | Some r => Some (JBool true, r)
  | None =>
  match scan_word (u "false") s with
  | Some r => Some (JBool false, r)
  | None =>
  match scan_number s with
  | Some vr => Some vr
  | None =>
  match scan_word (u "NaN") s with
  | Some r => Some (JFloat (u "NaN"), r)
  | None =>
  match scan_word (u "Infinity") s with
  | Some r => Some (JFloat (u "Infinity"), r)
  | None =>
  match scan_word (u "-Infinity") s with
  | Some r => Some (JFloat (u "-Infinity"), r)
  | None => None
  end end end end end end end.

(** [scan_once], with the array and object loops; [strict] is for a hook that
    refuses an object with a repeated key. *)
Section parsing.
Context (strict : bool).

Fixpoint parse_value (fuel : nat) (s : pystr) : option (json * pystr) :=
  match fuel with
  | O => None
  | S f =>
      match s with
      | [] => None
      | c :: r =>
          if (c =? c_quote)%N then
            match scan_str r with
            | Some (x, r') => Some (JStr x, r')
            | None => None
            end
          else if (c =? c_lbrace)%N then
            match skip_ws r with
            | c' :: r' =>
                if (c' =? c_rbrace)%N then Some (JObj [], r')
                else match parse_members f (c' :: r') with
                     | Some (m, r'') =>
                         if strict && negb (bool_decide (NoDup m.*1)) then None else Some (JObj (dict_of_pairs m), r'')
                     | None => None
                     end
            | [] => None
            end
          else if (c =? c_lbracket)%N then
            match skip_ws r with
            | c' :: r' =>
                if (c' =? c_rbracket)%N then Some (JArr [], r')
                else match parse_items f (c' :: r') with
                     | Some (l, r'') => Some (JArr l, r'')
                     | None => None
                     end
            | [] => None
            end
          else scan_atom s
      end
  end
with parse_items (fuel : nat) (s : pystr) : option (list json * pystr) :=
  match fuel with
  | O => None
  | S f =>
      match parse_value f s with
      | None => None
      | Some (v, r) =>
          match skip_ws r with
          | c :: r' =>
              if (c =? c_comma)%N then
                match parse_items f (skip_ws r') with
                | Some (l, r'') => Some (v :: l, r'')
                | None => None
                end
              else if (c =? c_rbracket)%N then Some ([v], r')
              else None
          | [] => None
          end
      end
  end
with parse_members (fuel : nat) (s : pystr) : option (dict * pystr) :=
  match fuel with
  | O => None
  | S f =>
      match s with
      | [] => None
      | q :: r =>
          if (q =? c_quote)%N then
            match scan_str r with
            | None => None
            | Some (k, r1) =>
                match skip_ws r1 with
                | c :: r2 =>
                    if (c =? c_colon)%N then
                      match parse_value f (skip_ws r2) with
                      | None => None
                      | Some (v, r3) =>
                          match skip_ws r3 with
                          | d :: r4 =>
                              if (d =? c_comma)%N then
                                match parse_members f (skip_ws r4) with
                                | Some (m, r5) => Some ((k, v) :: m, r5)
                                | None => None
                                end
                              else if (d =? c_rbrace)%N then Some ([(k, v)], r4)
                              else None
                          | [] => None
                          end
                      end
                    else None
                | [] => None
                end
            end
          else None
      end
  end.

(** [json.loads(text)]; [None] is [JSONDecodeError].  The fuel covers every
    nesting the text can hold. *)
Definition loads_with (s : pystr) : option json :=
  let s' := skip_ws s in
  match parse_value (2 * length s' + 2) s' with
  | Some (j, r) => match skip_ws r with [] => Some j | _ => None end
  | None => None
  end.
End parsing.

Definition loads : pystr -> option json := loads_with false.

Example loads_example :
  loads (uq "{ 'a': [1, -2.5e3, true], 'b': 'x\u0041\n' }") =
  Some (JObj [(u "a", JArr [JInt 1; JFloat (u "-2.5e3"); JBool true]);
              (u "b", JStr [120; 65; 10]%N)]).
Proof. vm_compute. reflexivity. Qed.

(** ** Round trip *)

(** What may follow a value inside a document that [dumps] wrote. *)
Definition delim (r : pystr) : Prop :=
  match r with
  | [] => True
  | c :: _ => c = c_comma \/ c = c_rbracket \/ c = c_rbrace \/ c = 10%N
  end.

Lemma delim_cons c r : c = c_comma \/ c = c_rbracket \/ c = c_rbrace \/ c = 10%N -> delim (c :: r).
Proof. done. Qed.

Ltac delim_cases r H :=
  let c := fresh "c" in
  destruct r as [|c r]; [|destruct H as [H|[H|[H|H]]]; subst c].

Lemma span_digits_app s r :
  delim r -> span_digits (s ++ r) = ((span_digits s).1, (span_digits s).2 ++ r).
Proof.
  intros Hr. induction s as [|c s IH]; simpl.
  - by delim_cases r Hr.
  - destruct (is_digit c); simpl; [by rewrite IH|done].
Qed.

Lemma scan_sign_app s r : s <> [] -> scan_sign (s ++ r) = ((scan_sign s).1, (scan_sign s).2 ++ r).
Proof. destruct s as [|c s]; [done|]. simpl. by destruct (c =? c_minus)%N. Qed.

Lemma scan_int_nil_l s i r : scan_int s = Some (i, r) -> s <> [].
Proof. by destruct s. Qed.

Lemma scan_int_app s i r1 r :
  scan_int s = Some (i, r1) -> delim r -> scan_int (s ++ r) = Some (i, r1 ++ r).
Proof.
  intros H Hr. pose proof (scan_int_nil_l _ _ _ H) as Hs. unfold scan_int in *.
  rewrite scan_sign_app by done. cbn [fst snd]. rewrite span_digits_app by done. cbn [fst snd].
  destruct ((span_digits (scan_sign s).2).1) as [|d ds]; [done|].
  destruct (d =? 48)%N; simplify_eq; by rewrite ?app_assoc.
Qed.

Lemma scan_frac_app s r :
  delim r -> scan_frac (s ++ r) = ((scan_frac s).1, (scan_frac s).2 ++ r).
Proof.
  intros Hr. destruct s as [|c s]; simpl.
  - by delim_cases r Hr.
  - destruct (c =? c_dot)%N; [|done]. rewrite span_digits_app by done. cbn [fst snd].
    by destruct ((span_digits s).1).
Qed.

Lemma scan_exp_sign_app s r :
  delim r -> scan_exp_sign (s ++ r) = ((scan_exp_sign s).1, (scan_exp_sign s).2 ++ r).
Proof.
  intros Hr. destruct s as [|c s]; simpl.
  - by delim_cases r Hr.
  - by destruct ((c =? c_minus) || (c =? c_plus))%N.
Qed.

Lemma scan_exp_app s r :
  delim r -> scan_exp (s ++ r) = ((scan_exp s).1, (scan_exp s).2 ++ r).
Proof.
  intros Hr. destruct s as [|c s]; simpl.
  - by delim_cases r Hr.
  - destruct ((c =? 101) || (c =? 69))%N; [|done]. rewrite scan_exp_sign_app by done. cbn [fst snd].
    rewrite span_digits_app by done. cbn [fst snd]. by destruct ((span_digits _).1).
Qed.

Lemma scan_number_app s v r1 r :
  scan_number s = Some (v, r1) -> delim r -> scan_number (s ++ r) = Some (v, r1 ++ r).
Proof.
  intros H Hr. unfold scan_number in *. destruct (scan_int s) as [[i r0]|] eqn:E; [|done].
  rewrite (scan_int_app _ _ _ _ E Hr). rewrite scan_frac_app by done. cbn [fst snd].
  rewrite scan_exp_app by done. cbn [fst snd]. by simplify_eq.
Qed.

(** Integers. *)
Definition nonzero_head (d : Decimal.uint) : Prop :=
  match d with Decimal.Nil | Decimal.D0 _ => False | _ => True end.

Lemma to_uint_shape n : N.to_uint n = Decimal.D0 Decimal.Nil \/ nonzero_head (N.to_uint n).
Proof.
  assert (Decimal.unorm (N.to_uint n) = N.to_uint n) as H.
  { rewrite <- DecimalN.Unsigned.to_of. by rewrite DecimalN.Unsigned.of_to. }
  rewrite <- H. unfold Decimal.unorm. remember (Decimal.nzhead (N.to_uint n)) as d eqn:E.
  destruct d; simpl; auto. exfalso. symmetry in E. by apply DecimalFacts.nzhead_nonzero in E.
Qed.

Lemma codes_uint_codes d : codes_uint (uint_codes d) = d.
Proof. induction d; simpl; congruence. Qed.

Lemma span_digits_uint d r : delim r -> span_digits (uint_codes d ++ r) = (uint_codes d, r).
Proof.
  intros Hr. induction d; simpl; [by delim_cases r Hr|..]; by rewrite IHd.
Qed.

Lemma scan_sign_nat n r :
  scan_sign (dumps_nat n ++ r) = ([], dumps_nat n ++ r).
Proof.
  unfold dumps_nat. destruct (to_uint_shape n) as [->|H]; [done|].
  by destruct (N.to_uint n).
Qed.

Lemma scan_int_digits n r :
  delim r ->
  match (span_digits (dumps_nat n ++ r)).1 with
  | [] => False
  | d :: ds => (d = 48%N -> ds = []) /\ d :: ds = dumps_nat n
  end /\ (span_digits (dumps_nat n ++ r)).2 = r.
Proof.
  intros Hr. unfold dumps_nat. rewrite span_digits_uint by done. cbn [fst snd].
  destruct (to_uint_shape n) as [->|H]; [done|]. by destruct (N.to_uint n).
Qed.

Lemma scan_int_dumps z r : delim r -> scan_int (dumps_int z ++ r) = Some (dumps_int z, r).
Proof.
  intros Hr. unfold scan_int.
  assert (forall n sg, scan_sign (sg ++ dumps_nat n ++ r) = (sg, dumps_nat n ++ r) ->
    (let sgn := scan_sign (sg ++ dumps_nat n ++ r) in
     let ds := span_digits sgn.2 in
     match ds.1 with
     | [] => None
     | d :: ds' => if (d =? 48)%N then Some (sgn.1 ++ [d], ds' ++ ds.2) else Some (sgn.1 ++ d :: ds', ds.2)
     end) = Some (sg ++ dumps_nat n, r)) as Hgen.
  { intros n sg Hsg. rewrite Hsg. cbv zeta. cbn [fst snd].
    pose proof (scan_int_digits n r Hr) as [H1 H2].
    destruct ((span_digits (dumps_nat n ++ r)).1) as [|d ds]; [done|].
    destruct H1 as [Hz Heq]. rewrite H2, <- Heq. destruct (N.eqb_spec d 48); [|done].
    by rewrite Hz. }
  destruct z as [|p|p]; [apply (Hgen 0%N [])|apply (Hgen (Npos p) [])|apply (Hgen (Npos p) [c_minus])];
    try done; apply scan_sign_nat.
Qed.

Lemma int_of_text_dumps z : int_of_text (dumps_int z) = z.
Proof.
  unfold int_of_text. destruct z as [|p|p]; unfold dumps_int.
  - done.
  - pose proof (scan_sign_nat (Npos p) []) as H. rewrite app_nil_r in H.
    change (Z.to_N (Z.pos p)) with (Npos p). rewrite H. cbn [fst snd]. unfold dumps_nat.
    by rewrite codes_uint_codes, DecimalN.Unsigned.of_to.
  - change (scan_sign _) with ([c_minus], dumps_nat (Npos p)). cbn [fst snd]. unfold dumps_nat.
    by rewrite codes_uint_codes, DecimalN.Unsigned.of_to.
Qed.

Lemma scan_frac_delim r : delim r -> scan_frac r = ([], r).
Proof. intros Hr. by delim_cases r Hr. Qed.

Lemma scan_exp_delim r : delim r -> scan_exp r = ([], r).
Proof. intros Hr. by delim_cases r Hr. Qed.

Lemma scan_number_dumps z r : delim r -> scan_number (dumps_int z ++ r) = Some (JInt z, r).
Proof.
  intros Hr. unfold scan_number. rewrite scan_int_dumps by done.
  rewrite scan_frac_delim by done. cbn [fst snd]. rewrite scan_exp_delim by done. cbn.
  by rewrite int_of_text_dumps.
Qed.

(** Strings. *)
Lemma hex_val_digit n : (n < 16)%N -> hex_val (hex_digit n) = Some n.
Proof.
  intros Hn. unfold hex_val, hex_digit, is_digit. destruct (N.ltb_spec n 10).
  - rewrite (proj2 (N.leb_le _ _)), (proj2 (N.leb_le _ _)) by lia. simpl. f_equal. lia.
  - rewrite (proj2 (N.leb_le 48 _)) by lia. rewrite (proj2 (N.leb_gt (87 + n) 57)) by lia.
    rewrite (proj2 (N.leb_le 97 _)), (proj2 (N.leb_le _ 102)) by lia. simpl. f_equal. lia.
Qed.

Lemma scan_str_escape c r : scan_str (escape_char c ++ r) = push c (scan_str r).
Proof.
  unfold escape_char.
  repeat match goal with
  | |- context [(?a =? ?b)%N] => destruct (N.eqb_spec a b); [subst; reflexivity|]
  end.
  destruct (N.ltb_spec c 32) as [Hlt|Hge].
  - cbn -[N.div N.modulo hex_digit hex4].
    assert (hex4 48 48 (hex_digit (c / 16)) (hex_digit (c mod 16)) = Some c) as ->.
    { unfold hex4. rewrite !hex_val_digit.
      - cbn [hex_val is_digit]. cbn -[N.div N.modulo]. f_equal.
        pose proof (N.div_mod c 16). lia.
      - by apply N.mod_lt.
      - apply N.Div0.div_lt_upper_bound. lia. }
    destruct (N.leb_spec 0xd800 c); [lia|]. done.
  - cbn [app scan_str].
    rewrite (proj2 (N.eqb_neq c 34)), (proj2 (N.eqb_neq c 92)) by done.
    by rewrite (proj2 (N.ltb_ge c 32)).
Qed.

Lemma scan_str_dumps s r : scan_str ((s ≫= escape_char) ++ c_quote :: r) = Some (s, r).
Proof.
  induction s as [|c s IH]; [done|]. csimpl. rewrite <- app_assoc.
  rewrite scan_str_escape. by rewrite IH.
Qed.

(** Values. *)
Definition wf_float (l : pystr) : bool :=
  bool_decide (l = u "NaN") || bool_decide (l = u "Infinity") || bool_decide (l = u "-Infinity")
  || match scan_number l with
     | Some (JFloat l', []) => bool_decide (l = l')
     | _ => false
     end.

(** Values Python can hold: float literals denote floats and the keys of a
    dictionary are distinct. *)
Fixpoint wf_json (j : json) : bool :=
  match j with
  | JFloat l => wf_float l
  | JArr l => List.forallb wf_json l
  | JObj m => bool_decide (NoDup m.*1) && List.forallb (fun kv => wf_json kv.2) m
  | _ => true
  end.

Lemma wf_JArr l : wf_json (JArr l) = true <-> Forall (fun j => wf_json j = true) l.
Proof. simpl. rewrite List.forallb_forall. rewrite Forall_forall. by setoid_rewrite list_elem_of_In. Qed.

Lemma wf_JObj m :
  wf_json (JObj m) = true <-> NoDup m.*1 /\ Forall (fun kv => wf_json kv.2 = true) m.
Proof.
  simpl. rewrite andb_true_iff, bool_decide_eq_true, List.forallb_forall, Forall_forall.
  by setoid_rewrite list_elem_of_In.
Qed.

Definition num_head (s : pystr) : Prop :=
  match s with c :: _ => is_digit c = true \/ c = c_minus | [] => False end.

Lemma scan_int_head s i r : scan_int s = Some (i, r) -> num_head s.
Proof.
  destruct s as [|c s]; [done|]. unfold scan_int. simpl.
  destruct (N.eqb_spec c c_minus); simpl; [by right|]. destruct (is_digit c) eqn:E; [by left|done].
Qed.

Lemma scan_number_head s v r : scan_number s = Some (v, r) -> num_head s.
Proof.
  unfold scan_number. destruct (scan_int s) as [[i r0]|] eqn:E; [|done].
  intros _. by eapply scan_int_head.
Qed.

Lemma num_head_atom s vr : num_head s -> scan_number s = Some vr -> scan_atom s = Some vr.
Proof.
  destruct s as [|c s]; [done|]. intros Hh Hn. unfold scan_atom.
  assert (forall w w', (w =? 45)%N = false -> is_digit w = false ->
    scan_word (w :: w') (c :: s) = None) as Hw.
  { intros w w' H1 H2. unfold scan_word. rewrite bool_decide_eq_false_2; [done|].
    simpl. intros [= Hc _]. subst. unfold c_minus in *. destruct Hh as [Hh|Hh]; [congruence|].
    by subst. }
  cbn [u]. rewrite !Hw by done. by rewrite Hn.
Qed.

Lemma num_head_value strict f s vr :
  num_head s -> scan_number s = Some vr -> parse_value strict (S f) s = Some vr.
Proof.
  intros Hh Hn. rewrite <- (num_head_atom s vr Hh Hn). destruct s as [|c s]; [done|].
  cbn [parse_value].
  assert (forall d, is_digit d = false -> (d =? 45)%N = false -> (c =? d)%N = false) as Hd.
  { intros d H1 H2. apply N.eqb_neq. intros ->. simpl in Hh. unfold c_minus in *.
    destruct Hh as [|Hh]; [congruence|]. by subst. }
  by rewrite !Hd.
Qed.

Lemma scan_word_app w r : scan_word w (w ++ r) = Some r.
Proof.
  unfold scan_word. rewrite take_app_length, drop_app_length.
  by rewrite bool_decide_eq_true_2.
Qed.

(** The first character of a printed value. *)
Definition value_head (c : N) : Prop := is_ws c = false /\ c <> c_rbracket.

Lemma num_head_value_head s : num_head s -> exists c t, s = c :: t /\ value_head c.
Proof.
  destruct s as [|c t]; [done|]. intros Hh. exists c, t. split; [done|]. unfold value_head.
  destruct Hh as [Hh| ->]; [|done]. unfold is_digit, is_ws in *. to_prop.
  rewrite N.leb_le in *. split.
  - rewrite !orb_false_iff, !N.eqb_neq. lia.
  - unfold c_rbracket. lia.
Qed.

Lemma num_head_dumps_int z : num_head (dumps_int z).
Proof.
  eapply scan_number_head with (r := []). rewrite <- (app_nil_r (dumps_int z)).
  by apply scan_number_dumps.
Qed.

Lemma wf_float_cases l :
  wf_float l = true ->
  l = u "NaN" \/ l = u "Infinity" \/ l = u "-Infinity" \/ scan_number l = Some (JFloat l, []).
Proof.
  unfold wf_float. rewrite !orb_true_iff, !bool_decide_eq_true.
  intros [[[?|?]|?]|H]; auto. right; right; right.
  destruct (scan_number l) as [[[] []]|]; try done. by apply bool_decide_eq_true in H as <-.
Qed.

Section printing.
Context (strict compact : bool).
Abbreviation parse_value := (parse_value strict).
Abbreviation parse_items := (parse_items strict).
Abbreviation parse_members := (parse_members strict).

Lemma skip_ws_gap s : skip_ws (gap compact ++ s) = skip_ws s.
Proof. by destruct compact. Qed.

Lemma dumps_head j :
wf_json j = true -> exists c t, dumps_sep compact false j = c :: t /\ value_head c.
Proof.
destruct j as [|[]|z|l|s|l|m]; intros Hwf.
all: try by (eexists _, _; split; [reflexivity|]).
- apply num_head_value_head, num_head_dumps_int.
- apply wf_float_cases in Hwf as [->|[->|[->|H]]].
  1-3: by (eexists _, _; split; [reflexivity|]).
  eapply num_head_value_head, scan_number_head, H.
Qed.

Lemma skip_ws_dumps j r :
wf_json j = true -> skip_ws (dumps_sep compact false j ++ r) = dumps_sep compact false j ++ r.
Proof. intros (c & t & -> & Hc & _)%dumps_head. simpl. by rewrite Hc. Qed.

Lemma parse_float l fuel r :
wf_float l = true -> fuel <> 0 -> delim r -> parse_value fuel (l ++ r) = Some (JFloat l, r).
Proof.
intros Hwf Hf Hr. destruct fuel as [|f]; [done|].
apply wf_float_cases in Hwf as [->|[->|[->|H]]].
- by destruct r.
- by destruct r.
- by destruct r.
- pose proof (scan_number_app _ _ _ _ H Hr) as H'. apply num_head_value; [|done].
  by eapply scan_number_head.
Qed.

Definition parses_back (j : json) : Prop :=
wf_json j = true -> forall fuel r,
2 * length (dumps_sep compact false j) + 1 <= fuel -> delim r ->
parse_value fuel (dumps_sep compact false j ++ r) = Some (j, r).

Abbreviation sep := (c_comma :: gap compact).

Lemma join_cons2 (s x y : pystr) l : join s (x :: y :: l) = x ++ s ++ join s (y :: l).
Proof. done. Qed.

(** A joined list starts with its first text. *)
Lemma join_cons (x : pystr) l : exists t, join sep (x :: l) = x ++ t.
Proof. destruct l as [|y l]; [exists []; by rewrite app_nil_r|]. by eexists. Qed.

Lemma parse_items_comma f s v r :
parse_value f s = Some (v, c_comma :: r) ->
parse_items (S f) s =
match parse_items f (skip_ws r) with Some (l, r') => Some (v :: l, r') | None => None end.
Proof. intros H. cbn [parse_items]. by rewrite H. Qed.

Lemma parse_items_close f s v r :
parse_value f s = Some (v, c_rbracket :: r) -> parse_items (S f) s = Some ([v], r).
Proof. intros H. cbn [parse_items]. by rewrite H. Qed.

Lemma skip_ws_items y l R :
wf_json y = true ->
skip_ws (gap compact ++ join sep (map (dumps_sep compact false) (y :: l)) ++ R) =
join sep (map (dumps_sep compact false) (y :: l)) ++ R.
Proof.
intros Hy. cbn [map]. destruct (join_cons (dumps_sep compact false y) (map (dumps_sep compact false) l)) as [t ->].
rewrite <- app_assoc, skip_ws_gap. by apply skip_ws_dumps.
Qed.

Lemma parse_items_back x l fuel r :
Forall parses_back (x :: l) -> Forall (fun j => wf_json j = true) (x :: l) ->
2 * length (join sep (map (dumps_sep compact false) (x :: l))) + 2 <= fuel ->
parse_items fuel (join sep (map (dumps_sep compact false) (x :: l)) ++ c_rbracket :: r) = Some (x :: l, r).
Proof.
revert x fuel. induction l as [|y l IH]; intros x fuel HP Hwf Hfuel.
- apply Forall_inv in HP, Hwf. destruct fuel as [|f]; [lia|]. simpl in Hfuel.
  apply parse_items_close, (HP Hwf); [lia|by right; left].
- apply Forall_cons in HP as [HPx HP], Hwf as [Hwx Hwf].
  cbn [map] in *. rewrite join_cons2 in *. rewrite !length_app in Hfuel. cbn [length] in Hfuel.
  destruct fuel as [|f]; [lia|]. rewrite <- !app_assoc. cbn [app].
  erewrite parse_items_comma; [|apply (HPx Hwx); [lia|by left]].
  pose proof (skip_ws_items y l (c_rbracket :: r)) as Hs. cbn [map] in Hs.
  apply Forall_cons in Hwf as Hwy. rewrite Hs by tauto.
  pose proof (IH y f HP Hwf) as IH'. cbn [map] in IH'. rewrite IH' by lia. done.
Qed.

Abbreviation member_texts m := (map (fun kv : pystr * json => (kv.1, dumps_sep compact false kv.2)) m).

Lemma parse_members_comma f k R v r :
parse_value f (skip_ws R) = Some (v, c_comma :: r) ->
parse_members (S f) (dumps_str k ++ c_colon :: R) =
match parse_members f (skip_ws r) with Some (m, r') => Some ((k, v) :: m, r') | None => None end.
Proof.
intros H. unfold dumps_str. rewrite <- !app_assoc. cbn [app parse_members].
rewrite scan_str_dumps. simpl. by rewrite H.
Qed.

Lemma parse_members_close f k R v r :
parse_value f (skip_ws R) = Some (v, c_rbrace :: r) ->
parse_members (S f) (dumps_str k ++ c_colon :: R) = Some ([(k, v)], r).
Proof.
intros H. unfold dumps_str. rewrite <- !app_assoc. cbn [app parse_members].
rewrite scan_str_dumps. simpl. by rewrite H.
Qed.

Lemma skip_ws_members kv m R :
skip_ws (gap compact ++ join sep (map (dumps_member compact) (member_texts (kv :: m))) ++ R) =
join sep (map (dumps_member compact) (member_texts (kv :: m))) ++ R.
Proof.
cbn [map]. match goal with |- context [join sep (?x :: ?l)] => destruct (join_cons x l) as [t ->] end.
by rewrite skip_ws_gap.
Qed.

Lemma parse_members_back kv m fuel r :
Forall (fun kv => parses_back kv.2) (kv :: m) ->
Forall (fun kv => wf_json kv.2 = true) (kv :: m) ->
2 * length (join sep (map (dumps_member compact) (member_texts (kv :: m)))) + 2 <= fuel ->
parse_members fuel (join sep (map (dumps_member compact) (member_texts (kv :: m))) ++ c_rbrace :: r) =
Some (kv :: m, r).
Proof.
revert kv fuel. induction m as [|kv' m IH]; intros [k v] fuel HP Hwf Hfuel.
- apply Forall_inv in HP, Hwf. destruct fuel as [|f]; [lia|]. cbn [map join] in *.
  unfold dumps_member in *. cbn [fst snd] in *. rewrite !length_app in Hfuel. cbn [length] in Hfuel.
  rewrite <- !app_assoc. apply parse_members_close. rewrite skip_ws_gap.
  rewrite skip_ws_dumps by done.
  apply (HP Hwf); [lia|by right; right; left].
- apply Forall_cons in HP as [HPx HP], Hwf as [Hwx Hwf].
  cbn [map] in *. rewrite join_cons2 in *. rewrite !length_app in Hfuel. cbn [length] in Hfuel.
  destruct fuel as [|f]; [lia|]. unfold dumps_member at 1. unfold dumps_member at 1 in Hfuel.
  cbn [fst snd] in *. rewrite !length_app in Hfuel. cbn [length] in Hfuel. rewrite <- !app_assoc. cbn [app].
  erewrite parse_members_comma.
  2:{ rewrite skip_ws_gap, skip_ws_dumps by done.
      apply (HPx Hwx); [lia|by left]. }
  pose proof (skip_ws_members kv' m (c_rbrace :: r)) as Hs. cbn [map] in Hs. rewrite Hs.
  pose proof (IH kv' f HP Hwf) as IH'. cbn [map] in IH'. rewrite IH' by lia. done.
Qed.

Lemma parse_array f r c r' :
skip_ws r = c :: r' -> c <> c_rbracket ->
parse_value (S f) (c_lbracket :: r) =
match parse_items f (c :: r') with Some (l, r'') => Some (JArr l, r'') | None => None end.
Proof. intros H Hc%N.eqb_neq. cbn -[skip_ws parse_items]. rewrite H. by rewrite Hc. Qed.

Lemma parse_object f r c r' :
skip_ws r = c :: r' -> c <> c_rbrace ->
parse_value (S f) (c_lbrace :: r) =
match parse_members f (c :: r') with
| Some (m, r'') => if strict && negb (bool_decide (NoDup m.*1)) then None else Some (JObj (dict_of_pairs m), r'')
| None => None
end.
Proof. intros H Hc%N.eqb_neq. cbn -[skip_ws parse_members]. rewrite H. by rewrite Hc. Qed.

Lemma parse_value_back j : parses_back j.
Proof.
induction j as [|b|z|l|s|l IH|m IH] using json_ind'; intros Hwf fuel r Hfuel Hr;
  (destruct fuel as [|f]; [lia|]).
- done.
- by destruct b.
- cbn [dumps_sep]. apply num_head_value; [|by apply scan_number_dumps].
  eapply scan_number_head. by apply scan_number_dumps.
- by apply parse_float.
- cbn [dumps_sep]. unfold dumps_str. rewrite <- !app_assoc. cbn -[scan_str].
  by rewrite scan_str_dumps.
- destruct l as [|x l]; [done|]. cbn [dumps_sep] in *. rewrite !length_app in Hfuel.
  cbn [length] in Hfuel. rewrite <- !app_assoc. cbn [app].
  apply wf_JArr in Hwf. pose proof (Forall_inv Hwf) as Hx.
  destruct (dumps_head x Hx) as (c & t & Ex & Hws & Hnb).
  destruct (join_cons (dumps_sep compact false x) (map (dumps_sep compact false) l)) as [t' Ej].
  pose proof (parse_items_back x l f r IH Hwf) as Hp. cbn [map] in *.
  rewrite Ej, Ex in *. simpl in Hfuel. simpl in Hp.
  erewrite parse_array; [|simpl; by rewrite Hws|done]. rewrite Hp by lia. done.
- destruct m as [|kv m]; [done|]. cbn [dumps_sep] in *. rewrite !length_app in Hfuel.
  cbn [length] in Hfuel. rewrite <- !app_assoc. cbn [app].
  apply wf_JObj in Hwf as [Hnd Hwf].
  pose proof (parse_members_back kv m f r IH Hwf) as Hp.
  cbn [map] in *.
  match goal with |- context [join sep (?x :: ?l)] => destruct (join_cons x l) as [t' Ej] end.
  rewrite Ej in *. unfold dumps_member, dumps_str in *. simpl in Hfuel. simpl in Hp.
  erewrite parse_object; [|simpl; reflexivity|done]. rewrite Hp by lia.
  rewrite bool_decide_eq_true_2, andb_false_r by done. by rewrite dict_of_pairs_id.
Qed.

Lemma loads_with_dumps j : wf_json j = true -> loads_with strict (dumps_sep compact false j) = Some j.
Proof.
intros Hwf. unfold loads_with.
pose proof (skip_ws_dumps j [] Hwf) as Hs. rewrite app_nil_r in Hs. rewrite Hs.
pose proof (parse_value_back j Hwf (2 * length (dumps_sep compact false j) + 2) []) as Hp.
rewrite app_nil_r in Hp. rewrite Hp by (done || lia). done.
Qed.

(** ** Sorted keys *)

Lemma dumps_sorted j : dumps_sep compact true j = dumps_sep compact false (sort_json j).
Proof.
induction j as [| | | | |l IH|m IH] using json_ind'; try done; cbn [dumps_sep sort_json].
- rewrite map_map. do 3 f_equal. apply List.map_ext_in. intros x Hx%list_elem_of_In.
  by eapply Forall_forall in IH.
- set (f := fun kv : pystr * json => (kv.1, dumps_sep compact false kv.2)).
  assert (map (fun kv => (kv.1, dumps_sep compact true kv.2)) m =
          map f (map (fun kv => (kv.1, sort_json kv.2)) m)) as ->.
  { rewrite map_map. apply List.map_ext_in. intros kv Hkv%list_elem_of_In. unfold f. simpl.
    f_equal. by eapply Forall_forall in IH. }
  by rewrite (isort_map key_leb key_leb f).
Qed.

End printing.

Lemma loads_dumps compact j : wf_json j = true -> loads (dumps_sep compact false j) = Some j.
Proof. apply loads_with_dumps. Qed.

Lemma map_fst_keys {V W} (f : V -> W) (m : list (pystr * V)) :
  (map (fun kv => (kv.1, f kv.2)) m).*1 = m.*1.
Proof. induction m; csimpl; congruence. Qed.

Lemma wf_sort_json j : wf_json j = true -> wf_json (sort_json j) = true.
Proof.
  induction j as [| | | | |l IH|m IH] using json_ind'; try done.
  - cbn [sort_json]. rewrite !wf_JArr. intros Hwf. apply List.Forall_map.
    rewrite Forall_forall in *. eauto.
  - cbn [sort_json]. rewrite !wf_JObj. intros [Hnd Hwf]. split.
    + by rewrite isort_perm, map_fst_keys.
    + rewrite isort_perm. apply List.Forall_map. simpl. rewrite Forall_forall in *. eauto.
Qed.

(** [json.loads(json.dumps(v, sort_keys=True))]. *)
Lemma loads_dumps_sorted compact j : wf_json j = true -> loads (dumps_sep compact true j) = Some (sort_json j).
Proof. intros H. rewrite dumps_sorted. by apply loads_dumps, wf_sort_json. Qed.

Lemma dict_get_elem k v d : NoDup d.*1 -> dict_get k d = Some v <-> (k, v) ∈ d.
Proof.
  induction d as [|[k' v'] d IH]; csimpl; intros Hnd; [by rewrite elem_of_nil|].
  apply NoDup_cons in Hnd as [Hin Hnd]. rewrite elem_of_cons. case_bool_decide as E.
  - subst. split; [naive_solver|]. intros [[= ->]|Hel]; [done|].
    destruct Hin. apply list_elem_of_fmap. by exists (k, v).
  - rewrite IH by done. naive_solver.
Qed.

Lemma dict_get_perm k (d d' : dict) :
  NoDup d.*1 -> d ≡ₚ d' -> dict_get k d = dict_get k d'.
Proof.
  intros Hnd Hp. assert (NoDup d'.*1) as Hnd' by by rewrite <- Hp.
  apply option_eq. intros v. by rewrite !dict_get_elem, Hp.
Qed.

Lemma dict_get_map k (f : json -> json) d :
  dict_get k (map (fun kv => (kv.1, f kv.2)) d) = f <$> dict_get k d.
Proof. induction d as [|[k' v'] d IH]; simpl; [done|]. by case_bool_decide. Qed.

Lemma dict_get_sort k d :
  NoDup d.*1 ->
  dict_get k (isort key_leb (map (fun kv => (kv.1, sort_json kv.2)) d)) = sort_json <$> dict_get k d.
Proof.
  intros Hnd. rewrite <- dict_get_map. apply dict_get_perm; [|apply isort_perm].
  by rewrite isort_perm, map_fst_keys.
Qed.

#[export] Hint Resolve dict_set_NoDup dict_get_set_eq : spool.
#[export] Hint Rewrite dict_get_set_eq : spool.

(** ** What [loads] returns is a value Python can hold *)

Definition nondigit_head (r : pystr) : Prop :=
  match r with c :: _ => is_digit c = false | [] => True end.

Lemma span_digits_eq s : s = (span_digits s).1 ++ (span_digits s).2.
Proof. induction s as [|c s IH]; simpl; [done|]. destruct (is_digit c); simpl; congruence. Qed.

Lemma span_digits_fst s :
  Forall (fun c => is_digit c = true) (span_digits s).1 /\ nondigit_head (span_digits s).2.
Proof.
  induction s as [|c s [IH1 IH2]]; simpl; [done|].
  destruct (is_digit c) eqn:E; simpl; [|done]. split; [by constructor|done].
Qed.

Lemma span_digits_run ds r :
  Forall (fun c => is_digit c = true) ds -> nondigit_head r -> span_digits (ds ++ r) = (ds, r).
Proof.
  induction 1 as [|c ds Hc _ IH]; intros Hr; simpl.
  - destruct r as [|c r]; [done|]. simpl in *. by rewrite Hr.
  - by rewrite Hc, IH.
Qed.

Lemma scan_sign_fst s :
  (scan_sign s).1 = [c_minus] \/
  ((scan_sign s).1 = [] /\ (scan_sign s).2 = s /\ scan_sign s = ([], s)).
Proof.
  destruct s as [|c s]; simpl; [by right|]. destruct (N.eqb_spec c c_minus); simpl; [left; by subst|by right].
Qed.

Lemma scan_sign_digits sg d ds t :
  sg = [c_minus] \/ sg = [] -> is_digit d = true ->
  scan_sign (sg ++ d :: ds ++ t) = (sg, d :: ds ++ t).
Proof.
  intros [->| ->] Hd; [done|]. simpl. destruct (N.eqb_spec d c_minus); [by subst|done].
Qed.

Lemma scan_int_rescan s i r t :
  scan_int s = Some (i, r) -> nondigit_head t -> scan_int (i ++ t) = Some (i, t).
Proof.
  unfold scan_int. intros H Ht. destruct (span_digits_fst (scan_sign s).2) as [Hds _].
  assert ((scan_sign s).1 = [c_minus] \/ (scan_sign s).1 = []) as Hsg
    by (destruct (scan_sign_fst s) as [?|[? _]]; auto).
  destruct ((span_digits (scan_sign s).2).1) as [|d ds]; [done|]. inv Hds.
  destruct (N.eqb_spec d 48) as [->|Hd]; simplify_eq; rewrite <- app_assoc; cbn [app].
  - pose proof (scan_sign_digits _ 48%N [] t Hsg eq_refl) as Hx. cbn [app] in Hx. rewrite Hx.
    cbn [fst snd]. pose proof (span_digits_run [48%N] t) as Hr. cbn [app] in Hr.
    rewrite Hr by (repeat constructor || done). done.
  - rewrite scan_sign_digits by done. cbn [fst snd].
    pose proof (span_digits_run (d :: ds) t) as Hr. cbn [app] in Hr.
    rewrite Hr by (by constructor || done). cbn [fst snd].
    by rewrite (proj2 (N.eqb_neq d 48)).
Qed.

Lemma scan_frac_shape s :
  (scan_frac s).1 = [] \/
  exists d ds, (scan_frac s).1 = c_dot :: d :: ds /\ Forall (fun c => is_digit c = true) (d :: ds).
Proof.
  destruct s as [|c s]; simpl; [by left|]. destruct (N.eqb_spec c c_dot) as [->|]; [|by left].
  destruct (span_digits_fst s) as [Hds _]. destruct ((span_digits s).1) as [|d ds]; [by left|].
  right. by exists d, ds.
Qed.

Lemma scan_exp_shape s :
  (scan_exp s).1 = [] \/
  exists c sg d ds, (scan_exp s).1 = c :: sg ++ d :: ds /\ ((c =? 101) || (c =? 69))%N = true /\
    (sg = [] \/ sg = [c_minus] \/ sg = [c_plus]) /\ Forall (fun c => is_digit c = true) (d :: ds).
Proof.
  destruct s as [|c s]; simpl; [by left|].
  destruct ((c =? 101) || (c =? 69))%N eqn:Hc; [|by left].
  destruct (span_digits_fst (scan_exp_sign s).2) as [Hds _].
  destruct ((span_digits (scan_exp_sign s).2).1) as [|d ds]; [by left|].
  right. exists c, (scan_exp_sign s).1, d, ds. repeat split; try done.
  destruct s as [|c' s]; simpl; [by left|].
  destruct (N.eqb_spec c' c_minus) as [->|]; [by right; left|].
  destruct (N.eqb_spec c' c_plus) as [->|]; [by right; right|by left].
Qed.

Lemma scan_exp_rescan s : scan_exp (scan_exp s).1 = ((scan_exp s).1, []).
Proof.
  destruct (scan_exp_shape s) as [->|(c & sg & d & ds & -> & Hc & Hsg & Hds)]; [done|].
  simpl. rewrite Hc. assert (scan_exp_sign (sg ++ d :: ds) = (sg, d :: ds)) as ->.
  { destruct Hsg as [->|[->| ->]]; [|done|done]. simpl. inv Hds.
    destruct (N.eqb_spec d c_minus); [by subst|]. destruct (N.eqb_spec d c_plus); [by subst|done]. }
  cbn [fst snd]. pose proof (span_digits_run (d :: ds) [] Hds I) as Hr. rewrite app_nil_r in Hr.
  by rewrite Hr.
Qed.

Lemma scan_exp_head s : nondigit_head (scan_exp s).1 /\ forall c t, (scan_exp s).1 = c :: t -> c <> c_dot.
Proof.
  destruct (scan_exp_shape s) as [->|(c & sg & d & ds & -> & Hc & _)]; [done|].
  apply orb_true_iff in Hc. rewrite !N.eqb_eq in Hc. destruct Hc as [-> | ->]; split; try done;
    by intros ? ? [= <- _].
Qed.

Lemma scan_frac_rescan s r :
  scan_frac ((scan_frac s).1 ++ (scan_exp r).1) = ((scan_frac s).1, (scan_exp r).1).
Proof.
  destruct (scan_exp_head r) as [Hn Hd].
  destruct (scan_frac_shape s) as [->|(d & ds & -> & Hds)].
  - destruct ((scan_exp r).1) as [|c t]; [done|]. simpl.
    destruct (N.eqb_spec c c_dot) as [->|]; [by specialize (Hd _ _ eq_refl)|done].
  - cbn [app scan_frac]. simpl (_ =? _)%N. cbn iota.
    pose proof (span_digits_run (d :: ds) (scan_exp r).1 Hds Hn) as H. cbn [app] in H.
    by rewrite H.
Qed.

Lemma scan_number_rescan s l r : scan_number s = Some (JFloat l, r) -> scan_number l = Some (JFloat l, []).
Proof.
  unfold scan_number. destruct (scan_int s) as [[i r1]|] eqn:Hi; [|done]. intros H.
  set (f := (scan_frac r1).1) in *. set (e := (scan_exp (scan_frac r1).2).1) in *.
  destruct (f ++ e) as [|c t] eqn:Hfe; [done|]. assert (l = i ++ f ++ e) as -> by (rewrite Hfe; congruence).
  rewrite (scan_int_rescan _ _ _ (f ++ e) Hi).
  - unfold f, e. rewrite scan_frac_rescan. cbn [fst snd]. rewrite scan_exp_rescan. cbn [fst snd].
    fold f e. by rewrite Hfe.
  - unfold f. destruct (scan_frac_shape r1) as [->|(d & ds & -> & _)]; [|done].
    apply scan_exp_head.
Qed.

Lemma scan_atom_wf s j r : scan_atom s = Some (j, r) -> wf_json j = true.
Proof.
  unfold scan_atom. repeat (case_match; [intros [= <- <-]; reflexivity|]).
  destruct (scan_number s) as [[v r']|] eqn:E; [intros [= <- <-]|
    repeat (case_match; [intros [= <- <-]; reflexivity|]); done].
  destruct v as [| | |l| | |]; try done.
  - simpl. unfold wf_float. rewrite (scan_number_rescan _ _ _ E).
    rewrite (bool_decide_eq_true_2 (l = l)) by done. apply orb_true_r.
  - unfold scan_number in E. destruct (scan_int s) as [[]|]; [|done]. by case_match; simplify_eq.
  - unfold scan_number in E. destruct (scan_int s) as [[]|]; [|done]. by case_match; simplify_eq.
Qed.

Lemma dict_of_pairs_keep (P : pystr * json -> Prop) l :
  Forall P l -> Forall P (dict_of_pairs l).
Proof.
  intros Hl. unfold dict_of_pairs. assert (Forall P []) as H0 by constructor.
  revert H0. generalize (@nil (pystr * json)) as d. induction Hl as [|[k v] l Hkv _ IH]; [done|].
  intros d Hd. simpl. apply IH. clear IH. induction Hd as [|[k' v'] d Hx Hd' IH]; simpl.
  - by constructor.
  - case_bool_decide; [subst|]; by constructor.
Qed.

Lemma dict_of_pairs_NoDup l : NoDup (dict_of_pairs l).*1.
Proof.
  unfold dict_of_pairs. assert (NoDup (@nil (pystr * json)).*1) as H0 by constructor.
  revert H0. generalize (@nil (pystr * json)) as d. induction l as [|kv l IH]; [done|].
  intros d Hd. simpl. by apply IH, dict_set_NoDup.
Qed.

Lemma parse_wf strict fuel :
  (forall s j r, parse_value strict fuel s = Some (j, r) -> wf_json j = true) /\
  (forall s l r, parse_items strict fuel s = Some (l, r) -> Forall (fun j => wf_json j = true) l) /\
  (forall s m r, parse_members strict fuel s = Some (m, r) -> Forall (fun kv => wf_json kv.2 = true) m).
Proof.
  induction fuel as [|f (IHv & IHi & IHm)]; [done|]. split_and!; intros s x r; cbn -[scan_str skip_ws scan_atom].
  - repeat case_match; intros; simplify_eq; try done.
    + apply wf_JObj. split; [apply dict_of_pairs_NoDup|]. apply dict_of_pairs_keep; eauto.
    + apply wf_JArr. eauto.
    + by eapply scan_atom_wf.
  - repeat case_match; intros; simplify_eq; constructor; eauto.
  - repeat case_match; intros; simplify_eq; constructor; eauto.
Qed.

Lemma loads_with_wf strict s j : loads_with strict s = Some j -> wf_json j = true.
Proof.
  unfold loads_with. destruct (parse_value _ _) as [[v r]|] eqn:E; [|done].
  case_match; [|done]. intros [= <-]. by eapply (proj1 (parse_wf _ _)).
Qed.

Lemma loads_wf s j : loads s = Some j -> wf_json j = true.
Proof. apply loads_with_wf. Qed.

(** ** Strings inside a document are no longer than its text *)

Lemma skip_ws_length s : length (skip_ws s) <= length s.
Proof. induction s as [|c s IH]; simpl; [lia|]. destruct (is_ws c); simpl; lia. Qed.

Lemma push_Some c o x r : push c o = Some (x, r) -> exists x', o = Some (x', r) /\ x = c :: x'.
Proof. destruct o as [[s r']|]; [|done]. intros [= <- <-]. eauto. Qed.

Lemma scan_str_length n s x r :
  length s <= n -> scan_str s = Some (x, r) -> length x + length r < length s.
Proof.
  revert s x r. induction n as [|n IH]; intros s x r Hn H.
  - by destruct s; [|simpl in Hn; lia].
  - destruct s as [|c s]; [done|].
    assert (forall y t, length t <= length s -> push y (scan_str t) = Some (x, r) ->
      length x + length r < S (length s)) as Hpush.
    { intros y t Ht (x' & Hx & ->)%push_Some. apply IH in Hx; simpl in *; lia. }
    cbn [scan_str] in H. cbn [length] in *.
    repeat case_match; simplify_eq; try (simpl; lia); try done;
      (eapply Hpush; [|eassumption]; simpl; lia).
Qed.

(** The strings held directly by a value or by the members of an object. *)
Definition strings_le (n : nat) (j : json) : Prop :=
  match j with
  | JStr x => length x <= n
  | JObj m => Forall (fun kv => match kv.2 with JStr x => length x <= n | _ => True end) m
  | _ => True
  end.

Definition member_le (n : nat) (kv : pystr * json) : Prop :=
  match kv.2 with JStr x => length x <= n | _ => True end.

Lemma member_le_mono n n' kv : n <= n' -> member_le n kv -> member_le n' kv.
Proof. unfold member_le. intros. case_match; lia || done. Qed.

Lemma scan_atom_strings n s j r : scan_atom s = Some (j, r) -> strings_le n j.
Proof.
  unfold scan_atom. repeat (case_match; [intros [= <- <-]; exact I|]).
  destruct (scan_number s) as [[v r']|] eqn:E; [intros [= <- <-]|
    repeat (case_match; [intros [= <- <-]; exact I|]); done].
  unfold scan_number in E. destruct (scan_int s) as [[]|]; [|done]. by case_match; simplify_eq.
Qed.

Lemma drop_length_le {A} n (l : list A) : length (drop n l) <= length l.
Proof. rewrite length_drop. lia. Qed.

Lemma scan_word_length w s r : scan_word w s = Some r -> length r <= length s.
Proof. unfold scan_word. case_match; [|done]. intros [= <-]. apply drop_length_le. Qed.

Lemma scan_frac_length s : length (scan_frac s).2 <= length s.
Proof.
  destruct s as [|c s]; simpl; [lia|]. destruct (c =? c_dot)%N; simpl; [|lia].
  pose proof (f_equal length (span_digits_eq s)) as H. rewrite length_app in H.
  destruct ((span_digits s).1); simpl in *; lia.
Qed.

Lemma scan_exp_length s : length (scan_exp s).2 <= length s.
Proof.
  destruct s as [|c s]; simpl; [lia|]. destruct ((c =? 101) || (c =? 69))%N; simpl; [|lia].
  pose proof (f_equal length (span_digits_eq (scan_exp_sign s).2)) as H. rewrite length_app in H.
  assert (length (scan_exp_sign s).2 <= length s) by (destruct s; simpl; repeat case_match; simpl; lia).
  destruct ((span_digits _).1); simpl in *; lia.
Qed.

Lemma scan_int_length s i r : scan_int s = Some (i, r) -> length r <= length s.
Proof.
  unfold scan_int. pose proof (f_equal length (span_digits_eq (scan_sign s).2)) as H.
  rewrite length_app in H.
  assert (length (scan_sign s).2 <= length s) by (destruct s; simpl; repeat case_match; simpl; lia).
  destruct ((span_digits _).1); [done|]. simpl in H. case_match; intros; simplify_eq; rewrite ?length_app; lia.
Qed.

Lemma scan_atom_length s j r : scan_atom s = Some (j, r) -> length r <= length s.
Proof.
  unfold scan_atom. repeat (case_match; [intros [= <- <-]; by eapply scan_word_length|]).
  destruct (scan_number s) as [[v r']|] eqn:E; [intros [= <- <-]|
    repeat (case_match; [intros [= <- <-]; by eapply scan_word_length|]); done].
  unfold scan_number in E. destruct (scan_int s) as [[i r1]|] eqn:Ei; [|done].
  apply scan_int_length in Ei. pose proof (scan_frac_length r1).
  pose proof (scan_exp_length (scan_frac r1).2). simplify_eq. lia.
Qed.

Lemma parse_strings strict fuel :
  (forall s j r, parse_value strict fuel s = Some (j, r) -> length r <= length s /\ strings_le (length s) j) /\
  (forall s l r, parse_items strict fuel s = Some (l, r) -> length r <= length s) /\
  (forall s m r, parse_members strict fuel s = Some (m, r) ->
     length r <= length s /\ Forall (member_le (length s)) m).
Proof.
  induction fuel as [|f (IHv & IHi & IHm)]; [done|].
  split_and!; intros s x r H; cbn -[scan_str skip_ws scan_atom] in H.
  - destruct s as [|c s]; [done|]. pose proof (skip_ws_length s) as Hws.
    destruct (c =? c_quote)%N.
    { case_match; [|done]. case_match. simplify_eq.
      apply (scan_str_length _ _ _ _ (le_n _)) in H0. simpl. lia. }
    destruct (c =? c_lbrace)%N.
    { destruct (skip_ws s) as [|c' r']; [done|]. simpl in Hws.
      destruct (c' =? c_rbrace)%N; [simplify_eq; simpl; split; [lia|constructor]|].
      destruct (parse_members strict f _) as [[m r'']|] eqn:E; [|done]. destruct (strict && _); [done|]. simplify_eq.
      apply IHm in E as [E1 E2]. simpl in *. split; [lia|].
      apply dict_of_pairs_keep. eapply Forall_impl; [exact E2|].
      intros kv. apply member_le_mono. lia. }
    destruct (c =? c_lbracket)%N.
    { destruct (skip_ws s) as [|c' r']; [done|]. simpl in Hws.
      destruct (c' =? c_rbracket)%N; [simplify_eq; simpl; split; [lia|constructor]|].
      destruct (parse_items strict f _) as [[m r'']|] eqn:E; [|done]. simplify_eq.
      apply IHi in E. simpl in *. split; [lia|done]. }
    split; [by eapply scan_atom_length|by eapply scan_atom_strings].
  - destruct (parse_value strict f s) as [[v r1]|] eqn:E; [|done]. apply IHv in E as [E _].
    pose proof (skip_ws_length r1). destruct (skip_ws r1) as [|c r2]; [done|]. simpl in *.
    pose proof (skip_ws_length r2). destruct (c =? c_comma)%N.
    + destruct (parse_items strict f _) as [[l r3]|] eqn:E2; [|done]. apply IHi in E2. simplify_eq. lia.
    + case_match; simplify_eq. lia.
  - destruct s as [|q s]; [done|]. destruct (q =? c_quote)%N; [|done].
    destruct (scan_str s) as [[k r1]|] eqn:Ek; [|done].
    apply (scan_str_length _ _ _ _ (le_n _)) in Ek.
    pose proof (skip_ws_length r1). destruct (skip_ws r1) as [|c r2]; [done|].
    destruct (c =? c_colon)%N; [|done].
    destruct (parse_value strict f _) as [[v r3]|] eqn:E; [|done]. apply IHv in E as [E1 E2].
    pose proof (skip_ws_length r2). pose proof (skip_ws_length r3). simpl in *.
    assert (member_le (S (length s)) (k, v)) as Hkv.
    { unfold member_le. simpl. destruct v; try done. simpl in E2. lia. }
    destruct (skip_ws r3) as [|d r4]; [done|]. pose proof (skip_ws_length r4). simpl in *.
    destruct (d =? c_comma)%N.
    + destruct (parse_members strict f _) as [[m r5]|] eqn:E3; [|done]. apply IHm in E3 as [E3 E4].
      simplify_eq. split; [lia|]. constructor; [done|]. eapply Forall_impl; [exact E4|].
      intros kv. apply member_le_mono. lia.
    + case_match; simplify_eq. split; [lia|]. by constructor.
Qed.

Lemma loads_member_length s m k x :
  loads s = Some (JObj m) -> dict_get k m = Some (JStr x) -> length x <= length s.
Proof.
  unfold loads, loads_with. destruct (parse_value _ _ _) as [[v r]|] eqn:E; [|done].
  case_match; [|done]. intros [= ->] Hk. apply (proj1 (parse_strings _ _)) in E as [_ E].
  simpl in E. pose proof (skip_ws_length s). 
  assert (length x <= length (skip_ws s)); [|lia].
  clear -E Hk. induction m as [|[k' v'] m IH]; [done|]. inv E. simpl in *.
  case_bool_decide; [by simplify_eq|auto].
Qed.
