(* ===== verification/TaskFailure.v ===== *)
(** * Task failure reasons: [lib/task_failure.py]

    The reason stored in [Task.error_message] is [[code]] optionally followed
    by a space and a JSON object of parameters; anything else is free text.
    Modelled: the registry of codes, [encode_failure], [parse_failure],
    [bound_reason], [collapse_cascade_reason] and [render_failure], with the
    translator as an argument. *)

From S2P Require Import Prelude Json.

(** ** The registry of codes *)

(** Backend capability rejections. *)
Definition CAPABILITY_FAILURE_CODES : list string := [
  "image_capability_missing_i2i";
  "image_capability_missing_t2i";
  "image_dashscope_4k_t2i_only";
  "image_endpoint_mismatch_no_i2i";
  "image_endpoint_mismatch_no_t2i";
  "image_reference_images_unreadable";
  "ref_payload_floor_exceeded";
  "video_capability_missing_t2v";
  "video_model_unsupported";
  "video_start_image_unsupported";
  "video_end_image_unsupported";
  "video_t2v_unsupported";
  "video_aspect_ratio_unsupported";
  "video_resolution_required";
  "video_resolution_unsupported";
  "video_duration_unsupported";
  "video_prompt_required";
  "video_duration_invalid";
  "video_duration_not_supported";
  "video_end_image_requires_start_image";
  "video_end_image_unreadable";
  "video_last_frame_requires_pro";
  "video_last_frame_unsupported";
  "video_prompt_too_long";
  "video_reference_images_duration_unsupported";
  "video_reference_images_exceeded";
  "video_reference_images_required";
  "video_reference_images_unreadable";
  "video_reference_images_unsupported";
  "video_reference_videos_unsupported";
  "video_reference_videos_exceeded";
  "video_reference_videos_duration_exceeded";
  "video_reference_video_duration_unsupported";
  "video_reference_media_exceeded";
  "video_reference_media_required";
  "video_reference_videos_unreadable";
  "free_creation_aspect_ratio_not_supported";
  "free_creation_aspect_ratio_capabilities_missing";
  "free_creation_t2v_unsupported";
  "free_creation_first_frame_unsupported";
  "free_creation_last_frame_unsupported";
  "free_creation_reference_images_unsupported";
  "free_creation_reference_videos_unsupported";
  "free_creation_reference_audio_unsupported";
  "free_creation_input_combination_unsupported";
  "free_creation_video_edit_unsupported";
  "video_supported_durations_missing";
  "video_reference_images_with_frames_unsupported";
  "video_reference_audio_duration_exceeded";
  "video_reference_audio_exceeded";
  "video_reference_audio_format_unsupported";
  "video_reference_audio_slots_insufficient";
  "video_reference_audio_unreadable";
  "video_reference_audio_unsupported";
  "video_resolution_duration_unsupported";
  "video_start_image_unreadable"
].

(** Rejections reported by a provider at run time. *)
Definition PROVIDER_FAILURE_CODES : list string := [
  "video_first_frame_content_rejected";
  "video_input_image_content_rejected";
  "video_input_text_content_rejected";
  "video_last_frame_content_rejected";
  "video_output_content_rejected";
  "video_reference_image_content_rejected"
].

(** Blocking codes of the reference-unit projection. *)
Definition REFERENCE_PROJECTION_FAILURE_CODES : list string := [
  "reference_asset_missing";
  "reference_capability_changed";
  "reference_capability_unavailable";
  "reference_declaration_invalid";
  "reference_duration_confirmation_required";
  "reference_supported_durations_incompatible";
  "reference_supported_durations_invalid";
  "reference_supported_durations_missing";
  "video_audio_switch_not_supported";
  "video_capability_missing_i2v";
  "video_capability_missing_r2v";
  "video_capability_reference_unavailable"
].

(** Blocking codes of narration delivery. *)
Definition NARRATION_DELIVERY_FAILURE_CODES : list string := [
  "needs_replan";
  "reference_duration_confirmation_required";
  "tts_duration_unavailable";
  "tts_generating";
  "tts_conflicts_with_active_narrated_video";
  "tts_missing";
  "tts_not_applicable";
  "tts_not_configured";
  "tts_stale";
  "tts_state_unavailable";
  "video_duration_unavailable";
  "video_shorter_than_tts";
  "video_supported_durations_missing"
].

(** Stable failure code to the key of its message template. *)
Definition FAILURE_CODE_KEYS : list (string * string) :=
  map (fun c => (c, c))
    (CAPABILITY_FAILURE_CODES ++ PROVIDER_FAILURE_CODES ++
     REFERENCE_PROJECTION_FAILURE_CODES ++ NARRATION_DELIVERY_FAILURE_CODES) ++ [
  ("provider_unsupported_media", "task_fail_provider_unsupported_media");
  ("dispatch_provider_requeue_failed", "task_fail_dispatch_provider_requeue_failed");
  ("restart_lost_image", "task_fail_restart_lost_image");
  ("restart_lost_audio", "task_fail_restart_lost_audio");
  ("restart_lost_no_job_id", "task_fail_restart_lost_no_job_id");
  ("restart_lost_resume_no_job_id", "task_fail_restart_lost_resume_no_job_id");
  ("resume_unsupported_provider", "task_fail_resume_unsupported_provider");
  ("resume_unsupported_capacity_zero", "task_fail_resume_unsupported_capacity_zero");
  ("resume_unsupported_detail", "task_fail_resume_unsupported_detail");
  ("resume_expired_detail", "task_fail_resume_expired_detail");
  ("resume_endpoint_changed_detail", "task_fail_resume_endpoint_changed_detail");
  ("restart_lost_checkpoint_no_job_id", "task_fail_restart_lost_checkpoint_no_job_id");
  ("execution_identity_unrecoverable", "task_fail_execution_identity_unrecoverable");
  ("free_creation_failed", "task_fail_free_creation_failed");
  ("free_creation_merge_input_unreadable", "free_creation_merge_input_unreadable");
  ("free_creation_merge_limits_exceeded", "free_creation_merge_limits_exceeded");
  ("free_creation_merge_tools_missing", "free_creation_merge_tools_missing");
  ("free_creation_merge_unavailable", "free_creation_merge_unavailable");
  ("script_edit_error", "script_edit_error");
  ("script_edit_items_not_list", "script_edit_items_not_list");
  ("script_edit_unit_lists_invalid", "script_edit_unit_lists_invalid");
  ("script_edit_generated_assets_invalid", "script_edit_generated_assets_invalid");
  ("cascade_blocked_dependency", "task_fail_cascade_blocked_dependency")
].

(** [FAILURE_CODE_KEYS.get(code)] *)
Definition failure_key (code : pystr) : option string :=
  match List.find (fun p => bool_decide (u p.1 = code)) FAILURE_CODE_KEYS with
  | Some p => Some p.2
  | None => None
  end.

(** [code in FAILURE_CODE_KEYS] *)
Definition known_code (code : pystr) : bool :=
  match failure_key code with Some _ => true | None => false end.

Definition _CASCADE_CODE : pystr := u "cascade_blocked_dependency".
Definition _MAX_CASCADE_UNWRAP : nat := 100.

(** ** Encoding *)

(** [[code]], or [[code] {sorted-json}] when there are parameters. *)
Definition envelope (code : pystr) (params : dict) : pystr :=
  u "[" ++ code ++ u "]" ++
  match params with
  | [] => []
  | _ => u " " ++ dumps true (JObj params)
  end.

Definition encode_failure (code : pystr) (params : dict) : result pystr :=
  if known_code code then Ok (envelope code params) else Raise KeyError.

(** ** The structured form *)

(** [\w] restricted to ASCII: every registered code is ASCII, and a
    bracketed word with other letters is unknown either way. *)
Definition is_word (c : N) : bool :=
  (((97 <=? c) && (c <=? 122)) || ((65 <=? c) && (c <=? 90)) || is_digit c || (c =? 95))%N.

Fixpoint span_word (s : pystr) : pystr * pystr :=
  match s with
  | c :: r => if is_word c then let p := span_word r in (c :: p.1, p.2) else ([], s)
  | [] => ([], [])
  end.

(** The [$] of the pattern also matches before one final newline. *)
Definition drop_final_newline (s : pystr) : pystr :=
  match last s with
  | Some 10%N => take (length s - 1) s
  | _ => s
  end.

(** [_STRUCTURED_RE.match]: the code and the raw parameters, if any. *)
Definition match_structured (s : pystr) : option (pystr * option pystr) :=
  match s with
  | 91%N :: r =>
      let w := span_word r in
      match w.1, w.2 with
      | _ :: _, 93%N :: t =>
          match drop_final_newline t with
          | [] => Some (w.1, None)
          | 32%N :: 123%N :: x :: m =>
              match last (x :: m) with
              | Some 125%N => Some (w.1, Some (123%N :: x :: m))
              | _ => None
              end
          | _ => None
          end
      | _, _ => None
      end
  | _ => None
  end.

(** [None] when the reason is not a registered structured form. *)
Definition parse_failure (error_message : option pystr) : option (pystr * dict) :=
  match error_message with
  | None | Some [] => None
  | Some msg =>
      match match_structured msg with
      | None => None
      | Some (code, raw_params) =>
          if negb (known_code code) then None
          else match raw_params with
               | None => Some (code, [])
               | Some raw =>
                   match loads raw with
                   | Some (JObj parsed) => Some (code, parsed)
                   | _ => None
                   end
               end
      end
  end.

(** ** Bounding a reason *)

(** Containers become their own JSON text, so that they can be cut. *)
Definition _as_shrinkable (v : json) : json :=
  match v with
  | JObj _ | JArr _ => JStr (dumps false v)
  | _ => v
  end.

Definition is_str (v : json) : bool := match v with JStr _ => true | _ => false end.

(** [params[k]] for a key that holds a string. *)
Definition str_at (params : dict) (k : pystr) : pystr :=
  match dict_get k params with Some (JStr s) => s | _ => [] end.

(** [max(keys, key=lambda k: len(params[k]))]: the first longest one. *)
Fixpoint longest_key (params : dict) (best : pystr) (keys : list pystr) : pystr :=
  match keys with
  | [] => best
  | k :: keys' =>
      if (length (str_at params best) <? length (str_at params k))%nat
      then longest_key params k keys' else longest_key params best keys'
  end.

(** The [while] loop of [bound_reason]; [None] when the fuel runs out. *)
Fixpoint shrink (fuel : nat) (reason code : pystr) (limit : nat)
    (k0 : pystr) (keys : list pystr) (params : dict) : option pystr :=
  match fuel with
  | O => None
  | S f =>
      let encoded := envelope code params in
      if (length encoded <=? limit)%nat then Some encoded
      else
        let k := longest_key params k0 keys in
        let current := str_at params k in
        match current with
        | [] => Some (take limit reason)
        | _ =>
            let deficit := length encoded - limit in
            let drop := if (deficit <? length current)%nat then deficit
                        else Nat.max 1 (length current / 2) in
            shrink f reason code limit k0 keys
              (dict_set k (JStr (take (length current - drop) current)) params)
        end
  end.

Definition shrink_fuel (params : dict) : nat :=
  S (sum_list_with (fun kv => match kv.2 with JStr s => length s | _ => 0 end) params).

Definition bound_reason (reason : pystr) (limit : nat) : pystr :=
  if (length reason <=? limit)%nat then reason
  else
    match match_structured reason with
    | Some (code, Some raw) =>
        if negb (known_code code) then take limit reason
        else
          match loads raw with
          | Some (JObj parsed) =>
              let params := map (fun kv => (kv.1, _as_shrinkable kv.2)) parsed in
              match (List.filter (fun kv => is_str kv.2) params).*1 with
              | [] => take limit reason
              | k0 :: keys =>
                  match shrink (shrink_fuel params) reason code limit k0 keys params with
                  | Some r => r
                  | None => take limit reason
                  end
              end
          | _ => take limit reason
          end
    | _ => take limit reason
    end.

(** ** Collapsing nested cascade reasons *)

Fixpoint collapse_go (budget : nat) (reason : pystr) : pystr :=
  match parse_failure (Some reason) with
  | Some (code, params) =>
      if bool_decide (code = _CASCADE_CODE) then
        match dict_get (u "reason") params with
        | Some (JStr nested) =>
            match budget with
            | O => nested
            | S b => collapse_go b nested
            end
        | _ => reason
        end
      else reason
  | None => reason
  end.

Definition collapse_cascade_reason (reason : pystr) : pystr :=
  collapse_go _MAX_CASCADE_UNWRAP reason.

(** ** Rendering *)

Section render.
Context (translate : string -> dict -> pystr).

(** [render_failure] on a non-empty message; the fuel bounds the nesting. *)
Fixpoint render_go (fuel : nat) (msg : pystr) : pystr :=
  match parse_failure (Some msg) with
  | None => msg
  | Some (code, params) =>
      let params :=
        if bool_decide (code = _CASCADE_CODE) then
          match dict_get (u "reason") params, fuel with
          | Some (JStr nested), S f => dict_set (u "reason") (JStr (render_go f nested)) params
          | _, _ => params
          end
        else params in
      match failure_key code with
      | Some key => translate key params
      | None => msg
      end
  end.

Definition render_failure (error_message : option pystr) : option pystr :=
  match error_message with
  | None | Some [] => error_message
  | Some msg => Some (render_go (length msg) msg)
  end.
End render.

(** ** Encoding and parsing are inverse *)

Lemma known_code_word code : known_code code = true -> Forall (fun c => is_word c = true) code /\ code <> [].
Proof.
  assert (List.forallb (fun p => List.forallb is_word (u p.1) && negb (bool_decide (u p.1 = [])))
            FAILURE_CODE_KEYS = true) as Hall by (vm_compute; reflexivity).
  unfold known_code, failure_key. destruct (List.find _ _) as [p|] eqn:E; [|done]. intros _.
  apply List.find_some in E as [Hin Hp]. apply bool_decide_eq_true in Hp as <-.
  rewrite List.forallb_forall in Hall. specialize (Hall p Hin). to_prop. split; [|done].
  apply Forall_forall. intros c Hc%list_elem_of_In. by eapply List.forallb_forall in H.
Qed.

Lemma span_word_app w t :
  Forall (fun c => is_word c = true) w -> span_word (w ++ 93%N :: t) = (w, 93%N :: t).
Proof. induction 1 as [|c w Hc _ IH]; [done|]. simpl. by rewrite Hc, IH. Qed.

Lemma drop_final_newline_snoc s c : c <> 10%N -> drop_final_newline (s ++ [c]) = s ++ [c].
Proof.
  intros Hc. unfold drop_final_newline. rewrite last_snoc.
  destruct c as [|p]; [done|]. by repeat (destruct p as [p|p|]; try done).
Qed.

Lemma match_structured_nil code :
  Forall (fun c => is_word c = true) code -> code <> [] ->
  match_structured (u "[" ++ code ++ u "]") = Some (code, None).
Proof.
  intros Hw Hne. unfold match_structured.
  change (u "[") with [91%N]. change (u "]") with [93%N]. cbn [app].
  rewrite span_word_app by done. cbn [fst snd]. by destruct code.
Qed.

Lemma match_structured_obj code m :
  Forall (fun c => is_word c = true) code -> code <> [] ->
  match_structured (u "[" ++ code ++ u "]" ++ u " " ++ [c_lbrace] ++ m ++ [c_rbrace]) =
  Some (code, Some ([c_lbrace] ++ m ++ [c_rbrace])).
Proof.
  intros Hw Hne. unfold match_structured.
  change (u "[") with [91%N]. change (u "]") with [93%N]. change (u " ") with [32%N]. cbn [app].
  rewrite span_word_app by done. cbn [fst snd].
  destruct code as [|c0 code]; [done|]. clear Hw Hne.
  change (32%N :: c_lbrace :: m ++ [c_rbrace]) with ((32%N :: c_lbrace :: m) ++ [c_rbrace]).
  rewrite drop_final_newline_snoc by done.
  unfold c_lbrace, c_rbrace. destruct m as [|x m]; [done|]. cbn [app].
  change (x :: m ++ [125%N]) with ((x :: m) ++ [125%N]). by rewrite last_snoc.
Qed.

Lemma dumps_obj_shape b m : exists t, dumps b (JObj m) = [c_lbrace] ++ t ++ [c_rbrace].
Proof. cbn [dumps_sep]. by eexists. Qed.

(** The members [loads] gives back for [dumps(params, sort_keys=True)]. *)
Definition sorted_params (params : dict) : dict :=
  isort key_leb (map (fun kv => (kv.1, sort_json kv.2)) params).

Lemma parse_envelope code params :
  known_code code = true -> wf_json (JObj params) = true ->
  parse_failure (Some (envelope code params)) = Some (code, sorted_params params).
Proof.
  intros Hk Hwf. destruct (known_code_word _ Hk) as [Hw Hne].
  assert (forall msg r, match_structured msg = Some r -> msg <> []) as Hmsg by by intros [].
  unfold envelope. destruct params as [|kv params].
  - rewrite app_nil_r. pose proof (match_structured_nil code Hw Hne) as Hm. unfold parse_failure.
    rewrite Hm. destruct (u "[" ++ code ++ u "]") eqn:E; [done|]. by rewrite Hk.
  - pose proof (loads_dumps_sorted false _ Hwf) as Hl.
    destruct (dumps_obj_shape true (kv :: params)) as [t Ht]. rewrite Ht in *.
    pose proof (match_structured_obj code t Hw Hne) as Hm. unfold parse_failure.
    rewrite Hm. destruct (u "[" ++ _) eqn:E; [done|]. rewrite Hk. simpl negb. cbn iota.
    by rewrite Hl.
Qed.

(** Encoding a failure and parsing it back gives the code and the
    parameters, in the order of their sorted keys. *)
Theorem parse_encode_failure code params msg :
  wf_json (JObj params) = true ->
  encode_failure code params = Ok msg ->
  parse_failure (Some msg) = Some (code, sorted_params params).
Proof.
  unfold encode_failure. destruct (known_code code) eqn:Hk; [|done].
  intros Hwf [= <-]. by apply parse_envelope.
Qed.

Lemma parse_encode_failure_witness :
  exists msg, encode_failure (u "restart_lost_no_job_id") [(u "task", JStr (u "t1")); (u "n", JInt 3)] = Ok msg
    /\ parse_failure (Some msg) = Some (u "restart_lost_no_job_id", [(u "n", JInt 3); (u "task", JStr (u "t1"))]).
Proof.
  exists (u "[restart_lost_no_job_id] " ++ uq "{'n': 3, 'task': 't1'}"). split; [vm_compute; reflexivity|].
  apply (parse_encode_failure (u "restart_lost_no_job_id") [(u "task", JStr (u "t1")); (u "n", JInt 3)]);
    vm_compute; reflexivity.
Defined.

(** ** Bounds *)

Lemma bound_reason_length reason limit : length (bound_reason reason limit) <= limit.
Proof.
  assert (length (take limit reason) <= limit) as Htake by (rewrite length_take; lia).
  assert (forall fuel code k0 keys params r,
    shrink fuel reason code limit k0 keys params = Some r -> length r <= limit) as Hshrink.
  { induction fuel as [|f IH]; intros code k0 keys params r; [done|]. cbn [shrink].
    destruct (Nat.leb_spec (length (envelope code params)) limit); [by intros [= <-]|].
    case_match; [by intros [= <-]|]. by apply IH. }
  unfold bound_reason. destruct (Nat.leb_spec (length reason) limit); [done|].
  repeat case_match; try done; eauto.
Qed.

(** A bounded reason never exceeds its limit, and a reason within the
    limit is stored as it is. *)
Theorem bound_reason_bounded reason limit :
  length (bound_reason reason limit) <= limit
  /\ (length reason <= limit -> bound_reason reason limit = reason).
Proof.
  split; [apply bound_reason_length|]. intros H. unfold bound_reason. by rewrite (proj2 (Nat.leb_le _ _) H).
Qed.

(** *** The loop of [bound_reason] ends *)

Abbreviation text_total params :=
  (sum_list_with (fun kv : pystr * json => match kv.2 with JStr s => length s | _ => 0 end) params).

Lemma str_at_get params k s : str_at params k = s -> s <> [] -> dict_get k params = Some (JStr s).
Proof. unfold str_at. repeat case_match; intros; subst; done. Qed.

Lemma text_total_set params k s s' :
  dict_get k params = Some (JStr s) ->
  text_total (dict_set k (JStr s') params) + length s = text_total params + length s'.
Proof.
  induction params as [|[k' v] params IH]; simpl; [done|].
  case_bool_decide; simpl; intros Hget; simplify_eq; [lia|].
  specialize (IH Hget). lia.
Qed.

(** How much of the longest string one round removes. *)
Lemma drop_bounds (deficit len : nat) :
  0 < deficit -> 0 < len ->
  let drop := if (deficit <? len)%nat then deficit else Nat.max 1 (len / 2) in
  1 <= drop <= len.
Proof.
  intros Hd Hl. cbv zeta. destruct (Nat.ltb_spec deficit len); [lia|].
  pose proof (Nat.div_lt len 2 Hl ltac:(lia)). lia.
Qed.

Lemma shrink_total reason code limit k0 keys fuel params :
  text_total params < fuel -> is_Some (shrink fuel reason code limit k0 keys params).
Proof.
  revert params. induction fuel as [|f IH]; intros params Hf; [lia|]. cbn [shrink].
  destruct (Nat.leb_spec (length (envelope code params)) limit) as [|Hgt]; [eauto|].
  destruct (str_at params _) as [|c cur] eqn:E; [eauto|]. apply IH.
  set (current := c :: cur) in *.
  pose proof (drop_bounds (length (envelope code params) - limit) (length current)) as Hdrop.
  pose proof (text_total_set _ _ _ (take (length current - (if (length (envelope code params) - limit <? length current)%nat
    then length (envelope code params) - limit else Nat.max 1 (length current / 2))) current)
    (str_at_get _ _ _ E ltac:(done))) as Ht.
  rewrite length_take in Ht. cbv zeta in Hdrop. simpl (0 < length current) in Hdrop. lia.
Qed.

(** *** Cutting keeps the structured form *)

(** [v'] is [v], cut at the end when it is a string. *)
Definition cut_of (v v' : json) : Prop :=
  match v, v' with
  | JStr s, JStr s' => s' `prefix_of` s
  | _, _ => v = v'
  end.

Lemma cut_of_refl v : cut_of v v.
Proof. destruct v; simpl; reflexivity. Qed.

Definition shrunk (p p' : dict) : Prop :=
  Forall2 (fun a b => a.1 = b.1 /\ cut_of a.2 b.2) p p'.

#[export] Instance shrunk_refl : Reflexive shrunk.
Proof. intros p. apply Forall_Forall2_diag, Forall_true. intros [k v]. split; [done|]. apply cut_of_refl. Qed.

#[export] Instance shrunk_trans : Transitive shrunk.
Proof.
  intros p q r. unfold shrunk. revert r. intros r H. revert r.
  induction H as [|[k v] [k' v'] p q [Hk Hv] _ IH]; intros r H.
  { by inv H. }
  apply Forall2_cons_inv_l in H as ([k'' v''] & r' & [Hk' Hv'] & H & ->). simpl in *. constructor; [|by apply IH].
  simpl. split; [congruence|]. destruct v, v', v''; simpl in *; try congruence. by etrans.
Qed.

Lemma shrunk_keys p p' : shrunk p p' -> p'.*1 = p.*1.
Proof. induction 1 as [|a b p p' [Hk _] _ IH]; csimpl; congruence. Qed.

Lemma shrunk_set p k s s' :
  dict_get k p = Some (JStr s) -> s' `prefix_of` s -> shrunk p (dict_set k (JStr s') p).
Proof.
  intros H Hs. induction p as [|[k' v] p IH]; simpl in *; [done|].
  case_bool_decide; simplify_eq.
  - constructor; [done|]. apply shrunk_refl.
  - constructor; [|by apply IH]. split; [done|]. apply cut_of_refl.
Qed.

(** The parameters with every string emptied. *)
Definition blank (p : dict) : dict :=
  map (fun kv => (kv.1, match kv.2 with JStr _ => JStr [] | v => v end)) p.

Lemma shrunk_blank p p' : shrunk p p' -> blank p' = blank p.
Proof.
  induction 1 as [|[k v] [k' v'] p p' [Hk Hv] _ IH]; simpl; [done|]. simpl in *.
  unfold blank in *. simpl. rewrite IH. subst. do 2 f_equal. by destruct v, v'; simpl in *; simplify_eq.
Qed.

Lemma longest_key_max params best keys k :
  k ∈ best :: keys -> length (str_at params k) <= length (str_at params (longest_key params best keys)).
Proof.
  revert best k. induction keys as [|k1 keys IH]; intros best k Hk; simpl.
  - apply list_elem_of_singleton in Hk. by subst.
  - destruct (Nat.ltb_spec (length (str_at params best)) (length (str_at params k1))).
    + apply elem_of_cons in Hk as [->|Hk]; [|by apply IH].
      etrans; [|apply IH; left]. lia.
    + apply elem_of_cons in Hk as [->|Hk]; [apply IH; left|].
      apply elem_of_cons in Hk as [->|Hk]; [etrans; [|apply IH; left]; lia|].
      apply IH. by right.
Qed.

(** [keys] holds the key of every string parameter. *)
Definition covers (keys : list pystr) (p : dict) : Prop :=
  forall k s, (k, JStr s) ∈ p -> k ∈ keys.

Lemma covers_shrunk keys p p' : shrunk p p' -> covers keys p -> covers keys p'.
Proof.
  intros H Hc k s' Hin. apply list_elem_of_lookup in Hin as [i Hi].
  destruct (Forall2_lookup_r _ _ _ _ _ H Hi) as ([k0 v] & Hv & Hk & Hcut). simpl in *. subst.
  destruct v; simplify_eq/=. eapply Hc, list_elem_of_lookup_2, Hv.
Qed.

Lemma all_empty_blank keys p :
  NoDup p.*1 -> covers keys p -> (forall k, k ∈ keys -> str_at p k = []) -> blank p = p.
Proof.
  intros Hnd Hc He. unfold blank. rewrite <- (List.map_id p) at 2. apply List.map_ext_in.
  intros [k v] Hin%list_elem_of_In. simpl. destruct v as [| | | |s| |]; try done.
  specialize (He k (Hc _ _ Hin)). unfold str_at in He.
  apply (dict_get_elem k (JStr s) p Hnd) in Hin. rewrite Hin in He. by subst.
Qed.

Lemma shrink_structured reason code limit k0 keys fuel params r :
  length (envelope code (blank params)) <= limit ->
  NoDup params.*1 -> covers (k0 :: keys) params ->
  shrink fuel reason code limit k0 keys params = Some r ->
  exists p', shrunk params p' /\ r = envelope code p' /\ length r <= limit.
Proof.
  intros Hfit. revert params Hfit. induction fuel as [|f IH]; intros params Hfit Hnd Hc H; [done|].
  cbn [shrink] in H. destruct (Nat.leb_spec (length (envelope code params)) limit) as [Hle|Hgt].
  { simplify_eq. by exists params. }
  destruct (str_at params _) as [|c cur] eqn:E.
  - exfalso. rewrite (all_empty_blank (k0 :: keys)) in Hfit; [lia|done|done|].
    intros k Hk. pose proof (longest_key_max params k0 keys k Hk) as Hm. rewrite E in Hm.
    simpl in Hm. apply nil_length_inv. lia.
  - pose proof (shrunk_set _ _ _ (take (length (c :: cur) -
      (if (length (envelope code params) - limit <? length (c :: cur))%nat
       then length (envelope code params) - limit else Nat.max 1 (length (c :: cur) / 2))) (c :: cur))
      (str_at_get _ _ _ E ltac:(done)) (prefix_take _ _)) as Hs.
    apply IH in H as (p' & Hp & -> & Hl).
    + exists p'. split; [by etrans|done].
    + by rewrite (shrunk_blank _ _ Hs).
    + by rewrite (shrunk_keys _ _ Hs).
    + by eapply covers_shrunk.
Qed.

Lemma parse_failure_inv msg code params :
  parse_failure (Some msg) = Some (code, params) ->
  known_code code = true /\
  ((match_structured msg = Some (code, None) /\ params = []) \/
   exists raw, match_structured msg = Some (code, Some raw) /\ loads raw = Some (JObj params)).
Proof.
  unfold parse_failure. destruct msg as [|c msg]; [done|].
  destruct (match_structured _) as [[code' [raw|]]|]; [..|done];
    (destruct (known_code code') eqn:Hk; [|done]); simpl.
  - destruct (loads raw) as [[]|] eqn:E; try done. intros [= <- <-]. split; [done|]. right. eauto.
  - intros [= <- <-]. split; [done|]. by left.
Qed.

Lemma wf_shrinkable p : wf_json (JObj p) = true ->
  wf_json (JObj (map (fun kv => (kv.1, _as_shrinkable kv.2)) p)) = true.
Proof.
  rewrite !wf_JObj. intros [Hnd Hwf]. split; [by rewrite map_fst_keys|].
  apply List.Forall_map. eapply Forall_impl; [exact Hwf|]. intros [k v]. by destruct v.
Qed.

Lemma wf_shrunk p p' : shrunk p p' -> wf_json (JObj p) = true -> wf_json (JObj p') = true.
Proof.
  intros Hs. rewrite !wf_JObj. intros [Hnd Hwf]. split; [by rewrite (shrunk_keys _ _ Hs)|].
  clear Hnd. induction Hs as [|[k v] [k' v'] p p' [Hk Hv] _ IH]; [constructor|].
  inv Hwf. constructor; [|by apply IH]. simpl in *. by destruct v, v'; simplify_eq/=.
Qed.

Lemma covers_filter p : covers (List.filter (fun kv => is_str kv.2) p).*1 p.
Proof.
  intros k s Hin. apply list_elem_of_fmap. exists (k, JStr s). split; [done|].
  by apply elem_of_where.
Qed.

Lemma bound_structured reason limit code params :
  parse_failure (Some reason) = Some (code, params) ->
  limit < length reason ->
  List.existsb (fun kv => is_str (_as_shrinkable kv.2)) params = true ->
  length (envelope code (blank (map (fun kv => (kv.1, _as_shrinkable kv.2)) params))) <= limit ->
  exists params',
    shrunk (map (fun kv => (kv.1, _as_shrinkable kv.2)) params) params' /\
    bound_reason reason limit = envelope code params' /\
    parse_failure (Some (bound_reason reason limit)) = Some (code, sorted_params params').
Proof.
  intros Hp Hlim Hex Hfit. apply parse_failure_inv in Hp as [Hk [[_ ->]|(raw & Hm & Hl)]]; [done|].
  set (sp := map (fun kv => (kv.1, _as_shrinkable kv.2)) params) in *.
  pose proof (wf_shrinkable _ (loads_wf _ _ Hl)) as Hwf. fold sp in Hwf.
  assert (exists p', shrunk sp p' /\ bound_reason reason limit = envelope code p') as (p' & Hs & Hb).
  { unfold bound_reason. destruct (Nat.leb_spec (length reason) limit); [lia|].
    rewrite Hm, Hk. simpl negb. cbn iota. rewrite Hl. fold sp. cbv zeta.
    pose proof (covers_filter sp) as Hc.
    destruct ((List.filter (fun kv => is_str kv.2) sp).*1) as [|k0 keys].
    - exfalso. apply List.existsb_exists in Hex as ([k v] & Hin%list_elem_of_In & Hv). simpl in Hv.
      destruct (_as_shrinkable v) as [| | | |s| |] eqn:E; try done.
      apply (not_elem_of_nil k). apply (Hc k s). apply list_elem_of_In, in_map_iff.
      exists (k, v). split; [simpl; by rewrite E|by apply list_elem_of_In].
    - destruct (shrink_total reason code limit k0 keys (shrink_fuel sp) sp) as [r Hr]; [unfold shrink_fuel; lia|].
      rewrite Hr. apply wf_JObj in Hwf as [Hnd _].
      destruct (shrink_structured _ _ _ _ _ _ _ _ Hfit Hnd Hc Hr) as (p' & Hs & -> & _). by exists p'. }
  exists p'. split; [done|]. split; [done|]. rewrite Hb. apply parse_envelope; [done|].
  by eapply wf_shrunk.
Qed.

(** Cutting a structured reason keeps it structured: when the code and
    the parameter names alone fit the limit, the bounded reason still parses
    to the same code, with every parameter present and each text a prefix of
    the original one (containers being kept as their JSON text). *)
Theorem bound_reason_structured reason limit code params :
  parse_failure (Some reason) = Some (code, params) ->
  limit < length reason ->
  List.existsb (fun kv => is_str (_as_shrinkable kv.2)) params = true ->
  length (envelope code (blank (map (fun kv => (kv.1, _as_shrinkable kv.2)) params))) <= limit ->
  exists params',
    shrunk (map (fun kv => (kv.1, _as_shrinkable kv.2)) params) params' /\
    bound_reason reason limit = envelope code params' /\
    parse_failure (Some (bound_reason reason limit)) = Some (code, sorted_params params').
Proof. apply bound_structured. Qed.

Lemma bound_reason_structured_witness :
  let reason := u "[free_creation_failed] " ++ uq "{'detail': 'a very long upstream message'}" in
  exists params', bound_reason reason 45 = envelope (u "free_creation_failed") params'
    /\ parse_failure (Some (bound_reason reason 45)) = Some (u "free_creation_failed", sorted_params params').
Proof.
  intros reason.
  destruct (bound_reason_structured reason 45 (u "free_creation_failed")
              [(u "detail", JStr (u "a very long upstream message"))]) as (p & _ & H1 & H2).
  - vm_compute. reflexivity.
  - vm_compute. lia.
  - reflexivity.
  - vm_compute. lia.
  - exists p. split; [exact H1|exact H2].
Defined.

(** ** Collapsing reaches the root reason *)

Definition cascade_params (dependency_task_id reason : pystr) : dict :=
  [(u "dependency_task_id", JStr dependency_task_id); (u "reason", JStr reason)].

Definition cascade_envelope (dependency_task_id reason : pystr) : pystr :=
  envelope _CASCADE_CODE (cascade_params dependency_task_id reason).

(** A chain of blocked tasks, each wrapping the reason of the next. *)
Fixpoint nested_reason (chain : list pystr) (root : pystr) : pystr :=
  match chain with
  | [] => root
  | d :: chain' => cascade_envelope d (nested_reason chain' root)
  end.

Definition is_cascade (reason : pystr) : bool :=
  match parse_failure (Some reason) with
  | Some (code, params) => bool_decide (code = _CASCADE_CODE) &&
      match dict_get (u "reason") params with Some (JStr _) => true | _ => false end
  | None => false
  end.

Lemma parse_cascade d reason :
  parse_failure (Some (cascade_envelope d reason)) = Some (_CASCADE_CODE, cascade_params d reason).
Proof. unfold cascade_envelope. rewrite parse_envelope by done. done. Qed.

Lemma collapse_go_cascade b d reason :
  collapse_go b (cascade_envelope d reason) =
  match b with O => reason | S b' => collapse_go b' reason end.
Proof. destruct b; cbn [collapse_go]; rewrite parse_cascade; done. Qed.

Lemma collapse_go_root b root : is_cascade root = false -> collapse_go b root = root.
Proof.
  unfold is_cascade. destruct b; cbn [collapse_go];
    (destruct (parse_failure _) as [[code params]|]; [|done]);
    case_bool_decide; try done; by destruct (dict_get _ _) as [[]|].
Qed.

(** However deep a chain of blocked tasks is, up to the unwrapping
    limit, the reason passed on is the root one: nested cascade envelopes
    never accumulate. *)
Theorem collapse_nested_reason chain root :
  length chain <= S _MAX_CASCADE_UNWRAP -> is_cascade root = false ->
  collapse_cascade_reason (nested_reason chain root) = root.
Proof.
  intros Hlen Hroot. unfold collapse_cascade_reason.
  assert (forall b, length chain <= S b -> collapse_go b (nested_reason chain root) = root) as H.
  { clear Hlen. induction chain as [|d chain IH]; intros b Hb; [by apply collapse_go_root|].
    cbn [nested_reason]. rewrite collapse_go_cascade. simpl in Hb. destruct b as [|b].
    - destruct chain; [done|simpl in Hb; lia].
    - apply IH. lia. }
  by apply H.
Qed.

Lemma collapse_nested_reason_witness :
  collapse_cascade_reason (nested_reason [u "t2"; u "t1"] (u "quota")) = u "quota".
Proof. apply (collapse_nested_reason [u "t2"; u "t1"] (u "quota")); vm_compute; [lia|reflexivity]. Defined.

(** ** Rendering unfolds nested reasons completely *)

Lemma span_word_length s : length (span_word s).2 <= length s.
Proof. induction s as [|c s IH]; simpl; [lia|]. destruct (is_word c); simpl; lia. Qed.

Lemma drop_final_newline_length s : length (drop_final_newline s) <= length s.
Proof. unfold drop_final_newline. repeat case_match; rewrite ?length_take; lia. Qed.

Lemma match_structured_length s code raw :
  match_structured s = Some (code, Some raw) -> length raw < length s.
Proof.
  unfold match_structured. destruct s as [|c s]; [done|].
  pose proof (span_word_length s) as Hw.
  destruct ((span_word s).2) as [|b t]; [by repeat case_match|]. simpl in Hw.
  pose proof (drop_final_newline_length t).
  repeat case_match; intros; simplify_eq; simpl in *; lia.
Qed.

Lemma nested_reason_shorter msg code params nested :
  parse_failure (Some msg) = Some (code, params) ->
  dict_get (u "reason") params = Some (JStr nested) -> length nested < length msg.
Proof.
  intros [_ [[_ ->]|(raw & Hm & Hl)]]%parse_failure_inv Hg; [done|].
  apply match_structured_length in Hm. pose proof (loads_member_length _ _ _ _ Hl Hg). lia.
Qed.

Section render_proofs.
Context (translate : string -> dict -> pystr).

Lemma render_go_fuel f1 f2 msg :
  length msg <= f1 -> length msg <= f2 ->
  render_go translate f1 msg = render_go translate f2 msg.
Proof.
  revert f2 msg. induction f1 as [|f1 IH]; intros f2 msg H1 H2.
  - apply Nat.le_0_r, nil_length_inv in H1 as ->. by destruct f2.
  - destruct f2 as [|f2]; [apply Nat.le_0_r, nil_length_inv in H2 as ->; done|].
    cbn [render_go]. destruct (parse_failure (Some msg)) as [[code params]|] eqn:E; [|done].
    case_bool_decide; [|done].
    destruct (dict_get (u "reason") params) as [[| | | |nested| |]|] eqn:Eg; try done.
    pose proof (nested_reason_shorter _ _ _ _ E Eg). by rewrite (IH f2 nested) by lia.
Qed.
End render_proofs.

(** A stored structured reason is shown through the template of its code;
    in a cascade the blocked task's own reason is rendered first, to any
    depth. *)
Theorem render_failure_nested (translate : string -> dict -> pystr) msg code params :
  parse_failure (Some msg) = Some (code, params) ->
  exists key, failure_key code = Some key /\
  render_failure translate (Some msg) = Some (translate key
    (match bool_decide (code = _CASCADE_CODE), dict_get (u "reason") params with
     | true, Some (JStr nested) =>
         dict_set (u "reason") (JStr (default [] (render_failure translate (Some nested)))) params
     | _, _ => params
     end)).
Proof.
  intros Hp. destruct (parse_failure_inv _ _ _ Hp) as [Hk _]. unfold known_code in Hk.
  destruct (failure_key code) as [key|] eqn:Hkey; [|done]. exists key. split; [done|].
  unfold render_failure at 1. destruct msg as [|c msg]; [done|]. f_equal.
  cbn [length render_go]. rewrite Hp, Hkey. f_equal. case_bool_decide; [|done].
  destruct (dict_get (u "reason") params) as [[| | | |nested| |]|] eqn:Eg; try done.
  do 2 f_equal. pose proof (nested_reason_shorter _ _ _ _ Hp Eg). simpl in *.
  unfold render_failure. destruct nested as [|n0 nested]; [by destruct (length msg)|].
  apply render_go_fuel; simpl in *; lia.
Qed.

Lemma render_failure_nested_witness :
  let tr := fun key (_ : dict) => u key in
  exists key, failure_key _CASCADE_CODE = Some key
    /\ render_failure tr (Some (cascade_envelope (u "t1") (u "[restart_lost_image]"))) = Some (u key).
Proof.
  intros tr.
  destruct (render_failure_nested tr (cascade_envelope (u "t1") (u "[restart_lost_image]")) _CASCADE_CODE
              (cascade_params (u "t1") (u "[restart_lost_image]"))) as (key & Hk & Hr).
  - vm_compute. reflexivity.
  - exists key. split; [exact Hk|]. rewrite Hr. reflexivity.
Defined.

(** ** What a cascade stores *)

(** Cutting a cascade envelope leaves a cascade envelope. *)
Lemma bound_cascade d r limit :
  length (envelope _CASCADE_CODE (cascade_params [] [])) <= limit ->
  exists d' r', d' `prefix_of` d /\ r' `prefix_of` r /\
    parse_failure (Some (bound_reason (cascade_envelope d r) limit)) =
      Some (_CASCADE_CODE, cascade_params d' r').
Proof.
  intros Hfit. destruct (Nat.le_gt_cases (length (cascade_envelope d r)) limit) as [Hle|Hgt].
  - exists d, r. split; [done|]. split; [done|]. unfold bound_reason.
    rewrite (proj2 (Nat.leb_le _ _) Hle). apply parse_cascade.
  - destruct (bound_structured (cascade_envelope d r) limit _CASCADE_CODE (cascade_params d r)
                (parse_cascade d r) Hgt eq_refl Hfit) as (p & Hs & _ & Hp).
    unfold cascade_params, shrunk in Hs. simpl in Hs.
    apply Forall2_cons_inv_l in Hs as ([k1 v1] & p1 & [Hk1 Hv1] & Hs & ->).
    apply Forall2_cons_inv_l in Hs as ([k2 v2] & p2 & [Hk2 Hv2] & Hs & ->). inv Hs. simpl in *.
    destruct v1 as [| | | |d'| |]; try done. destruct v2 as [| | | |r'| |]; try done.
    exists d', r'. split; [done|]. split; [done|]. rewrite Hp. subst. done.
Qed.
