(* ===== verification/TaskStore.v ===== *)
(** * The task tables: [lib/db/models/task.py] and the rows around it

    Rows are records with the ORM columns; a table is the list of its rows in
    storage order.  [UPDATE ... WHERE], [SELECT ... WHERE ... ORDER BY] and
    [rowcount] are list functions; rows that tie in an [ORDER BY] come in
    storage order.  Datetimes are instants on a linear clock ([Z]). *)

From S2P Require Import Prelude Json.

(** ** Columns *)

(** The values of [Task.status]. *)
Inductive TaskStatus := queued | running | cancelling | succeeded | failed | cancelled.

#[export] Instance TaskStatus_eq_dec : EqDecision TaskStatus.
Proof. solve_decision. Defined.

(** [ACTIVE_TASK_STATUSES] *)
Definition is_active (s : TaskStatus) : bool :=
  match s with queued | running | cancelling => true | _ => false end.

(** [TERMINAL_TASK_STATUSES] *)
Definition is_terminal (s : TaskStatus) : bool :=
  match s with succeeded | failed | cancelled => true | _ => false end.

Lemma terminal_not_active s : is_terminal s = negb (is_active s).
Proof. by destruct s. Qed.

Record Task := mkTask {
  task_id : string;
  project_id : option string;
  project_name : string;
  actor_username : option string;
  task_type : string;
  media_type : string;
  resource_id : string;
  resource_type : option string;
  script_file : option string;
  payload_json : option pystr;
  status : TaskStatus;
  result_json : option pystr;
  error_message : option pystr;
  source : string;
  dependency_task_id : option string;
  dependency_group : option string;
  dependency_index : option Z;
  cancelled_by : option string;
  provider_id : option string;
  provider_job_id : option string;
  provider_endpoint : option string;
  submitted_base_url : option string;
  execution_checkpoint_json : option pystr;
  queued_at : Z;
  started_at : option Z;
  finished_at : option Z;
  updated_at : Z;
  user_id : option string
}.

(** Single-column assignments. *)
Definition set_payload_json (v : option pystr) (t : Task) : Task :=
  mkTask (task_id t) (project_id t) (project_name t) (actor_username t) (task_type t)
    (media_type t) (resource_id t) (resource_type t) (script_file t) v (status t)
    (result_json t) (error_message t) (source t) (dependency_task_id t)
    (dependency_group t) (dependency_index t) (cancelled_by t) (provider_id t)
    (provider_job_id t) (provider_endpoint t) (submitted_base_url t)
    (execution_checkpoint_json t) (queued_at t) (started_at t) (finished_at t)
    (updated_at t) (user_id t).

Definition set_status (v : TaskStatus) (t : Task) : Task :=
  mkTask (task_id t) (project_id t) (project_name t) (actor_username t) (task_type t)
    (media_type t) (resource_id t) (resource_type t) (script_file t) (payload_json t) v
    (result_json t) (error_message t) (source t) (dependency_task_id t)
    (dependency_group t) (dependency_index t) (cancelled_by t) (provider_id t)
    (provider_job_id t) (provider_endpoint t) (submitted_base_url t)
    (execution_checkpoint_json t) (queued_at t) (started_at t) (finished_at t)
    (updated_at t) (user_id t).

Definition set_result_json (v : option pystr) (t : Task) : Task :=
  mkTask (task_id t) (project_id t) (project_name t) (actor_username t) (task_type t)
    (media_type t) (resource_id t) (resource_type t) (script_file t) (payload_json t)
    (status t) v (error_message t) (source t) (dependency_task_id t) (dependency_group t)
    (dependency_index t) (cancelled_by t) (provider_id t) (provider_job_id t)
    (provider_endpoint t) (submitted_base_url t) (execution_checkpoint_json t)
    (queued_at t) (started_at t) (finished_at t) (updated_at t) (user_id t).

Definition set_error_message (v : option pystr) (t : Task) : Task :=
  mkTask (task_id t) (project_id t) (project_name t) (actor_username t) (task_type t)
    (media_type t) (resource_id t) (resource_type t) (script_file t) (payload_json t)
    (status t) (result_json t) v (source t) (dependency_task_id t) (dependency_group t)
    (dependency_index t) (cancelled_by t) (provider_id t) (provider_job_id t)
    (provider_endpoint t) (submitted_base_url t) (execution_checkpoint_json t)
    (queued_at t) (started_at t) (finished_at t) (updated_at t) (user_id t).

Definition set_cancelled_by (v : option string) (t : Task) : Task :=
  mkTask (task_id t) (project_id t) (project_name t) (actor_username t) (task_type t)
    (media_type t) (resource_id t) (resource_type t) (script_file t) (payload_json t)
    (status t) (result_json t) (error_message t) (source t) (dependency_task_id t)
    (dependency_group t) (dependency_index t) v (provider_id t) (provider_job_id t)
    (provider_endpoint t) (submitted_base_url t) (execution_checkpoint_json t)
    (queued_at t) (started_at t) (finished_at t) (updated_at t) (user_id t).

Definition set_provider_id (v : option string) (t : Task) : Task :=
  mkTask (task_id t) (project_id t) (project_name t) (actor_username t) (task_type t)
    (media_type t) (resource_id t) (resource_type t) (script_file t) (payload_json t)
    (status t) (result_json t) (error_message t) (source t) (dependency_task_id t)
    (dependency_group t) (dependency_index t) (cancelled_by t) v (provider_job_id t)
    (provider_endpoint t) (submitted_base_url t) (execution_checkpoint_json t)
    (queued_at t) (started_at t) (finished_at t) (updated_at t) (user_id t).

Definition set_provider_job_id (v : option string) (t : Task) : Task :=
  mkTask (task_id t) (project_id t) (project_name t) (actor_username t) (task_type t)
    (media_type t) (resource_id t) (resource_type t) (script_file t) (payload_json t)
    (status t) (result_json t) (error_message t) (source t) (dependency_task_id t)
    (dependency_group t) (dependency_index t) (cancelled_by t) (provider_id t) v
    (provider_endpoint t) (submitted_base_url t) (execution_checkpoint_json t)
    (queued_at t) (started_at t) (finished_at t) (updated_at t) (user_id t).

Definition set_provider_endpoint (v : option string) (t : Task) : Task :=
  mkTask (task_id t) (project_id t) (project_name t) (actor_username t) (task_type t)
    (media_type t) (resource_id t) (resource_type t) (script_file t) (payload_json t)
    (status t) (result_json t) (error_message t) (source t) (dependency_task_id t)
    (dependency_group t) (dependency_index t) (cancelled_by t) (provider_id t)
    (provider_job_id t) v (submitted_base_url t) (execution_checkpoint_json t)
    (queued_at t) (started_at t) (finished_at t) (updated_at t) (user_id t).

Definition set_submitted_base_url (v : option string) (t : Task) : Task :=
  mkTask (task_id t) (project_id t) (project_name t) (actor_username t) (task_type t)
    (media_type t) (resource_id t) (resource_type t) (script_file t) (payload_json t)
    (status t) (result_json t) (error_message t) (source t) (dependency_task_id t)
    (dependency_group t) (dependency_index t) (cancelled_by t) (provider_id t)
    (provider_job_id t) (provider_endpoint t) v (execution_checkpoint_json t)
    (queued_at t) (started_at t) (finished_at t) (updated_at t) (user_id t).

Definition set_execution_checkpoint_json (v : option pystr) (t : Task) : Task :=
  mkTask (task_id t) (project_id t) (project_name t) (actor_username t) (task_type t)
    (media_type t) (resource_id t) (resource_type t) (script_file t) (payload_json t)
    (status t) (result_json t) (error_message t) (source t) (dependency_task_id t)
    (dependency_group t) (dependency_index t) (cancelled_by t) (provider_id t)
    (provider_job_id t) (provider_endpoint t) (submitted_base_url t) v (queued_at t)
    (started_at t) (finished_at t) (updated_at t) (user_id t).

Definition set_started_at (v : option Z) (t : Task) : Task :=
  mkTask (task_id t) (project_id t) (project_name t) (actor_username t) (task_type t)
    (media_type t) (resource_id t) (resource_type t) (script_file t) (payload_json t)
    (status t) (result_json t) (error_message t) (source t) (dependency_task_id t)
    (dependency_group t) (dependency_index t) (cancelled_by t) (provider_id t)
    (provider_job_id t) (provider_endpoint t) (submitted_base_url t)
    (execution_checkpoint_json t) (queued_at t) v (finished_at t) (updated_at t)
    (user_id t).

Definition set_finished_at (v : option Z) (t : Task) : Task :=
  mkTask (task_id t) (project_id t) (project_name t) (actor_username t) (task_type t)
    (media_type t) (resource_id t) (resource_type t) (script_file t) (payload_json t)
    (status t) (result_json t) (error_message t) (source t) (dependency_task_id t)
    (dependency_group t) (dependency_index t) (cancelled_by t) (provider_id t)
    (provider_job_id t) (provider_endpoint t) (submitted_base_url t)
    (execution_checkpoint_json t) (queued_at t) (started_at t) v (updated_at t)
    (user_id t).

Definition set_updated_at (v : Z) (t : Task) : Task :=
  mkTask (task_id t) (project_id t) (project_name t) (actor_username t) (task_type t)
    (media_type t) (resource_id t) (resource_type t) (script_file t) (payload_json t)
    (status t) (result_json t) (error_message t) (source t) (dependency_task_id t)
    (dependency_group t) (dependency_index t) (cancelled_by t) (provider_id t)
    (provider_job_id t) (provider_endpoint t) (submitted_base_url t)
    (execution_checkpoint_json t) (queued_at t) (started_at t) (finished_at t) v
    (user_id t).

Record WorkerLease := mkLease {
  name : string;
  owner_id : string;
  lease_until : Z;
  lease_updated_at : Z
}.

(** The columns of [project_registry] and [users] the task code reads. *)
Record ProjectRegistry := mkProject {
  reg_id : string;
  reg_name : string;
  storage_key : string
}.

Record User := mkUser {
  usr_id : string;
  username : string;
  is_superadmin : bool
}.

Record DB := mkDB {
  tasks : list Task;
  leases : list WorkerLease;
  registry : list ProjectRegistry;
  users : list User
}.

Definition set_tasks (l : list Task) (db : DB) : DB := mkDB l (leases db) (registry db) (users db).
Definition set_leases (l : list WorkerLease) (db : DB) : DB := mkDB (tasks db) l (registry db) (users db).

(** ** SQL on lists *)

Definition by_id (id : string) (t : Task) : bool := bool_decide (task_id t = id).

Definition has_status (s : TaskStatus) (t : Task) : bool := bool_decide (status t = s).

(** [SELECT ... WHERE task_id = id], [scalar_one_or_none]. *)
Definition find_task (id : string) (l : list Task) : option Task := List.find (by_id id) l.

Definition update_where (p : Task -> bool) (f : Task -> Task) (l : list Task) : list Task :=
  map (fun t => if p t then f t else t) l.

(** The rows an [UPDATE ... WHERE p] touches. *)
Definition matched (p : Task -> bool) (l : list Task) : nat := length (where_ p l).

Definition asc (key : Task -> Z) (a b : Task) : bool := (key a <=? key b)%Z.
Definition desc (key : Task -> Z) (a b : Task) : bool := (key b <=? key a)%Z.

(** [ORDER BY key ASC] *)
Definition order_asc (key : Task -> Z) (l : list Task) : list Task := isort (asc key) l.

(** [COALESCE(column, default)] *)
Definition coalesce (x : option string) (d : string) : string := default d x.

(** The expression of the unique partial index [idx_tasks_dedupe_active]. *)
Definition dedupe_key (t : Task) : string * string * string * string * string :=
  (coalesce (project_id t) (project_name t), task_type t, resource_id t,
   coalesce (script_file t) "", coalesce (resource_type t) "").

(** ** Dictionary view of a row *)

(** What [_task_to_dict] returns: the columns, with the two JSON columns
    decoded. *)
Record TaskDict := mkTaskDict {
  row : Task;
  payload : json;
  result_ : json
}.

(** [_json_loads(value, default)] *)
Definition _json_loads (value : option pystr) (dflt : json) : json :=
  match value with
  | None | Some [] => dflt
  | Some v => default dflt (loads v)
  end.

(** [_json_dumps(value)] *)
Definition _json_dumps (value : json) : pystr := dumps false value.

Definition _task_to_dict (t : Task) : TaskDict :=
  mkTaskDict t (_json_loads (payload_json t) (JObj [])) (_json_loads (result_json t) (JObj [])).

(** ** Lemmas on tables *)

Definition ids (l : list Task) : list string := map task_id l.

Lemma find_task_Some id l t : find_task id l = Some t -> t ∈ l /\ task_id t = id.
Proof. intros [H1 H2]%find_Some_elem. split; [done|]. unfold by_id in H2. by to_prop. Qed.

Lemma find_task_None id l : find_task id l = None <-> id ∉ ids l.
Proof.
  unfold find_task, ids. induction l as [|t l IH]; simpl.
  - split; [intros _; apply not_elem_of_nil|done].
  - unfold by_id at 1. case_bool_decide as E; rewrite not_elem_of_cons.
    + split; [done|]. intros [H _]. congruence.
    + rewrite IH. naive_solver.
Qed.

Lemma find_task_elem l t : NoDup (ids l) -> t ∈ l -> find_task (task_id t) l = Some t.
Proof.
  intros Hnd Hin. induction l as [|t' l IH]; [by apply not_elem_of_nil in Hin|].
  unfold find_task, ids in *. simpl in *. apply NoDup_cons in Hnd as [Hni Hnd].
  unfold by_id at 1. case_bool_decide as E; apply elem_of_cons in Hin as [->|Hin]; try done.
  - destruct Hni. rewrite E. apply list_elem_of_In, in_map, list_elem_of_In, Hin.
  - by apply IH.
Qed.

Lemma ids_elem l t : t ∈ l -> task_id t ∈ ids l.
Proof. intros H. by apply list_elem_of_In, in_map, list_elem_of_In. Qed.

Lemma ids_elem_inv l id : id ∈ ids l -> exists t, t ∈ l /\ task_id t = id.
Proof.
  intros H%list_elem_of_In%in_map_iff. destruct H as (t & <- & H). exists t.
  split; [by apply list_elem_of_In|done].
Qed.

Lemma find_task_is_Some id l : is_Some (find_task id l) <-> id ∈ ids l.
Proof.
  destruct (find_task id l) as [t|] eqn:E.
  - apply find_task_Some in E as [Hin <-]. split; [|eauto]. intros _. by apply ids_elem.
  - apply find_task_None in E. split; [by intros [? ?]|done].
Qed.

Lemma ids_update p f l : (forall t, task_id (f t) = task_id t) -> ids (update_where p f l) = ids l.
Proof.
  intros Hf. unfold ids, update_where. rewrite map_map. apply map_ext. intros t.
  by destruct (p t).
Qed.

Lemma find_update p f l id :
  (forall t, task_id (f t) = task_id t) ->
  find_task id (update_where p f l) = (fun t => if p t then f t else t) <$> find_task id l.
Proof.
  intros Hf. unfold find_task, update_where. induction l as [|t l IH]; simpl; [done|].
  assert (task_id (if p t then f t else t) = task_id t) as Hid by by destruct (p t).
  unfold by_id at 1 3. rewrite Hid. by case_bool_decide.
Qed.

(** An update of one row is seen by a lookup of that row only. *)
Lemma find_update_by_id (q : Task -> bool) f l id id' :
  (forall t, task_id (f t) = task_id t) ->
  find_task id' (update_where (fun t => by_id id t && q t) f l) =
  if bool_decide (id = id')
  then (fun t => if q t then f t else t) <$> find_task id l
  else find_task id' l.
Proof.
  intros Hf. rewrite find_update by done. case_bool_decide as D; subst.
  - destruct (find_task id' l) as [t|] eqn:E; [|done]. simpl.
    apply find_task_Some in E as [_ E]. unfold by_id. by rewrite bool_decide_eq_true_2.
  - destruct (find_task id' l) as [t|] eqn:E; [|done]. simpl.
    apply find_task_Some in E as [_ E]. unfold by_id. rewrite bool_decide_eq_false_2; [done|congruence].
Qed.

(** With a primary key, a guarded update of one row touches at most it. *)
Lemma matched_by_id (q : Task -> bool) l id :
  NoDup (ids l) ->
  matched (fun t => by_id id t && q t) l =
  match find_task id l with Some t => if q t then 1 else 0 | None => 0 end.
Proof.
  unfold matched, find_task. induction l as [|t l IH]; simpl; [done|].
  intros [Hni Hnd]%NoDup_cons. specialize (IH Hnd).
  change (by_id id t) with (bool_decide (task_id t = id)). case_bool_decide as E; simpl; [|done].
  assert (where_ (fun t => by_id id t && q t) l = []) as Hnil.
  { apply where_nil. intros x Hx. unfold by_id. rewrite bool_decide_eq_false_2; [done|].
    intros <-. apply Hni. rewrite E. by apply ids_elem. }
  destruct (q t); simpl; by rewrite Hnil.
Qed.

Lemma where_matched p l : where_ p l = [] <-> matched p l = 0.
Proof. unfold matched. by destruct (where_ p l). Qed.

Lemma elem_of_update p f l t :
  t ∈ update_where p f l <-> exists t0, t0 ∈ l /\ t = if p t0 then f t0 else t0.
Proof.
  unfold update_where. rewrite list_elem_of_In, in_map_iff. setoid_rewrite list_elem_of_In. naive_solver.
Qed.

Lemma update_where_none p f l : matched p l = 0 -> update_where p f l = l.
Proof.
  intros H%where_matched. rewrite where_nil in H. unfold update_where.
  rewrite <- (List.map_id l) at 2. apply List.map_ext_in. intros t Ht%list_elem_of_In.
  by rewrite (H t Ht).
Qed.

Lemma asc_total key x y : asc key x y = true \/ asc key y x = true.
Proof. unfold asc. rewrite !Z.leb_le. lia. Qed.

Lemma asc_trans key x y z : asc key x y = true -> asc key y z = true -> asc key x z = true.
Proof. unfold asc. rewrite !Z.leb_le. lia. Qed.

(** The first row of an ascending order has the least key. *)
Lemma order_asc_head key l t l' t' :
  order_asc key l = t :: l' -> t' ∈ l -> (key t <= key t')%Z.
Proof.
  intros H Hin. apply Z.leb_le. fold (asc key t t'). eapply isort_head_le;
    [apply asc_total|apply asc_trans|exact H|exact Hin].
Qed.
