(* ===== verification/TaskRepo.v ===== *)
(** * The task repository: [lib/db/repositories/task_repo.py]

    One definition per method of [TaskRepository], on a session made of the
    tables and the terminal events recorded so far.  The clock is read once
    per call ([now]); a method that raises leaves the tables as they were.
    [resolve_project_id] and [resolve_actor_user_id] are the identity helpers
    the repository calls. *)

From S2P Require Import Prelude Json TaskFailure TaskStore.

(** ** Session *)

Record TerminalEvent := mkEvent {
  ev_task_id : string;
  ev_project_name : string;
  ev_status : TaskStatus;
  ev_task_type : option string
}.

Record Session := mkSession {
  db : DB;
  terminal_events : list TerminalEvent
}.

Definition rows (s : Session) : list Task := tasks (db s).

Definition with_rows (l : list Task) (s : Session) : Session :=
  mkSession (set_tasks l (db s)) (terminal_events s).

(** [UPDATE tasks SET ... WHERE ...] and its [rowcount]. *)
Definition sql_update (p : Task -> bool) (f : Task -> Task) (s : Session) : nat * Session :=
  (matched p (rows s), with_rows (update_where p f (rows s)) s).

(** A status that is not terminal records nothing. *)
Definition _record_terminal_event (id project : string) (st : TaskStatus) (ty : option string)
    (s : Session) : Session :=
  if is_terminal st
  then mkSession (db s) (terminal_events s ++ [mkEvent id project st ty])
  else s.

(** Record the event of the row as it reads after an update. *)
Definition record_row (id : string) (st : TaskStatus) (s : Session) : Session :=
  match find_task id (rows s) with
  | Some t => _record_terminal_event id (project_name t) st (Some (task_type t)) s
  | None => s
  end.

(** ** Identity helpers *)

(** [lib/db/project_identity.py]: by registry id, then storage key, then an
    unambiguous display name. *)
Definition resolve_project_id (d : DB) (project : string) : result (option string) :=
  match List.find (fun p => bool_decide (reg_id p = project)) (registry d) with
  | Some p => Ok (Some (reg_id p))
  | None =>
      match List.find (fun p => bool_decide (storage_key p = project)) (registry d) with
      | Some p => Ok (Some (reg_id p))
      | None =>
          match where_ (fun p => bool_decide (reg_name p = project)) (registry d) with
          | [] => Ok None
          | [p] => Ok (Some (reg_id p))
          | _ => Raise ValueError
          end
      end
  end.

(** [project_id or resolve_project_id(...)] *)
Definition project_id_or_resolve (d : DB) (project : string) (pid : option string) : result (option string) :=
  match pid with
  | Some x => if bool_decide (x = "") then resolve_project_id d project else Ok pid
  | None => resolve_project_id d project
  end.

Definition LEGACY_DEFAULT_USER_ID : string := "default".

(** [lib/db/actor_identity.py]: the legacy marker stands for the superadmin. *)
Definition resolve_actor_user_id (testing : bool) (d : DB) (user : option string) : result string :=
  let candidate := str_or user LEGACY_DEFAULT_USER_ID in
  if negb (bool_decide (candidate = LEGACY_DEFAULT_USER_ID)) then Ok candidate
  else
    match str_or (usr_id <$> List.find is_superadmin (users d)) "" with
    | "" => if testing then Ok LEGACY_DEFAULT_USER_ID else Raise RuntimeError
    | superadmin_id => Ok superadmin_id
    end.

Definition _actor_username (d : DB) (user : string) : option string :=
  username <$> List.find (fun x => bool_decide (usr_id x = user)) (users d).

(** ** Enqueueing *)

(** The part of the dedupe key that does not depend on the resource. *)
Definition _active_dedupe_clauses (project : string) (pid : option string) (ty : string)
    (script res_type : option string) (t : Task) : bool :=
  bool_decide (coalesce (project_id t) (project_name t) = str_or pid project)
  && bool_decide (task_type t = ty)
  && bool_decide (coalesce (script_file t) "" = str_or script "")
  && bool_decide (coalesce (resource_type t) "" = str_or res_type "")
  && is_active (status t).

(** The constraints [flush] checks on a new row: the primary key, the
    partial unique index and the two foreign keys. *)
Definition violates_integrity (d : DB) (t : Task) : bool :=
  bool_decide (task_id t ∈ ids (tasks d))
  || (is_active (status t) &&
      List.existsb (fun r => is_active (status r) && bool_decide (dedupe_key r = dedupe_key t)) (tasks d))
  || match user_id t with
     | Some x => negb (List.existsb (fun r => bool_decide (usr_id r = x)) (users d))
     | None => false
     end
  || match project_id t with
     | Some x => negb (List.existsb (fun r => bool_decide (reg_id r = x)) (registry d))
     | None => false
     end.

Record EnqueueArgs := mkEnqueue {
  a_project_name : string;
  a_task_type : string;
  a_media_type : string;
  a_resource_id : string;
  a_payload : option json;
  a_script_file : option string;
  a_resource_type : option string;
  a_source : string;
  a_dependency_task_id : option string;
  a_dependency_group : option string;
  a_dependency_index : option Z;
  a_user_id : string;
  a_provider_id : option string
}.

Record EnqueueResult := mkEnqueueResult {
  r_task_id : string;
  r_status : TaskStatus;
  r_deduped : bool;
  r_existing_task_id : option string;
  r_existing_payload : option json
}.

(** [payload or {}]: an empty dictionary is falsy and so is [None]. *)
Definition payload_or_empty (p : option json) : json := default (JObj []) p.

Definition new_task (now : Z) (uuid : string) (pid : option string) (actor : string)
    (actor_name : option string) (a : EnqueueArgs) : Task :=
  mkTask uuid pid (a_project_name a) actor_name (a_task_type a) (a_media_type a) (a_resource_id a)
    (a_resource_type a) (a_script_file a) (Some (_json_dumps (payload_or_empty (a_payload a))))
    queued None None (a_source a) (a_dependency_task_id a) (a_dependency_group a)
    (a_dependency_index a) None (a_provider_id a) None None None None now None None now (Some actor).

(** [uuid] is the identifier [uuid4] draws. *)
Definition enqueue (testing : bool) (now : Z) (uuid : string) (a : EnqueueArgs) (s : Session)
    : result (EnqueueResult * Session) :=
  let! pid := resolve_project_id (db s) (a_project_name a) in
  let! actor := resolve_actor_user_id testing (db s) (Some (a_user_id a)) in
  let t := new_task now uuid pid actor (_actor_username (db s) actor) a in
  if violates_integrity (db s) t then
    let hits := where_ (fun r =>
        _active_dedupe_clauses (a_project_name a) pid (a_task_type a) (a_script_file a)
          (a_resource_type a) r
        && bool_decide (resource_id r = a_resource_id a)) (rows s) in
    match isort (desc queued_at) hits with
    | existing :: _ =>
        Ok (mkEnqueueResult (task_id existing) (status existing) true (Some (task_id existing))
              (Some (_json_loads (payload_json existing) (JObj []))), s)
    | [] => Raise IntegrityError
    end
  else Ok (mkEnqueueResult uuid queued false None None, with_rows (rows s ++ [t]) s).

(** [ORDER BY queued_at, task_id] *)
Definition queued_then_id (a b : Task) : bool :=
  (queued_at a <? queued_at b)%Z
  || ((queued_at a =? queued_at b)%Z && str_leb (u (task_id a)) (u (task_id b))).

Definition get_active_tasks_for_resources (project : string) (pid : option string) (ty : string)
    (resource_ids : list string) (script res_type : option string) (s : Session)
    : result (list TaskDict) :=
  match resource_ids with
  | [] => Ok []
  | _ =>
      let! pid' := project_id_or_resolve (db s) project pid in
      Ok (map _task_to_dict (isort queued_then_id (where_ (fun t =>
            _active_dedupe_clauses project pid' ty script res_type t
            && bool_decide (resource_id t ∈ resource_ids)) (rows s))))
  end.

(** ** Claiming *)

(** The self-join: no dependency, or a dependency row that succeeded. *)
Definition dependency_ok (l : list Task) (t : Task) : bool :=
  match dependency_task_id t with
  | None => true
  | Some d => match find_task d l with
              | Some r => has_status succeeded r
              | None => false
              end
  end.

(** Providers known to be full are skipped, except that reference videos
    are projected again after the claim and that [NULL] is never listed. *)
Definition provider_filter (pool_full : list string) (t : Task) : bool :=
  bool_decide (pool_full = [])
  || bool_decide (task_type t = "reference_video")
  || match provider_id t with
     | None => true
     | Some p => negb (bool_decide (p ∈ pool_full))
     end.

Definition claimable (media : string) (pool_full exclude : list string) (l : list Task) (t : Task) : bool :=
  has_status queued t
  && bool_decide (media_type t = media)
  && provider_filter pool_full t
  && negb (bool_decide (task_id t ∈ exclude))
  && dependency_ok l t.

(** The [SELECT] of [claim_next]. *)
Definition claim_select (media : string) (pool_full exclude : list string) (s : Session) : option string :=
  match order_asc queued_at (where_ (claimable media pool_full exclude (rows s)) (rows s)) with
  | t :: _ => Some (task_id t)
  | [] => None
  end.

(** The guarded [UPDATE] and the reload; [None] when another worker won. *)
Definition claim_update (now : Z) (target : string) (s : Session) : option TaskDict * Session :=
  let '(n, s') := sql_update (fun t => by_id target t && has_status queued t)
      (fun t => set_updated_at now (set_started_at (Some now) (set_status running t))) s in
  if bool_decide (n = 0) then (None, s)
  else (_task_to_dict <$> find_task target (rows s'), s').

Definition claim_next (now : Z) (media : string) (pool_full exclude : list string) (s : Session)
    : option TaskDict * Session :=
  match claim_select media pool_full exclude s with
  | None => (None, s)
  | Some target => claim_update now target s
  end.

(** ** Terminal writes of the worker *)

(** Zero rows means another session moved the task out of [running]. *)
Definition mark_succeeded (now : Z) (id : string) (res : option json) (s : Session) : nat * Session :=
  let '(n, s') := sql_update (fun t => by_id id t && has_status running t)
      (fun t => set_updated_at now (set_finished_at (Some now) (set_error_message None
                  (set_result_json (Some (_json_dumps (payload_or_empty res)))
                     (set_status succeeded t))))) s in
  if bool_decide (n = 0) then (0, s) else (n, record_row id succeeded s').

Definition _MAX_ERROR_MESSAGE_LEN : nat := 2000.

(** Rows [from] with this id become [failed] with a bounded reason. *)
Definition fail_row (from : TaskStatus) (now : Z) (id : string) (msg : pystr) (s : Session) : nat * Session :=
  let '(n, s') := sql_update (fun t => by_id id t && has_status from t)
      (fun t => set_updated_at now (set_finished_at (Some now)
                  (set_error_message (Some (bound_reason msg _MAX_ERROR_MESSAGE_LEN))
                     (set_status failed t)))) s in
  if bool_decide (n = 0) then (0, s) else (n, record_row id failed s').

Definition _mark_failed_running := fail_row running.
Definition _mark_failed_queued_dep := fail_row queued.

(** Trim the reason until the cascade envelope fits, at most five times. *)
Fixpoint fit_cascade (rounds : nat) (dep reason : pystr) (budget : nat) : pystr :=
  match rounds with
  | O => cascade_envelope dep reason
  | S r =>
      let reason' := bound_reason reason budget in
      let encoded := cascade_envelope dep reason' in
      let overflow := length encoded - _MAX_ERROR_MESSAGE_LEN in
      if bool_decide (overflow = 0) || bool_decide (budget = 0) then encoded
      else match r with
           | O => encoded
           | S _ => fit_cascade r dep reason' (budget - overflow)
           end
  end.

Definition _encode_bounded_cascade_failure (dependency : string) (reason : pystr) : pystr :=
  let dep := u dependency in
  let reason := collapse_cascade_reason reason in
  let encoded := cascade_envelope dep reason in
  if (length encoded <=? _MAX_ERROR_MESSAGE_LEN)%nat then encoded
  else
    let overhead := length (cascade_envelope dep []) in
    fit_cascade 5 dep reason (_MAX_ERROR_MESSAGE_LEN - overhead).

(** The queued rows that wait for [id], oldest first. *)
Definition queued_dependents (id : string) (l : list Task) : list string :=
  map task_id (order_asc queued_at
    (where_ (fun t => bool_decide (dependency_task_id t = Some id) && has_status queued t) l)).

(** Depth-first cascade; the fuel counts the nested calls. *)
Fixpoint _cascade_failed_queued (fuel : nat) (now : Z) (id : string) (msg : pystr) (s : Session)
    : nat * Session :=
  match fuel with
  | O => (0, s)
  | S f =>
      foldl (fun '(cascaded, s) dep_id =>
        let blocked := _encode_bounded_cascade_failure id msg in
        let '(affected, s1) := _mark_failed_queued_dep now dep_id blocked s in
        if bool_decide (affected = 0) then (cascaded, s)
        else
          let '(deeper, s2) := _cascade_failed_queued f now dep_id msg s1 in
          (cascaded + affected + deeper, s2))
        (0, s) (queued_dependents id (rows s))
  end.

(** Each nested call follows a row that left [queued]. *)
Definition cascade_fuel (s : Session) : nat := S (matched (has_status queued) (rows s)).

Definition mark_failed (now : Z) (id : string) (msg : pystr) (s : Session) : nat * Session :=
  let '(affected, s1) := _mark_failed_running now id msg s in
  if bool_decide (affected = 0) then (0, s)
  else (affected, (_cascade_failed_queued (cascade_fuel s1) now id msg s1).2).

(** ** Cancellation *)

(** The three response lists [cancel_task] threads through the cascade. *)
Record CancelLists := mkCancelLists {
  c_cancelled : list TaskDict;
  c_cancelling : list string;
  c_skipped_terminal : list TaskDict
}.

Definition no_lists : CancelLists := mkCancelLists [] [] [].

Definition add_cancelled (d : TaskDict) (a : CancelLists) : CancelLists :=
  mkCancelLists (c_cancelled a ++ [d]) (c_cancelling a) (c_skipped_terminal a).
Definition add_cancelling (id : string) (a : CancelLists) : CancelLists :=
  mkCancelLists (c_cancelled a) (c_cancelling a ++ [id]) (c_skipped_terminal a).
Definition add_skipped (d : TaskDict) (a : CancelLists) : CancelLists :=
  mkCancelLists (c_cancelled a) (c_cancelling a) (c_skipped_terminal a ++ [d]).

Definition _mark_cancelling (now : Z) (id by_ : string) (s : Session) : nat * Session :=
  sql_update (fun t => by_id id t && has_status running t)
    (fun t => set_updated_at now (set_cancelled_by (Some by_) (set_status cancelling t))) s.

Definition cancellable (t : Task) : bool :=
  has_status queued t || has_status cancelling t || has_status running t.

(** [status] is the value the caller read from the ORM object; the table may
    have moved on since.  [mark] is [_mark_cancelled]. *)
Definition _dispatch_cancel
    (mark : Z -> string -> string -> CancelLists -> Session -> option TaskDict * (CancelLists * Session))
    (now : Z) (observed : TaskStatus) (id by_ : string) (acc : CancelLists) (s : Session)
    : CancelLists * Session :=
  match observed with
  | queued => (mark now id by_ acc s).2
  | running =>
      let '(affected, s') := _mark_cancelling now id by_ s in
      if negb (bool_decide (affected = 0)) then (add_cancelling id acc, s')
      else
        match find_task id (rows s) with
        | Some t =>
            if has_status cancelling t then (add_cancelling id acc, s)
            else if is_terminal (status t) then (add_skipped (_task_to_dict t) acc, s)
            else (acc, s)
        | None => (acc, s)
        end
  | cancelling => (acc, s)
  | _ =>
      match find_task id (rows s) with
      | Some t => (add_skipped (_task_to_dict t) acc, s)
      | None => (acc, s)
      end
  end.

(** The direct dependents, oldest first. *)
Definition dependents (id : string) (l : list Task) : list string :=
  map task_id (order_asc queued_at (where_ (fun t => bool_decide (dependency_task_id t = Some id)) l)).

(** The status an ORM object shows: the session keeps it in step with its
    own updates. *)
Definition current_status (id : string) (s : Session) : TaskStatus :=
  match find_task id (rows s) with Some t => status t | None => cancelled end.

(** [_mark_cancelled] together with [_cascade_cancel_dependents]; the fuel
    counts the nested calls. *)
Fixpoint _mark_cancelled (fuel : nat) (now : Z) (id by_ : string) (acc : CancelLists) (s : Session)
    : option TaskDict * (CancelLists * Session) :=
  match fuel with
  | O => (None, (acc, s))
  | S f =>
      let '(n, s1) := sql_update (fun t => by_id id t && cancellable t)
          (fun t => set_updated_at now (set_finished_at (Some now)
                      (set_cancelled_by (Some (coalesce (cancelled_by t) by_))
                         (set_status cancelled t)))) s in
      if bool_decide (n = 0) then (None, (acc, s))
      else
        match find_task id (rows s1) with
        | None => (None, (acc, s))
        | Some t =>
            let s2 := record_row id cancelled s1 in
            let acc2 := add_cancelled (_task_to_dict t) acc in
            (Some (_task_to_dict t),
             foldl (fun '(a, s) dep_id =>
                 _dispatch_cancel (_mark_cancelled f) now (current_status dep_id s) dep_id "cascade" a s)
               (acc2, s2) (dependents id (rows s2)))
        end
  end.

Definition cancel_task (now : Z) (id : string) (s : Session) : result (CancelLists * Session) :=
  match find_task id (rows s) with
  | None => Raise ValueError
  | Some t => Ok (_dispatch_cancel (_mark_cancelled (cascade_fuel s)) now (status t) id "user" no_lists s)
  end.

(** The worker's last resort: [rows] and the running dependents to signal. *)
Definition finalize_cancelled (now : Z) (id by_ : string) (s : Session) : (nat * list string) * Session :=
  let '(data, (acc, s')) := _mark_cancelled (cascade_fuel s) now id by_ no_lists s in
  ((match data with Some _ => 1 | None => 0 end, c_cancelling acc), s').

(** [_collect_queued_dependents], summaries as (id, type, resource). *)
Fixpoint _collect_queued_dependents (fuel : nat) (id : string) (l : list Task)
    : list (string * string * string) :=
  match fuel with
  | O => []
  | S f =>
      List.flat_map (fun t => (task_id t, task_type t, resource_id t) :: _collect_queued_dependents f (task_id t) l)
        (order_asc queued_at
          (where_ (fun t => bool_decide (dependency_task_id t = Some id) && has_status queued t) l))
  end.

Definition get_cancel_preview (id : string) (s : Session)
    : result ((string * string * string * TaskStatus) * list (string * string * string)) :=
  match find_task id (rows s) with
  | None => Raise ValueError
  | Some t => Ok ((task_id t, task_type t, resource_id t, status t),
                  _collect_queued_dependents (S (length (rows s))) id (rows s))
  end.

Definition project_filter (project : string) (pid : option string) (t : Task) : bool :=
  match pid with
  | Some x => if bool_decide (x = "") then bool_decide (project_name t = project)
              else bool_decide (project_id t = Some x)
  | None => bool_decide (project_name t = project)
  end.

Definition get_cancel_all_preview (project : string) (pid : option string) (s : Session) : result nat :=
  let! pid := project_id_or_resolve (db s) project pid in
  Ok (matched (fun t => project_filter project pid t && has_status queued t) (rows s)).

Definition cancel_all_queued (now : Z) (project : string) (pid : option string) (s : Session)
    : result ((nat * nat) * Session) :=
  let! pid := project_id_or_resolve (db s) project pid in
  let p := fun t => project_filter project pid t && has_status queued t in
  let queued_tasks := where_ p (rows s) in
  let '(cancelled_count, s1) := sql_update p
      (fun t => set_updated_at now (set_finished_at (Some now)
                  (set_cancelled_by (Some "user") (set_status cancelled t)))) s in
  let refreshed := where_ (fun t => bool_decide (task_id t ∈ ids queued_tasks) && has_status cancelled t) (rows s1) in
  let s2 := foldl (fun s t => _record_terminal_event (task_id t) project cancelled (Some (task_type t)) s)
              s1 refreshed in
  Ok ((cancelled_count, length queued_tasks - cancelled_count), s2).

(** ** Requeueing *)

Definition requeue_running (now limit : Z) (s : Session) : nat * Session :=
  let limit := Z.to_nat (Z.max 1 (Z.min 5000 limit)) in
  let task_ids := ids (take limit (order_asc updated_at (where_ (has_status running) (rows s)))) in
  match task_ids with
  | [] => (0, s)
  | _ =>
      let '(_, s1) := sql_update (fun t => bool_decide (task_id t ∈ task_ids) && has_status running t)
          (fun t => set_error_message None (set_result_json None (set_updated_at now
                      (set_finished_at None (set_started_at None (set_status queued t)))))) s in
      (matched (fun t => bool_decide (task_id t ∈ task_ids) && has_status queued t) (rows s1), s1)
  end.

(** [GenerationWorker._requeue_single_task]: put one claimed task back. *)
Definition _requeue_single_task (now : Z) (id : string) (s : Session) : bool * Session :=
  let '(affected, s1) := sql_update (fun t => by_id id t && has_status running t)
      (fun t => set_updated_at now (set_started_at None (set_status queued t))) s in
  (negb (bool_decide (affected = 0)), s1).

(** [running] and [cancelling] rows, for recovery after a restart. *)
Definition list_orphan_tasks_on_start (s : Session) : list TaskDict :=
  map _task_to_dict (order_asc updated_at
    (where_ (fun t => has_status running t || has_status cancelling t) (rows s))).

(** ** Execution facts *)

(** An option left out keeps the stored value. *)
Definition keep {A} (v old : option A) : option A := match v with Some x => Some x | None => old end.

Definition persist_provider_job_id (now : Z) (id job : string) (endpoint base_url : option string)
    (s : Session) : Session :=
  (sql_update (by_id id) (fun t =>
     set_submitted_base_url (keep base_url (submitted_base_url t))
       (set_provider_endpoint (keep endpoint (provider_endpoint t))
          (set_updated_at now (set_provider_job_id (Some job) t)))) s).2.

(** Only a running video that has neither checkpoint nor job may cross the
    submit boundary. *)
Definition persist_execution_checkpoint (now : Z) (id : string) (checkpoint : pystr) (provider : string)
    (s : Session) : result Session :=
  let '(n, s') := sql_update (fun t =>
        by_id id t
        && bool_decide (task_type t ∈ ["video"; "reference_video"])
        && has_status running t
        && bool_decide (execution_checkpoint_json t = None)
        && bool_decide (provider_job_id t = None))
      (fun t => set_updated_at now (set_provider_id (Some provider)
                  (set_execution_checkpoint_json (Some checkpoint) t))) s in
  if bool_decide (n = 1) then Ok s' else Raise ValueError.

Definition _merge_payload_field (now : Z) (id : string) (key : pystr) (value : json)
    (raise_if_missing : bool) (s : Session) : result Session :=
  match find_task id (rows s) with
  | None => if raise_if_missing then Raise ValueError else Ok s
  | Some t =>
      let data := match _json_loads (payload_json t) (JObj []) with JObj d => d | _ => [] end in
      let text := _json_dumps (JObj (dict_set key value data)) in
      let '(n, s') := sql_update (by_id id)
          (fun t => set_updated_at now (set_payload_json (Some text) t)) s in
      if raise_if_missing && bool_decide (n = 0) then Raise ValueError else Ok s'
  end.

Definition persist_api_call_id (now : Z) (id : string) (call_id : Z) (s : Session) : result Session :=
  _merge_payload_field now id (u "api_call_id") (JInt call_id) true s.

Definition persist_execution_provider_id (now : Z) (id provider : string) (s : Session) : Session :=
  (sql_update (by_id id) (fun t => set_updated_at now (set_provider_id (Some provider) t)) s).2.

(** ** Queries *)

Definition get (id : string) (s : Session) : option TaskDict := _task_to_dict <$> find_task id (rows s).

Definition truthy (x : option string) : bool :=
  match x with Some y => negb (bool_decide (y = "")) | None => false end.

Definition status_name (s : TaskStatus) : string :=
  match s with
  | queued => "queued" | running => "running" | cancelling => "cancelling"
  | succeeded => "succeeded" | failed => "failed" | cancelled => "cancelled"
  end.

Record TaskFilter := mkFilter {
  f_project_name : option string;
  f_project_names : option (list string);
  f_project_id : option string;
  f_project_ids : option (list string);
  f_status : option string;
  f_task_type : option string;
  f_source : option string;
  f_user_id : option string
}.

Definition no_filter : TaskFilter := mkFilter None None None None None None None None.

(** [if x: filters.append(column == x)] *)
Definition when_eq (x : option string) (column : option string) : bool :=
  if truthy x then bool_decide (column = x) else true.

(** The branch that narrows the project. *)
Definition project_clause (d : DB) (f : TaskFilter) : result (Task -> bool) :=
  let! pid :=
    (if truthy (f_project_name f) && negb (truthy (f_project_id f))
        && bool_decide (f_project_ids f = None) && bool_decide (f_project_names f = None)
     then resolve_project_id d (default "" (f_project_name f))
     else Ok (f_project_id f)) in
  Ok (fun t =>
    if truthy pid then bool_decide (project_id t = pid)
    else match f_project_ids f with
         | Some l => match project_id t with Some x => bool_decide (x ∈ l) | None => false end
         | None =>
             if truthy (f_project_name f) then bool_decide (Some (project_name t) = f_project_name f)
             else match f_project_names f with
                  | Some l => bool_decide (project_name t ∈ l)
                  | None => true
                  end
         end).

Definition newest_first (a b : Task) : bool :=
  (updated_at b <? updated_at a)%Z
  || ((updated_at a =? updated_at b)%Z && (queued_at b <=? queued_at a)%Z).

Record TaskPage := mkPage { items : list TaskDict; total : nat; page : Z; page_size : Z }.

Definition list_tasks (f : TaskFilter) (page_ page_size_ : Z) (s : Session) : result TaskPage :=
  let pg := Z.max 1 page_ in
  let ps := Z.max 1 (Z.min 500 page_size_) in
  let offset := ((pg - 1) * ps)%Z in
  let! pc := project_clause (db s) f in
  let hits := where_ (fun t =>
      pc t && when_eq (f_status f) (Some (status_name (status t)))
      && when_eq (f_task_type f) (Some (task_type t))
      && when_eq (f_source f) (Some (source t))
      && when_eq (f_user_id f) (user_id t)) (rows s) in
  Ok (mkPage (map _task_to_dict (take (Z.to_nat ps) (drop (Z.to_nat offset) (isort newest_first hits))))
        (length hits) pg ps).

(** [GROUP BY status] *)
Definition group_by_status (l : list Task) : list (TaskStatus * nat) :=
  map (fun s => (s, matched (has_status s) l)) (remove_dups (map status l)).

Record TaskStats := mkStats { counts : TaskStatus -> nat; stats_total : nat }.

Definition get_stats (f : TaskFilter) (s : Session) : result TaskStats :=
  let! pc := project_clause (db s) f in
  let groups := group_by_status
      (where_ (fun t => pc t && when_eq (f_user_id f) (user_id t)) (rows s)) in
  Ok (foldl (fun st g => mkStats (fun x => if bool_decide (x = g.1) then g.2 else counts st x)
                           (stats_total st + g.2))
        (mkStats (fun _ => 0) 0) groups).

(** ** Worker lease *)

(** The clock of [time.time()] in microseconds. *)
Definition SECOND : Z := 1000000.

Definition owns_or_expired (now : Z) (nm owner : string) (l : WorkerLease) : bool :=
  bool_decide (name l = nm) && (bool_decide (owner_id l = owner) || (lease_until l <=? now)%Z).

Definition acquire_or_renew_lease (now : Z) (nm owner : string) (ttl : Z) (s : Session) : bool * Session :=
  let until := (now + Z.max SECOND ttl)%Z in
  let ls := leases (db s) in
  if bool_decide (where_ (owns_or_expired now nm owner) ls <> []) then
    (true, mkSession (set_leases (map (fun l => if owns_or_expired now nm owner l
                                                then mkLease (name l) owner until now else l) ls) (db s))
             (terminal_events s))
  else if List.existsb (fun l => bool_decide (name l = nm)) ls then (false, s)
  else (true, mkSession (set_leases (ls ++ [mkLease nm owner until now]) (db s)) (terminal_events s)).

Definition release_lease (nm owner : string) (s : Session) : Session :=
  mkSession (set_leases (where_ (fun l => negb (bool_decide (name l = nm) && bool_decide (owner_id l = owner)))
                           (leases (db s))) (db s)) (terminal_events s).

Definition find_lease (nm : string) (s : Session) : option WorkerLease :=
  List.find (fun l => bool_decide (name l = nm)) (leases (db s)).

Definition is_worker_online (now : Z) (nm : string) (s : Session) : bool :=
  match find_lease nm s with Some l => (now <? lease_until l)%Z | None => false end.

Definition get_worker_lease (now : Z) (nm : string) (s : Session) : option (WorkerLease * bool) :=
  (fun l => (l, (now <? lease_until l)%Z)) <$> find_lease nm s.
