(* ===== verification/Scenario.v ===== *)
(** * A small concrete deployment

    One project, two users and a three-task dependency chain.  The witnesses
    of the theorems evaluate the repository on these sessions. *)

From S2P Require Import Prelude Json TaskFailure TaskStore TaskRepo.

Definition demo_registry : list ProjectRegistry := [mkProject "p1" "demo" "demo"].
Definition demo_users : list User := [mkUser "root" "root" true; mkUser "alice" "alice" false].

Definition demo_fresh : Session := mkSession (mkDB [] [] demo_registry demo_users) [].

(** A video request for [resource], waiting for [dep] if there is one. *)
Definition demo_args (resource : string) (dep : option string) : EnqueueArgs :=
  mkEnqueue "demo" "video" "video" resource (Some (JObj [(u "prompt", JStr (u "rain"))]))
    (Some "ep1.json") None "webui" dep None None "alice" (Some "ark").

Definition demo_enqueue (now : Z) (uuid resource : string) (dep : option string) (s : Session) : Session :=
  match enqueue false now uuid (demo_args resource dep) s with
  | Ok (_, s') => s'
  | Raise _ => s
  end.

(** [t1] is free to run, [t2] waits for it and [t3] waits for [t2]. *)
Definition demo_one : Session := demo_enqueue 1 "t1" "E1S1" None demo_fresh.
Definition demo_two : Session := demo_enqueue 2 "t2" "E1S2" (Some "t1") demo_one.
Definition demo_chain : Session := demo_enqueue 3 "t3" "E1S3" (Some "t2") demo_two.

(** [t1] is running. *)
Definition demo_running : Session := (claim_next 10 "video" [] [] demo_chain).2.

Lemma demo_chain_status :
  map (fun t => (task_id t, status t)) (rows demo_chain) = [("t1", queued); ("t2", queued); ("t3", queued)].
Proof. vm_compute. reflexivity. Qed.

Lemma demo_running_status :
  map (fun t => (task_id t, status t)) (rows demo_running) = [("t1", running); ("t2", queued); ("t3", queued)].
Proof. vm_compute. reflexivity. Qed.
