(* ===== verification/TaskInv.v ===== *)
(** * Invariants of the task table

    A preorder [evolves] on sessions that every write of the repository
    respects: rows keep their identity, statuses move along the task state
    machine, terminal statuses are final, and exactly one terminal event is
    recorded for each row that becomes terminal.  The reachable sessions are
    those of the step relation [repo_step], one rule per write. *)

From S2P Require Import Prelude Json TaskFailure TaskStore TaskRepo Scenario.

(** ** Rows *)

(** The columns no write changes. *)
Definition identity (t : Task) :=
  (task_id t, project_id t, project_name t, actor_username t, task_type t, media_type t,
   resource_id t, resource_type t, script_file t, source t, dependency_task_id t,
   dependency_group t, dependency_index t, queued_at t, user_id t).

(** One edge of the state machine, or no move. *)
Definition edge (a b : TaskStatus) : bool :=
  bool_decide (a = b) ||
  match a, b with
  | queued, (running | failed | cancelled) => true
  | running, (queued | succeeded | failed | cancelling | cancelled) => true
  | cancelling, cancelled => true
  | _, _ => false
  end.

(** The statuses that can follow: [rtc edge]. *)
Definition follows (a b : TaskStatus) : bool :=
  match a with
  | queued | running => true
  | cancelling => bool_decide (b = cancelling) || bool_decide (b = cancelled)
  | _ => bool_decide (a = b)
  end.

Lemma follows_refl a : follows a a = true.
Proof. by destruct a. Qed.

Lemma follows_trans a b c : follows a b = true -> follows b c = true -> follows a c = true.
Proof. by destruct a, b, c. Qed.

Lemma edge_follows a b : edge a b = true -> follows a b = true.
Proof. by destruct a, b. Qed.

Lemma follows_terminal a b : is_terminal a = true -> follows a b = true -> b = a.
Proof. by destruct a, b. Qed.

Lemma follows_active a b : follows a b = true -> is_active b = true -> is_active a = true.
Proof. by destruct a, b. Qed.

Definition is_set {A} (x : option A) : bool := match x with Some _ => true | None => false end.

(** What the columns of a row say about its status. *)
Definition wf_row (t : Task) : bool :=
  match status t with
  | queued => negb (is_set (started_at t)) && negb (is_set (finished_at t))
  | running => is_set (started_at t) && negb (is_set (finished_at t))
  | cancelling => is_set (started_at t) && negb (is_set (finished_at t)) && is_set (cancelled_by t)
  | succeeded => is_set (started_at t) && is_set (finished_at t) && is_set (result_json t)
                 && negb (is_set (error_message t))
  | failed => is_set (finished_at t) && is_set (error_message t)
  | cancelled => is_set (finished_at t) && is_set (cancelled_by t)
  end
  && match error_message t with
     | Some m => (length m <=? _MAX_ERROR_MESSAGE_LEN)%nat
     | None => true
     end.

(** The statuses of a task that a worker has taken. *)
Definition started (s : TaskStatus) : bool :=
  match s with running | cancelling | succeeded => true | _ => false end.

(** [c] says whether the write may hand tasks to a worker. *)
Record row_step (c : bool) (t t' : Task) : Prop := {
  rs_identity : identity t' = identity t;
  rs_follows : follows (status t) (status t') = true;
  rs_wf : wf_row t = true -> wf_row t' = true;
  rs_start : c = false -> started (status t') = true -> started (status t) = true
}.

#[export] Instance row_step_refl c : Reflexive (row_step c).
Proof. intros t. split; [done|apply follows_refl|done|done]. Qed.

#[export] Instance row_step_trans c : Transitive (row_step c).
Proof.
  intros x y z [I1 F1 W1 S1] [I2 F2 W2 S2]. split; [congruence|by eapply follows_trans|auto|auto].
Qed.

Lemma row_step_id c t t' : row_step c t t' -> task_id t' = task_id t.
Proof. intros [H _ _ _]. unfold identity in H. congruence. Qed.

Lemma row_step_key c t t' : row_step c t t' -> dedupe_key t' = dedupe_key t.
Proof. intros [H _ _ _]. unfold identity, dedupe_key in *. congruence. Qed.

Lemma row_step_dep c t t' : row_step c t t' -> dependency_task_id t' = dependency_task_id t.
Proof. intros [H _ _ _]. unfold identity in *. congruence. Qed.

Lemma row_step_weaken c t t' : row_step c t t' -> row_step true t t'.
Proof. intros [I F W S]. by split. Qed.

Abbreviation rows_step c l l' := (Forall2 (row_step c) l l').

Lemma rows_step_ids c l l' : rows_step c l l' -> ids l' = ids l.
Proof.
  induction 1 as [|t t' l l' H _ IH]; [done|]. unfold ids in *. simpl. rewrite IH.
  by rewrite (row_step_id _ _ _ H).
Qed.

Lemma rows_step_update c p f l :
  (forall t, p t = true -> row_step c t (f t)) -> rows_step c l (update_where p f l).
Proof.
  intros H. unfold update_where. induction l as [|t l IH]; simpl; constructor; [|done].
  destruct (p t) eqn:E; [auto|reflexivity].
Qed.

Lemma rows_step_find c l l' id :
  rows_step c l l' ->
  match find_task id l, find_task id l' with
  | Some t, Some t' => row_step c t t'
  | None, None => True
  | _, _ => False
  end.
Proof.
  unfold find_task. induction 1 as [|t t' l l' H _ IH]; simpl; [done|].
  change (by_id id t) with (bool_decide (task_id t = id)).
  change (by_id id t') with (bool_decide (task_id t' = id)).
  rewrite (row_step_id _ _ _ H). by case_bool_decide.
Qed.

Lemma rows_step_elem c l l' t' : rows_step c l l' -> t' ∈ l' -> exists t, t ∈ l /\ row_step c t t'.
Proof.
  intros H Hin. apply list_elem_of_lookup in Hin as [i Hi].
  destruct (Forall2_lookup_r _ _ _ _ _ H Hi) as (t & Ht & Hs). exists t.
  split; [by eapply list_elem_of_lookup_2|done].
Qed.

(** ** Events *)

(** How many terminal events name the task. *)
Definition event_count (x : string) (s : Session) : nat :=
  length (where_ (fun e => bool_decide (ev_task_id e = x)) (terminal_events s)).

(** One if the task is terminal, zero otherwise. *)
Definition ended (x : string) (l : list Task) : nat :=
  match find_task x l with Some t => if is_terminal (status t) then 1 else 0 | None => 0 end.

(** An event that tells the truth about the table. *)
Definition event_ok (l : list Task) (e : TerminalEvent) : Prop :=
  is_terminal (ev_status e) = true /\
  exists t, t ∈ l /\ task_id t = ev_task_id e /\ status t = ev_status e.

Record evolves (c : bool) (s s' : Session) : Prop := {
  ev_rows : rows_step c (rows s) (rows s');
  ev_count : NoDup (ids (rows s)) ->
    forall x, event_count x s' + ended x (rows s) = event_count x s + ended x (rows s');
  ev_true : forall e, e ∈ terminal_events s' -> e ∈ terminal_events s \/ event_ok (rows s') e;
  ev_frame : registry (db s') = registry (db s) /\ users (db s') = users (db s)
}.

#[export] Instance evolves_refl c : Reflexive (evolves c).
Proof. intros s. split; [reflexivity|done|auto|done]. Qed.

Lemma event_ok_step c l l' e : rows_step c l l' -> event_ok l e -> event_ok l' e.
Proof.
  intros H (Hterm & t & Hin & Hid & Hst). split; [done|].
  apply list_elem_of_lookup in Hin as [i Hi].
  destruct (Forall2_lookup_l _ _ _ _ _ H Hi) as (t' & Ht' & Hs). exists t'.
  split; [by eapply list_elem_of_lookup_2|]. split; [by rewrite (row_step_id _ _ _ Hs)|].
  rewrite <- Hst in *. by apply follows_terminal, Hs.
Qed.

#[export] Instance evolves_trans c : Transitive (evolves c).
Proof.
  intros x y z [R1 C1 T1 F1] [R2 C2 T2 F2]. split.
  - by etrans.
  - intros Hnd i. specialize (C1 Hnd i). rewrite <- (rows_step_ids _ _ _ R1) in Hnd.
    specialize (C2 Hnd i). lia.
  - intros e [He|He]%T2; [|by right]. apply T1 in He as [He|He]; [by left|].
    right. by eapply event_ok_step.
  - naive_solver congruence.
Qed.

(** ** Elementary writes *)

Lemma ended_update p f l x :
  (forall t, task_id (f t) = task_id t) ->
  (forall t, p t = true -> is_terminal (status (f t)) = is_terminal (status t)) ->
  ended x (update_where p f l) = ended x l.
Proof.
  intros Hid H. unfold ended. rewrite find_update by done.
  destruct (find_task x l) as [t|]; simpl; [|done]. destruct (p t) eqn:E; [|done]. by rewrite H.
Qed.

(** An update that changes no row's terminality records no event. *)
Lemma evolves_quiet c p f s :
  (forall t, task_id (f t) = task_id t) ->
  (forall t, p t = true -> row_step c t (f t) /\ is_terminal (status (f t)) = is_terminal (status t)) ->
  evolves c s (with_rows (update_where p f (rows s)) s).
Proof.
  intros Hid H. split; [|intros _ x|by left|done].
  - apply rows_step_update. intros t Ht. by apply H.
  - change (rows (with_rows ?l s)) with l. rewrite ended_update by naive_solver. done.
Qed.

Lemma event_count_record x id proj st ty s :
  is_terminal st = true ->
  event_count x (_record_terminal_event id proj st ty s) =
  event_count x s + (if bool_decide (id = x) then 1 else 0).
Proof.
  intros H. unfold event_count, _record_terminal_event. rewrite H. simpl.
  rewrite List.filter_app, length_app. f_equal. simpl. by case_bool_decide.
Qed.

(** A guarded update that ends one row, followed by its event. *)
Lemma evolves_end id (q : Task -> bool) f st s :
  is_terminal st = true ->
  (forall t, task_id (f t) = task_id t) ->
  (forall t, q t = true -> is_terminal (status t) = false /\ status (f t) = st /\ row_step false t (f t)) ->
  matched (fun t => by_id id t && q t) (rows s) <> 0 ->
  evolves false s (record_row id st (with_rows (update_where (fun t => by_id id t && q t) f (rows s)) s)).
Proof.
  intros Hst Hid Hq Hm. set (p := fun t => by_id id t && q t) in *.
  set (s1 := with_rows (update_where p f (rows s)) s).
  assert (rows_step false (rows s) (rows s1)) as Hstep.
  { apply rows_step_update. intros t Ht. unfold p in Ht. to_prop. by apply Hq. }
  assert (exists t, t ∈ rows s /\ task_id t = id /\ q t = true) as (t0 & Hin & Ht0 & Hq0).
  { destruct (where_ p (rows s)) as [|t0 l] eqn:E; [by apply where_matched in E|]. exists t0.
    assert (t0 ∈ where_ p (rows s)) as [Hin Hp]%elem_of_where by (rewrite E; left).
    unfold p, by_id in Hp. by to_prop. }
  assert (exists t1, find_task id (rows s1) = Some t1) as [t1 Ht1].
  { apply find_task_is_Some. rewrite (rows_step_ids _ _ _ Hstep), <- Ht0. by apply ids_elem. }
  unfold record_row. rewrite Ht1.
  assert (forall ty proj, rows (_record_terminal_event id proj st ty s1) = rows s1) as Hrows
    by (intros; unfold _record_terminal_event; by rewrite Hst).
  split.
  - by rewrite Hrows.
  - intros Hnd x. rewrite event_count_record, Hrows by done.
    change (event_count x s1) with (event_count x s).
    pose proof (find_task_elem _ _ Hnd Hin) as Hf0. rewrite Ht0 in Hf0.
    unfold ended, s1. change (rows (with_rows ?l s)) with l. unfold p. rewrite find_update_by_id by done.
    case_bool_decide as D; [subst x|lia].
    rewrite Hf0. simpl. destruct (Hq t0 Hq0) as (-> & Heq & _). rewrite Hq0, Heq, Hst. lia.
  - unfold _record_terminal_event. rewrite Hst. simpl. intros e [He|He]%elem_of_app; [by left|].
    right. apply list_elem_of_singleton in He as ->. split; [done|]. simpl.
    exists (f t0). split; [|by rewrite Hid; destruct (Hq t0 Hq0) as (_ & -> & _)].
    apply elem_of_update. exists t0. split; [done|]. unfold p, by_id.
    by rewrite bool_decide_eq_true_2, Hq0.
  - unfold _record_terminal_event. by rewrite Hst.
Qed.

Lemma evolves_weaken c s s' : evolves c s s' -> evolves true s s'.
Proof.
  intros [R C T F]. split; [|done..]. eapply Forall2_impl; [done|]. intros ? ?. apply row_step_weaken.
Qed.

(** A fold of steps is a step. *)
Lemma evolves_foldl {A B} c (f : A * Session -> B -> A * Session) l a s :
  (forall a s b, evolves c s (f (a, s) b).2) -> evolves c s (foldl f (a, s) l).2.
Proof.
  intros H. revert a s. induction l as [|b l IH]; intros a s; simpl; [reflexivity|].
  destruct (f (a, s) b) as [a' s'] eqn:E. etrans; [|apply IH]. specialize (H a s b). by rewrite E in H.
Qed.

(** ** The writes of the repository *)

Lemma bound_reason_stored m :
  (length (bound_reason m _MAX_ERROR_MESSAGE_LEN) <=? _MAX_ERROR_MESSAGE_LEN)%nat = true.
Proof. apply Nat.leb_le, bound_reason_length. Qed.

Ltac use_status :=
  repeat match goal with H : status ?t = _ |- _ => rewrite H in *; clear H end.

(** Prove [row_step t (f t)] when the status of [t] is known. *)
Ltac solve_row_step :=
  unfold has_status in *; to_prop; split; [reflexivity|cbn; by use_status| |cbn; by use_status];
  unfold wf_row; cbn -[Nat.leb _MAX_ERROR_MESSAGE_LEN]; use_status;
  rewrite ?bound_reason_stored; intros; to_prop;
  repeat match goal with
  | H : is_set ?x = _ |- _ => destruct x; simpl in *; try discriminate; clear H
  end;
  rewrite ?andb_true_r; try done.

Lemma claim_update_evolves now id s : evolves true s (claim_update now id s).2.
Proof.
  unfold claim_update, sql_update. case_bool_decide; simpl; [reflexivity|].
  apply (evolves_quiet _ (fun t => by_id id t && has_status queued t)); [done|].
  intros t Ht. to_prop. unfold has_status in *. to_prop. split; [solve_row_step|]. cbn. by use_status.
Qed.

Lemma claim_next_evolves now media full excl s : evolves true s (claim_next now media full excl s).2.
Proof. unfold claim_next. case_match; [apply claim_update_evolves|reflexivity]. Qed.

Lemma mark_succeeded_evolves now id res s : evolves false s (mark_succeeded now id res s).2.
Proof.
  unfold mark_succeeded, sql_update. case_bool_decide; simpl; [reflexivity|].
  apply (evolves_end id (has_status running)); [done|done| |done].
  intros t Ht. unfold has_status in *. to_prop. split_and!; [by use_status|done|solve_row_step].
Qed.

Lemma fail_row_evolves from now id msg s :
  from = queued \/ from = running -> evolves false s (fail_row from now id msg s).2.
Proof.
  intros Hfrom. unfold fail_row, sql_update. case_bool_decide; simpl; [reflexivity|].
  apply (evolves_end id (has_status from)); [done|done| |done].
  intros t Ht. unfold has_status in *. to_prop.
  split_and!; [destruct Hfrom; subst from; by use_status|done|].
  destruct Hfrom; subst from; solve_row_step.
Qed.

Lemma cascade_failed_evolves fuel now id msg s : evolves false s (_cascade_failed_queued fuel now id msg s).2.
Proof.
  revert id s. induction fuel as [|f IH]; intros id s; cbn [_cascade_failed_queued]; [reflexivity|].
  apply evolves_foldl. clear s. intros n s dep. simpl.
  pose proof (fail_row_evolves queued now dep (_encode_bounded_cascade_failure id msg) s ltac:(by left)) as H.
  unfold _mark_failed_queued_dep. destruct (fail_row _ _ _ _ _) as [k s1]. simpl in H.
  case_bool_decide; [reflexivity|]. specialize (IH dep s1).
  destruct (_cascade_failed_queued _ _ _ _ _) as [m s2]. simpl in *. by etrans.
Qed.

Lemma mark_failed_evolves now id msg s : evolves false s (mark_failed now id msg s).2.
Proof.
  unfold mark_failed, _mark_failed_running.
  pose proof (fail_row_evolves running now id msg s ltac:(by right)) as H.
  destruct (fail_row _ _ _ _ _) as [k s1]. simpl in H. case_bool_decide; cbn [snd]; [reflexivity|].
  etrans; [done|apply cascade_failed_evolves].
Qed.

Lemma mark_cancelling_evolves now id by_ s : evolves false s (_mark_cancelling now id by_ s).2.
Proof.
  unfold _mark_cancelling, sql_update. simpl.
  apply (evolves_quiet _ (fun t => by_id id t && has_status running t)); [done|].
  intros t Ht. to_prop. unfold has_status in *. to_prop. split; [solve_row_step|]. cbn. by use_status.
Qed.

Lemma dispatch_cancel_evolves mark now st id by_ acc s :
  (forall now id by_ acc s, evolves false s (mark now id by_ acc s).2.2) ->
  evolves false s (_dispatch_cancel mark now st id by_ acc s).2.
Proof.
  intros Hm. unfold _dispatch_cancel. destruct st.
  - apply Hm.
  - pose proof (mark_cancelling_evolves now id by_ s) as H.
    destruct (_mark_cancelling _ _ _ _) as [n s']. simpl in H. case_bool_decide; simpl; [|done].
    repeat case_match; reflexivity.
  - reflexivity.
  - case_match; reflexivity.
  - case_match; reflexivity.
  - case_match; reflexivity.
Qed.

Lemma cancellable_cases t :
  cancellable t = true -> status t = queued \/ status t = running \/ status t = cancelling.
Proof.
  unfold cancellable, has_status. rewrite !orb_true_iff, !bool_decide_eq_true. naive_solver.
Qed.

Lemma mark_cancelled_evolves fuel now id by_ acc s :
  evolves false s (_mark_cancelled fuel now id by_ acc s).2.2.
Proof.
  revert now id by_ acc s. induction fuel as [|f IH]; intros now id by_ acc s;
    cbn [_mark_cancelled]; [reflexivity|].
  unfold sql_update. case_bool_decide; simpl; [reflexivity|].
  case_match; [|reflexivity]. cbn [snd]. etrans; [|apply evolves_foldl; intros; by apply dispatch_cancel_evolves].
  apply (evolves_end id cancellable); [done|done| |done].
  intros t' Ht'. split_and!; [|done|].
  - apply cancellable_cases in Ht' as [H'|[H'|H']]; by rewrite H'.
  - apply cancellable_cases in Ht' as [H'|[H'|H']]; solve_row_step.
Qed.

Lemma cancel_task_evolves now id s lists s' :
  cancel_task now id s = Ok (lists, s') -> evolves false s s'.
Proof.
  unfold cancel_task. destruct (find_task id (rows s)) as [t|]; [|done].
  pose proof (dispatch_cancel_evolves (_mark_cancelled (cascade_fuel s)) now (status t) id "user" no_lists s) as He.
  destruct (_dispatch_cancel _ _ _ _ _ _ _) as [l0 s0]. intros [= <- <-].
  apply He. intros. apply mark_cancelled_evolves.
Qed.

Lemma finalize_cancelled_evolves now id by_ s : evolves false s (finalize_cancelled now id by_ s).2.
Proof.
  unfold finalize_cancelled. pose proof (mark_cancelled_evolves (cascade_fuel s) now id by_ no_lists s) as H.
  by destruct (_mark_cancelled _ _ _ _ _ _) as [d [a s']].
Qed.

Lemma requeue_running_evolves now limit s : evolves false s (requeue_running now limit s).2.
Proof.
  unfold requeue_running, sql_update. case_match; simpl; [reflexivity|].
  rewrite <- H. apply (evolves_quiet _ (fun t => _ && has_status running t)); [done|].
  intros t Ht. to_prop. unfold has_status in *. to_prop. split; [solve_row_step|]. cbn. by use_status.
Qed.

(** Writes of the metadata columns keep every status. *)
Lemma evolves_columns p f s :
  (forall t, identity (f t) = identity t /\ status (f t) = status t /\ wf_row (f t) = wf_row t) ->
  evolves false s (with_rows (update_where p f (rows s)) s).
Proof.
  intros H. apply evolves_quiet.
  - intros t. destruct (H t) as [Hi _]. unfold identity in Hi. congruence.
  - intros t _. destruct (H t) as (Hi & Hs & Hw). split; [|by rewrite Hs]. split; [done| | |].
    + rewrite Hs. apply follows_refl.
    + by rewrite Hw.
    + by rewrite Hs.
Qed.

Lemma persist_provider_job_id_evolves now id job ep url s :
  evolves false s (persist_provider_job_id now id job ep url s).
Proof. apply evolves_columns. done. Qed.

Lemma persist_execution_provider_id_evolves now id p s :
  evolves false s (persist_execution_provider_id now id p s).
Proof. apply evolves_columns. done. Qed.

Lemma persist_execution_checkpoint_evolves now id cp p s s' :
  persist_execution_checkpoint now id cp p s = Ok s' -> evolves false s s'.
Proof.
  unfold persist_execution_checkpoint, sql_update. case_bool_decide; [|done]. intros [= <-].
  apply evolves_columns. done.
Qed.

Lemma merge_payload_field_evolves now id k v r s s' :
  _merge_payload_field now id k v r s = Ok s' -> evolves false s s'.
Proof.
  unfold _merge_payload_field, sql_update. case_match; [|case_match; [done|intros [= <-]; reflexivity]].
  case_match; [done|]. intros [= <-]. apply evolves_columns. done.
Qed.

Lemma requeue_single_evolves now id s : evolves false s (_requeue_single_task now id s).2.
Proof.
  unfold _requeue_single_task, sql_update. simpl.
  apply (evolves_quiet _ (fun t => by_id id t && has_status running t)); [done|].
  intros t Ht. to_prop. unfold has_status in *. to_prop. split; [solve_row_step|]. cbn. by use_status.
Qed.

(** *** Cancelling every queued task of a project *)

Lemma record_all_events project l s :
  foldl (fun s t => _record_terminal_event (task_id t) project cancelled (Some (task_type t)) s) s l =
  mkSession (db s) (terminal_events s ++
    map (fun t => mkEvent (task_id t) project cancelled (Some (task_type t))) l).
Proof.
  revert s. induction l as [|t l IH]; intros s; simpl.
  - rewrite app_nil_r. by destruct s.
  - rewrite IH. simpl. by rewrite <- app_assoc.
Qed.

Lemma event_count_map x s project (q : Task -> bool) l :
  event_count x (mkSession (db s) (terminal_events s ++
    map (fun t => mkEvent (task_id t) project cancelled (Some (task_type t))) (where_ q l))) =
  event_count x s + matched (fun t => by_id x t && q t) l.
Proof.
  unfold event_count, matched. simpl. rewrite List.filter_app, length_app. f_equal.
  induction l as [|t l IH]; simpl; [done|]. unfold by_id at 1.
  destruct (q t); simpl; repeat case_bool_decide; simpl; rewrite ?IH; done.
Qed.

Lemma elem_where_ids p l x : x ∈ ids (where_ p l) <-> exists t, t ∈ l /\ p t = true /\ task_id t = x.
Proof.
  split.
  - intros (t & [Hin Hp]%elem_of_where & <-)%ids_elem_inv. eauto.
  - intros (t & Hin & Hp & <-). apply ids_elem, elem_of_where. done.
Qed.

Lemma NoDup_ids_inj l t t' : NoDup (ids l) -> t ∈ l -> t' ∈ l -> task_id t = task_id t' -> t = t'.
Proof.
  intros Hnd H1 H2 Heq. pose proof (find_task_elem _ _ Hnd H1) as E1.
  pose proof (find_task_elem _ _ Hnd H2) as E2. rewrite Heq in E1. congruence.
Qed.

Lemma cancel_all_queued_evolves now project pid s r s' :
  cancel_all_queued now project pid s = Ok (r, s') -> evolves false s s'.
Proof.
  unfold cancel_all_queued, sql_update. intros (pid' & _ & H)%bind_Ok. revert H. cbv zeta.
  set (p := fun t => project_filter project pid' t && has_status queued t).
  set (f := fun t => set_updated_at now _). set (l1 := update_where p f (rows s)).
  set (q := fun t => bool_decide (task_id t ∈ ids (where_ p (rows s))) && has_status cancelled t).
  change (rows (with_rows l1 s)) with l1. rewrite record_all_events. intros [= _ <-].
  assert (forall t, p t = true -> status t = queued) as Hp.
  { intros t Ht. unfold p, has_status in Ht. by to_prop. }
  assert (rows_step false (rows s) l1) as Hstep.
  { apply rows_step_update. intros t Ht. apply Hp in Ht. unfold f. solve_row_step. }
  split; [done| | |done].
  - intros Hnd x.
    change (event_count x (mkSession (db (with_rows l1 s)) (terminal_events (with_rows l1 s) ++
      map (fun t => mkEvent (task_id t) project cancelled (Some (task_type t))) (where_ q l1)))
      + ended x (rows s) = event_count x s + ended x l1).
    rewrite event_count_map. change (event_count x (with_rows l1 s)) with (event_count x s).
    rewrite matched_by_id by by rewrite (rows_step_ids _ _ _ Hstep).
    unfold ended, l1. rewrite find_update by done.
    destruct (find_task x (rows s)) as [t|] eqn:E; simpl; [|lia].
    apply find_task_Some in E as [Hin Hx]. destruct (p t) eqn:Ept.
    + assert (q (f t) = true) as ->.
      { unfold q, has_status. rewrite bool_decide_eq_true_2; [done|].
        apply elem_where_ids. by exists t. }
      rewrite (Hp _ Ept). simpl. lia.
    + assert (q t = false) as ->; [|lia]. unfold q. rewrite bool_decide_eq_false_2; [done|].
      intros (t2 & Hin2 & Hp2 & Heq)%elem_where_ids.
      rewrite (NoDup_ids_inj _ _ _ Hnd Hin2 Hin Heq) in Hp2. congruence.
  - simpl. intros e [He|He]%elem_of_app; [by left|]. right.
    apply list_elem_of_In, in_map_iff in He as (t & <- & Ht%list_elem_of_In).
    apply elem_of_where in Ht as [Hin Hq]. unfold q, has_status in Hq. to_prop.
    split; [done|]. by exists t.
Qed.

(** ** Reachable sessions *)

(** No two active rows share the key of [idx_tasks_dedupe_active]. *)
Definition dedupe_unique (l : list Task) : Prop :=
  forall t t', t ∈ l -> t' ∈ l -> is_active (status t) = true -> is_active (status t') = true ->
    dedupe_key t = dedupe_key t' -> task_id t = task_id t'.

Record wf_session (s : Session) : Prop := {
  wf_ids : NoDup (ids (rows s));
  wf_dedupe : dedupe_unique (rows s);
  wf_rows : Forall (fun t => wf_row t = true) (rows s);
  wf_events : forall x, event_count x s = ended x (rows s);
  wf_events_true : forall e, e ∈ terminal_events s -> event_ok (rows s) e
}.

(** One write of the repository.  [step_claim_update] is a claim whose
    [SELECT] ran before other writes; [selected_stays_ok] below shows that its
    premise follows from the selection. *)
Inductive repo_step : Session -> Session -> Prop :=
| step_enqueue testing now uuid a s r s' :
    enqueue testing now uuid a s = Ok (r, s') -> repo_step s s'
| step_claim now media full excl s : repo_step s (claim_next now media full excl s).2
| step_claim_update now id s t :
    find_task id (rows s) = Some t -> dependency_ok (rows s) t = true ->
    repo_step s (claim_update now id s).2
| step_succeeded now id res s : repo_step s (mark_succeeded now id res s).2
| step_failed now id msg s : repo_step s (mark_failed now id msg s).2
| step_cancel now id s lists s' : cancel_task now id s = Ok (lists, s') -> repo_step s s'
| step_finalize now id by_ s : repo_step s (finalize_cancelled now id by_ s).2
| step_cancel_all now project pid s r s' :
    cancel_all_queued now project pid s = Ok (r, s') -> repo_step s s'
| step_requeue now limit s : repo_step s (requeue_running now limit s).2
| step_requeue_one now id s : repo_step s (_requeue_single_task now id s).2
| step_job now id job ep url s : repo_step s (persist_provider_job_id now id job ep url s)
| step_checkpoint now id cp p s s' :
    persist_execution_checkpoint now id cp p s = Ok s' -> repo_step s s'
| step_merge now id k v r s s' : _merge_payload_field now id k v r s = Ok s' -> repo_step s s'
| step_provider now id p s : repo_step s (persist_execution_provider_id now id p s)
| step_lease now nm owner ttl s : repo_step s (acquire_or_renew_lease now nm owner ttl s).2
| step_release nm owner s : repo_step s (release_lease nm owner s).

Lemma evolves_wf c s s' : evolves c s s' -> wf_session s -> wf_session s'.
Proof.
  intros [R C T _] [Hid Hdd Hrow Hev Htrue]. split.
  - by rewrite (rows_step_ids _ _ _ R).
  - intros t t' Hin Hin' Ha Ha' Hk.
    destruct (rows_step_elem _ _ _ _ R Hin) as (t0 & Hin0 & S0).
    destruct (rows_step_elem _ _ _ _ R Hin') as (t1 & Hin1 & S1).
    rewrite (row_step_id _ _ _ S0), (row_step_id _ _ _ S1). apply Hdd; [done|done| | |].
    + by eapply follows_active; [apply S0|].
    + by eapply follows_active; [apply S1|].
    + by rewrite <- (row_step_key _ _ _ S0), <- (row_step_key _ _ _ S1).
  - apply Forall_forall. intros t' Hin. destruct (rows_step_elem _ _ _ _ R Hin) as (t & Hin0 & S0).
    apply S0. by eapply Forall_forall in Hrow.
  - intros x. specialize (C Hid x). rewrite Hev in C. lia.
  - intros e [He|He]%T; [|done]. eapply event_ok_step; [done|]. by apply Htrue.
Qed.

(** Writes of the lease table leave the tasks alone. *)
Lemma evolves_leases c l s : evolves c s (mkSession (set_leases l (db s)) (terminal_events s)).
Proof. split; [reflexivity|done|auto|done]. Qed.

Lemma release_evolves nm owner s : evolves false s (release_lease nm owner s).
Proof. apply evolves_leases. Qed.

Lemma acquire_evolves now nm owner ttl s : evolves false s (acquire_or_renew_lease now nm owner ttl s).2.
Proof.
  unfold acquire_or_renew_lease. case_bool_decide; cbn [snd]; [apply evolves_leases|].
  case_match; cbn [snd]; [reflexivity|apply evolves_leases].
Qed.

#[export] Hint Resolve claim_next_evolves claim_update_evolves mark_succeeded_evolves
  mark_failed_evolves cancel_task_evolves finalize_cancelled_evolves cancel_all_queued_evolves
  requeue_running_evolves requeue_single_evolves persist_provider_job_id_evolves
  persist_execution_checkpoint_evolves merge_payload_field_evolves
  persist_execution_provider_id_evolves acquire_evolves release_evolves : spool.

(** *** Enqueueing appends one fresh row or changes nothing *)

Lemma enqueue_cases testing now uuid a s r s' :
  enqueue testing now uuid a s = Ok (r, s') ->
  s' = s \/ exists t, s' = with_rows (rows s ++ [t]) s /\ violates_integrity (db s) t = false
                     /\ status t = queued /\ wf_row t = true.
Proof.
  unfold enqueue. intros (pid & _ & (actor & _ & H)%bind_Ok)%bind_Ok. revert H. cbv zeta.
  set (t := new_task _ _ _ _ _ _). destruct (violates_integrity (db s) t) eqn:E.
  - case_match; [done|]. intros [= _ <-]. by left.
  - intros [= _ <-]. right. by exists t.
Qed.

Lemma repo_step_cases s s' :
  repo_step s s' ->
  evolves true s s' \/ exists t, s' = with_rows (rows s ++ [t]) s /\ violates_integrity (db s) t = false
                          /\ status t = queued /\ wf_row t = true.
Proof.
  destruct 1; try (left; solve [eauto with spool | eapply evolves_weaken; eauto with spool]).
  match goal with H : enqueue _ _ _ _ _ = _ |- _ => apply enqueue_cases in H as [->|H] end;
    [left; reflexivity|by right].
Qed.

Lemma find_task_app id l l' :
  find_task id (l ++ l') = match find_task id l with Some t => Some t | None => find_task id l' end.
Proof. unfold find_task. induction l as [|t l IH]; simpl; [done|]. by destruct (by_id id t). Qed.

Lemma ended_append x l t : is_terminal (status t) = false -> ended x (l ++ [t]) = ended x l.
Proof.
  intros H. unfold ended. rewrite find_task_app. destruct (find_task x l); [done|].
  simpl. unfold find_task. simpl. destruct (by_id x t); [|done]. by rewrite H.
Qed.

Lemma violates_fresh d t : violates_integrity d t = false -> task_id t ∉ ids (tasks d).
Proof. unfold violates_integrity. intros H. by to_prop. Qed.

Lemma violates_dedupe d t r :
  violates_integrity d t = false -> r ∈ tasks d -> is_active (status t) = true ->
  is_active (status r) = true -> dedupe_key r <> dedupe_key t.
Proof.
  unfold violates_integrity. intros H Hr Ha Har Hk. to_prop. rewrite Ha in *. simpl in *.
  match goal with H : List.existsb _ _ = false |- _ => rename H into Hx end.
  assert (List.existsb (fun r => is_active (status r) && bool_decide (dedupe_key r = dedupe_key t))
            (tasks d) = true); [|congruence].
  apply List.existsb_exists. exists r. split; [by apply list_elem_of_In|].
  by rewrite Har, bool_decide_eq_true_2.
Qed.

Lemma append_wf s t :
  violates_integrity (db s) t = false -> status t = queued -> wf_row t = true ->
  wf_session s -> wf_session (with_rows (rows s ++ [t]) s).
Proof.
  intros Hv Hq Hw [Hid Hdd Hrow Hev Htrue].
  assert (is_active (status t) = true) as Ha by by rewrite Hq.
  split; change (rows (with_rows ?l s)) with l.
  - unfold ids. rewrite map_app. apply NoDup_app. split; [done|]. split; [|apply NoDup_singleton].
    intros x Hx ->%list_elem_of_singleton. by apply violates_fresh in Hv.
  - intros a b [Hin| ->%list_elem_of_singleton]%elem_of_app [Hin'| ->%list_elem_of_singleton]%elem_of_app
      Haa Hab Hk; [by apply Hdd| | |done]; exfalso.
    + by eapply (violates_dedupe _ _ a Hv).
    + by eapply (violates_dedupe _ _ b Hv).
  - apply Forall_app. split; [done|]. by apply Forall_singleton.
  - intros x. rewrite ended_append by by rewrite Hq. apply Hev.
  - intros e (Ht & r & Hr & ?)%Htrue. split; [done|]. exists r. split; [|done].
    apply elem_of_app. by left.
Qed.

Lemma repo_step_wf s s' : repo_step s s' -> wf_session s -> wf_session s'.
Proof.
  intros [H|(t & -> & Hv & Hq & Hw)]%repo_step_cases Hwf; [by eapply evolves_wf|by apply append_wf].
Qed.

Lemma repo_steps_wf s s' : rtc repo_step s s' -> wf_session s -> wf_session s'.
Proof. induction 1; eauto using repo_step_wf. Qed.

(** A database on which the repository has not written yet. *)
Definition fresh_session (reg : list ProjectRegistry) (us : list User) : Session :=
  mkSession (mkDB [] [] reg us) [].

Lemma fresh_wf reg us : wf_session (fresh_session reg us).
Proof.
  split; [apply NoDup_nil_2| |by apply Forall_nil|done|].
  - intros ? ? H. by apply not_elem_of_nil in H.
  - intros ? H. by apply not_elem_of_nil in H.
Qed.

Lemma repo_step_find s s' id t :
  repo_step s s' -> find_task id (rows s) = Some t ->
  exists t', find_task id (rows s') = Some t' /\ identity t' = identity t
             /\ follows (status t) (status t') = true.
Proof.
  intros [H|(r & -> & _)]%repo_step_cases Ht.
  - pose proof (rows_step_find _ _ _ id (ev_rows _ _ _ H)) as Hf. rewrite Ht in Hf.
    destruct (find_task id (rows s')) as [t'|]; [|done]. exists t'. by destruct Hf.
  - exists t. change (rows (with_rows ?l s)) with l. rewrite find_task_app, Ht.
    by rewrite follows_refl.
Qed.

Lemma repo_steps_find s s' id t :
  rtc repo_step s s' -> find_task id (rows s) = Some t ->
  exists t', find_task id (rows s') = Some t' /\ identity t' = identity t
             /\ follows (status t) (status t') = true.
Proof.
  intros Hs. revert t. induction Hs as [s|s s1 s' H1 _ IH]; intros t Ht.
  - exists t. by rewrite follows_refl.
  - destruct (repo_step_find _ _ _ _ H1 Ht) as (t1 & Ht1 & I1 & F1).
    destruct (IH _ Ht1) as (t2 & Ht2 & I2 & F2). exists t2. split; [done|].
    split; [congruence|by eapply follows_trans].
Qed.

(** *** Dependencies *)

(** A task in a worker's hands has its dependency satisfied. *)
Definition deps_done (s : Session) : Prop :=
  forall t, t ∈ rows s -> started (status t) = true -> dependency_ok (rows s) t = true.

Lemma dependency_ok_step c l l' t t' :
  rows_step c l l' -> dependency_task_id t' = dependency_task_id t ->
  dependency_ok l t = true -> dependency_ok l' t' = true.
Proof.
  intros Hl Ht. unfold dependency_ok. rewrite Ht.
  destruct (dependency_task_id t) as [d|]; [|done]. pose proof (rows_step_find _ _ _ d Hl) as Hf.
  destruct (find_task d l) as [r|], (find_task d l') as [r'|]; try done.
  unfold has_status. intros H. to_prop. apply bool_decide_eq_true_2.
  rewrite <- H. apply follows_terminal; [by rewrite H|apply Hf].
Qed.

Lemma dependency_ok_append l r t : dependency_ok l t = true -> dependency_ok (l ++ [r]) t = true.
Proof.
  unfold dependency_ok. destruct (dependency_task_id t) as [d|]; [|done].
  rewrite find_task_app. by destruct (find_task d l).
Qed.

Lemma claim_select_Some media full excl s id :
  claim_select media full excl s = Some id ->
  exists t, t ∈ rows s /\ task_id t = id /\ claimable media full excl (rows s) t = true
    /\ forall t', t' ∈ rows s -> claimable media full excl (rows s) t' = true -> (queued_at t <= queued_at t')%Z.
Proof.
  unfold claim_select. destruct (order_asc _ _) as [|t l] eqn:E; [done|]. intros [= <-]. exists t.
  assert (t ∈ where_ (claimable media full excl (rows s)) (rows s)) as [Hin Hc]%elem_of_where.
  { rewrite <- (elem_of_isort (asc queued_at)). unfold order_asc in E. rewrite E. left. }
  split_and!; [done..|]. intros t' Hin' Hc'. eapply order_asc_head; [exact E|]. by apply elem_of_where.
Qed.

(** A row selected for a claim still has its dependency satisfied after any
    other writes. *)
Lemma selected_stays_ok media full excl s s' id :
  NoDup (ids (rows s)) -> claim_select media full excl s = Some id -> rtc repo_step s s' ->
  exists t, find_task id (rows s') = Some t /\ dependency_ok (rows s') t = true.
Proof.
  intros Hnd (t & Hin & <- & Hc & _)%claim_select_Some Hs.
  assert (dependency_ok (rows s) t = true) as Hok by (unfold claimable in Hc; by to_prop).
  apply (find_task_elem _ _ Hnd) in Hin. clear Hnd Hc. revert Hin Hok. generalize (task_id t). intros id.
  revert t. induction Hs as [s|s s1 s' H1 _ IH]; intros t Ht Hok; [eauto|].
  apply repo_step_cases in H1 as [H1|(r & -> & _)].
  - pose proof (rows_step_find _ _ _ id (ev_rows _ _ _ H1)) as Hf. rewrite Ht in Hf.
    destruct (find_task id (rows s1)) as [t1|] eqn:E; [|done].
    apply (IH t1); [done|]. eapply dependency_ok_step, Hok; [apply H1|by eapply row_step_dep].
  - apply (IH t); [|by apply dependency_ok_append]. change (rows (with_rows ?l s)) with l.
    by rewrite find_task_app, Ht.
Qed.

(** Only a claim hands tasks to a worker. *)
Lemma repo_step_starts s s' :
  NoDup (ids (rows s)) -> repo_step s s' ->
  evolves false s s'
  \/ (exists t, s' = with_rows (rows s ++ [t]) s /\ status t = queued)
  \/ (exists now id t, find_task id (rows s) = Some t /\ dependency_ok (rows s) t = true
                      /\ s' = (claim_update now id s).2).
Proof.
  intros Hnd H. destruct H as [testing now uuid a s r s' H|now media full excl s| | | | | | | | | | | | | |];
    try (left; eauto with spool; fail).
  - apply enqueue_cases in H as [->|(t & -> & _ & Hq & _)]; [left; reflexivity|]. right; left. by exists t.
  - unfold claim_next. destruct (claim_select media full excl s) as [id|] eqn:E; [|left; reflexivity].
    apply claim_select_Some in E as (t & Hin & <- & Hc & _). right; right.
    exists now, (task_id t), t. split; [by apply find_task_elem|]. unfold claimable in Hc. by to_prop.
  - right; right. eauto 6.
Qed.

Lemma claim_update_deps now id s t :
  NoDup (ids (rows s)) -> find_task id (rows s) = Some t -> dependency_ok (rows s) t = true ->
  deps_done s -> deps_done (claim_update now id s).2.
Proof.
  intros Hnd Ht Hok Hd. pose proof (claim_update_evolves now id s) as [Hstep _ _ _].
  revert Hstep. unfold claim_update, sql_update. case_bool_decide; cbn [snd]; [done|].
  set (p := fun t => by_id id t && _). set (f := fun t => set_updated_at now _).
  change (rows (with_rows ?l s)) with l. intros Hstep r'. change (rows (with_rows ?l s)) with l.
  intros (r & Hin & ->)%elem_of_update. destruct (p r) eqn:E; intros Hst.
  - apply (dependency_ok_step _ _ _ t _ Hstep); [|done].
    assert (task_id r = id) as Hid by (unfold p, by_id in E; by to_prop).
    apply find_task_Some in Ht as [Hin' <-]. by rewrite (NoDup_ids_inj _ _ _ Hnd Hin Hin' Hid).
  - apply (dependency_ok_step _ _ _ r _ Hstep); [done|by apply Hd].
Qed.

Lemma evolves_deps s s' : evolves false s s' -> deps_done s -> deps_done s'.
Proof.
  intros [Hr _ _ _] Hd t' Hin Hst. destruct (rows_step_elem _ _ _ _ Hr Hin) as (t & Hin' & S).
  eapply dependency_ok_step; [exact Hr|by eapply row_step_dep|]. apply Hd; [done|].
  by apply (rs_start _ _ _ S).
Qed.

Lemma repo_step_deps s s' :
  NoDup (ids (rows s)) -> repo_step s s' -> deps_done s -> deps_done s'.
Proof.
  intros Hnd H Hd. apply (repo_step_starts _ _ Hnd) in H
    as [He|[(r & -> & Hq)|(now & id & t & Ht & Hok & ->)]].
  - by eapply evolves_deps.
  - intros t Hin Hst. apply dependency_ok_append. apply Hd; [|done].
    apply elem_of_app in Hin as [Hin|Hin]; [done|]. apply list_elem_of_singleton in Hin as ->.
    by rewrite Hq in Hst.
  - by eapply claim_update_deps.
Qed.

Lemma repo_steps_deps s s' :
  wf_session s -> rtc repo_step s s' -> deps_done s -> deps_done s'.
Proof.
  intros Hwf Hs. induction Hs as [s|s s1 s' H _ IH]; [done|]. intros Hd. apply IH.
  - by eapply repo_step_wf.
  - eapply repo_step_deps; [apply Hwf|done|done].
Qed.

(** ** Theorems *)

(** C2: every database the repository can reach is well formed: task ids are
    unique, no two active tasks share a dedupe key, each row's timestamps,
    result and bounded error agree with its status, and a task has exactly
    one terminal event if it has ended and none otherwise, with the status
    the event reports. *)
Theorem reachable_wf reg us s : rtc repo_step (fresh_session reg us) s -> wf_session s.
Proof. intros H. eapply repo_steps_wf; [done|apply fresh_wf]. Qed.

Lemma demo_steps : rtc repo_step demo_fresh (mark_succeeded 20 "t1" None (claim_next 10 "video" [] [] demo_one).2).2.
Proof.
  eapply (rtc_l _ _ demo_one); [eapply (step_enqueue false 1 "t1" (demo_args "E1S1" None)); reflexivity|].
  eapply rtc_l; [apply (step_claim 10 "video" [] [])|].
  eapply rtc_l; [apply (step_succeeded 20 "t1" None)|]. apply rtc_refl.
Defined.

Lemma demo_chain_reachable : rtc repo_step demo_fresh demo_chain.
Proof.
  apply (rtc_l _ _ demo_one); [eapply (step_enqueue false 1 "t1" (demo_args "E1S1" None)); vm_compute; reflexivity|].
  apply (rtc_l _ _ demo_two); [eapply (step_enqueue false 2 "t2" (demo_args "E1S2" (Some "t1"))); vm_compute; reflexivity|].
  apply (rtc_l _ _ demo_chain); [eapply (step_enqueue false 3 "t3" (demo_args "E1S3" (Some "t2"))); vm_compute; reflexivity|].
  apply rtc_refl.
Defined.

Lemma reachable_wf_witness :
  wf_session (mark_succeeded 20 "t1" None (claim_next 10 "video" [] [] demo_one).2).2.
Proof. apply (reachable_wf demo_registry demo_users). exact demo_steps. Defined.


Definition demo_done : Session := (mark_succeeded 20 "t1" None demo_running).2.


(** A terminal event is never contradicted later: once recorded, the task
    it names exists and keeps the reported status in every later database. *)
Theorem terminal_event_stays_true reg us s s' e :
  rtc repo_step (fresh_session reg us) s -> rtc repo_step s s' -> e ∈ terminal_events s ->
  exists t, find_task (ev_task_id e) (rows s') = Some t /\ status t = ev_status e.
Proof.
  intros Hs Hs' He. pose proof (repo_steps_wf _ _ Hs (fresh_wf reg us)) as Hwf.
  destruct (wf_events_true _ Hwf e He) as (Hterm & t & Hin & Hid & Hst).
  pose proof (find_task_elem _ _ (wf_ids _ Hwf) Hin) as Hf. rewrite Hid in Hf.
  destruct (repo_steps_find _ _ _ _ Hs' Hf) as (t' & Ht' & _ & Hfol). exists t'. split; [done|].
  rewrite <- Hst in *. by apply follows_terminal.
Qed.

Lemma terminal_event_stays_true_witness :
  let s := (mark_succeeded 20 "t1" None (claim_next 10 "video" [] [] demo_one).2).2 in
  exists t, find_task "t1" (rows (mark_failed 30 "t1" (u "late") s).2) = Some t /\ status t = succeeded.
Proof.
  intros s.
  apply (terminal_event_stays_true demo_registry demo_users s (mark_failed 30 "t1" (u "late") s).2
           (mkEvent "t1" "demo" succeeded (Some "video"))).
  - exact demo_steps.
  - eapply rtc_l; [apply step_failed|apply rtc_refl].
  - vm_compute. left.
Defined.

(** C1: a task never gets ahead of its dependency: in every reachable
    database, a task that is running, being cancelled from running, or has
    succeeded, and that names a dependency, has that dependency in the table
    with status succeeded. *)
Theorem started_after_dependency reg us s t d :
  rtc repo_step (fresh_session reg us) s -> t ∈ rows s ->
  started (status t) = true -> dependency_task_id t = Some d ->
  exists r, find_task d (rows s) = Some r /\ status r = succeeded.
Proof.
  intros Hs Hin Hst Hdep.
  assert (deps_done s) as Hd.
  { eapply repo_steps_deps; [apply fresh_wf|exact Hs|]. intros r Hr. by apply not_elem_of_nil in Hr. }
  specialize (Hd t Hin Hst). unfold dependency_ok in Hd. rewrite Hdep in Hd.
  destruct (find_task d (rows s)) as [r|]; [|done]. exists r. unfold has_status in Hd. by to_prop.
Qed.

(** [t1] succeeds, then [t2], which depends on it, is claimed. *)
Definition demo_second : Session := (claim_next 30 "video" [] [] demo_done).2.

Lemma started_after_dependency_witness :
  exists t2 r, find_task "t2" (rows demo_second) = Some t2 /\ status t2 = running
    /\ find_task "t1" (rows demo_second) = Some r /\ status r = succeeded.
Proof.
  destruct (find_task "t2" (rows demo_second)) as [t2|] eqn:E; [|vm_compute in E; discriminate].
  destruct (started_after_dependency demo_registry demo_users demo_second t2 "t1") as (r & Hr & Hs).
  - transitivity demo_chain; [exact demo_chain_reachable|].
    apply (rtc_l _ _ demo_running); [exact (step_claim 10 "video" [] [] demo_chain)|].
    apply (rtc_l _ _ demo_done); [exact (step_succeeded 20 "t1" None demo_running)|].
    apply (rtc_l _ _ demo_second); [exact (step_claim 30 "video" [] [] demo_done)|]. apply rtc_refl.
  - apply find_task_Some in E as [Hin _]. exact Hin.
  - vm_compute in E. injection E as <-. reflexivity.
  - vm_compute in E. injection E as <-. reflexivity.
  - exists t2, r. split; [reflexivity|]. split; [|split; [exact Hr|exact Hs]].
    vm_compute in E. injection E as <-. reflexivity.
Defined.
