(* ===== verification/TaskOps.v ===== *)
(** * Functional correctness of the repository's operations

    What each method of [TaskRepository] returns and stores, on every branch:
    claiming, enqueueing with deduplication, leases, execution facts, bulk
    cancellation, pagination and statistics. *)

From S2P Require Import Prelude Json TaskFailure TaskStore TaskRepo Scenario TaskInv.

(** ** Claiming *)

(** The row a successful claim leaves. *)
Definition claimed (now : Z) (t : Task) : Task :=
  set_updated_at now (set_started_at (Some now) (set_status running t)).

Lemma rows_with l s : rows (with_rows l s) = l.
Proof. done. Qed.

(** A guarded update of one row, as a replacement of that row. *)
Lemma update_one id q f l t :
  NoDup (ids l) -> t ∈ l -> task_id t = id -> q t = true ->
  update_where (fun x => by_id id x && q x) f l =
  map (fun x => if bool_decide (task_id x = id) then f t else x) l.
Proof.
  intros Hnd Hin Hid Hq. apply map_ext_in. intros x Hx%list_elem_of_In. unfold by_id.
  case_bool_decide as E; [|done]. simpl.
  by rewrite (NoDup_ids_inj _ _ _ Hnd Hx Hin (eq_trans E (eq_sym Hid))), Hq.
Qed.

Lemma claim_update_hit now s t :
  NoDup (ids (rows s)) -> t ∈ rows s -> status t = queued ->
  claim_update now (task_id t) s =
  (Some (_task_to_dict (claimed now t)),
   with_rows (map (fun x => if bool_decide (task_id x = task_id t) then claimed now t else x) (rows s)) s).
Proof.
  intros Hnd Hin Hq. pose proof (find_task_elem _ _ Hnd Hin) as Hf. unfold claim_update, sql_update.
  assert (has_status queued t = true) as Hh by (unfold has_status; by rewrite bool_decide_eq_true_2).
  rewrite matched_by_id, Hf, Hh by done. simpl. rewrite rows_with.
  rewrite find_update_by_id by done. rewrite bool_decide_eq_true_2, Hf by done. simpl. rewrite Hh.
  f_equal. f_equal. by apply update_one.
Qed.

Lemma claim_update_miss now id s t :
  NoDup (ids (rows s)) -> find_task id (rows s) = Some t -> status t <> queued ->
  claim_update now id s = (None, s).
Proof.
  intros Hnd Hf Hq. unfold claim_update, sql_update.
  assert (has_status queued t = false) as Hh by (unfold has_status; by rewrite bool_decide_eq_false_2).
  by rewrite matched_by_id, Hf, Hh.
Qed.

Lemma claim_select_None media full excl s :
  claim_select media full excl s = None ->
  forall t, t ∈ rows s -> claimable media full excl (rows s) t = false.
Proof.
  unfold claim_select. destruct (order_asc _ _) as [|? ?] eqn:E; [|done]. intros _.
  apply isort_nil_inv in E. by apply where_nil.
Qed.

Lemma claim_next_spec now media full excl s :
  NoDup (ids (rows s)) ->
  match claim_next now media full excl s with
  | (Some d, s') =>
      exists t, t ∈ rows s /\ claimable media full excl (rows s) t = true
        /\ (forall t', t' ∈ rows s -> claimable media full excl (rows s) t' = true ->
                       (queued_at t <= queued_at t')%Z)
        /\ row d = claimed now t
        /\ s' = with_rows (map (fun x => if bool_decide (task_id x = task_id t) then claimed now t else x)
                             (rows s)) s
  | (None, s') => s' = s /\ forall t, t ∈ rows s -> claimable media full excl (rows s) t = false
  end.
Proof.
  intros Hnd. unfold claim_next. destruct (claim_select media full excl s) as [id|] eqn:E.
  - apply claim_select_Some in E as (t & Hin & <- & Hc & Hmin).
    rewrite claim_update_hit; [|done|done|unfold claimable, has_status in Hc; by to_prop].
    exists t. split_and!; done.
  - split; [done|]. by apply claim_select_None.
Qed.

(** [claim_next] hands out the oldest claimable task, and only when there
    is one: the row returned was queued, of the lane's medium, not excluded,
    its provider not known to be full and its dependency succeeded; no other
    claimable row was queued earlier; exactly that row becomes running.  It
    returns nothing only when no row is claimable, and then nothing changes. *)
Theorem claim_next_correct now media full excl s :
  NoDup (ids (rows s)) ->
  match claim_next now media full excl s with
  | (Some d, s') =>
      exists t, t ∈ rows s /\ claimable media full excl (rows s) t = true
        /\ (forall t', t' ∈ rows s -> claimable media full excl (rows s) t' = true ->
                       (queued_at t <= queued_at t')%Z)
        /\ row d = claimed now t
        /\ s' = with_rows (map (fun x => if bool_decide (task_id x = task_id t) then claimed now t else x)
                             (rows s)) s
  | (None, s') => s' = s /\ forall t, t ∈ rows s -> claimable media full excl (rows s) t = false
  end.
Proof. apply claim_next_spec. Qed.

Lemma claim_next_correct_witness :
  NoDup (ids (rows demo_chain)) /\
  exists d, (claim_next 10 "video" [] [] demo_chain).1 = Some d /\ task_id (row d) = "t1"
            /\ status (row d) = running.
Proof.
  assert (NoDup (ids (rows demo_chain))) as Hnd by (apply (bool_decide_unpack _); vm_compute; exact I).
  split; [exact Hnd|]. pose proof (claim_next_correct 10 "video" [] [] demo_chain Hnd) as H.
  destruct (claim_next 10 "video" [] [] demo_chain) as [[d|] s'] eqn:E; [|vm_compute in E; discriminate].
  destruct H as (t & _ & _ & _ & Hrow & _). exists d. split; [reflexivity|].
  vm_compute in E. injection E as <- _. split; reflexivity.
Defined.

(** Two workers that selected the same task cannot both run it: after one
    claim of the task has succeeded, a second [UPDATE] of the same claim
    finds no row and changes nothing. *)
Theorem claim_exclusive now now' id s d s' :
  NoDup (ids (rows s)) -> claim_update now id s = (Some d, s') ->
  claim_update now' id s' = (None, s').
Proof.
  intros Hnd Hc. pose proof (claim_update_evolves now id s) as [Hstep _ _ _]. rewrite Hc in Hstep.
  cbn [snd] in Hstep. revert Hc. unfold claim_update at 1, sql_update. rewrite matched_by_id by done.
  destruct (find_task id (rows s)) as [t|] eqn:Hf; [|done].
  destruct (has_status queued t) eqn:Hq; [|done]. simpl. intros [= _ <-].
  eapply claim_update_miss.
  - by rewrite (rows_step_ids _ _ _ Hstep).
  - change (rows (with_rows ?l s)) with l. rewrite find_update_by_id, bool_decide_eq_true_2, Hf by done.
    simpl. by rewrite Hq.
  - done.
Qed.

Lemma claim_exclusive_witness :
  exists d s', claim_update 10 "t1" demo_chain = (Some d, s') /\ claim_update 11 "t1" s' = (None, s').
Proof.
  destruct (claim_update 10 "t1" demo_chain) as [[d|] s'] eqn:E; [|vm_compute in E; discriminate].
  exists d, s'. split; [reflexivity|]. apply (claim_exclusive 10 11 "t1" demo_chain d s'); [|exact E].
  apply (bool_decide_unpack _); vm_compute; exact I.
Defined.

(** ** Enqueueing *)

(** The row [enqueue] offers to the database. *)
Definition offered (now : Z) (uuid : string) (pid : option string) (actor : string) (a : EnqueueArgs)
    (s : Session) : Task :=
  new_task now uuid pid actor (_actor_username (db s) actor) a.

(** The lookup after a conflict tests the index expression. *)
Lemma clauses_key now uuid pid actor a s r :
  pid <> Some "" ->
  _active_dedupe_clauses (a_project_name a) pid (a_task_type a) (a_script_file a) (a_resource_type a) r
    && bool_decide (resource_id r = a_resource_id a) =
  is_active (status r) && bool_decide (dedupe_key r = dedupe_key (offered now uuid pid actor a s)).
Proof.
  intros Hpid. unfold _active_dedupe_clauses, dedupe_key, offered, new_task. simpl.
  assert (str_or pid (a_project_name a) = coalesce pid (a_project_name a)) as ->.
  { destruct pid as [x|]; [|done]. simpl. rewrite bool_decide_eq_false_2; [done|congruence]. }
  assert (forall x, str_or x "" = coalesce x "") as Hs.
  { intros [x|]; [|done]. simpl. by case_bool_decide. }
  rewrite !Hs. apply eq_bool_prop_intro.
  rewrite !andb_True, !bool_decide_spec. split; naive_solver congruence.
Qed.

Lemma violates_active d t r :
  r ∈ tasks d -> is_active (status r) = true -> is_active (status t) = true ->
  dedupe_key r = dedupe_key t -> violates_integrity d t = true.
Proof.
  intros Hin Hr Ht Hk. destruct (violates_integrity d t) eqn:E; [done|].
  by destruct (violates_dedupe _ _ _ E Hin Ht Hr).
Qed.

(** Rows with one key are one row. *)
Lemma where_unique (p : Task -> bool) l t :
  NoDup (ids l) -> t ∈ l -> p t = true -> (forall r, r ∈ l -> p r = true -> task_id r = task_id t) ->
  where_ p l = [t].
Proof.
  intros Hnd Hin Hp Huniq. rewrite (where_ext p (fun r => by_id (task_id t) r && true)).
  - pose proof (matched_by_id (fun _ => true) l (task_id t) Hnd) as Hm.
    rewrite (find_task_elem _ _ Hnd Hin) in Hm. unfold matched in Hm.
    assert (t ∈ where_ (fun r => by_id (task_id t) r && true) l) as Ht.
    { apply elem_of_where. split; [done|]. unfold by_id. by rewrite bool_decide_eq_true_2. }
    destruct (where_ _ l) as [|x [|y k]]; try done. apply list_elem_of_singleton in Ht. by subst.
  - intros r Hr. unfold by_id. rewrite andb_true_r. case_bool_decide as E.
    + by rewrite (NoDup_ids_inj _ _ _ Hnd Hr Hin E).
    + destruct (p r) eqn:Epr; [|done]. by destruct E; apply Huniq.
Qed.

(** A request for a resource that already has an active task is answered
    with that task: same id, status and payload, marked as deduplicated, and
    the database is not changed. *)
Theorem enqueue_dedupes testing now uuid a s pid actor t :
  wf_session s ->
  resolve_project_id (db s) (a_project_name a) = Ok pid -> pid <> Some "" ->
  resolve_actor_user_id testing (db s) (Some (a_user_id a)) = Ok actor ->
  t ∈ rows s -> is_active (status t) = true ->
  dedupe_key t = dedupe_key (offered now uuid pid actor a s) ->
  enqueue testing now uuid a s =
  Ok (mkEnqueueResult (task_id t) (status t) true (Some (task_id t))
        (Some (payload (_task_to_dict t))), s).
Proof.
  intros Hwf Hp Hne Ha Hin Hact Hk. unfold enqueue. rewrite Hp, Ha. simpl.
  change (new_task _ _ _ _ _ _) with (offered now uuid pid actor a s).
  rewrite (violates_active (db s) _ t) by done.
  rewrite (where_ext _ _ _ (fun r _ => clauses_key now uuid pid actor a s r Hne)).
  rewrite (where_unique _ _ t); [done|apply Hwf|done|by rewrite Hact, bool_decide_eq_true_2|].
  intros r Hr Hrp. to_prop. apply (wf_dedupe _ Hwf); try done. congruence.
Qed.

Lemma enqueue_dedupes_witness :
  exists t, find_task "t1" (rows demo_one) = Some t /\
  enqueue false 9 "t9" (demo_args "E1S1" None) demo_one =
  Ok (mkEnqueueResult "t1" queued true (Some "t1") (Some (payload (_task_to_dict t))), demo_one).
Proof.
  destruct (find_task "t1" (rows demo_one)) as [t|] eqn:E; [|vm_compute in E; discriminate].
  exists t. split; [reflexivity|].
  assert (wf_session demo_one) as Hwf.
  { apply (repo_steps_wf demo_fresh); [|apply fresh_wf].
    apply (rtc_l _ _ demo_one); [|apply rtc_refl].
    eapply (step_enqueue false 1 "t1" (demo_args "E1S1" None)); vm_compute; reflexivity. }
  assert (task_id t = "t1" /\ status t = queued) as [Hid Hst].
  { vm_compute in E. injection E as <-. split; reflexivity. }
  rewrite (enqueue_dedupes false 9 "t9" (demo_args "E1S1" None) demo_one (Some "p1") "alice" t Hwf).
  - rewrite Hid, Hst. reflexivity.
  - reflexivity.
  - discriminate.
  - reflexivity.
  - apply find_task_Some in E as [Hin _]. exact Hin.
  - rewrite Hst. reflexivity.
  - vm_compute in E. injection E as <-. reflexivity.
Defined.

Lemma existsb_false_iff {A} (f : A -> bool) l :
  List.existsb f l = false <-> forall x, x ∈ l -> f x = false.
Proof.
  induction l as [|y l IH]; simpl.
  - split; [intros _ x H; by apply not_elem_of_nil in H|done].
  - rewrite orb_false_iff, IH. split.
    + intros [H1 H2] x [->|Hx]%elem_of_cons; auto.
    + intros H. split; [apply H; left|intros x Hx; apply H; by right].
Qed.

Lemma resolve_project_registered d project pid :
  resolve_project_id d project = Ok (Some pid) ->
  List.existsb (fun r => bool_decide (reg_id r = pid)) (registry d) = true.
Proof.
  unfold resolve_project_id. intros H. apply List.existsb_exists.
  assert (exists p, p ∈ registry d /\ reg_id p = pid) as (p & Hp & Hid).
  { revert H. case_match eqn:E1; [apply find_Some_elem in E1 as [? _]; naive_solver|].
    case_match eqn:E2; [apply find_Some_elem in E2 as [? _]; naive_solver|].
    case_match eqn:E3; [done|]. case_match; [|done]. intros [= <-]. eexists. split; [|done].
    eapply elem_of_where. rewrite E3. left. }
  exists p. split; [by apply list_elem_of_In|by apply bool_decide_eq_true_2].
Qed.

(** A request whose key has no active task is stored: exactly one queued
    row with the request's data is added under the fresh id, and the answer
    carries that id and is not marked as deduplicated. *)
Theorem enqueue_inserts testing now uuid a s pid actor :
  resolve_project_id (db s) (a_project_name a) = Ok pid ->
  resolve_actor_user_id testing (db s) (Some (a_user_id a)) = Ok actor ->
  (exists x, x ∈ users (db s) /\ usr_id x = actor) ->
  uuid ∉ ids (rows s) ->
  (forall t, t ∈ rows s -> is_active (status t) = true ->
             dedupe_key t <> dedupe_key (offered now uuid pid actor a s)) ->
  enqueue testing now uuid a s =
  Ok (mkEnqueueResult uuid queued false None None,
      with_rows (rows s ++ [offered now uuid pid actor a s]) s).
Proof.
  intros Hp Ha (x & Hx & Hxid) Hfresh Hkey. unfold enqueue. rewrite Hp, Ha. simpl.
  change (new_task _ _ _ _ _ _) with (offered now uuid pid actor a s).
  assert (violates_integrity (db s) (offered now uuid pid actor a s) = false) as ->; [|done].
  unfold violates_integrity. rewrite !orb_false_iff. split_and!.
  - by apply bool_decide_eq_false_2.
  - apply existsb_false_iff. intros t Ht. destruct (is_active (status t)) eqn:E; [|done].
    apply bool_decide_eq_false_2. by apply Hkey.
  - simpl. apply negb_false_iff, List.existsb_exists. exists x.
    split; [by apply list_elem_of_In|by apply bool_decide_eq_true_2].
  - simpl. destruct pid as [p|]; [|done]. by rewrite (resolve_project_registered _ _ _ Hp).
Qed.

Lemma enqueue_inserts_witness :
  enqueue false 9 "t9" (demo_args "E9S9" None) demo_one =
  Ok (mkEnqueueResult "t9" queued false None None,
      with_rows (rows demo_one ++ [offered 9 "t9" (Some "p1") "alice" (demo_args "E9S9" None) demo_one]) demo_one).
Proof.
  apply (enqueue_inserts false 9 "t9" (demo_args "E9S9" None) demo_one (Some "p1") "alice").
  - reflexivity.
  - reflexivity.
  - exists (mkUser "alice" "alice" false). split; [right; left|reflexivity].
  - apply (bool_decide_unpack _). vm_compute. exact I.
  - intros t Hin _. apply list_elem_of_singleton in Hin as ->. vm_compute. discriminate.
Defined.

(** ** Worker lease *)

(** The primary key of [worker_lease]. *)
Definition lease_names (s : Session) : list string := map name (leases (db s)).

(** A lease of [nm] that [owner] holds until [until]. *)
Definition holds (nm owner : string) (until : Z) (s : Session) : Prop :=
  exists l, where_ (fun l => bool_decide (name l = nm)) (leases (db s)) = [l]
            /\ owner_id l = owner /\ lease_until l = until.

Lemma where_named_le nm (ls : list WorkerLease) :
  NoDup (map name ls) -> length (where_ (fun l => bool_decide (name l = nm)) ls) <= 1.
Proof.
  induction ls as [|l ls IH]; simpl; [lia|]. intros [Hni Hnd]%NoDup_cons. specialize (IH Hnd).
  case_bool_decide as E; simpl; [|done].
  assert (where_ (fun l => bool_decide (name l = nm)) ls = []) as ->; [|simpl; lia].
  apply where_nil. intros x Hx. apply bool_decide_eq_false_2. intros Hn. apply Hni.
  rewrite E, <- Hn. by apply list_elem_of_In, in_map, list_elem_of_In.
Qed.

(** Two tests in sequence. *)
Lemma where_where {A} (p q : A -> bool) l : where_ p (where_ q l) = where_ (fun x => q x && p x) l.
Proof. induction l as [|x l IH]; simpl; [done|]. destruct (q x); simpl; by rewrite IH. Qed.

(** An [UPDATE] of rows with a stable name, seen through a [SELECT] by name. *)
Lemma where_named_map nm (f : WorkerLease -> WorkerLease) ls :
  (forall l, name (f l) = name l) ->
  where_ (fun l => bool_decide (name l = nm)) (map f ls) =
  map f (where_ (fun l => bool_decide (name l = nm)) ls).
Proof.
  intros Hf. induction ls as [|l ls IH]; simpl; [done|]. rewrite Hf.
  case_bool_decide; simpl; by rewrite IH.
Qed.

Lemma existsb_where {A} (p : A -> bool) l : List.existsb p l = negb (bool_decide (where_ p l = [])).
Proof.
  induction l as [|x l IH]; simpl; [done|]. by destruct (p x).
Qed.

(** What [acquire_or_renew_lease] does is decided by the lease of that name. *)
Lemma acquire_outcome now nm owner ttl s :
  NoDup (lease_names s) ->
  let until := (now + Z.max SECOND ttl)%Z in
  match where_ (fun l => bool_decide (name l = nm)) (leases (db s)) with
  | [l] => if bool_decide (owner_id l = owner) || (lease_until l <=? now)%Z
           then (acquire_or_renew_lease now nm owner ttl s).1 = true
                /\ holds nm owner until (acquire_or_renew_lease now nm owner ttl s).2
           else acquire_or_renew_lease now nm owner ttl s = (false, s)
  | _ => (acquire_or_renew_lease now nm owner ttl s).1 = true
         /\ holds nm owner until (acquire_or_renew_lease now nm owner ttl s).2
  end.
Proof.
  intros Hnd until. pose proof (where_named_le nm _ Hnd) as Hle. unfold acquire_or_renew_lease.
  fold until. set (named := fun l => bool_decide (name l = nm)) in *.
  assert (where_ (owns_or_expired now nm owner) (leases (db s)) =
          where_ (fun l => bool_decide (owner_id l = owner) || (lease_until l <=? now)%Z)
            (where_ named (leases (db s)))) as Hw by (rewrite where_where; done).
  rewrite existsb_where. fold named.
  destruct (where_ named (leases (db s))) as [|l [|l2 k]] eqn:E; simpl in Hle; [|clear Hle|lia].
  - simpl in Hw. rewrite Hw. rewrite bool_decide_eq_false_2 by naive_solver. simpl. split; [done|].
    exists (mkLease nm owner until now). split; [|done]. simpl. rewrite List.filter_app.
    fold named. rewrite E. simpl. unfold named. simpl. by rewrite bool_decide_eq_true_2.
  - simpl in Hw. destruct (_ || _) eqn:Eo.
    + rewrite Hw, bool_decide_eq_true_2 by done. simpl. split; [done|].
      unfold holds. simpl. rewrite where_named_map by (intros x; by case_match). fold named. rewrite E.
      simpl. eexists. split; [done|].
      assert (name l = nm) as Hn.
      { assert (l ∈ where_ named (leases (db s))) as [_ Hl]%elem_of_where by (rewrite E; left).
        unfold named in Hl. by to_prop. }
      unfold owns_or_expired. by rewrite Eo, Hn, bool_decide_eq_true_2.
    + rewrite Hw, bool_decide_eq_false_2 by naive_solver. by rewrite bool_decide_eq_false_2.
Qed.

(** The attempts of other workers, in order. *)
Definition attempts (nm : string) (others : list (Z * string * Z)) (s : Session) : list bool * Session :=
  foldl (fun '(got, s) '(now, owner, ttl) =>
           let '(b, s') := acquire_or_renew_lease now nm owner ttl s in (got ++ [b], s'))
    ([], s) others.

Lemma attempts_held nm owner until others got s :
  NoDup (lease_names s) -> holds nm owner until s ->
  Forall (fun '(now, o, _) => o <> owner /\ (now < until)%Z) others ->
  foldl (fun '(got, s) '(now, owner, ttl) =>
           let '(b, s') := acquire_or_renew_lease now nm owner ttl s in (got ++ [b], s'))
    (got, s) others = (got ++ map (fun _ => false) others, s).
Proof.
  intros Hnd (l & Hl & Ho & Hu). revert got. induction others as [|[[now o] ttl] others IH]; intros got H; simpl.
  - by rewrite app_nil_r.
  - inv H. destruct H2 as [Hne Hlt]. pose proof (acquire_outcome now nm o ttl s Hnd) as Ha. simpl in Ha.
    rewrite Hl, bool_decide_eq_false_2 in Ha by done.
    rewrite (proj2 (Z.leb_gt _ _) Hlt) in Ha. simpl in Ha. rewrite Ha. simpl.
    rewrite IH by done. by rewrite <- app_assoc.
Qed.

Lemma acquire_names now nm owner ttl s :
  NoDup (lease_names s) -> NoDup (lease_names (acquire_or_renew_lease now nm owner ttl s).2).
Proof.
  intros Hnd. unfold acquire_or_renew_lease. case_bool_decide; cbn [snd].
  - unfold lease_names. simpl. rewrite map_map. erewrite map_ext; [exact Hnd|].
    intros l. simpl. by destruct (owns_or_expired _ _ _ l).
  - destruct (List.existsb _ _) eqn:E; cbn [snd]; [done|]. unfold lease_names. simpl. rewrite map_app.
    apply NoDup_app. split; [done|]. split; [|apply NoDup_singleton].
    intros x Hx ->%list_elem_of_singleton. apply list_elem_of_In, in_map_iff in Hx as (l & Hn & Hl).
    rewrite existsb_false_iff in E. specialize (E l ltac:(by apply list_elem_of_In)). simpl in Hn. by to_prop.
Qed.

(** The worker lease is exclusive: while a lease taken at [now] has not
    run out, every attempt by another owner is refused and leaves the table
    as it is; the worker counts as online for exactly that time. *)
Theorem lease_exclusive now nm owner ttl s s' others :
  NoDup (lease_names s) -> acquire_or_renew_lease now nm owner ttl s = (true, s') ->
  Forall (fun '(now', o, _) => o <> owner /\ (now' < now + Z.max SECOND ttl)%Z) others ->
  attempts nm others s' = (map (fun _ => false) others, s')
  /\ forall t, is_worker_online t nm s' = (t <? now + Z.max SECOND ttl)%Z.
Proof.
  intros Hnd Ha Ho. pose proof (acquire_outcome now nm owner ttl s Hnd) as Hout.
  pose proof (acquire_names now nm owner ttl s Hnd) as Hnd'. rewrite Ha in *. simpl in Hout, Hnd'.
  assert (holds nm owner (now + Z.max SECOND ttl) s') as Hh by (repeat case_match; naive_solver).
  split.
  - unfold attempts. by erewrite attempts_held.
  - intros t. destruct Hh as (l & Hl & _ & Hu). unfold is_worker_online, find_lease.
    assert (forall ls, List.find (fun l => bool_decide (name l = nm)) ls =
                       head (where_ (fun l => bool_decide (name l = nm)) ls)) as ->.
    { induction ls as [|x ls IH]; simpl; [done|]. by case_bool_decide. }
    rewrite Hl. simpl. by rewrite Hu.
Qed.

Lemma lease_exclusive_witness :
  exists s', acquire_or_renew_lease 100 "default" "w1" 30000000 demo_fresh = (true, s')
    /\ attempts "default" [(200, "w2", 30000000); (20000000, "w3", 30000000)]%Z s' = ([false; false], s').
Proof.
  destruct (acquire_or_renew_lease 100 "default" "w1" 30000000 demo_fresh) as [b s'] eqn:E.
  assert (b = true) as -> by (vm_compute in E; injection E as <- _; reflexivity).
  exists s'. split; [reflexivity|].
  apply (lease_exclusive 100 "default" "w1" 30000000 demo_fresh s'
           [(200, "w2", 30000000); (20000000, "w3", 30000000)]%Z); [constructor|exact E|].
  repeat constructor; discriminate.
Defined.

(** ** Execution facts *)

(** A row that may still cross the submit boundary. *)
Definition may_checkpoint (t : Task) : bool :=
  bool_decide (task_type t ∈ ["video"; "reference_video"]) && has_status running t
  && bool_decide (execution_checkpoint_json t = None) && bool_decide (provider_job_id t = None).

Lemma checkpoint_outcome now id cp p s :
  NoDup (ids (rows s)) ->
  persist_execution_checkpoint now id cp p s =
  match find_task id (rows s) with
  | Some t =>
      if may_checkpoint t
      then Ok (with_rows (map (fun x => if bool_decide (task_id x = id)
             then set_updated_at now (set_provider_id (Some p) (set_execution_checkpoint_json (Some cp) t))
             else x) (rows s)) s)
      else Raise ValueError
  | None => Raise ValueError
  end.
Proof.
  intros Hnd. unfold persist_execution_checkpoint, sql_update.
  assert (forall t : Task, by_id id t && bool_decide (task_type t ∈ ["video"; "reference_video"])
            && has_status running t && bool_decide (execution_checkpoint_json t = None)
            && bool_decide (provider_job_id t = None) = by_id id t && may_checkpoint t) as Hp.
  { intros t. unfold may_checkpoint. by rewrite !andb_assoc. }
  unfold matched. rewrite (where_ext _ _ _ (fun t _ => Hp t)). fold (matched (fun t => by_id id t && may_checkpoint t) (rows s)).
  rewrite matched_by_id by done. destruct (find_task id (rows s)) as [t|] eqn:E; [|done].
  apply find_task_Some in E as [Hin Hid]. destruct (may_checkpoint t) eqn:Em; [|done].
  rewrite bool_decide_eq_true_2 by done. do 2 f_equal. 
  rewrite <- (update_one id may_checkpoint (fun t => set_updated_at now (set_provider_id (Some p)
    (set_execution_checkpoint_json (Some cp) t))) _ t) by done.
  apply map_ext. intros x. by rewrite Hp.
Qed.

(** The submit boundary is crossed at most once: after an execution
    checkpoint has been stored for a task, its text and provider read back,
    and every later attempt to store another one for that task is refused. *)
Theorem checkpoint_write_once now id cp p s s' :
  NoDup (ids (rows s)) -> persist_execution_checkpoint now id cp p s = Ok s' ->
  (exists t, find_task id (rows s') = Some t /\ execution_checkpoint_json t = Some cp
             /\ provider_id t = Some p /\ status t = running)
  /\ forall now' cp' p', persist_execution_checkpoint now' id cp' p' s' = Raise ValueError.
Proof.
  intros Hnd H. pose proof (persist_execution_checkpoint_evolves _ _ _ _ _ _ H) as [Hstep _ _ _].
  assert (NoDup (ids (rows s'))) as Hnd' by by rewrite (rows_step_ids _ _ _ Hstep).
  rewrite checkpoint_outcome in H by done. destruct (find_task id (rows s)) as [t|] eqn:E; [|done].
  destruct (may_checkpoint t) eqn:Em; [|done]. injection H as <-. revert Hnd'. rewrite rows_with.
  set (t' := set_updated_at now _). intros Hnd'. pose proof (find_task_Some _ _ _ E) as [Hin Hid].
  assert (find_task id (map (fun x => if bool_decide (task_id x = id) then t' else x) (rows s)) = Some t') as Hf.
  { assert (task_id t' = id) as <- by done. apply find_task_elem; [done|].
    apply list_elem_of_In, in_map_iff. exists t. split; [|by apply list_elem_of_In].
    by rewrite bool_decide_eq_true_2. }
  split.
  - exists t'. split; [done|]. split; [done|]. split; [done|]. unfold may_checkpoint, has_status in Em. by to_prop.
  - intros. rewrite checkpoint_outcome by done. rewrite rows_with, Hf.
    assert (may_checkpoint t' = false) as ->; [|done]. unfold may_checkpoint.
    rewrite (bool_decide_eq_false_2 (execution_checkpoint_json t' = None)) by done.
    by rewrite andb_false_r.
Qed.

Lemma checkpoint_write_once_witness :
  exists s', persist_execution_checkpoint 11 "t1" (u "{}") "ark" demo_running = Ok s'
    /\ persist_execution_checkpoint 12 "t1" (u "{}") "kling" s' = Raise ValueError.
Proof.
  destruct (persist_execution_checkpoint 11 "t1" (u "{}") "ark" demo_running) as [s'|] eqn:E;
    [|vm_compute in E; discriminate].
  exists s'. split; [reflexivity|].
  apply (checkpoint_write_once 11 "t1" (u "{}") "ark" demo_running s'); [|exact E].
  apply (bool_decide_unpack _); vm_compute; exact I.
Defined.

(** A dictionary with one more well-formed value is well formed. *)
Lemma wf_dict_set k v d :
  wf_json (JObj d) = true -> wf_json v = true -> wf_json (JObj (dict_set k v d)) = true.
Proof.
  simpl. intros [Hnd Hall]%andb_true_iff Hv. apply andb_true_iff. split.
  - apply bool_decide_eq_true in Hnd. apply bool_decide_eq_true_2. by apply dict_set_NoDup.
  - clear Hnd. induction d as [|[k' v'] d IH]; simpl in *; [by rewrite Hv|].
    apply andb_true_iff in Hall as [H1 H2]. case_bool_decide; simpl; [by rewrite Hv|].
    by rewrite H1, IH.
Qed.

(** The dictionary a stored payload decodes to. *)
Definition payload_dict (t : Task) : dict :=
  match payload (_task_to_dict t) with JObj d => d | _ => [] end.

Lemma json_loads_wf v d : wf_json d = true -> wf_json (_json_loads v d) = true.
Proof.
  intros Hd. unfold _json_loads. destruct v as [[|c v]|]; try done.
  destruct (loads (c :: v)) as [j|] eqn:E; [|done]. simpl. by eapply loads_wf.
Qed.

Lemma payload_dict_wf t : wf_json (JObj (payload_dict t)) = true.
Proof.
  pose proof (json_loads_wf (payload_json t) (JObj []) eq_refl) as H.
  unfold payload_dict, _task_to_dict. simpl. destruct (_json_loads _ _); try done.
Qed.

Lemma json_loads_dumps d dflt : wf_json (JObj d) = true -> _json_loads (Some (_json_dumps (JObj d))) dflt = JObj d.
Proof.
  intros H. unfold _json_loads, _json_dumps. pose proof (loads_dumps false _ H) as Hl.
  destruct (dumps false (JObj d)); [done|]. by rewrite Hl.
Qed.

(** Recording the billing call of a task keeps its payload: the call id
    reads back under its key, every other key of the stored payload keeps its
    value, and the status and other rows are not touched. *)
Theorem api_call_id_round_trip now id call s s' t :
  NoDup (ids (rows s)) -> find_task id (rows s) = Some t -> persist_api_call_id now id call s = Ok s' ->
  (exists t', find_task id (rows s') = Some t' /\ status t' = status t
     /\ dict_get (u "api_call_id") (payload_dict t') = Some (JInt call)
     /\ forall k, k <> u "api_call_id" -> dict_get k (payload_dict t') = dict_get k (payload_dict t))
  /\ forall id', id' <> id -> find_task id' (rows s') = find_task id' (rows s).
Proof.
  intros Hnd Ht. unfold persist_api_call_id, _merge_payload_field, sql_update. rewrite Ht.
  change (match _json_loads (payload_json t) (JObj []) with JObj d => d | _ => [] end) with (payload_dict t).
  set (d := dict_set _ _ _). case_match; [done|]. intros [= <-]. rewrite rows_with.
  assert (wf_json (JObj d) = true) as Hwf by (apply wf_dict_set; [apply payload_dict_wf|done]).
  split.
  - eexists. rewrite find_update, Ht by done. simpl.
    apply find_task_Some in Ht as [_ Hid]. unfold by_id. rewrite bool_decide_eq_true_2 by done.
    split; [done|]. split; [done|]. unfold payload_dict at 1 2, _task_to_dict.
    cbn [payload payload_json set_updated_at set_payload_json].
    rewrite json_loads_dumps by done. split; [apply dict_get_set_eq|].
    intros k Hk. by apply dict_get_set_ne.
  - intros id' Hne. rewrite find_update by done. destruct (find_task id' (rows s)) as [r|] eqn:E; [|done].
    simpl. apply find_task_Some in E as [_ Hid']. unfold by_id. by rewrite bool_decide_eq_false_2 by congruence.
Qed.

Lemma api_call_id_round_trip_witness :
  exists t', find_task "t1" (rows (match persist_api_call_id 12 "t1" 7 demo_running with Ok s => s | _ => demo_running end)) = Some t'
    /\ dict_get (u "api_call_id") (payload_dict t') = Some (JInt 7)
    /\ dict_get (u "prompt") (payload_dict t') = Some (JStr (u "rain")).
Proof.
  destruct (find_task "t1" (rows demo_running)) as [t|] eqn:Et; [|vm_compute in Et; discriminate].
  destruct (persist_api_call_id 12 "t1" 7 demo_running) as [s'|] eqn:E; [|vm_compute in E; discriminate].
  destruct (api_call_id_round_trip 12 "t1" 7 demo_running s' t) as [(t' & Ht' & _ & Hc & Hk) _].
  - apply (bool_decide_unpack _); vm_compute; exact I.
  - exact Et.
  - exact E.
  - exists t'. split; [exact Ht'|]. split; [exact Hc|]. rewrite Hk by discriminate.
    vm_compute in Et. injection Et as <-. vm_compute. reflexivity.
Defined.

(** ** Bulk cancellation *)

(** Cancelling a project's queue leaves none of its tasks queued, touches
    no other row, and reports exactly the number of tasks the preview
    announced, with nothing skipped. *)
Theorem cancel_all_queued_correct now project pid s n k s' :
  cancel_all_queued now project pid s = Ok ((n, k), s') ->
  get_cancel_all_preview project pid s = Ok n /\ k = 0
  /\ get_cancel_all_preview project pid s' = Ok 0
  /\ exists pid', project_id_or_resolve (db s) project pid = Ok pid'
     /\ rows s' = map (fun t => if project_filter project pid' t && has_status queued t
                               then set_updated_at now (set_finished_at (Some now)
                                      (set_cancelled_by (Some "user") (set_status cancelled t)))
                               else t) (rows s).
Proof.
  unfold cancel_all_queued, get_cancel_all_preview, sql_update.
  intros (pid' & Hp & H)%bind_Ok. rewrite Hp. simpl. revert H. cbv zeta. rewrite record_all_events.
  set (p := fun t => project_filter project pid' t && has_status queued t).
  set (f := fun t => set_updated_at now _). intros [= <- <- <-].
  change (rows (mkSession (db (with_rows ?l s)) _)) with l. split; [done|]. split; [unfold matched; lia|].
  match goal with |- context [bind (project_id_or_resolve ?d project pid) _] =>
    replace (project_id_or_resolve d project pid) with (Ok pid') by (symmetry; exact Hp) end.
  cbn [bind]. split; [|by exists pid']. f_equal. apply where_matched, where_nil.
  change (rows (mkSession (db (with_rows ?l s)) _)) with l.
  intros t (t0 & Hin & ->)%elem_of_update. destruct (p t0) eqn:E; [|done].
  unfold f. cbn. by rewrite andb_false_r.
Qed.

Lemma cancel_all_queued_correct_witness :
  exists s', cancel_all_queued 50 "demo" None demo_running = Ok ((2, 0), s')
    /\ get_cancel_all_preview "demo" None s' = Ok 0.
Proof.
  destruct (cancel_all_queued 50 "demo" None demo_running) as [[[n k] s']|] eqn:E; [|vm_compute in E; discriminate].
  assert (n = 2 /\ k = 0) as [-> ->] by (vm_compute in E; injection E as <- <- _; split; reflexivity).
  exists s'. split; [reflexivity|]. apply (cancel_all_queued_correct 50 "demo" None demo_running 2 0 s' E).
Defined.

(** ** Queries *)

(** The rows a filter selects. *)
Definition selected (pc : Task -> bool) (f : TaskFilter) (s : Session) : list Task :=
  where_ (fun t =>
      pc t && when_eq (f_status f) (Some (status_name (status t)))
      && when_eq (f_task_type f) (Some (task_type t))
      && when_eq (f_source f) (Some (source t))
      && when_eq (f_user_id f) (user_id t)) (rows s).

(** Consecutive windows of a list. *)
Lemma take_drop_windows {A} (k n : nat) (l : list A) :
  mjoin (map (fun i => take k (drop (i * k) l)) (seq 0 n)) = take (n * k) l.
Proof.
  induction n as [|n IH]; [by rewrite take_0|].
  rewrite seq_S, map_app, join_app. cbn [map]. rewrite IH. simpl. rewrite app_nil_r.
  rewrite (Nat.add_comm k). by rewrite <- take_take_drop.
Qed.

Lemma list_tasks_page f s pc k ps :
  project_clause (db s) f = Ok pc -> (1 <= ps <= 500)%Z ->
  list_tasks f (Z.of_nat k + 1) ps s =
  Ok (mkPage (map _task_to_dict (take (Z.to_nat ps)
                (drop (k * Z.to_nat ps) (isort newest_first (selected pc f s)))))
        (length (selected pc f s)) (Z.of_nat k + 1) ps).
Proof.
  intros Hpc Hps. unfold list_tasks. rewrite Hpc. simpl.
  replace (Z.max 1 (Z.of_nat k + 1)) with (Z.of_nat k + 1)%Z by lia.
  replace (Z.max 1 (Z.min 500 ps)) with ps by lia.
  replace (Z.to_nat ((Z.of_nat k + 1 - 1) * ps)) with (k * Z.to_nat ps) by nia. done.
Qed.

(** The pages of a listing partition it: put together, pages 1 to n show
    every matching task exactly once, newest first, as soon as n pages can
    hold the reported total. *)
Theorem list_tasks_pages f s pc ps n :
  project_clause (db s) f = Ok pc -> (1 <= ps <= 500)%Z ->
  length (selected pc f s) <= n * Z.to_nat ps ->
  mjoin (map (fun k => match list_tasks f (Z.of_nat k + 1) ps s with
                       | Ok p => items p | Raise _ => [] end) (seq 0 n))
  = map _task_to_dict (isort newest_first (selected pc f s))
  /\ (forall k p, list_tasks f (Z.of_nat k + 1) ps s = Ok p ->
        total p = length (selected pc f s) /\ length (items p) <= Z.to_nat ps)
  /\ isort newest_first (selected pc f s) ≡ₚ selected pc f s.
Proof.
  intros Hpc Hps Hn. split_and!.
  - erewrite map_ext; [|intros k; by rewrite (list_tasks_page f s pc k ps Hpc Hps)]. cbn [items].
    rewrite <- (map_map (fun i => take _ (drop (i * _) _)) (map _task_to_dict)).
    assert (forall ll : list (list Task), mjoin (map (map _task_to_dict) ll) = map _task_to_dict (mjoin ll)) as ->.
    { induction ll as [|l ll IH]; simpl; [done|]. by rewrite map_app, IH. }
    rewrite take_drop_windows. rewrite take_ge; [done|]. by rewrite length_isort.
  - intros k p. rewrite (list_tasks_page f s pc k ps Hpc Hps). intros [= <-]. simpl.
    split; [done|]. rewrite length_map, length_take. lia.
  - apply isort_perm.
Qed.

Lemma list_tasks_pages_witness :
  project_clause (db demo_chain) no_filter = Ok (fun _ => true) /\
  map (fun d => task_id (row d)) (mjoin (map (fun k => match list_tasks no_filter (Z.of_nat k + 1) 2 demo_chain with
                       | Ok p => items p | Raise _ => [] end) (seq 0 2))) = ["t3"; "t2"; "t1"].
Proof.
  split; [reflexivity|].
  destruct (list_tasks_pages no_filter demo_chain (fun _ => true) 2 2) as [-> _].
  - reflexivity.
  - lia.
  - vm_compute. lia.
  - vm_compute. reflexivity.
Defined.

Lemma stats_fold groups st x :
  counts (foldl (fun st g => mkStats (fun x => if bool_decide (x = g.1) then g.2 else counts st x)
                               (stats_total st + g.2)) st groups) x =
  match List.find (fun g => bool_decide (x = g.1)) (reverse groups) with
  | Some g => g.2
  | None => counts st x
  end.
Proof.
  revert st. induction groups as [|g groups IH] using rev_ind; intros st; [done|].
  rewrite foldl_app. simpl. rewrite reverse_snoc. simpl. by case_bool_decide.
Qed.

Lemma stats_fold_total (groups : list (TaskStatus * nat)) st :
  stats_total (foldl (fun st g => mkStats (fun x => if bool_decide (x = g.1) then g.2 else counts st x)
                                    (stats_total st + g.2)) st groups) =
  stats_total st + sum_list_with snd groups.
Proof. revert st. induction groups as [|g groups IH]; intros st; simpl; [lia|]. rewrite IH. simpl. lia. Qed.

Lemma matched_cons x t l :
  matched (has_status x) (t :: l) = (if bool_decide (status t = x) then 1 else 0) + matched (has_status x) l.
Proof. unfold matched. simpl. unfold has_status at 1. by case_bool_decide. Qed.

Lemma sum_classes_cons ss t l :
  NoDup ss ->
  sum_list_with (fun x => matched (has_status x) (t :: l)) ss =
  sum_list_with (fun x => matched (has_status x) l) ss + (if bool_decide (status t ∈ ss) then 1 else 0).
Proof.
  induction ss as [|x ss IH]; [done|]. intros [Hni Hnd]%NoDup_cons. cbn [sum_list_with].
  rewrite IH, matched_cons by done. clear IH.
  repeat case_bool_decide; try lia; exfalso; set_solver.
Qed.

(** The sizes of the status classes add up. *)
Lemma sum_classes (ss : list TaskStatus) l :
  NoDup ss -> (forall t, t ∈ l -> status t ∈ ss) ->
  sum_list_with (fun x => matched (has_status x) l) ss = length l.
Proof.
  intros Hnd. induction l as [|t l IH]; intros Hall.
  - clear. induction ss as [|x ss IHss]; simpl; [done|]. by rewrite IHss.
  - rewrite sum_classes_cons by done. rewrite bool_decide_eq_true_2 by (apply Hall; left).
    rewrite IH by (intros r Hr; apply Hall; by right). simpl. lia.
Qed.

(** The statistics are the true counts: each status shows the number of
    selected tasks with that status, and the total is the number selected. *)
Theorem get_stats_correct f s pc st :
  project_clause (db s) f = Ok pc -> get_stats f s = Ok st ->
  let sel := where_ (fun t => pc t && when_eq (f_user_id f) (user_id t)) (rows s) in
  stats_total st = length sel /\ forall x, counts st x = matched (has_status x) sel.
Proof.
  intros Hpc. unfold get_stats. rewrite Hpc. cbn [bind]. set (sel := where_ _ (rows s)).
  intros [= <-]. cbv zeta. split.
  - rewrite stats_fold_total. simpl. unfold group_by_status. rewrite <- (sum_classes (remove_dups (map status sel))).
    + induction (remove_dups (map status sel)) as [|x l IH]; simpl; [done|]. by rewrite IH.
    + apply NoDup_remove_dups.
    + intros t Ht. apply elem_of_remove_dups. by apply list_elem_of_In, in_map, list_elem_of_In.
  - intros x. rewrite stats_fold. unfold group_by_status. set (g := fun s => (s, matched (has_status s) sel)).
    destruct (List.find _ _) as [[y k]|] eqn:E.
    + apply find_Some_elem in E as [Hin Hx]. simpl in Hx. to_prop. subst y.
      rewrite elem_of_reverse in Hin. apply list_elem_of_In, in_map_iff in Hin as (z & [= -> <-] & _). done.
    + symmetry. apply where_matched, where_nil. intros t Ht. unfold has_status.
      apply bool_decide_eq_false_2. intros Hx.
      apply (find_None_elem _ _ (g x)) in E; [simpl in E; by to_prop|].
      apply elem_of_reverse, list_elem_of_In, in_map. apply list_elem_of_In, elem_of_remove_dups.
      rewrite <- Hx. by apply list_elem_of_In, in_map, list_elem_of_In.
Qed.

Lemma get_stats_correct_witness :
  exists st, get_stats no_filter demo_running = Ok st /\ stats_total st = 3 /\ counts st queued = 2.
Proof.
  destruct (get_stats no_filter demo_running) as [st|] eqn:E; [|vm_compute in E; discriminate].
  exists st. split; [reflexivity|].
  destruct (get_stats_correct no_filter demo_running (fun _ => true) st) as [Ht Hc].
  - reflexivity.
  - exact E.
  - rewrite Ht, Hc. split; vm_compute; reflexivity.
Defined.
