(* ===== verification/TaskCascade.v ===== *)
(** * Cascading failure and cancellation

    A failed or cancelled task takes the queued tasks that wait for it with
    it, transitively.  The recursions of [_cascade_failed_queued] and
    [_mark_cancelled] are shown to reach exactly the queued descendants:
    every row they change lies below the starting task, and no row they
    change is left with a queued dependent. *)

From S2P Require Import Prelude Json TaskFailure TaskStore TaskRepo Scenario TaskInv TaskOps.
From Stdlib Require Import Relations.

(** ** Descent through queued tasks *)

(** [x] is queued and waits for [p]. *)
Definition queued_child (l : list Task) (p x : string) : Prop :=
  exists t, find_task x l = Some t /\ dependency_task_id t = Some p /\ status t = queued.

(** [x] is below [p] through queued tasks only. *)
Definition queued_below (l : list Task) : string -> string -> Prop := tc (queued_child l).

Lemma queued_dependents_elem id l d :
  NoDup (ids l) -> d ∈ queued_dependents id l <-> queued_child l id d.
Proof.
  intros Hnd. unfold queued_dependents, queued_child. split.
  - intros (t & <- & Ht%list_elem_of_In)%list_elem_of_In%in_map_iff.
    apply elem_of_isort, elem_of_where in Ht as [Hin Hp]. unfold has_status in Hp. to_prop.
    exists t. split; [by apply find_task_elem|done].
  - intros (t & Ht & Hd & Hq). apply find_task_Some in Ht as [Hin <-].
    apply list_elem_of_In, in_map, list_elem_of_In, elem_of_isort, elem_of_where.
    split; [done|]. unfold has_status. by rewrite !bool_decide_eq_true_2.
Qed.

(** ** Rows that only leave the queue *)

Section cascade.
(** How a row looks after it was taken from the queue because of [p]. *)
Context (drop_row : string -> Task -> Task).
Hypothesis drop_id : forall p t, task_id (drop_row p t) = task_id t.
Hypothesis drop_dep : forall p t, dependency_task_id (drop_row p t) = dependency_task_id t.
Hypothesis drop_status : forall p t, status (drop_row p t) <> queued.

Definition crow (t t' : Task) : Prop :=
  t' = t \/ (status t = queued /\ exists p, dependency_task_id t = Some p /\ t' = drop_row p t).

Instance crow_refl : Reflexive crow.
Proof using. by left. Qed.

Instance crow_trans : Transitive crow.
Proof using drop_status.
  intros a b c [->|(Hq & p & Hp & ->)] H2; [done|].
  destruct H2 as [->|(Hq' & _)]; [right; eauto|by apply drop_status in Hq'].
Qed.

Lemma crow_id t t' : crow t t' -> task_id t' = task_id t.
Proof using drop_id. intros [->|(_ & p & _ & ->)]; [done|apply drop_id]. Qed.

Lemma crow_queued t t' : crow t t' -> status t' = queued -> t' = t.
Proof using drop_status. intros [->|(_ & p & _ & ->)] H; [done|]. by apply drop_status in H. Qed.

Lemma crow_changed t t' : crow t t' -> status t = queued -> status t' <> queued -> t' <> t.
Proof using. intros _ H1 H2 ->. congruence. Qed.

Abbreviation crows := (Forall2 crow).

Lemma crows_ids l l' : crows l l' -> ids l' = ids l.
Proof using drop_id.
  induction 1 as [|t t' l l' H _ IH]; [done|]. unfold ids in *. simpl. by rewrite IH, (crow_id _ _ H).
Qed.

Lemma crows_find l l' x :
  crows l l' ->
  match find_task x l, find_task x l' with
  | Some t, Some t' => crow t t'
  | None, None => True
  | _, _ => False
  end.
Proof using drop_id.
  unfold find_task. induction 1 as [|t t' l l' H _ IH]; simpl; [done|].
  change (by_id x t) with (bool_decide (task_id t = x)).
  change (by_id x t') with (bool_decide (task_id t' = x)).
  rewrite (crow_id _ _ H). by case_bool_decide.
Qed.

Lemma crows_matched l l' : crows l l' -> matched (has_status queued) l' <= matched (has_status queued) l.
Proof using drop_status.
  unfold matched. induction 1 as [|t t' l l' H _ IH]; simpl; [done|].
  destruct (has_status queued t') eqn:E.
  - assert (t' = t) as -> by (apply (crow_queued _ _ H); unfold has_status in E; by to_prop).
    rewrite E. simpl. lia.
  - destruct (has_status queued t); simpl; lia.
Qed.

Lemma crows_child l l' p x : crows l l' -> queued_child l' p x -> queued_child l p x.
Proof using drop_id drop_status.
  intros H (t' & Ht' & Hd & Hq). pose proof (crows_find _ _ x H) as Hf. rewrite Ht' in Hf.
  destruct (find_task x l) as [t|] eqn:E; [|done].
  assert (t' = t) as -> by by apply crow_queued. by exists t.
Qed.

Lemma crows_settled l l' d t p :
  crows l l' -> find_task d l = Some t -> status t <> queued -> ~ queued_child l' p d.
Proof using drop_id drop_status.
  intros H Ht Hq (r & Hr & _ & Hrq). pose proof (crows_find _ _ d H) as Hf. rewrite Ht, Hr in Hf.
  by rewrite (crow_queued _ _ Hf Hrq) in Hrq.
Qed.

Lemma crows_below l l' p x : crows l l' -> queued_below l' p x -> queued_below l p x.
Proof using drop_id drop_status.
  intros H. induction 1 as [x y Hc|x y z Hc _ IH].
  - apply tc_once. by eapply crows_child.
  - eapply tc_l; [|done]. by eapply crows_child.
Qed.

(** The row of [x] changed. *)
Definition changed (l l' : list Task) (x : string) : Prop :=
  exists t, find_task x l = Some t /\ find_task x l' <> Some t.

(** A cascade from [id]: rows only leave the queue, only below [id], and
    none that left has a queued dependent any more. *)
Record cascaded (id : string) (l l' : list Task) : Prop := {
  ca_rows : crows l l';
  ca_below : forall x, changed l l' x -> queued_below l id x;
  ca_closed : forall x, changed l l' x -> forall y, ~ queued_child l' x y
}.

Lemma cascaded_refl id l : cascaded id l l.
Proof using. split; [reflexivity|intros x (t & ? & ?); done..]. Qed.

Lemma changed_split l l1 l2 x :
  crows l l1 -> changed l l2 x -> changed l l1 x \/ changed l1 l2 x.
Proof using drop_id drop_status.
  intros H (t & Ht & Hne). pose proof (crows_find _ _ x H) as Hf. rewrite Ht in Hf.
  destruct (find_task x l1) as [t1|] eqn:E; [|done].
  destruct Hf as [->|(Hq & p & Hp & ->)]; [right; by exists t|].
  left. exists t. split; [done|]. rewrite E. intros [= Heq]. rewrite <- Heq in Hq.
  by apply drop_status in Hq.
Qed.

(** Taking [d], a queued child of [id], and then cascading from [d]. *)
Lemma cascaded_step id d l0 l l1 l2 :
  cascaded id l0 l -> queued_child l0 id d ->
  crows l l1 -> (forall x, changed l l1 x -> x = d) ->
  cascaded d l1 l2 -> (forall y, ~ queued_child l2 d y) -> cascaded id l0 l2.
Proof using drop_id drop_status.
  intros [R0 B0 C0] Hd R1 Hone [R2 B2 C2] Hclosed.
  assert (crows l0 l1) as R01 by by etrans. assert (crows l1 l2) as R12 by done.
  assert (crows l l2) as R02 by by etrans. split; [by etrans| |].
  - intros x Hx. apply (changed_split _ _ _ _ R0) in Hx as [Hx|Hx]; [by apply B0|].
    apply (changed_split _ _ _ _ R1) in Hx as [Hx|Hx].
    + rewrite (Hone _ Hx). by apply tc_once.
    + eapply tc_l; [exact Hd|]. eapply crows_below; [exact R01|]. by apply B2.
  - intros x Hx y Hy. apply (changed_split _ _ _ _ R0) in Hx as [Hx|Hx].
    + by eapply (C0 x Hx), crows_child.
    + apply (changed_split _ _ _ _ R1) in Hx as [Hx|Hx].
      * rewrite (Hone _ Hx) in Hy. by eapply Hclosed.
      * by eapply C2.
Qed.

(** Everything below the start has changed. *)
Lemma cascaded_complete id l l' x :
  cascaded id l l' -> (forall y, ~ queued_child l' id y) -> queued_below l id x -> changed l l' x.
Proof using drop_id drop_status.
  intros [R _ C] Hid Hx.
  assert (forall a b, (forall y, ~ queued_child l' a y) -> queued_child l a b -> changed l l' b) as Hstep.
  { intros a b Ha (t & Ht & Hd & Hq). exists t. split; [done|]. intros Ht'. apply (Ha b). by exists t. }
  induction Hx as [a b Hc|a b c Hc _ IH]; [by eapply Hstep|].
  apply IH. apply C. by eapply Hstep.
Qed.

(** What a complete cascade does to each row. *)
Lemma cascaded_rows id l l' x r :
  cascaded id l l' -> (forall y, ~ queued_child l' id y) -> find_task x l = Some r ->
  (queued_below l id x -> exists p, dependency_task_id r = Some p /\ find_task x l' = Some (drop_row p r)) /\
  (~ queued_below l id x -> find_task x l' = Some r).
Proof using drop_id drop_status.
  intros Hc Hcl Hr. pose proof (crows_find _ _ x (ca_rows _ _ _ Hc)) as Hf. rewrite Hr in Hf.
  destruct (find_task x l') as [r'|] eqn:E; [|done]. split; intros Hb.
  - apply (cascaded_complete _ _ _ _ Hc Hcl) in Hb as (r0 & Hr0 & Hne). simplify_eq.
    destruct Hf as [->|(_ & p & Hp & ->)]; [done|]. by exists p.
  - destruct Hf as [->|(Hq & p & Hp & ->)]; [done|]. destruct Hb. apply (ca_below _ _ _ Hc).
    exists r. split; [done|]. rewrite E. intros [= Heq]. by apply (drop_status p r); rewrite Heq.
Qed.

(** The start itself stays as it is when it is not queued. *)
Lemma cascaded_start id l l' t :
  cascaded id l l' -> find_task id l = Some t -> status t <> queued -> find_task id l' = Some t.
Proof using drop_id.
  intros Hc Ht Hq. pose proof (crows_find _ _ id (ca_rows _ _ _ Hc)) as Hf. rewrite Ht in Hf.
  destruct (find_task id l') as [r|]; [|done]. by destruct Hf as [->|(? & _)].
Qed.
End cascade.

#[export] Existing Instance crow_refl.

(** ** Cascading failure *)

(** A row failed by the worker, and a queued row failed because of [p]. *)
Definition failed_row (now : Z) (msg : pystr) (t : Task) : Task :=
  set_updated_at now (set_finished_at (Some now)
    (set_error_message (Some (bound_reason msg _MAX_ERROR_MESSAGE_LEN)) (set_status failed t))).

Definition blocked_row (now : Z) (msg : pystr) (p : string) (t : Task) : Task :=
  failed_row now (_encode_bounded_cascade_failure p msg) t.

Lemma rows_record_row id st s : rows (record_row id st s) = rows s.
Proof. unfold record_row, _record_terminal_event. by repeat case_match. Qed.

(** [fail_row] on a table with a primary key. *)
Lemma fail_row_spec from now id msg s :
  NoDup (ids (rows s)) ->
  match find_task id (rows s) with
  | Some t =>
      if has_status from t
      then (fail_row from now id msg s).1 = 1
           /\ rows (fail_row from now id msg s).2 =
              update_where (fun t => by_id id t && has_status from t) (failed_row now msg) (rows s)
      else fail_row from now id msg s = (0, s)
  | None => fail_row from now id msg s = (0, s)
  end.
Proof.
  intros Hnd. unfold fail_row, sql_update. rewrite matched_by_id by done.
  destruct (find_task id (rows s)) as [t|]; [|done]. destruct (has_status from t); [|done].
  simpl. by rewrite rows_record_row.
Qed.

(** Removing matched rows from a class. *)
Lemma matched_update p q f l :
  (forall t, p t = true -> q t = true) -> (forall t, q (f t) = false) ->
  matched q (update_where p f l) + matched p l = matched q l.
Proof.
  intros Hpq Hf. unfold matched, update_where. induction l as [|t l IH]; simpl; [done|].
  destruct (p t) eqn:E; simpl.
  - rewrite Hf, (Hpq _ E). simpl. lia.
  - destruct (q t); simpl; lia.
Qed.

Lemma Forall2_update (R : Task -> Task -> Prop) p f l :
  (forall t, R t t) -> (forall t, t ∈ l -> p t = true -> R t (f t)) -> Forall2 R l (update_where p f l).
Proof.
  intros Hr H. unfold update_where. induction l as [|t l IH]; simpl; constructor.
  - destruct (p t) eqn:E; [apply H; [left|done]|apply Hr].
  - apply IH. intros x Hx. apply H. by right.
Qed.

Section fail_cascade.
Context (now : Z) (msg : pystr).

Abbreviation blocked := (blocked_row now msg).

(** One dependent: it leaves the queue and nothing else changes. *)
Lemma fail_dependent id d s t :
  NoDup (ids (rows s)) -> find_task d (rows s) = Some t -> status t = queued ->
  dependency_task_id t = Some id ->
  let r := _mark_failed_queued_dep now d (_encode_bounded_cascade_failure id msg) s in
  r.1 = 1 /\ Forall2 (crow blocked) (rows s) (rows r.2)
  /\ (forall x, changed (rows s) (rows r.2) x -> x = d)
  /\ find_task d (rows r.2) = Some (blocked id t)
  /\ matched (has_status queued) (rows r.2) < matched (has_status queued) (rows s).
Proof.
  intros Hnd Ht Hq Hd r. pose proof (fail_row_spec queued now d (_encode_bounded_cascade_failure id msg) s Hnd) as H.
  rewrite Ht in H. assert (has_status queued t = true) as Hh by by apply bool_decide_eq_true_2.
  rewrite Hh in H. destruct H as [H1 H2]. unfold r, _mark_failed_queued_dep. rewrite H1, H2. clear H1 H2 r.
  pose proof (find_task_Some _ _ _ Ht) as [Hin Hid]. split; [done|]. split; [|split; [|split]].
  - apply Forall2_update; [by left|]. intros x Hx E. right. unfold by_id, has_status in E. to_prop.
    split; [done|]. exists id. split; [|done].
    rewrite (NoDup_ids_inj _ _ _ Hnd Hx Hin); [done|congruence].
  - intros x (r & Hr & Hne). rewrite find_update_by_id in Hne by done.
    case_bool_decide; [done|]. congruence.
  - rewrite find_update_by_id, bool_decide_eq_true_2, Ht by done. simpl. by rewrite Hh.
  - pose proof (matched_update (fun t => by_id d t && has_status queued t) (has_status queued)
      (failed_row now (_encode_bounded_cascade_failure id msg)) (rows s)) as Hm. rewrite matched_by_id, Ht, Hh in Hm by done.
    specialize (Hm ltac:(intros x Hx; by to_prop) ltac:(done)). lia.
Qed.

Lemma blocked_id p t : task_id (blocked p t) = task_id t.
Proof. done. Qed.
Lemma blocked_status p t : status (blocked p t) <> queued.
Proof. done. Qed.

Instance blocked_trans : Transitive (crow blocked).
Proof. apply crow_trans, blocked_status. Qed.

(** The loop over the dependents of [id], given the recursive calls. *)
Lemma fail_loop f id l0 deps n s :
  (forall d s, NoDup (ids (rows s)) -> matched (has_status queued) (rows s) < f ->
     cascaded blocked d (rows s) (rows (_cascade_failed_queued f now d msg s).2)
     /\ forall y, ~ queued_child (rows (_cascade_failed_queued f now d msg s).2) d y) ->
  NoDup (ids l0) -> matched (has_status queued) l0 < S f ->
  (forall d, d ∈ deps -> queued_child l0 id d) -> cascaded blocked id l0 (rows s) ->
  let r := foldl (fun '(cascaded, s) dep_id =>
      let blocked := _encode_bounded_cascade_failure id msg in
      let '(affected, s1) := _mark_failed_queued_dep now dep_id blocked s in
      if bool_decide (affected = 0) then (cascaded, s)
      else let '(deeper, s2) := _cascade_failed_queued f now dep_id msg s1 in
           (cascaded + affected + deeper, s2)) (n, s) deps in
  cascaded blocked id l0 (rows r.2) /\ Forall2 (crow blocked) (rows s) (rows r.2)
  /\ forall d, d ∈ deps -> forall p, ~ queued_child (rows r.2) p d.
Proof.
  intros IH Hnd0 Hm0. revert n s. induction deps as [|d deps IHd]; intros n s Hdeps Hc; cbn [foldl].
  { split; [done|]. split; [reflexivity|]. intros d Hd. by apply not_elem_of_nil in Hd. }
  assert (NoDup (ids (rows s))) as Hnd.
  { rewrite (crows_ids blocked blocked_id l0); [done|apply Hc]. }
  destruct (Hdeps d ltac:(left)) as (t0 & Ht0 & Hd0 & Hq0).
  pose proof (crows_find blocked blocked_id _ _ d (ca_rows _ _ _ _ Hc)) as Hf. rewrite Ht0 in Hf.
  destruct (find_task d (rows s)) as [t|] eqn:Et; [|done].
  destruct (decide (status t = queued)) as [Hq|Hq].
  - assert (t = t0) as -> by by apply (crow_queued blocked blocked_status).
    destruct (fail_dependent id d s t0 Hnd Et Hq0 Hd0) as (H1 & H2 & H3 & H4 & H5).
    destruct (_mark_failed_queued_dep _ _ _ _) as [k s1]. cbn [fst snd] in *. subst k. simpl.
    pose proof (crows_matched blocked blocked_status _ _ (ca_rows _ _ _ _ Hc)) as Hle.
    assert (NoDup (ids (rows s1))) as Hnd1 by by rewrite (crows_ids blocked blocked_id _ _ H2).
    destruct (IH d s1 Hnd1 ltac:(lia)) as [Hc1 Hcl].
    destruct (_cascade_failed_queued f now d msg s1) as [m s2]. cbn [snd] in *.
    assert (cascaded blocked id l0 (rows s2)) as Hc2.
    { eapply (cascaded_step blocked blocked_id blocked_status id d l0 (rows s) (rows s1)); try done. by exists t0. }
    destruct (IHd (n + 1 + m) s2) as (HA & HB & HC); [intros; apply Hdeps; by right|done|].
    assert (Forall2 (crow blocked) (rows s1) (rows (foldl _ (n + 1 + m, s2) deps).2)) as HD
      by (etrans; [apply Hc1|exact HB]).
    split; [exact HA|]. split; [by etrans|].
    intros d' [->|Hd']%elem_of_cons; [|by apply HC].
    intros p. by eapply (crows_settled blocked blocked_id blocked_status _ _ _ _ p HD H4).
  - pose proof (fail_row_spec queued now d (_encode_bounded_cascade_failure id msg) s Hnd) as H.
    rewrite Et in H. assert (has_status queued t = false) as Hh by by apply bool_decide_eq_false_2.
    rewrite Hh in H. unfold _mark_failed_queued_dep. rewrite H. simpl.
    destruct (IHd n s) as (HA & HB & HC); [intros; apply Hdeps; by right|done|].
    split; [exact HA|]. split; [exact HB|].
    intros d' [->|Hd']%elem_of_cons; [|by apply HC].
    intros p. by eapply (crows_settled blocked blocked_id blocked_status _ _ _ _ p HB Et).
Qed.

Lemma cascade_failed_spec fuel id s :
  NoDup (ids (rows s)) -> matched (has_status queued) (rows s) < fuel ->
  cascaded blocked id (rows s) (rows (_cascade_failed_queued fuel now id msg s).2)
  /\ forall y, ~ queued_child (rows (_cascade_failed_queued fuel now id msg s).2) id y.
Proof.
  revert id s. induction fuel as [|f IH]; intros id s Hnd Hm; [lia|]. cbn [_cascade_failed_queued].
  destruct (fail_loop f id (rows s) (queued_dependents id (rows s)) 0 s) as (HA & HB & HC); try done.
  - intros d. by apply queued_dependents_elem.
  - apply cascaded_refl.
  - split; [exact HA|]. intros y Hy. eapply HC; [|exact Hy].
    apply queued_dependents_elem; [done|].
    eapply (crows_child blocked blocked_id blocked_status); [exact HB|exact Hy].
Qed.
End fail_cascade.

(** Rows other than [id] are the same, and [id] is queued in neither table. *)
Lemma queued_child_iff id l l' :
  (forall x, x <> id -> find_task x l' = find_task x l) ->
  (forall p, ~ queued_child l p id) -> (forall p, ~ queued_child l' p id) ->
  forall p x, queued_child l' p x <-> queued_child l p x.
Proof.
  intros Hsame H1 H2 p x. destruct (decide (x = id)) as [->|Hne].
  - split; intros H; [by apply H2 in H|by apply H1 in H].
  - unfold queued_child. by rewrite (Hsame _ Hne).
Qed.

Lemma tc_mono {A} (R S : A -> A -> Prop) a x :
  (forall p y, R p y -> S p y) -> tc R a x -> tc S a x.
Proof. intros H. induction 1; [apply tc_once|eapply tc_l]; eauto. Qed.

Lemma queued_below_iff l l' :
  (forall p x, queued_child l' p x <-> queued_child l p x) ->
  forall p x, queued_below l' p x <-> queued_below l p x.
Proof.
  intros H p x. split; apply tc_mono; intros; by apply H.
Qed.

Lemma find_not_queued id l t : find_task id l = Some t -> status t <> queued -> forall p, ~ queued_child l p id.
Proof. intros Ht Hq p (r & Hr & _ & Hrq). congruence. Qed.

Lemma mark_failed_spec now id msg s t :
  NoDup (ids (rows s)) -> find_task id (rows s) = Some t ->
  (status t <> running -> mark_failed now id msg s = (0, s)) /\
  (status t = running ->
   (mark_failed now id msg s).1 = 1 /\
   find_task id (rows (mark_failed now id msg s).2) = Some (failed_row now msg t) /\
   forall x r, x <> id -> find_task x (rows s) = Some r ->
     (queued_below (rows s) id x -> exists p, dependency_task_id r = Some p /\
        find_task x (rows (mark_failed now id msg s).2) = Some (blocked_row now msg p r)) /\
     (~ queued_below (rows s) id x -> find_task x (rows (mark_failed now id msg s).2) = Some r)).
Proof.
  intros Hnd Ht. pose proof (fail_row_spec running now id msg s Hnd) as Hspec. rewrite Ht in Hspec.
  unfold mark_failed, _mark_failed_running. split; intros Hrun.
  { unfold has_status in Hspec. rewrite bool_decide_eq_false_2 in Hspec by done. by rewrite Hspec. }
  unfold has_status in Hspec at 1. rewrite bool_decide_eq_true_2 in Hspec by done.
  destruct (fail_row _ _ _ _ _) as [k s1]. cbn [fst snd] in *. destruct Hspec as [-> Hs1].
  rewrite bool_decide_eq_false_2 by done. cbn [fst snd].
  assert (NoDup (ids (rows s1))) as Hnd1 by by rewrite Hs1, ids_update.
  assert (forall x, x <> id -> find_task x (rows s1) = find_task x (rows s)) as Hsame.
  { intros x Hx. rewrite Hs1, find_update_by_id by done. by rewrite bool_decide_eq_false_2. }
  assert (find_task id (rows s1) = Some (failed_row now msg t)) as Hf1.
  { rewrite Hs1, find_update_by_id, bool_decide_eq_true_2, Ht by done. simpl. unfold has_status.
    by rewrite bool_decide_eq_true_2. }
  pose proof (queued_below_iff _ _ (queued_child_iff id _ _ Hsame
    (find_not_queued _ _ _ Ht ltac:(congruence)) (find_not_queued _ _ _ Hf1 ltac:(done)))) as Hbelow.
  destruct (cascade_failed_spec now msg (cascade_fuel s1) id s1 Hnd1) as [Hc Hcl]; [unfold cascade_fuel; lia|].
  split; [done|]. split.
  - by apply (cascaded_start _ (blocked_id now msg) _ _ _ _ Hc).
  - intros x r Hx Hr. rewrite <- (Hsame x Hx) in Hr. rewrite <- Hbelow.
    by apply (cascaded_rows _ (blocked_id now msg) (blocked_status now msg) _ _ _ _ _ Hc Hcl).
Qed.

(** C5: [mark_failed] fails exactly what must fail: a running task becomes
    failed with its bounded reason, every task that waits for it through
    queued tasks becomes failed with a reason naming the task it waited for,
    and no other row changes.  A task that is not running is left alone and
    the call reports zero rows. *)
Theorem mark_failed_correct now id msg s t :
  NoDup (ids (rows s)) -> find_task id (rows s) = Some t ->
  (status t <> running -> mark_failed now id msg s = (0, s)) /\
  (status t = running ->
   (mark_failed now id msg s).1 = 1 /\
   find_task id (rows (mark_failed now id msg s).2) = Some (failed_row now msg t) /\
   forall x r, x <> id -> find_task x (rows s) = Some r ->
     (queued_below (rows s) id x -> exists p, dependency_task_id r = Some p /\
        find_task x (rows (mark_failed now id msg s).2) = Some (blocked_row now msg p r)) /\
     (~ queued_below (rows s) id x -> find_task x (rows (mark_failed now id msg s).2) = Some r)).
Proof. apply mark_failed_spec. Qed.

Lemma mark_failed_correct_witness :
  exists t3, find_task "t3" (rows demo_running) = Some t3 /\
  find_task "t3" (rows (mark_failed 40 "t1" (u "quota") demo_running).2)
  = Some (blocked_row 40 (u "quota") "t2" t3).
Proof.
  destruct (find_task "t1" (rows demo_running)) as [t1|] eqn:E1; [|vm_compute in E1; discriminate].
  destruct (find_task "t2" (rows demo_running)) as [t2|] eqn:E2; [|vm_compute in E2; discriminate].
  destruct (find_task "t3" (rows demo_running)) as [t3|] eqn:E3; [|vm_compute in E3; discriminate].
  exists t3. split; [reflexivity|].
  destruct (mark_failed_correct 40 "t1" (u "quota") demo_running t1) as [_ H].
  - apply (bool_decide_unpack _); vm_compute; exact I.
  - exact E1.
  - destruct H as (_ & _ & H); [vm_compute in E1; injection E1 as <-; reflexivity|].
    destruct (H "t3" t3) as [Hb _]; [discriminate|exact E3|]. destruct Hb as (p & Hp & Hf).
    + apply (tc_l _ _ "t2").
      * exists t2. split; [exact E2|]. vm_compute in E2. injection E2 as <-. split; reflexivity.
      * apply tc_once. exists t3. split; [exact E3|]. vm_compute in E3. injection E3 as <-. split; reflexivity.
    + rewrite Hf. vm_compute in E3. injection E3 as <-. vm_compute in Hp. injection Hp as <-. reflexivity.
Defined.

(** Every path of the cascade encoder ends in a cascade envelope. *)
Lemma fit_cascade_envelope rounds dep reason budget :
  exists r, fit_cascade rounds dep reason budget = cascade_envelope dep r.
Proof.
  revert reason budget. induction rounds as [|n IH]; intros reason budget; cbn [fit_cascade]; [eauto|].
  case_match; [eauto|]. destruct n; [eauto|apply IH].
Qed.

(** The reason stored for a blocked task fits the column and is still a
    structured cascade reason that names the blocking task, whatever the
    length and contents of the upstream reason; only ends of texts are lost. *)
Theorem stored_cascade_reason dependency reason :
  let stored := bound_reason (_encode_bounded_cascade_failure dependency reason) _MAX_ERROR_MESSAGE_LEN in
  length stored <= _MAX_ERROR_MESSAGE_LEN /\
  exists d r, d `prefix_of` u dependency /\
    parse_failure (Some stored) = Some (_CASCADE_CODE, cascade_params d r).
Proof.
  intros stored. split; [apply bound_reason_length|].
  assert (exists r, _encode_bounded_cascade_failure dependency reason = cascade_envelope (u dependency) r) as [r Hr].
  { unfold _encode_bounded_cascade_failure. case_match; [eauto|apply fit_cascade_envelope]. }
  unfold stored. rewrite Hr.
  destruct (bound_cascade (u dependency) r _MAX_ERROR_MESSAGE_LEN) as (d' & r' & Hd & _ & Hp); [vm_compute; lia|].
  by exists d', r'.
Qed.

(** ** Cascading cancellation *)

Definition cancelled_row (now : Z) (by_ : string) (t : Task) : Task :=
  set_updated_at now (set_finished_at (Some now)
    (set_cancelled_by (Some (coalesce (cancelled_by t) by_)) (set_status cancelled t))).

(** The table after the [UPDATE] of [_mark_cancelled]. *)
Definition cancel_rows (now : Z) (id by_ : string) (l : list Task) : list Task :=
  update_where (fun t => by_id id t && cancellable t) (cancelled_row now by_) l.

Lemma dependents_elem id l d :
  NoDup (ids l) -> d ∈ dependents id l <-> exists t, find_task d l = Some t /\ dependency_task_id t = Some id.
Proof.
  intros Hnd. unfold dependents. split.
  - intros (t & <- & Ht%list_elem_of_In)%list_elem_of_In%in_map_iff.
    apply elem_of_isort, elem_of_where in Ht as [Hin Hp]. to_prop.
    exists t. split; [by apply find_task_elem|done].
  - intros (t & Ht & Hd). apply find_task_Some in Ht as [Hin <-].
    apply list_elem_of_In, in_map, list_elem_of_In, elem_of_isort, elem_of_where.
    split; [done|]. by rewrite !bool_decide_eq_true_2.
Qed.

(** A task that waits for one that has not succeeded was never started. *)
Lemma dependent_not_started s d t id r :
  deps_done s -> find_task d (rows s) = Some t -> dependency_task_id t = Some id ->
  find_task id (rows s) = Some r -> status r <> succeeded -> started (status t) = false.
Proof.
  intros Hd Ht Hdep Hr Hs. destruct (started (status t)) eqn:E; [|done].
  apply find_task_Some in Ht as [Hin _]. specialize (Hd t Hin E). unfold dependency_ok in Hd.
  rewrite Hdep, Hr in Hd. unfold has_status in Hd. by to_prop.
Qed.

Lemma cancel_rows_find now id by_ l t :
  find_task id l = Some t -> cancellable t = true ->
  find_task id (cancel_rows now id by_ l) = Some (cancelled_row now by_ t)
  /\ forall x, x <> id -> find_task x (cancel_rows now id by_ l) = find_task x l.
Proof.
  intros Ht Hc. unfold cancel_rows. split.
  - rewrite find_update_by_id, bool_decide_eq_true_2, Ht by done. simpl. by rewrite Hc.
  - intros x Hx. rewrite find_update_by_id by done. by rewrite bool_decide_eq_false_2.
Qed.

(** One unfolding of [_mark_cancelled] on a row it can cancel. *)
Lemma mark_cancelled_unfold f now id by_ acc s t :
  NoDup (ids (rows s)) -> find_task id (rows s) = Some t -> cancellable t = true ->
  exists acc2 s2, rows s2 = cancel_rows now id by_ (rows s) /\ c_cancelling acc2 = c_cancelling acc
    /\ _mark_cancelled (S f) now id by_ acc s =
       (Some (_task_to_dict (cancelled_row now by_ t)),
        foldl (fun '(a, s) dep_id =>
            _dispatch_cancel (_mark_cancelled f) now (current_status dep_id s) dep_id "cascade" a s)
          (acc2, s2) (dependents id (rows s2)))
    /\ evolves false s s2.
Proof.
  intros Hnd Ht Hc. destruct (cancel_rows_find now id by_ _ _ Ht Hc) as [Hf _].
  exists (add_cancelled (_task_to_dict (cancelled_row now by_ t)) acc),
         (record_row id cancelled (with_rows (cancel_rows now id by_ (rows s)) s)).
  split; [by rewrite rows_record_row|]. split; [done|]. split.
  - cbn [_mark_cancelled]. unfold sql_update. rewrite matched_by_id, Ht, Hc by done.
    rewrite bool_decide_eq_false_2 by done. rewrite rows_with. fold (cancelled_row now by_).
    change (update_where _ _ (rows s)) with (cancel_rows now id by_ (rows s)). by rewrite Hf.
  - apply (evolves_end id cancellable); [done|done| |by rewrite matched_by_id, Ht, Hc].
    intros r Hr. split_and!; [|done|].
    + apply cancellable_cases in Hr as [H'|[H'|H']]; by rewrite H'.
    + apply cancellable_cases in Hr as [H'|[H'|H']]; unfold cancelled_row; solve_row_step.
Qed.

Section cancel_cascade.
Context (now : Z).

(** A queued row cancelled by the cascade. *)
Definition swept (p : string) (t : Task) : Task := cancelled_row now "cascade" t.

Lemma swept_id p t : task_id (swept p t) = task_id t.
Proof. done. Qed.
Lemma swept_status p t : status (swept p t) <> queued.
Proof. done. Qed.
Instance swept_trans : Transitive (crow swept).
Proof. apply crow_trans, swept_status. Qed.

Lemma cancel_dependent id d l t :
  NoDup (ids l) -> find_task d l = Some t -> status t = queued -> dependency_task_id t = Some id ->
  Forall2 (crow swept) l (cancel_rows now d "cascade" l)
  /\ (forall x, changed l (cancel_rows now d "cascade" l) x -> x = d)
  /\ matched (has_status queued) (cancel_rows now d "cascade" l) < matched (has_status queued) l.
Proof.
  intros Hnd Ht Hq Hd. pose proof (find_task_Some _ _ _ Ht) as [Hin Hid].
  assert (cancellable t = true) as Hc by (unfold cancellable, has_status; by rewrite Hq).
  split; [|split].
  - apply Forall2_update; [by left|]. intros x Hx E. right. unfold by_id in E. to_prop.
    assert (x = t) as -> by (apply (NoDup_ids_inj _ _ _ Hnd Hx Hin); congruence). eauto.
  - intros x (r & Hr & Hne). destruct (decide (x = d)); [done|].
    by rewrite (proj2 (cancel_rows_find now d "cascade" _ _ Ht Hc)) in Hne.
  - assert (cancel_rows now d "cascade" l =
            update_where (fun t => by_id d t && has_status queued t) (cancelled_row now "cascade") l) as ->.
    { unfold cancel_rows. apply map_ext_in. intros x Hx%list_elem_of_In. unfold by_id.
      case_bool_decide as E; [|done].
      assert (x = t) as -> by (apply (NoDup_ids_inj _ _ _ Hnd Hx Hin); congruence).
      rewrite Hc. unfold has_status. by rewrite bool_decide_eq_true_2. }
    pose proof (matched_update (fun t => by_id d t && has_status queued t) (has_status queued)
      (cancelled_row now "cascade") l) as Hm.
    specialize (Hm ltac:(by intros x [_ Hx]%andb_true_iff) ltac:(done)).
    assert (has_status queued t = true) as Hh by by apply bool_decide_eq_true_2.
    rewrite matched_by_id, Ht, Hh in Hm by done. lia.
Qed.

(** The loop of [_cascade_cancel_dependents]. *)
Definition cancel_loop (f : nat) (deps : list string) (acc : CancelLists) (s : Session) : CancelLists * Session :=
  foldl (fun '(a, s) dep_id =>
      _dispatch_cancel (_mark_cancelled f) now (current_status dep_id s) dep_id "cascade" a s)
    (acc, s) deps.

(** What [_mark_cancelled] promises on a queued dependent. *)
Definition sweeps (f : nat) : Prop :=
  forall d acc s t, NoDup (ids (rows s)) -> deps_done s -> find_task d (rows s) = Some t -> cancellable t = true ->
    forall by_, matched (has_status queued) (cancel_rows now d by_ (rows s)) < f ->
    let r := _mark_cancelled f now d by_ acc s in
    cascaded swept d (cancel_rows now d by_ (rows s)) (rows r.2.2)
    /\ (forall y, ~ queued_child (rows r.2.2) d y) /\ c_cancelling r.2.1 = c_cancelling acc.

(** A dependent that is not queued was never started: it is skipped. *)
Lemma dispatch_skips f d acc s t id r :
  deps_done s -> find_task d (rows s) = Some t -> status t <> queued ->
  dependency_task_id t = Some id -> find_task id (rows s) = Some r -> status r <> succeeded ->
  let out := _dispatch_cancel (_mark_cancelled f) now (current_status d s) d "cascade" acc s in
  out.2 = s /\ c_cancelling out.1 = c_cancelling acc.
Proof.
  intros Hd Ht Hq Hdep Hr Hs. pose proof (dependent_not_started _ _ _ _ _ Hd Ht Hdep Hr Hs) as Hst.
  unfold current_status, _dispatch_cancel. rewrite Ht. by destruct (status t).
Qed.

Lemma cancel_loop_spec f id c l0 deps acc s :
  sweeps f -> NoDup (ids l0) -> matched (has_status queued) l0 <= f ->
  find_task id l0 = Some c -> status c = cancelled ->
  (forall d, d ∈ deps -> exists t, find_task d l0 = Some t /\ dependency_task_id t = Some id) ->
  deps_done s -> cascaded swept id l0 (rows s) ->
  let r := cancel_loop f deps acc s in
  cascaded swept id l0 (rows r.2) /\ Forall2 (crow swept) (rows s) (rows r.2)
  /\ (forall d, d ∈ deps -> forall p, ~ queued_child (rows r.2) p d) /\ c_cancelling r.1 = c_cancelling acc.
Proof.
  intros IH Hnd0 Hm0 Hid Hcid. unfold cancel_loop. revert acc s.
  induction deps as [|d deps IHd]; intros acc s Hdeps Hdd Hc; cbn [foldl].
  { split; [done|]. split; [reflexivity|]. split; [|done]. intros d Hd. by apply not_elem_of_nil in Hd. }
  assert (NoDup (ids (rows s))) as Hnd.
  { rewrite (crows_ids swept swept_id l0); [done|apply Hc]. }
  destruct (Hdeps d ltac:(left)) as (t0 & Ht0 & Hd0).
  pose proof (crows_find swept swept_id _ _ d (ca_rows _ _ _ _ Hc)) as Hf. rewrite Ht0 in Hf.
  destruct (find_task d (rows s)) as [t|] eqn:Et; [|done].
  destruct (decide (status t = queued)) as [Hq|Hq].
  - assert (t = t0) as -> by by apply (crow_queued swept swept_status).
    destruct (cancel_dependent id d (rows s) t0 Hnd Et Hq Hd0) as (H2 & H3 & H5).
    pose proof (crows_matched swept swept_status _ _ (ca_rows _ _ _ _ Hc)) as Hle.
    assert (cancellable t0 = true) as Hcan by (unfold cancellable, has_status; by rewrite Hq).
    destruct (IH d acc s t0 Hnd Hdd Et Hcan "cascade" ltac:(lia)) as (Hc1 & Hcl & Hlist).
    pose proof (mark_cancelled_evolves f now d "cascade" acc s) as Hev.
    assert (_dispatch_cancel (_mark_cancelled f) now (current_status d s) d "cascade" acc s =
            (_mark_cancelled f now d "cascade" acc s).2) as -> by (unfold current_status; by rewrite Et, Hq).
    destruct (_mark_cancelled f now d "cascade" acc s) as [o [acc2 s2]]. cbn [fst snd] in *.
    assert (cascaded swept id l0 (rows s2)) as Hc2.
    { eapply (cascaded_step swept swept_id swept_status id d l0 (rows s) _); try done. by exists t0. }
    destruct (IHd acc2 s2) as (HA & HB & HC & HD); [intros; apply Hdeps; by right|by eapply evolves_deps|done|].
    assert (Forall2 (crow swept) (cancel_rows now d "cascade" (rows s))
      (rows (foldl (fun '(a, s) dep_id => _dispatch_cancel (_mark_cancelled f) now (current_status dep_id s)
         dep_id "cascade" a s) (acc2, s2) deps).2)) as HE
      by (etrans; [apply Hc1|exact HB]).
    split; [exact HA|]. split; [etrans; [exact H2|exact HE]|]. split; [|congruence].
    intros d' [->|Hd']%elem_of_cons; [|by apply HC]. intros p.
    destruct (cancel_rows_find now d "cascade" _ _ Et Hcan) as [Hfd _].
    by eapply (crows_settled swept swept_id swept_status _ _ _ _ p HE Hfd).
  - assert (find_task id (rows s) = Some c) as Hidc by (apply (cascaded_start swept swept_id _ _ _ _ Hc Hid); congruence).
    assert (dependency_task_id t = Some id) as Hdt by (destruct Hf as [->|(_ & p & _ & ->)]; done).
    destruct (dispatch_skips f d acc s t id c Hdd Et Hq Hdt Hidc ltac:(congruence)) as [H1 H2].
    destruct (_dispatch_cancel _ _ _ _ _ _ _) as [acc2 s2]. cbn [fst snd] in *. subst s2.
    destruct (IHd acc2 s) as (HA & HB & HC & HD); [intros; apply Hdeps; by right|done|done|].
    split; [exact HA|]. split; [exact HB|]. split; [|congruence].
    intros d' [->|Hd']%elem_of_cons; [|by apply HC]. intros p.
    by eapply (crows_settled swept swept_id swept_status _ _ _ _ p HB Et).
Qed.

Lemma mark_cancelled_sweeps f : sweeps f.
Proof.
  induction f as [|f IH]; intros d acc s t Hnd Hdd Ht Hcan by_ Hm; [lia|].
  destruct (mark_cancelled_unfold f now d by_ acc s t Hnd Ht Hcan) as (acc2 & s2 & Hrows & Hacc & Heq & Hev).
  cbv zeta. rewrite Heq. cbn [snd]. change (foldl _ (acc2, s2) ?l) with (cancel_loop f l acc2 s2).
  destruct (cancel_rows_find now d by_ _ _ Ht Hcan) as [Hfd _]. rewrite <- Hrows in *.
  assert (NoDup (ids (rows s2))) as Hnd2 by by rewrite (rows_step_ids _ _ _ (ev_rows _ _ _ Hev)).
  destruct (cancel_loop_spec f d (cancelled_row now by_ t) (rows s2) (dependents d (rows s2)) acc2 s2) as (HA & HB & HC & HD);
    try done; [lia|by intros x Hx; apply dependents_elem|by eapply evolves_deps|apply cascaded_refl|].
  split; [exact HA|]. split; [|congruence]. intros y Hy. eapply HC; [|exact Hy].
  apply dependents_elem; [done|]. apply (crows_child swept swept_id swept_status _ _ _ _ HB) in Hy as (r & Hr & Hd & _).
  by exists r.
Qed.
End cancel_cascade.

(** The rows after a cancellation that starts at a task which can be
    cancelled. *)
Definition cancels (now : Z) (id by_ : string) (t : Task) (l l' : list Task) : Prop :=
  find_task id l' = Some (cancelled_row now by_ t) /\
  forall x r, x <> id -> find_task x l = Some r ->
    (queued_below l id x -> find_task x l' = Some (cancelled_row now "cascade" r)) /\
    (~ queued_below l id x -> find_task x l' = Some r).

(** The rows below [id] are the same whether or not [id] itself is queued. *)
Lemma below_start id l l1 :
  (forall x, x <> id -> find_task x l1 = find_task x l) -> (forall p, ~ queued_child l1 p id) ->
  forall x, x <> id -> queued_below l id x <-> queued_below l1 id x.
Proof.
  intros Hsame Hid.
  assert (forall p x, x <> id -> queued_child l p x <-> queued_child l1 p x) as Hc.
  { intros p x Hx. unfold queued_child. by rewrite (Hsame x Hx). }
  assert (forall p x, queued_child l1 p x -> queued_child l p x) as Hl.
  { intros p x Hp. destruct (decide (x = id)) as [->|Hx]; [by apply Hid in Hp|by apply Hc]. }
  intros x Hx. split.
  - assert (forall a, queued_below l a x -> queued_below l1 a x \/ queued_below l1 id x) as Hgen;
      [|intros Hb; by destruct (Hgen _ Hb)].
    intros a Hb. induction Hb as [a x Hab|a b x Hab _ IH].
    + left. apply tc_once. by apply Hc.
    + destruct (IH Hx) as [Hb|Hb]; [|by right]. destruct (decide (b = id)) as [->|Hne]; [by right|].
      left. eapply tc_l; [|exact Hb]. by apply Hc.
  - by apply tc_mono.
Qed.

Lemma mark_cancelled_cancels fuel now id by_ acc s t :
  NoDup (ids (rows s)) -> deps_done s -> find_task id (rows s) = Some t -> cancellable t = true ->
  matched (has_status queued) (rows s) < fuel ->
  let r := _mark_cancelled fuel now id by_ acc s in
  cancels now id by_ t (rows s) (rows r.2.2) /\ c_cancelling r.2.1 = c_cancelling acc
  /\ r.1 = Some (_task_to_dict (cancelled_row now by_ t)).
Proof.
  intros Hnd Hdd Ht Hcan Hm r. destruct (cancel_rows_find now id by_ _ _ Ht Hcan) as [Hfd Hsame].
  assert (matched (has_status queued) (cancel_rows now id by_ (rows s)) <= matched (has_status queued) (rows s)) as Hle.
  { unfold matched, cancel_rows, update_where. clear. induction (rows s) as [|x l IH]; simpl; [done|].
    destruct (by_id id x && cancellable x); simpl; destruct (has_status queued x); simpl; lia. }
  destruct (mark_cancelled_sweeps now fuel id acc s t Hnd Hdd Ht Hcan by_ ltac:(lia)) as (Hc & Hcl & Hlist).
  fold r in Hc, Hcl, Hlist. split; [|split; [done|]].
  - pose proof (find_not_queued _ _ _ Hfd ltac:(done)) as Hnq. split.
    + by apply (cascaded_start (swept now) (swept_id now) _ _ _ _ Hc).
    + intros x y Hx Hy. rewrite (below_start id _ _ Hsame Hnq x Hx). rewrite <- (Hsame x Hx) in Hy.
      destruct (cascaded_rows _ (swept_id now) (swept_status now) _ _ _ _ _ Hc Hcl Hy) as [HA HB].
      split; [|done]. intros Hb. by destruct (HA Hb) as (p & _ & ->).
  - unfold r. destruct fuel as [|f]; [lia|].
    destruct (mark_cancelled_unfold f now id by_ acc s t Hnd Ht Hcan) as (a2 & s2 & _ & _ & -> & _). done.
Qed.

(** C6: what cancelling one task does, in every case.  A queued task is
    cancelled together with everything that waits for it through queued
    tasks, and nothing else changes; no running task is signalled.  A running
    task is marked for cancellation and reported for the worker to stop; a
    task already being cancelled is left alone; a finished task is reported
    as skipped; an unknown task is an error. *)
Theorem cancel_task_correct now id s :
  NoDup (ids (rows s)) -> deps_done s ->
  match find_task id (rows s) with
  | None => cancel_task now id s = Raise ValueError
  | Some t =>
      exists lists s', cancel_task now id s = Ok (lists, s') /\
      match status t with
      | queued => cancels now id "user" t (rows s) (rows s') /\ c_cancelling lists = []
      | running =>
          lists = mkCancelLists [] [id] [] /\
          rows s' = map (fun x => if bool_decide (task_id x = id)
                                  then set_updated_at now (set_cancelled_by (Some "user") (set_status cancelling t))
                                  else x) (rows s)
      | cancelling => lists = no_lists /\ s' = s
      | _ => lists = mkCancelLists [] [] [_task_to_dict t] /\ s' = s
      end
  end.
Proof.
  intros Hnd Hdd. unfold cancel_task. destruct (find_task id (rows s)) as [t|] eqn:Ht; [|done].
  pose proof (find_task_Some _ _ _ Ht) as [Hin Hid].
  destruct (status t) eqn:Hst; unfold _dispatch_cancel; try (rewrite Ht; by eexists _, _).
  - assert (cancellable t = true) as Hcan by (unfold cancellable, has_status; by rewrite Hst).
    destruct (mark_cancelled_cancels (cascade_fuel s) now id "user" no_lists s t) as (HA & HB & _);
      try done; [unfold cascade_fuel; lia|].
    destruct (_mark_cancelled _ _ _ _ _ _) as [o [a s']]. eexists _, _. split; [done|]. done.
  - assert (has_status running t = true) as Hh by by apply bool_decide_eq_true_2.
    unfold _mark_cancelling, sql_update. rewrite matched_by_id, Ht, Hh by done. simpl.
    eexists _, _. split; [done|]. split; [done|]. rewrite rows_with.
    by apply (update_one id (has_status running)
      (fun t => set_updated_at now (set_cancelled_by (Some "user") (set_status cancelling t)))).
  - by eexists _, _.
Qed.

Lemma demo_running_ok : NoDup (ids (rows demo_running)) /\ deps_done demo_running.
Proof.
  split; [apply (bool_decide_unpack _); vm_compute; exact I|].
  apply (repo_steps_deps demo_fresh); [apply fresh_wf| |intros r Hr; by apply not_elem_of_nil in Hr].
  transitivity demo_chain; [exact demo_chain_reachable|].
  apply (rtc_l _ _ demo_running); [exact (step_claim 10 "video" [] [] demo_chain)|]. apply rtc_refl.
Qed.

Lemma cancel_task_correct_witness :
  exists t2 lists s', find_task "t2" (rows demo_running) = Some t2
    /\ cancel_task 50 "t2" demo_running = Ok (lists, s')
    /\ cancels 50 "t2" "user" t2 (rows demo_running) (rows s') /\ c_cancelling lists = [].
Proof.
  pose proof (cancel_task_correct 50 "t2" demo_running (proj1 demo_running_ok) (proj2 demo_running_ok)) as H.
  destruct (find_task "t2" (rows demo_running)) as [t2|] eqn:E; [|vm_compute in E; discriminate].
  destruct H as (lists & s' & Hc & Hrest). exists t2, lists, s'. split; [reflexivity|]. split; [exact Hc|].
  assert (status t2 = queued) as Hq by (vm_compute in E; injection E as <-; reflexivity).
  rewrite Hq in Hrest. exact Hrest.
Defined.

(** The worker's last word on a cancellation: a task still active becomes
    cancelled with its queued descendants, is counted once, and no running
    dependent is left to signal; a task that has ended is not touched and the
    call reports zero rows. *)
Theorem finalize_cancelled_correct now id by_ s t :
  NoDup (ids (rows s)) -> deps_done s -> find_task id (rows s) = Some t ->
  if is_active (status t)
  then (finalize_cancelled now id by_ s).1 = (1, [])
       /\ cancels now id by_ t (rows s) (rows (finalize_cancelled now id by_ s).2)
  else finalize_cancelled now id by_ s = ((0, []), s).
Proof.
  intros Hnd Hdd Ht. unfold finalize_cancelled.
  assert (cancellable t = is_active (status t)) as Hcan by (unfold cancellable, has_status; by destruct (status t)).
  destruct (is_active (status t)).
  - destruct (mark_cancelled_cancels (cascade_fuel s) now id by_ no_lists s t) as (HA & HB & HC);
      try done; [unfold cascade_fuel; lia|].
    destruct (_mark_cancelled _ _ _ _ _ _) as [o [a s']]. cbn [fst snd] in *. by rewrite HC, HB.
  - unfold cascade_fuel. cbn [_mark_cancelled]. unfold sql_update. by rewrite matched_by_id, Ht, Hcan.
Qed.

Lemma finalize_cancelled_correct_witness :
  (finalize_cancelled 60 "t1" "user" demo_running).1 = (1, []).
Proof.
  destruct (find_task "t1" (rows demo_running)) as [t1|] eqn:E; [|vm_compute in E; discriminate].
  pose proof (finalize_cancelled_correct 60 "t1" "user" demo_running t1 (proj1 demo_running_ok)
    (proj2 demo_running_ok) E) as H.
  assert (is_active (status t1) = true) as Ha by (vm_compute in E; injection E as <-; reflexivity).
  rewrite Ha in H. apply H.
Defined.

(** ** The preview of a cancellation *)

(** Dependencies point to rows stored earlier: a task is enqueued after the
    one it waits for. *)
Definition dep_ordered (l : list Task) : Prop :=
  forall i t, l !! i = Some t -> forall d, dependency_task_id t = Some d ->
  forall j r, l !! j = Some r -> task_id r = d -> j < i.

Definition summary_id (x : string * string * string) : string := x.1.1.

Lemma collect_nsteps f id l x :
  NoDup (ids l) ->
  x ∈ map summary_id (_collect_queued_dependents f id l)
  <-> exists n, 0 < n <= f /\ nsteps (queued_child l) n id x.
Proof.
  intros Hnd. revert id. induction f as [|f IH]; intros id; cbn [_collect_queued_dependents].
  { split; [intros H; by apply not_elem_of_nil in H|intros (n & ? & _); lia]. }
  set (kids := order_asc _ _).
  assert (forall t, t ∈ kids <-> t ∈ l /\ dependency_task_id t = Some id /\ status t = queued) as Hkids.
  { intros t. unfold kids, order_asc. rewrite elem_of_isort, elem_of_where. unfold has_status.
    by rewrite andb_true_iff, !bool_decide_eq_true. }
  assert (forall t, t ∈ kids <-> find_task (task_id t) l = Some t /\ queued_child l id (task_id t)) as Hk.
  { intros t. rewrite Hkids. split.
    - intros (Hin & Hd & Hq). pose proof (find_task_elem _ _ Hnd Hin) as Hf. split; [done|]. by exists t.
    - intros (Hf & r & Hr & Hd & Hq). simplify_eq. apply find_task_Some in Hf as [Hin _]. done. }
  rewrite list_elem_of_In, in_map_iff. setoid_rewrite in_flat_map. split.
  - intros (y & <- & t & Ht%list_elem_of_In & Hy). apply Hk in Ht as [Hf Hc].
    destruct Hy as [<-|Hy]; [exists 1; split; [lia|by apply nsteps_once]|].
    assert (summary_id y ∈ map summary_id (_collect_queued_dependents f (task_id t) l)) as Hin
      by (by apply list_elem_of_In, in_map).
    apply IH in Hin as (n & Hn & Hs). exists (S n). split; [lia|]. by eapply nsteps_l.
  - intros (n & Hn & Hs). destruct n as [|n]; [lia|]. apply nsteps_inv_l in Hs || inv Hs.
    match goal with H : queued_child l id ?y |- _ => rename y into c; rename H into Hc end.
    destruct Hc as (t & Ht & Hd & Hq). pose proof (find_task_Some _ _ _ Ht) as [Hin Hid].
    assert (t ∈ kids) as Htk%list_elem_of_In by by apply Hkids.
    destruct n as [|n].
    + exists (task_id t, task_type t, resource_id t). split; [|exists t; split; [done|by left]].
      match goal with H : nsteps _ 0 _ _ |- _ => inv H end. done.
    + assert (x ∈ map summary_id (_collect_queued_dependents f (task_id t) l)) as Hx.
      { apply IH. exists (S n). split; [lia|]. by rewrite Hid. }
      apply list_elem_of_In, in_map_iff in Hx as (y & Hy & Hiny). exists y. split; [done|].
      exists t. split; [done|]. by right.
Qed.

Lemma nsteps_index l n id x :
  NoDup (ids l) -> dep_ordered l -> nsteps (queued_child l) (S n) id x ->
  exists i t, l !! i = Some t /\ task_id t = x /\ n <= i.
Proof.
  intros Hnd Hord. revert x. induction n as [|n IH]; intros x Hs.
  - inv Hs. match goal with H : nsteps _ 0 _ _ |- _ => inv H end.
    match goal with H : queued_child _ _ _ |- _ => destruct H as (t & Ht & _) end.
    apply find_task_Some in Ht as [[i Hi]%list_elem_of_lookup Hid]. exists i, t. split; [done|]. split; [done|]. lia.
  - apply nsteps_inv_r in Hs as (y & Hs & t & Ht & Hd & _). apply IH in Hs as (j & r & Hj & Hr & Hn).
    apply find_task_Some in Ht as [[i Hi]%list_elem_of_lookup Hid]. exists i, t. split; [done|]. split; [done|].
    pose proof (Hord i t Hi _ Hd j r Hj Hr). lia.
Qed.

(** The preview of a cancellation tells the truth: for a queued task in a
    table whose dependencies point backwards, the tasks announced are exactly
    those the cancellation then takes with it. *)
Theorem cancel_preview_exact now id s t head preview :
  NoDup (ids (rows s)) -> deps_done s -> dep_ordered (rows s) ->
  find_task id (rows s) = Some t -> status t = queued ->
  get_cancel_preview id s = Ok (head, preview) ->
  exists lists s', cancel_task now id s = Ok (lists, s') /\
  forall x r, x <> id -> find_task x (rows s) = Some r ->
    (x ∈ map summary_id preview -> find_task x (rows s') = Some (cancelled_row now "cascade" r)) /\
    (x ∉ map summary_id preview -> find_task x (rows s') = Some r).
Proof.
  intros Hnd Hdd Hord Ht Hq. unfold get_cancel_preview, cancel_task. rewrite Ht, Hq. intros [= <- <-].
  assert (cancellable t = true) as Hcan by (unfold cancellable, has_status; by rewrite Hq).
  destruct (mark_cancelled_cancels (cascade_fuel s) now id "user" no_lists s t) as ([_ HA] & _ & _);
    try done; [unfold cascade_fuel; lia|].
  unfold _dispatch_cancel. destruct (_mark_cancelled _ _ _ _ _ _) as [o [a s']]. cbn [fst snd] in *.
  eexists _, _. split; [done|]. intros x r Hx Hr.
  assert (x ∈ map summary_id (_collect_queued_dependents (S (length (rows s))) id (rows s))
          <-> queued_below (rows s) id x) as ->; [|by apply HA].
  rewrite collect_nsteps by done. unfold queued_below. rewrite tc_nsteps. split.
  - intros (n & [Hn _] & Hs). by exists n.
  - intros (n & Hn & Hs). exists n. split; [|done]. destruct n as [|n]; [lia|].
    destruct (nsteps_index _ _ _ _ Hnd Hord Hs) as (i & y & Hi & _ & Hle).
    apply lookup_lt_Some in Hi. lia.
Qed.

Lemma demo_ordered : dep_ordered (rows demo_running).
Proof.
  intros i t Hi d Hd j r Hj <-.
  assert ((fun t => (task_id t, dependency_task_id t)) <$> rows demo_running
    = [("t1", None); ("t2", Some "t1"); ("t3", Some "t2")]) as Hm by (vm_compute; reflexivity).
  pose proof (list_lookup_fmap (fun t => (task_id t, dependency_task_id t)) (rows demo_running) i) as Ki.
  pose proof (list_lookup_fmap (fun t => (task_id t, dependency_task_id t)) (rows demo_running) j) as Kj.
  rewrite Hm in Ki, Kj. rewrite Hi in Ki. rewrite Hj in Kj. clear Hm Hi Hj. simpl in Ki, Kj. rewrite Hd in Ki.
  destruct i as [|[|[|i]]], j as [|[|[|j]]]; simpl in Ki, Kj; simplify_eq; try lia; congruence.
Qed.

Lemma cancel_preview_exact_witness :
  exists t3 lists s', find_task "t3" (rows demo_running) = Some t3
    /\ cancel_task 50 "t2" demo_running = Ok (lists, s')
    /\ find_task "t3" (rows s') = Some (cancelled_row 50 "cascade" t3).
Proof.
  destruct (find_task "t2" (rows demo_running)) as [t2|] eqn:E2; [|vm_compute in E2; discriminate].
  destruct (find_task "t3" (rows demo_running)) as [t3|] eqn:E3; [|vm_compute in E3; discriminate].
  destruct (cancel_preview_exact 50 "t2" demo_running t2 ("t2", "video", "E1S2", queued) [("t3", "video", "E1S3")]
    (proj1 demo_running_ok) (proj2 demo_running_ok) demo_ordered E2) as (lists & s' & Hc & H).
  - vm_compute in E2. injection E2 as <-. reflexivity.
  - vm_compute. reflexivity.
  - exists t3, lists, s'. split; [reflexivity|]. split; [exact Hc|].
    apply (H "t3" t3); [discriminate|exact E3|left].
Defined.
