(* ===== verification/SlotTable.v ===== *)
(** * Capacity and occupancy: [CapacityTable] and [SlotTable] of
      [lib/generation_worker.py]

    [CapacityTable] maps a provider and a lane to a limit; [SlotTable] records
    which tasks occupy which (provider, lane) bucket.  Dictionaries are
    association lists in insertion order.  A future is a value of an abstract
    type; whether it is done is asked of the event loop ([done]).  The worker
    uses the slot table through the class [SlotLedger]. *)

From S2P Require Import Prelude.

(** ** Capacity *)

Module Capacity.

(** [int(raw)] on a configuration value: absent, not a number, or a number. *)
Inductive int_value := Absent | NotANumber | Number (z : Z).

(** [_read_int_env] *)
Definition _read_int_env (raw : int_value) (dflt minimum : Z) : Z :=
  match raw with
  | Absent | NotANumber => dflt
  | Number v => Z.max minimum v
  end.

(** [_parse_lane_max] *)
Definition _parse_lane_max (raw : int_value) (dflt : Z) : Z :=
  match raw with
  | Absent | NotANumber => dflt
  | Number v => Z.max 0 v
  end.

Record CapacityTable := mkCapacity {
  _limits : list (string * list (string * Z));
  _defaults : list (string * Z)
}.

(** A known provider answers 0 for a lane it does not list; an unknown one
    answers the lane's default. *)
Definition get (t : CapacityTable) (provider_id media_type : string) : Z :=
  match aget provider_id (_limits t) with
  | None => default 0%Z (aget media_type (_defaults t))
  | Some lanes => default 0%Z (aget media_type lanes)
  end.

Definition replace (t : CapacityTable) (new_limits : list (string * list (string * Z))) : CapacityTable :=
  mkCapacity new_limits (_defaults t).

Definition _lane_limits (media_types : list string) (image video audio : Z) : list (string * Z) :=
  [("image", if bool_decide ("image" ∈ media_types) then image else 0%Z);
   ("video", if bool_decide ("video" ∈ media_types) then video else 0%Z);
   ("audio", if bool_decide ("audio" ∈ media_types) then audio else 0%Z)].

(** The fields of [ProviderMeta] the loader reads. *)
Record ProviderMeta := mkMeta {
  media_types : list string;
  default_concurrency : list (string * Z)
}.

Definition _lane_default (meta : ProviderMeta) (lane : string) (global_default : Z) : Z :=
  default global_default (aget lane (default_concurrency meta)).

(** The three environment overrides. *)
Record LaneEnv := mkEnv { env_image : int_value; env_video : int_value; env_audio : int_value }.

Definition image_default (e : LaneEnv) : Z := _read_int_env (env_image e) 5 1.
Definition video_default (e : LaneEnv) : Z := _read_int_env (env_video e) 3 1.
Definition audio_default (e : LaneEnv) : Z := _read_int_env (env_audio e) 10 1.

Definition lane_defaults (e : LaneEnv) : list (string * Z) :=
  [("image", image_default e); ("video", video_default e); ("audio", audio_default e); ("postprocess", 1%Z)].

Definition from_env (registry : list (string * ProviderMeta)) (e : LaneEnv) : CapacityTable :=
  mkCapacity
    (map (fun '(pid, meta) =>
        (pid, _lane_limits (media_types meta)
                (_lane_default meta "image" (image_default e))
                (_lane_default meta "video" (video_default e))
                (_lane_default meta "audio" (audio_default e)))) registry)
    (lane_defaults e).

(** The worker columns of a custom provider and the media types of its
    enabled models. *)
Record CustomProvider := mkCustom {
  custom_id : string;
  custom_media_types : list string;
  image_max_workers : option Z;
  video_max_workers : option Z;
  audio_max_workers : option Z
}.

(** [all_configs.get(provider_id, {}).get(key)] *)
Definition config_value (configs : list (string * list (string * int_value))) (pid key : string) : int_value :=
  default Absent (aget key (default [] (aget pid configs))).

Definition builtin_limits (configs : list (string * list (string * int_value))) (e : LaneEnv)
    (pid : string) (meta : ProviderMeta) : list (string * Z) :=
  _lane_limits (media_types meta)
    (_parse_lane_max (config_value configs pid "image_max_workers") (_lane_default meta "image" (image_default e)))
    (_parse_lane_max (config_value configs pid "video_max_workers") (_lane_default meta "video" (video_default e)))
    (_parse_lane_max (config_value configs pid "audio_max_workers") (_lane_default meta "audio" (audio_default e))).

Definition custom_limits (e : LaneEnv) (p : CustomProvider) : list (string * Z) :=
  _lane_limits (custom_media_types p)
    (default (image_default e) (image_max_workers p))
    (default (video_default e) (video_max_workers p))
    (default (audio_default e) (audio_max_workers p)).

Definition from_db (registry : list (string * ProviderMeta))
    (configs : list (string * list (string * int_value))) (customs : list CustomProvider) (e : LaneEnv)
    : CapacityTable :=
  let limits := foldl (fun l '(pid, meta) => aset pid (builtin_limits configs e pid meta) l) [] registry in
  mkCapacity (foldl (fun l p => aset (custom_id p) (custom_limits e p) l) limits customs) (lane_defaults e).

(** [reload_limits]: a load that fails keeps the table. *)
Definition reload_limits (loaded : option CapacityTable) (t : CapacityTable) : CapacityTable :=
  match loaded with
  | Some new => replace t (_limits new)
  | None => t
  end.

Lemma get_lane_limits mts i v a m :
  default 0%Z (aget m (_lane_limits mts i v a)) =
  if bool_decide (m ∈ mts)
  then (if bool_decide (m = "image") then i else if bool_decide (m = "video") then v
        else if bool_decide (m = "audio") then a else 0)%Z
  else 0%Z.
Proof.
  unfold _lane_limits. cbn [aget].
  destruct (decide (m = "image")) as [->|H1]; [by destruct (bool_decide ("image" ∈ mts))|].
  destruct (decide (m = "video")) as [->|H2]; [by destruct (bool_decide ("video" ∈ mts))|].
  destruct (decide (m = "audio")) as [->|H3]; [by destruct (bool_decide ("audio" ∈ mts))|].
  rewrite !(bool_decide_eq_false_2 (_ = m)), !(bool_decide_eq_false_2 (m = _)) by congruence.
  by case_bool_decide.
Qed.

Lemma aget_fold_custom e customs l pid :
  (forall p, p ∈ customs -> custom_id p <> pid) ->
  aget pid (foldl (fun l p => aset (custom_id p) (custom_limits e p) l) l customs) = aget pid l.
Proof.
  revert l. induction customs as [|c cs IH]; intros l H; simpl; [done|].
  rewrite IH by (intros p Hp; apply H; by right). rewrite aget_aset.
  by rewrite bool_decide_eq_false_2 by (apply H; left).
Qed.

Lemma aget_fold_builtin configs e registry l pid meta :
  NoDup registry.*1 -> (pid, meta) ∈ registry ->
  aget pid (foldl (fun l '(pid, meta) => aset pid (builtin_limits configs e pid meta) l) l registry)
  = Some (builtin_limits configs e pid meta).
Proof.
  revert l. induction registry as [|[p m] r IH]; intros l Hnd Hin; [by apply not_elem_of_nil in Hin|].
  apply NoDup_cons in Hnd as [Hni Hnd]. simpl. apply elem_of_cons in Hin as [[= <- <-]|Hin]; [|by apply IH].
  assert (forall l, pid ∉ r.*1 ->
    aget pid (foldl (fun l '(pid, meta) => aset pid (builtin_limits configs e pid meta) l) l r) = aget pid l) as Hskip.
  { clear. induction r as [|[p m] r IH]; intros l Hni; simpl; [done|].
    rewrite fmap_cons, not_elem_of_cons in Hni. rewrite IH by naive_solver. rewrite aget_aset.
    rewrite bool_decide_eq_false_2; [done|]. simpl in Hni. naive_solver. }
  rewrite Hskip by done. rewrite aget_aset. by rewrite bool_decide_eq_true_2.
Qed.

End Capacity.

(** ** Occupancy *)

Section slots.
Context {Fut : Type}.

Record _Occupant := mkOcc { occ_task : Fut; occ_pending : bool }.

Definition Slots : Type := list ((string * string) * list (string * _Occupant)).

(** [setdefault((provider, media), {})[task_id] = _Occupant(...)] *)
Definition register (provider media task_id : string) (t : Fut) (pending : bool) (s : Slots) : Slots :=
  aset (provider, media) (aset task_id (mkOcc t pending) (default [] (aget (provider, media) s))) s.

Definition promote (provider media task_id : string) (s : Slots) : Slots :=
  match aget (provider, media) s with
  | None => s
  | Some bucket =>
      match aget task_id bucket with
      | Some occ => aset (provider, media) (aset task_id (mkOcc (occ_task occ) false) bucket) s
      | None => s
      end
  end.

Definition release (provider media task_id : string) (s : Slots) : Slots :=
  match aget (provider, media) s with
  | None => s
  | Some bucket =>
      match adel task_id bucket with
      | [] => adel (provider, media) s
      | bucket' => aset (provider, media) bucket' s
      end
  end.

Definition occupied (provider media : string) (s : Slots) : nat :=
  length (default [] (aget (provider, media) s)).

Definition has_room (provider media : string) (capacity : Z) (s : Slots) : bool :=
  if (capacity <=? 0)%Z then false else (Z.of_nat (occupied provider media s) <? capacity)%Z.

Definition occupied_providers (media : string) (s : Slots) : list string :=
  remove_dups (map (fun kb => kb.1.1)
    (where_ (fun kb => bool_decide (kb.1.2 = media) && negb (bool_decide (kb.2.*1 = []))) s)).

Fixpoint find_by_task (task_id : string) (s : Slots) : option Fut :=
  match s with
  | [] => None
  | (_, bucket) :: s' =>
      match aget task_id bucket with
      | Some occ => Some (occ_task occ)
      | None => find_by_task task_id s'
      end
  end.

(** An occupant that [drain_finished] removes. *)
Definition drainable (done : Fut -> bool) (occ : _Occupant) : bool :=
  negb (occ_pending occ) && done (occ_task occ).

Definition drain_finished (done : Fut -> bool) (s : Slots) : list (string * Fut) * Slots :=
  (flat_map (fun kb => map (fun to => (to.1, occ_task to.2)) (where_ (fun to => drainable done to.2) kb.2)) s,
   where_ (fun kb => negb (bool_decide (kb.2.*1 = [])))
     (map (fun kb => (kb.1, where_ (fun to => negb (drainable done to.2)) kb.2)) s)).

Definition active_task_ids (s : Slots) : list string := flat_map (fun kb => kb.2.*1) s.

Definition all_active_tasks (s : Slots) : list Fut := flat_map (fun kb => map (fun to => occ_task to.2) kb.2) s.

Definition clear (s : Slots) : Slots := [].

(** The occupancy as a partial function: what the table means. *)
Definition holder (provider media task_id : string) (s : Slots) : option _Occupant :=
  match aget (provider, media) s with
  | Some bucket => aget task_id bucket
  | None => None
  end.

(** Keys are unique and no bucket is empty. *)
Definition wf_slots (s : Slots) : Prop :=
  NoDup s.*1 /\ Forall (fun kb => kb.2 <> [] /\ NoDup kb.2.*1) s.

Lemma wf_bucket s k b : wf_slots s -> aget k s = Some b -> b <> [] /\ NoDup b.*1.
Proof. intros [_ H] Hg%aget_Some_elem. by eapply Forall_forall in H; [|exact Hg]. Qed.

Lemma aset_Forall {K V} `{EqDecision K} (P : K * V -> Prop) (k : K) (v : V) d :
  Forall P d -> (forall k', k' = k -> P (k', v)) -> Forall P (aset k v d).
Proof.
  intros Hd Hv. induction Hd as [|[k' v'] d Hp Hd IH]; simpl; [by repeat constructor; apply Hv|].
  case_bool_decide; constructor; auto.
Qed.

Lemma wf_aset s k b : wf_slots s -> b <> [] -> NoDup b.*1 -> wf_slots (aset k b s).
Proof.
  intros [H1 H2] Hb Hnd. split; [by apply aset_NoDup|]. by apply aset_Forall.
Qed.

Lemma wf_where s (p : (string * string) * list (string * _Occupant) -> bool) : wf_slots s -> wf_slots (where_ p s).
Proof.
  intros [H1 H2]. split.
  - induction s as [|kb s IH]; simpl; [done|]. apply NoDup_cons in H1 as [Hni H1]. inv H2.
    destruct (p kb); simpl; [|by apply IH]. apply NoDup_cons. split; [|by apply IH].
    intros (x & Hx & [Hin _]%elem_of_where)%list_elem_of_fmap. apply Hni, list_elem_of_fmap. by exists x.
  - apply Forall_forall. intros x [Hx _]%elem_of_where. by eapply Forall_forall in H2.
Qed.

Lemma register_wf p m t f b s : wf_slots s -> wf_slots (register p m t f b s).
Proof.
  intros H. unfold register. apply wf_aset; [done| |].
  - destruct (default [] _) as [|[k v] ?]; simpl; [done|]. by case_bool_decide.
  - apply aset_NoDup. destruct (aget _ s) eqn:E; [by apply (wf_bucket _ _ _ H E)|apply NoDup_nil_2].
Qed.

Lemma promote_wf p m t s : wf_slots s -> wf_slots (promote p m t s).
Proof.
  intros H. unfold promote. destruct (aget (p, m) s) as [b|] eqn:E; [|done].
  destruct (aget t b) as [o|]; [|done]. destruct (wf_bucket _ _ _ H E) as [H1 H2].
  apply wf_aset; [done| |by apply aset_NoDup]. destruct b as [|[k v] b]; [done|]. simpl. by case_bool_decide.
Qed.

Lemma release_wf p m t s : wf_slots s -> wf_slots (release p m t s).
Proof.
  intros H. unfold release. destruct (aget (p, m) s) as [b|] eqn:E; [|done].
  destruct (wf_bucket _ _ _ H E) as [_ H2]. pose proof (adel_NoDup t _ H2) as Hnd.
  destruct (adel t b) as [|x b'] eqn:Eb; [by apply wf_where|by apply wf_aset].
Qed.

Lemma holder_register p m t f b s p' m' t' :
  holder p' m' t' (register p m t f b s) =
  if bool_decide (p = p' /\ m = m' /\ t = t') then Some (mkOcc f b) else holder p' m' t' s.
Proof.
  unfold holder, register. rewrite aget_aset. case_bool_decide as E1; simplify_eq.
  - rewrite aget_aset. repeat case_bool_decide; try naive_solver.
    destruct (aget (p', m') s); naive_solver.
  - rewrite bool_decide_eq_false_2 by naive_solver. done.
Qed.

Lemma holder_release p m t s p' m' t' :
  holder p' m' t' (release p m t s) =
  if bool_decide (p = p' /\ m = m' /\ t = t') then None else holder p' m' t' s.
Proof.
  unfold release. destruct (aget (p, m) s) as [b|] eqn:E.
  - destruct (decide ((p, m) = (p', m'))) as [Heq|Hne].
    + simplify_eq. transitivity (aget t' (adel t b)).
      { unfold holder. destruct (adel t b) eqn:Eb; rewrite ?aget_adel, ?aget_aset;
          by rewrite bool_decide_eq_true_2. }
      rewrite aget_adel. unfold holder. rewrite E. destruct (decide (t = t')) as [->|Ht].
      * by rewrite !bool_decide_eq_true_2.
      * rewrite !bool_decide_eq_false_2 by naive_solver. done.
    + rewrite bool_decide_eq_false_2 by naive_solver. unfold holder.
      destruct (adel t b) eqn:Eb; rewrite ?aget_adel, ?aget_aset; by rewrite bool_decide_eq_false_2.
  - case_bool_decide as E1; [|done]. destruct E1 as (-> & -> & ->). unfold holder. by rewrite E.
Qed.

Lemma holder_promote p m t s p' m' t' :
  holder p' m' t' (promote p m t s) =
  if bool_decide (p = p' /\ m = m' /\ t = t')
  then (fun o => mkOcc (occ_task o) false) <$> holder p' m' t' s else holder p' m' t' s.
Proof.
  unfold promote, holder. destruct (aget (p, m) s) as [b|] eqn:E.
  - destruct (aget t b) as [o|] eqn:Eo.
    + rewrite aget_aset. case_bool_decide as E1; simplify_eq.
      * rewrite aget_aset, E. repeat case_bool_decide; simplify_eq; try naive_solver. by rewrite Eo.
      * rewrite bool_decide_eq_false_2 by naive_solver. done.
    + case_bool_decide as E1; [|done]. destruct E1 as (-> & -> & ->). by rewrite E, Eo.
  - case_bool_decide as E1; [|done]. destruct E1 as (-> & -> & ->). by rewrite E.
Qed.

(** *** Draining *)

Lemma aget_map_values {K V W} `{EqDecision K} (f : V -> W) (k : K) (d : list (K * V)) :
  aget k (map (fun kv => (kv.1, f kv.2)) d) = f <$> aget k d.
Proof. induction d as [|[k' v] d IH]; simpl; [done|]. by case_bool_decide. Qed.

Lemma aget_where {K V} `{EqDecision K} (p : K * V -> bool) (k : K) (d : list (K * V)) :
  NoDup d.*1 ->
  aget k (where_ p d) = match aget k d with Some v => if p (k, v) then Some v else None | None => None end.
Proof.
  induction d as [|[k' v] d IH]; simpl; [done|]. intros [Hni Hnd]%NoDup_cons. specialize (IH Hnd).
  destruct (decide (k' = k)) as [->|Hne].
  - rewrite (bool_decide_eq_true_2 (k = k)) by done. destruct (p (k, v)) eqn:E; simpl.
    + by rewrite bool_decide_eq_true_2.
    + rewrite IH. apply aget_None in Hni. by rewrite Hni.
  - rewrite (bool_decide_eq_false_2 (k' = k)) by done. destruct (p (k', v)); simpl; [|done].
    by rewrite bool_decide_eq_false_2.
Qed.

Lemma holder_drain done s p m t :
  wf_slots s ->
  holder p m t (drain_finished done s).2 =
  match holder p m t s with
  | Some o => if drainable done o then None else Some o
  | None => None
  end.
Proof.
  intros Hwf. pose proof Hwf as [Hk Hb]. unfold drain_finished, holder. cbn [snd].
  rewrite aget_where.
  - rewrite aget_map_values. destruct (aget (p, m) s) as [b|] eqn:E; simpl; [|reflexivity].
    destruct (wf_bucket _ _ _ Hwf E) as [_ Hnd].
    pose proof (aget_where (fun to => negb (drainable done to.2)) t b Hnd) as Hg.
    transitivity (aget t (where_ (fun to => negb (drainable done to.2)) b)).
    + destruct (where_ _ b) as [|x l]; reflexivity.
    + rewrite Hg. destruct (aget t b) as [o|]; [|reflexivity]. simpl. by destruct (drainable done o).
  - assert ((map (fun kb => (kb.1, where_ (fun to => negb (drainable done to.2)) kb.2)) s).*1 = s.*1) as ->; [|done].
    clear. induction s as [|kb s IH]; csimpl; [done|]. by rewrite IH.
Qed.

Lemma drain_wf done s : wf_slots s -> wf_slots (drain_finished done s).2.
Proof.
  intros [Hk Hb]. unfold drain_finished. cbn [snd]. split.
  - induction s as [|[k b] s IH]; simpl; [done|]. apply NoDup_cons in Hk as [Hni Hk]. inv Hb.
    case_bool_decide; simpl; [by apply IH|]. apply NoDup_cons. split; [|by apply IH].
    intros ([k1 b1] & Hx & [Hin _]%elem_of_where)%list_elem_of_fmap. simpl in Hx. subst k1.
    apply list_elem_of_In, in_map_iff in Hin as ([k2 b2] & [= -> <-] & Hin%list_elem_of_In).
    apply Hni, list_elem_of_fmap. by exists (k, b2).
  - apply Forall_forall. intros [k b] [Hin Hne]%elem_of_where. simpl in *. to_prop.
    apply list_elem_of_In, in_map_iff in Hin as ([k2 b2] & [= -> <-] & Hin%list_elem_of_In).
    eapply Forall_forall in Hb as [_ Hnd]; [|exact Hin]. simpl in *. split; [intros Hw; apply Hne; by rewrite Hw|].
    clear Hne Hin. induction b2 as [|x b2 IH]; simpl; [done|]. apply NoDup_cons in Hnd as [Hni Hnd].
    destruct (drainable done x.2); simpl; [by apply IH|]. apply NoDup_cons. split; [|by apply IH].
    intros (y & Hy & [Hin _]%elem_of_where)%list_elem_of_fmap. apply Hni, list_elem_of_fmap. by exists y.
Qed.

Lemma drained_spec done s t f :
  wf_slots s ->
  (t, f) ∈ (drain_finished done s).1
  <-> exists p m o, holder p m t s = Some o /\ drainable done o = true /\ occ_task o = f.
Proof.
  intros Hwf. pose proof Hwf as [Hk Hb]. unfold drain_finished. cbn [fst].
  rewrite list_elem_of_In, in_flat_map. split.
  - intros ([[p m] b] & Hin%list_elem_of_In & ([t' o] & [= -> <-] & Ho%list_elem_of_In)%in_map_iff). simpl in *.
    apply elem_of_where in Ho as [Ho Hd]. exists p, m, o. split; [|done]. unfold holder.
    rewrite (aget_elem _ _ _ Hk Hin). apply aget_elem; [|done].
    eapply Forall_forall in Hb as [_ Hnd]; [|exact Hin]. done.
  - intros (p & m & o & Hh & Hd & <-). unfold holder in Hh. destruct (aget (p, m) s) as [b|] eqn:E; [|done].
    exists ((p, m), b). split; [by apply list_elem_of_In, aget_Some_elem|]. apply in_map_iff.
    exists (t, o). split; [done|]. by apply list_elem_of_In, elem_of_where, conj; [apply aget_Some_elem|].
Qed.

(** *** Counting *)

Lemma occupied_register p m t f b s p' m' :
  occupied p' m' (register p m t f b s) =
  occupied p' m' s + (if bool_decide (p = p' /\ m = m') then match holder p m t s with Some _ => 0 | None => 1 end else 0).
Proof.
  unfold occupied, register, holder. rewrite aget_aset. case_bool_decide as E; simplify_eq; simpl.
  - rewrite length_aset. rewrite bool_decide_eq_true_2 by done. by destruct (aget (p', m') s).
  - rewrite bool_decide_eq_false_2 by naive_solver. lia.
Qed.

Lemma occupied_drain done s p m : wf_slots s -> occupied p m (drain_finished done s).2 <= occupied p m s.
Proof.
  intros [Hk _]. unfold occupied, drain_finished. cbn [snd]. rewrite aget_where.
  - rewrite aget_map_values. destruct (aget (p, m) s) as [b|]; simpl; [|lia].
    pose proof (where_length_le (fun to : string * _Occupant => negb (drainable done to.2)) b).
    destruct (negb _); simpl; lia.
  - assert ((map (fun kb => (kb.1, where_ (fun to => negb (drainable done to.2)) kb.2)) s).*1 = s.*1) as ->; [|done].
    clear. induction s as [|kb s IH]; csimpl; [done|]. by rewrite IH.
Qed.

Lemma occupied_pos p m s : 0 < occupied p m s <-> exists t o, holder p m t s = Some o.
Proof.
  unfold occupied, holder. destruct (aget (p, m) s) as [b|]; simpl; [|split; [lia|by intros (? & ? & ?)]].
  destruct b as [|[t o] b]; simpl; [split; [lia|by intros (? & ? & ?)]|]. split; [|lia].
  intros _. exists t, o. by rewrite bool_decide_eq_true_2.
Qed.

Lemma occupied_providers_spec p m s : wf_slots s -> p ∈ occupied_providers m s <-> 0 < occupied p m s.
Proof.
  intros [Hk Hb]. unfold occupied_providers, occupied. rewrite elem_of_remove_dups, list_elem_of_In, in_map_iff. split.
  - intros ([[p' m'] b] & <- & Hin%list_elem_of_In). apply elem_of_where in Hin as [Hin Hc]. simpl in *. to_prop. subst m'.
    rewrite (aget_elem _ _ _ Hk Hin). simpl. destruct b; [done|simpl; lia].
  - destruct (aget (p, m) s) as [b|] eqn:E; simpl; [|lia]. intros Hpos. exists ((p, m), b). split; [done|].
    apply list_elem_of_In, elem_of_where. split; [by apply aget_Some_elem|]. simpl.
    rewrite bool_decide_eq_true_2 by done. by destruct b; simpl in *; [lia|].
Qed.

Lemma find_by_task_Some t s f :
  wf_slots s -> find_by_task t s = Some f -> exists p m o, holder p m t s = Some o /\ occ_task o = f.
Proof.
  intros [Hk _] H.
  assert (exists k b o, (k, b) ∈ s /\ aget t b = Some o /\ occ_task o = f) as ([p m] & b & o & Hin & Ho & Hf).
  { clear Hk. induction s as [|[k b] s IH]; simpl in *; [done|]. destruct (aget t b) as [o|] eqn:E.
    - injection H as <-. exists k, b, o. split; [left|done].
    - apply IH in H as (k' & b' & o & Hin & H). exists k', b', o. split; [by right|done]. }
  exists p, m, o. split; [|done]. unfold holder. by rewrite (aget_elem _ _ _ Hk Hin).
Qed.

Lemma find_by_task_None t s p m : find_by_task t s = None -> holder p m t s = None.
Proof.
  intros H. unfold holder. destruct (aget (p, m) s) as [b|] eqn:E; [|done].
  apply aget_Some_elem in E. revert H. induction s as [|[k' b'] s IH]; simpl; [by apply not_elem_of_nil in E|].
  apply elem_of_cons in E as [[= <- <-]|E]; [by destruct (aget t b)|].
  destruct (aget t b'); [done|]. by apply IH.
Qed.
End slots.
Arguments _Occupant : clear implicits.
Arguments Slots : clear implicits.

(** ** What the worker relies on *)

Class SlotLedger (T Fut : Type) := {
  sl_wf : T -> Prop;
  sl_register : string -> string -> string -> Fut -> bool -> T -> T;
  sl_occupied : string -> string -> T -> nat;
  sl_providers : string -> T -> list string;
  sl_register_wf p m t f b s : sl_wf s -> sl_wf (sl_register p m t f b s);
  sl_register_occupied p m t f b s p' m' :
    sl_occupied p' m' (sl_register p m t f b s)
    <= sl_occupied p' m' s + (if bool_decide (p = p' /\ m = m') then 1 else 0);
  sl_register_mono p m t f b s p' m' : sl_occupied p' m' s <= sl_occupied p' m' (sl_register p m t f b s);
  sl_providers_spec p m s : sl_wf s -> p ∈ sl_providers m s <-> 0 < sl_occupied p m s
}.

#[export, refine] Instance slots_ledger Fut : SlotLedger (Slots Fut) Fut := {
  sl_wf := wf_slots;
  sl_register := register;
  sl_occupied := occupied;
  sl_providers := occupied_providers
}.
Proof.
  - intros. by apply register_wf.
  - intros. rewrite occupied_register. repeat case_match; lia.
  - intros. rewrite occupied_register. lia.
  - intros. by apply occupied_providers_spec.
Defined.

(** [SlotTable.has_room] for any ledger. *)
Definition sl_has_room {T Fut} `{SlotLedger T Fut} (provider media : string) (capacity : Z) (s : T) : bool :=
  if (capacity <=? 0)%Z then false else (Z.of_nat (sl_occupied provider media s) <? capacity)%Z.

(** [GenerationWorker._pool_full_providers] *)
Definition _pool_full_providers {T Fut} `{SlotLedger T Fut} (cap : Capacity.CapacityTable) (media : string) (s : T)
    : list string :=
  where_ (fun pid => (0 <? Capacity.get cap pid media)%Z && negb (sl_has_room pid media (Capacity.get cap pid media) s))
    (sl_providers media s).

(** ** Theorems *)

(** One call on the table. *)
Inductive slot_op (Fut : Type) :=
| ORegister (provider media task_id : string) (t : Fut) (pending : bool)
| OPromote (provider media task_id : string)
| ORelease (provider media task_id : string)
| ODrain (done : Fut -> bool)
| OClear.
Arguments ORegister {Fut}. Arguments OPromote {Fut}. Arguments ORelease {Fut}.
Arguments ODrain {Fut}. Arguments OClear {Fut}.

Definition run_op {Fut} (o : slot_op Fut) (s : Slots Fut) : Slots Fut :=
  match o with
  | ORegister p m t f b => register p m t f b s
  | OPromote p m t => promote p m t s
  | ORelease p m t => release p m t s
  | ODrain done => (drain_finished done s).2
  | OClear => clear s
  end.

(** The abstract ledger: a partial function from (provider, lane, task). *)
Definition ledger (Fut : Type) : Type := string -> string -> string -> option (_Occupant Fut).

Definition run_spec {Fut} (o : slot_op Fut) (l : ledger Fut) : ledger Fut :=
  fun p' m' t' =>
  match o with
  | ORegister p m t f b => if bool_decide (p = p' /\ m = m' /\ t = t') then Some (mkOcc f b) else l p' m' t'
  | OPromote p m t => if bool_decide (p = p' /\ m = m' /\ t = t')
                      then (fun o => mkOcc (occ_task o) false) <$> l p' m' t' else l p' m' t'
  | ORelease p m t => if bool_decide (p = p' /\ m = m' /\ t = t') then None else l p' m' t'
  | ODrain done => match l p' m' t' with
                   | Some o => if drainable done o then None else Some o
                   | None => None
                   end
  | OClear => None
  end.

(** Two ledgers that agree everywhere. *)
Definition ledger_eq {Fut} (l l' : ledger Fut) : Prop := forall p m t, l p m t = l' p m t.

#[export] Instance ledger_eq_equiv Fut : Equivalence (@ledger_eq Fut).
Proof.
  split; [by intros l p m t|by intros l l' H p m t|].
  intros l l' l'' H1 H2 p m t. by rewrite H1.
Qed.

#[export] Instance run_spec_proper Fut (o : slot_op Fut) : Proper (ledger_eq ==> ledger_eq) (run_spec o).
Proof. intros l l' H p m t. destruct o; simpl; by rewrite ?H. Qed.

Lemma run_op_wf {Fut} (o : slot_op Fut) s : wf_slots s -> wf_slots (run_op o s).
Proof.
  destruct o; simpl; intros H; [by apply register_wf|by apply promote_wf|by apply release_wf|by apply drain_wf|].
  split; [apply NoDup_nil_2|by apply Forall_nil].
Qed.

Lemma run_op_refines {Fut} (o : slot_op Fut) s :
  wf_slots s -> ledger_eq (fun p m t => holder p m t (run_op o s)) (run_spec o (fun p m t => holder p m t s)).
Proof.
  intros Hwf p m t. destruct o; simpl;
    [apply holder_register|apply holder_promote|apply holder_release|by apply holder_drain|done].
Qed.

(** C12: the slot table implements the abstract ledger: after any sequence of
    register, promote, release, drain and clear, every (provider, lane, task)
    holds exactly what the ledger says, keys stay unique and no empty bucket
    is left behind. *)
Theorem slot_table_refines Fut (ops : list (slot_op Fut)) s :
  wf_slots s ->
  wf_slots (foldl (fun s o => run_op o s) s ops)
  /\ ledger_eq (fun p m t => holder p m t (foldl (fun s o => run_op o s) s ops))
       (foldl (fun l o => run_spec o l) (fun p m t => holder p m t s) ops).
Proof.
  revert s. induction ops as [|o ops IH]; intros s Hwf; simpl; [done|].
  destruct (IH (run_op o s) (run_op_wf o s Hwf)) as [Hw He]. split; [done|]. rewrite He.
  assert (forall l l' : ledger Fut, ledger_eq l l' ->
    ledger_eq (foldl (fun l o => run_spec o l) l ops) (foldl (fun l o => run_spec o l) l' ops)) as Hfold.
  { clear. induction ops as [|o ops IH]; intros l l' H; simpl; [done|]. apply IH. by rewrite H. }
  apply Hfold. by apply run_op_refines.
Qed.

Lemma slot_table_refines_witness :
  let ops := [ORegister "ark" "video" "t1" 1 true; OPromote "ark" "video" "t1"; ODrain (fun n => bool_decide (n = 1))] in
  wf_slots (@nil ((string * string) * list (string * _Occupant nat)))
  /\ wf_slots (foldl (fun s o => run_op o s) [] ops).
Proof.
  intros ops. assert (wf_slots (@nil ((string * string) * list (string * _Occupant nat)))) as Hwf.
  { split; [apply NoDup_nil_2|apply Forall_nil; exact I]. }
  split; [exact Hwf|]. exact (proj1 (slot_table_refines nat ops [] Hwf)).
Defined.

(** Draining takes out exactly the finished tasks: the pairs returned are
    the occupants that are done and not pending, each removed; pending and
    unfinished occupants stay; and a lane counts as occupied exactly when
    some task holds a slot in it. *)
Theorem drain_finished_correct Fut (done : Fut -> bool) (s : Slots Fut) :
  wf_slots s ->
  (forall t f, (t, f) ∈ (drain_finished done s).1 <->
     exists p m o, holder p m t s = Some o /\ drainable done o = true /\ occ_task o = f)
  /\ (forall p m t, holder p m t (drain_finished done s).2 =
        match holder p m t s with
        | Some o => if drainable done o then None else Some o
        | None => None
        end)
  /\ forall p m, p ∈ occupied_providers m (drain_finished done s).2 <->
        exists t o, holder p m t s = Some o /\ drainable done o = false.
Proof.
  intros Hwf. split; [by intros; apply drained_spec|]. split; [by intros; apply holder_drain|].
  intros p m. rewrite occupied_providers_spec, occupied_pos by by apply drain_wf. split.
  - intros (t & o & H). rewrite holder_drain in H by done. exists t, o.
    destruct (holder p m t s) as [o'|]; [|done]. destruct (drainable done o') eqn:E; [done|].
    by simplify_eq.
  - intros (t & o & H & Hd). exists t, o. rewrite holder_drain by done. by rewrite H, Hd.
Qed.

Lemma drain_finished_correct_witness :
  let s := register "ark" "video" "t2" 2 true (register "ark" "video" "t1" 1 false []) in
  wf_slots s /\ ("t1", 1) ∈ (drain_finished (fun _ => true) s).1
  /\ "ark" ∈ occupied_providers "video" (drain_finished (fun _ => true) s).2.
Proof.
  intros s. assert (wf_slots s) as Hwf.
  { apply register_wf, register_wf. split; [apply NoDup_nil_2|apply Forall_nil; exact I]. }
  split; [exact Hwf|].
  destruct (drain_finished_correct nat (fun _ => true) s Hwf) as (H1 & _ & H3). split.
  - apply H1. exists "ark", "video", (mkOcc 1 false). split; [|split]; reflexivity.
  - apply H3. exists "t2", (mkOcc 2 true). split; reflexivity.
Defined.

(** The limits loaded from the database never lend a lane to a provider
    that does not support it, honour a configured number of workers (a
    negative one closing the lane), and otherwise fall back to the declared
    default of the provider and then to the global one. *)
Theorem capacity_from_db_lane registry configs customs e pid meta m key :
  NoDup registry.*1 -> (pid, meta) ∈ registry ->
  (forall c, c ∈ customs -> Capacity.custom_id c <> pid) ->
  (m, key) ∈ [("image", "image_max_workers"); ("video", "video_max_workers"); ("audio", "audio_max_workers")] ->
  Capacity.get (Capacity.from_db registry configs customs e) pid m =
  if bool_decide (m ∈ Capacity.media_types meta) then
    match Capacity.config_value configs pid key with
    | Capacity.Number z => Z.max 0 z
    | _ => Capacity._lane_default meta m
             (default 0%Z (aget m (Capacity.lane_defaults e)))
    end
  else 0%Z.
Proof.
  intros Hnd Hin Hc Hm. unfold Capacity.get, Capacity.from_db. cbn [Capacity._limits].
  rewrite Capacity.aget_fold_custom by done. rewrite (Capacity.aget_fold_builtin _ _ _ _ _ meta) by done.
  unfold Capacity.builtin_limits. rewrite Capacity.get_lane_limits. case_bool_decide; [|done].
  rewrite !elem_of_cons in Hm.
  destruct Hm as [[= -> ->]|[[= -> ->]|[[= -> ->]|Hm]]]; [..|by apply not_elem_of_nil in Hm];
    simpl; unfold Capacity._parse_lane_max; by destruct (Capacity.config_value configs pid _).
Qed.

Lemma capacity_from_db_lane_witness :
  Capacity.get (Capacity.from_db [("ark", Capacity.mkMeta ["video"] [("video", 4%Z)])]
    [("ark", [("video_max_workers", Capacity.Number (-2))])] []
    (Capacity.mkEnv Capacity.Absent Capacity.Absent Capacity.Absent)) "ark" "video" = 0%Z.
Proof.
  rewrite (capacity_from_db_lane _ _ _ _ "ark" (Capacity.mkMeta ["video"] [("video", 4%Z)]) "video" "video_max_workers").
  - reflexivity.
  - apply NoDup_singleton.
  - left.
  - intros c Hc. exfalso. exact (not_elem_of_nil _ Hc).
  - right. left.
Defined.

(** The blacklist of full providers is exact for the lanes that are open:
    a provider is skipped by the claim exactly when it has a positive limit
    and its occupancy has reached it; a provider whose lane is closed is
    never hidden this way. *)
Theorem pool_full_exact {T Fut} `{SlotLedger T Fut} cap media (s : T) pid :
  sl_wf s ->
  pid ∈ _pool_full_providers cap media s
  <-> (0 < Capacity.get cap pid media <= Z.of_nat (sl_occupied pid media s))%Z.
Proof.
  intros Hwf. unfold _pool_full_providers. rewrite elem_of_where, sl_providers_spec by done.
  unfold sl_has_room. rewrite andb_true_iff, negb_true_iff, Z.ltb_lt. split.
  - intros (Hocc & Hpos & Hroom). rewrite (proj2 (Z.leb_gt _ _) Hpos) in Hroom. apply Z.ltb_ge in Hroom. lia.
  - intros [Hpos Hle]. rewrite (proj2 (Z.leb_gt _ _) Hpos), (proj2 (Z.ltb_ge _ _) Hle). split_and!; lia || done.
Qed.

Lemma pool_full_exact_witness :
  let s := register "ark" "video" "t1" 1 false [] in
  let cap := Capacity.mkCapacity [("ark", [("video", 1%Z)])] [] in
  "ark" ∈ _pool_full_providers cap "video" s.
Proof.
  intros s cap. apply (pool_full_exact cap "video" s "ark").
  - apply register_wf. split; [apply NoDup_nil_2|apply Forall_nil; exact I].
  - vm_compute. split; [reflexivity|discriminate].
Defined.
