(* ===== verification/Checkpoint.v ===== *)
(** * Submission checkpoints of video jobs

    [lib/free_video_checkpoint.py] and the loading side of
    [lib/reference_video/execution_checkpoint.py]: what a restarted worker may
    conclude from the checkpoint and the job id a task row carries.  The two
    [from_json] constructors of the storyboard and reference checkpoints are
    arguments; they yield the coordinates and the provider the checkpoint
    fixes. *)

From S2P Require Import Prelude Json TaskFailure TaskStore TaskRepo.

Inductive VideoResumeState := NO_CHECKPOINT_NO_JOB | CHECKPOINT_WITHOUT_JOB | READY | IDENTITY_UNRECOVERABLE.

(** [raw not in (None, "")] *)
Definition present (x : option pystr) : bool :=
  match x with Some (_ :: _) => true | _ => false end.

(** The classification both routes share; [load] parses the stored checkpoint
    and yields what it fixes, or nothing when it does not match the row. *)
Definition classify_resume_state {C} (load : Task -> option C) (t : Task) : VideoResumeState * option C :=
  let has_checkpoint := present (execution_checkpoint_json t) in
  let has_job := truthy (provider_job_id t) in
  if negb has_job then (if has_checkpoint then CHECKPOINT_WITHOUT_JOB else NO_CHECKPOINT_NO_JOB, None)
  else if negb has_checkpoint then (IDENTITY_UNRECOVERABLE, None)
  else match load t with
       | Some c => (READY, Some c)
       | None => (IDENTITY_UNRECOVERABLE, None)
       end.

(** [value == text] for a decoded value. *)
Definition is_text (s : pystr) (v : option json) : bool :=
  match v with Some (JStr x) => bool_decide (x = s) | _ => false end.

(** ** Free videos *)

Definition FREE_VIDEO_CHECKPOINT_KIND : pystr := u "free_video_submit".

Definition _Fields : list pystr := map u [
  "kind"; "schema_version"; "task_id"; "project_name"; "unit_id"; "capability"; "provider_id";
  "provider_model_id"; "backend_model_id"; "endpoint_guard"; "prompt"; "duration_seconds";
  "aspect_ratio"; "resolution"; "generate_audio"; "output_type"; "parent_creation_id"; "api_call_id"].

(** The arguments of [build_free_video_checkpoint]. *)
Record FreeVideoFacts := mkFreeVideo {
  fv_task_id : pystr; fv_project_name : pystr; fv_resource_id : pystr; fv_capability : pystr;
  fv_provider_id : pystr; fv_provider_model_id : pystr; fv_backend_model_id : pystr;
  fv_endpoint_guard : option pystr; fv_prompt : pystr; fv_duration_seconds : Z;
  fv_aspect_ratio : pystr; fv_resolution : option pystr; fv_generate_audio : bool;
  fv_output_type : pystr; fv_parent_creation_id : option pystr; fv_api_call_id : option Z
}.

Definition opt_text (x : option pystr) : json := match x with Some s => JStr s | None => JNull end.

Definition build_free_video_checkpoint (f : FreeVideoFacts) : dict := [
  (u "kind", JStr FREE_VIDEO_CHECKPOINT_KIND);
  (u "schema_version", JInt 1);
  (u "task_id", JStr (fv_task_id f));
  (u "project_name", JStr (fv_project_name f));
  (u "unit_id", JStr (fv_resource_id f));
  (u "capability", JStr (fv_capability f));
  (u "provider_id", JStr (fv_provider_id f));
  (u "provider_model_id", JStr (fv_provider_model_id f));
  (u "backend_model_id", JStr (fv_backend_model_id f));
  (u "endpoint_guard", opt_text (fv_endpoint_guard f));
  (u "prompt", JStr (fv_prompt f));
  (u "duration_seconds", JInt (fv_duration_seconds f));
  (u "aspect_ratio", JStr (fv_aspect_ratio f));
  (u "resolution", opt_text (fv_resolution f));
  (u "generate_audio", JBool (fv_generate_audio f));
  (u "output_type", JStr (fv_output_type f));
  (u "parent_creation_id", opt_text (fv_parent_creation_id f));
  (u "api_call_id", match fv_api_call_id f with Some z => JInt z | None => JNull end)].

Definition dump_free_video_checkpoint (checkpoint : dict) : pystr := dumps_sep true true (JObj checkpoint).

(** [not raw.strip()] *)
Definition blank_text (s : pystr) : bool := List.forallb is_space s.

Definition load_free_video_checkpoint (t : Task) : option dict :=
  match execution_checkpoint_json t with
  | None => None
  | Some raw =>
      if blank_text raw then None
      else
        match loads raw with
        | Some (JObj decoded) =>
            if negb (is_text FREE_VIDEO_CHECKPOINT_KIND (dict_get (u "kind") decoded)) then None
            else if negb (bool_decide (_Fields ⊆ decoded.*1) && bool_decide (decoded.*1 ⊆ _Fields)) then None
            else if negb (bool_decide (task_type t ∈ ["free_video"; "free_edit"])) then None
            else if is_text (u (task_id t)) (dict_get (u "task_id") decoded)
                    && is_text (u (project_name t)) (dict_get (u "project_name") decoded)
                    && is_text (u (resource_id t)) (dict_get (u "unit_id") decoded)
            then Some decoded else None
        | _ => None
        end
  end.

Definition classify_free_video_resume_state : Task -> VideoResumeState * option dict :=
  classify_resume_state load_free_video_checkpoint.

(** ** Storyboard and reference videos *)

(** What the loader reads of a [VideoSubmissionCheckpoint]. *)
Record VideoCheckpoint := mkCheckpoint {
  cp_task_id : pystr;
  cp_project_name : pystr;
  cp_script_file : pystr;
  cp_unit_id : pystr;
  cp_provider_id : pystr
}.

Definition _CHECKPOINT_KIND : pystr := u "reference_video_submit".
Definition _STORYBOARD_CHECKPOINT_KIND : pystr := u "storyboard_video_submit".

Section video.
(** [ReferenceSubmissionCheckpoint.from_json] and
    [StoryboardSubmissionCheckpoint.from_json]. *)
Context (reference_from_json storyboard_from_json : pystr -> option VideoCheckpoint).

Definition checkpoint_of_kind (raw : pystr) : option (VideoCheckpoint * string) :=
  match loads raw with
  | Some (JObj decoded) =>
      if is_text _CHECKPOINT_KIND (dict_get (u "kind") decoded)
      then (fun c => (c, "reference_video")) <$> reference_from_json raw
      else if is_text _STORYBOARD_CHECKPOINT_KIND (dict_get (u "kind") decoded)
      then (fun c => (c, "video")) <$> storyboard_from_json raw
      else None
  | _ => None
  end.

Definition load_task_video_checkpoint (t : Task) : option VideoCheckpoint :=
  match execution_checkpoint_json t with
  | None => None
  | Some raw =>
      match checkpoint_of_kind raw with
      | None => None
      | Some (c, expected_task_type) =>
          if negb (bool_decide (task_type t = expected_task_type)) then None
          else if bool_decide (cp_task_id c = u (task_id t))
                  && bool_decide (cp_project_name c = u (project_name t))
                  && bool_decide (Some (cp_script_file c) = u <$> script_file t)
                  && bool_decide (cp_unit_id c = u (resource_id t))
          then Some c else None
      end
  end.

Definition classify_video_resume_state : Task -> VideoResumeState * option VideoCheckpoint :=
  classify_resume_state load_task_video_checkpoint.
End video.

(** ** Lemmas *)

Lemma classify_ready {C} (load : Task -> option C) t c :
  classify_resume_state load t = (READY, Some c) ->
  truthy (provider_job_id t) = true /\ present (execution_checkpoint_json t) = true /\ load t = Some c.
Proof.
  unfold classify_resume_state. destruct (truthy (provider_job_id t)); cbn [negb]; [|by case_match].
  destruct (present _); cbn [negb]; [|done]. destruct (load t); [|done]. by intros [= ->].
Qed.

Lemma classify_not_ready {C} (load : Task -> option C) t st :
  classify_resume_state load t = (st, None) -> st <> READY.
Proof. unfold classify_resume_state. repeat case_match; congruence. Qed.

Lemma classify_total {C} (load : Task -> option C) t :
  (exists c, classify_resume_state load t = (READY, Some c))
  \/ exists st, classify_resume_state load t = (st, None) /\ st <> READY.
Proof.
  destruct (classify_resume_state load t) as [st [c|]] eqn:E.
  - left. exists c. rewrite <- E. revert E. unfold classify_resume_state. repeat case_match; congruence.
  - right. exists st. split; [done|]. by eapply classify_not_ready.
Qed.

Lemma load_binds reference_from_json storyboard_from_json t c :
  load_task_video_checkpoint reference_from_json storyboard_from_json t = Some c ->
  cp_task_id c = u (task_id t) /\ cp_project_name c = u (project_name t)
  /\ Some (cp_script_file c) = u <$> script_file t /\ cp_unit_id c = u (resource_id t)
  /\ task_type t ∈ ["video"; "reference_video"].
Proof.
  unfold load_task_video_checkpoint. destruct (execution_checkpoint_json t) as [raw|]; [|done].
  destruct (checkpoint_of_kind _ _ raw) as [[c' ty]|] eqn:Ek; [|done].
  assert (ty ∈ ["video"; "reference_video"]) as Hty.
  { revert Ek. unfold checkpoint_of_kind. destruct (loads raw) as [[]|]; try done.
    destruct (is_text _ _); [destruct (reference_from_json raw); simpl; [|done]; intros [= _ <-]; set_solver|].
    destruct (is_text _ _); [|done]. destruct (storyboard_from_json raw); simpl; [|done]. intros [= _ <-]. set_solver. }
  case_bool_decide as Et; cbn [negb]; [|done]. destruct (_ && _) eqn:E; [|done]. to_prop. intros [= ->].
  split_and!; [done..|]. by rewrite Et.
Qed.

(** ** Theorems *)

(** What a row whose columns spell the coordinates of a checkpoint looks
    like. *)
Definition owns_checkpoint (f : FreeVideoFacts) (t : Task) : Prop :=
  fv_task_id f = u (task_id t) /\ fv_project_name f = u (project_name t)
  /\ fv_resource_id f = u (resource_id t) /\ task_type t ∈ ["free_video"; "free_edit"].

#[export] Instance owns_checkpoint_dec f t : Decision (owns_checkpoint f t).
Proof. unfold owns_checkpoint. apply _. Defined.

Lemma build_fields f : (build_free_video_checkpoint f).*1 = _Fields.
Proof. reflexivity. Qed.

Lemma build_wf f : wf_json (JObj (build_free_video_checkpoint f)) = true.
Proof.
  apply wf_JObj. split.
  - rewrite build_fields. apply (bool_decide_unpack _). vm_compute. exact I.
  - unfold build_free_video_checkpoint.
    repeat (constructor; [simpl; unfold opt_text; by repeat case_match|]). constructor.
Qed.

(** The members as the parser gives them back: sorted by key. *)
Definition sorted_checkpoint (f : FreeVideoFacts) : dict := isort key_leb (build_free_video_checkpoint f).

Lemma build_sort f :
  sort_json (JObj (build_free_video_checkpoint f)) = JObj (sorted_checkpoint f).
Proof.
  cbn [sort_json]. unfold sorted_checkpoint. do 2 f_equal.
  unfold build_free_video_checkpoint, opt_text. cbn [map fst snd sort_json].
  destruct (fv_endpoint_guard f), (fv_resolution f), (fv_parent_creation_id f), (fv_api_call_id f); reflexivity.
Qed.

Lemma sorted_get k f : dict_get k (sorted_checkpoint f) = dict_get k (build_free_video_checkpoint f).
Proof.
  unfold sorted_checkpoint. apply dict_get_perm; [|apply isort_perm]. rewrite isort_perm. apply wf_JObj, build_wf.
Qed.

Lemma loads_dump f :
  loads (dump_free_video_checkpoint (build_free_video_checkpoint f)) = Some (JObj (sorted_checkpoint f)).
Proof. unfold dump_free_video_checkpoint. by rewrite loads_dumps_sorted, build_sort by apply build_wf. Qed.

(** The loader on a freshly written checkpoint. *)
Lemma load_built f t :
  execution_checkpoint_json t = Some (dump_free_video_checkpoint (build_free_video_checkpoint f)) ->
  load_free_video_checkpoint t = if bool_decide (owns_checkpoint f t) then Some (sorted_checkpoint f) else None.
Proof.
  intros Hcp. unfold load_free_video_checkpoint. rewrite Hcp, loads_dump.
  assert (blank_text (dump_free_video_checkpoint (build_free_video_checkpoint f)) = false) as -> by reflexivity.
  rewrite !sorted_get. cbn [is_text dict_get build_free_video_checkpoint].
  assert ((sorted_checkpoint f).*1 ≡ₚ _Fields) as Hkeys.
  { unfold sorted_checkpoint. by rewrite isort_perm, build_fields. }
  rewrite (bool_decide_eq_true_2 (_Fields ⊆ _)), (bool_decide_eq_true_2 (_ ⊆ _Fields));
    [|intros k; by rewrite Hkeys|intros k; by rewrite Hkeys].
  simpl. unfold owns_checkpoint. clear. repeat case_bool_decide; simpl; tauto || done.
Qed.

(** A submission survives a restart: the checkpoint written before a free
    video is submitted is read back by the task that wrote it, with every
    field unchanged; together with a job id the task is ready to be resumed,
    and any other row, even one that only differs in its task, project or
    unit, is refused. *)
Theorem free_checkpoint_round_trip f t :
  execution_checkpoint_json t = Some (dump_free_video_checkpoint (build_free_video_checkpoint f)) ->
  truthy (provider_job_id t) = true ->
  (owns_checkpoint f t -> exists c, classify_free_video_resume_state t = (READY, Some c)
     /\ forall k, dict_get k c = dict_get k (build_free_video_checkpoint f))
  /\ (~ owns_checkpoint f t -> classify_free_video_resume_state t = (IDENTITY_UNRECOVERABLE, None)).
Proof.
  intros Hcp Hjob. unfold classify_free_video_resume_state, classify_resume_state. rewrite Hjob, Hcp.
  assert (exists x, dump_free_video_checkpoint (build_free_video_checkpoint f) = c_lbrace :: x) as [x Hx]
    by by eexists.
  rewrite Hx. cbn [present negb].
  rewrite (load_built f t Hcp). case_bool_decide; split; try done.
  intros _. eexists. split; [done|]. intros k. apply sorted_get.
Qed.

(** A free video in flight and the facts it was submitted with. *)
Definition demo_free_facts : FreeVideoFacts :=
  mkFreeVideo (u "t9") (u "demo") (u "c1") (u "i2v") (u "ark") (u "m1") (u "m1") None (u "a cat") 5 (u "9:16") None
    true (u "video") None None.
Definition demo_free_row : Task :=
  set_execution_checkpoint_json (Some (dump_free_video_checkpoint (build_free_video_checkpoint demo_free_facts)))
    (set_provider_job_id (Some "job-1")
      (new_task 1 "t9" None "alice" None
        (mkEnqueue "demo" "free_video" "video" "c1" None None None "webui" None None None "alice" (Some "ark")))).

Lemma free_checkpoint_round_trip_witness :
  exists c, classify_free_video_resume_state demo_free_row = (READY, Some c)
    /\ dict_get (u "provider_id") c = Some (JStr (u "ark")).
Proof.
  destruct (free_checkpoint_round_trip demo_free_facts demo_free_row) as [H _]; [reflexivity..|].
  destruct H as (c & Hc & Hget).
  - apply (bool_decide_unpack _). vm_compute. exact I.
  - exists c. split; [exact Hc|]. rewrite Hget. reflexivity.
Defined.
