(* ===== verification/Queue.v ===== *)
(** * The generation queue: [lib/generation_queue.py] and
      [lib/task_terminal_events.py]

    [GenerationQueue] opens a repository session per call, commits it and then
    publishes the terminal events of the session, grouped by project.  The
    provider derivation, the migration guard and the storage check are
    arguments: they belong to the configuration and project layers.  The
    worker's cancel callback is modelled by the task ids it is called with. *)

From S2P Require Import Prelude Json TaskFailure TaskStore TaskRepo Scenario TaskInv TaskOps.

(** ** Terminal events *)

Record Change := mkChange {
  entity_type : string;
  action : string;
  entity_id : string;
  label : string;
  important : bool;
  change_task_type : string
}.

(** [_STATUS_ACTIONS] *)
Definition _STATUS_ACTIONS (s : TaskStatus) : option string :=
  match s with
  | succeeded => Some "task_succeeded"
  | failed => Some "task_failed"
  | cancelled => Some "task_cancelled"
  | _ => None
  end.

Definition build_task_terminal_change (e : TerminalEvent) : option Change :=
  match _STATUS_ACTIONS (ev_status e) with
  | None => None
  | Some act =>
      if bool_decide (ev_task_id e = "") then None
      else Some (mkChange "task" act (ev_task_id e) (ev_task_id e) false (default "" (ev_task_type e)))
  end.

(** [by_project.setdefault(project_name, []).append(change)] *)
Definition add_change (by_project : list (string * list Change)) (e : TerminalEvent) : list (string * list Change) :=
  if bool_decide (ev_project_name e = "") then by_project
  else
    match build_task_terminal_change e with
    | None => by_project
    | Some c => aset (ev_project_name e) (default [] (aget (ev_project_name e) by_project) ++ [c]) by_project
    end.

(** The batches handed to the event bus, in order. *)
Definition emit_task_terminal_events (events : list TerminalEvent) : list (string * list Change) :=
  foldl add_change [] events.

(** ** Narration request facts *)

Inductive NarrationDelivery := POST_PRODUCTION | USE_TTS.

#[export] Instance NarrationDelivery_eq_dec : EqDecision NarrationDelivery.
Proof. solve_decision. Defined.

(** [NarrationDeliveryRequestOptions]: what [to_payload] shows of it. *)
Record RequestFacts := mkFacts {
  narration_delivery : NarrationDelivery;
  confirmed_request_duration_seconds : option Z
}.

#[export] Instance RequestFacts_eq_dec : EqDecision RequestFacts.
Proof. solve_decision. Defined.

Definition delivery_text (d : NarrationDelivery) : pystr :=
  match d with POST_PRODUCTION => u "post_production" | USE_TTS => u "use_tts" end.

(** [to_payload] *)
Definition facts_to_payload (f : RequestFacts) : json :=
  JObj ([(u "narration_delivery", JStr (delivery_text (narration_delivery f)))] ++
        match confirmed_request_duration_seconds f with
        | Some z => [(u "confirmed_request_duration_seconds", JInt z)]
        | None => []
        end).

(** [from_payload(root, key=key)] *)
Definition facts_from_payload (root : dict) (key : pystr) : RequestFacts :=
  match dict_get key root with
  | Some (JObj raw) =>
      mkFacts
        (match dict_get (u "narration_delivery") raw with
         | Some (JStr s) => if bool_decide (s = u "use_tts") then USE_TTS else POST_PRODUCTION
         | _ => POST_PRODUCTION
         end)
        (match dict_get (u "confirmed_request_duration_seconds") raw with
         | Some (JInt z) => if (0 <? z)%Z then Some z else None
         | _ => None
         end)
  | _ => mkFacts POST_PRODUCTION None
  end.

(** The members of a payload that is a dictionary. *)
Definition members_of (p : option json) : dict :=
  match p with Some (JObj d) => d | _ => [] end.

Definition _narration_request_facts (ty : string) (p : option json) : option RequestFacts :=
  if bool_decide (ty = "video") then Some (facts_from_payload (members_of p) (u "narration_delivery_options"))
  else if bool_decide (ty = "reference_video") then Some (facts_from_payload (members_of p) (u "reference_request_options"))
  else None.

(** ** Payloads at the enqueue boundary *)

(** The location and the request options are all that is kept. *)
Definition reference_video_enqueue_payload (p : option json) (script_file : option string) : dict :=
  let normalized := where_ (fun kv => bool_decide (kv.1 ∈ [u "script_file"; u "reference_request_options"])) (members_of p) in
  let normalized :=
    match dict_get (u "reference_request_options") normalized with
    | Some raw => dict_set (u "reference_request_options")
        (facts_to_payload (facts_from_payload [(u "reference_request_options", raw)] (u "reference_request_options")))
        normalized
    | None => normalized
    end in
  match script_file with
  | Some f => dict_set (u "script_file") (JStr (u f)) normalized
  | None => normalized
  end.

Definition without_video_execution_identity (p : option json) : dict :=
  where_ (fun kv => negb (bool_decide (kv.1 ∈ [u "video_provider_i2v"; u "video_provider_r2v"]))) (members_of p).

(** The buckets of [VIDEO_BUCKET_BY_TASK_TYPE]. *)
Inductive VideoCapability := i2v | r2v.

Definition role_of (j : json) : option pystr :=
  match j with
  | JObj d => match dict_get (u "role") d with Some (JStr s) => Some s | _ => None end
  | _ => None
  end.

(** [roles & {...}] *)
Definition has_role (claims : list json) (wanted : list pystr) : bool :=
  List.existsb (fun j => match role_of j with Some r => bool_decide (r ∈ wanted) | None => false end) claims.

(** The path components that count: not empty, not a dot. *)
Fixpoint split_slash (cur s : pystr) : list pystr :=
  match s with
  | [] => [cur]
  | c :: r => if (c =? 47)%N then cur :: split_slash [] r else split_slash (cur ++ [c]) r
  end.

(** [Path(item).name] *)
Definition path_name (s : pystr) : pystr :=
  default [] (last (where_ (fun p => negb (bool_decide (p = []) || bool_decide (p = [46%N]))) (split_slash [] s))).

(** The text from the last dot on, dot included. *)
Fixpoint from_last_dot (s : pystr) : option pystr :=
  match s with
  | [] => None
  | c :: r => match from_last_dot r with
              | Some x => Some x
              | None => if (c =? 46)%N then Some s else None
              end
  end.

Definition ascii_lower (s : pystr) : pystr :=
  map (fun c => if ((65 <=? c) && (c <=? 90))%N then (c + 32)%N else c) s.

(** [Path(item).suffix]: no suffix for a leading or a trailing dot. *)
Definition path_suffix (s : pystr) : pystr :=
  match path_name s with
  | [] => []
  | _ :: rest => match from_last_dot rest with
                 | Some x => if bool_decide (length x = 1) then [] else x
                 | None => []
                 end
  end.

Definition _FREE_VIDEO_REFERENCE_SUFFIXES : list pystr :=
  [u ".png"; u ".jpg"; u ".jpeg"; u ".webp"; u ".mp4"; u ".mov"].

(** [any(...)] over the references; a reference that is not text raises. *)
Fixpoint any_media_suffix (refs : list json) : result bool :=
  match refs with
  | [] => Ok false
  | JStr s :: r => if bool_decide (ascii_lower (path_suffix s) ∈ _FREE_VIDEO_REFERENCE_SUFFIXES)
                   then Ok true else any_media_suffix r
  | _ :: _ => Raise TypeError
  end.

Definition free_video_capability (p : option json) : result (option VideoCapability) :=
  let by_references :=
    match dict_get (u "references") (members_of p) with
    | Some (JArr refs) => let! b := any_media_suffix refs in Ok (if b : bool then Some r2v else None)
    | _ => Ok None
    end in
  match dict_get (u "reference_claims") (members_of p) with
  | Some (JArr claims) =>
      if has_role claims [u "reference_image"; u "reference_video"; u "reference_audio"] then Ok (Some r2v)
      else if has_role claims [u "first_frame"; u "last_frame"] then Ok (Some i2v)
      else match claims with [] => by_references | _ => Ok None end
  | _ => by_references
  end.

(** ** The queue *)

Record Queue := mkQueue {
  qdb : DB;
  published : list (string * list Change);
  has_callback : bool;
  signalled : list string
}.

(** [_task_repo]: run the body in a session; publish after it has ended. *)
Definition _task_repo {A} (body : Session -> A * Session) (q : Queue) : A * Queue :=
  let '(a, s) := body (mkSession (qdb q) []) in
  (a, mkQueue (db s) (published q ++ emit_task_terminal_events (terminal_events s)) (has_callback q) (signalled q)).

(** The same when the body may raise: nothing is committed or published. *)
Definition _task_repo_result {A} (body : Session -> result (A * Session)) (q : Queue) : result (A * Queue) :=
  let! r := body (mkSession (qdb q) []) in Ok (_task_repo (fun _ => r) q).

(** Deliver in-process cancel signals, if a worker is attached. *)
Definition signal (ids_ : list string) (q : Queue) : Queue :=
  mkQueue (qdb q) (published q) (has_callback q)
    (if has_callback q then signalled q ++ ids_ else signalled q).

Section enqueue_task.
(** [assert_project_migration_ok], [ensure_storage_capacity] and
    [_derive_execution_model_for_enqueue]. *)
Context (migration_ok : string -> result unit) (storage_ok : result unit)
        (derive : option json -> option string) (testing : bool).

Definition with_payload (p : option json) (prov : option string) (a : EnqueueArgs) : EnqueueArgs :=
  mkEnqueue (a_project_name a) (a_task_type a) (a_media_type a) (a_resource_id a) p (a_script_file a)
    (a_resource_type a) (a_source a) (a_dependency_task_id a) (a_dependency_group a)
    (a_dependency_index a) (a_user_id a) prov.

Definition enqueue_task (now : Z) (uuid : string) (a : EnqueueArgs) (q : Queue)
    : result ((string * TaskStatus * bool) * Queue) :=
  let! _ := migration_ok (a_project_name a) in
  let! _ := storage_ok in
  let payload :=
    if bool_decide (a_task_type a = "reference_video")
    then Some (JObj (reference_video_enqueue_payload (a_payload a) (a_script_file a)))
    else a_payload a in
  let prov := match a_provider_id a with Some p => Some p | None => derive payload end in
  let! _ :=
    (if bool_decide (a_task_type a ∈ ["tts"; "video"; "reference_video"]) && truthy (a_script_file a)
     then let! _ := resolve_project_id (qdb q) (a_project_name a) in Ok tt else Ok tt) in
  let! out := _task_repo_result (enqueue testing now uuid (with_payload payload prov a)) q in
  let '(r, q') := out in
  let requested := _narration_request_facts (a_task_type a) payload in
  match requested with
  | Some facts =>
      if r_deduped r
         && negb (bool_decide (_narration_request_facts (a_task_type a) (r_existing_payload r) = Some facts))
      then Raise (ActiveTaskRequestConflict (a_resource_id a) (r_task_id r))
      else Ok ((r_task_id r, r_status r, r_deduped r), q')
  | None => Ok ((r_task_id r, r_status r, r_deduped r), q')
  end.
End enqueue_task.

(** [CompensableGenerationResult.compensate_cancelled]: at most once. *)
Record Compensable := mkCompensable { compensated : bool; undo_calls : nat }.

Definition compensate_cancelled (c : Compensable) : Compensable :=
  if compensated c then c else mkCompensable true (S (undo_calls c)).

(** A result without a compensation is [None]. *)
Definition mark_task_succeeded (now : Z) (id : string) (res : option json) (c : option Compensable) (q : Queue)
    : (nat * option Compensable) * Queue :=
  let '(n, q') := _task_repo (mark_succeeded now id res) q in
  ((n, if bool_decide (n = 0) then compensate_cancelled <$> c else c), q').

Definition mark_task_failed (now : Z) (id : string) (msg : pystr) (q : Queue) : nat * Queue :=
  _task_repo (mark_failed now id msg) q.

Definition mark_task_cancelled (now : Z) (id by_ : string) (q : Queue) : nat * Queue :=
  let '((n, cancelling_), q') := _task_repo (finalize_cancelled now id by_) q in
  (n, signal cancelling_ q').

Definition cancel_task_q (now : Z) (id : string) (q : Queue) : result (CancelLists * Queue) :=
  let! out := _task_repo_result (cancel_task now id) q in
  Ok (out.1, signal (c_cancelling out.1) out.2).

Definition claim_next_task (now : Z) (media : string) (full excl : list string) (q : Queue) : option TaskDict * Queue :=
  _task_repo (claim_next now media full excl) q.

Definition cancel_all_queued_q (now : Z) (project : string) (pid : option string) (q : Queue)
    : result ((nat * nat) * Queue) :=
  _task_repo_result (cancel_all_queued now project pid) q.

Definition requeue_running_tasks (now limit : Z) (q : Queue) : nat * Queue :=
  _task_repo (requeue_running now limit) q.

Definition persist_execution_provider_id_q (now : Z) (id prov : string) (q : Queue) : Queue :=
  (_task_repo (fun s => (tt, persist_execution_provider_id now id prov s)) q).2.

(** The submit boundary, as the executors write it through the queue. *)
Definition persist_provider_job_id_q (now : Z) (id job : string) (endpoint base_url : option string) (q : Queue) : Queue :=
  (_task_repo (fun s => (tt, persist_provider_job_id now id job endpoint base_url s)) q).2.

Definition persist_api_call_id_q (now : Z) (id : string) (call_id : Z) (q : Queue) : result Queue :=
  let! out := _task_repo_result (fun s => let! s' := persist_api_call_id now id call_id s in Ok (tt, s')) q in
  Ok out.2.

Definition persist_execution_checkpoint_q (now : Z) (id : string) (checkpoint : pystr) (prov : string) (q : Queue)
    : result Queue :=
  let! out := _task_repo_result (fun s => let! s' := persist_execution_checkpoint now id checkpoint prov s in Ok (tt, s')) q in
  Ok out.2.

Definition requeue_single_q (now : Z) (id : string) (q : Queue) : bool * Queue :=
  _task_repo (_requeue_single_task now id) q.

Definition acquire_or_renew_worker_lease (now : Z) (nm owner : string) (ttl : Z) (q : Queue) : bool * Queue :=
  _task_repo (acquire_or_renew_lease now nm owner ttl) q.

Definition release_worker_lease (nm owner : string) (q : Queue) : Queue :=
  (_task_repo (fun s => (tt, release_lease nm owner s)) q).2.

(** ** Lemmas *)

(** The changes of one project, in the order of its events. *)
Definition changes_of (project : string) (events : list TerminalEvent) : list Change :=
  omap (fun e => if bool_decide (ev_project_name e = project) then build_task_terminal_change e else None) events.

Lemma aget_add_change b e project :
  project <> "" ->
  default [] (aget project (add_change b e)) = default [] (aget project b) ++ changes_of project [e].
Proof.
  intros Hp. unfold add_change, changes_of. simpl. destruct (decide (ev_project_name e = "")) as [H0|H0].
  - rewrite (bool_decide_eq_true_2 (ev_project_name e = "")) by done.
    rewrite bool_decide_eq_false_2 by congruence. by rewrite app_nil_r.
  - rewrite (bool_decide_eq_false_2 (ev_project_name e = "")) by done.
    destruct (build_task_terminal_change e) as [c|].
    + rewrite aget_aset. destruct (decide (ev_project_name e = project)) as [->|Hne].
      * by rewrite !bool_decide_eq_true_2.
      * rewrite !bool_decide_eq_false_2 by done. by rewrite app_nil_r.
    + case_bool_decide; by rewrite app_nil_r.
Qed.

Lemma emit_project events project :
  project <> "" -> default [] (aget project (emit_task_terminal_events events)) = changes_of project events.
Proof.
  intros Hp. unfold emit_task_terminal_events.
  assert (forall b, default [] (aget project (foldl add_change b events)) =
                    default [] (aget project b) ++ changes_of project events) as H; [|by rewrite H].
  induction events as [|e events IH]; intros b; simpl; [by rewrite app_nil_r|].
  rewrite IH, aget_add_change by done. rewrite <- app_assoc. f_equal.
  unfold changes_of. simpl. by case_match.
Qed.

Lemma add_change_keys b e :
  NoDup b.*1 -> "" ∉ b.*1 -> NoDup (add_change b e).*1 /\ "" ∉ (add_change b e).*1.
Proof.
  intros Hnd He. unfold add_change. case_bool_decide; [done|]. case_match; [|done].
  split; [by apply aset_NoDup|]. rewrite aset_keys. case_bool_decide; [done|]. set_solver.
Qed.

Lemma emit_keys events :
  NoDup (emit_task_terminal_events events).*1 /\ "" ∉ (emit_task_terminal_events events).*1.
Proof.
  unfold emit_task_terminal_events.
  assert (forall b : list (string * list Change), NoDup b.*1 -> "" ∉ b.*1 ->
    NoDup (foldl add_change b events).*1 /\ "" ∉ (foldl add_change b events).*1) as H.
  { induction events as [|e events IH]; intros b Hnd He; [done|]. simpl.
    destruct (add_change_keys b e Hnd He). by apply IH. }
  apply H; [apply NoDup_nil_2|apply not_elem_of_nil].
Qed.

(** How many published changes name the task. *)
Definition count_entity (x : string) (l : list Change) : nat :=
  length (where_ (fun c => bool_decide (entity_id c = x)) l).

Definition count_batches (x : string) (b : list (string * list Change)) : nat :=
  sum_list_with (fun pc => count_entity x pc.2) b.

Lemma count_batches_app x a b : count_batches x (a ++ b) = count_batches x a + count_batches x b.
Proof. unfold count_batches. induction a as [|p a IH]; simpl; lia. Qed.

Lemma count_entity_snoc x l c :
  count_entity x (l ++ [c]) = count_entity x l + (if bool_decide (entity_id c = x) then 1 else 0).
Proof. unfold count_entity. rewrite List.filter_app, length_app. simpl. by case_bool_decide. Qed.

Lemma count_batches_aset x p c b :
  count_batches x (aset p (default [] (aget p b) ++ [c]) b) =
  count_batches x b + (if bool_decide (entity_id c = x) then 1 else 0).
Proof.
  unfold count_batches. induction b as [|[p' l] b IH]; simpl.
  - unfold count_entity. simpl. by case_bool_decide.
  - destruct (decide (p' = p)) as [->|Hne].
    + rewrite (bool_decide_eq_true_2 (p = p)) by done. simpl. rewrite count_entity_snoc. lia.
    + rewrite (bool_decide_eq_false_2 (p' = p)) by done. simpl. rewrite IH. lia.
Qed.

(** Every complete event is published once. *)
Lemma count_emit x events :
  Forall (fun e => is_terminal (ev_status e) = true /\ ev_project_name e <> "" /\ ev_task_id e <> "") events ->
  count_batches x (emit_task_terminal_events events) =
  length (where_ (fun e => bool_decide (ev_task_id e = x)) events).
Proof.
  intros H. unfold emit_task_terminal_events.
  assert (forall b, count_batches x (foldl add_change b events) =
    count_batches x b + length (where_ (fun e => bool_decide (ev_task_id e = x)) events)) as Hgen; [|by rewrite Hgen].
  induction H as [|e events (Ht & Hp & Hid) _ IH]; intros b; simpl; [lia|]. rewrite IH.
  assert (count_batches x (add_change b e) = count_batches x b + (if bool_decide (ev_task_id e = x) then 1 else 0)) as ->.
  { unfold add_change. rewrite bool_decide_eq_false_2 by done. unfold build_task_terminal_change.
    rewrite (bool_decide_eq_false_2 (ev_task_id e = "")) by done.
    destruct (ev_status e); try done; simpl; by rewrite count_batches_aset. }
  case_bool_decide; simpl; lia.
Qed.

(** ** Theorems *)

(** Publishing groups the terminal events by project: one batch per
    project, never for an unnamed one, holding the project's changes in the
    order of its events. *)
Theorem emit_groups_by_project events :
  NoDup (emit_task_terminal_events events).*1 /\
  "" ∉ (emit_task_terminal_events events).*1 /\
  forall project, project <> "" ->
    default [] (aget project (emit_task_terminal_events events)) = changes_of project events.
Proof. destruct (emit_keys events). split; [done|]. split; [done|]. apply emit_project. Qed.

(** Committing a session: what [_task_repo] leaves. *)
Definition commit (s : Session) (q : Queue) : Queue := (_task_repo (fun _ => (tt, s)) q).2.

Lemma repo_step_count s s' x :
  NoDup (ids (rows s)) -> repo_step s s' ->
  event_count x s' + ended x (rows s) = event_count x s + ended x (rows s').
Proof.
  intros Hnd [H|(t & -> & _ & Hq & _)]%repo_step_cases; [by apply (ev_count _ _ _ H)|].
  rewrite rows_with, ended_append by by rewrite Hq. done.
Qed.

Lemma repo_step_ids s s' : NoDup (ids (rows s)) -> repo_step s s' -> NoDup (ids (rows s')).
Proof.
  intros Hnd [H|(t & -> & Hv & _)]%repo_step_cases; [by rewrite (rows_step_ids _ _ _ (ev_rows _ _ _ H))|].
  rewrite rows_with. unfold ids. rewrite map_app. apply NoDup_app. split; [done|]. split; [|apply NoDup_singleton].
  intros y Hy ->%list_elem_of_singleton. by apply violates_fresh in Hv.
Qed.

Lemma repo_step_events s s' e :
  repo_step s s' -> e ∈ terminal_events s' -> e ∈ terminal_events s \/ is_terminal (ev_status e) = true.
Proof.
  intros [H|(t & -> & _)]%repo_step_cases He; [|by left].
  apply (ev_true _ _ _ H) in He as [He|[Ht _]]; [by left|by right].
Qed.

(** Every task that ends is announced exactly once: over one committed
    repository write, the number of published changes that name a task grows
    by one if the write ended the task and by nothing otherwise, provided the
    events carry a project and a task id. *)
Theorem terminal_announced_once q s' x :
  NoDup (ids (tasks (qdb q))) ->
  repo_step (mkSession (qdb q) []) s' ->
  Forall (fun e => ev_project_name e <> "" /\ ev_task_id e <> "") (terminal_events s') ->
  count_batches x (published (commit s' q)) + ended x (tasks (qdb q)) =
  count_batches x (published q) + ended x (tasks (qdb (commit s' q))).
Proof.
  intros Hnd Hs Hev. pose proof (repo_step_count (mkSession (qdb q) []) s' x Hnd Hs) as Hc.
  change (rows (mkSession (qdb q) [])) with (tasks (qdb q)) in Hc.
  change (event_count x (mkSession (qdb q) [])) with 0 in Hc.
  unfold commit, _task_repo. cbn [snd published qdb]. rewrite count_batches_app.
  change (tasks (db s')) with (rows s'). rewrite count_emit.
  - unfold event_count in Hc. lia.
  - apply Forall_forall. intros e He. split.
    + destruct (repo_step_events _ _ _ Hs He) as [H|H]; [by apply not_elem_of_nil in H|done].
    + by eapply Forall_forall in Hev.
Qed.

Lemma enqueue_deduped_same testing now uuid a s r s' :
  enqueue testing now uuid a s = Ok (r, s') -> r_deduped r = true -> s' = s.
Proof.
  unfold enqueue. intros (pid & _ & (actor & _ & H)%bind_Ok)%bind_Ok Hd. revert H. cbv zeta.
  case_match; [|by intros [= <- _]]. case_match; [done|]. by intros [= _ <-].
Qed.

Definition demo_queue : Queue := mkQueue (db demo_running) [] true [].

Lemma terminal_announced_once_witness :
  count_batches "t1" (published (commit (mark_succeeded 20 "t1" None (mkSession (qdb demo_queue) [])).2 demo_queue)) = 1.
Proof.
  pose proof (terminal_announced_once demo_queue (mark_succeeded 20 "t1" None (mkSession (qdb demo_queue) [])).2 "t1") as H.
  assert (ended "t1" (tasks (qdb demo_queue)) = 0) as H0 by (vm_compute; reflexivity).
  assert (ended "t1" (tasks (qdb (commit (mark_succeeded 20 "t1" None (mkSession (qdb demo_queue) [])).2 demo_queue))) = 1)
    as H1 by (vm_compute; reflexivity).
  rewrite H0, H1 in H. cbn [published demo_queue count_batches sum_list_with] in H.
  rewrite Nat.add_0_r in H. apply H.
  - apply (bool_decide_unpack _); vm_compute; exact I.
  - apply step_succeeded.
  - vm_compute. constructor; [split; discriminate|constructor].
Defined.

(** An active video of the same resource is reused only for the same
    request: when the stored narration facts differ from the requested ones
    the call raises a conflict naming the active task, and when they agree
    it returns that task without changing anything. *)
Theorem enqueue_task_conflict migration_ok storage_ok derive testing now uuid a q r s :
  migration_ok (a_project_name a) = Ok tt -> storage_ok = Ok tt ->
  a_task_type a = "video" ->
  enqueue testing now uuid (with_payload (a_payload a)
      (match a_provider_id a with Some p => Some p | None => derive (a_payload a) end) a)
    (mkSession (qdb q) []) = Ok (r, s) ->
  r_deduped r = true ->
  if bool_decide (facts_from_payload (members_of (r_existing_payload r)) (u "narration_delivery_options") =
                  facts_from_payload (members_of (a_payload a)) (u "narration_delivery_options"))
  then exists q', enqueue_task migration_ok storage_ok derive testing now uuid a q =
                  Ok ((r_task_id r, r_status r, true), q') /\ qdb q' = qdb q
  else enqueue_task migration_ok storage_ok derive testing now uuid a q =
       Raise (ActiveTaskRequestConflict (a_resource_id a) (r_task_id r)).
Proof.
  intros Hm Hst Hty He Hd. pose proof He as He'.
  unfold enqueue in He'. apply bind_Ok in He' as (pid & Hpid & _).
  change (a_project_name (with_payload _ _ a)) with (a_project_name a) in Hpid. cbn [db] in Hpid.
  assert (s = mkSession (qdb q) []) as -> by by eapply enqueue_deduped_same.
  assert (enqueue_task migration_ok storage_ok derive testing now uuid a q =
    if negb (bool_decide (_narration_request_facts "video" (r_existing_payload r) =
               Some (facts_from_payload (members_of (a_payload a)) (u "narration_delivery_options"))))
    then Raise (ActiveTaskRequestConflict (a_resource_id a) (r_task_id r))
    else Ok ((r_task_id r, r_status r, true), commit (mkSession (qdb q) []) q)) as ->.
  { unfold enqueue_task. rewrite Hm, Hst, Hty. cbn [bind].
    rewrite (bool_decide_eq_false_2 ("video" = "reference_video")) by done. cbv zeta.
    assert (forall b : bool, (if b then (let! _ := resolve_project_id (qdb q) (a_project_name a) in Ok tt) else Ok tt)
                    = Ok tt) as -> by (intros []; [by rewrite Hpid|done]).
    cbn [bind]. unfold _task_repo_result. rewrite He. cbn [bind].
    change (_narration_request_facts "video" (a_payload a)) with
      (Some (facts_from_payload (members_of (a_payload a)) (u "narration_delivery_options"))).
    cbv beta iota zeta delta [_task_repo]. rewrite Hd. reflexivity. }
  assert (_narration_request_facts "video" (r_existing_payload r) =
          Some (facts_from_payload (members_of (r_existing_payload r)) (u "narration_delivery_options"))) as -> by done.
  destruct (decide (facts_from_payload (members_of (r_existing_payload r)) (u "narration_delivery_options") =
                    facts_from_payload (members_of (a_payload a)) (u "narration_delivery_options"))) as [Heq|Hne].
  - rewrite !bool_decide_eq_true_2 by congruence. simpl. eexists. by split.
  - rewrite !bool_decide_eq_false_2 by congruence. done.
Qed.

(** The same video again, now with narration asked for. *)
Definition demo_tts_args : EnqueueArgs :=
  with_payload (Some (JObj [(u "narration_delivery_options",
    JObj [(u "narration_delivery", JStr (u "use_tts"))])])) (Some "ark") (demo_args "E1S1" None).

Lemma enqueue_task_conflict_witness :
  enqueue_task (fun _ => Ok tt) (Ok tt) (fun _ => None) false 70 "t9" demo_tts_args demo_queue
  = Raise (ActiveTaskRequestConflict "E1S1" "t1").
Proof.
  destruct (enqueue false 70 "t9" demo_tts_args (mkSession (qdb demo_queue) [])) as [[r s]|] eqn:E;
    [|vm_compute in E; discriminate].
  pose proof (enqueue_task_conflict (fun _ => Ok tt) (Ok tt) (fun _ => None) false 70 "t9" demo_tts_args demo_queue r s
    eq_refl eq_refl eq_refl E) as H.
  assert (r_deduped r = true /\ r_task_id r = "t1" /\
          facts_from_payload (members_of (r_existing_payload r)) (u "narration_delivery_options") = mkFacts POST_PRODUCTION None)
    as (Hd & Hid & Hf) by (vm_compute in E; injection E as <- _; vm_compute; split; [|split]; reflexivity).
  specialize (H Hd). rewrite Hf, Hid in H. exact H.
Defined.

Definition positive_facts (f : RequestFacts) : Prop :=
  match confirmed_request_duration_seconds f with Some z => (0 < z)%Z | None => True end.

Lemma facts_from_positive root key : positive_facts (facts_from_payload root key).
Proof.
  unfold facts_from_payload. destruct (dict_get key root) as [[| | | | | |raw]|]; try done.
  unfold positive_facts. cbn [confirmed_request_duration_seconds].
  destruct (dict_get _ raw) as [[| |z| | | |]|]; try done. destruct (0 <? z)%Z eqn:E; [|done]. by apply Z.ltb_lt.
Qed.

Lemma facts_round_trip f :
  positive_facts f ->
  facts_from_payload [(u "reference_request_options", facts_to_payload f)] (u "reference_request_options") = f.
Proof.
  intros Hp. unfold facts_from_payload. cbn [dict_get]. rewrite bool_decide_eq_true_2 by done.
  unfold facts_to_payload. destruct f as [[] [z|]]; simpl in *; [|done| |done];
    by rewrite (proj2 (Z.ltb_lt 0 z) Hp).
Qed.

(** What is stored for a reference video is normal form: only the script
    location and the request options survive, the options carry exactly the
    delivery and a positive confirmed duration, and normalising again changes
    nothing. *)
Theorem reference_payload_normal p script_file :
  let d := reference_video_enqueue_payload p script_file in
  (forall k, k ∈ d.*1 -> k = u "script_file" \/ k = u "reference_request_options")
  /\ (forall v, dict_get (u "reference_request_options") d = Some v ->
        exists f, v = facts_to_payload f /\ positive_facts f)
  /\ reference_video_enqueue_payload (Some (JObj d)) script_file = d.
Proof.
  intros d. unfold d, reference_video_enqueue_payload. set (allowed := fun kv : pystr * json => bool_decide _).
  set (n0 := where_ allowed (members_of p)). set (key := u "reference_request_options") in *.
  set (n1 := match dict_get key n0 with Some raw => _ | None => _ end).
  set (n2 := match script_file with Some f => _ | None => _ end).
  assert (forall k, k ∈ n0.*1 -> k = u "script_file" \/ k = key) as Hk0.
  { intros k (kv & -> & Hin%elem_of_where)%list_elem_of_fmap. destruct Hin as [_ Ha]. unfold allowed in Ha. to_prop.
    set_solver. }
  assert (forall k, k ∈ n1.*1 -> k = u "script_file" \/ k = key) as Hk1.
  { intros k. unfold n1. destruct (dict_get key n0); [rewrite dict_set_keys; naive_solver|auto]. }
  assert (forall k, k ∈ n2.*1 -> k = u "script_file" \/ k = key) as Hk2.
  { intros k. unfold n2. destruct script_file; [rewrite dict_set_keys; naive_solver|auto]. }
  assert (forall v, dict_get key n2 = Some v -> exists f, v = facts_to_payload f /\ positive_facts f) as Hopt.
  { intros v. assert (dict_get key n2 = dict_get key n1) as -> by (unfold n2; destruct script_file; [by apply dict_get_set_ne|done]).
    unfold n1. destruct (dict_get key n0) as [raw|] eqn:E; [|congruence]. rewrite dict_get_set_eq.
    intros [= <-]. eexists. split; [done|]. apply facts_from_positive. }
  split; [done|]. split; [done|]. simpl members_of.
  assert (where_ allowed n2 = n2) as ->.
  { assert (Forall (fun kv => allowed kv = true) n2) as Hall.
    { apply Forall_forall. intros kv Hin. unfold allowed. apply bool_decide_eq_true_2.
      destruct (Hk2 kv.1) as [->| ->]; [apply list_elem_of_fmap; by exists kv|set_solver..]. }
    revert Hall. generalize n2. clear. intros l Hall.
    induction Hall as [|kv l Hkv _ IH]; simpl; [done|]. by rewrite Hkv, IH. }
  destruct (dict_get key n2) as [v|] eqn:E.
  - destruct (Hopt v eq_refl) as (f & -> & Hf). rewrite facts_round_trip by done.
    rewrite (dict_set_same _ _ _ E). unfold n2. destruct script_file; [|done]. apply dict_set_same, dict_get_set_eq.
  - unfold n2. destruct script_file; [|done]. apply dict_set_same, dict_get_set_eq.
Qed.

(** A cancellation undoes an activated result at most once: however often
    the terminal write is retried, the undo callback of a result runs exactly
    once if some write found the task gone, and never if all succeeded. *)
Theorem compensation_once outcomes :
  undo_calls (foldl (fun c (n : nat) => if bool_decide (n = 0) then compensate_cancelled c else c)
                (mkCompensable false 0) outcomes)
  = if bool_decide (0 ∈ outcomes) then 1 else 0.
Proof.
  assert (forall c, undo_calls (foldl (fun c (n : nat) => if bool_decide (n = 0) then compensate_cancelled c else c) c outcomes)
    = undo_calls c + (if bool_decide (0 ∈ outcomes) && negb (compensated c) then 1 else 0)) as H.
  { induction outcomes as [|n l IH]; intros c; simpl; [lia|]. rewrite IH. unfold compensate_cancelled.
    destruct n as [|n].
    - rewrite (bool_decide_eq_true_2 (0 ∈ 0 :: l)) by left. rewrite (bool_decide_eq_true_2 (0 = 0)) by done.
      destruct c as [[] k]; simpl; rewrite ?andb_false_r; lia.
    - rewrite (bool_decide_eq_false_2 (S n = 0)) by done.
      destruct (decide (0 ∈ l)).
      + by rewrite !bool_decide_eq_true_2 by set_solver.
      + by rewrite !bool_decide_eq_false_2 by set_solver. }
  rewrite H. simpl. rewrite andb_true_r. by case_bool_decide.
Qed.
