(* ===== verification/WorkerClaim.v ===== *)
(** * Claiming and dispatching: [GenerationWorker._claim_tasks]

    One cycle of the worker's claim loop over the four lanes, against the
    interface [SlotLedger] of the occupancy table.  The provider a task
    resolves to ([_extract_provider]) is an argument: it reads project and
    provider configuration.  Each lane's loop is bounded by fuel, shown to be
    enough: every round takes a queued task out of the round's reach. *)

From S2P Require Import Prelude Json TaskFailure TaskStore TaskRepo Scenario TaskInv TaskOps TaskCascade.
From S2P Require Import SlotTable Queue.

Definition task_rows (q : Queue) : list Task := tasks (qdb q).

Section claim.
Context {T Fut : Type} `{SlotLedger T Fut}.
Context (cap : Capacity.CapacityTable) (_extract_provider : TaskDict -> string) (spawn : TaskDict -> Fut).
Context (now : Z).

(** The state of a lane's loop. *)
Record LaneState := mkLane {
  attempted : list string;
  claimed_any : bool;
  l_queue : Queue;
  l_slots : T;
  dispatched : list (string * TaskDict)
}.

Definition unsupported_media_message (provider_id media : string) : pystr :=
  envelope (u "provider_unsupported_media") [(u "provider_id", JStr (u provider_id)); (u "media_type", JStr (u media))].

(** One round: [inl] to go on, [inr] to leave the lane. *)
Definition claim_round (media : string) (st : LaneState) : LaneState + LaneState :=
  let pool_full := _pool_full_providers cap media (l_slots st) in
  let '(task, q1) := claim_next_task now media pool_full (attempted st) (l_queue st) in
  match task with
  | None => inr (mkLane (attempted st) (claimed_any st) q1 (l_slots st) (dispatched st))
  | Some d =>
      let id := task_id (row d) in
      let provider_id := _extract_provider d in
      let c := Capacity.get cap provider_id media in
      if (c <=? 0)%Z then
        inl (mkLane (attempted st) true
               (mark_task_failed now id (unsupported_media_message provider_id media) q1).2
               (l_slots st) (dispatched st))
      else if negb (sl_has_room provider_id media c (l_slots st)) then
        let q2 := persist_execution_provider_id_q now id provider_id q1 in
        let q3 := (requeue_single_q now id q2).2 in
        if bool_decide (media = "video")
        then inl (mkLane (id :: attempted st) (claimed_any st) q3 (l_slots st) (dispatched st))
        else inr (mkLane (attempted st) (claimed_any st) q3 (l_slots st) (dispatched st))
      else
        inl (mkLane (attempted st) true q1 (sl_register provider_id media id (spawn d) false (l_slots st))
               (dispatched st ++ [(provider_id, d)]))
  end.

(** [while True] *)
Fixpoint claim_lane (fuel : nat) (media : string) (st : LaneState) : option LaneState :=
  match fuel with
  | O => None
  | S f => match claim_round media st with
           | inl st' => claim_lane f media st'
           | inr st' => Some st'
           end
  end.

(** The rows a lane can still take. *)
Definition reach (att : list string) (t : Task) : bool :=
  has_status queued t && negb (bool_decide (task_id t ∈ att)).

Definition lane_fuel (q : Queue) : nat := S (matched (reach []) (task_rows q)).

(** [_claim_tasks]: whether anything was claimed, and the state after. *)
Definition _claim_tasks (q : Queue) (s : T) : option (bool * Queue * T) :=
  foldl (fun acc media =>
      match acc with
      | None => None
      | Some (any, q, s) =>
          match claim_lane (lane_fuel q) media (mkLane [] any q s []) with
          | Some st => Some (claimed_any st, l_queue st, l_slots st)
          | None => None
          end
      end) (Some (false, q, s)) ["image"; "video"; "audio"; "postprocess"].

(** ** Rows that do not come back to the queue *)

(** Only the row of [id] may return to the queue. *)
Definition calm (id : string) (t t' : Task) : Prop :=
  task_id t' = task_id t /\ (status t' = queued -> status t = queued \/ task_id t = id).

Instance calm_refl id : Reflexive (calm id).
Proof. intros t. split; [done|auto]. Qed.

Instance calm_trans id : Transitive (calm id).
Proof.
  intros a b c [I1 Q1] [I2 Q2]. split; [congruence|]. intros [H'|H']%Q2; [by apply Q1|].
  right. congruence.
Qed.

Lemma calm_update id p f l :
  (forall t, p t = true -> task_id (f t) = task_id t /\ (status (f t) = queued -> status t = queued \/ task_id t = id)) ->
  Forall2 (calm id) l (update_where p f l).
Proof. intros Hf. apply Forall2_update; [reflexivity|]. intros t _ Ht. by apply Hf. Qed.

Lemma calm_ids id l l' : Forall2 (calm id) l l' -> ids l' = ids l.
Proof. induction 1 as [|t t' l l' [Ht _] _ IH]; [done|]. unfold ids in *. simpl. by rewrite IH, Ht. Qed.

Lemma calm_find id l l' x t' :
  Forall2 (calm id) l l' -> find_task x l' = Some t' -> exists t, find_task x l = Some t /\ calm id t t'.
Proof.
  unfold find_task. induction 1 as [|t u l l' Ht _ IH]; simpl; [done|].
  change (by_id x t) with (bool_decide (task_id t = x)).
  change (by_id x u) with (bool_decide (task_id u = x)).
  rewrite (proj1 Ht). case_bool_decide; [|done]. intros [= <-]. by exists t.
Qed.

(** A failure and its cascade put nothing back. *)
Lemma mark_failed_calm n id msg s x :
  NoDup (ids (rows s)) -> Forall2 (calm x) (rows s) (rows (mark_failed n id msg s).2).
Proof.
  intros Hnd. unfold mark_failed, _mark_failed_running.
  pose proof (fail_row_spec running n id msg s Hnd) as Hspec.
  destruct (find_task id (rows s)) as [t|] eqn:E; [|by rewrite Hspec].
  destruct (has_status running t); [|by rewrite Hspec].
  destruct (fail_row running n id msg s) as [k s1]. cbn [fst snd] in Hspec. destruct Hspec as [-> Hs1].
  rewrite bool_decide_eq_false_2 by done. cbn [snd].
  assert (NoDup (ids (rows s1))) as Hnd1 by by rewrite Hs1, ids_update.
  destruct (cascade_failed_spec n msg (cascade_fuel s1) id s1 Hnd1) as [Hc _]; [unfold cascade_fuel; lia|].
  transitivity (rows s1).
  - rewrite Hs1. by apply calm_update.
  - eapply Forall2_impl; [apply (ca_rows _ _ _ _ Hc)|].
    intros a b [->|(_ & p & _ & ->)]; [reflexivity|by split].
Qed.

(** Counting: a subset that misses somebody. *)
Lemma matched_lt (R : Task -> Task -> Prop) p p' l l' :
  Forall2 R l l' -> (forall t t', R t t' -> p' t' = true -> p t = true) ->
  (exists i t t', l !! i = Some t /\ l' !! i = Some t' /\ p t = true /\ p' t' = false) ->
  matched p' l' < matched p l.
Proof.
  intros Hl Hp. unfold matched.
  assert (forall l l', Forall2 R l l' -> length (where_ p' l') <= length (where_ p l)) as Hle.
  { clear Hl l l'. induction 1 as [|t t' l l' HR _ IH]; simpl; [done|]. specialize (Hp _ _ HR).
    destruct (p' t'), (p t); simpl; lia || by discriminate Hp. }
  induction Hl as [|t t' l l' HR Hl' IH]; intros (i & a & b & Ha & Hb & Hpa & Hpb); [done|].
  destruct i as [|i]; simpl in *; simplify_eq.
  - rewrite Hpa, Hpb. simpl. pose proof (Hle _ _ Hl'). lia.
  - assert (length (where_ p' l') < length (where_ p l)) as Hlt by (apply IH; by exists i, a, b).
    specialize (Hp _ _ HR). destruct (p' t'), (p t); simpl; lia || by discriminate Hp.
Qed.

(** A row taken out of reach, with nothing coming in. *)
Lemma reach_decreases att att' l l' t :
  NoDup (ids l) -> t ∈ l -> reach att t = true -> att ⊆ att' ->
  Forall2 (calm (task_id t)) l l' ->
  (forall t2, find_task (task_id t) l' = Some t2 -> status t2 <> queued \/ task_id t ∈ att') ->
  matched (reach att') l' < matched (reach att) l.
Proof.
  intros Hnd Hin Hr Hsub Hcalm Hout.
  assert (NoDup (ids l')) as Hnd' by by rewrite (calm_ids _ _ _ Hcalm).
  assert (forall t2, t2 ∈ l' -> task_id t2 = task_id t -> reach att' t2 = false) as Hgone.
  { intros t2 Hin2 Hid. pose proof (find_task_elem _ _ Hnd' Hin2) as Hf. rewrite Hid in Hf.
    unfold reach, has_status. destruct (Hout _ Hf) as [Hq|Ha].
    - by rewrite bool_decide_eq_false_2.
    - rewrite Hid, (bool_decide_eq_true_2 (task_id t ∈ att')) by done. by rewrite andb_false_r. }
  apply (matched_lt (fun a b => calm (task_id t) a b /\ a ∈ l /\ b ∈ l')).
  - apply Forall2_same_length_lookup. split; [by eapply Forall2_length|]. intros i a b Ha Hb.
    split; [by eapply Forall2_lookup_lr|]. split; by eapply list_elem_of_lookup_2.
  - intros a b ([Hid Hq] & Ha & Hb) Hrb. destruct (decide (task_id a = task_id t)) as [He|Hne].
    + rewrite Hgone in Hrb; [done|done|congruence].
    + unfold reach, has_status in *. to_prop. rewrite andb_true_iff, negb_true_iff, bool_decide_eq_true, bool_decide_eq_false.
      split; [naive_solver|]. rewrite Hid in *. set_solver.
  - apply list_elem_of_lookup in Hin as [i Hi]. destruct (Forall2_lookup_l _ _ _ _ _ Hcalm Hi) as (t2 & Ht2 & Hc).
    exists i, t, t2. split_and!; [done..|]. apply Hgone; [by eapply list_elem_of_lookup_2|apply Hc].
Qed.

Lemma claim_rows_calm l t c :
  NoDup (ids l) -> t ∈ l -> task_id c = task_id t -> status c <> queued ->
  Forall2 (calm (task_id t)) l (map (fun x => if bool_decide (task_id x = task_id t) then c else x) l).
Proof.
  intros Hnd Hin Hid Hq. rewrite <- (update_one _ (fun _ => true) (fun _ => c) l t) by done.
  apply calm_update. intros x Hx. unfold by_id in Hx. to_prop. split; [congruence|done].
Qed.

Lemma replaced_find l t c :
  NoDup (ids l) -> t ∈ l -> task_id c = task_id t ->
  find_task (task_id t) (map (fun x => if bool_decide (task_id x = task_id t) then c else x) l) = Some c.
Proof.
  intros Hnd Hin Hid.
  assert (ids (map (fun x => if bool_decide (task_id x = task_id t) then c else x) l) = ids l) as Hids.
  { unfold ids. rewrite map_map. apply map_ext. intros x. case_bool_decide; congruence. }
  pattern (task_id t) at 1. rewrite <- Hid. cbv beta. apply find_task_elem; [by rewrite Hids|].
  apply list_elem_of_In, in_map_iff. exists t. split; [|by apply list_elem_of_In].
  by rewrite bool_decide_eq_true_2 by done.
Qed.

Lemma replaced_find_other l t c x :
  task_id c = task_id t -> x <> task_id t ->
  find_task x (map (fun y => if bool_decide (task_id y = task_id t) then c else y) l) = find_task x l.
Proof.
  intros Hid Hne. unfold find_task. induction l as [|y l IH]; simpl; [done|].
  change (by_id x y) with (bool_decide (task_id y = x)).
  destruct (decide (task_id y = task_id t)) as [He|He].
  - rewrite (bool_decide_eq_true_2 (task_id y = task_id t)) by done.
    change (by_id x c) with (bool_decide (task_id c = x)).
    rewrite !(bool_decide_eq_false_2 (_ = x)) by congruence. done.
  - rewrite (bool_decide_eq_false_2 (task_id y = task_id t)) by done.
    change (by_id x y) with (bool_decide (task_id y = x)). by rewrite IH.
Qed.

(** The limit of a lane holds, or the lane was over it before. *)
Definition within (s s' : T) : Prop :=
  sl_wf s' /\ forall p m, (Z.of_nat (sl_occupied p m s') <= Z.max (Z.of_nat (sl_occupied p m s)) (Capacity.get cap p m))%Z.

Lemma within_refl s : sl_wf s -> within s s.
Proof. intros Hs. split; [done|]. intros. lia. Qed.

Lemma within_trans a b c : within a b -> within b c -> within a c.
Proof. intros [_ H1] [Hw H2]. split; [done|]. intros p m. specialize (H1 p m). specialize (H2 p m). lia. Qed.

Lemma within_register p m id f s :
  sl_wf s -> sl_has_room p m (Capacity.get cap p m) s = true -> within s (sl_register p m id f false s).
Proof.
  intros Hw Hr. split; [by apply sl_register_wf|]. intros p' m'.
  pose proof (sl_register_occupied p m id f false s p' m') as Ho. unfold sl_has_room in Hr.
  destruct (Capacity.get cap p m <=? 0)%Z; [done|]. apply Z.ltb_lt in Hr. case_bool_decide as E; [destruct E; subst|]; lia.
Qed.

(** The outcome of a claim, as seen through the queue. *)
Lemma claim_next_task_cases media full att q :
  NoDup (ids (task_rows q)) ->
  match claim_next_task now media full att q with
  | (Some d, q1) => exists t, t ∈ task_rows q /\ claimable media full att (task_rows q) t = true
      /\ row d = claimed now t
      /\ task_rows q1 = map (fun x => if bool_decide (task_id x = task_id t) then claimed now t else x) (task_rows q)
  | (None, q1) => task_rows q1 = task_rows q
      /\ forall t, t ∈ task_rows q -> claimable media full att (task_rows q) t = false
  end.
Proof.
  intros Hnd. unfold claim_next_task, _task_repo.
  pose proof (claim_next_spec now media full att (mkSession (qdb q) []) Hnd) as Hs.
  destruct (claim_next _ _ _ _ _) as [[d|] s].
  - destruct Hs as (t & Hin & Hc & _ & Hrow & ->). by exists t.
  - destruct Hs as [-> Hnone]. done.
Qed.

Lemma claimable_reach media full att l t : claimable media full att l t = true -> reach att t = true.
Proof. unfold claimable, reach. intros Hc. to_prop. rewrite andb_true_iff, negb_true_iff, bool_decide_eq_false. done. Qed.

(** One round that goes on takes a task out of reach, and no round
    overfills a lane. *)
Lemma claim_round_spec media st :
  NoDup (ids (task_rows (l_queue st))) -> sl_wf (l_slots st) ->
  match claim_round media st with
  | inl st' => NoDup (ids (task_rows (l_queue st'))) /\ within (l_slots st) (l_slots st')
      /\ matched (reach (attempted st')) (task_rows (l_queue st'))
         < matched (reach (attempted st)) (task_rows (l_queue st))
  | inr st' => NoDup (ids (task_rows (l_queue st'))) /\ l_slots st' = l_slots st
  end.
Proof.
  intros Hnd Hw. unfold claim_round.
  pose proof (claim_next_task_cases media (_pool_full_providers cap media (l_slots st)) (attempted st) (l_queue st) Hnd) as Hcl.
  destruct (claim_next_task _ _ _ _ _) as [[d|] q1].
  2: { destruct Hcl as [Heq _]. cbn [l_queue l_slots]. by rewrite Heq. }
  destruct Hcl as (t & Hin & Hc & Hrow & Hq1). apply claimable_reach in Hc. rewrite Hrow.
  change (task_id (claimed now t)) with (task_id t).
  pose proof (claim_rows_calm _ t (claimed now t) Hnd Hin eq_refl ltac:(done)) as Hcalm1. rewrite <- Hq1 in Hcalm1.
  pose proof (replaced_find _ t (claimed now t) Hnd Hin eq_refl) as Hf1. rewrite <- Hq1 in Hf1.
  assert (NoDup (ids (task_rows q1))) as Hnd1 by by rewrite (calm_ids _ _ _ Hcalm1).
  destruct (Capacity.get cap (_extract_provider d) media <=? 0)%Z eqn:Ecap.
  - set (msg := unsupported_media_message _ _). cbn [l_queue l_slots attempted].
    destruct (mark_failed_spec now (task_id t) msg (mkSession (qdb q1) []) (claimed now t) Hnd1 Hf1) as [_ Hms].
    destruct (Hms eq_refl) as (_ & Hf2 & _). clear Hms.
    pose proof (mark_failed_calm now (task_id t) msg (mkSession (qdb q1) []) (task_id t) Hnd1) as Hcalm2.
    assert (task_rows (mark_task_failed now (task_id t) msg q1).2 =
            rows (mark_failed now (task_id t) msg (mkSession (qdb q1) [])).2) as ->.
    { unfold mark_task_failed, _task_repo. by destruct (mark_failed _ _ _ _). }
    assert (Forall2 (calm (task_id t)) (task_rows (l_queue st))
      (rows (mark_failed now (task_id t) msg (mkSession (qdb q1) [])).2)) as Hcalm by (etrans; [exact Hcalm1|exact Hcalm2]).
    split; [by rewrite (calm_ids _ _ _ Hcalm)|]. split; [by apply within_refl|].
    eapply (reach_decreases (attempted st) (attempted st)); [done|exact Hin|done|done|exact Hcalm|].
    intros t2 Ht2. left. rewrite Hf2 in Ht2. by injection Ht2 as <-.
  - destruct (sl_has_room _ _ _ (l_slots st)) eqn:Eroom; cbn [negb].
    + cbn [l_queue l_slots attempted]. split; [done|]. split; [by apply within_register|].
      eapply (reach_decreases (attempted st) (attempted st)); [done|exact Hin|done|done|exact Hcalm1|].
      intros t2 Ht2. left. rewrite Hf1 in Ht2. by injection Ht2 as <-.
    + set (q3 := (requeue_single_q _ _ _).2).
      assert (Forall2 (calm (task_id t)) (task_rows q1) (task_rows q3)) as Hcalm3.
      { unfold q3, requeue_single_q, persist_execution_provider_id_q, _task_repo, _requeue_single_task, sql_update.
        cbn [snd db qdb]. unfold task_rows. cbn [qdb db tasks with_rows set_tasks rows].
        etrans; [|apply calm_update; intros x Hx; unfold by_id in Hx; to_prop; split; [done|by right]].
        apply calm_update. intros x Hx. split; [done|auto]. }
      assert (Forall2 (calm (task_id t)) (task_rows (l_queue st)) (task_rows q3)) as Hcalm by (etrans; [exact Hcalm1|exact Hcalm3]).
      assert (NoDup (ids (task_rows q3))) as Hnd3 by by rewrite (calm_ids _ _ _ Hcalm).
      case_bool_decide; cbn [l_queue l_slots attempted]; [|done].
      split; [done|]. split; [by apply within_refl|].
      eapply (reach_decreases (attempted st) (task_id t :: attempted st)); [done|exact Hin|done|set_solver|exact Hcalm|].
      intros t2 _. right. left.
Qed.

Lemma claim_lane_spec fuel media st :
  NoDup (ids (task_rows (l_queue st))) -> sl_wf (l_slots st) ->
  matched (reach (attempted st)) (task_rows (l_queue st)) < fuel ->
  exists st', claim_lane fuel media st = Some st'
    /\ NoDup (ids (task_rows (l_queue st'))) /\ within (l_slots st) (l_slots st').
Proof.
  revert st. induction fuel as [|f IH]; intros st Hnd Hw Hm; [lia|]. cbn [claim_lane].
  pose proof (claim_round_spec media st Hnd Hw) as Hr. destruct (claim_round media st) as [st'|st'].
  - destruct Hr as (Hnd' & Hin & Hlt). destruct (IH st' Hnd' (proj1 Hin) ltac:(lia)) as (st2 & -> & Hnd2 & Hin2).
    exists st2. split; [done|]. split; [done|]. by eapply within_trans.
  - destruct Hr as [Hnd' Heq]. exists st'. split; [done|]. split; [done|]. rewrite Heq. by apply within_refl.
Qed.

Lemma claim_lanes_spec lanes any q s :
  NoDup (ids (task_rows q)) -> sl_wf s ->
  exists any' q' s', foldl (fun acc media =>
      match acc with
      | None => None
      | Some (any, q, s) =>
          match claim_lane (lane_fuel q) media (mkLane [] any q s []) with
          | Some st => Some (claimed_any st, l_queue st, l_slots st)
          | None => None
          end
      end) (Some (any, q, s)) lanes = Some (any', q', s')
    /\ NoDup (ids (task_rows q')) /\ within s s'.
Proof.
  revert any q s. induction lanes as [|media lanes IH]; intros any q s Hnd Hw; cbn [foldl].
  { exists any, q, s. split; [done|]. split; [done|]. by apply within_refl. }
  destruct (claim_lane_spec (lane_fuel q) media (mkLane [] any q s []) Hnd Hw) as (st & -> & Hnd' & Hin);
    [unfold lane_fuel; simpl; lia|].
  destruct (IH (claimed_any st) (l_queue st) (l_slots st) Hnd' (proj1 Hin)) as (any' & q' & s' & -> & Hnd2 & Hin2).
  exists any', q', s'. split; [done|]. split; [done|]. by eapply within_trans.
Qed.

(** ** What the loop leaves alone *)

Lemma below_queued l p x : queued_below l p x -> exists t, find_task x l = Some t /\ status t = queued.
Proof. induction 1 as [a b (t & Ht & _ & Hq)|a b c _ _ IH]; [by exists t|done]. Qed.

(** A round leaves every row that is not queued as it is. *)
Lemma claim_round_keeps media st x r :
  NoDup (ids (task_rows (l_queue st))) -> find_task x (task_rows (l_queue st)) = Some r -> status r <> queued ->
  match claim_round media st with
  | inl st' | inr st' => find_task x (task_rows (l_queue st')) = Some r
  end.
Proof.
  intros Hnd Hx Hnq. unfold claim_round.
  pose proof (claim_next_task_cases media (_pool_full_providers cap media (l_slots st)) (attempted st) (l_queue st) Hnd) as Hcl.
  destruct (claim_next_task _ _ _ _ _) as [[d|] q1].
  2: { destruct Hcl as [Heq _]. cbn [l_queue]. by rewrite Heq. }
  destruct Hcl as (t & Hin & Hc & Hrow & Hq1). rewrite Hrow. change (task_id (claimed now t)) with (task_id t).
  assert (status t = queued) as Hqt by (unfold claimable, has_status in Hc; by to_prop).
  assert (x <> task_id t) as Hne.
  { intros ->. rewrite (find_task_elem _ _ Hnd Hin) in Hx. congruence. }
  pose proof (claim_rows_calm _ t (claimed now t) Hnd Hin eq_refl ltac:(done)) as Hcalm1. rewrite <- Hq1 in Hcalm1.
  pose proof (replaced_find _ t (claimed now t) Hnd Hin eq_refl) as Hf1. rewrite <- Hq1 in Hf1.
  assert (NoDup (ids (task_rows q1))) as Hnd1 by by rewrite (calm_ids _ _ _ Hcalm1).
  assert (find_task x (task_rows q1) = Some r) as Hx1.
  { by rewrite Hq1, replaced_find_other. }
  destruct (Capacity.get cap (_extract_provider d) media <=? 0)%Z.
  - set (msg := unsupported_media_message _ _). cbn [l_queue].
    assert (task_rows (mark_task_failed now (task_id t) msg q1).2 =
            rows (mark_failed now (task_id t) msg (mkSession (qdb q1) [])).2) as ->.
    { unfold mark_task_failed, _task_repo. by destruct (mark_failed _ _ _ _). }
    destruct (mark_failed_spec now (task_id t) msg (mkSession (qdb q1) []) (claimed now t) Hnd1 Hf1) as [_ Hms].
    destruct (Hms eq_refl) as (_ & _ & Hrest). apply (Hrest x r Hne Hx1).
    intros (y & Hy & Hyq)%below_queued. change (rows _) with (task_rows q1) in Hy. congruence.
  - destruct (sl_has_room _ _ _ (l_slots st)); cbn [negb]; [done|].
    assert (find_task x (task_rows (requeue_single_q now (task_id t)
      (persist_execution_provider_id_q now (task_id t) (_extract_provider d) q1)).2) = Some r) as Hx3.
    { unfold requeue_single_q, persist_execution_provider_id_q, _task_repo, _requeue_single_task, sql_update, task_rows.
      cbn [snd db qdb tasks with_rows set_tasks rows].
      rewrite find_update_by_id by done. rewrite bool_decide_eq_false_2 by done.
      change (find_task x (update_where (by_id (task_id t)) (fun y => set_updated_at now
        (set_provider_id (Some (_extract_provider d)) y)) (task_rows q1)) = Some r).
      rewrite find_update by done. rewrite Hx1. simpl.
      unfold by_id. apply find_task_Some in Hx as [_ <-]. by rewrite bool_decide_eq_false_2. }
    case_bool_decide; exact Hx3.
Qed.

(** Every dispatched task is running, under the row that was handed out. *)
Definition all_running (st : LaneState) : Prop :=
  Forall (fun pd => find_task (task_id (row pd.2)) (task_rows (l_queue st)) = Some (row pd.2)
                    /\ status (row pd.2) = running) (dispatched st).

Lemma all_running_keep media st st' :
  NoDup (ids (task_rows (l_queue st))) -> all_running st ->
  claim_round media st = inl st' \/ claim_round media st = inr st' ->
  Forall (fun pd => find_task (task_id (row pd.2)) (task_rows (l_queue st')) = Some (row pd.2)
                    /\ status (row pd.2) = running) (dispatched st).
Proof.
  intros Hnd Hr Hst. eapply Forall_impl; [exact Hr|]. intros pd [Hf Hs]. split; [|done].
  pose proof (claim_round_keeps media st _ _ Hnd Hf ltac:(congruence)) as Hk.
  destruct Hst as [E|E]; by rewrite E in Hk.
Qed.

Lemma claim_round_dispatched media st :
  NoDup (ids (task_rows (l_queue st))) -> all_running st ->
  match claim_round media st with inl st' | inr st' => all_running st' end.
Proof.
  intros Hnd Hr. pose proof (fun st' => all_running_keep media st st' Hnd Hr) as Hkeep.
  revert Hkeep. unfold claim_round.
  pose proof (claim_next_task_cases media (_pool_full_providers cap media (l_slots st)) (attempted st) (l_queue st) Hnd) as Hcl.
  destruct (claim_next_task _ _ _ _ _) as [[d|] q1]; [|intros Hkeep; by apply Hkeep; right].
  destruct Hcl as (t & Hin & Hc & Hrow & Hq1).
  destruct (_ <=? 0)%Z; [intros Hkeep; by apply Hkeep; left|].
  destruct (sl_has_room _ _ _ _); cbn [negb].
  - intros Hkeep. unfold all_running. cbn [dispatched]. apply Forall_app. split; [by apply Hkeep; left|].
    constructor; [|constructor]. cbn [snd l_queue]. rewrite Hrow. split; [|done].
    change (task_id (claimed now t)) with (task_id t). rewrite Hq1. by apply replaced_find.
  - case_bool_decide; intros Hkeep; apply Hkeep; [by left|by right].
Qed.

(** ** Where a video lane stops *)

Definition put_back (st : LaneState) : Prop :=
  forall id, id ∈ attempted st -> exists d, task_id (row d) = id
    /\ sl_has_room (_extract_provider d) "video" (Capacity.get cap (_extract_provider d) "video") (l_slots st) = false.

Lemma has_room_mono p m c p' m' id f (s : T) :
  sl_has_room p m c s = false -> sl_has_room p m c (sl_register p' m' id f false s) = false.
Proof.
  unfold sl_has_room. destruct (c <=? 0)%Z; [done|]. rewrite !Z.ltb_ge.
  pose proof (sl_register_mono p' m' id f false s p m). lia.
Qed.

Lemma claim_round_put_back st :
  put_back st -> match claim_round "video" st with inl st' | inr st' => put_back st' end.
Proof.
  intros Hp. unfold claim_round. destruct (claim_next_task _ _ _ _ _) as [[d|] q1]; [|done].
  destruct (_ <=? 0)%Z; [done|]. destruct (sl_has_room _ _ _ _) eqn:E; cbn [negb].
  - intros id Hid. destruct (Hp id Hid) as (d' & Hd' & Hr). exists d'. split; [done|]. by apply has_room_mono.
  - rewrite bool_decide_eq_true_2 by done. intros id [->|Hid]%elem_of_cons; [by exists d|by apply Hp].
Qed.

Lemma claim_lane_invariants fuel media st st' :
  NoDup (ids (task_rows (l_queue st))) -> sl_wf (l_slots st) -> all_running st ->
  claim_lane fuel media st = Some st' ->
  all_running st' /\ (media = "video" -> put_back st -> put_back st'
    /\ forall t, t ∈ task_rows (l_queue st') ->
       claimable "video" (_pool_full_providers cap "video" (l_slots st')) (attempted st') (task_rows (l_queue st')) t = false).
Proof.
  revert st. induction fuel as [|f IH]; intros st Hnd Hw Hr; cbn [claim_lane]; [done|].
  pose proof (claim_round_spec media st Hnd Hw) as Hspec.
  pose proof (claim_round_dispatched media st Hnd Hr) as Hd.
  pose proof (claim_round_put_back st) as Hp.
  destruct (claim_round media st) as [st1|st1] eqn:E.
  - destruct Hspec as (Hnd1 & Hin1 & _). intros Hl. destruct (IH st1 Hnd1 (proj1 Hin1) Hd Hl) as [HA HB].
    split; [done|]. intros -> Hpb. apply HB; [done|]. specialize (Hp Hpb). by rewrite E in Hp.
  - intros [= <-]. split; [done|]. intros -> Hpb. specialize (Hp Hpb). rewrite E in Hp. split; [done|].
    revert E. unfold claim_round.
    pose proof (claim_next_task_cases "video" (_pool_full_providers cap "video" (l_slots st)) (attempted st) (l_queue st) Hnd) as Hcl.
    destruct (claim_next_task _ _ _ _ _) as [[d|] q1].
    + destruct (_ <=? 0)%Z; [done|]. destruct (sl_has_room _ _ _ _); cbn [negb]; [done|].
      by rewrite bool_decide_eq_true_2.
    + intros [= <-]. destruct Hcl as [Heq Hnone]. cbn [l_queue l_slots attempted]. by rewrite Heq.
Qed.
End claim.
Arguments LaneState : clear implicits.

Lemma claimable_exclude media full att l t :
  claimable media full att l t = claimable media full [] l t && negb (bool_decide (task_id t ∈ att)).
Proof.
  unfold claimable. rewrite (bool_decide_eq_false_2 (task_id t ∈ [])) by apply not_elem_of_nil.
  destruct (has_status queued t), (bool_decide (media_type t = media)), (provider_filter full t),
    (bool_decide (task_id t ∈ att)), (dependency_ok l t); done.
Qed.

Lemma claim_tasks_total {T Fut} `{SlotLedger T Fut} cap extract (spawn : TaskDict -> Fut) now q (s : T) :
  NoDup (ids (task_rows q)) -> sl_wf s ->
  exists any q' s', _claim_tasks cap extract spawn now q s = Some (any, q', s')
    /\ sl_wf s'
    /\ forall p m, (Z.of_nat (sl_occupied p m s') <= Z.max (Z.of_nat (sl_occupied p m s)) (Capacity.get cap p m))%Z.
Proof.
  intros Hnd Hw. unfold _claim_tasks.
  destruct (claim_lanes_spec cap extract spawn now ["image"; "video"; "audio"; "postprocess"] false q s Hnd Hw)
    as (any & q' & s' & He & _ & Hin). exists any, q', s'. split; [exact He|]. exact Hin.
Qed.

(** ** Theorems *)

(** C3: a claim cycle always ends and never overfills a lane: from any
    well-formed occupancy and any table with unique ids the four lanes
    terminate, and afterwards no (provider, lane) holds more tasks than its
    limit, unless it already did before the cycle. *)
Theorem claim_tasks_bounded {T Fut} `{SlotLedger T Fut} cap extract (spawn : TaskDict -> Fut) now q (s : T) :
  NoDup (ids (task_rows q)) -> sl_wf s ->
  exists any q' s', _claim_tasks cap extract spawn now q s = Some (any, q', s')
    /\ sl_wf s'
    /\ forall p m, (Z.of_nat (sl_occupied p m s') <= Z.max (Z.of_nat (sl_occupied p m s)) (Capacity.get cap p m))%Z.
Proof.
  apply claim_tasks_total.
Qed.

(** What a lane hands to the executor is really its own: when the lane
    ends, every task it dispatched is running in the database under exactly
    the row that was handed out. *)
Theorem dispatched_tasks_running {T Fut} `{SlotLedger T Fut} cap extract (spawn : TaskDict -> Fut) now fuel media any q (s : T) st :
  NoDup (ids (task_rows q)) -> sl_wf s ->
  claim_lane cap extract spawn now fuel media (mkLane [] any q s []) = Some st ->
  Forall (fun pd => find_task (task_id (row pd.2)) (task_rows (l_queue st)) = Some (row pd.2)
                    /\ status (row pd.2) = running) (dispatched st).
Proof.
  intros Hnd Hw Hl.
  destruct (claim_lane_invariants cap extract spawn now fuel media (mkLane [] any q s []) st Hnd Hw) as [HA _];
    [by apply Forall_nil|done|]. exact HA.
Qed.

(** The video lane wastes no capacity: when it stops, every video task
    that could still be claimed is one the cycle itself put back because the
    provider it resolves to has no free slot. *)
Theorem video_lane_exhausted {T Fut} `{SlotLedger T Fut} cap extract (spawn : TaskDict -> Fut) now fuel any q (s : T) st :
  NoDup (ids (task_rows q)) -> sl_wf s ->
  claim_lane cap extract spawn now fuel "video" (mkLane [] any q s []) = Some st ->
  forall t, t ∈ task_rows (l_queue st) ->
    claimable "video" (_pool_full_providers cap "video" (l_slots st)) [] (task_rows (l_queue st)) t = true ->
    exists d, task_id (row d) = task_id t
      /\ sl_has_room (extract d) "video" (Capacity.get cap (extract d) "video") (l_slots st) = false.
Proof.
  intros Hnd Hw Hl t Hin Hc.
  destruct (claim_lane_invariants cap extract spawn now fuel "video" (mkLane [] any q s []) st Hnd Hw) as [_ HB];
    [by apply Forall_nil|done|]. destruct (HB eq_refl) as [Hp Hnone].
  { intros id Hid. by apply not_elem_of_nil in Hid. }
  apply Hp. specialize (Hnone t Hin). rewrite claimable_exclude, Hc in Hnone.
  by apply negb_false_iff, bool_decide_eq_true in Hnone.
Qed.

(** One slot for the provider of the demo tasks. *)
Definition demo_cap : Capacity.CapacityTable := Capacity.mkCapacity [("ark", [("video", 1%Z)])] [].
Definition demo_extract (d : TaskDict) : string := default "gemini-aistudio" (provider_id (row d)).
Definition demo_spawn (d : TaskDict) : string := task_id (row d).
Definition demo_chain_queue : Queue := mkQueue (db demo_chain) [] true [].

Lemma claim_tasks_bounded_witness :
  exists any q' s', _claim_tasks demo_cap demo_extract demo_spawn 10 demo_chain_queue ([] : Slots string) = Some (any, q', s')
    /\ (Z.of_nat (occupied "ark" "video" s') <= 1)%Z.
Proof.
  destruct (claim_tasks_bounded demo_cap demo_extract demo_spawn 10 demo_chain_queue ([] : Slots string))
    as (any & q' & s' & He & _ & Hb).
  - apply (bool_decide_unpack _); vm_compute; exact I.
  - split; [apply NoDup_nil_2|apply Forall_nil; exact I].
  - exists any, q', s'. split; [exact He|]. exact (Hb "ark" "video").
Defined.

Definition demo_lane : LaneState (Slots string) :=
  default (mkLane [] false demo_chain_queue [] [])
    (claim_lane demo_cap demo_extract demo_spawn 10 5 "video" (mkLane [] false demo_chain_queue ([] : Slots string) [])).

Lemma dispatched_tasks_running_witness :
  map (fun pd => task_id (row pd.2)) (dispatched demo_lane) = ["t1"] /\
  Forall (fun pd => find_task (task_id (row pd.2)) (task_rows (l_queue demo_lane)) = Some (row pd.2)
                    /\ status (row pd.2) = running) (dispatched demo_lane).
Proof.
  split; [vm_compute; reflexivity|].
  apply (dispatched_tasks_running demo_cap demo_extract demo_spawn 10 5 "video" false demo_chain_queue ([] : Slots string)).
  - apply (bool_decide_unpack _); vm_compute; exact I.
  - split; [apply NoDup_nil_2|apply Forall_nil; exact I].
  - vm_compute. reflexivity.
Defined.

(** A second video, of the kind the claim always re-projects. *)
Definition demo_ref_args : EnqueueArgs :=
  mkEnqueue "demo" "reference_video" "video" "E1U1" None (Some "ep1.json") None "webui" None None None "alice" (Some "ark").

Definition demo_pair : Queue :=
  match enqueue false 2 "t2" demo_ref_args demo_one with
  | Ok (_, s) => mkQueue (db s) [] true []
  | Raise _ => demo_chain_queue
  end.

Definition demo_pair_lane : LaneState (Slots string) :=
  default (mkLane [] false demo_pair [] [])
    (claim_lane demo_cap demo_extract demo_spawn 10 5 "video" (mkLane [] false demo_pair ([] : Slots string) [])).

Lemma video_lane_exhausted_witness :
  exists t d, find_task "t2" (task_rows (l_queue demo_pair_lane)) = Some t /\ status t = queued
    /\ task_id (row d) = "t2"
    /\ sl_has_room (demo_extract d) "video" (Capacity.get demo_cap (demo_extract d) "video") (l_slots demo_pair_lane) = false.
Proof.
  destruct (find_task "t2" (task_rows (l_queue demo_pair_lane))) as [t|] eqn:E; [|vm_compute in E; discriminate].
  destruct (video_lane_exhausted demo_cap demo_extract demo_spawn 10 5 false demo_pair ([] : Slots string) demo_pair_lane)
    with (t := t) as (d & Hd & Hr).
  - apply (bool_decide_unpack _); vm_compute; exact I.
  - split; [apply NoDup_nil_2|apply Forall_nil; exact I].
  - vm_compute. reflexivity.
  - apply find_task_Some in E as [Hin _]. exact Hin.
  - vm_compute in E. injection E as <-. vm_compute. reflexivity.
  - exists t, d. split; [reflexivity|]. split; [vm_compute in E; injection E as <-; reflexivity|].
    split; [|exact Hr]. rewrite Hd. apply find_task_Some in E as [_ Hid]. exact Hid.
Defined.
