(* ===== verification/WorkerRun.v ===== *)
(** * Running and resuming tasks: [GenerationWorker]

    [_process_task] and [_process_resume_task] end a task after its executor
    has come back; other sessions may write between any two of their database
    calls ([env]).  The executor is an argument: it is represented by how it
    came back.  File effects (free-creation metadata, staged media, model
    quarantine, undoing an activated result) are recorded as the calls made.
    A task whose coroutine ends in [CancelledError] is settled once more by
    [_drain_finished_tasks]. *)

From S2P Require Import Prelude Json TaskFailure TaskStore TaskRepo Scenario TaskInv TaskOps TaskCascade.
From S2P Require Import SlotTable Checkpoint Queue WorkerClaim.

(** ** Failure messages *)

(** [_try_encode_failure]; [serializable] says whether the parameters can be
    written as JSON. *)
Definition _try_encode_failure (code : pystr) (params : dict) (serializable : bool) : option pystr :=
  match encode_failure code params with
  | Ok msg => if serializable || bool_decide (params = []) then Some msg else None
  | Raise _ => None
  end.

(** The exceptions of the executor, by the branch that handles them. *)
Inductive TaskError :=
| ScriptEditError (key : pystr) (params : dict) (serializable : bool)
| CodedError (code : pystr) (params : dict) (serializable : bool) (text : pystr)
| OtherError (text : pystr).

Definition _encode_task_failure_message (e : TaskError) : pystr :=
  match e with
  | ScriptEditError key params ser =>
      default (envelope (u "script_edit_error") []) (_try_encode_failure key params ser)
  | CodedError code params ser text => default text (_try_encode_failure code params ser)
  | OtherError text => text
  end.

(** ** Ending a task *)

(** The calls that leave the database. *)
Inductive Effect :=
| SyncMetadata (st : TaskStatus) (error_code : option string) (error : option pystr) (discard_result : bool)
| QuarantineModel
| CleanupStaging
| UndoResult.

(** How the executor came back.  [CancelledInMark] is a cancellation that
    arrives while success is being written and the write is seen to end;
    in [MarkUnseen] it is not seen to end within the five seconds, and
    [landed] says whether the write was carried out before the drain (a
    later one finds the task ended). *)
Inductive Outcome :=
| Returned (res : json) (c : option Compensable)
| CancelledInMark (res : json) (c : option Compensable)
| MarkUnseen (res : json) (c : option Compensable) (landed : bool)
| WasCancelled
| ProviderChanged (claimed_provider actual_provider : string)
| Errored (e : TaskError).

Definition free_types : list string := ["free_image"; "free_video"; "free_edit"; "free_video_merge"].

(** The undo callback ran while the result was being marked. *)
Definition undo_effect (c c' : option Compensable) : list Effect :=
  match c, c' with
  | Some x, Some y => if bool_decide (undo_calls x < undo_calls y) then [UndoResult] else []
  | _, _ => []
  end.

Section process.
Context (now : Z).
(** What other sessions do before the [n]-th database call. *)
Context (env : nat -> Queue -> Queue).

Definition settle_cancelled (n : nat) (id : string) (q : Queue) : Queue :=
  (mark_task_cancelled now id "user" (env n q)).2.

Definition requeue_failed_message (claimed_provider actual_provider : string) : pystr :=
  envelope (u "dispatch_provider_requeue_failed")
    [(u "claimed_provider_id", JStr (u claimed_provider)); (u "actual_provider_id", JStr (u actual_provider))].

(** [_mark_succeeded] and what follows from its row count; [sync] is the
    metadata call of the 0-rows branch. *)
Definition finish_success (sync : list Effect) (id : string) (res : json) (c : option Compensable) (q : Queue)
    : list Effect * Queue :=
  let '((n, c'), q1) := mark_task_succeeded now id (Some res) c (env 0 q) in
  if bool_decide (n = 0) then (undo_effect c c' ++ sync, settle_cancelled 1 id q1)
  else (undo_effect c c', q1).

(** The same write when its end is not seen: nothing follows from it. *)
Definition unseen_success (id : string) (res : json) (c : option Compensable) (landed : bool) (q : Queue)
    : list Effect * Queue :=
  if landed
  then let '((_, c'), q1) := mark_task_succeeded now id (Some res) c (env 0 q) in (undo_effect c c', q1)
  else ([], env 0 q).

Definition discard : list Effect := [SyncMetadata cancelled None None true].

(** The calls made, whether the coroutine ends in [CancelledError], and the
    queue after. *)
Definition _process_task (t : Task) (out : Outcome) (q : Queue) : list Effect * bool * Queue :=
  let id := task_id t in
  match out with
  | WasCancelled => (discard, true, settle_cancelled 0 id q)
  | ProviderChanged c a =>
      let q1 := persist_execution_provider_id_q now id a (env 0 q) in
      let '(requeued, q2) := requeue_single_q now id (env 1 q1) in
      if requeued then ([SyncMetadata queued None None false], false, q2)
      else
        let msg := requeue_failed_message c a in
        let '(n, q3) := mark_task_failed now id msg (env 2 q2) in
        if bool_decide (n = 0) then (discard, false, settle_cancelled 3 id q3)
        else (if bool_decide (task_type t ∈ free_types)
              then [SyncMetadata failed (Some "dispatch_provider_requeue_failed") (Some msg) false] else [], false, q3)
  | Errored e =>
      let quarantine := if bool_decide (task_type t = "free_video_merge") then [] else [QuarantineModel] in
      let '(n, q1) := mark_task_failed now id (_encode_task_failure_message e) (env 0 q) in
      if bool_decide (n = 0) then (quarantine ++ discard, false, settle_cancelled 1 id q1)
      else (quarantine, false, q1)
  | Returned res c => let '(eff, q') := finish_success discard id res c q in (eff, false, q')
  | CancelledInMark res c => let '(eff, q') := finish_success discard id res c q in (eff, true, q')
  | MarkUnseen res c landed => let '(eff, q') := unseen_success id res c landed q in (eff, true, q')
  end.

(** Fail, or cancel when the task is no longer running: the pattern of
    every terminal branch of the resume path and of the orphan scan. *)
Definition fail_or_cancel (n : nat) (id : string) (msg : pystr) (q : Queue) : nat * Queue :=
  let '(k, q1) := mark_task_failed now id msg (env n q) in
  if bool_decide (k = 0) then (0, settle_cancelled (S n) id q1) else (k, q1).

(** How a resumed video came back. *)
Inductive ResumeOutcome :=
| Resumed (res : json) (c : option Compensable)
| ResumedCancelledInMark (res : json) (c : option Compensable)
| ResumedUnseen (res : json) (c : option Compensable) (landed : bool)
| ResumeCancelled
| ResumeUnsupported (detail : pystr)
| EndpointChanged (detail : pystr)
| ResumeExpired (detail : pystr)
| ResumeErrored (e : TaskError).

Definition detail_message (code : string) (detail : pystr) : pystr :=
  envelope (u code) [(u "detail", JStr detail)].

Definition restart_message (code : string) : pystr := envelope (u code) [].

(** The reason a video that is not ready to be resumed fails with. *)
Definition state_message (what : string) (s : VideoResumeState) : pystr :=
  match s with
  | NO_CHECKPOINT_NO_JOB => restart_message "restart_lost_no_job_id"
  | CHECKPOINT_WITHOUT_JOB => restart_message "restart_lost_checkpoint_no_job_id"
  | _ => detail_message "execution_identity_unrecoverable"
           (u ("missing, malformed, or mismatched " +:+ what +:+ " submission checkpoint"))
  end.

Definition is_free_video (t : Task) : bool :=
  bool_decide (task_type t = "free_video")
  || (bool_decide (task_type t = "free_edit") && bool_decide (media_type t = "video")).

(** ["failed" if rows else "cancelled"] *)
Definition failed_or_cancelled (n : nat) : TaskStatus := if bool_decide (n = 0) then cancelled else failed.

(** The executor's answer on the resume path. *)
Definition resume_settle (t : Task) (out : ResumeOutcome) (q : Queue) : list Effect * bool * Queue :=
  let id := task_id t in
  let sync (n : nat) := if is_free_video t then [SyncMetadata (failed_or_cancelled n) None None true] else [] in
  let plain (code : string) (d : pystr) := ([], false, (fail_or_cancel 0 id (detail_message code d) q).2) in
  match out with
  | ResumeCancelled => ([], true, settle_cancelled 0 id q)
  | ResumeUnsupported d =>
      let '(n, q') := fail_or_cancel 0 id (detail_message "resume_unsupported_detail" d) q in (sync n, false, q')
  | EndpointChanged d => plain "resume_endpoint_changed_detail" d
  | ResumeExpired d => plain "resume_expired_detail" d
  | ResumeErrored e =>
      let '(n, q') := fail_or_cancel 0 id (_encode_task_failure_message e) q in (sync n, false, q')
  | Resumed res c => let '(eff, q') := finish_success [] id res c q in (eff, false, q')
  | ResumedCancelledInMark res c => let '(eff, q') := finish_success [] id res c q in (eff, true, q')
  | ResumedUnseen res c landed => let '(eff, q') := unseen_success id res c landed q in (eff, true, q')
  end.

Context (load : Task -> option VideoCheckpoint).

(** What the row and its checkpoint allow: [None] to go on and resume. *)
Definition resume_refusal (t : Task) : option pystr :=
  if is_free_video t then
    match classify_free_video_resume_state t with
    | (READY, _) => None
    | (s, _) => Some (state_message "free video" s)
    end
  else if bool_decide (task_type t ∈ ["video"; "reference_video"]) then
    match classify_resume_state load t with
    | (READY, _) => None
    | (s, _) => Some (state_message "video" s)
    end
  else if truthy (provider_job_id t) then None
  else Some (restart_message "restart_lost_resume_no_job_id").

Definition _process_resume_task (t : Task) (out : ResumeOutcome) (q : Queue) : list Effect * bool * Queue :=
  match resume_refusal t with
  | Some msg => ([CleanupStaging], false, (fail_or_cancel 0 (task_id t) msg q).2)
  | None =>
      let '(eff, raised, q') := resume_settle t out q in
      (if bool_decide (task_type t ∈ ["video"; "reference_video"]) then CleanupStaging :: eff else eff, raised, q')
  end.

(** The last resort for a coroutine that ended in [CancelledError]:
    [_drain_finished_tasks] and the dispatcher's [_run_one] settle it. *)
Definition settle_raised (n : nat) (id : string) (raised : bool) (q : Queue) : Queue :=
  if raised then settle_cancelled n id q else q.
End process.

(** [_drain_finished_tasks] *)
Definition _drain_finished_tasks {Fut} (now : Z) (env : nat -> Queue -> Queue) (done was_cancelled : Fut -> bool)
    (s : Slots Fut) (q : Queue) : Slots Fut * Queue :=
  let '(finished, s') := drain_finished done s in
  (s', foldl (fun q '(id, f) => settle_raised now env 0 id (was_cancelled f) q) q finished).

(** [request_cancel]: the execution to cancel, if the task is in flight. *)
Definition request_cancel {Fut} (done : Fut -> bool) (id : string) (s : Slots Fut) : option Fut :=
  match find_by_task id s with
  | Some f => if done f then None else Some f
  | None => None
  end.

(** ** Where a task can be found afterwards *)

(** Another session may only push the task towards [cancelled]. *)
Definition cancel_edge (a b : TaskStatus) : bool :=
  bool_decide (a = b)
  || match a, b with
     | running, (cancelling | cancelled) => true
     | cancelling, cancelled => true
     | _, _ => false
     end.

Definition env_ok (id : string) (env : nat -> Queue -> Queue) : Prop :=
  forall n q, NoDup (ids (task_rows q)) -> NoDup (ids (task_rows (env n q))) /\
    forall t, find_task id (task_rows q) = Some t ->
      exists t', find_task id (task_rows (env n q)) = Some t' /\ cancel_edge (status t) (status t') = true.

(** The task exists and its status satisfies [P]. *)
Definition status_is (P : TaskStatus -> Prop) (id : string) (q : Queue) : Prop :=
  NoDup (ids (task_rows q)) /\ exists t, find_task id (task_rows q) = Some t /\ P (status t).

Lemma status_env (P P' : TaskStatus -> Prop) id env n q :
  env_ok id env -> status_is P id q ->
  (forall a b, P a -> cancel_edge a b = true -> P' b) -> status_is P' id (env n q).
Proof.
  intros He (Hnd & t & Ht & Hp) H. destruct (He n q Hnd) as [Hnd' Hs].
  destruct (Hs t Ht) as (t' & Ht' & Hc). split; [done|]. exists t'. split; [done|]. by eapply H.
Qed.

(** Terminal writes, seen through the queue. *)
Lemma task_repo_rows {A} (body : Session -> A * Session) q :
  task_rows (_task_repo body q).2 = rows (body (mkSession (qdb q) [])).2 /\
  (_task_repo body q).1 = (body (mkSession (qdb q) [])).1.
Proof. unfold _task_repo. by destruct (body _). Qed.

Lemma evolves_nodup c s s' : evolves c s s' -> NoDup (ids (rows s)) -> NoDup (ids (rows s')).
Proof. intros H Hnd. by rewrite (rows_step_ids _ _ _ (ev_rows _ _ _ H)). Qed.

(** A cancellation by the worker always ends the task. *)
Lemma finalize_ends now id by_ s t :
  NoDup (ids (rows s)) -> find_task id (rows s) = Some t ->
  exists t', find_task id (rows (finalize_cancelled now id by_ s).2) = Some t'
    /\ status t' = (if is_active (status t) then cancelled else status t).
Proof.
  intros Hnd Ht. unfold finalize_cancelled.
  assert (cancellable t = is_active (status t)) as Hcan by (unfold cancellable, has_status; by destruct (status t)).
  destruct (is_active (status t)) eqn:Ha.
  - unfold cascade_fuel.
    destruct (mark_cancelled_unfold (matched (has_status queued) (rows s)) now id by_ no_lists s t Hnd Ht Hcan)
      as (a2 & s2 & Hrows & _ & -> & _).
    destruct (cancel_rows_find now id by_ _ _ Ht Hcan) as [Hf _]. rewrite <- Hrows in Hf.
    set (fold := foldl _ (a2, s2) _).
    assert (evolves false s2 fold.2) as He.
    { apply evolves_foldl. intros. apply dispatch_cancel_evolves. intros. apply mark_cancelled_evolves. }
    destruct fold as [a s']. cbn [snd] in *. pose proof (rows_step_find _ _ _ id (ev_rows _ _ _ He)) as Hs.
    rewrite Hf in Hs. destruct (find_task id (rows s')) as [t'|]; [|done]. exists t'. split; [done|].
    apply (follows_terminal cancelled); [done|]. apply Hs.
  - unfold cascade_fuel. cbn [_mark_cancelled]. unfold sql_update. rewrite matched_by_id, Ht, Hcan by done.
    simpl. by exists t.
Qed.

(** The statuses a task can have while its worker runs it. *)
Definition in_hand (s : TaskStatus) : Prop := s = running \/ s = cancelling \/ s = cancelled.

Lemma in_hand_env id env n q : env_ok id env -> status_is in_hand id q -> status_is in_hand id (env n q).
Proof.
  intros He Hs. eapply status_env; [done|exact Hs|]. unfold in_hand.
  intros a b [->|[->| ->]]; destruct b; naive_solver.
Qed.

Lemma mark_succeeded_spec now id res s t :
  NoDup (ids (rows s)) -> find_task id (rows s) = Some t ->
  if has_status running t
  then (mark_succeeded now id res s).1 = 1
       /\ exists t', find_task id (rows (mark_succeeded now id res s).2) = Some t' /\ status t' = succeeded
  else mark_succeeded now id res s = (0, s).
Proof.
  intros Hnd Ht. unfold mark_succeeded, sql_update. rewrite matched_by_id, Ht by done.
  destruct (has_status running t) eqn:E; [|done]. simpl. split; [done|]. rewrite rows_record_row, rows_with.
  rewrite find_update_by_id, bool_decide_eq_true_2, Ht by done. simpl. rewrite E. by eexists.
Qed.

Section settle.
Context (now : Z) (env : nat -> Queue -> Queue) (id : string).
Hypothesis Henv : env_ok id env.

Definition ends_as (st : TaskStatus) (q : Queue) : Prop :=
  NoDup (ids (task_rows q)) /\ exists t, find_task id (task_rows q) = Some t /\ status t = st.

(** The worker's own cancellation ends an active task and leaves an ended
    one alone. *)
Lemma settle_status n q st :
  ends_as st (env n q) -> ends_as (if is_active st then cancelled else st) (settle_cancelled now env n id q).
Proof using.
  intros (Hnd & t & Ht & <-). unfold settle_cancelled, mark_task_cancelled.
  destruct (task_repo_rows (finalize_cancelled now id "user") (env n q)) as [Hr _].
  destruct (finalize_ends now id "user" (mkSession (qdb (env n q)) []) t Hnd Ht) as (t' & Ht' & Hst).
  pose proof (finalize_cancelled_evolves now id "user" (mkSession (qdb (env n q)) [])) as He.
  destruct (_task_repo _ _) as [[k l] q']. cbn [snd] in *.
  change (ends_as (if is_active (status t) then cancelled else status t) q').
  split; [rewrite Hr; by apply (evolves_nodup _ _ _ He)|]. exists t'. by rewrite Hr.
Qed.

Lemma settle_ends n q : status_is in_hand id q -> ends_as cancelled (settle_cancelled now env n id q).
Proof using Henv.
  intros Hs. apply (in_hand_env id env n q Henv) in Hs as (Hnd & t & Ht & Hin).
  destruct Hin as [Hin|[Hin|Hin]];
    by (pose proof (settle_status n q (status t)) as Hst; rewrite Hin in Hst; apply Hst; split; [|exists t]).
Qed.

Lemma settle_keeps st n q : is_terminal st = true -> ends_as st q -> ends_as st (settle_cancelled now env n id q).
Proof using Henv.
  intros Hst Hs. apply (status_env (fun x => x = st) (fun x => x = st) id env n q Henv) in Hs.
  - pose proof (settle_status n q st Hs) as H. by destruct st.
  - intros a b ->. by destruct st, b.
Qed.

(** A failure that finds the task running ends it; otherwise nothing
    happened. *)
Lemma failed_ends msg q :
  status_is in_hand id q ->
  ((mark_task_failed now id msg q).1 = 1 /\ ends_as failed (mark_task_failed now id msg q).2)
  \/ ((mark_task_failed now id msg q).1 = 0 /\ status_is in_hand id (mark_task_failed now id msg q).2).
Proof using.
  intros (Hnd & t & Ht & Hin). unfold mark_task_failed.
  destruct (task_repo_rows (mark_failed now id msg) q) as [Hr Hn].
  destruct (mark_failed_spec now id msg (mkSession (qdb q) []) t Hnd Ht) as [Hno Hyes].
  pose proof (mark_failed_evolves now id msg (mkSession (qdb q) [])) as He.
  rewrite Hn. destruct (decide (status t = running)) as [Hrun|Hrun].
  - left. destruct (Hyes Hrun) as (H1 & H2 & _). split; [done|]. split.
    + rewrite Hr. by apply (evolves_nodup _ _ _ He).
    + rewrite Hr, H2. by eexists.
  - right. rewrite (Hno Hrun) in *. split; [done|]. split; rewrite Hr; [done|]. by exists t.
Qed.

Lemma succeeded_ends res c q :
  status_is in_hand id q ->
  ((mark_task_succeeded now id res c q).1.1 <> 0 /\ ends_as succeeded (mark_task_succeeded now id res c q).2)
  \/ ((mark_task_succeeded now id res c q).1.1 = 0 /\ status_is in_hand id (mark_task_succeeded now id res c q).2).
Proof using.
  intros (Hnd & t & Ht & Hin). unfold mark_task_succeeded.
  destruct (task_repo_rows (mark_succeeded now id res) q) as [Hr Hn].
  pose proof (mark_succeeded_spec now id res (mkSession (qdb q) []) t Hnd Ht) as Hspec.
  pose proof (mark_succeeded_evolves now id res (mkSession (qdb q) [])) as He.
  destruct (_task_repo _ _) as [k q']. cbn [fst snd] in *. subst k. destruct (has_status running t) eqn:E.
  - left. destruct Hspec as [H1 H2]. split; [by rewrite H1|]. split; rewrite Hr; [|done].
    by apply (evolves_nodup _ _ _ He).
  - right. rewrite Hspec in *. split; [done|]. split; rewrite Hr; [done|]. by exists t.
Qed.

Lemma fail_or_cancel_rows n msg q :
  status_is in_hand id q ->
  let r := fail_or_cancel now env n id msg q in
  (r.1 = 1 /\ ends_as failed r.2) \/ (r.1 = 0 /\ ends_as cancelled r.2).
Proof using Henv.
  intros Hs%(in_hand_env id env n q Henv). unfold fail_or_cancel.
  destruct (failed_ends msg _ Hs) as [[Hn He]|[Hn He]]; destruct (mark_task_failed _ _ _ _) as [k q1]; cbn [fst snd] in *.
  - subst k. by left.
  - subst k. right. split; [done|]. by apply settle_ends.
Qed.

Lemma fail_or_cancel_ends n msg q :
  status_is in_hand id q ->
  ends_as failed (fail_or_cancel now env n id msg q).2 \/ ends_as cancelled (fail_or_cancel now env n id msg q).2.
Proof using Henv. intros Hs. destruct (fail_or_cancel_rows n msg q Hs) as [[_ H]|[_ H]]; auto. Qed.

(** Writing success: it sticks, or finds the task gone and has the result
    undone. *)
Lemma marked_ends res c q :
  status_is in_hand id q ->
  let r := mark_task_succeeded now id res c q in
  (r.1.1 <> 0 /\ ends_as succeeded r.2 /\ undo_effect c r.1.2 = [])
  \/ (r.1.1 = 0 /\ status_is in_hand id r.2 /\ r.1.2 = compensate_cancelled <$> c).
Proof using.
  intros Hs. cbv zeta.
  assert (undo_effect c c = []) as Hundo.
  { destruct c as [x|]; simpl; [|done]. by rewrite bool_decide_eq_false_2 by lia. }
  assert ((mark_task_succeeded now id res c q).1.2 =
    if bool_decide ((mark_task_succeeded now id res c q).1.1 = 0) then compensate_cancelled <$> c else c) as Hc.
  { unfold mark_task_succeeded. by destruct (_task_repo _ _). }
  rewrite Hc. destruct (succeeded_ends res c q Hs) as [[Hn Hx]|[Hn Hx]]; [left|right].
  - by rewrite bool_decide_eq_false_2.
  - by rewrite bool_decide_eq_true_2.
Qed.

Lemma finish_success_ends sync res c q :
  status_is in_hand id q ->
  let r := finish_success now env sync id res c q in
  (ends_as succeeded r.2 /\ r.1 = []) \/ (ends_as cancelled r.2 /\ r.1 = undo_effect c (compensate_cancelled <$> c) ++ sync).
Proof using Henv.
  intros Hs%(in_hand_env id env 0 q Henv). unfold finish_success.
  destruct (marked_ends (Some res) c _ Hs) as [(Hn & Hx & Hu)|(Hn & Hx & Hu)];
    destruct (mark_task_succeeded _ _ _ _ _) as [[n c'] q1]; cbn [fst snd] in *.
  - rewrite bool_decide_eq_false_2 by done. by left.
  - rewrite bool_decide_eq_true_2 by done. subst c'. right. split; [by apply settle_ends|done].
Qed.

Lemma unseen_success_ends n res c landed q :
  status_is in_hand id q ->
  let r := unseen_success now env id res c landed q in
  (landed = true /\ ends_as succeeded (settle_raised now env n id true r.2) /\ r.1 = [])
  \/ (ends_as cancelled (settle_raised now env n id true r.2)
      /\ r.1 = if landed then undo_effect c (compensate_cancelled <$> c) else []).
Proof using Henv.
  intros Hs%(in_hand_env id env 0 q Henv). unfold unseen_success, settle_raised.
  destruct landed; [|right; split; [by apply settle_ends|done]].
  destruct (marked_ends (Some res) c _ Hs) as [(Hn & Hx & Hu)|(Hn & Hx & Hu)];
    destruct (mark_task_succeeded _ _ _ _ _) as [[n' c'] q1]; cbn [fst snd] in *.
  - left. split; [done|]. split; [by apply settle_keeps|done].
  - subst c'. right. split; [by apply settle_ends|done].
Qed.

(** A requeue either returns the task to the queue or finds it gone. *)
Lemma requeue_ends q :
  status_is in_hand id q ->
  ((requeue_single_q now id q).1 = true /\ ends_as queued (requeue_single_q now id q).2)
  \/ ((requeue_single_q now id q).1 = false /\ status_is in_hand id (requeue_single_q now id q).2).
Proof using.
  intros (Hnd & t & Ht & Hin). unfold requeue_single_q.
  destruct (task_repo_rows (_requeue_single_task now id) q) as [Hr Hn]. rewrite Hn.
  pose proof (requeue_single_evolves now id (mkSession (qdb q) [])) as He. apply (evolves_nodup _ _ _ He) in Hnd as Hnd'.
  unfold status_is, ends_as. rewrite Hr. revert Hnd'. unfold _requeue_single_task, sql_update. cbn [fst snd].
  change (rows (mkSession (qdb q) [])) with (task_rows q). rewrite matched_by_id, Ht by done. rewrite rows_with.
  intros Hnd'. destruct (has_status running t) eqn:E.
  - left. split; [done|]. split; [done|].
    rewrite find_update_by_id, bool_decide_eq_true_2, Ht by done. simpl. rewrite E. by eexists.
  - right. split; [done|]. split; [done|].
    rewrite find_update_by_id, bool_decide_eq_true_2, Ht by done. simpl. rewrite E. by exists t.
Qed.

Lemma persist_keeps prov q : status_is in_hand id q -> status_is in_hand id (persist_execution_provider_id_q now id prov q).
Proof using.
  intros (Hnd & t & Ht & Hin). unfold persist_execution_provider_id_q.
  destruct (task_repo_rows (fun s => (tt, persist_execution_provider_id now id prov s)) q) as [Hr _].
  cbn [snd] in Hr. unfold status_is. rewrite Hr. unfold persist_execution_provider_id, sql_update. cbn [snd].
  rewrite rows_with. split; [by rewrite ids_update|]. rewrite find_update by done.
  change (rows (mkSession (qdb q) [])) with (task_rows q). rewrite Ht. simpl. eexists. split; [done|].
  by destruct (by_id id t).
Qed.
End settle.


(** What the calls made and the final status of a task must agree on. *)
Definition settled_as (out : Outcome) (eff : list Effect) (st : TaskStatus) : Prop :=
  (is_terminal st = true \/ (st = queued /\ exists c a, out = ProviderChanged c a))
  /\ (st = succeeded -> exists r c, out = Returned r c \/ out = CancelledInMark r c \/ out = MarkUnseen r c true)
  /\ (forall s code err, SyncMetadata s code err true ∈ eff -> st = cancelled)
  /\ (UndoResult ∈ eff -> st = cancelled)
  /\ (forall r c, out = Returned r (Some c) \/ out = CancelledInMark r (Some c) \/ out = MarkUnseen r (Some c) true ->
        compensated c = false -> st = cancelled -> UndoResult ∈ eff).

Lemma undo_fresh c : compensated c = false -> UndoResult ∈ undo_effect (Some c) (Some (compensate_cancelled c)).
Proof.
  intros Hc. unfold undo_effect, compensate_cancelled. rewrite Hc. cbn [undo_calls].
  rewrite bool_decide_eq_true_2 by lia. by left.
Qed.

(** Nothing was called. *)
Lemma settled_quiet out st :
  is_terminal st = true -> st <> cancelled ->
  (st = succeeded -> exists r c, out = Returned r c \/ out = CancelledInMark r c \/ out = MarkUnseen r c true) ->
  settled_as out [] st.
Proof.
  intros Ht Hs Hout. split; [by left|]. split; [done|]. split; [|split; [|done]].
  - intros s code err H. by apply not_elem_of_nil in H.
  - intros H. by apply not_elem_of_nil in H.
Qed.

Section settles.
Context (now : Z) (env : nat -> Queue -> Queue) (t : Task).
Hypothesis Henv : env_ok (task_id t) env.

(** A terminal status survives the drain. *)
Lemma drained_keeps st n raised q :
  is_terminal st = true -> ends_as (task_id t) st q -> ends_as (task_id t) st (settle_raised now env n (task_id t) raised q).
Proof using Henv. intros Hst Hq. destruct raised; [|done]. by apply settle_keeps. Qed.

Lemma finish_settles n raised res c q out :
  (out = Returned res c \/ out = CancelledInMark res c) -> status_is in_hand (task_id t) q ->
  let r := finish_success now env discard (task_id t) res c q in
  exists st, ends_as (task_id t) st (settle_raised now env n (task_id t) raised r.2) /\ settled_as out r.1 st.
Proof using Henv.
  intros Hout Hs. cbv zeta. destruct (finish_success_ends now env (task_id t) Henv discard res c q Hs) as [[He ->]|[He ->]].
  - exists succeeded. split; [by apply drained_keeps|]. apply settled_quiet; [done|done|]. naive_solver.
  - exists cancelled. split; [by apply drained_keeps|]. split_and!; try done; [by left|].
    intros r c0 Hr Hc _. assert (c = Some c0) as -> by naive_solver. apply elem_of_app. left. by apply undo_fresh.
Qed.

Lemma unseen_settles n res c landed q :
  status_is in_hand (task_id t) q ->
  let r := unseen_success now env (task_id t) res c landed q in
  exists st, ends_as (task_id t) st (settle_raised now env n (task_id t) true r.2)
    /\ settled_as (MarkUnseen res c landed) r.1 st.
Proof using Henv.
  intros Hs. cbv zeta.
  destruct (unseen_success_ends now env (task_id t) Henv n res c landed q Hs) as [(-> & He & ->)|(He & ->)].
  - exists succeeded. split; [done|]. apply settled_quiet; [done|done|]. naive_solver.
  - exists cancelled. split; [done|]. split_and!; try done; [by left|].
    intros r c0 Hr Hc _. assert (c = Some c0 /\ landed = true) as [-> ->] by naive_solver. by apply undo_fresh.
Qed.

Lemma process_settles n out q :
  status_is in_hand (task_id t) q ->
  exists st, ends_as (task_id t) st
      (settle_raised now env n (task_id t) (_process_task now env t out q).1.2 (_process_task now env t out q).2)
    /\ settled_as out (_process_task now env t out q).1.1 st.
Proof using Henv.
  intros Hs. pose proof (in_hand_env _ env 0 q Henv Hs) as H0.
  assert (forall st q' eff b, is_terminal st = true -> st <> succeeded -> ends_as (task_id t) st q' ->
    (st <> cancelled -> UndoResult ∉ eff /\ forall s code err, SyncMetadata s code err true ∉ eff) ->
    (forall r c, out <> Returned r c /\ out <> CancelledInMark r c /\ out <> MarkUnseen r c true) ->
    exists st', ends_as (task_id t) st' (settle_raised now env n (task_id t) b q') /\ settled_as out eff st') as Hfin.
  { intros st q' eff b Ht Hns He Hno Hret. exists st. split; [by apply drained_keeps|]. split_and!.
    - by left.
    - done.
    - intros s code err Hin. destruct (decide (st = cancelled)) as [|Hne]; [done|]. by destruct (proj2 (Hno Hne) s code err).
    - intros Hin. destruct (decide (st = cancelled)) as [|Hne]; [done|]. by destruct (proj1 (Hno Hne)).
    - intros r c Hr. specialize (Hret r (Some c)). naive_solver. }
  unfold _process_task. destruct out as [res c|res c|res c landed| |c a|e].
  - pose proof (finish_settles n false res c q (Returned res c) (or_introl eq_refl) Hs) as H.
    by destruct (finish_success _ _ _ _ _ _ _).
  - pose proof (finish_settles n true res c q (CancelledInMark res c) (or_intror eq_refl) Hs) as H.
    by destruct (finish_success _ _ _ _ _ _ _).
  - pose proof (unseen_settles n res c landed q Hs) as H. by destruct (unseen_success _ _ _ _ _ _ _).
  - cbn [fst snd]. apply (Hfin cancelled); try done. by apply settle_ends.
  - pose proof (persist_keeps now (task_id t) a _ H0) as H1. apply (in_hand_env _ env 1 _ Henv) in H1.
    destruct (requeue_ends now (task_id t) _ H1) as [[Hn Hx]|[Hn Hx]]; destruct (requeue_single_q _ _ _) as [b q2];
      cbn [fst snd] in *; subst b; cbn [fst snd].
    + exists queued. split; [exact Hx|]. split_and!; try done; [right; eauto|set_solver|set_solver].
    + apply (in_hand_env _ env 2 _ Henv) in Hx.
      destruct (failed_ends now (task_id t) (requeue_failed_message c a) _ Hx) as [[Hn Hy]|[Hn Hy]];
        destruct (mark_task_failed _ _ _ _) as [k q3]; cbn [fst snd] in *.
      * rewrite bool_decide_eq_false_2 by lia. apply (Hfin failed); try done.
        intros _. case_bool_decide; set_solver.
      * rewrite bool_decide_eq_true_2 by done. apply (Hfin cancelled); try done. by apply settle_ends.
  - destruct (failed_ends now (task_id t) (_encode_task_failure_message e) _ H0) as [[Hn Hy]|[Hn Hy]];
      destruct (mark_task_failed _ _ _ _) as [k q1]; cbn [fst snd] in *.
    + rewrite bool_decide_eq_false_2 by lia. apply (Hfin failed); try done.
      intros _. case_bool_decide; set_solver.
    + rewrite bool_decide_eq_true_2 by done. apply (Hfin cancelled); try done. by apply settle_ends.
Qed.
End settles.

Section resumes.
Context (now : Z) (env : nat -> Queue -> Queue) (t : Task).
Hypothesis Henv : env_ok (task_id t) env.

(** The executor came back with a video. *)
Definition resumed (out : ResumeOutcome) (c : option Compensable) : Prop :=
  exists r, out = Resumed r c \/ out = ResumedCancelledInMark r c \/ out = ResumedUnseen r c true.

(** What the calls made and the final status of a resumed task must agree
    on. *)
Definition resumed_as (out : ResumeOutcome) (eff : list Effect) (st : TaskStatus) : Prop :=
  is_terminal st = true
  /\ (st = succeeded -> exists c, resumed out c)
  /\ (UndoResult ∈ eff -> st = cancelled)
  /\ (forall c, resumed out (Some c) -> compensated c = false -> st = cancelled -> UndoResult ∈ eff).

Lemma resumed_undone out c :
  (forall c', resumed out c' -> c = c') -> resumed_as out (undo_effect c (compensate_cancelled <$> c)) cancelled.
Proof using.
  intros Hc. split_and!; try done. intros c0 H Hf _. rewrite (Hc _ H). by apply undo_fresh.
Qed.

(** Without an undo: the video was kept, or there was none. *)
Lemma resumed_quiet out eff st :
  is_terminal st = true -> UndoResult ∉ eff -> (st = succeeded /\ (exists c, resumed out c))
  \/ (st <> succeeded /\ forall c, ~ resumed out c) -> resumed_as out eff st.
Proof using. intros Ht Hno [[-> Hc]|[Hs Hc]]; split_and!; try done. intros c Hr. by destruct (Hc (Some c)). Qed.

Lemma resumed_failed out msg q :
  status_is in_hand (task_id t) q -> (forall c, ~ resumed out c) -> forall f : nat -> list Effect,
  (forall k, UndoResult ∉ f k) -> exists st,
    ends_as (task_id t) st (fail_or_cancel now env 0 (task_id t) msg q).2
    /\ resumed_as out (f (fail_or_cancel now env 0 (task_id t) msg q).1) st.
Proof using Henv.
  intros Hs Hno f Hf. destruct (fail_or_cancel_ends now env (task_id t) Henv 0 msg q Hs) as [He|He];
    eexists; (split; [exact He|]); apply resumed_quiet; auto.
Qed.

Lemma resume_settle_ends n out q :
  status_is in_hand (task_id t) q ->
  let r := resume_settle now env t out q in
  exists st, ends_as (task_id t) st (settle_raised now env n (task_id t) r.1.2 r.2) /\ resumed_as out r.1.1 st.
Proof using Henv.
  intros Hs. cbv zeta.
  assert (forall res c b, (exists r, out = Resumed r c \/ out = ResumedCancelledInMark r c) ->
    exists st, ends_as (task_id t) st (settle_raised now env n (task_id t) b (finish_success now env [] (task_id t) res c q).2)
    /\ resumed_as out (finish_success now env [] (task_id t) res c q).1 st) as Hok.
  { intros res c b (r & Hr). destruct (finish_success_ends now env (task_id t) Henv [] res c q Hs) as [[He ->]|[He ->]];
      (eexists; split; [by apply drained_keeps, He|]).
    - apply resumed_quiet; [done|apply not_elem_of_nil|left]. split; [done|]. exists c, r. naive_solver.
    - rewrite app_nil_r. apply resumed_undone. intros c' (r' & Hr'). naive_solver. }
  unfold resume_settle. destruct out as [r c|r c|r c landed| |d|d|d|e]; cbn [fst snd settle_raised].
  - specialize (Hok r c false ltac:(eauto)). by destruct (finish_success _ _ _ _ _ _ _).
  - specialize (Hok r c true ltac:(eauto)). by destruct (finish_success _ _ _ _ _ _ _).
  - pose proof (unseen_success_ends now env (task_id t) Henv n r c landed q Hs) as H.
    destruct (unseen_success _ _ _ _ _ _ _) as [eff q']. cbn [fst snd] in *.
    destruct H as [(-> & He & ->)|(He & ->)]; (eexists; split; [exact He|]).
    + apply resumed_quiet; [done|apply not_elem_of_nil|left]. split; [done|]. exists c, r. auto.
    + destruct landed; [apply resumed_undone|apply resumed_quiet]; try done; [|apply not_elem_of_nil|right; split; [done|]];
        unfold resumed; naive_solver.
  - exists cancelled. split; [by apply settle_keeps, settle_ends|]. apply resumed_quiet; [done|apply not_elem_of_nil|].
    right. split; [done|]. unfold resumed. naive_solver.
  - pose proof (resumed_failed (ResumeUnsupported d) (detail_message "resume_unsupported_detail" d) q Hs
      ltac:(unfold resumed; naive_solver)
      (fun k => if is_free_video t then [SyncMetadata (failed_or_cancelled k) None None true] else [])) as H.
    destruct (fail_or_cancel _ _ _ _ _ _). apply H. intros k. destruct (is_free_video t); set_solver.
  - apply (resumed_failed (EndpointChanged d) _ q Hs ltac:(unfold resumed; naive_solver) (fun _ => [])); set_solver.
  - apply (resumed_failed (ResumeExpired d) _ q Hs ltac:(unfold resumed; naive_solver) (fun _ => [])); set_solver.
  - pose proof (resumed_failed (ResumeErrored e) (_encode_task_failure_message e) q Hs
      ltac:(unfold resumed; naive_solver)
      (fun k => if is_free_video t then [SyncMetadata (failed_or_cancelled k) None None true] else [])) as H.
    destruct (fail_or_cancel _ _ _ _ _ _). apply H. intros k. destruct (is_free_video t); set_solver.
Qed.

Lemma process_resume_ends load n out q :
  status_is in_hand (task_id t) q ->
  let r := _process_resume_task now env load t out q in
  exists st, ends_as (task_id t) st (settle_raised now env n (task_id t) r.1.2 r.2)
    /\ match resume_refusal load t with
       | Some _ => (st = failed \/ st = cancelled) /\ r.1.1 = [CleanupStaging]
       | None => resumed_as out r.1.1 st
       end.
Proof using Henv.
  intros Hs. unfold _process_resume_task. destruct (resume_refusal load t) as [msg|]; cbv zeta; cbn [fst snd settle_raised].
  - destruct (fail_or_cancel_ends now env (task_id t) Henv 0 msg q Hs); eauto.
  - destruct (resume_settle_ends n out q Hs) as (st & H1 & H2 & H3 & H4 & H5).
    destruct (resume_settle now env t out q) as [[eff raised] q']. exists st. cbn [fst snd] in *. split; [done|].
    case_bool_decide; [|done]. split_and!; [done|done|set_solver|]. intros c Hc Hf Hst. right. by apply (H5 c).
Qed.
End resumes.

(** ** Theorems *)


(** A video picked up after a restart always ends: whatever the provider
    answers and whatever cancellations arrive, the task becomes succeeded,
    failed or cancelled and is never queued for another submission.  If its
    checkpoint and job id do not identify the submitted job it is not
    resumed; otherwise it succeeds only if the provider delivered, and an
    activated video is undone exactly when the task ended cancelled. *)
Theorem resume_settles now env n load t out q :
  env_ok (task_id t) env -> status_is in_hand (task_id t) q ->
  let '(eff, raised, q1) := _process_resume_task now env load t out q in
  exists t', find_task (task_id t) (task_rows (settle_raised now env n (task_id t) raised q1)) = Some t'
    /\ match resume_refusal load t with
       | Some _ => (status t' = failed \/ status t' = cancelled) /\ eff = [CleanupStaging]
       | None => resumed_as out eff (status t')
       end.
Proof.
  intros He Hs. destruct (process_resume_ends now env t He load n out q Hs) as (st & (_ & t' & Ht' & <-) & Hst).
  destruct (_process_resume_task now env load t out q) as [[eff raised] q1]. by exists t'.
Qed.

(** A user who cancels [t1] while its worker is about to write. *)
Definition demo_env (n : nat) (q : Queue) : Queue :=
  commit (_mark_cancelling 15 "t1" "user" (mkSession (qdb q) [])).2 q.

Lemma demo_env_ok : env_ok "t1" demo_env.
Proof.
  intros n q Hnd. unfold demo_env.
  change (task_rows (commit ?s q)) with (rows s). unfold _mark_cancelling, sql_update. cbn [snd].
  rewrite rows_with. change (rows (mkSession (qdb q) [])) with (task_rows q).
  split; [by rewrite ids_update|]. intros t Ht.
  rewrite find_update_by_id, bool_decide_eq_true_2, Ht by done. simpl. eexists. split; [done|].
  destruct (has_status running t) eqn:E; [|by destruct (status t)].
  unfold has_status in E. to_prop. by rewrite E.
Qed.

Lemma demo_in_hand : status_is in_hand "t1" demo_queue.
Proof.
  split; [apply (bool_decide_unpack _); vm_compute; exact I|].
  destruct (find_task "t1" (task_rows demo_queue)) as [t|] eqn:E; [|vm_compute in E; discriminate].
  exists t. split; [reflexivity|]. vm_compute in E. injection E as <-. left. reflexivity.
Qed.

(** The row of [t1] as its worker got it. *)
Definition demo_row : Task :=
  default (new_task 0 "" None "" None (demo_args "" None)) (find_task "t1" (task_rows demo_queue)).

(** The executor of [t1] returns a result that is already activated. *)
Definition demo_return : Outcome := Returned (JObj []) (Some (mkCompensable false 0)).


(** The same task after a restart, with a job and a checkpoint. *)
Definition demo_resume_row : Task :=
  set_provider_job_id (Some "job-1") (set_execution_checkpoint_json (Some (u "checkpoint")) demo_row).
Definition demo_load (_ : Task) : option VideoCheckpoint := Some (mkCheckpoint (u "t1") (u "demo") (u "ep1.json") (u "S1") (u "ark")).
Definition demo_resumed : ResumeOutcome := Resumed (JObj []) (Some (mkCompensable false 0)).

Lemma resume_settles_witness :
  exists t', find_task "t1" (task_rows (_process_resume_task 20 demo_env demo_load demo_resume_row demo_resumed demo_queue).2) = Some t'
    /\ status t' = cancelled
    /\ (_process_resume_task 20 demo_env demo_load demo_resume_row demo_resumed demo_queue).1.1 = [CleanupStaging; UndoResult].
Proof.
  pose proof (resume_settles 20 demo_env 5 demo_load demo_resume_row demo_resumed demo_queue demo_env_ok demo_in_hand) as H.
  assert ((_process_resume_task 20 demo_env demo_load demo_resume_row demo_resumed demo_queue).1
          = ([CleanupStaging; UndoResult], false)) as He by (vm_compute; reflexivity).
  assert (resume_refusal demo_load demo_resume_row = None) as Hr by (vm_compute; reflexivity). rewrite Hr in H.
  destruct (_process_resume_task 20 demo_env demo_load demo_resume_row demo_resumed demo_queue) as [[eff raised] q1].
  simpl in He. injection He as -> ->. destruct H as (t' & Ht' & _ & _ & Hu & _).
  exists t'. split; [exact Ht'|]. split; [apply Hu; right; left|reflexivity].
Defined.
