(* ===== verification/Recovery.v ===== *)
(** * Recovering the tasks of a dead process

    [GenerationWorker._handle_orphan_tasks_on_start] decides what becomes of
    the tasks found [running] or [cancelling] when a worker starts, and
    [_dispatch_provider_bucket] resumes the paid videos among them under the
    provider's limit.  The dispatcher's coroutines interleave: they are a step
    relation on the semaphore, the phase of each resumed task and the slot
    table. *)

From S2P Require Import Prelude Json TaskFailure TaskStore TaskRepo Scenario TaskInv TaskOps TaskCascade.
From S2P Require Import SlotTable Checkpoint Queue WorkerClaim WorkerRun.

(** ** The decision for one orphan *)

Definition NON_RESUMABLE_VIDEO_PROVIDERS : list pystr := [u "grok"; u "vidu"].

(** What is reported besides the status of a task that is failed. *)
Inductive Report :=
| NoReport
| ReportCleanup
| ReportMetadata (error_code : string) (with_error : bool).

Inductive OrphanAction :=
| SkipSelfActive
| FinishCancelling
| FailWith (message : pystr) (report : Report)
| RequeueLocal
| Resume (provider : pystr).

Definition unsupported_message (provider : pystr) : pystr :=
  envelope (u "resume_unsupported_provider") [(u "provider_id", JStr provider)].

(** The lane of a row, with the fallbacks for old rows. *)
Definition orphan_media_type (t : Task) : string :=
  if negb (bool_decide (media_type t = "")) then media_type t
  else if bool_decide (task_type t ∈ ["video"; "reference_video"]) then "video"
  else if bool_decide (task_type t = "tts") then "audio"
  else "image".

(** The text of a JSON string member; the checkpoint writer stores strings. *)
Definition text_member (k : pystr) (d : dict) : option pystr :=
  match dict_get k d with Some (JStr (c :: s)) => Some (c :: s) | _ => None end.

(** A provider id of a row counts when it is not empty. *)
Definition row_provider (t : Task) : option pystr :=
  match provider_id t with
  | Some p => if bool_decide (p = "") then None else Some (u p)
  | None => None
  end.

(** The error code that goes with [state_message]. *)
Definition state_code (s : VideoResumeState) : string :=
  match s with
  | NO_CHECKPOINT_NO_JOB => "restart_lost_no_job_id"
  | CHECKPOINT_WITHOUT_JOB => "restart_lost_checkpoint_no_job_id"
  | _ => "execution_identity_unrecoverable"
  end.

Section orphan.
(** The checkpoint loader of the storyboard and reference routes, and the
    resolution of a provider from current configuration. *)
Context (load : Task -> option VideoCheckpoint) (_extract_provider : Task -> pystr).

Definition orphan_free_video (t : Task) : OrphanAction :=
  match classify_free_video_resume_state t with
  | (READY, cp) =>
      let provider := match text_member (u "provider_id") (default [] cp) with
                      | Some p => Some p
                      | None => row_provider t
                      end in
      match provider with
      | Some p => if bool_decide (p ∈ NON_RESUMABLE_VIDEO_PROVIDERS)
                  then FailWith (unsupported_message p) (ReportMetadata "resume_unsupported_provider" false)
                  else Resume p
      | None => Resume (u "unknown")
      end
  | (s, _) => FailWith (state_message "free video" s) (ReportMetadata (state_code s) true)
  end.

(** The storyboard and reference routes once the provider is known. *)
Definition orphan_route (t : Task) (provider : pystr) : OrphanAction :=
  if bool_decide (provider ∈ NON_RESUMABLE_VIDEO_PROVIDERS) then FailWith (unsupported_message provider) ReportCleanup
  else if truthy (provider_job_id t) then Resume provider
  else FailWith (restart_message "restart_lost_no_job_id") ReportCleanup.

Definition orphan_action (self_active : list string) (t : Task) : OrphanAction :=
  if bool_decide (task_id t ∈ self_active) then SkipSelfActive
  else if has_status cancelling t then FinishCancelling
  else
    let media := orphan_media_type t in
    if bool_decide (media = "image")
    then FailWith (restart_message "restart_lost_image") (ReportMetadata "restart_lost_image" true)
    else if bool_decide (media = "audio") then FailWith (restart_message "restart_lost_audio") NoReport
    else if bool_decide (task_type t = "free_video") || (bool_decide (task_type t = "free_edit") && bool_decide (media = "video"))
    then orphan_free_video t
    else if bool_decide (media = "postprocess") then RequeueLocal
    else if bool_decide (task_type t ∈ ["video"; "reference_video"]) then
      match classify_resume_state load t with
      | (READY, Some c) => orphan_route t (cp_provider_id c)
      | (s, _) => FailWith (state_message "video" s) ReportCleanup
      end
    else orphan_route t (default (_extract_provider t) (row_provider t)).
End orphan.

(** ** Carrying it out *)

Definition report_effects (r : Report) (n : nat) (msg : pystr) : list Effect :=
  match r with
  | NoReport => []
  | ReportCleanup => [CleanupStaging]
  | ReportMetadata code with_error =>
      [SyncMetadata (failed_or_cancelled n)
         (if bool_decide (n = 0) then None else Some code)
         (if bool_decide (n = 0) || negb with_error then None else Some msg) true]
  end.

(** The calls made for one orphan, the bucket it goes to and the queue. *)
Definition run_orphan (now : Z) (env : nat -> Queue -> Queue) (a : OrphanAction) (id : string) (q : Queue)
    : list Effect * option pystr * Queue :=
  match a with
  | SkipSelfActive => ([], None, q)
  | FinishCancelling => (discard ++ [CleanupStaging], None, settle_cancelled now env 0 id q)
  | FailWith msg report =>
      let '(n, q') := fail_or_cancel now env 0 id msg q in (report_effects report n msg, None, q')
  | RequeueLocal =>
      let '(ok, q1) := requeue_single_q now id (env 0 q) in
      if ok then ([SyncMetadata queued None None true], None, q1)
      else (discard, None, settle_cancelled now env 1 id q1)
  | Resume provider => ([], Some provider, q)
  end.

(** The loop over [list_orphan_tasks_on_start]: the calls, the buckets for
    the background dispatcher and the queue. *)
Definition _handle_orphan_tasks_on_start (load : Task -> option VideoCheckpoint) (_extract_provider : Task -> pystr)
    (now : Z) (env : nat -> Queue -> Queue) (self_active : list string) (q : Queue)
    : list Effect * list (pystr * list string) * Queue :=
  foldl (fun '(eff, buckets, q) d =>
      let t := row d in
      let '(eff', dest, q') := run_orphan now env (orphan_action load _extract_provider self_active t) (task_id t) q in
      let buckets' := match dest with
                      | Some p => aset p (default [] (aget p buckets) ++ [task_id t]) buckets
                      | None => buckets
                      end in
      (eff ++ eff', buckets', q')) ([], [], q) (list_orphan_tasks_on_start (mkSession (qdb q) [])).

(** ** The dispatcher of one provider *)

(** The limit of the bucket, after one reload if the lane looks closed:
    the capacity table and the limit. *)
Definition bucket_capacity (loaded : option Capacity.CapacityTable) (provider : string) (cap : Capacity.CapacityTable)
    : Capacity.CapacityTable * Z :=
  if (Capacity.get cap provider "video" <=? 0)%Z
  then let cap' := Capacity.reload_limits loaded cap in (cap', Capacity.get cap' provider "video")
  else (cap, Capacity.get cap provider "video").

Definition capacity_zero_message (provider : string) : pystr :=
  envelope (u "resume_unsupported_capacity_zero") [(u "provider_id", JStr (u provider))].

(** A closed lane: every task of the bucket is failed. *)
Definition fail_bucket (now : Z) (env : nat -> Queue -> Queue) (provider : string) (tasks_ : list string) (q : Queue)
    : list Effect * Queue :=
  foldl (fun '(eff, q) id =>
      (eff ++ [CleanupStaging], (fail_or_cancel now env 0 id (capacity_zero_message provider) q).2)) ([], q) tasks_.

(** [_run_one] once it holds the semaphore. *)
Definition run_one (now : Z) (env : nat -> Queue -> Queue) (load : Task -> option VideoCheckpoint)
    (t : Task) (out : ResumeOutcome) (q : Queue) : list Effect * Queue :=
  let '(eff, raised, q1) := _process_resume_task now env load t out q in
  (if raised then eff ++ [CleanupStaging] else eff, settle_raised now env 9 (task_id t) raised q1).

Inductive phase := Waiting | Working | Ended.

#[export] Instance phase_eq_dec : EqDecision phase.
Proof. solve_decision. Defined.

Section dispatch.
Context {Fut : Type} (provider : string) (fut : string -> Fut).

(** The semaphore's free permits, the phase of each sub-task, the slot
    table and the worker's stop event. *)
Record Dispatch := mkDispatch {
  permits : nat;
  phases : list (string * phase);
  d_slots : Slots Fut;
  stop_event : bool
}.

(** The parent coroutine registers every sub-task as pending. *)
Definition dispatch_start (cap : nat) (tasks_ : list string) (s : Slots Fut) (stop : bool) : Dispatch :=
  if stop then mkDispatch cap [] s true
  else mkDispatch cap (map (fun id => (id, Waiting)) tasks_)
         (foldl (fun s id => register provider "video" id (fut id) true s) s tasks_) false.

Definition set_phase (id : string) (ph : phase) (d : Dispatch) : list (string * phase) := aset id ph (phases d).

Definition end_task (id : string) (k : nat) (d : Dispatch) : Dispatch :=
  mkDispatch k (set_phase id Ended d) (release provider "video" id (d_slots d)) (stop_event d).

(** What the rest of the worker may do to the slot table meanwhile: it
    touches other entries, and only drains futures that are done, which a
    sub-task that has not ended is not. *)
Definition foreign (o : slot_op Fut) (d : Dispatch) : Prop :=
  match o with
  | ORegister p m t _ _ | OPromote p m t | ORelease p m t =>
      ~ (p = provider /\ m = "video" /\ t ∈ (phases d).*1)
  | ODrain done => forall id ph, aget id (phases d) = Some ph -> ph <> Ended -> done (fut id) = false
  | OClear => False
  end.

(** A step of the bucket's own coroutines: a waiting task gets the
    semaphore and is promoted, or gives it back at once because the worker
    is stopping; a working task comes back. *)
Inductive run_step : Dispatch -> Dispatch -> Prop :=
| step_acquire d id k :
    aget id (phases d) = Some Waiting -> permits d = S k -> stop_event d = false ->
    run_step d (mkDispatch k (set_phase id Working d) (promote provider "video" id (d_slots d)) (stop_event d))
| step_stopped d id k :
    aget id (phases d) = Some Waiting -> permits d = S k -> stop_event d = true ->
    run_step d (end_task id (permits d) d)
| step_finish d id :
    aget id (phases d) = Some Working -> run_step d (end_task id (S (permits d)) d).

(** All that can happen: besides, a waiting task is cancelled, the worker
    is told to stop, or the rest of the worker uses the slot table. *)
Inductive dispatch_step : Dispatch -> Dispatch -> Prop :=
| step_run d d' : run_step d d' -> dispatch_step d d'
| step_cancelled d id :
    aget id (phases d) = Some Waiting -> dispatch_step d (end_task id (permits d) d)
| step_stop d : dispatch_step d (mkDispatch (permits d) (phases d) (d_slots d) true)
| step_other d o : foreign o d ->
    dispatch_step d (mkDispatch (permits d) (phases d) (run_op o (d_slots d)) (stop_event d)).

(** ** The invariant of the dispatcher *)

Definition in_phase (ph : phase) (d : Dispatch) : nat :=
  length (where_ (fun kv : string * phase => bool_decide (kv.2 = ph)) (phases d)).

(** What the slot table shows of a task in each phase. *)
Definition expected (ph : phase) (id : string) : option (_Occupant Fut) :=
  match ph with
  | Waiting => Some (mkOcc (fut id) true)
  | Working => Some (mkOcc (fut id) false)
  | Ended => None
  end.

Record dispatch_ok (cap : nat) (d : Dispatch) : Prop := {
  do_wf : wf_slots (d_slots d);
  do_permits : permits d + in_phase Working d = cap;
  do_held : forall id ph, aget id (phases d) = Some ph ->
    holder provider "video" id (d_slots d) = expected ph id
}.

Lemma count_aset (ph ph' : phase) k v0 (l : list (string * phase)) :
  aget k l = Some v0 ->
  length (where_ (fun kv : string * phase => bool_decide (kv.2 = ph)) (aset k ph' l)) + (if bool_decide (v0 = ph) then 1 else 0)
  = length (where_ (fun kv : string * phase => bool_decide (kv.2 = ph)) l) + (if bool_decide (ph' = ph) then 1 else 0).
Proof.
  induction l as [|[k' v] l IH]; simpl; [done|]. destruct (decide (k' = k)) as [->|Hne].
  - rewrite !(bool_decide_eq_true_2 (k = k)) by done. intros [= ->]. clear IH. simpl. repeat case_bool_decide; simpl; lia.
  - rewrite !(bool_decide_eq_false_2 (k' = k)) by done. intros H%IH. clear IH. simpl. destruct (bool_decide (v = ph)); simpl; lia.
Qed.

Lemma in_phase_set ph id ph0 ph1 d k s b :
  aget id (phases d) = Some ph0 ->
  in_phase ph (mkDispatch k (set_phase id ph1 d) s b) + (if bool_decide (ph0 = ph) then 1 else 0)
  = in_phase ph d + (if bool_decide (ph1 = ph) then 1 else 0).
Proof. apply count_aset. Qed.

Lemma start_held tasks_ s id :
  wf_slots s ->
  let s' := foldl (fun s id => register provider "video" id (fut id) true s) s tasks_ in
  wf_slots s' /\ (id ∈ tasks_ \/ holder provider "video" id s = expected Waiting id ->
                  holder provider "video" id s' = expected Waiting id).
Proof.
  revert s. induction tasks_ as [|x l IH]; intros s Hw; cbv zeta; simpl.
  - split; [done|]. intros [H|H]; [by apply not_elem_of_nil in H|done].
  - destruct (IH (register provider "video" x (fut x) true s) (register_wf _ _ _ _ _ _ Hw)) as [Hw' Hh].
    split; [done|]. intros H. apply Hh. rewrite holder_register.
    case_bool_decide as E; [destruct E as (_ & _ & ->); by right|].
    destruct H as [[->|H]%elem_of_cons|H]; [by destruct E|by left|by right].
Qed.

Lemma dispatch_start_ok cap tasks_ s stop : wf_slots s -> dispatch_ok cap (dispatch_start cap tasks_ s stop).
Proof.
  intros Hw. unfold dispatch_start. destruct stop; [split; [done|apply Nat.add_0_r|done]|].
  split; cbn [d_slots permits phases].
  - by apply (start_held tasks_ s "").
  - unfold in_phase. cbn [phases]. 
    assert (where_ (fun kv : string * phase => bool_decide (kv.2 = Working)) (map (fun id => (id, Waiting)) tasks_) = []) as ->.
    { apply where_nil. intros x Hx. apply list_elem_of_In, in_map_iff in Hx as (y & <- & _). done. }
    apply Nat.add_0_r.
  - intros id ph H. assert (ph = Waiting /\ id ∈ tasks_) as [-> Hin].
    { apply aget_Some_elem, list_elem_of_In, in_map_iff in H as (y & [= -> ->] & Hy). by apply list_elem_of_In in Hy. }
    apply start_held; [done|by left].
Qed.

Lemma end_task_ok cap d id k ph :
  dispatch_ok cap d -> aget id (phases d) = Some ph -> k + in_phase Working (end_task id k d) = cap ->
  dispatch_ok cap (end_task id k d).
Proof.
  intros [Hw Hp Hh] Hid Hk. split; [by apply release_wf|done|].
  intros id' ph'. unfold end_task, set_phase. cbn [phases d_slots]. rewrite aget_aset, holder_release.
  case_bool_decide as E.
  - subst. intros [= <-]. by rewrite bool_decide_eq_true_2 by done.
  - intros H. rewrite bool_decide_eq_false_2; [by apply Hh|]. by intros (_ & _ & ?).
Qed.

Lemma foreign_keeps o d id ph :
  wf_slots (d_slots d) -> foreign o d -> aget id (phases d) = Some ph ->
  holder provider "video" id (d_slots d) = expected ph id ->
  holder provider "video" id (run_op o (d_slots d)) = expected ph id.
Proof.
  intros Hw Hf Hid Hh. pose proof (run_op_refines o _ Hw provider "video" id) as Hr. simpl in Hr. rewrite Hr.
  assert (id ∈ (phases d).*1) as Hin.
  { apply list_elem_of_fmap. exists (id, ph). split; [done|]. by apply aget_Some_elem. }
  destruct o as [p m t f b|p m t|p m t|done_|]; simpl in Hf |- *; try done.
  1-3: rewrite bool_decide_eq_false_2; [done|]; by intros (-> & -> & ->); apply Hf.
  rewrite Hh. destruct ph; simpl; [done| |done]. unfold drainable. simpl. by rewrite (Hf id Working).
Qed.

Lemma dispatch_step_ok cap d d' : dispatch_ok cap d -> dispatch_step d d' -> dispatch_ok cap d'.
Proof.
  intros Hok Hs. pose proof Hok as [Hw Hp Hh]. destruct Hs as [d d' Hr|d id Hid|d|d o Hf].
  - destruct Hr as [d id k Hid Hk Hst|d id k Hid Hk Hst|d id Hid].
    + split; cbn [d_slots permits phases]; [by apply promote_wf| |].
      * pose proof (in_phase_set Working id Waiting Working d k (promote provider "video" id (d_slots d)) (stop_event d) Hid) as Hc.
        rewrite bool_decide_eq_false_2, bool_decide_eq_true_2 in Hc by done. lia.
      * intros id' ph'. unfold set_phase. rewrite aget_aset, holder_promote. case_bool_decide as E.
        -- subst. intros [= <-]. rewrite bool_decide_eq_true_2 by done. by rewrite (Hh _ _ Hid).
        -- intros H. rewrite bool_decide_eq_false_2; [by apply Hh|]. by intros (_ & _ & ?).
    + apply (end_task_ok _ _ _ _ Waiting); [done..|].
      pose proof (in_phase_set Working id Waiting Ended d (permits d) (release provider "video" id (d_slots d)) (stop_event d) Hid) as Hc.
      rewrite !bool_decide_eq_false_2 in Hc by done. unfold end_task. lia.
    + apply (end_task_ok _ _ _ _ Working); [done..|].
      pose proof (in_phase_set Working id Working Ended d (S (permits d)) (release provider "video" id (d_slots d)) (stop_event d) Hid) as Hc.
      rewrite bool_decide_eq_true_2, bool_decide_eq_false_2 in Hc by done. unfold end_task. lia.
  - apply (end_task_ok _ _ _ _ Waiting); [done..|].
    pose proof (in_phase_set Working id Waiting Ended d (permits d) (release provider "video" id (d_slots d)) (stop_event d) Hid) as Hc.
    rewrite !bool_decide_eq_false_2 in Hc by done. unfold end_task. lia.
  - by split.
  - split; [by apply run_op_wf|done|]. intros id ph Hid. by apply foreign_keeps; [| |exact Hid|apply Hh].
Qed.

Lemma dispatch_reachable_ok cap d d' : dispatch_ok cap d -> rtc dispatch_step d d' -> dispatch_ok cap d'.
Proof. intros Hok Hr. induction Hr as [|d d1 d' Hs _ IH]; [done|]. by apply IH, (dispatch_step_ok cap d). Qed.

Lemma dispatch_keys d d' : NoDup (phases d).*1 -> rtc dispatch_step d d' -> NoDup (phases d').*1.
Proof.
  intros Hnd Hr. induction Hr as [|d d1 d' Hs _ IH]; [done|]. apply IH. clear IH.
  destruct Hs as [? ? []|? ? ?|?|? ? ?]; cbn [phases end_task]; try done; by apply aset_NoDup.
Qed.

Lemma in_phase_pos ph d : NoDup (phases d).*1 -> 0 < in_phase ph d <-> exists id, aget id (phases d) = Some ph.
Proof.
  intros Hnd. unfold in_phase. split.
  - destruct (where_ _ (phases d)) as [|[id ph'] l] eqn:E; simpl; [lia|]. intros _. exists id.
    assert ((id, ph') ∈ where_ (fun kv : string * phase => bool_decide (kv.2 = ph)) (phases d)) as Hin by (rewrite E; left).
    apply elem_of_where in Hin as [Hin Hp]. simpl in Hp. to_prop. subst. by apply aget_elem.
  - intros [id Hid]. apply aget_Some_elem in Hid.
    destruct (where_ _ (phases d)) eqn:E; simpl; [|lia]. rewrite where_nil in E. specialize (E _ Hid).
    simpl in E. by to_prop.
Qed.

(** Work left: a waiting task takes two steps, a working one a single one. *)
Definition remaining (d : Dispatch) : nat := 2 * in_phase Waiting d + in_phase Working d.

Lemma run_step_decreases d d' : run_step d d' -> remaining d' < remaining d.
Proof.
  unfold remaining. intros [d0 id k Hid _ _|d0 id k Hid _ _|d0 id Hid]; unfold end_task;
    match goal with |- context [mkDispatch ?k (set_phase id ?ph _) ?s ?b] =>
      pose proof (in_phase_set Waiting id _ ph d0 k s b Hid) as H1;
      pose proof (in_phase_set Working id _ ph d0 k s b Hid) as H2
    end; repeat case_bool_decide; try done; lia.
Qed.
End dispatch.
Arguments Dispatch : clear implicits.

(** ** What the decision guarantees *)

Section no_rebilling.
Context (rj sj : pystr -> option VideoCheckpoint) (extract : Task -> pystr) (active : list string) (t : Task).
Abbreviation load := (load_task_video_checkpoint rj sj).

(** A resumed orphan: the provider's job is known, the provider can resume
    it and, on the storyboard routes, the checkpoint belongs to this very
    task and fixes the provider. *)
Definition safely_resumed (p : pystr) : Prop :=
  truthy (provider_job_id t) = true /\ p ∉ NON_RESUMABLE_VIDEO_PROVIDERS
  /\ orphan_media_type t <> "image" /\ orphan_media_type t <> "audio"
  /\ (task_type t ∈ ["video"; "reference_video"] ->
      exists c, load t = Some c /\ cp_provider_id c = p /\ cp_task_id c = u (task_id t) /\ cp_unit_id c = u (resource_id t)).

Definition justified (a : OrphanAction) : Prop :=
  match a with
  | SkipSelfActive => task_id t ∈ active
  | FinishCancelling => task_id t ∉ active /\ status t = cancelling
  | FailWith _ _ => task_id t ∉ active /\ status t <> cancelling
  | RequeueLocal => task_id t ∉ active /\ status t <> cancelling
      /\ orphan_media_type t = "postprocess" /\ task_type t <> "free_video"
  | Resume p => task_id t ∉ active /\ status t <> cancelling /\ safely_resumed p
  end.

Hypothesis Hact : task_id t ∉ active.
Hypothesis Hst : status t <> cancelling.
Hypothesis Himg : orphan_media_type t <> "image".
Hypothesis Haud : orphan_media_type t <> "audio".

Lemma free_video_justified : task_type t ∉ ["video"; "reference_video"] -> justified (orphan_free_video t).
Proof using Hact Hst Himg Haud.
  intros Hty. unfold orphan_free_video.
  assert (forall p, truthy (provider_job_id t) = true -> p ∉ NON_RESUMABLE_VIDEO_PROVIDERS -> justified (Resume p)) as Hres
    by (intros p Hj Hp; by split_and!).
  destruct (classify_free_video_resume_state t) as [st cp] eqn:E. destruct st; try done.
  assert (truthy (provider_job_id t) = true) as Hj.
  { destruct cp as [c|]; [by apply classify_ready in E as [? _]|by apply classify_not_ready in E]. }
  destruct (match text_member _ _ with Some p => Some p | None => row_provider t end) as [p|].
  - case_bool_decide; [done|]. by apply Hres.
  - apply Hres; [done|]. vm_compute. intros H. repeat (apply elem_of_cons in H as [H|H]; [discriminate|]).
    by apply not_elem_of_nil in H.
Qed.

Lemma route_justified p :
  (task_type t ∈ ["video"; "reference_video"] -> exists c, load t = Some c /\ cp_provider_id c = p) ->
  justified (orphan_route t p).
Proof using Hact Hst Himg Haud.
  intros Hl. unfold orphan_route. case_bool_decide; [done|]. destruct (truthy _) eqn:Ej; [|done].
  split; [done|]. split; [done|]. unfold safely_resumed. split_and!; try done. intros Hty. destruct (Hl Hty) as (c & Hc & Hp). exists c.
  destruct (load_binds rj sj t c Hc) as (? & _ & _ & ? & _). done.
Qed.
End no_rebilling.

(** ** Theorems *)


(** The scan settles every orphan it does not keep: a task found running
    or cancelling is afterwards terminal, or queued if it was put back as
    local work; it is untouched only if this process still runs it or it was
    handed to the resume dispatcher.  Failure metadata is written exactly
    when the task ended failed. *)
Theorem orphan_settled now env load extract active t q :
  env_ok (task_id t) env -> status_is in_hand (task_id t) q ->
  let a := orphan_action load extract active t in
  let '(eff, dest, q') := run_orphan now env a (task_id t) q in
  match a with
  | SkipSelfActive => eff = [] /\ dest = None /\ q' = q
  | Resume p => eff = [] /\ dest = Some p /\ q' = q
  | RequeueLocal => dest = None /\ (ends_as (task_id t) queued q' \/ (ends_as (task_id t) cancelled q' /\ eff = discard))
  | FinishCancelling => dest = None /\ ends_as (task_id t) cancelled q'
  | FailWith msg r => dest = None
      /\ ((ends_as (task_id t) failed q' /\ eff = report_effects r 1 msg)
          \/ (ends_as (task_id t) cancelled q' /\ eff = report_effects r 0 msg))
  end.
Proof.
  intros He Hs a. destruct a as [| |msg r| |p]; cbn [run_orphan fst snd]; try done.
  - split; [done|]. by apply settle_ends.
  - destruct (fail_or_cancel_rows now env (task_id t) He 0 msg q Hs) as [[Hn Hx]|[Hn Hx]];
      destruct (fail_or_cancel _ _ _ _ _ _) as [n q']; cbn [fst snd] in *; subst n; (split; [done|]); [left|right]; done.
  - destruct (requeue_ends now (task_id t) _ (in_hand_env (task_id t) env 0 q He Hs)) as [[Hn Hx]|[Hn Hx]];
      destruct (requeue_single_q _ _ _) as [b q1]; cbn [fst snd] in *; subst b; cbn [fst snd].
    + split; [done|]. by left.
    + split; [done|]. right. split; [by apply settle_ends|done].
Qed.

Lemma orphan_settled_witness :
  orphan_action (fun _ => None) (fun _ => u "ark") [] demo_row
    = FailWith (restart_message "restart_lost_no_job_id") ReportCleanup /\
  (ends_as "t1" failed (run_orphan 20 demo_env (orphan_action (fun _ => None) (fun _ => u "ark") [] demo_row) "t1" demo_queue).2
   \/ ends_as "t1" cancelled (run_orphan 20 demo_env (orphan_action (fun _ => None) (fun _ => u "ark") [] demo_row) "t1" demo_queue).2).
Proof.
  assert (orphan_action (fun _ => None) (fun _ => u "ark") [] demo_row
    = FailWith (restart_message "restart_lost_no_job_id") ReportCleanup) as Ha by (vm_compute; reflexivity).
  split; [exact Ha|].
  pose proof (orphan_settled 20 demo_env (fun _ => None) (fun _ => u "ark") [] demo_row demo_queue demo_env_ok demo_in_hand) as H.
  cbv zeta in H. rewrite Ha in *. change (task_id demo_row) with "t1" in H.
  destruct (run_orphan 20 demo_env _ "t1" demo_queue) as [[eff dest] q'].
  destruct H as [_ [[H _]|[H _]]]; [left|right]; exact H.
Defined.

(** The resume dispatcher keeps to the provider's limit: however the
    resumed tasks, cancellations, a shutdown and the rest of the worker
    interleave, never more than the limit of them work at once, the
    semaphore's permits always account for the rest, every task holds its
    slot (pending while it waits, in flight while it works) and none once it
    has ended. *)
Theorem dispatch_keeps_limit {Fut} provider (fut : string -> Fut) cap tasks_ s stop d :
  wf_slots s -> rtc (dispatch_step provider fut) (dispatch_start provider fut cap tasks_ s stop) d ->
  in_phase Working d <= cap /\ permits d = cap - in_phase Working d
  /\ forall id ph, aget id (phases d) = Some ph -> holder provider "video" id (d_slots d) = expected fut ph id.
Proof.
  intros Hw Hr. destruct (dispatch_reachable_ok provider fut cap _ d (dispatch_start_ok provider fut cap tasks_ s stop Hw) Hr)
    as [_ Hp Hh]. split; [lia|]. split; [lia|done].
Qed.

(** C16: the resume dispatcher cannot get stuck: with a positive limit, as
    long as some task of the bucket has not ended, one of them can make a
    step without outside help, and every such step strictly reduces the work
    left, so all tasks end. *)
Theorem dispatch_completes {Fut} provider (fut : string -> Fut) cap tasks_ s stop d :
  wf_slots s -> NoDup tasks_ -> 0 < cap -> rtc (dispatch_step provider fut) (dispatch_start provider fut cap tasks_ s stop) d ->
  (remaining d = 0 \/ exists d', run_step provider d d')
  /\ (forall d', run_step provider d d' -> remaining d' < remaining d)
  /\ (remaining d = 0 -> forall id ph, aget id (phases d) = Some ph -> ph = Ended).
Proof.
  intros Hw Hnd Hcap Hr.
  destruct (dispatch_reachable_ok provider fut cap _ d (dispatch_start_ok provider fut cap tasks_ s stop Hw) Hr) as [_ Hp _].
  apply dispatch_keys in Hr.
  2: { unfold dispatch_start. destruct stop; simpl; [apply NoDup_nil_2|]. by rewrite <- list_fmap_compose, list_fmap_id. }
  split; [|split; [by apply run_step_decreases|]].
  - destruct (decide (0 < in_phase Working d)) as [Hw'|Hw'].
    + apply in_phase_pos in Hw' as [id Hid]; [|done]. right. eexists. by apply step_finish.
    + destruct (decide (0 < in_phase Waiting d)) as [Ha|Ha]; [|left; unfold remaining; lia].
      apply in_phase_pos in Ha as [id Hid]; [|done]. right. destruct (permits d) as [|k] eqn:Ek; [lia|].
      destruct (stop_event d) eqn:Est; eexists; [by eapply step_stopped|by eapply step_acquire].
  - unfold remaining. intros H0 id ph Hid. assert (0 < in_phase ph d) as Hpos by (apply in_phase_pos; eauto).
    destruct ph; [lia|lia|done].
Qed.

(** Two resumed videos on one slot: the first works, the second waits. *)
Definition demo_dispatch : Dispatch string := dispatch_start "ark" id 1 ["t1"; "t2"] [] false.
Definition demo_first : Dispatch string :=
  mkDispatch 0 (set_phase "t1" Working demo_dispatch) (promote "ark" "video" "t1" (d_slots demo_dispatch)) false.

Lemma demo_reach : rtc (dispatch_step "ark" id) demo_dispatch demo_first.
Proof. apply rtc_once, step_run, (step_acquire "ark" demo_dispatch "t1" 0); reflexivity. Qed.

Lemma dispatch_keeps_limit_witness :
  in_phase Working demo_first <= 1 /\ holder "ark" "video" "t2" (d_slots demo_first) = Some (mkOcc "t2" true).
Proof.
  destruct (dispatch_keeps_limit "ark" id 1 ["t1"; "t2"] [] false demo_first) as (H1 & _ & H3).
  - split; [apply NoDup_nil_2|apply Forall_nil; exact I].
  - exact demo_reach.
  - split; [exact H1|]. apply (H3 "t2" Waiting). reflexivity.
Defined.

Lemma dispatch_completes_witness : remaining demo_first = 3 /\ exists d', run_step "ark" demo_first d'.
Proof.
  split; [reflexivity|].
  destruct (dispatch_completes "ark" id 1 ["t1"; "t2"] [] false demo_first) as ([H|H] & _).
  - split; [apply NoDup_nil_2|apply Forall_nil; exact I].
  - apply (bool_decide_unpack _); vm_compute; exact I.
  - repeat constructor.
  - exact demo_reach.
  - discriminate H.
  - exact H.
Defined.
