(* ===== verification/WorkerLoop.v ===== *)
(** * The worker's main loop: [GenerationWorker._run_loop]

    Each cycle renews the lease, drains finished executions, recovers orphans
    when the lease was just won, and claims tasks.  [loop_cycle] is the
    bookkeeping of a cycle; [worker_cycle] composes it with the queue, the
    slot table, the orphan scan and the claim loop. *)

From S2P Require Import Prelude Json TaskFailure TaskStore TaskRepo Scenario TaskInv TaskOps TaskCascade.
From S2P Require Import SlotTable Checkpoint Queue WorkerClaim WorkerRun Recovery.

(** ** The main loop *)

(** The fields of the worker that [_run_loop] maintains. *)
Record LoopState := mkLoop {
  owns_lease : bool;
  lease_lost_monotonic : option Z;
  orphan_handled_once : bool
}.

Definition _ORPHAN_RESCAN_LEASE_LOST_MULT : Z := 3.

(** One cycle up to the claim: [acquired] is the answer of the lease,
    [mono] the monotonic clock.  Returns the new state, whether orphans are
    scanned in this cycle and whether tasks are claimed. *)
Definition loop_cycle (lease_ttl mono : Z) (acquired : bool) (st : LoopState) : LoopState * bool * bool :=
  let had_lease := owns_lease st in
  let lost := if had_lease && negb acquired && negb (is_set (lease_lost_monotonic st))
              then Some mono else lease_lost_monotonic st in
  let '(lost', handled) :=
    match acquired, lost with
    | true, Some at_ =>
        (None, if (lease_ttl * _ORPHAN_RESCAN_LEASE_LOST_MULT <? mono - at_)%Z then false else orphan_handled_once st)
    | _, _ => (lost, orphan_handled_once st)
    end in
  let scan := acquired && negb handled in
  (mkLoop acquired lost' (handled || scan), scan, acquired).

(** The cycles of a run, each with its clock and lease answer. *)
Fixpoint run_cycles (lease_ttl : Z) (inputs : list (Z * bool)) (st : LoopState) : list (bool * bool) :=
  match inputs with
  | [] => []
  | (mono, acquired) :: rest =>
      let '(st', scan, claim) := loop_cycle lease_ttl mono acquired st in
      (scan, claim) :: run_cycles lease_ttl rest st'
  end.

Definition initial_loop : LoopState := mkLoop false None false.

(** ** A whole cycle *)

Section cycle.
Context {Fut : Type}.
Context (cap : Capacity.CapacityTable) (_extract_provider : TaskDict -> string) (spawn : TaskDict -> Fut)
        (load : Task -> option VideoCheckpoint).
(** What other sessions do between the worker's writes. *)
Context (env : nat -> Queue -> Queue).
Context (lease_name owner_id : string) (lease_ttl : Z).

Record Worker := mkWorker {
  w_loop : LoopState;
  w_slots : Slots Fut;
  w_queue : Queue
}.

(** The inputs of a cycle: the wall clock, the monotonic clock, and which
    futures are done and which of them were cancelled.  Returns whether
    anything was claimed, the buckets handed to the resume dispatcher, and
    the worker; [None] would be a claim loop that does not end. *)
Definition worker_cycle (now mono : Z) (done was_cancelled : Fut -> bool) (w : Worker)
    : option (bool * list (pystr * list string) * Worker) :=
  let '(acquired, q1) := acquire_or_renew_worker_lease now lease_name owner_id lease_ttl (w_queue w) in
  let '(s1, q2) := _drain_finished_tasks now env done was_cancelled (w_slots w) q1 in
  let '(st, scan, claim) := loop_cycle lease_ttl mono acquired (w_loop w) in
  let '(_, buckets, q3) :=
    if scan
    then _handle_orphan_tasks_on_start load (fun t => u (_extract_provider (_task_to_dict t))) now env (active_task_ids s1) q2
    else ([], [], q2) in
  if claim then
    match _claim_tasks cap _extract_provider spawn now q3 s1 with
    | Some (any, q4, s2) => Some (any, buckets, mkWorker st s2 q4)
    | None => None
    end
  else Some (false, buckets, mkWorker st s1 q3).

(** Everything in flight has come back: the slots are cleared. *)
Definition _wait_inflight_completion (s : Slots Fut) : Slots Fut :=
  match all_active_tasks s with [] => s | _ => clear s end.

(** The end of [_run_loop]: the lease is given up if it was held. *)
Definition shutdown (w : Worker) : Worker :=
  mkWorker (mkLoop false (lease_lost_monotonic (w_loop w)) (orphan_handled_once (w_loop w)))
    (_wait_inflight_completion (w_slots w))
    (if owns_lease (w_loop w) then release_worker_lease lease_name owner_id (w_queue w) else w_queue w).
End cycle.
Arguments Worker : clear implicits.

(** ** The bookkeeping *)

Lemma loop_cycle_shape ttl mono acquired st :
  let '(st', scan, claim) := loop_cycle ttl mono acquired st in
  claim = acquired /\ owns_lease st' = acquired
  /\ (scan = true -> acquired = true /\ orphan_handled_once st' = true)
  /\ (acquired = true -> orphan_handled_once st' = true)
  /\ (orphan_handled_once st' = true -> orphan_handled_once st = true \/ scan = true).
Proof.
  unfold loop_cycle. destruct acquired, (owns_lease st), (lease_lost_monotonic st), (orphan_handled_once st); simpl;
    repeat case_match; simpl; naive_solver.
Qed.

Lemma run_cycles_before ttl inputs st k :
  run_cycles ttl inputs st !! k = Some (false, true) -> 
  orphan_handled_once st = true \/ exists j, j < k /\ exists c, run_cycles ttl inputs st !! j = Some (true, c).
Proof.
  revert st k. induction inputs as [|[mono acq] inputs IH]; intros st k; cbn [run_cycles]; [done|].
  pose proof (loop_cycle_shape ttl mono acq st) as Hc. destruct (loop_cycle ttl mono acq st) as [[st' scan] claim].
  destruct Hc as (-> & _ & _ & H2 & H3). destruct k as [|k]; simpl.
  - intros [= -> ->]. left. destruct (H3 (H2 eq_refl)); done.
  - intros Hk. destruct (IH st' k Hk) as [Hh|(j & Hj & c & Hs)].
    + destruct (H3 Hh) as [Hst| ->]; [by left|]. right. exists 0. split; [lia|]. by exists acq.
    + right. exists (S j). split; [lia|]. by exists c.
Qed.

(** A worker claims tasks only in cycles in which it holds the lease, and
    never before it has recovered the orphans: every claiming cycle either
    scans them itself or follows one that did. *)
Theorem claims_need_lease_and_recovery ttl inputs k scan :
  run_cycles ttl inputs initial_loop !! k = Some (scan, true) ->
  (exists mono, inputs !! k = Some (mono, true)) /\
  exists j, j <= k /\ exists c, run_cycles ttl inputs initial_loop !! j = Some (true, c).
Proof.
  intros Hk. split.
  - revert k Hk. generalize initial_loop. induction inputs as [|[mono acq] inputs IH]; intros st k; cbn [run_cycles]; [done|].
    pose proof (loop_cycle_shape ttl mono acq st) as Hc. destruct (loop_cycle ttl mono acq st) as [[st' sc] cl].
    destruct Hc as (-> & _). destruct k as [|k]; simpl; [intros [= _ ->]; eauto|apply IH].
  - destruct scan; [exists k; split; [lia|by exists true]|].
    apply run_cycles_before in Hk as [|(j & Hj & c & Hs)]; [done|]. exists j. split; [lia|]. by exists c.
Qed.

Lemma claims_need_lease_and_recovery_witness :
  exists j, j <= 2 /\ exists c, run_cycles 10 [(0, false); (3, true); (4, true)]%Z initial_loop !! j = Some (true, c).
Proof.
  apply (claims_need_lease_and_recovery 10 [(0, false); (3, true); (4, true)]%Z 2 false). vm_compute. reflexivity.
Defined.

(** Scans from a state that has already scanned, within one threshold. *)
Lemma no_rescan ttl lo inputs st :
  orphan_handled_once st = true ->
  (forall a, lease_lost_monotonic st = Some a -> (lo <= a)%Z) ->
  Forall (fun i => (lo <= i.1 <= lo + ttl * _ORPHAN_RESCAN_LEASE_LOST_MULT)%Z) inputs ->
  Forall (fun o => o.1 = false) (run_cycles ttl inputs st).
Proof.
  revert st. induction inputs as [|[mono acq] inputs IH]; intros st Hh Hlost Hall; cbn [run_cycles]; [constructor|].
  inv Hall. simpl in *.
  assert (forall a, lease_lost_monotonic st = Some a -> (ttl * _ORPHAN_RESCAN_LEASE_LOST_MULT <? mono - a)%Z = false) as Hno.
  { intros a Ha%Hlost. apply Z.ltb_ge. lia. }
  assert ((ttl * _ORPHAN_RESCAN_LEASE_LOST_MULT <? mono - mono)%Z = false) as Hnow.
  { apply Z.ltb_ge. lia. }
  unfold loop_cycle. rewrite Hh. destruct (lease_lost_monotonic st) as [a|] eqn:El.
  - rewrite andb_false_r. destruct acq.
    + rewrite (Hno a eq_refl). constructor; [done|]. by apply IH.
    + constructor; [done|]. apply IH; [done| |done]. simpl. intros b [= <-]. by apply Hlost.
  - destruct acq, (owns_lease st); simpl; constructor; try done; apply IH; try done; simpl; intros b Hb; simplify_eq; lia.
Qed.

(** A short loss of the lease does not trigger another recovery: over any
    stretch of cycles no longer than three lease lifetimes, the orphans are
    scanned at most once, however often the lease is lost and regained. *)
Theorem short_flap_scans_once ttl lo inputs :
  Forall (fun i => (lo <= i.1 <= lo + ttl * _ORPHAN_RESCAN_LEASE_LOST_MULT)%Z) inputs ->
  length (where_ fst (run_cycles ttl inputs initial_loop)) <= 1.
Proof.
  intros Hall.
  assert (forall st, (forall a, lease_lost_monotonic st = Some a -> (lo <= a)%Z) ->
    length (where_ fst (run_cycles ttl inputs st)) <= 1) as H; [|by apply H].
  induction inputs as [|[mono acq] inputs IH]; intros st Hlost; cbn [run_cycles]; [simpl; lia|].
  apply Forall_cons in Hall as [Hm Hall]. simpl in Hm.
  destruct (loop_cycle ttl mono acq st) as [[st' scan] claim] eqn:E.
  assert (forall a, lease_lost_monotonic st' = Some a -> (lo <= a)%Z) as Hlost'.
  { revert E. unfold loop_cycle. destruct (lease_lost_monotonic st) as [b|] eqn:El, acq, (owns_lease st); simpl;
      intros [= <- _ _]; simpl; intros a Ha; simplify_eq; try lia; by apply Hlost. }
  pose proof (loop_cycle_shape ttl mono acq st) as Hc. rewrite E in Hc. destruct Hc as (_ & _ & Hsc & _).
  simpl. destruct scan; [|by apply IH]. simpl.
  assert (where_ fst (run_cycles ttl inputs st') = []) as ->; [|simpl; lia].
  apply where_nil. intros x Hx.
  by eapply Forall_forall in Hx; [|apply (no_rescan ttl lo inputs st'); [by apply Hsc|done|done]].
Qed.

Lemma short_flap_scans_once_witness :
  length (where_ fst (run_cycles 10 [(0, true); (5, false); (20, true)]%Z initial_loop)) <= 1.
Proof.
  apply (short_flap_scans_once 10 0 [(0, true); (5, false); (20, true)]%Z).
  repeat constructor; simpl; discriminate.
Defined.

(** ** The rows under a cycle *)

(** Writes of the worker itself, seen through the queue. *)
Section quiet.
Context (now : Z) (env : nat -> Queue -> Queue).
Hypothesis Henv : forall n q, rows_step false (task_rows q) (task_rows (env n q)).

Lemma repo_step_rows {A} c (body : Session -> A * Session) q :
  evolves c (mkSession (qdb q) []) (body (mkSession (qdb q) [])).2 ->
  rows_step c (task_rows q) (task_rows (_task_repo body q).2).
Proof using. intros H. destruct (task_repo_rows body q) as [-> _]. exact (ev_rows _ _ _ H). Qed.

Lemma settle_rows n id b q : rows_step false (task_rows q) (task_rows (settle_raised now env n id b q)).
Proof using Henv.
  destruct b; [|reflexivity]. unfold settle_raised, settle_cancelled, mark_task_cancelled. etrans; [apply (Henv n)|].
  pose proof (repo_step_rows false (finalize_cancelled now id "user") (env n q) (finalize_cancelled_evolves _ _ _ _)) as H.
  destruct (_task_repo _ _) as [[k l] q']. exact H.
Qed.

Lemma fail_rows n id msg q : rows_step false (task_rows q) (task_rows (fail_or_cancel now env n id msg q).2).
Proof using Henv.
  unfold fail_or_cancel, mark_task_failed. etrans; [apply (Henv n)|].
  pose proof (repo_step_rows false (mark_failed now id msg) (env n q) (mark_failed_evolves _ _ _ _)) as H.
  destruct (_task_repo _ _) as [k q1]. cbn [snd] in H. etrans; [exact H|].
  case_bool_decide; [exact (settle_rows (S n) id true q1)|reflexivity].
Qed.

Lemma run_orphan_rows a id q : rows_step false (task_rows q) (task_rows (run_orphan now env a id q).2).
Proof using Henv.
  destruct a as [| |msg r| |p]; cbn [run_orphan snd]; try reflexivity.
  - exact (settle_rows 0 id true q).
  - pose proof (fail_rows 0 id msg q) as H. by destruct (fail_or_cancel _ _ _ _ _ _).
  - unfold requeue_single_q. etrans; [apply (Henv 0)|].
    pose proof (repo_step_rows false (_requeue_single_task now id) (env 0 q) (requeue_single_evolves _ _ _)) as H.
    destruct (_task_repo _ _) as [ok q1]. cbn [snd] in H. etrans; [exact H|].
    destruct ok; [reflexivity|]. exact (settle_rows 1 id true q1).
Qed.

Lemma scan_rows load extract active q :
  rows_step false (task_rows q) (task_rows (_handle_orphan_tasks_on_start load extract now env active q).2).
Proof using Henv.
  unfold _handle_orphan_tasks_on_start. generalize (list_orphan_tasks_on_start (mkSession (qdb q) [])) as l.
  generalize (@nil Effect), (@nil (pystr * list string)). intros eff b l. revert eff b q.
  induction l as [|d l IH]; intros eff b q; simpl; [reflexivity|].
  pose proof (run_orphan_rows (orphan_action load extract active (row d)) (task_id (row d)) q) as H.
  destruct (run_orphan _ _ _ _ _) as [[eff' dest] q']. etrans; [exact H|]. apply IH.
Qed.

Lemma drain_rows {Fut} (done was_cancelled : Fut -> bool) s q :
  rows_step false (task_rows q) (task_rows (_drain_finished_tasks now env done was_cancelled s q).2).
Proof using Henv.
  unfold _drain_finished_tasks. destruct (drain_finished done s) as [fin s']. cbn [snd].
  revert q. induction fin as [|[id f] fin IH]; intros q; simpl; [reflexivity|]. etrans; [apply settle_rows|apply IH].
Qed.
End quiet.

Section claims.
Context {T Fut : Type} `{SlotLedger T Fut} (cap : Capacity.CapacityTable) (extract : TaskDict -> string)
        (spawn : TaskDict -> Fut) (now : Z).

Lemma rows_weaken c l l' : rows_step c l l' -> rows_step true l l'.
Proof. intros Hr. eapply Forall2_impl; [done|]. intros ? ?. apply row_step_weaken. Qed.

Lemma claim_round_rows media (st : LaneState T) :
  match claim_round cap extract spawn now media st with
  | inl st' | inr st' => rows_step true (task_rows (l_queue st)) (task_rows (l_queue st'))
  end.
Proof.
  unfold claim_round, claim_next_task.
  pose proof (repo_step_rows true (claim_next now media (_pool_full_providers cap media (l_slots st)) (attempted st)) (l_queue st)
    (claim_next_evolves _ _ _ _ _)) as Hc.
  destruct (_task_repo _ _) as [[d|] q1]; cbn [snd] in Hc; [|done].
  destruct (_ <=? 0)%Z; [|destruct (sl_has_room _ _ _ _); cbn [negb]].
  - cbn [l_queue]. etrans; [exact Hc|]. apply (rows_weaken false), repo_step_rows, mark_failed_evolves.
  - exact Hc.
  - set (q3 := (requeue_single_q _ _ _).2).
    assert (rows_step true (task_rows q1) (task_rows q3)) as H3.
    { apply (rows_weaken false). etrans;
        [|apply (repo_step_rows false (_requeue_single_task now (task_id (row d)))); apply requeue_single_evolves].
      apply (repo_step_rows false (fun s => (tt, persist_execution_provider_id now (task_id (row d)) (extract d) s))).
      apply persist_execution_provider_id_evolves. }
    case_bool_decide; cbn [l_queue]; etrans; [exact Hc|exact H3|exact Hc|exact H3].
Qed.

Lemma claim_lane_rows fuel media (st st' : LaneState T) :
  claim_lane cap extract spawn now fuel media st = Some st' ->
  rows_step true (task_rows (l_queue st)) (task_rows (l_queue st')).
Proof.
  revert st. induction fuel as [|f IH]; intros st; cbn [claim_lane]; [done|].
  pose proof (claim_round_rows media st) as Hr. destruct (claim_round _ _ _ _ _ _) as [s1|s1].
  - intros H1. etrans; [exact Hr|by apply IH].
  - by intros [= <-].
Qed.

Lemma claim_tasks_rows q s any q' s' :
  _claim_tasks cap extract spawn now q s = Some (any, q', s') -> rows_step true (task_rows q) (task_rows q').
Proof.
  unfold _claim_tasks.
  match goal with |- foldl ?f _ _ = _ -> _ =>
    enough (forall lanes any0 q s, foldl f (Some (any0, q, s)) lanes = Some (any, q', s') ->
      rows_step true (task_rows q) (task_rows q')) as Hall by apply Hall
  end.
  clear q s. induction lanes as [|m lanes IH]; intros any0 q s; cbn [foldl].
  - intros [= <- <- <-]. reflexivity.
  - destruct (claim_lane _ _ _ _ _ _ _) as [st|] eqn:E; [|].
    + intros H1. etrans; [exact (claim_lane_rows _ _ _ _ E)|by eapply IH].
    + intros H1. exfalso. revert H1. clear. induction lanes as [|m lanes IH]; [done|exact IH].
Qed.
End claims.

(** C8: a cycle of the worker always ends, and only the holder of the lease
    starts work: the cycle comes to its end from any consistent state; task
    ids and the slot table stay consistent and statuses only move along the
    state machine; no lane grows beyond its limit; and when the lease is
    refused no task is started, no orphan is touched by the scan and no slot
    is taken. *)
Theorem worker_cycle_safe {Fut} cap extract (spawn : TaskDict -> Fut) load env nm owner ttl now mono done was_cancelled w :
  (forall n q, rows_step false (task_rows q) (task_rows (env n q))) ->
  NoDup (ids (task_rows (w_queue w))) -> wf_slots (w_slots w) ->
  exists any buckets w',
    worker_cycle cap extract spawn load env nm owner ttl now mono done was_cancelled w = Some (any, buckets, w')
    /\ wf_slots (w_slots w') /\ rows_step true (task_rows (w_queue w)) (task_rows (w_queue w'))
    /\ (forall p m, (Z.of_nat (occupied p m (w_slots w'))
                     <= Z.max (Z.of_nat (occupied p m (w_slots w))) (Capacity.get cap p m))%Z)
    /\ owns_lease (w_loop w') = (acquire_or_renew_worker_lease now nm owner ttl (w_queue w)).1
    /\ (owns_lease (w_loop w') = false -> any = false /\ buckets = []
        /\ rows_step false (task_rows (w_queue w)) (task_rows (w_queue w'))
        /\ forall p m t o, holder p m t (w_slots w') = Some o -> holder p m t (w_slots w) = Some o).
Proof.
  intros Henv Hnd Hw. unfold worker_cycle, acquire_or_renew_worker_lease.
  pose proof (repo_step_rows false (acquire_or_renew_lease now nm owner ttl) (w_queue w) (acquire_evolves _ _ _ _ _)) as H1.
  destruct (_task_repo _ (w_queue w)) as [acquired q1]. cbn [fst snd] in *.
  pose proof (drain_rows now env Henv done was_cancelled (w_slots w) q1) as H2.
  assert ((_drain_finished_tasks now env done was_cancelled (w_slots w) q1).1 = (drain_finished done (w_slots w)).2) as Hs1.
  { unfold _drain_finished_tasks. by destruct (drain_finished done (w_slots w)). }
  destruct (_drain_finished_tasks _ _ _ _ _ _) as [s1 q2]. cbn [fst snd] in *. subst s1.
  set (s1 := (drain_finished done (w_slots w)).2).
  assert (rows_step false (task_rows (w_queue w)) (task_rows q2)) as H12 by (etrans; [exact H1|exact H2]).
  pose proof (drain_wf done (w_slots w) Hw) as Hw1. fold s1 in Hw1.
  assert (forall p m, occupied p m s1 <= occupied p m (w_slots w)) as Hocc by (intros; by apply occupied_drain).
  pose proof (loop_cycle_shape ttl mono acquired (w_loop w)) as Hc.
  destruct (loop_cycle ttl mono acquired (w_loop w)) as [[st scan] claim]. destruct Hc as (-> & Hown & Hscan & _).
  set (r := if scan then _ else _).
  assert (rows_step false (task_rows q2) (task_rows r.2)) as H3 by (unfold r; destruct scan; [by apply scan_rows|reflexivity]).
  assert (scan = false -> r.1.2 = []) as Hr by (unfold r; by intros ->).
  destruct r as [[eff buckets] q3]. cbn [fst snd] in *.
  assert (rows_step false (task_rows (w_queue w)) (task_rows q3)) as H13 by (etrans; [exact H12|exact H3]).
  destruct acquired.
  - destruct (claim_tasks_total cap extract spawn now q3 s1) as (any & q4 & s2 & Hcl & Hw2 & Hb);
      [by rewrite (rows_step_ids _ _ _ H13)|done|]. rewrite Hcl.
    eexists _, _, _. split; [done|]. cbn [w_slots w_queue w_loop]. split; [done|]. split.
    { etrans; [exact (rows_weaken _ _ _ H13)|]. by eapply claim_tasks_rows. }
    split; [|split; [done|by rewrite Hown]]. intros p m. specialize (Hb p m). specialize (Hocc p m). simpl in Hb. lia.
  - assert (scan = false) as Hns by (destruct scan; [by destruct Hscan|done]).
    eexists _, _, _. split; [done|]. cbn [w_slots w_queue w_loop]. split; [done|].
    split; [exact (rows_weaken _ _ _ H13)|]. split; [intros p m; specialize (Hocc p m); lia|]. split; [done|].
    intros _. split; [done|]. split; [by apply Hr|]. split; [done|].
    intros p m t o Ho. unfold s1 in Ho. rewrite holder_drain in Ho by done.
    destruct (holder p m t (w_slots w)) as [o'|]; [|done]. by destruct (drainable done o').
Qed.

(** A worker that has just started, on the demo queue. *)
Definition demo_worker : Worker string := mkWorker initial_loop [] demo_chain_queue.

Lemma worker_cycle_safe_witness :
  exists any buckets w', worker_cycle demo_cap demo_extract demo_spawn (fun _ => None) (fun _ q => q) "default" "w1" 10 20 20
      (fun _ => false) (fun _ => false) demo_worker = Some (any, buckets, w')
    /\ (Z.of_nat (occupied "ark" "video" (w_slots w')) <= 1)%Z.
Proof.
  destruct (worker_cycle_safe demo_cap demo_extract demo_spawn (fun _ => None) (fun _ q => q) "default" "w1" 10 20 20
      (fun _ => false) (fun _ => false) demo_worker) as (any & buckets & w' & He & _ & _ & Hb & _).
  - intros n q. reflexivity.
  - apply (bool_decide_unpack _); vm_compute; exact I.
  - split; [apply NoDup_nil_2|apply Forall_nil; exact I].
  - exists any, buckets, w'. split; [exact He|]. exact (Hb "ark" "video").
Defined.
