(* ===== verification/GenerationResult.v ===== *)
(** * The result contract of generation requests: [lib/generation_result.py]

    Which units of a request are generated, and how the outcome of every
    requested unit is reported.  The artifact comparison
    ([ArtifactCurrencyResolver.compare]) and the encoding of artifact keys are
    arguments; a comparison that raises one of the caught exceptions is the
    text of the exception. *)

From S2P Require Import Prelude Json TaskFailure TaskStore TaskRepo.
From stdpp Require Import sorting.

(** ** Vocabulary *)

Module GenerationSelectionMode.
Inductive t := EXPLICIT | MISSING_ONLY.
End GenerationSelectionMode.

Module GenerationItemState.
Inductive t := SUCCEEDED | FAILED | BLOCKED.

#[global] Instance eq_dec : EqDecision t.
Proof. solve_decision. Defined.
End GenerationItemState.

Module GenerationTaskState.
Inductive t := NOT_QUEUED | SUCCEEDED | FAILED | CANCELLED | INTERRUPTED.
End GenerationTaskState.

Module GenerationAction.
Inductive t :=
| RETRY | FIX_INPUT | GENERATE_DEPENDENCY | GENERATE_TTS | REGENERATE_TTS | WAIT_FOR_TASK | REPLAN_UNIT
| CONFIRM_REQUEST_DURATION | CONFIGURE_PROVIDER | REPAIR_ARTIFACT_STATE | RETRY_PROJECT_MIGRATION | NONE.
End GenerationAction.

Module ArtifactStatus.
Inductive t := CURRENT | STALE | MISSING | BLOCKED.

#[global] Instance eq_dec : EqDecision t.
Proof. solve_decision. Defined.
End ArtifactStatus.

Module GenerationProblemCode.
Definition UNIT_NOT_FOUND : pystr := u "generation_unit_not_found".
Definition ARTIFACT_STATE_UNAVAILABLE : pystr := u "generation_artifact_state_unavailable".
Definition ENQUEUE_FAILED : pystr := u "generation_enqueue_failed".
Definition ENQUEUE_INTERRUPTED : pystr := u "generation_enqueue_interrupted".
Definition BATCH_ADMISSION_WITHHELD : pystr := u "generation_batch_admission_withheld".
Definition TASK_FAILED : pystr := u "generation_task_failed".
Definition TASK_CANCELLED : pystr := u "generation_task_cancelled".
Definition TASK_INTERRUPTED : pystr := u "generation_task_interrupted".
End GenerationProblemCode.

(** The next action for each registered failure code. *)
Definition _TASK_FAILURE_ACTIONS : list (string * GenerationAction.t) := [
  ("needs_replan", GenerationAction.REPLAN_UNIT);
  ("tts_missing", GenerationAction.GENERATE_TTS);
  ("tts_stale", GenerationAction.REGENERATE_TTS);
  ("tts_generating", GenerationAction.WAIT_FOR_TASK);
  ("tts_not_applicable", GenerationAction.FIX_INPUT);
  ("tts_not_configured", GenerationAction.CONFIGURE_PROVIDER);
  ("tts_state_unavailable", GenerationAction.REPAIR_ARTIFACT_STATE);
  ("tts_duration_unavailable", GenerationAction.REGENERATE_TTS);
  ("tts_conflicts_with_active_narrated_video", GenerationAction.WAIT_FOR_TASK);
  ("reference_duration_confirmation_required", GenerationAction.CONFIRM_REQUEST_DURATION);
  ("reference_asset_missing", GenerationAction.GENERATE_DEPENDENCY);
  ("reference_declaration_invalid", GenerationAction.FIX_INPUT);
  ("reference_capability_unavailable", GenerationAction.CONFIGURE_PROVIDER);
  ("reference_capability_changed", GenerationAction.CONFIGURE_PROVIDER);
  ("reference_supported_durations_missing", GenerationAction.CONFIGURE_PROVIDER);
  ("reference_supported_durations_invalid", GenerationAction.CONFIGURE_PROVIDER);
  ("reference_supported_durations_incompatible", GenerationAction.CONFIGURE_PROVIDER);
  ("video_audio_switch_not_supported", GenerationAction.CONFIGURE_PROVIDER);
  ("video_capability_missing_i2v", GenerationAction.CONFIGURE_PROVIDER);
  ("video_capability_missing_r2v", GenerationAction.CONFIGURE_PROVIDER);
  ("video_capability_missing_t2v", GenerationAction.CONFIGURE_PROVIDER);
  ("video_model_unsupported", GenerationAction.CONFIGURE_PROVIDER);
  ("video_provider_response_invalid", GenerationAction.CONFIGURE_PROVIDER);
  ("video_start_image_unsupported", GenerationAction.CONFIGURE_PROVIDER);
  ("video_end_image_unsupported", GenerationAction.CONFIGURE_PROVIDER);
  ("video_t2v_unsupported", GenerationAction.CONFIGURE_PROVIDER);
  ("video_capability_reference_unavailable", GenerationAction.CONFIGURE_PROVIDER);
  ("image_capability_missing_i2i", GenerationAction.CONFIGURE_PROVIDER);
  ("image_capability_missing_t2i", GenerationAction.CONFIGURE_PROVIDER);
  ("image_endpoint_mismatch_no_i2i", GenerationAction.CONFIGURE_PROVIDER);
  ("image_endpoint_mismatch_no_t2i", GenerationAction.CONFIGURE_PROVIDER);
  ("provider_unsupported_media", GenerationAction.CONFIGURE_PROVIDER);
  ("execution_identity_unrecoverable", GenerationAction.RETRY);
  ("video_shorter_than_tts", GenerationAction.RETRY);
  ("script_edit_error", GenerationAction.FIX_INPUT);
  ("script_edit_items_not_list", GenerationAction.FIX_INPUT);
  ("script_edit_unit_lists_invalid", GenerationAction.FIX_INPUT);
  ("script_edit_generated_assets_invalid", GenerationAction.FIX_INPUT);
  ("image_dashscope_4k_t2i_only", GenerationAction.CONFIGURE_PROVIDER);
  ("video_duration_unavailable", GenerationAction.CONFIGURE_PROVIDER);
  ("video_supported_durations_missing", GenerationAction.CONFIGURE_PROVIDER);
  ("video_last_frame_requires_pro", GenerationAction.CONFIGURE_PROVIDER);
  ("video_last_frame_unsupported", GenerationAction.CONFIGURE_PROVIDER);
  ("video_reference_images_unsupported", GenerationAction.CONFIGURE_PROVIDER);
  ("video_reference_videos_unsupported", GenerationAction.CONFIGURE_PROVIDER);
  ("video_reference_videos_exceeded", GenerationAction.FIX_INPUT);
  ("video_reference_videos_duration_exceeded", GenerationAction.FIX_INPUT);
  ("video_reference_video_duration_unsupported", GenerationAction.FIX_INPUT);
  ("video_reference_media_exceeded", GenerationAction.FIX_INPUT);
  ("video_reference_media_required", GenerationAction.GENERATE_DEPENDENCY);
  ("video_reference_videos_unreadable", GenerationAction.GENERATE_DEPENDENCY);
  ("free_creation_aspect_ratio_not_supported", GenerationAction.FIX_INPUT);
  ("free_creation_aspect_ratio_capabilities_missing", GenerationAction.CONFIGURE_PROVIDER);
  ("video_reference_images_with_frames_unsupported", GenerationAction.CONFIGURE_PROVIDER);
  ("video_reference_audio_unsupported", GenerationAction.CONFIGURE_PROVIDER);
  ("free_creation_t2v_unsupported", GenerationAction.CONFIGURE_PROVIDER);
  ("free_creation_first_frame_unsupported", GenerationAction.CONFIGURE_PROVIDER);
  ("free_creation_last_frame_unsupported", GenerationAction.CONFIGURE_PROVIDER);
  ("free_creation_reference_images_unsupported", GenerationAction.CONFIGURE_PROVIDER);
  ("free_creation_reference_videos_unsupported", GenerationAction.CONFIGURE_PROVIDER);
  ("free_creation_reference_audio_unsupported", GenerationAction.CONFIGURE_PROVIDER);
  ("free_creation_video_edit_unsupported", GenerationAction.CONFIGURE_PROVIDER);
  ("ref_payload_floor_exceeded", GenerationAction.FIX_INPUT);
  ("video_duration_invalid", GenerationAction.FIX_INPUT);
  ("video_duration_not_supported", GenerationAction.FIX_INPUT);
  ("video_duration_unsupported", GenerationAction.FIX_INPUT);
  ("video_aspect_ratio_unsupported", GenerationAction.FIX_INPUT);
  ("video_resolution_required", GenerationAction.FIX_INPUT);
  ("video_resolution_unsupported", GenerationAction.FIX_INPUT);
  ("video_prompt_required", GenerationAction.FIX_INPUT);
  ("free_creation_input_combination_unsupported", GenerationAction.FIX_INPUT);
  ("video_end_image_requires_start_image", GenerationAction.FIX_INPUT);
  ("video_prompt_too_long", GenerationAction.FIX_INPUT);
  ("video_resolution_duration_unsupported", GenerationAction.FIX_INPUT);
  ("video_reference_images_duration_unsupported", GenerationAction.FIX_INPUT);
  ("video_reference_images_exceeded", GenerationAction.FIX_INPUT);
  ("video_reference_audio_duration_exceeded", GenerationAction.FIX_INPUT);
  ("video_reference_audio_exceeded", GenerationAction.FIX_INPUT);
  ("video_reference_audio_format_unsupported", GenerationAction.FIX_INPUT);
  ("video_reference_audio_slots_insufficient", GenerationAction.FIX_INPUT);
  ("cascade_blocked_dependency", GenerationAction.GENERATE_DEPENDENCY);
  ("image_reference_images_unreadable", GenerationAction.GENERATE_DEPENDENCY);
  ("video_start_image_unreadable", GenerationAction.GENERATE_DEPENDENCY);
  ("video_end_image_unreadable", GenerationAction.GENERATE_DEPENDENCY);
  ("video_reference_images_required", GenerationAction.GENERATE_DEPENDENCY);
  ("video_reference_images_unreadable", GenerationAction.GENERATE_DEPENDENCY);
  ("video_reference_audio_unreadable", GenerationAction.GENERATE_DEPENDENCY);
  ("dispatch_provider_requeue_failed", GenerationAction.RETRY);
  ("restart_lost_image", GenerationAction.RETRY);
  ("restart_lost_audio", GenerationAction.RETRY);
  ("restart_lost_no_job_id", GenerationAction.RETRY);
  ("restart_lost_resume_no_job_id", GenerationAction.RETRY);
  ("restart_lost_checkpoint_no_job_id", GenerationAction.RETRY);
  ("resume_unsupported_provider", GenerationAction.RETRY);
  ("resume_unsupported_capacity_zero", GenerationAction.RETRY);
  ("resume_unsupported_detail", GenerationAction.RETRY);
  ("resume_expired_detail", GenerationAction.RETRY);
  ("resume_endpoint_changed_detail", GenerationAction.RETRY);
  ("free_creation_failed", GenerationAction.RETRY);
  ("video_first_frame_content_rejected", GenerationAction.FIX_INPUT);
  ("video_input_image_content_rejected", GenerationAction.FIX_INPUT);
  ("video_input_text_content_rejected", GenerationAction.FIX_INPUT);
  ("video_last_frame_content_rejected", GenerationAction.FIX_INPUT);
  ("video_output_content_rejected", GenerationAction.FIX_INPUT);
  ("video_reference_image_content_rejected", GenerationAction.FIX_INPUT)].

Record GenerationProblem := mkProblem {
  p_code : pystr;
  p_detail : pystr;
  p_action : GenerationAction.t;
  p_params : dict
}.

Record ProviderCheckpoint := mkProviderCheckpoint {
  pc_submitted : bool;
  pc_provider_id : option string;
  pc_provider_job_id : option string
}.

Record GenerationItemResult := mkItem {
  it_unit_id : pystr;
  it_state : GenerationItemState.t;
  it_artifact_key : option pystr;
  it_artifact_path : option pystr;
  it_task_id : option string;
  it_task_state : GenerationTaskState.t;
  it_artifact_status : option ArtifactStatus.t;
  it_provider_checkpoint : option ProviderCheckpoint;
  it_problem : option GenerationProblem
}.

(** [_problem_matches_state] *)
Definition _problem_matches_state (it : GenerationItemResult) : bool :=
  match it_state it, it_problem it with
  | GenerationItemState.SUCCEEDED, None => true
  | GenerationItemState.SUCCEEDED, Some _ => false
  | _, Some _ => true
  | _, None => false
  end.

Record GenerationSkippedItem := mkSkipped {
  sk_unit_id : pystr;
  sk_artifact_key : option pystr;
  sk_artifact_path : option pystr;
  sk_artifact_status : option ArtifactStatus.t
}.

Record GenerationBatchResult := mkBatch {
  br_operation : string;
  br_selection : GenerationSelectionMode.t;
  br_requested : list pystr;
  br_succeeded : list pystr;
  br_failed : list pystr;
  br_blocked : list pystr;
  br_skipped : list GenerationSkippedItem;
  br_items : list GenerationItemResult
}.

Definition bucket (r : GenerationBatchResult) (st : GenerationItemState.t) : list pystr :=
  match st with
  | GenerationItemState.SUCCEEDED => br_succeeded r
  | GenerationItemState.FAILED => br_failed r
  | GenerationItemState.BLOCKED => br_blocked r
  end.

(** [len(set(ids)) == len(ids)] *)
Definition unique_ids (l : list pystr) : bool := bool_decide (length (remove_dups l) = length l).

Definition sorted (l : list pystr) : list pystr := isort str_leb l.

(** The validator of the batch: [true] when it does not raise. *)
Definition _sets_are_exhaustive_and_exclusive (r : GenerationBatchResult) : bool :=
  let union := br_succeeded r ++ br_failed r ++ br_blocked r in
  let skipped_ids := map sk_unit_id (br_skipped r) in
  unique_ids (br_succeeded r) && unique_ids (br_failed r) && unique_ids (br_blocked r)
  && unique_ids union
  && (bool_decide (sorted union = sorted (remove_dups (br_requested r))) && unique_ids (br_requested r))
  && bool_decide (sorted (map it_unit_id (br_items r)) = sorted (br_requested r))
  && List.forallb (fun it => bool_decide (it_unit_id it ∈ bucket r (it_state it))) (br_items r)
  && unique_ids skipped_ids
  && List.forallb (fun x => negb (bool_decide (x ∈ br_requested r))) skipped_ids.

(** [ok] *)
Definition batch_ok (r : GenerationBatchResult) : bool :=
  bool_decide (br_failed r = []) && bool_decide (br_blocked r = []).

(** ** Problems *)

(** [x or y] on optional text. *)
Definition text_or (x : option pystr) (y : pystr) : pystr :=
  match x with Some (c :: s) => c :: s | _ => y end.

Definition failure_action (code : pystr) : GenerationAction.t :=
  match List.find (fun kv : string * GenerationAction.t => bool_decide (u kv.1 = code)) _TASK_FAILURE_ACTIONS with
  | Some kv => kv.2
  | None => GenerationAction.RETRY
  end.

Definition problem_from_task_failure (error_message : option pystr) (cancelled interrupted : bool) : GenerationProblem :=
  if cancelled then
    mkProblem GenerationProblemCode.TASK_CANCELLED (text_or error_message (u "task cancelled")) GenerationAction.RETRY []
  else if interrupted then
    mkProblem GenerationProblemCode.TASK_INTERRUPTED
      (text_or error_message (u "wait for task was interrupted before it reached a terminal state"))
      GenerationAction.WAIT_FOR_TASK []
  else
    match parse_failure error_message with
    | None => mkProblem GenerationProblemCode.TASK_FAILED (text_or error_message (u "task failed")) GenerationAction.RETRY []
    | Some (code, params) => mkProblem code (text_or error_message code) (failure_action code) params
    end.

Definition enqueue_problem (detail : option pystr) (interrupted : bool) : GenerationProblem :=
  if interrupted then
    mkProblem GenerationProblemCode.ENQUEUE_INTERRUPTED
      (text_or detail (u "batch enqueue was interrupted before this target was queued")) GenerationAction.RETRY []
  else mkProblem GenerationProblemCode.ENQUEUE_FAILED (text_or detail (u "enqueue failed")) GenerationAction.RETRY [].

Definition provider_checkpoint_from_task (task : option Task) : option ProviderCheckpoint :=
  match task with
  | None => None
  | Some t =>
      let submitted := truthy (provider_job_id t) in
      if negb submitted && negb (bool_decide (is_Some (provider_id t)))
         && negb (match execution_checkpoint_json t with Some (_ :: _) => true | _ => false end)
      then None
      else Some (mkProviderCheckpoint submitted (provider_id t) (provider_job_id t))
  end.

(** ** Selection *)

Record ArtifactBlocker := mkBlocker { ab_code : pystr; ab_path : pystr; ab_detail : pystr }.

Section contract.
Context {ArtifactKey : Type} (encode : ArtifactKey -> pystr).

(** A comparison yields a standing, or raises. *)
Definition resolver : Type := ArtifactKey -> pystr -> (ArtifactStatus.t * option ArtifactBlocker) + pystr.

Record GenerationCandidate := mkCandidate {
  c_unit_id : pystr;
  c_artifact_key : option ArtifactKey;
  c_artifact_path : option pystr
}.

Record GenerationTargetState := mkState {
  candidate : GenerationCandidate;
  ts_status : option ArtifactStatus.t;
  ts_blocker : option ArtifactBlocker
}.

Definition ts_unit_id (s : GenerationTargetState) : pystr := c_unit_id (candidate s).

Record GenerationSelection := mkSelection {
  sel_mode : GenerationSelectionMode.t;
  sel_targets : list GenerationTargetState;
  sel_skipped : list GenerationTargetState;
  sel_unavailable : list GenerationTargetState;
  sel_unmatched : list pystr
}.

Definition observe_artifact_status (compare : resolver) (key : option ArtifactKey) (path : option pystr)
    : option ArtifactStatus.t * option ArtifactBlocker :=
  match path with
  | None | Some [] => (Some ArtifactStatus.MISSING, None)
  | Some p =>
      match key with
      | None => (None, None)
      | Some k =>
          match compare k p with
          | inl (st, b) => (Some st, b)
          | inr detail =>
              (Some ArtifactStatus.BLOCKED, Some (mkBlocker (u "artifact_currency_unavailable") p detail))
          end
      end
  end.

Definition artifact_is_reusable (s : GenerationTargetState) : bool :=
  bool_decide (ts_status s = Some ArtifactStatus.CURRENT) || bool_decide (ts_status s = Some ArtifactStatus.STALE).

(** [list(dict.fromkeys(ids))] *)
Definition fromkeys (ids_ : list pystr) : list pystr :=
  foldl (fun acc x => if bool_decide (x ∈ acc) then acc else acc ++ [x]) [] ids_.

(** The raw argument: omitted, not a list, or the texts of its values. *)
Definition normalize_requested_ids (raw : option (option (list pystr))) : result (option (list pystr)) :=
  match raw with
  | None => Ok None
  | Some None => Raise ValueError
  | Some (Some values) => match fromkeys values with [] => Raise ValueError | l => Ok (Some l) end
  end.

Definition observed (compare : resolver) (c : GenerationCandidate) : GenerationTargetState :=
  let '(st, b) := observe_artifact_status compare (c_artifact_key c) (c_artifact_path c) in mkState c st b.

(** [{state.unit_id: state for state in states if state.unit_id}] *)
Definition by_id_of (states : list GenerationTargetState) : list (pystr * GenerationTargetState) :=
  foldl (fun d s => if bool_decide (ts_unit_id s = []) then d else aset (ts_unit_id s) s d) [] states.

Definition select_generation_targets (candidates : list GenerationCandidate) (requested_ids : option (list pystr))
    (compare : resolver) (reusable_override : option (GenerationCandidate -> bool)) : result GenerationSelection :=
  let states := map (observed compare) candidates in
  match requested_ids with
  | Some [] => Raise ValueError
  | Some ids_ =>
      let wanted := fromkeys ids_ in
      let known := by_id_of states in
      Ok (mkSelection GenerationSelectionMode.EXPLICIT
            (omap (fun x => aget x known) wanted) [] []
            (where_ (fun x => negb (bool_decide (is_Some (aget x known)))) wanted))
  | None =>
      let '(targets, skipped, unavailable) :=
        foldl (fun '(targets, skipped, unavailable) s =>
            if bool_decide (ts_unit_id s = []) then (targets, skipped, unavailable)
            else if bool_decide (ts_status s = Some ArtifactStatus.BLOCKED)
            then (targets, skipped, unavailable ++ [s])
            else
              let reusable := artifact_is_reusable s in
              let reusable := match reusable_override with
                              | Some f => if negb reusable then f (candidate s) else reusable
                              | None => reusable
                              end in
              if reusable then (targets, skipped ++ [s], unavailable)
              else (targets ++ [s], skipped, unavailable)) ([], [], []) states in
      Ok (mkSelection GenerationSelectionMode.MISSING_ONLY targets skipped unavailable [])
  end.

Definition artifact_state_problem (s : GenerationTargetState) : GenerationProblem :=
  mkProblem GenerationProblemCode.ARTIFACT_STATE_UNAVAILABLE
    (match ts_blocker s with Some b => ab_detail b | None => u "artifact state is unavailable" end)
    GenerationAction.REPAIR_ARTIFACT_STATE
    (match ts_blocker s with Some b => [(u "blocker_code", JStr (ab_code b))] | None => [] end).

(** ** The builder *)

Record Builder := mkBuilder {
  b_operation : string;
  b_selection : GenerationSelectionMode.t;
  b_items : list GenerationItemResult;
  b_skipped : list GenerationSkippedItem;
  b_seen : list pystr
}.

Definition new_builder (operation : string) (mode : GenerationSelectionMode.t) : Builder :=
  mkBuilder operation mode [] [] [].

Definition _record (it : GenerationItemResult) (b : Builder) : result Builder :=
  if negb (_problem_matches_state it) then Raise ValueError
  else if bool_decide (it_unit_id it ∈ b_seen b) then Raise ValueError
  else Ok (mkBuilder (b_operation b) (b_selection b) (b_items b ++ [it]) (b_skipped b) (it_unit_id it :: b_seen b)).

Definition skip_unit (unit_id : pystr) (key : option ArtifactKey) (path : option pystr)
    (status_ : option ArtifactStatus.t) (b : Builder) : result Builder :=
  if bool_decide (unit_id ∈ b_seen b) then Raise ValueError
  else Ok (mkBuilder (b_operation b) (b_selection b) (b_items b)
             (b_skipped b ++ [mkSkipped unit_id (encode <$> key) path status_]) (unit_id :: b_seen b)).

Definition skip (s : GenerationTargetState) (b : Builder) : result Builder :=
  skip_unit (ts_unit_id s) (c_artifact_key (candidate s)) (c_artifact_path (candidate s)) (ts_status s) b.

Definition succeed (unit_id : pystr) (key : option ArtifactKey) (path : option pystr) (task_id_ : option string)
    (status_ : option ArtifactStatus.t) (checkpoint : option ProviderCheckpoint) (b : Builder) : result Builder :=
  _record (mkItem unit_id GenerationItemState.SUCCEEDED (encode <$> key) path task_id_
             (if truthy task_id_ then GenerationTaskState.SUCCEEDED else GenerationTaskState.NOT_QUEUED)
             status_ checkpoint None) b.

Definition fail (unit_id : pystr) (problem : GenerationProblem) (key : option ArtifactKey) (path : option pystr)
    (task_id_ : option string) (task_state : GenerationTaskState.t) (status_ : option ArtifactStatus.t)
    (checkpoint : option ProviderCheckpoint) (b : Builder) : result Builder :=
  _record (mkItem unit_id GenerationItemState.FAILED (encode <$> key) path task_id_ task_state status_ checkpoint
             (Some problem)) b.

Definition block (unit_id : pystr) (problem : GenerationProblem) (key : option ArtifactKey) (path : option pystr)
    (status_ : option ArtifactStatus.t) (b : Builder) : result Builder :=
  _record (mkItem unit_id GenerationItemState.BLOCKED (encode <$> key) path None GenerationTaskState.NOT_QUEUED
             status_ None (Some problem)) b.

(** A loop over a builder that stops at the first exception. *)
Fixpoint each {A} (f : A -> Builder -> result Builder) (l : list A) (b : Builder) : result Builder :=
  match l with
  | [] => Ok b
  | x :: l' => let! b' := f x b in each f l' b'
  end.

Definition unit_not_found (unit_id : pystr) : GenerationProblem :=
  mkProblem GenerationProblemCode.UNIT_NOT_FOUND
    (u "unit " ++ unit_id ++ u " does not exist in the current project") GenerationAction.FIX_INPUT [].

Definition absorb (sel : GenerationSelection) (b : Builder) : result Builder :=
  let! b1 := each skip (sel_skipped sel) b in
  let! b2 := each (fun s => block (ts_unit_id s) (artifact_state_problem s) (c_artifact_key (candidate s))
                              (c_artifact_path (candidate s)) (ts_status s)) (sel_unavailable sel) b1 in
  each (fun x => block x (unit_not_found x) None None None) (sel_unmatched sel) b2.

Definition from_selection (operation : string) (sel : GenerationSelection) : result Builder :=
  absorb sel (new_builder operation (sel_mode sel)).

Definition ids_in (st : GenerationItemState.t) (items_ : list GenerationItemResult) : list pystr :=
  map it_unit_id (where_ (fun it => bool_decide (it_state it = st)) items_).

Definition build (b : Builder) : result GenerationBatchResult :=
  let r := mkBatch (b_operation b) (b_selection b) (map it_unit_id (b_items b))
             (ids_in GenerationItemState.SUCCEEDED (b_items b)) (ids_in GenerationItemState.FAILED (b_items b))
             (ids_in GenerationItemState.BLOCKED (b_items b)) (b_skipped b) (b_items b) in
  if _sets_are_exhaustive_and_exclusive r then Ok r else Raise ValueError.

(** ** Folding in a finished batch *)

(** [BatchTaskResult]; the result is kept as its [file_path]. *)
Record BatchTaskResult := mkTaskResult {
  tr_resource_id : pystr;
  tr_task_id : string;
  tr_status : string;
  tr_file_path : option pystr;
  tr_error : option pystr;
  tr_task : option Task;
  tr_enqueue_interrupted : bool
}.

Section outcomes.
Context (states : list (pystr * GenerationTargetState)) (compare : option resolver)
        (unit_id_of : pystr -> pystr) (fallback_path : pystr -> option pystr).

Definition state_of (unit_id : pystr) : GenerationTargetState :=
  default (mkState (mkCandidate unit_id None None) None None) (aget unit_id states).

Definition record_success (br : BatchTaskResult) (b : Builder) : result Builder :=
  let unit_id := unit_id_of (tr_resource_id br) in
  let key := c_artifact_key (candidate (state_of unit_id)) in
  let rel := match tr_file_path br with Some (c :: p) => Some (c :: p) | _ => fallback_path (tr_resource_id br) end in
  let st := match compare with Some f => (observe_artifact_status f key rel).1 | None => None end in
  succeed unit_id key rel (Some (tr_task_id br)) st (provider_checkpoint_from_task (tr_task br)) b.

Definition failure_of (br : BatchTaskResult) : GenerationTaskState.t * GenerationProblem :=
  if bool_decide (tr_task_id br = "")
  then (GenerationTaskState.NOT_QUEUED, enqueue_problem (tr_error br) (tr_enqueue_interrupted br))
  else
    (if bool_decide (tr_status br = "cancelled") then GenerationTaskState.CANCELLED
     else if bool_decide (tr_status br = "interrupted") then GenerationTaskState.INTERRUPTED
     else GenerationTaskState.FAILED,
     problem_from_task_failure (tr_error br) (bool_decide (tr_status br = "cancelled"))
       (bool_decide (tr_status br = "interrupted"))).

Definition record_failure (br : BatchTaskResult) (b : Builder) : result Builder :=
  let unit_id := unit_id_of (tr_resource_id br) in
  let s := state_of unit_id in
  let '(task_state, problem) := failure_of br in
  fail unit_id problem (c_artifact_key (candidate s)) (c_artifact_path (candidate s))
    (if bool_decide (tr_task_id br = "") then None else Some (tr_task_id br)) task_state (ts_status s)
    (provider_checkpoint_from_task (tr_task br)) b.

Definition record_batch_outcomes (successes failures : list BatchTaskResult) (b : Builder) : result Builder :=
  let! b1 := each record_success successes b in
  each record_failure failures b1.
End outcomes.
End contract.
Arguments GenerationCandidate : clear implicits.
Arguments GenerationTargetState : clear implicits.
Arguments GenerationSelection : clear implicits.
Arguments resolver : clear implicits.

(** ** Lemmas *)

(** Two lists with the same elements sort to the same list. *)
Lemma sorted_perm l l' : l ≡ₚ l' -> sorted l = sorted l'.
Proof.
  intros Hp. unfold sorted.
  assert (AntiSymm (=) (fun x y => Is_true (str_leb x y))).
  { intros x y Hx Hy. apply str_leb_antisym; by apply Is_true_true. }
  apply (StronglySorted_unique (fun x y => Is_true (str_leb x y))).
  - apply isort_sorted; [apply str_leb_total|apply str_leb_trans].
  - apply isort_sorted; [apply str_leb_total|apply str_leb_trans].
  - by rewrite !isort_perm.
Qed.

Lemma remove_dups_id (l : list pystr) : NoDup l -> remove_dups l = l.
Proof.
  induction 1 as [|x l Hx _ IH]; simpl; [done|]. case_decide; [done|]. by rewrite IH.
Qed.

Lemma unique_ids_true l : NoDup l -> unique_ids l = true.
Proof. intros H. apply bool_decide_eq_true_2. by rewrite remove_dups_id. Qed.

Lemma ids_in_elem st items_ x : x ∈ ids_in st items_ <-> exists it, it ∈ items_ /\ it_state it = st /\ it_unit_id it = x.
Proof.
  unfold ids_in. rewrite list_elem_of_In, in_map_iff. split.
  - intros (it & <- & Hin%list_elem_of_In). apply elem_of_where in Hin as [Hin Hst]. to_prop. by exists it.
  - intros (it & Hin & Hst & <-). exists it. split; [done|]. apply list_elem_of_In, elem_of_where.
    split; [done|]. by apply bool_decide_eq_true_2.
Qed.

(** The three buckets hold every item once. *)
Lemma ids_in_partition items_ :
  ids_in GenerationItemState.SUCCEEDED items_ ++ ids_in GenerationItemState.FAILED items_
    ++ ids_in GenerationItemState.BLOCKED items_ ≡ₚ map it_unit_id items_.
Proof.
  unfold ids_in. induction items_ as [|it l IH]; [done|]. cbn [map]. rewrite <- IH. simpl.
  destruct (it_state it); simpl.
  - done.
  - by rewrite <- Permutation_middle.
  - by rewrite app_assoc, <- Permutation_middle, <- app_assoc.
Qed.

(** *** The builder *)

Record builder_ok (b : Builder) : Prop := {
  bo_unique : NoDup (map it_unit_id (b_items b) ++ map sk_unit_id (b_skipped b));
  bo_seen : forall x, x ∈ map it_unit_id (b_items b) ++ map sk_unit_id (b_skipped b) -> x ∈ b_seen b;
  bo_items : Forall (fun it => _problem_matches_state it = true) (b_items b)
}.

(** A call on the builder that returns. *)
Inductive builder_step {K} (encode : K -> pystr) : Builder -> Builder -> Prop :=
| step_record it b b' : _record it b = Ok b' -> builder_step encode b b'
| step_skip x key path st b b' : skip_unit encode x key path st b = Ok b' -> builder_step encode b b'.

Lemma each_ext {A} (f g : A -> Builder -> result Builder) l b :
  (forall x b, x ∈ l -> f x b = g x b) -> each f l b = each g l b.
Proof.
  revert b. induction l as [|x l IH]; intros b H; simpl; [done|]. rewrite H by left.
  destruct (g x b); simpl; [|done]. apply IH. intros y c Hy. apply H. by right.
Qed.

Section builder.
Context {K : Type} (encode : K -> pystr).

Lemma builder_step_ok b b' : builder_ok b -> builder_step encode b b' -> builder_ok b'.
Proof.
  intros [Hu Hs Hi] Hstep. destruct Hstep as [it b b' H|x key path st b b' H].
  - revert H. unfold _record. destruct (_problem_matches_state it) eqn:Ev; cbn [negb]; [|done].
    case_bool_decide as Hx; [done|]. intros [= <-]. split; cbn [b_items b_skipped b_seen].
    + rewrite map_app. simpl. rewrite <- app_assoc. simpl. rewrite <- Permutation_middle.
      apply NoDup_cons. split; [|done]. by intros ?%Hs.
    + intros y. rewrite map_app. simpl. rewrite <- app_assoc. simpl. rewrite <- Permutation_middle, elem_of_cons.
      intros [->|Hy%Hs]; [by left|by right].
    + apply Forall_app. split; [done|]. by constructor.
  - revert H. unfold skip_unit. case_bool_decide as Hx; [done|]. intros [= <-]. split; cbn [b_items b_skipped b_seen]; [| |done].
    + rewrite map_app. simpl. rewrite app_assoc, <- Permutation_cons_append. apply NoDup_cons. split; [|done]. by intros ?%Hs.
    + intros y. rewrite map_app. simpl. rewrite app_assoc, <- Permutation_cons_append, elem_of_cons.
      intros [->|Hy%Hs]; [by left|by right].
Qed.

Lemma new_builder_ok op mode : builder_ok (new_builder op mode).
Proof. split; simpl; [apply NoDup_nil_2|done|done]. Qed.

Lemma builder_steps_ok b b' : builder_ok b -> rtc (builder_step encode) b b' -> builder_ok b'.
Proof. intros Hb Hr. induction Hr as [|b b1 b' Hs _ IH]; [done|]. by apply IH, (builder_step_ok b). Qed.

(** What a builder in order builds. *)
Lemma build_ok b :
  builder_ok b ->
  exists r, build b = Ok r /\ br_requested r = map it_unit_id (b_items b)
    /\ br_succeeded r ++ br_failed r ++ br_blocked r ≡ₚ br_requested r
    /\ NoDup (br_requested r ++ map sk_unit_id (br_skipped r))
    /\ br_items r = b_items b /\ br_skipped r = b_skipped b
    /\ (forall it, it ∈ br_items r -> it_unit_id it ∈ bucket r (it_state it)).
Proof.
  intros [Hu Hs Hi]. unfold build. set (r := mkBatch _ _ _ _ _ _ _ _).
  pose proof (ids_in_partition (b_items b)) as Hpart.
  apply NoDup_app in Hu as Hu'. destruct Hu' as (Hn1 & Hdis & Hn2).
  assert (NoDup (br_succeeded r ++ br_failed r ++ br_blocked r)) as Hun by (unfold r; simpl; by rewrite Hpart).
  apply NoDup_app in Hun as Hun'. destruct Hun' as (HnS & _ & HnFB). apply NoDup_app in HnFB as (HnF & _ & HnB).
  assert (forall it, it ∈ br_items r -> it_unit_id it ∈ bucket r (it_state it)) as Hb.
  { intros it Hit. assert (it_unit_id it ∈ ids_in (it_state it) (b_items b)) as Hin by (apply ids_in_elem; by exists it).
    by destruct (it_state it). }
  assert (_sets_are_exhaustive_and_exclusive r = true) as ->.
  { unfold _sets_are_exhaustive_and_exclusive. rewrite !unique_ids_true by done.
    rewrite (bool_decide_eq_true_2 (sorted _ = sorted (remove_dups _))).
    2: { apply sorted_perm. rewrite remove_dups_id by done. exact Hpart. }
    rewrite bool_decide_eq_true_2 by done. cbn [andb]. rewrite andb_true_r. apply andb_true_iff. split.
    - apply List.forallb_forall. intros it Hit%list_elem_of_In. by apply bool_decide_eq_true_2, Hb.
    - apply List.forallb_forall. intros x Hx%list_elem_of_In. apply negb_true_iff, bool_decide_eq_false_2.
      intros Hx'. by apply (Hdis x Hx'). }
  exists r. by split_and!.
Qed.

Lemma each_steps {A} (f : A -> Builder -> result Builder) l b b' :
  (forall x b b', f x b = Ok b' -> rtc (builder_step encode) b b') ->
  each f l b = Ok b' -> rtc (builder_step encode) b b'.
Proof.
  intros Hf. revert b. induction l as [|x l IH]; intros b; simpl; [intros [= <-]; apply rtc_refl|].
  intros (b1 & H1 & H2)%bind_Ok. etrans; [by eapply Hf|by apply IH].
Qed.

Lemma absorb_steps sel b b' : absorb encode sel b = Ok b' -> rtc (builder_step encode) b b'.
Proof.
  unfold absorb. intros (b1 & H1 & (b2 & H2 & H3)%bind_Ok)%bind_Ok.
  etrans; [|etrans]; (eapply each_steps; [|eassumption]); intros x c c' Hc; apply rtc_once;
    [exact (step_skip encode _ _ _ _ _ _ Hc)|exact (step_record encode _ _ _ Hc)..].
Qed.

Lemma outcomes_steps states compare uid fb succs fails b b' :
  record_batch_outcomes encode states compare uid fb succs fails b = Ok b' -> rtc (builder_step encode) b b'.
Proof.
  unfold record_batch_outcomes. intros (b1 & H1 & H2)%bind_Ok.
  etrans; (eapply each_steps; [|eassumption]); intros x c c'; unfold record_success, record_failure;
    [|destruct (failure_of x)]; intros Hc; apply rtc_once; exact (step_record encode _ _ _ Hc).
Qed.
End builder.

(** *** Selection *)

Section selection.
Context {K : Type} (encode : K -> pystr) (compare : resolver K) (override : option (GenerationCandidate K -> bool)).
Implicit Types s : GenerationTargetState K.

Definition named s : bool := negb (bool_decide (ts_unit_id s = [])).
Definition is_blocked s : bool := bool_decide (ts_status s = Some ArtifactStatus.BLOCKED).
Definition reused s : bool :=
  artifact_is_reusable s || match override with Some f => f (candidate s) | None => false end.

Lemma select_fold l t k v :
  foldl (fun '(targets, skipped, unavailable) s =>
      if bool_decide (ts_unit_id s = []) then (targets, skipped, unavailable)
      else if bool_decide (ts_status s = Some ArtifactStatus.BLOCKED) then (targets, skipped, unavailable ++ [s])
      else
        let reusable := artifact_is_reusable s in
        let reusable := match override with
                        | Some f => if negb reusable then f (candidate s) else reusable
                        | None => reusable
                        end in
        if reusable then (targets, skipped ++ [s], unavailable)
        else (targets ++ [s], skipped, unavailable)) (t, k, v) l
  = (t ++ where_ (fun s => named s && negb (is_blocked s) && negb (reused s)) l,
     k ++ where_ (fun s => named s && negb (is_blocked s) && reused s) l,
     v ++ where_ (fun s => named s && is_blocked s) l).
Proof.
  revert t k v. induction l as [|s l IH]; intros t k v; cbn [foldl]; [simpl; by rewrite !app_nil_r|].
  unfold named, is_blocked, reused in *. simpl.
  destruct (bool_decide (ts_unit_id s = [])); cbn [negb andb]; [by rewrite IH|].
  destruct (bool_decide (ts_status s = Some ArtifactStatus.BLOCKED)); cbn [negb andb].
  - by rewrite IH, <- app_assoc.
  - destruct override as [f|]; destruct (artifact_is_reusable s); cbn [negb orb andb];
      try destruct (f (candidate s)); cbn [negb orb andb]; by rewrite IH, <- ?app_assoc.
Qed.

(** The three parts hold every named state once. *)
Lemma select_partition l :
  where_ (fun s => named s && negb (is_blocked s) && negb (reused s)) l
    ++ where_ (fun s => named s && negb (is_blocked s) && reused s) l
    ++ where_ (fun s => named s && is_blocked s) l ≡ₚ where_ named l.
Proof.
  induction l as [|s l IH]; [done|]. simpl.
  destruct (named s), (is_blocked s), (reused s); cbn [negb andb app]; rewrite <- IH; try done.
  - by rewrite app_assoc, <- Permutation_middle, <- app_assoc.
  - by rewrite app_assoc, <- Permutation_middle, <- app_assoc.
  - by rewrite <- Permutation_middle.
Qed.

Lemma fromkeys_spec l : NoDup (fromkeys l) /\ forall x, x ∈ fromkeys l <-> x ∈ l.
Proof.
  unfold fromkeys.
  assert (forall acc, NoDup acc ->
    NoDup (foldl (fun acc x => if bool_decide (x ∈ acc) then acc else acc ++ [x]) acc l) /\
    forall x, x ∈ foldl (fun acc x => if bool_decide (x ∈ acc) then acc else acc ++ [x]) acc l <-> x ∈ acc \/ x ∈ l) as H.
  { induction l as [|y l IH]; intros acc Hacc; simpl.
    - split; [done|]. intros x. rewrite elem_of_nil. tauto.
    - case_bool_decide as Hy.
      + destruct (IH acc Hacc) as [H1 H2]. split; [done|]. intros x. rewrite H2, elem_of_cons. naive_solver.
      + destruct (IH (acc ++ [y])) as [H1 H2].
        { apply NoDup_app. split; [done|]. split; [|apply NoDup_singleton]. by intros x Hx ->%list_elem_of_singleton. }
        split; [done|]. intros x. rewrite H2, elem_of_app, list_elem_of_singleton, elem_of_cons. tauto. }
  destruct (H [] NoDup_nil_2) as [H1 H2]. split; [done|]. intros x. rewrite H2, elem_of_nil. tauto.
Qed.

(** The last state of each named unit. *)
Lemma by_id_of_spec l x :
  match aget x (by_id_of l) with
  | Some s => s ∈ l /\ ts_unit_id s = x /\ x <> []
  | None => x = [] \/ forall s, s ∈ l -> ts_unit_id s <> x
  end.
Proof.
  unfold by_id_of. induction l as [|s l IH] using rev_ind; [simpl; by right; intros s ?%not_elem_of_nil|].
  rewrite foldl_app. simpl. case_bool_decide as E.
  - destruct (aget x _) as [s'|]; [destruct IH as (? & ? & ?); split_and!; [set_solver|done..]|].
    destruct IH as [->|IH]; [by left|]. destruct (decide (x = [])) as [->|Hx]; [by left|]. right.
    intros s' [Hs|Hs]%elem_of_app; [by apply IH|]. apply list_elem_of_singleton in Hs as ->. congruence.
  - rewrite aget_aset. case_bool_decide as E2; [subst; split_and!; [set_solver|done..]|].
    destruct (aget x _) as [s'|]; [destruct IH as (? & ? & ?); split_and!; [set_solver|done..]|].
    destruct IH as [->|IH]; [by left|]. right.
    intros s' [Hs|Hs]%elem_of_app; [by apply IH|]. by apply list_elem_of_singleton in Hs as ->.
Qed.

Lemma skip_all l b :
  NoDup (map ts_unit_id l) -> (forall s, s ∈ l -> ts_unit_id s ∉ b_seen b) ->
  exists b', each (skip encode) l b = Ok b' /\ b_items b' = b_items b
    /\ forall x, x ∈ b_seen b' <-> x ∈ b_seen b \/ x ∈ map ts_unit_id l.
Proof.
  revert b. induction l as [|s l IH]; intros b Hnd Hns; cbn [each map].
  - exists b. split_and!; [done..|]. intros x. rewrite elem_of_nil. tauto.
  - apply NoDup_cons in Hnd as [Hni Hnd]. unfold skip at 1, skip_unit.
    rewrite bool_decide_eq_false_2 by (apply Hns; left). cbn [bind].
    destruct (IH (mkBuilder (b_operation b) (b_selection b) (b_items b)
      (b_skipped b ++ [mkSkipped (ts_unit_id s) (encode <$> c_artifact_key (candidate s)) (c_artifact_path (candidate s)) (ts_status s)])
      (ts_unit_id s :: b_seen b)) Hnd) as (b' & H1 & H2 & H3).
    { intros s' Hs'. cbn [b_seen]. rewrite not_elem_of_cons. split; [|apply Hns; by right].
      intros He. apply Hni. rewrite <- He. apply list_elem_of_In, in_map, list_elem_of_In, Hs'. }
    exists b'. split_and!; [done..|]. intros x. rewrite H3. cbn [b_seen]. rewrite !elem_of_cons. tauto.
Qed.

Lemma block_all {A} (f : A -> pystr) (p : A -> GenerationProblem) key path st l b :
  NoDup (map f l) -> (forall a, a ∈ l -> f a ∉ b_seen b) ->
  exists b', each (fun a => block encode (f a) (p a) (key a) (path a) (st a)) l b = Ok b'
    /\ b_items b' = b_items b ++ map (fun a => mkItem (f a) GenerationItemState.BLOCKED (encode <$> key a) (path a) None
          GenerationTaskState.NOT_QUEUED (st a) None (Some (p a))) l
    /\ b_skipped b' = b_skipped b
    /\ forall x, x ∈ b_seen b' <-> x ∈ b_seen b \/ x ∈ map f l.
Proof.
  revert b. induction l as [|a l IH]; intros b Hnd Hns; cbn [each map].
  - exists b. rewrite app_nil_r. split_and!; [done..|]. intros x. rewrite elem_of_nil. tauto.
  - apply NoDup_cons in Hnd as [Hni Hnd]. unfold block at 1, _record. cbn [_problem_matches_state it_state it_problem negb it_unit_id].
    rewrite bool_decide_eq_false_2 by (apply Hns; left). cbn [bind].
    destruct (IH (mkBuilder (b_operation b) (b_selection b)
      (b_items b ++ [mkItem (f a) GenerationItemState.BLOCKED (encode <$> key a) (path a) None
          GenerationTaskState.NOT_QUEUED (st a) None (Some (p a))]) (b_skipped b) (f a :: b_seen b)) Hnd) as (b' & H1 & H2 & H3 & H4).
    { intros a' Ha'. cbn [b_seen]. rewrite not_elem_of_cons. split; [|apply Hns; by right].
      intros He. apply Hni. rewrite <- He. apply list_elem_of_In, in_map, list_elem_of_In, Ha'. }
    exists b'. split_and!; [done| |done|].
    + rewrite H2. cbn [b_items]. by rewrite <- app_assoc.
    + intros x. rewrite H4. cbn [b_seen]. rewrite !elem_of_cons. tauto.
Qed.
End selection.

Lemma where_disjoint {A} (f : A -> pystr) (p q : A -> bool) l x y :
  NoDup (map f l) -> (forall a, p a = true -> q a = true -> False) ->
  x ∈ where_ p l -> y ∈ where_ q l -> f x <> f y.
Proof.
  intros Hnd Hpq [Hx Hp]%elem_of_where [Hy Hq]%elem_of_where Hf.
  assert (x = y) as ->; [|by apply (Hpq y)].
  apply list_elem_of_lookup in Hx as [i Hi], Hy as [j Hj].
  assert (i = j) as ->; [|congruence].
  eapply (NoDup_lookup (map f l)); [done| |].
  - change (map f l) with (f <$> l). by rewrite list_lookup_fmap, Hi.
  - change (map f l) with (f <$> l). by rewrite list_lookup_fmap, Hj, Hf.
Qed.

Lemma where_NoDup {A} (f : A -> pystr) (p : A -> bool) l : NoDup (map f l) -> NoDup (map f (where_ p l)).
Proof.
  induction l as [|a l IH]; simpl; [done|]. intros [Hni Hnd]%NoDup_cons. destruct (p a); simpl; [|by apply IH].
  apply NoDup_cons. split; [|by apply IH]. intros Hin. apply Hni.
  apply list_elem_of_In, in_map_iff in Hin as (b & Hb & [Hin _]%List.filter_In). rewrite <- Hb.
  by apply list_elem_of_In, in_map.
Qed.

Lemma observed_unit {K} (compare : resolver K) c : ts_unit_id (observed compare c) = c_unit_id c.
Proof. unfold observed, ts_unit_id. by destruct (observe_artifact_status _ _ _). Qed.

Lemma observed_units {K} (compare : resolver K) cands : map ts_unit_id (map (observed compare) cands) = map c_unit_id cands.
Proof. rewrite map_map. apply map_ext. intros c. apply observed_unit. Qed.

Lemma explicit_partition {K} (known : list (pystr * GenerationTargetState K)) wanted :
  (forall x s, aget x known = Some s -> ts_unit_id s = x) ->
  map ts_unit_id (omap (fun x => aget x known) wanted)
    ++ where_ (fun x => negb (bool_decide (is_Some (aget x known)))) wanted ≡ₚ wanted.
Proof.
  intros Hk. induction wanted as [|x l IH]; [done|]. csimpl.
  destruct (aget x known) as [s|] eqn:E; csimpl.
  - by rewrite (Hk x s E), IH.
  - by rewrite <- Permutation_middle, IH.
Qed.

(** Entering a selection into a new builder. *)
Lemma from_selection_ok {K} (encode : K -> pystr) operation (sel : GenerationSelection K) :
  NoDup (map ts_unit_id (sel_skipped sel) ++ map ts_unit_id (sel_unavailable sel) ++ sel_unmatched sel) ->
  exists b, from_selection encode operation sel = Ok b.
Proof.
  intros (Hn1 & Hd1 & (Hn2 & Hd2 & Hn3)%NoDup_app)%NoDup_app. unfold from_selection, absorb.
  destruct (skip_all encode (sel_skipped sel) (new_builder operation (sel_mode sel)) Hn1) as (b1 & -> & _ & Hs1).
  { intros s _. apply not_elem_of_nil. }
  cbn [bind]. destruct (block_all encode ts_unit_id artifact_state_problem (fun s => c_artifact_key (candidate s))
    (fun s => c_artifact_path (candidate s)) ts_status (sel_unavailable sel) b1 Hn2) as (b2 & -> & _ & _ & Hs2).
  { intros s Hs Hin. apply Hs1 in Hin as [Hin|Hin]; [by apply not_elem_of_nil in Hin|].
    apply (Hd1 _ Hin), elem_of_app. left. by apply list_elem_of_In, in_map, list_elem_of_In. }
  cbn [bind]. destruct (block_all encode (fun x => x) unit_not_found (fun _ => None) (fun _ => None) (fun _ => None)
    (sel_unmatched sel) b2) as (b3 & -> & _); [by rewrite map_id| |by eexists].
  intros x Hx Hin. apply Hs2 in Hin as [Hin|Hin].
  - apply Hs1 in Hin as [Hin|Hin]; [by apply not_elem_of_nil in Hin|]. apply (Hd1 _ Hin), elem_of_app. by right.
  - by apply (Hd2 _ Hin).
Qed.

(** The registered codes the table of actions leaves out. *)
Definition unmapped_codes : list string := [
  "free_creation_merge_input_unreadable"; "free_creation_merge_limits_exceeded";
  "free_creation_merge_tools_missing"; "free_creation_merge_unavailable"].

(** The code has an action of its own. *)
Definition mapped (code : pystr) : Prop := exists name, name ∈ _TASK_FAILURE_ACTIONS.*1 /\ u name = code.

Lemma known_mapped code : known_code code = true -> mapped code <-> code ∉ map u unmapped_codes.
Proof.
  unfold known_code, failure_key. destruct (List.find _ FAILURE_CODE_KEYS) as [kv|] eqn:E; [|done]. intros _.
  apply find_Some_elem in E as [Hin Hkv]. to_prop. subst code.
  assert (Forall (fun kv : string * string => kv.1 ∈ _TASK_FAILURE_ACTIONS.*1 <-> kv.1 ∉ unmapped_codes) FAILURE_CODE_KEYS) as Hall.
  { apply (bool_decide_unpack _). vm_compute. exact I. }
  eapply Forall_forall in Hall; [|exact Hin]. simpl in Hall. unfold mapped. split.
  - intros (name & Hn & Heq%u_inj) Hc. subst name. apply Hall in Hn.
    apply list_elem_of_In, in_map_iff in Hc as (y & Hy%u_inj & Hc%list_elem_of_In). congruence.
  - intros Hc. exists kv.1. split; [|done]. apply Hall. intros Hu. apply Hc. by apply list_elem_of_In, in_map, list_elem_of_In.
Qed.

Lemma unmapped_retry code : ~ mapped code -> failure_action code = GenerationAction.RETRY.
Proof.
  intros Hm. unfold failure_action. destruct (List.find _ _TASK_FAILURE_ACTIONS) as [[n a]|] eqn:E; [|done].
  apply find_Some_elem in E as [Hin Hn]. simpl in Hn. to_prop. destruct Hm. exists n. split; [|done].
  apply list_elem_of_fmap. by exists (n, a).
Qed.

(** ** Theorems *)

(** C10: the result contract always holds: whatever calls a request makes on
    its builder, the batch it builds passes its own validation, every
    requested unit is in exactly one of succeeded, failed and blocked, no
    reused unit is among them, every item sits in the bucket of its state,
    and an item carries a problem exactly when it did not succeed. *)
Theorem result_contract {K} (encode : K -> pystr) operation mode b :
  rtc (builder_step encode) (new_builder operation mode) b ->
  exists r, build b = Ok r
    /\ br_succeeded r ++ br_failed r ++ br_blocked r ≡ₚ br_requested r
    /\ NoDup (br_requested r ++ map sk_unit_id (br_skipped r))
    /\ Forall (fun it => it_unit_id it ∈ bucket r (it_state it)
                         /\ (it_problem it = None <-> it_state it = GenerationItemState.SUCCEEDED)) (br_items r)
    /\ (batch_ok r = true <-> br_succeeded r ≡ₚ br_requested r).
Proof.
  intros Hr. pose proof (builder_steps_ok encode _ _ (new_builder_ok operation mode) Hr) as Hb.
  destruct (build_ok b Hb) as (r & H1 & H2 & H3 & H4 & H5 & H6 & H7). exists r. split_and!; try done.
  - apply Forall_forall. intros it Hit. split; [by apply H7|]. rewrite H5 in Hit.
    pose proof (bo_items _ Hb) as Hv. eapply Forall_forall in Hv; [|exact Hit]. simpl in Hv.
    unfold _problem_matches_state in Hv. destruct (it_state it), (it_problem it); done.
  - unfold batch_ok. rewrite andb_true_iff, !bool_decide_eq_true. split.
    + intros [Hf Hk]. rewrite <- H3, Hf, Hk. by rewrite !app_nil_r.
    + intros Hp. rewrite <- Hp in H3. apply Permutation_length in H3. rewrite !length_app in H3.
      destruct (br_failed r), (br_blocked r); simpl in H3; by (lia || done).
Qed.

(** A sweep for missing units never pays again for what is there: of the
    observed candidates every named one lands in exactly one of targets,
    reused and unavailable; a unit whose artifact is current or stale, or
    which the override accepts, is never a target, and a damaged claim is
    reported instead of regenerated; with distinct unit ids the selection can
    be entered into a builder.  An explicit selection splits the requested
    ids, without duplicates, into targets and unmatched, and every unmatched
    id names no candidate. *)
Theorem selection_partition {K} (encode : K -> pystr) operation cands (compare : resolver K) override ids_ :
  NoDup (map c_unit_id cands) -> ids_ <> [] ->
  (exists sel, select_generation_targets cands None compare override = Ok sel
     /\ sel_targets sel ++ sel_skipped sel ++ sel_unavailable sel ≡ₚ where_ named (map (observed compare) cands)
     /\ (forall s, s ∈ sel_targets sel -> reused override s = false /\ is_blocked s = false)
     /\ (forall s, s ∈ sel_unavailable sel -> ts_status s = Some ArtifactStatus.BLOCKED)
     /\ exists b, from_selection encode operation sel = Ok b)
  /\ (exists sel, select_generation_targets cands (Some ids_) compare override = Ok sel
     /\ map ts_unit_id (sel_targets sel) ++ sel_unmatched sel ≡ₚ fromkeys ids_
     /\ forall x, x ∈ sel_unmatched sel -> x = [] \/ x ∉ map c_unit_id cands).
Proof.
  intros Hnd Hids. set (states := map (observed compare) cands).
  assert (NoDup (map ts_unit_id states)) as Hnds by (unfold states; by rewrite observed_units). split.
  - unfold select_generation_targets. fold states. rewrite select_fold. eexists. split; [done|].
    cbn [sel_targets sel_skipped sel_unavailable app]. split; [apply select_partition|]. split_and!.
    + intros s [_ Hs]%elem_of_where. to_prop. done.
    + intros s [_ Hs]%elem_of_where. unfold is_blocked in Hs. by to_prop.
    + apply from_selection_ok. cbn [sel_skipped sel_unavailable sel_unmatched]. rewrite app_nil_r. apply NoDup_app.
      split; [by apply where_NoDup|]. split; [|by apply where_NoDup].
      intros x Hx Hy. apply list_elem_of_In, in_map_iff in Hx as (a & <- & Ha%list_elem_of_In).
      apply list_elem_of_In, in_map_iff in Hy as (c & Hc & Hin%list_elem_of_In).
      revert Hc. apply not_eq_sym. eapply (where_disjoint ts_unit_id); [exact Hnds| |exact Ha|exact Hin].
      cbv beta. intros s H1 H2. to_prop. congruence.
  - unfold select_generation_targets. fold states. destruct ids_ as [|i l]; [done|]. eexists. split; [done|].
    cbn [sel_targets sel_unmatched]. split.
    + apply explicit_partition. intros x s Hx. pose proof (by_id_of_spec states x) as Hb. rewrite Hx in Hb. by destruct Hb as (_ & ? & _).
    + intros x [_ Hx]%elem_of_where. pose proof (by_id_of_spec states x) as Hb. to_prop.
      destruct (aget x (by_id_of states)) as [s|]; [by destruct Hx|]. destruct Hb as [->|Hb]; [by left|right].
      rewrite <- (observed_units compare). intros (s & <- & Hs%list_elem_of_In)%list_elem_of_In%in_map_iff. by apply (Hb s).
Qed.

(** A stored structured reason is reported with its own code, its
    parameters and the next action of that code; every registered code has an
    action of its own except the four merge codes, which fall back to a plain
    retry; and a wait that was cut short is never answered with a retry, since
    the submission may still land. *)
Theorem failures_actionable code params msg error :
  encode_failure code params = Ok msg -> wf_json (JObj params) = true ->
  problem_from_task_failure (Some msg) false false = mkProblem code msg (failure_action code) (sorted_params params)
  /\ (mapped code <-> code ∉ map u unmapped_codes)
  /\ (code ∈ map u unmapped_codes -> failure_action code = GenerationAction.RETRY)
  /\ p_action (problem_from_task_failure error false true) = GenerationAction.WAIT_FOR_TASK.
Proof.
  unfold encode_failure. destruct (known_code code) eqn:Hk; [|done]. intros [= <-] Hwf. split_and!.
  - unfold problem_from_task_failure. rewrite parse_envelope by done. reflexivity.
  - by apply known_mapped.
  - intros Hin. apply unmapped_retry. intros Hm. by apply known_mapped in Hm.
  - done.
Qed.

Lemma failures_actionable_witness :
  p_action (problem_from_task_failure (Some (u "[free_creation_merge_tools_missing]")) false false) = GenerationAction.RETRY
  /\ ~ mapped (u "free_creation_merge_tools_missing").
Proof.
  assert (u "free_creation_merge_tools_missing" ∈ map u unmapped_codes) as Hin
    by (right; right; left).
  destruct (failures_actionable (u "free_creation_merge_tools_missing") [] (u "[free_creation_merge_tools_missing]") None)
    as (Hp & Hm & Hr & _); [vm_compute; reflexivity..|].
  split; [rewrite Hp; exact (Hr Hin)|]. intros H. apply Hm in H. exact (H Hin).
Defined.

(** Two scenes, one with a picture; the third id of the request is unknown. *)
Definition demo_cands : list (GenerationCandidate pystr) := [
  mkCandidate (u "E1S1") (Some (u "k1")) (Some (u "a.png")); mkCandidate (u "E1S2") (Some (u "k2")) None].
Definition demo_compare : resolver pystr := fun _ _ => inl (ArtifactStatus.STALE, None).

Lemma selection_partition_witness :
  exists sel b, select_generation_targets demo_cands None demo_compare None = Ok sel
    /\ from_selection id "storyboards" sel = Ok b
    /\ map ts_unit_id (sel_targets sel) = [u "E1S2"].
Proof.
  destruct (selection_partition id "storyboards" demo_cands demo_compare None [u "E1S1"; u "E9"]) as [(sel & H1 & _ & _ & _ & b & H2) _].
  - apply (bool_decide_unpack _). vm_compute. exact I.
  - discriminate.
  - exists sel, b. split; [exact H1|]. split; [exact H2|]. vm_compute in H1. injection H1 as <-. reflexivity.
Defined.

(** A request over both scenes: one reused, one that failed. *)
Definition demo_failed_task : BatchTaskResult :=
  mkTaskResult (u "E1S2") "t7" "failed" None (Some (u "[restart_lost_image]")) None false.
Definition demo_builder : result Builder :=
  let! sel := select_generation_targets demo_cands None demo_compare None in
  let! b := from_selection id "storyboards" sel in
  record_batch_outcomes id [] None (fun x => x) (fun _ => None) [] [demo_failed_task] b.

Lemma result_contract_witness :
  exists b r, demo_builder = Ok b /\ build b = Ok r /\ br_succeeded r ++ br_failed r ++ br_blocked r ≡ₚ br_requested r
    /\ br_failed r = [u "E1S2"].
Proof.
  destruct demo_builder as [b|e] eqn:E; [|vm_compute in E; discriminate].
  assert (rtc (builder_step id) (new_builder "storyboards" GenerationSelectionMode.MISSING_ONLY) b) as Hr.
  { unfold demo_builder in E. apply bind_Ok in E as (sel & E1 & (b1 & E2 & E3)%bind_Ok).
    transitivity b1; [|exact (outcomes_steps _ _ _ _ _ _ _ _ _ E3)].
    assert (sel_mode sel = GenerationSelectionMode.MISSING_ONLY) as Hm by (vm_compute in E1; injection E1 as <-; reflexivity).
    unfold from_selection in E2. rewrite Hm in E2. exact (absorb_steps _ _ _ _ E2). }
  destruct (result_contract id "storyboards" GenerationSelectionMode.MISSING_ONLY b Hr) as (r & H1 & H2 & _).
  exists b, r. split; [reflexivity|]. split; [exact H1|]. split; [exact H2|].
  vm_compute in E. injection E as <-. vm_compute in H1. injection H1 as <-. reflexivity.
Defined.
