(* ===== verification/BatchAdmission.v ===== *)
(** * All-or-nothing admission of batches: [lib/batch_admission.py]

    Every target of a batch request is judged once, and either the whole task
    set is created or none of it.  Collecting the verdicts is the adapter's
    job; here they are tickets.  Amounts of money are Python floats: a type
    with a conversion from JSON numbers, an addition and a conversion back,
    all arguments. *)

From S2P Require Import Prelude Json TaskFailure TaskStore TaskRepo GenerationResult.

Definition DURATION_CONFIRMATION_CODE : pystr := u "reference_duration_confirmation_required".

Module BatchAdmissionDecision.
Inductive t := ADMITTED | CONFIRMATION_REQUIRED | BLOCKED.

#[global] Instance eq_dec : EqDecision t.
Proof. solve_decision. Defined.

Definition value (d : t) : pystr :=
  match d with ADMITTED => u "admitted" | CONFIRMATION_REQUIRED => u "confirmation_required" | BLOCKED => u "blocked" end.
End BatchAdmissionDecision.

(** ** Serialized problems *)

Definition action_value (a : GenerationAction.t) : pystr :=
  match a with
  | GenerationAction.RETRY => u "retry"
  | GenerationAction.FIX_INPUT => u "fix_input"
  | GenerationAction.GENERATE_DEPENDENCY => u "generate_dependency"
  | GenerationAction.GENERATE_TTS => u "generate_tts"
  | GenerationAction.REGENERATE_TTS => u "regenerate_tts"
  | GenerationAction.WAIT_FOR_TASK => u "wait_for_task"
  | GenerationAction.REPLAN_UNIT => u "replan_unit"
  | GenerationAction.CONFIRM_REQUEST_DURATION => u "confirm_request_duration"
  | GenerationAction.CONFIGURE_PROVIDER => u "configure_provider"
  | GenerationAction.REPAIR_ARTIFACT_STATE => u "repair_artifact_state"
  | GenerationAction.RETRY_PROJECT_MIGRATION => u "retry_project_migration"
  | GenerationAction.NONE => u "none"
  end.

(** [problem.model_dump(mode="json")] *)
Definition problem_json (p : GenerationProblem) : json :=
  JObj [(u "code", JStr (p_code p)); (u "detail", JStr (p_detail p));
        (u "action", JStr (action_value (p_action p))); (u "params", JObj (p_params p))].

(** ** Tickets *)

Record UnitAdmissionTicket := mkTicket {
  unit_id : pystr;
  problems : list GenerationProblem;
  request_duration_seconds : option Z;
  current_duration_seconds : option Z;
  request_cost : option dict;
  projection : option dict
}.

Definition ticket_admitted (t : UnitAdmissionTicket) : bool :=
  match problems t with [] => true | _ => false end.

Definition confirmation_only (t : UnitAdmissionTicket) : bool :=
  negb (ticket_admitted t)
  && List.forallb (fun p => bool_decide (p_code p = DURATION_CONFIRMATION_CODE)) (problems t).

Definition opt_int (z : option Z) : json := match z with Some n => JInt n | None => JNull end.
Definition opt_obj (d : option dict) : json := match d with Some m => JObj m | None => JNull end.

Definition ticket_payload (t : UnitAdmissionTicket) : dict := [
  (u "unit_id", JStr (unit_id t));
  (u "admitted", JBool (ticket_admitted t));
  (u "request_duration_seconds", opt_int (request_duration_seconds t));
  (u "current_duration_seconds", opt_int (current_duration_seconds t));
  (u "request_cost", opt_obj (request_cost t));
  (u "problems", JArr (map problem_json (problems t)));
  (u "projection", opt_obj (projection t))].

Definition refused_ticket (id_ : pystr) (code detail : pystr) (action : GenerationAction.t) (params : dict)
    : UnitAdmissionTicket :=
  mkTicket id_ [mkProblem code detail action params] None None None None.

(** ** The batch *)

Record BatchAdmission := mkAdmission {
  operation : pystr;
  selection : GenerationSelectionMode.t;
  narration_delivery : pystr;
  tickets : list UnitAdmissionTicket
}.

Definition refused_tickets (a : BatchAdmission) : list UnitAdmissionTicket :=
  where_ (fun t => negb (ticket_admitted t)) (tickets a).

Definition decision (a : BatchAdmission) : BatchAdmissionDecision.t :=
  match refused_tickets a with
  | [] => BatchAdmissionDecision.ADMITTED
  | refused => if List.forallb confirmation_only refused
               then BatchAdmissionDecision.CONFIRMATION_REQUIRED else BatchAdmissionDecision.BLOCKED
  end.

Definition batch_admitted (a : BatchAdmission) : bool :=
  bool_decide (decision a = BatchAdmissionDecision.ADMITTED).

Definition holding_unit_ids (a : BatchAdmission) : list pystr := map unit_id (refused_tickets a).

Definition withheld_detail (holding : list pystr) : pystr :=
  ([26412; 27425; 25209; 37327; 35831; 27714; 26410; 21019; 24314; 20219; 20309; 20219; 21153; 65306; 21516; 25209; 30340; 32]
   ++ join [12289] holding
   ++ [32; 26410; 36890; 36807; 20934; 20837; 12290; 20462; 22797; 21518; 37325; 35797; 21363; 21487; 36830; 21516; 26412;
       32; 117; 110; 105; 116; 32; 19968; 36215; 25552; 20132; 12290])%N.

Definition _withheld_problem (holding : list pystr) : GenerationProblem :=
  mkProblem GenerationProblemCode.BATCH_ADMISSION_WITHHELD (withheld_detail holding) GenerationAction.RETRY
    [(u "blocked_unit_ids", JArr (map JStr holding))].

Definition withheld_problem_for (a : BatchAdmission) (t : UnitAdmissionTicket) : option GenerationProblem :=
  match holding_unit_ids a with
  | [] => None
  | holding => if negb (ticket_admitted t) then None else Some (_withheld_problem holding)
  end.

Definition projections (a : BatchAdmission) : list dict := omap projection (tickets a).

(** ** Confirmation *)

Definition _cost_currency (cost : option dict) : option pystr :=
  match cost with
  | Some d => match dict_get (u "currency") d with Some (JStr (c :: s)) => Some (c :: s) | _ => None end
  | None => None
  end.

(** The order of [(pair[0] is None, pair[0])]. *)
Definition tier_leb {V} (a b : option Z * V) : bool :=
  match a.1, b.1 with
  | Some x, Some y => (x <=? y)%Z
  | Some _, None => true
  | None, Some _ => false
  | None, None => true
  end.

Section money.
Context {amount : Type} (to_amount : json -> amount) (zero : amount) (add : amount -> amount -> amount)
        (amount_json : amount -> json).

Definition _cost_amount (cost : option dict) : option amount :=
  match cost with
  | Some d => match dict_get (u "amount") d with
              | Some (JInt z) => Some (to_amount (JInt z))
              | Some (JFloat l) => Some (to_amount (JFloat l))
              | _ => None
              end
  | None => None
  end.

Record BatchConfirmationTier := mkTier {
  tier_seconds : option Z;
  tier_unit_ids : list pystr;
  cost_amount : option amount;
  cost_currency : option pystr
}.

(** [grouped.setdefault(seconds, []).append(ticket)] *)
Definition grouped (l : list UnitAdmissionTicket) : list (option Z * list UnitAdmissionTicket) :=
  foldl (fun g t => if confirmation_only t
                    then aset (request_duration_seconds t) (default [] (aget (request_duration_seconds t) g) ++ [t]) g
                    else g) [] l.

Definition make_tier (sm : option Z * list UnitAdmissionTicket) : BatchConfirmationTier :=
  let amounts := map (fun m => _cost_amount (request_cost m)) sm.2 in
  let currencies := remove_dups (omap (fun m => _cost_currency (request_cost m)) sm.2) in
  let one := bool_decide (length currencies = 1) in
  mkTier sm.1 (map unit_id sm.2)
    (if List.forallb (fun x => bool_decide (is_Some x)) amounts && one
     then Some (foldl add zero (omap id amounts)) else None)
    (if one then head currencies else None).

Definition confirmation_tiers (a : BatchAdmission) : list BatchConfirmationTier :=
  map make_tier (isort tier_leb (grouped (tickets a))).

Definition tier_payload (t : BatchConfirmationTier) : json :=
  JObj [(u "request_duration_seconds", opt_int (tier_seconds t));
        (u "unit_count", JInt (Z.of_nat (length (tier_unit_ids t))));
        (u "unit_ids", JArr (map JStr (tier_unit_ids t)));
        (u "cost_amount", match cost_amount t with Some x => amount_json x | None => JNull end);
        (u "cost_currency", match cost_currency t with Some c => JStr c | None => JNull end)].

Definition unit_payload (a : BatchAdmission) (t : UnitAdmissionTicket) : dict :=
  let payload_ := dict_set (u "withheld") (JBool (bool_decide (is_Some (withheld_problem_for a t)))) (ticket_payload t) in
  match withheld_problem_for a t with
  | Some w => dict_set (u "problems") (JArr [problem_json w]) payload_
  | None => payload_
  end.

Definition mode_value (m : GenerationSelectionMode.t) : pystr :=
  match m with GenerationSelectionMode.EXPLICIT => u "explicit" | GenerationSelectionMode.MISSING_ONLY => u "missing_only" end.

Definition to_payload (a : BatchAdmission) : dict := [
  (u "decision", JStr (BatchAdmissionDecision.value (decision a)));
  (u "operation", JStr (operation a));
  (u "selection", JStr (mode_value (selection a)));
  (u "narration_delivery", JStr (narration_delivery a));
  (u "units", JArr (map (fun t => JObj (unit_payload a t)) (tickets a)));
  (u "confirmation",
     if bool_decide (decision a = BatchAdmissionDecision.CONFIRMATION_REQUIRED)
     then JObj [(u "tiers", JArr (map tier_payload (confirmation_tiers a)))] else JNull)].
End money.

(** ** Reporting a refusal *)

Section refusal.
Context {K : Type} (encode : K -> pystr).

(** The problem a ticket is reported with; [None] would be the
    [RuntimeError] of a ticket without a reason. *)
Definition reported_problem (a : BatchAdmission) (t : UnitAdmissionTicket) : option GenerationProblem :=
  match problems t with
  | [] => withheld_problem_for a t
  | [p] => Some p
  | p :: _ => Some (mkProblem (p_code p) (p_detail p) (p_action p)
                      (dict_set (u "problems") (JArr (map problem_json (problems t))) (p_params p)))
  end.

Definition record_refusal (a : BatchAdmission) (states : list (pystr * GenerationTargetState K)) (b : Builder)
    : result Builder :=
  if batch_admitted a then Raise ValueError
  else
    each (fun t b =>
        match reported_problem a t with
        | None => Raise RuntimeError
        | Some p =>
            let state := aget (unit_id t) states in
            block encode (unit_id t) p (state ≫= fun s => c_artifact_key (candidate s))
              (state ≫= fun s => c_artifact_path (candidate s)) (state ≫= ts_status) b
        end) (tickets a) b.
End refusal.

(** ** Lemmas *)

Lemma admitted_iff a : batch_admitted a = true <-> forall t, t ∈ tickets a -> problems t = [].
Proof.
  unfold batch_admitted. rewrite bool_decide_eq_true. unfold decision.
  destruct (refused_tickets a) as [|x l] eqn:E.
  - split; [|done]. intros _ t Ht. unfold refused_tickets in E. rewrite where_nil in E. specialize (E t Ht).
    unfold ticket_admitted in E. by destruct (problems t).
  - split; [by case_match|]. intros H.
    assert (x ∈ refused_tickets a) as [Hin Hx]%elem_of_where by (rewrite E; left).
    unfold ticket_admitted in Hx. by rewrite (H x Hin) in Hx.
Qed.

(** Consent is all that is missing. *)
Lemma confirmation_iff a :
  decision a = BatchAdmissionDecision.CONFIRMATION_REQUIRED <->
  (exists t, t ∈ tickets a /\ problems t <> [])
  /\ forall t, t ∈ tickets a -> problems t <> [] -> confirmation_only t = true.
Proof.
  assert (forall t, t ∈ refused_tickets a <-> t ∈ tickets a /\ problems t <> []) as Href.
  { intros t. unfold refused_tickets, ticket_admitted. rewrite elem_of_where. destruct (problems t); naive_solver. }
  unfold decision. setoid_rewrite <- Href. destruct (refused_tickets a) as [|x l] eqn:E.
  { split; [done|]. intros [(t & Ht%not_elem_of_nil) _]. done. }
  destruct (List.forallb confirmation_only (x :: l)) eqn:Ea.
  - rewrite List.forallb_forall in Ea. split; [|done]. intros _. split; [exists x; left|].
    intros t Ht Hp. apply Ea, list_elem_of_In. by apply Href.
  - split; [done|]. intros [_ H]. enough (true = false) by done. rewrite <- Ea. symmetry. apply List.forallb_forall.
    intros t Ht%list_elem_of_In. apply Href in Ht as [Ht Hp]. by apply H.
Qed.

Lemma refused_has_problem a : batch_admitted a = false -> exists x l, refused_tickets a = x :: l.
Proof.
  intros H. unfold batch_admitted, decision in H. destruct (refused_tickets a) as [|x l]; [done|]. by exists x, l.
Qed.

(** In a refused batch every ticket is reported with a reason. *)
Lemma reported_total a t :
  batch_admitted a = false ->
  exists p, reported_problem a t = Some p
    /\ (if ticket_admitted t
        then p = _withheld_problem (holding_unit_ids a)
        else exists p0 l, problems t = p0 :: l /\ p_code p = p_code p0 /\ p_action p = p_action p0).
Proof.
  intros Hr. destruct (refused_has_problem a Hr) as (x & l & Hx).
  unfold reported_problem, ticket_admitted, withheld_problem_for, holding_unit_ids. rewrite Hx.
  destruct (problems t) as [|p0 [|p1 ps]] eqn:Ep; cbn [map].
  - unfold ticket_admitted. rewrite Ep. cbn [negb]. by eexists.
  - eexists. split; [done|]. by exists p0, [].
  - eexists. split; [done|]. by exists p0, (p1 :: ps).
Qed.

(** The item a ticket of a refused batch is reported as. *)
Definition refusal_item {K} (encode : K -> pystr) (a : BatchAdmission) (states : list (pystr * GenerationTargetState K))
    (t : UnitAdmissionTicket) : GenerationItemResult :=
  let state := aget (unit_id t) states in
  mkItem (unit_id t) GenerationItemState.BLOCKED (encode <$> (state ≫= fun s => c_artifact_key (candidate s)))
    (state ≫= fun s => c_artifact_path (candidate s)) None GenerationTaskState.NOT_QUEUED (state ≫= ts_status) None
    (Some (default (_withheld_problem []) (reported_problem a t))).

Lemma record_refusal_items {K} (encode : K -> pystr) a states b :
  batch_admitted a = false -> NoDup (map unit_id (tickets a)) -> (forall t, t ∈ tickets a -> unit_id t ∉ b_seen b) ->
  exists b', record_refusal encode a states b = Ok b' /\ b_items b' = b_items b ++ map (refusal_item encode a states) (tickets a)
    /\ b_skipped b' = b_skipped b.
Proof.
  intros Hr Hnd Hs. unfold record_refusal. rewrite Hr.
  destruct (block_all encode unit_id (fun t => default (_withheld_problem []) (reported_problem a t))
    (fun t => aget (unit_id t) states ≫= fun s => c_artifact_key (candidate s))
    (fun t => aget (unit_id t) states ≫= fun s => c_artifact_path (candidate s))
    (fun t => aget (unit_id t) states ≫= ts_status) (tickets a) b Hnd Hs) as (b' & H1 & H2 & H3 & _).
  exists b'. split; [|done]. rewrite <- H1. apply each_ext. intros t c _.
  destruct (reported_total a t Hr) as (p & -> & _). done.
Qed.

Lemma record_refusal_steps {K} (encode : K -> pystr) a states b b' :
  record_refusal encode a states b = Ok b' -> rtc (builder_step encode) b b'.
Proof.
  unfold record_refusal. destruct (batch_admitted a); [done|]. apply each_steps.
  intros t c c'. destruct (reported_problem a t); [|done]. intros Hc. apply rtc_once. exact (step_record encode _ _ _ Hc).
Qed.

(** *** Confirmation tiers *)

(** Appending to one entry of a dictionary of lists. *)
Lemma aset_append {K A} `{EqDecision K} (k : K) (x : A) (g : list (K * list A)) :
  NoDup g.*1 -> flat_map snd (aset k (default [] (aget k g) ++ [x]) g) ≡ₚ flat_map snd g ++ [x].
Proof.
  induction g as [|[k' m] g IH]; simpl; [done|]. intros [Hni Hnd]%NoDup_cons. case_bool_decide as E; simpl.
  - rewrite <- !app_assoc. f_equiv. apply Permutation_app_comm.
  - by rewrite IH, app_assoc.
Qed.

Lemma grouped_members l g :
  NoDup g.*1 ->
  let g' := foldl (fun g t => if confirmation_only t
              then aset (request_duration_seconds t) (default [] (aget (request_duration_seconds t) g) ++ [t]) g
              else g) g l in
  NoDup g'.*1 /\ flat_map snd g' ≡ₚ flat_map snd g ++ where_ confirmation_only l
  /\ forall k, default [] (aget k g') = default [] (aget k g)
       ++ where_ (fun t => confirmation_only t && bool_decide (request_duration_seconds t = k)) l.
Proof.
  revert g. induction l as [|t l IH]; intros g Hnd; cbv zeta; cbn [foldl].
  { simpl. rewrite app_nil_r. split_and!; [done|done|]. intros k. by rewrite app_nil_r. }
  simpl where_. destruct (confirmation_only t) eqn:E; cbn [andb]; [|by apply IH].
  set (s := request_duration_seconds t).
  destruct (IH (aset s (default [] (aget s g) ++ [t]) g) (aset_NoDup _ _ _ Hnd)) as (H1 & H2 & H3).
  split; [done|]. split.
  - rewrite H2. rewrite (aset_append s t g Hnd). by rewrite <- app_assoc.
  - intros k. rewrite H3, aget_aset. case_bool_decide as Ek; [|done]. rewrite Ek. simpl. by rewrite <- app_assoc.
Qed.

Section tiers.
Context {amount : Type} (to_amount : json -> amount) (zero : amount) (add : amount -> amount -> amount).

(** The members of a tier: the units that only need consent and would be
    billed at its duration. *)
Definition members (a : BatchAdmission) (seconds : option Z) : list UnitAdmissionTicket :=
  where_ (fun t => confirmation_only t && bool_decide (request_duration_seconds t = seconds)) (tickets a).

Lemma grouped_spec a :
  NoDup (grouped (tickets a)).*1 /\ flat_map snd (grouped (tickets a)) ≡ₚ where_ confirmation_only (tickets a)
  /\ forall k, default [] (aget k (grouped (tickets a))) = members a k.
Proof. exact (grouped_members (tickets a) [] NoDup_nil_2). Qed.

Lemma tier_members a t :
  t ∈ confirmation_tiers to_amount zero add a ->
  t = make_tier to_amount zero add (tier_seconds t, members a (tier_seconds t)).
Proof.
  unfold confirmation_tiers. intros (sm & <- & Hsm%list_elem_of_In)%list_elem_of_In%in_map_iff.
  rewrite elem_of_isort in Hsm. destruct sm as [s m]. destruct (grouped_spec a) as (Hnd & _ & Hm). simpl.
  by rewrite <- Hm, (aget_elem _ _ _ Hnd Hsm).
Qed.

Lemma currency_listed c m (l : list UnitAdmissionTicket) :
  m ∈ l -> _cost_currency (request_cost m) = Some c ->
  c ∈ remove_dups (omap (fun m => _cost_currency (request_cost m)) l).
Proof. intros Hm Hc. apply elem_of_remove_dups, list_elem_of_omap. by exists m. Qed.

(** The total of a tier, when there is one. *)
Lemma make_tier_total s l x :
  cost_amount (make_tier to_amount zero add (s, l)) = Some x ->
  x = foldl add zero (omap (fun m => _cost_amount to_amount (request_cost m)) l)
  /\ exists c, cost_currency (make_tier to_amount zero add (s, l)) = Some c
     /\ forall m, m ∈ l -> is_Some (_cost_amount to_amount (request_cost m))
          /\ (_cost_currency (request_cost m) = Some c \/ _cost_currency (request_cost m) = None).
Proof.
  unfold make_tier. cbn [cost_amount cost_currency fst snd].
  set (cs := remove_dups (omap (fun m => _cost_currency (request_cost m)) l)).
  destruct (List.forallb _ _) eqn:Ea; [|done]. case_bool_decide as E1; [|done]. intros [= <-].
  split; [f_equal; clear; induction l as [|m l IH]; simpl; [done|]; unfold id at 1; destruct (_cost_amount _ _); [f_equal|]; exact IH|].
  destruct cs as [|c [|c' cs']] eqn:Ecs; [done| |done]. exists c. split; [done|]. intros m Hm. split.
  - rewrite List.forallb_forall in Ea. specialize (Ea (_cost_amount to_amount (request_cost m))).
    eapply bool_decide_eq_true_1, Ea, (in_map (fun m => _cost_amount to_amount (request_cost m))), list_elem_of_In, Hm.
  - destruct (_cost_currency (request_cost m)) as [c'|] eqn:Ec; [left|by right].
    pose proof (currency_listed c' m l Hm Ec) as Hin. fold cs in Hin. rewrite Ecs in Hin.
    by apply list_elem_of_singleton in Hin as ->.
Qed.
End tiers.

(** ** Theorems *)

(** C9: a batch is all or nothing: it is admitted exactly when no target has
    a problem, and waits for consent exactly when consent is all that is
    missing; a refused batch is reported completely: every target is blocked
    exactly once and none is queued, failed or succeeded; a target with
    problems of its own keeps the code and action of the first, and one that
    had none is told which targets held the batch back. *)
Theorem batch_all_or_nothing {K} (encode : K -> pystr) a states operation_ mode :
  NoDup (map unit_id (tickets a)) ->
  (decision a = BatchAdmissionDecision.ADMITTED <-> forall t, t ∈ tickets a -> problems t = [])
  /\ (decision a = BatchAdmissionDecision.CONFIRMATION_REQUIRED <->
      (exists t, t ∈ tickets a /\ problems t <> [])
      /\ forall t, t ∈ tickets a -> problems t <> [] -> confirmation_only t = true)
  /\ (decision a <> BatchAdmissionDecision.ADMITTED ->
      exists b r, record_refusal encode a states (new_builder operation_ mode) = Ok b /\ build b = Ok r
        /\ br_requested r = map unit_id (tickets a) /\ br_blocked r ≡ₚ map unit_id (tickets a)
        /\ forall t, t ∈ tickets a -> exists it p, it ∈ br_items r /\ it_unit_id it = unit_id t
             /\ it_problem it = Some p /\ it_task_state it = GenerationTaskState.NOT_QUEUED
             /\ if ticket_admitted t then p = _withheld_problem (holding_unit_ids a)
                else exists p0 l, problems t = p0 :: l /\ p_code p = p_code p0 /\ p_action p = p_action p0).
Proof.
  intros Hnd. split; [rewrite <- admitted_iff; unfold batch_admitted; by rewrite bool_decide_eq_true|].
  split; [apply confirmation_iff|]. intros Hd.
  assert (batch_admitted a = false) as Hr by by apply bool_decide_eq_false_2.
  destruct (record_refusal_items encode a states (new_builder operation_ mode) Hr Hnd) as (b & H1 & H2 & _).
  { intros t _. apply not_elem_of_nil. }
  pose proof (builder_steps_ok encode _ _ (new_builder_ok operation_ mode) (record_refusal_steps _ _ _ _ _ H1)) as Hok.
  destruct (build_ok b Hok) as (r & H3 & H4 & H5 & _ & H6 & _ & H7). simpl in H2.
  assert (map it_unit_id (b_items b) = map unit_id (tickets a)) as Hids by (rewrite H2, map_map; by apply map_ext).
  exists b, r. split; [done|]. split; [done|]. split; [congruence|]. split.
  - assert (forall st, st <> GenerationItemState.BLOCKED -> ids_in st (b_items b) = []) as Hno.
    { intros st Hst. unfold ids_in. rewrite (proj2 (where_nil _ _)); [done|]. intros it Hit. rewrite H2 in Hit.
      apply list_elem_of_In, in_map_iff in Hit as (t & <- & _). apply bool_decide_eq_false_2. simpl. congruence. }
    pose proof (ids_in_partition (b_items b)) as Hp. rewrite !Hno in Hp by done. simpl in Hp. rewrite Hids in Hp.
    unfold build in H3. case_match; [|done]. injection H3 as <-. exact Hp.
  - intros t Ht. destruct (reported_total a t Hr) as (p & Hp & Hcase). exists (refusal_item encode a states t), p.
    split_and!; [|done| |done|exact Hcase].
    + rewrite H6, H2. by apply list_elem_of_In, in_map, list_elem_of_In.
    + unfold refusal_item. simpl. by rewrite Hp.
Qed.

(** The confirmation summary asks for every unit that only needs consent,
    once, under the one tier it would be billed at: tiers have distinct
    durations, and each lists exactly its members, in the order of the
    batch.  A tier shows a total only if every member is quoted; the total is
    then the sum of their quotes, and exactly one currency is named among
    them, which is the one shown. *)
Theorem confirmation_tiers_exact {amount} (to_amount : json -> amount) zero add a :
  let tiers := confirmation_tiers to_amount zero add a in
  NoDup (map tier_seconds tiers)
  /\ flat_map tier_unit_ids tiers ≡ₚ map unit_id (where_ confirmation_only (tickets a))
  /\ forall t, t ∈ tiers ->
       tier_unit_ids t = map unit_id (members a (tier_seconds t))
       /\ forall x, cost_amount t = Some x ->
            x = foldl add zero (omap (fun m => _cost_amount to_amount (request_cost m)) (members a (tier_seconds t)))
            /\ exists c, cost_currency t = Some c
               /\ forall m, m ∈ members a (tier_seconds t) ->
                    is_Some (_cost_amount to_amount (request_cost m))
                    /\ (_cost_currency (request_cost m) = Some c \/ _cost_currency (request_cost m) = None).
Proof.
  cbv zeta. destruct (grouped_spec a) as (Hnd & Hperm & _). split_and!.
  - unfold confirmation_tiers. rewrite isort_perm, map_map. exact Hnd.
  - rewrite <- Hperm. unfold confirmation_tiers. rewrite isort_perm.
    generalize (grouped (tickets a)) as g. clear. induction g as [|sm g IH]; [done|]. simpl. by rewrite IH, map_app.
  - intros t Ht. apply tier_members in Ht. rewrite Ht. cbn [make_tier tier_seconds tier_unit_ids fst snd].
    split; [done|]. apply make_tier_total.
Qed.

(** Two videos that need consent at five seconds, and one that is fine. *)
Definition demo_consent (id_ : string) (cost : dict) : UnitAdmissionTicket :=
  mkTicket (u id_) [mkProblem DURATION_CONFIRMATION_CODE (u "confirm") GenerationAction.CONFIRM_REQUEST_DURATION []]
    (Some 5%Z) None (Some cost) None.
Definition demo_quote (amount : Z) (currency : list (pystr * json)) : dict := (u "amount", JInt amount) :: currency.
Definition demo_admission : BatchAdmission :=
  mkAdmission (u "videos") GenerationSelectionMode.EXPLICIT (u "post_production")
    [demo_consent "U1" (demo_quote 3 [(u "currency", JStr (u "USD"))]);
     mkTicket (u "U2") [] (Some 5%Z) None None None;
     demo_consent "U3" (demo_quote 4 [])].

Lemma batch_all_or_nothing_witness :
  exists b r, record_refusal id demo_admission [] (new_builder "videos" GenerationSelectionMode.EXPLICIT) = Ok b
    /\ build b = Ok r /\ br_blocked r ≡ₚ map u ["U1"; "U2"; "U3"].
Proof.
  destruct (batch_all_or_nothing id demo_admission [] "videos" GenerationSelectionMode.EXPLICIT) as (_ & _ & H).
  - apply (bool_decide_unpack _). vm_compute. exact I.
  - destruct H as (b & r & H1 & H2 & _ & H3 & _); [vm_compute; discriminate|].
    exists b, r. split; [exact H1|]. split; [exact H2|exact H3].
Defined.

(** The amount of a quote as an integer. *)
Definition demo_amount (j : json) : Z := match j with JInt z => z | _ => 0%Z end.

(** A quote without a currency is added to a total shown in the currency of
    the others. *)
Example unlabelled_quote_in_total :
  confirmation_tiers demo_amount 0%Z Z.add demo_admission =
  [mkTier (Some 5%Z) (map u ["U1"; "U3"]) (Some 7%Z) (Some (u "USD"))].
Proof. vm_compute. reflexivity. Qed.
