(* ===== verification/Planning.v ===== *)
(** * Planning storyboards and grids

    [lib/storyboard_sequence.py] orders the storyboard tasks of a script into
    dependency chains, and [lib/grid/layout.py] cuts a group of scenes into
    grid images.  A script item is a JSON object; [str] of a float or a
    container and the truth of a float are arguments, since no id or flag of a
    script has these types. *)

From S2P Require Import Prelude Json TaskFailure.

(** ** Dependency chains *)

Record StoryboardTaskPlan := mkPlan {
  sp_resource_id : pystr;
  sp_script_file : option pystr;
  sp_dependency_resource_id : option pystr;
  sp_dependency_group : pystr;
  sp_dependency_index : nat
}.

Section storyboard.
(** Python's [str] on floats and containers; [bool] on floats. *)
Context (py_repr : json -> pystr) (float_true : pystr -> bool).
Context (id_field : pystr).

(** [str(item.get(id_field))] *)
Definition raw_id (item : dict) : pystr := py_str py_repr (default JNull (dict_get id_field item)).

Fixpoint find_from (index : nat) (items : list dict) (resource_id : pystr) : option (dict * nat) :=
  match items with
  | [] => None
  | item :: rest => if bool_decide (raw_id item = resource_id) then Some (item, index)
                    else find_from (S index) rest resource_id
  end.

Definition find_storyboard_item (items : list dict) (resource_id : pystr) : option (dict * nat) :=
  find_from 0 items resource_id.

Definition segment_break (item : dict) : bool := py_bool float_true (dict_get (u "segment_break") item).

(** [for item in items: ...], with the groups closed so far. *)
Fixpoint group_go (items current : list dict) : list (list dict) :=
  match items with
  | [] => match current with [] => [] | _ => [current] end
  | item :: rest =>
      match current with
      | [] => group_go rest [item]
      | _ => if segment_break item then current :: group_go rest [item] else group_go rest (current ++ [item])
      end
  end.

Definition group_scenes_by_segment_break (items : list dict) : list (list dict) := group_go items [].

(** [str(item.get(id_field) or "").strip()] *)
Definition item_id (item : dict) : pystr :=
  let v := dict_get id_field item in
  strip (if py_bool float_true v then py_str py_repr (default JNull v) else []).

Definition group_name (script_file : option pystr) (n : nat) : pystr :=
  match script_file with Some (c :: s) => c :: s | _ => u "storyboard" end ++ u ":group:" ++ dumps_int (Z.of_nat n).

(** The loop, with the preceding item, the group counter and the current
    index. *)
Fixpoint plan_go (selected : list pystr) (script_file : option pystr) (previous : option dict)
    (group_counter current_group_index : nat) (items : list dict) : list StoryboardTaskPlan :=
  match items with
  | [] => []
  | item :: rest =>
      let resource_id := item_id item in
      if bool_decide (resource_id = []) || negb (bool_decide (resource_id ∈ selected))
      then plan_go selected script_file (Some item) group_counter current_group_index rest
      else
        let previous_id := match previous with Some p => item_id p | None => [] end in
        if segment_break item || bool_decide (previous_id = []) || negb (bool_decide (previous_id ∈ selected))
        then mkPlan resource_id script_file None (group_name script_file (S group_counter)) 0
             :: plan_go selected script_file (Some item) (S group_counter) 0 rest
        else mkPlan resource_id script_file (Some previous_id) (group_name script_file group_counter) (S current_group_index)
             :: plan_go selected script_file (Some item) group_counter (S current_group_index) rest
  end.

Definition build_storyboard_dependency_plan (items : list dict) (selected_ids : list pystr)
    (script_file : option pystr) : list StoryboardTaskPlan :=
  match selected_ids with
  | [] => []
  | _ => plan_go selected_ids script_file None 0 0 items
  end.
End storyboard.

(** ** Grids *)

Record GridLayout := mkLayout {
  grid_size : string;
  rows : nat;
  cols : nat;
  grid_aspect_ratio : string;
  cell_count : nat;
  placeholder_count : nat
}.

Definition GRID_FALLBACK_RESOLUTION : pystr := u "2K".
Definition _LARGE_GRID_RESOLUTION : pystr := u "4K".

(** (cell count, grid size, side) *)
Definition _GRID_LADDER : list (nat * string * nat) :=
  [(4, "grid_4", 2); (9, "grid_9", 3); (16, "grid_16", 4); (25, "grid_25", 5)].

Definition _GATED_MAX_CELL_COUNT : nat := 9.
Definition _MAX_CELL_COUNT : nat := 25.

Definition large_grid_allowed (image_resolution : option pystr) : bool :=
  let raw := match image_resolution with Some (c :: s) => c :: s | _ => GRID_FALLBACK_RESOLUTION end in
  bool_decide (ascii_upper (strip raw) = _LARGE_GRID_RESOLUTION).

Definition max_cell_count (allow_large_grid : bool) : nat :=
  if allow_large_grid then _MAX_CELL_COUNT else _GATED_MAX_CELL_COUNT.

Inductive Orientation := horizontal | vertical.

Definition _ORIENTATION_ASPECT (o : Orientation) : string :=
  match o with horizontal => "16:9" | vertical => "9:16" end.

Definition video_aspect_ratio_of (aspect_ratio : option pystr) : pystr :=
  match aspect_ratio with Some s => s | None => u (_ORIENTATION_ASPECT vertical) end.

(** [text.split(":")] *)
Fixpoint split_colon (cur s : pystr) : list pystr :=
  match s with
  | [] => [reverse cur]
  | c :: r => if (c =? c_colon)%N then reverse cur :: split_colon [] r else split_colon (c :: cur) r
  end.

(** [int(text)] on ASCII text: white space, a sign, and digits that single
    underscores may separate. *)
Fixpoint int_digits (acc : Z) (after_digit : bool) (s : pystr) : option Z :=
  match s with
  | [] => if after_digit then Some acc else None
  | c :: r => if is_digit c then int_digits (10 * acc + (Z.of_N c - 48)) true r
              else if ((c =? 95)%N && after_digit)%bool then int_digits acc false r
              else None
  end.

Definition py_int (s : pystr) : result Z :=
  let '(neg, body) := match strip s with
                      | c :: r => if (c =? c_minus)%N then (true, r) else if (c =? c_plus)%N then (false, r) else (false, c :: r)
                      | [] => (false, [])
                      end in
  match int_digits 0 false body with
  | Some z => Ok (if neg : bool then - z else z)%Z
  | None => Raise ValueError
  end.

Definition _orientation_of (aspect_ratio : pystr) : result Orientation :=
  match split_colon [] aspect_ratio with
  | w :: h :: _ =>
      let! w_ratio := py_int w in
      let! h_ratio := py_int h in
      Ok (if (h_ratio <? w_ratio)%Z then horizontal else vertical)
  | w :: [] => let! _ := py_int w in Raise IndexError
  | [] => Raise IndexError
  end.

(** The aspect ratio of old non-square records. *)
Definition _LEGACY_NON_SQUARE_ASPECT : list ((nat * nat) * string) := [((3, 2), "4:3"); ((2, 3), "3:4")].

Definition grid_aspect_ratio_for (rows_ cols_ : nat) (aspect_ratio : pystr) : result string :=
  let! o := _orientation_of aspect_ratio in
  let video_aspect := _ORIENTATION_ASPECT o in
  Ok (if bool_decide (rows_ = cols_) then video_aspect
      else default video_aspect (aget (rows_, cols_) _LEGACY_NON_SQUARE_ASPECT)).

Definition calculate_grid_layout (num_scenes : nat) (aspect_ratio : pystr) (allow_large_grid : bool)
    : result (option GridLayout) :=
  if (num_scenes <? 1)%nat then Ok None
  else
    let effective := min num_scenes (max_cell_count allow_large_grid) in
    match List.find (fun cfg => (effective <=? cfg.1.1)%nat) _GRID_LADDER with
    | None => Raise StopIteration
    | Some (cells, size, side) =>
        let! o := _orientation_of aspect_ratio in
        Ok (Some (mkLayout size side side (_ORIENTATION_ASPECT o) cells (cells - effective)))
    end.

(** The slices [group[i : i + n]]; [fuel] bounds their number. *)
Fixpoint slices {A} (fuel n : nat) (l : list A) : list (list A) :=
  match fuel, l with
  | S f, _ :: _ => take n l :: slices f n (drop n l)
  | _, _ => []
  end.

Definition plan_chunk {A} (aspect_ratio : pystr) (large : bool) (acc : result (list (list A * GridLayout))) (chunk : list A)
    : result (list (list A * GridLayout)) :=
  let! plans := acc in
  let! layout := calculate_grid_layout (length chunk) aspect_ratio large in
  Ok (match layout with Some y => plans ++ [(chunk, y)] | None => plans end).

Definition plan_grid_chunks {A} (group : list A) (aspect_ratio : pystr) (allow_large_grid : bool)
    : result (list (list A * GridLayout)) :=
  let! layout := calculate_grid_layout (length group) aspect_ratio allow_large_grid in
  match layout with
  | None => Ok []
  | Some y => foldl (plan_chunk aspect_ratio allow_large_grid) (Ok []) (slices (length group) (cell_count y) group)
  end.

(** ** Lemmas *)

Section chains.
Context (py_repr : json -> pystr) (float_true : pystr -> bool) (id_field : pystr).
Context (selected : list pystr) (script_file : option pystr).
Abbreviation iid := (item_id py_repr float_true id_field).
Abbreviation go := (plan_go py_repr float_true id_field selected script_file).

Definition is_selected (x : pystr) : bool := negb (bool_decide (x = [])) && bool_decide (x ∈ selected).

(** The id and dependency an item is planned with, from the item before it
    in the script alone. *)
Definition wanted (pi : option dict * dict) : option (pystr * option pystr) :=
  let '(previous, item) := pi in
  if is_selected (iid item)
  then Some (iid item,
             match previous with
             | Some p => if negb (segment_break float_true item) && is_selected (iid p) then Some (iid p) else None
             | None => None
             end)
  else None.

Lemma plan_go_wanted prev n k items :
  map (fun p => (sp_resource_id p, sp_dependency_resource_id p)) (go prev n k items)
  = omap wanted (zip (prev :: map Some items) items).
Proof.
  revert prev n k. induction items as [|it l IH]; intros prev n k; [done|].
  cbn [plan_go map zip zip_with]. simpl omap. unfold wanted at 1. unfold is_selected at 1.
  destruct (bool_decide (iid it = [])); cbn [orb negb andb]; [apply IH|].
  destruct (bool_decide (iid it ∈ selected)); cbn [orb negb andb]; [|apply IH].
  destruct prev as [pr|]; [|destruct (segment_break _ it); simpl; by rewrite IH].
  unfold is_selected.
  destruct (segment_break _ it), (bool_decide (iid pr = [])), (bool_decide (iid pr ∈ selected)); simpl; by rewrite IH.
Qed.

Lemma wanted_nothing l : selected = [] -> omap wanted l = [].
Proof.
  intros Hs. induction l as [|[prev it] l IH]; [done|]. simpl. unfold is_selected.
  rewrite (bool_decide_eq_false_2 (iid it ∈ selected)) by (rewrite Hs; apply not_elem_of_nil).
  by rewrite andb_false_r.
Qed.

(** [p] continues the plan before it, or starts a chain. *)
Definition linked (last : option StoryboardTaskPlan) (p : StoryboardTaskPlan) : Prop :=
  match sp_dependency_resource_id p with
  | Some r => exists q, last = Some q /\ sp_resource_id q = r
      /\ sp_dependency_group p = sp_dependency_group q /\ sp_dependency_index p = S (sp_dependency_index q)
  | None => sp_dependency_index p = 0
  end.

Fixpoint chained (last : option StoryboardTaskPlan) (l : list StoryboardTaskPlan) : Prop :=
  match l with
  | [] => True
  | p :: l' => linked last p /\ chained (Some p) l'
  end.

Lemma plan_go_chained last prev n k items :
  (forall pr, prev = Some pr -> is_selected (iid pr) = true ->
     exists q, last = Some q /\ sp_resource_id q = iid pr /\ sp_dependency_group q = group_name script_file n
       /\ sp_dependency_index q = k) ->
  chained last (go prev n k items).
Proof.
  revert last prev n k. induction items as [|it l IH]; intros last prev n k Hlast; cbn [plan_go]; [done|].
  destruct (bool_decide (iid it = []) || negb (bool_decide (iid it ∈ selected))) eqn:Esel.
  { apply IH. intros pr [= <-] Hs. unfold is_selected in Hs. destruct (bool_decide (iid it = [])), (bool_decide (iid it ∈ selected)); done. }
  destruct (segment_break float_true it || _ || _) eqn:Est; cbn [chained].
  - split; [done|]. apply IH. intros pr [= <-] _. by eexists.
  - apply orb_false_iff in Est as [Est Hin]. apply orb_false_iff in Est as [_ Hne].
    destruct prev as [pr|]; [|done].
    destruct (Hlast pr eq_refl) as (q & -> & Hq & Hg & Hk).
    { unfold is_selected. rewrite Hne. apply negb_false_iff in Hin. by rewrite Hin. }
    split; [exists q; simpl; split_and!; [done|done|congruence|congruence]|].
    apply IH. intros pr' [= <-] _. by eexists.
Qed.

Lemma chained_lookup last l i p :
  chained last l -> l !! i = Some p -> linked (match i with O => last | S j => l !! j end) p.
Proof.
  revert last i. induction l as [|x l IH]; intros last [|i]; simpl; [done..| |].
  - intros [H _] [= <-]. done.
  - intros [_ H] Hi. specialize (IH (Some x) i H Hi). by destruct i.
Qed.

(** Group numbers only grow, and grow where a chain starts. *)
Lemma plan_go_groups prev n k items p :
  p ∈ go prev n k items -> exists m, sp_dependency_group p = group_name script_file m /\ n <= m
    /\ (sp_dependency_resource_id p = None -> n < m).
Proof.
  revert prev n k. induction items as [|it l IH]; intros prev n k; cbn [plan_go]; [by intros ?%not_elem_of_nil|].
  destruct (bool_decide (iid it = []) || _); [apply IH|].
  destruct (segment_break float_true it || _ || _); intros [->|Hp]%elem_of_cons.
  - exists (S n). simpl. split; [done|]. lia.
  - apply IH in Hp as (m & Hm & Hle & Hlt). exists m. split; [done|]. split; [lia|]. intros H%Hlt. lia.
  - exists n. simpl. split; [done|]. split; [done|done].
  - by apply IH in Hp.
Qed.

Lemma dumps_int_inj a b : dumps_int a = dumps_int b -> a = b.
Proof. intros H. by rewrite <- (int_of_text_dumps a), <- (int_of_text_dumps b), H. Qed.

Lemma group_name_inj a b : group_name script_file a = group_name script_file b -> a = b.
Proof. unfold group_name. intros H%app_inv_head%app_inv_head%dumps_int_inj. lia. Qed.

Lemma plan_go_separate prev n k items i j p q :
  go prev n k items !! i = Some p -> go prev n k items !! j = Some q -> i < j ->
  sp_dependency_resource_id q = None -> sp_dependency_group p <> sp_dependency_group q.
Proof.
  revert prev n k i j. induction items as [|it l IH]; intros prev n k i j; cbn [plan_go]; [done|].
  destruct (bool_decide (iid it = []) || _); [apply IH|].
  destruct (segment_break float_true it || _ || _); intros Hi Hj Hlt Hq.
  all: destruct j as [|j]; [lia|]; destruct i as [|i]; simpl in Hi, Hj; [|by apply (IH _ _ _ i j Hi Hj); [lia|]].
  all: injection Hi as <-; apply list_elem_of_lookup_2, plan_go_groups in Hj as (m & -> & _ & Hm); specialize (Hm Hq);
    simpl; intros H%group_name_inj; lia.
Qed.
End chains.

(** *** Groups and grids *)

Lemma group_go_spec float_true items cur :
  concat (group_go float_true items cur) = cur ++ items
  /\ Forall (fun g => g <> []) (group_go float_true items cur)
  /\ (Forall (fun it => segment_break float_true it = false) (tail cur) ->
      Forall (fun g => Forall (fun it => segment_break float_true it = false) (tail g)) (group_go float_true items cur)).
Proof.
  revert cur. induction items as [|it l IH]; intros cur; cbn [group_go].
  - destruct cur as [|c cur]; simpl; rewrite ?app_nil_r; split_and!; auto.
  - destruct cur as [|c cur]; [by destruct (IH [it]) as (H1 & H2 & H3); split_and!; [done|done|intros; by apply H3]|].
    destruct (segment_break float_true it) eqn:E.
    + destruct (IH [it]) as (H1 & H2 & H3). cbn [concat]. rewrite H1. split_and!; [done|by constructor|].
      intros Hc. constructor; [done|]. by apply H3.
    + destruct (IH ((c :: cur) ++ [it])) as (H1 & H2 & H3). rewrite H1, <- app_assoc. split_and!; [done|done|].
      intros Hc. apply H3. simpl. apply Forall_app. split; [done|]. by constructor.
Qed.

(** Every group but the first starts at a break. *)
Definition opens (float_true : pystr -> bool) (g : list dict) : Prop :=
  exists it rest, g = it :: rest /\ segment_break float_true it = true.

Lemma group_go_opens float_true items c cur :
  exists rest gs, group_go float_true items (c :: cur) = (c :: rest) :: gs /\ Forall (opens float_true) gs.
Proof.
  revert c cur. induction items as [|it l IH]; intros c cur; cbn [group_go]; [by exists cur, []|].
  destruct (segment_break float_true it) eqn:E; [|apply (IH c (cur ++ [it]))].
  destruct (IH it []) as (rest & gs & -> & Hgs). exists cur, ((it :: rest) :: gs). split; [done|].
  constructor; [by exists it, rest|done].
Qed.

Lemma groups_open float_true items :
  Forall (opens float_true) (tail (group_scenes_by_segment_break float_true items)).
Proof.
  unfold group_scenes_by_segment_break. destruct items as [|it l]; [done|]. cbn [group_go].
  by destruct (group_go_opens float_true l it []) as (rest & gs & -> & Hgs).
Qed.

(** What a layout is for a given number of scenes. *)
Definition fits (large : bool) (n : nat) (y : GridLayout) : Prop :=
  rows y = cols y /\ cell_count y = rows y * cols y /\ cell_count y <= max_cell_count large
  /\ cell_count y = placeholder_count y + min n (max_cell_count large).

Lemma layout_fits n ratio large o :
  1 <= n -> _orientation_of ratio = Ok o ->
  exists y, calculate_grid_layout n ratio large = Ok (Some y) /\ fits large n y.
Proof.
  intros Hn Ho. unfold calculate_grid_layout. rewrite Ho.
  destruct (Nat.ltb_spec n 1); [lia|]. unfold fits, max_cell_count, _MAX_CELL_COUNT, _GATED_MAX_CELL_COUNT.
  set (e := min n (if large then 25 else 9)). simpl List.find.
  assert (e <= if large then 25 else 9) by (unfold e; destruct large; lia).
  destruct (Nat.leb_spec e 4); [|destruct (Nat.leb_spec e 9); [|destruct (Nat.leb_spec e 16); [|destruct (Nat.leb_spec e 25)]]];
    cbn [bind]; try (eexists; split; [done|]; cbn [rows cols cell_count placeholder_count]; destruct large; lia);
    destruct large; lia.
Qed.

Lemma slices_concat {A} fuel n (l : list A) : 0 < n -> length l <= fuel -> concat (slices fuel n l) = l.
Proof.
  intros Hn. revert l. induction fuel as [|f IH]; intros [|x l] Hl; simpl in *; try lia; [done|done|].
  destruct n as [|n]; [lia|]. simpl. rewrite IH; [by rewrite take_drop|]. rewrite length_drop. lia.
Qed.

Lemma slices_bounds {A} fuel n (l : list A) :
  0 < n -> Forall (fun c => 1 <= length c <= n) (slices fuel n l).
Proof.
  intros Hn. revert l. induction fuel as [|f IH]; intros [|x l]; simpl; try done. constructor; [|apply IH].
  rewrite length_take. simpl. lia.
Qed.

Lemma plan_chunks_ok {A} ratio large o (chunks : list (list A)) acc :
  _orientation_of ratio = Ok o -> Forall (fun c => 1 <= length c) chunks ->
  exists plans, foldl (plan_chunk ratio large) (Ok acc) chunks = Ok (acc ++ plans)
    /\ map fst plans = chunks /\ Forall (fun cy => fits large (length cy.1) cy.2) plans.
Proof.
  intros Ho. revert acc. induction chunks as [|c l IH]; intros acc Hl; simpl.
  - exists []. by rewrite app_nil_r.
  - apply Forall_cons in Hl as [Hc Hl]. destruct (layout_fits (length c) ratio large o Hc Ho) as (y & -> & Hy). cbn [bind].
    destruct (IH (acc ++ [(c, y)]) Hl) as (plans & -> & Hm & Hf). exists ((c, y) :: plans).
    rewrite <- app_assoc. split; [done|]. simpl. split; [by rewrite Hm|by constructor].
Qed.

(** ** Theorems *)

(** Storyboards are chained in script order: exactly the selected items
    are planned, in the order of the script, and an item depends on the item
    before it in the script exactly if that one is selected too and no
    segment breaks between them; an item that depends on another follows it
    directly in the plan, in the same group and at the next position; every
    other item starts a group at position zero, under a name no earlier
    group has. *)
Theorem storyboard_chains py_repr float_true id_field items selected script_file :
  let plans := build_storyboard_dependency_plan py_repr float_true id_field items selected script_file in
  map (fun p => (sp_resource_id p, sp_dependency_resource_id p)) plans
  = omap (wanted py_repr float_true id_field selected) (zip (None :: map Some items) items)
  /\ (forall i p, plans !! i = Some p ->
      match sp_dependency_resource_id p with
      | Some r => exists j q, i = S j /\ plans !! j = Some q /\ sp_resource_id q = r
          /\ sp_dependency_group p = sp_dependency_group q /\ sp_dependency_index p = S (sp_dependency_index q)
      | None => sp_dependency_index p = 0
          /\ forall j q, j < i -> plans !! j = Some q -> sp_dependency_group q <> sp_dependency_group p
      end).
Proof.
  cbv zeta. unfold build_storyboard_dependency_plan. destruct selected as [|x sel].
  { split; [|done]. by rewrite wanted_nothing. }
  split; [apply plan_go_wanted|]. intros i p Hi.
  pose proof (chained_lookup None _ i p (plan_go_chained py_repr float_true id_field (x :: sel) script_file None None 0 0 items ltac:(done)) Hi) as Hl.
  unfold linked in Hl. destruct (sp_dependency_resource_id p) as [r|] eqn:Ed.
  - destruct Hl as (q & Hq & Hrest). destruct i as [|j]; [done|]. by exists j, q.
  - split; [done|]. intros j q Hj Hq. by eapply plan_go_separate.
Qed.

(** Grids lose no scene: the scenes of a script are cut into consecutive
    groups that break exactly where a segment breaks, and each group into
    consecutive, non-empty chunks; every chunk gets a square grid within the
    cell limit with exactly as many placeholders as free cells. *)
Theorem grids_cover_scenes {A} float_true items (group : list A) ratio large o :
  _orientation_of ratio = Ok o ->
  (concat (group_scenes_by_segment_break float_true items) = items
   /\ Forall (fun g => g <> [] /\ Forall (fun it => segment_break float_true it = false) (tail g))
        (group_scenes_by_segment_break float_true items)
   /\ Forall (opens float_true) (tail (group_scenes_by_segment_break float_true items)))
  /\ exists plans, plan_grid_chunks group ratio large = Ok plans
       /\ concat (map fst plans) = group
       /\ Forall (fun cy => 1 <= length cy.1 <= cell_count cy.2 /\ rows cy.2 = cols cy.2
                   /\ cell_count cy.2 = rows cy.2 * cols cy.2 /\ cell_count cy.2 <= max_cell_count large
                   /\ cell_count cy.2 = placeholder_count cy.2 + length cy.1) plans.
Proof.
  intros Ho. split.
  - destruct (group_go_spec float_true items []) as (H1 & H2 & H3). split; [done|].
    specialize (H3 (Forall_nil_2 _)). split; [by apply Forall_and|apply groups_open].
  - unfold plan_grid_chunks. destruct group as [|x group]; [exists []; done|].
    destruct (layout_fits (length (x :: group)) ratio large o ltac:(simpl; lia) Ho) as (y & -> & Hy). cbn [bind].
    assert (0 < cell_count y) as Hpos.
    { destruct Hy as (_ & _ & _ & Hc). unfold max_cell_count, _MAX_CELL_COUNT, _GATED_MAX_CELL_COUNT in Hc. simpl in Hc.
      destruct large; lia. }
    pose proof (slices_bounds (length (x :: group)) _ (x :: group) Hpos) as Hb.
    destruct (plan_chunks_ok ratio large o (slices (length (x :: group)) (cell_count y) (x :: group)) [] Ho)
      as (plans & -> & Hm & Hf); [by eapply Forall_impl; [exact Hb|]; simpl; lia|].
    exists plans. split; [done|]. rewrite Hm. split; [by apply slices_concat|].
    apply Forall_forall. intros cy Hcy. eapply Forall_forall in Hf as (F1 & F2 & F3 & F4); [|exact Hcy].
    rewrite <- Hm in Hb. rewrite Forall_forall in Hb. specialize (Hb cy.1).
    assert (1 <= length cy.1 <= cell_count y) as Hc by (apply Hb; by apply list_elem_of_In, in_map, list_elem_of_In).
    destruct Hy as (_ & _ & Hmax & _). rewrite Nat.min_l in F4 by lia. split_and!; lia.
Qed.

Lemma grids_cover_scenes_witness :
  exists plans, plan_grid_chunks (seq 0 11) (u "16:9") false = Ok plans /\ concat (map fst plans) = seq 0 11
    /\ map (fun cy => (grid_size cy.2, placeholder_count cy.2)) plans = [("grid_9", 0); ("grid_4", 2)].
Proof.
  destruct (grids_cover_scenes (fun _ => true) [] (seq 0 11) (u "16:9") false horizontal) as [_ (plans & H1 & H2 & _)].
  - vm_compute. reflexivity.
  - exists plans. split; [exact H1|]. split; [exact H2|]. vm_compute in H1. injection H1 as <-. reflexivity.
Defined.

(** Three scenes in a row, the last one after a break. *)
Example storyboard_plan_example :
  let item id_ brk := [(u "scene_id", JStr (u id_)); (u "segment_break", JBool brk)] in
  map (fun p => (sp_dependency_resource_id p, sp_dependency_index p))
    (build_storyboard_dependency_plan (fun _ => []) (fun _ => true) (u "scene_id")
       [item "S1" false; item "S2" false; item "S3" true] (map u ["S1"; "S2"; "S3"]) (Some (u "ep1.json")))
  = [(None, 0); (Some (u "S1"), 1); (None, 0)].
Proof. vm_compute. reflexivity. Qed.
