(* ===== verification/QueueClient.v ===== *)
(** * The queue's client side: [lib/generation_queue_client.py]

    Structural validation of a request ([TaskSpec.from_request]), enqueueing
    one task or a batch in dependency order, and waiting for the results.
    Waiting polls the queue: a poll is what one round of the loop reads (the
    row, the monotonic clock, whether the worker is online), and the loop runs
    over a stream of polls with fuel, shown to be enough under a timeout.
    Times are microseconds.  Between two calls other sessions may write to the
    queue ([env]).  Identifiers are compared with JSON text through [u]. *)

From S2P Require Import Prelude Json TaskFailure TaskStore TaskRepo Scenario TaskInv TaskOps TaskCascade.
From S2P Require Import Checkpoint Queue GenerationResult.

(** ** Validation *)

Definition _VIDEO_TASK_TYPES : list string := ["video"].
Definition _IMAGE_STRUCTURED_TASK_TYPES : list string := ["storyboard"].
Definition _TTS_TASK_TYPES : list string := ["tts"].

(** [isinstance(prompt, dict) and key in prompt] *)
Definition is_structured (key : pystr) (d : dict) : bool := bool_decide (is_Some (dict_get key d)).

Section request.
Context (float_true : pystr -> bool).

(** [not str(v or "").strip()]: a true value that is not a string never
    prints blank. *)
Definition blank_value (v : option json) : bool :=
  negb (py_bool float_true v) || match v with Some (JStr s) => blank_text s | _ => false end.

(** [None] is [JNull]; the error is the code of [TaskSpecValidationError]. *)
Definition _validate_prompt (task_type : string) (prompt : json) : result unit :=
  if bool_decide (task_type ∈ _VIDEO_TASK_TYPES) then
    match prompt with
    | JObj d =>
        if negb (is_structured (u "action") d)
        then Raise (TaskSpecValidationError "video_prompt_must_be_string_or_action_object")
        else if blank_value (dict_get (u "action") d) then Raise (TaskSpecValidationError "video_prompt_action_empty")
        else match dict_get (u "dialogue") d with
             | None | Some JNull | Some (JArr _) => Ok tt
             | _ => Raise (TaskSpecValidationError "video_prompt_dialogue_array")
             end
    | JStr s => if blank_text s then Raise (TaskSpecValidationError "prompt_text_empty") else Ok tt
    | _ => Raise (TaskSpecValidationError "prompt_must_be_string_or_object")
    end
  else if bool_decide (task_type ∈ _TTS_TASK_TYPES) then
    match prompt with
    | JNull => Ok tt
    | JStr s => if blank_text s then Raise (TaskSpecValidationError "prompt_text_empty") else Ok tt
    | _ => Raise (TaskSpecValidationError "tts_prompt_must_be_string_or_null")
    end
  else
    match bool_decide (task_type ∈ _IMAGE_STRUCTURED_TASK_TYPES), prompt with
    | true, JObj d =>
        if negb (is_structured (u "scene") d)
        then Raise (TaskSpecValidationError "prompt_must_be_string_or_scene_object")
        else if blank_value (dict_get (u "scene") d) then Raise (TaskSpecValidationError "prompt_scene_empty")
        else Ok tt
    | _, JStr s => if blank_text s then Raise (TaskSpecValidationError "prompt_text_empty") else Ok tt
    | _, _ => Raise (TaskSpecValidationError "prompt_must_be_string_or_object")
    end.

Record TaskSpec := mkSpec {
  spec_task_type : string;
  spec_media_type : string;
  spec_resource_id : string;
  spec_payload : option json;
  spec_script_file : option string;
  spec_source : string;
  spec_dependency_resource_id : option string;
  spec_dependency_group : option string;
  spec_dependency_index : option Z
}.

(** A path separator, a NUL, or nothing but dots. *)
Definition unsafe_resource_id (id : pystr) : bool :=
  List.existsb (fun c => bool_decide (c ∈ [47; 92; 0]%N)) id || List.forallb (fun c => (c =? 46)%N) id.

Definition reserved_keys (task_type : string) : list pystr :=
  if bool_decide (task_type ∈ _TTS_TASK_TYPES) then [u "prompt"; u "script_file"; u "text"]
  else [u "prompt"; u "script_file"].

Definition from_request (task_type media_type resource_id : string) (prompt : json) (script_file : option string)
    (source : string) (extra_payload : option dict) (dependency_resource_id dependency_group : option string)
    (dependency_index : option Z) : result TaskSpec :=
  if blank_text (u resource_id) then Raise (TaskSpecValidationError "resource_id_required")
  else if unsafe_resource_id (u resource_id) then Raise (TaskSpecValidationError "invalid_resource_id")
  else
    let! _ := _validate_prompt task_type prompt in
    let extra := default [] extra_payload in
    if List.existsb (fun k => bool_decide (is_Some (dict_get k extra))) (reserved_keys task_type) then Raise ValueError
    else
      let p1 := if bool_decide (task_type = "reference_video") then extra else dict_set (u "prompt") prompt extra in
      let p2 := match script_file with Some f => dict_set (u "script_file") (JStr (u f)) p1 | None => p1 end in
      Ok (mkSpec task_type media_type resource_id (Some (JObj p2)) script_file source
            dependency_resource_id dependency_group dependency_index).
End request.

(** ** Waiting *)

Definition DEFAULT_TASK_WAIT_TIMEOUT_SEC : option Z := Some (3600 * SECOND)%Z.
Definition TASK_WORKER_LEASE_TTL_SEC : Z := (10 * SECOND)%Z.
Definition DEFAULT_WORKER_OFFLINE_GRACE_SEC : Z := Z.max (20 * SECOND) (TASK_WORKER_LEASE_TTL_SEC * 2).

Definition read_task_wait_timeout : option Z :=
  match DEFAULT_TASK_WAIT_TIMEOUT_SEC with
  | Some v => if (v <=? 0)%Z then None else Some v
  | None => None
  end.

Definition read_worker_offline_grace : Z := Z.max SECOND DEFAULT_WORKER_OFFLINE_GRACE_SEC.

(** A tenth of a second, the least timeout. *)
Definition TENTH : Z := 100000.

Definition wait_timeout (timeout_seconds : option Z) : option Z :=
  Z.max TENTH <$> match timeout_seconds with Some t => Some t | None => read_task_wait_timeout end.

Definition wait_grace (worker_offline_grace_seconds : option Z) : Z :=
  match worker_offline_grace_seconds with Some g => Z.max TENTH g | None => read_worker_offline_grace end.

(** What one round of the loop reads. *)
Record Poll := mkPoll { poll_task : option TaskDict; poll_now : Z; poll_online : bool }.

(** One round: the answer, or the time the worker has been offline since. *)
Definition wait_round (timeout : option Z) (grace start : Z) (p : Poll) (offline_since : option Z)
    : result TaskDict + option Z :=
  match poll_task p with
  | None => inl (Raise RuntimeError)
  | Some d =>
      if is_terminal (status (row d)) then inl (Ok d)
      else if match timeout with Some t => (t <=? poll_now p - start)%Z | None => false end
      then inl (Raise TaskWaitTimeoutError)
      else if poll_online p then inr None
      else match offline_since with
           | None => inr (Some (poll_now p))
           | Some since => if (grace <=? poll_now p - since)%Z then inl (Raise WorkerOfflineError) else inr (Some since)
           end
  end.

(** [while True], from the [n]-th poll on. *)
Fixpoint wait_loop (fuel : nat) (timeout : option Z) (grace start : Z) (polls : nat -> Poll) (n : nat)
    (offline_since : option Z) : option (result TaskDict) :=
  match fuel with
  | O => None
  | S f => match wait_round timeout grace start (polls n) offline_since with
           | inl r => Some r
           | inr since => wait_loop f timeout grace start polls (S n) since
           end
  end.

Definition wait_for_task (fuel : nat) (timeout_seconds worker_offline_grace_seconds : option Z) (start : Z)
    (polls : nat -> Poll) : option (result TaskDict) :=
  wait_loop fuel (wait_timeout timeout_seconds) (wait_grace worker_offline_grace_seconds) start polls 0 None.

Definition is_interrupted_wait_error (e : exc) : bool :=
  match e with TaskWaitTimeoutError | WorkerOfflineError => true | _ => false end.

(** ** Enqueueing *)

Section enqueue.
(** The arguments of [enqueue_task], and the text of an exception. *)
Context (migration_ok : string -> result unit) (storage_ok : result unit)
        (derive : option json -> option string) (testing : bool) (exc_text : exc -> pystr).
Context (project user : string).

(** [isinstance(raw, str) and raw] of [payload.resource_type]. *)
Definition payload_resource_type (p : option json) : option string :=
  match dict_get (u "resource_type") (members_of p) with
  | Some (JStr (c :: s)) => Some (of_u (c :: s))
  | _ => None
  end.

Definition spec_args (spec : TaskSpec) (dep_task_id : option string) : EnqueueArgs :=
  mkEnqueue project (spec_task_type spec) (spec_media_type spec) (spec_resource_id spec)
    (Some (payload_or_empty (spec_payload spec))) (spec_script_file spec) (payload_resource_type (spec_payload spec))
    (spec_source spec) dep_task_id (spec_dependency_group spec) (spec_dependency_index spec) user None.

Definition enqueue_task_only (lease_name : string) (now : Z) (uuid : string) (spec : TaskSpec)
    (dep_task_id : option string) (q : Queue) : result ((string * TaskStatus * bool) * Queue) :=
  if negb (is_worker_online now lease_name (mkSession (qdb q) [])) then Raise WorkerOfflineError
  else enqueue_task migration_ok storage_ok derive testing now uuid (spec_args spec dep_task_id) q.

(** [enqueue_and_wait]: the finished row and its result. *)
Definition enqueue_and_wait (lease_name : string) (now : Z) (uuid : string) (spec : TaskSpec)
    (dep_task_id : option string) (wait : string -> option (result TaskDict)) (q : Queue)
    : option (result (TaskDict * json)) * Queue :=
  match enqueue_task_only lease_name now uuid spec dep_task_id q with
  | Raise e => (Some (Raise e), q)
  | Ok ((id, _, _), q') =>
      ((fun r => let! d := r in
                 match status (row d) with
                 | failed => Raise (TaskFailedError (text_or (error_message (row d)) (u "task failed")))
                 | cancelled => Raise (TaskCancelledError id)
                 | _ => Ok (d, result_ d)
                 end) <$> wait id, q')
  end.

Record EnqueuedTask := mkEnqueued { en_resource_id : string; en_task_id : string; en_deduped : bool }.

(** The variables of the loop. *)
Record EnqueueLoop := mkEnqueueLoop {
  el_enqueued : list EnqueuedTask;
  el_task_ids : list (string * string);
  el_failures : list BatchTaskResult;
  el_failed : list string;
  el_queue : Queue
}.

(** A target that never reached the queue. *)
Definition not_queued (resource_id : string) (error : pystr) (interrupted : bool) : BatchTaskResult :=
  mkTaskResult (u resource_id) "" "failed" None (Some error) None interrupted.

Definition dependency_error (dep : string) : pystr := u ("dependency " +:+ dep +:+ " failed to enqueue").

Definition stopped_error (at_ : string) : pystr :=
  u ("batch enqueue stopped at '" +:+ at_ +:+ "'; this target was never queued").

(** [spec.dependency_resource_id and ...] *)
Definition dependency_of (spec : TaskSpec) : option string :=
  match spec_dependency_resource_id spec with
  | Some r => if bool_decide (r = "") then None else Some r
  | None => None
  end.

Context (stop_on_failure : bool).
(** What other sessions do before the [n]-th call, and the clock and the
    identifier it draws. *)
Context (env : nat -> Queue -> Queue) (clock : nat -> Z) (uuid : nat -> string).

(** One member: [inl] to go on, [inr] to stop. *)
Definition enqueue_one (index : nat) (spec : TaskSpec) (rest : list TaskSpec) (st : EnqueueLoop)
    : EnqueueLoop + EnqueueLoop :=
  let rid := spec_resource_id spec in
  let dep := dependency_of spec in
  match where_ (fun r => bool_decide (r ∈ el_failed st)) (option_list dep) with
  | r :: _ =>
      inl (mkEnqueueLoop (el_enqueued st) (el_task_ids st)
             (el_failures st ++ [not_queued rid (dependency_error r) false]) (rid :: el_failed st) (el_queue st))
  | [] =>
      let dep_task_id := dep ≫= fun r => aget r (el_task_ids st) in
      let q := env index (el_queue st) in
      match enqueue_task_only "default" (clock index) (uuid index) spec dep_task_id q with
      | Raise e =>
          let failures := el_failures st ++ [not_queued rid (exc_text e) stop_on_failure] in
          if stop_on_failure
          then inr (mkEnqueueLoop (el_enqueued st) (el_task_ids st)
                      (failures ++ map (fun p => not_queued (spec_resource_id p) (stopped_error rid) true) rest)
                      (rid :: el_failed st) q)
          else inl (mkEnqueueLoop (el_enqueued st) (el_task_ids st) failures (rid :: el_failed st) q)
      | Ok ((id, _, deduped), q') =>
          inl (mkEnqueueLoop (el_enqueued st ++ [mkEnqueued rid id deduped]) (aset rid id (el_task_ids st))
                 (el_failures st) (el_failed st) q')
      end
  end.

Fixpoint enqueue_loop (index : nat) (specs : list TaskSpec) (st : EnqueueLoop) : EnqueueLoop :=
  match specs with
  | [] => st
  | spec :: rest =>
      match enqueue_one index spec rest st with
      | inl st' => enqueue_loop (S index) rest st'
      | inr st' => st'
      end
  end.

Definition _enqueue_sequentially (specs : list TaskSpec) (q : Queue) : EnqueueLoop :=
  enqueue_loop 0 specs (mkEnqueueLoop [] [] [] [] q).

(** ** Waiting for a batch *)

(** [(task.get("result") or {})["file_path"]], as the report reads it. *)
Definition result_file_path (d : TaskDict) : option pystr :=
  match result_ d with
  | JObj m => match dict_get (u "file_path") m with Some (JStr p) => Some p | _ => None end
  | _ => None
  end.

Definition _task_result_from_finished (d : TaskDict) (resource_id task_id_ : string) : BatchTaskResult :=
  match status (row d) with
  | failed => mkTaskResult (u resource_id) task_id_ "failed" None
                (Some (text_or (error_message (row d)) (u "task failed"))) (Some (row d)) false
  | cancelled => mkTaskResult (u resource_id) task_id_ "cancelled" None (Some (u "task cancelled")) (Some (row d)) false
  | _ => mkTaskResult (u resource_id) task_id_ "succeeded" (result_file_path d) None (Some (row d)) false
  end.

(** [_wait_one] *)
Definition wait_one (resource_id task_id_ : string) (r : result TaskDict) : BatchTaskResult :=
  match r with
  | Ok d => _task_result_from_finished d resource_id task_id_
  | Raise e =>
      mkTaskResult (u resource_id) task_id_ (if is_interrupted_wait_error e then "interrupted" else "failed")
        None (Some (exc_text e)) None false
  end.

(** [gather]: the answers in the order of the specs, once all are there. *)
Fixpoint gather (l : list (option BatchTaskResult)) : option (list BatchTaskResult) :=
  match l with
  | [] => Some []
  | None :: _ => None
  | Some r :: l' => (cons r) <$> gather l'
  end.

(** [wait] is [wait_for_task] on the polls of each task.  The successes,
    the failures and the queue after the enqueueing. *)
Definition batch_enqueue_and_wait (wait : string -> option (result TaskDict)) (specs : list TaskSpec) (q : Queue)
    : option (list BatchTaskResult * list BatchTaskResult * Queue) :=
  match specs with
  | [] => Some ([], [], q)
  | _ =>
      let st := _enqueue_sequentially specs q in
      let task_ids := foldl (fun m e => aset (en_resource_id e) (en_task_id e) m) [] (el_enqueued st) in
      let waits := omap (fun spec => (fun id => wait_one (spec_resource_id spec) id <$> wait id)
                                       <$> aget (spec_resource_id spec) task_ids) specs in
      (fun results =>
         let ok r := bool_decide (tr_status r = "succeeded") in
         (where_ ok results, where_ (fun r => negb (ok r)) results ++ el_failures st, el_queue st)) <$> gather waits
  end.
End enqueue.

(** [batch_enqueue_only] stops at the first failure. *)
Definition batch_enqueue_only migration_ok storage_ok derive testing exc_text project user env clock uuid
    (specs : list TaskSpec) (q : Queue) : list EnqueuedTask * list BatchTaskResult * Queue :=
  let st := _enqueue_sequentially migration_ok storage_ok derive testing exc_text project user true env clock uuid specs q in
  (el_enqueued st, el_failures st, el_queue st).

(** ** Lemmas *)

(** *** Waiting *)

(** What an answer of the loop says about the polls it made, [n] being the
    last: an answer is a terminal row; a timeout or an offline worker is
    only reported for a task that had not ended at that poll. *)
Definition wait_verdict (timeout : option Z) (grace start : Z) (polls : nat -> Poll) (n : nat) (r : result TaskDict)
    : Prop :=
  match r with
  | Ok d => poll_task (polls n) = Some d /\ is_terminal (status (row d)) = true
  | Raise RuntimeError => poll_task (polls n) = None
  | Raise TaskWaitTimeoutError =>
      exists d t, poll_task (polls n) = Some d /\ is_terminal (status (row d)) = false
        /\ timeout = Some t /\ (t <= poll_now (polls n) - start)%Z
  | Raise WorkerOfflineError =>
      exists d m, poll_task (polls n) = Some d /\ is_terminal (status (row d)) = false
        /\ m < n /\ (grace <= poll_now (polls n) - poll_now (polls m))%Z
        /\ forall k, m <= k <= n -> poll_online (polls k) = false
  | Raise _ => False
  end.

(** The offline mark: the worker has been offline since that poll. *)
Definition offline_mark (polls : nat -> Poll) (n : nat) (since : option Z) : Prop :=
  match since with
  | None => True
  | Some z => exists m, m < n /\ z = poll_now (polls m) /\ forall k, m <= k < n -> poll_online (polls k) = false
  end.

Lemma wait_round_spec timeout grace start polls n since :
  offline_mark polls n since ->
  match wait_round timeout grace start (polls n) since with
  | inl r => wait_verdict timeout grace start polls n r
  | inr since' =>
      offline_mark polls (S n) since'
      /\ (exists d, poll_task (polls n) = Some d /\ is_terminal (status (row d)) = false)
      /\ forall t, timeout = Some t -> (poll_now (polls n) - start < t)%Z
  end.
Proof.
  intros Hm. unfold wait_round. destruct (poll_task (polls n)) as [d|] eqn:Ed; [|done].
  destruct (is_terminal (status (row d))) eqn:Et; [done|].
  destruct (match timeout with Some t => (t <=? poll_now (polls n) - start)%Z | None => false end) eqn:Eto.
  { destruct timeout as [t|]; [|done]. exists d, t. split_and!; [done|done|done|]. lia. }
  assert (forall t, timeout = Some t -> (poll_now (polls n) - start < t)%Z) as Ht.
  { intros t ->. lia. }
  destruct (poll_online (polls n)) eqn:Eo; [split; [done|]; eauto|].
  destruct since as [z|].
  - destruct Hm as (m & Hmn & -> & Hoff).
    assert (forall k, m <= k <= n -> poll_online (polls k) = false) as Hoff'.
    { intros k Hk. destruct (decide (k = n)) as [->|]; [done|]. apply Hoff. lia. }
    destruct (Z.leb_spec grace (poll_now (polls n) - poll_now (polls m))).
    + exists d, m. by split_and!.
    + split; [|eauto]. exists m. split; [lia|]. split; [done|]. intros k Hk. apply Hoff'. lia.
  - split; [|eauto]. exists n. split; [lia|]. split; [done|]. intros k Hk. by replace k with n by lia.
Qed.

Lemma wait_loop_spec fuel timeout grace start polls n since r :
  offline_mark polls n since -> wait_loop fuel timeout grace start polls n since = Some r ->
  exists m, n <= m < n + fuel /\ wait_verdict timeout grace start polls m r
    /\ forall k, n <= k < m -> exists d, poll_task (polls k) = Some d /\ is_terminal (status (row d)) = false.
Proof.
  revert n since. induction fuel as [|f IH]; intros n since Hm; cbn [wait_loop]; [done|].
  pose proof (wait_round_spec timeout grace start polls n since Hm) as Hr.
  destruct (wait_round timeout grace start (polls n) since) as [r'|since'].
  - intros [= ->]. exists n. split; [lia|]. split; [done|]. lia.
  - destruct Hr as (Hm' & Hd & _). intros H. apply (IH _ _ Hm') in H as (m & Hmn & Hv & Hk).
    exists m. split; [lia|]. split; [done|]. intros k Hkm. destruct (decide (k = n)) as [->|]; [done|]. apply Hk. lia.
Qed.

(** With a timeout, enough rounds always give an answer. *)
Lemma wait_loop_total fuel timeout grace start polls n since step :
  (0 < step)%Z -> (forall k, start + Z.of_nat k * step <= poll_now (polls k))%Z ->
  (timeout <= Z.of_nat (n + fuel - 1) * step)%Z -> 0 < fuel -> offline_mark polls n since ->
  exists r, wait_loop fuel (Some timeout) grace start polls n since = Some r.
Proof.
  intros Hs Hclock. revert n since. induction fuel as [|f IH]; intros n since Hf Hpos Hm; [lia|]. cbn [wait_loop].
  pose proof (wait_round_spec (Some timeout) grace start polls n since Hm) as Hr.
  destruct (wait_round _ grace start (polls n) since) as [r'|since']; [by exists r'|].
  destruct Hr as (Hm' & _ & Ht). specialize (Ht _ eq_refl). specialize (Hclock n).
  assert (0 < f) by (destruct f; [replace (n + 1 - 1) with n in Hf by lia; lia|lia]).
  apply IH; [|done|done]. replace (S n + f - 1) with (n + S f - 1) by lia. done.
Qed.

(** *** Reporting *)

Lemma record_all {A} (item : A -> GenerationItemResult) l b :
  (forall x, x ∈ l -> _problem_matches_state (item x) = true) -> NoDup (map (fun x => it_unit_id (item x)) l) ->
  (forall x, x ∈ l -> it_unit_id (item x) ∉ b_seen b) ->
  exists b', each (fun x => _record (item x)) l b = Ok b' /\ b_items b' = b_items b ++ map item l
    /\ forall y, y ∈ b_seen b' <-> y ∈ b_seen b \/ y ∈ map (fun x => it_unit_id (item x)) l.
Proof.
  revert b. induction l as [|x l IH]; intros b Hp Hnd Hs; simpl.
  { exists b. rewrite app_nil_r. split; [done|]. split; [done|]. set_solver. }
  apply NoDup_cons in Hnd as [Hx Hnd]. unfold _record at 1. rewrite (Hp x) by left. cbn [negb].
  rewrite bool_decide_eq_false_2 by (apply Hs; left). cbn [bind].
  destruct (IH (mkBuilder (b_operation b) (b_selection b) (b_items b ++ [item x]) (b_skipped b)
                 (it_unit_id (item x) :: b_seen b))) as (b' & H1 & H2 & H3).
  - intros y Hy. apply Hp. by right.
  - done.
  - intros y Hy. cbn [b_seen]. intros [Heq|Hin]%elem_of_cons; [|by apply (Hs y); [right|]].
    apply Hx. rewrite <- Heq. apply list_elem_of_In, (in_map (fun x => it_unit_id (item x))), list_elem_of_In, Hy.
  - exists b'. split; [done|]. split; [rewrite H2; cbn [b_items]; by rewrite <- app_assoc|].
    intros y. rewrite H3. cbn [b_seen]. set_solver.
Qed.

Section report.
Context {K : Type} (encode : K -> pystr) (states : list (pystr * GenerationTargetState K)) (compare : option (resolver K))
        (fallback_path : pystr -> option pystr).

(** The items a batch is reported with. *)
Definition success_item (br : BatchTaskResult) : GenerationItemResult :=
  let key := c_artifact_key (candidate (state_of states (tr_resource_id br))) in
  let rel := match tr_file_path br with Some (c :: p) => Some (c :: p) | _ => fallback_path (tr_resource_id br) end in
  mkItem (tr_resource_id br) GenerationItemState.SUCCEEDED (encode <$> key) rel (Some (tr_task_id br))
    (if truthy (Some (tr_task_id br)) then GenerationTaskState.SUCCEEDED else GenerationTaskState.NOT_QUEUED)
    (match compare with Some f => (observe_artifact_status f key rel).1 | None => None end)
    (provider_checkpoint_from_task (tr_task br)) None.

Definition failure_item (br : BatchTaskResult) : GenerationItemResult :=
  let s := state_of states (tr_resource_id br) in
  mkItem (tr_resource_id br) GenerationItemState.FAILED (encode <$> c_artifact_key (candidate s))
    (c_artifact_path (candidate s)) (if bool_decide (tr_task_id br = "") then None else Some (tr_task_id br))
    (failure_of br).1 (ts_status s) (provider_checkpoint_from_task (tr_task br)) (Some (failure_of br).2).

Lemma outcomes_recorded succs fails op mode :
  NoDup (map tr_resource_id (succs ++ fails)) ->
  exists b, record_batch_outcomes encode states compare id fallback_path succs fails (new_builder op mode) = Ok b
    /\ b_items b = map success_item succs ++ map failure_item fails.
Proof.
  rewrite map_app. intros (Hn1 & Hdis & Hn2)%NoDup_app. unfold record_batch_outcomes.
  destruct (record_all success_item succs (new_builder op mode)) as (b1 & H1 & H2 & H3).
  - done.
  - exact Hn1.
  - intros x _. apply not_elem_of_nil.
  - change (each (record_success encode states compare id fallback_path) succs (new_builder op mode) = Ok b1) in H1.
    rewrite H1. cbn [bind]. destruct (record_all failure_item fails b1) as (b & H4 & H5 & _).
    + done.
    + exact Hn2.
    + intros x Hx. rewrite H3. intros [Hin%not_elem_of_nil|Hin]; [done|]. apply (Hdis (tr_resource_id x) Hin).
      apply list_elem_of_In, in_map, list_elem_of_In, Hx.
    + exists b. rewrite H5, H2. split; [|done]. rewrite <- H4. apply each_ext. intros x c _. unfold record_failure.
      by destruct (failure_of x) eqn:E; unfold failure_item; rewrite E.
Qed.
End report.

(** *** The enqueue loop *)

(** Other sessions only use the repository. *)
Definition repo_env (env : nat -> Queue -> Queue) : Prop :=
  forall n q, exists ev, rtc repo_step (mkSession (qdb q) []) (mkSession (qdb (env n q)) ev).

(** A row keeps its identity whatever the repository does. *)
Lemma env_keeps env n q id t :
  repo_env env -> find_task id (tasks (qdb q)) = Some t ->
  exists t', find_task id (tasks (qdb (env n q))) = Some t' /\ identity t' = identity t.
Proof.
  intros He Ht. destruct (He n q) as (ev & Hs).
  destruct (repo_steps_find _ _ id t Hs Ht) as (t' & Ht' & Hi & _). by exists t'.
Qed.

Section loop.
Context (migration_ok : string -> result unit) (storage_ok : result unit)
        (derive : option json -> option string) (testing : bool) (exc_text : exc -> pystr) (project user : string).
Context (stop : bool) (env : nat -> Queue -> Queue) (clock : nat -> Z) (uuid : nat -> string).
Abbreviation step := (enqueue_one migration_ok storage_ok derive testing exc_text project user stop env clock uuid).
Abbreviation loop := (enqueue_loop migration_ok storage_ok derive testing exc_text project user stop env clock uuid).
Abbreviation only := (enqueue_task_only migration_ok storage_ok derive testing project user).

Lemma enqueue_task_only_row lease now id0 spec dep q id st dd q' :
  only lease now id0 spec dep q = Ok ((id, st, dd), q') ->
  (forall x t, find_task x (tasks (qdb q)) = Some t -> find_task x (tasks (qdb q')) = Some t)
  /\ (dd = false -> exists t, find_task id (tasks (qdb q')) = Some t /\ dependency_task_id t = dep).
Proof.
  unfold enqueue_task_only. destruct (negb _); [done|]. unfold enqueue_task.
  intros (x1 & _ & (x2 & _ & (x3 & _ & (out & Hout & H)%bind_Ok)%bind_Ok)%bind_Ok)%bind_Ok.
  destruct out as [r q1].
  assert (q1 = q' /\ id = r_task_id r /\ dd = r_deduped r) as (<- & -> & ->).
  { revert H. destruct (_narration_request_facts _ _); [destruct (_ && _); [done|]|]; by intros [= -> _ -> ->]. }
  clear H. unfold _task_repo_result in Hout. apply bind_Ok in Hout as ([r' s'] & He & [= -> <-]).
  cbn [_task_repo qdb db]. revert He. unfold enqueue.
  intros (pid & _ & (actor & _ & H)%bind_Ok)%bind_Ok. revert H. cbv zeta. set (t := new_task _ _ _ _ _ _).
  destruct (violates_integrity _ t) eqn:Ev.
  - case_match; [done|]. intros [= <- <-]. split; [done|]. done.
  - intros [= <- <-]. split.
    + intros x t0 Hx. change (find_task x (tasks (qdb q) ++ [t]) = Some t0). by rewrite find_task_app, Hx.
    + intros _. exists t. split; [|done]. apply violates_fresh in Ev.
      change (find_task (task_id t) (tasks (qdb q) ++ [t]) = Some t). rewrite find_task_app.
      rewrite (proj2 (find_task_None _ _)) by exact Ev. simpl. unfold by_id. by rewrite bool_decide_eq_true_2.
Qed.
(** How one member leaves the loop's variables. *)
Lemma step_cases index spec rest st :
  let rid := spec_resource_id spec in
  match step index spec rest st with
  | inl st' =>
      (exists f, st' = mkEnqueueLoop (el_enqueued st) (el_task_ids st) (el_failures st ++ [f]) (rid :: el_failed st)
                         (el_queue st')
         /\ tr_resource_id f = u rid /\ tr_task_id f = "" /\ tr_status f = "failed" /\ tr_task f = None
         /\ (el_queue st' = el_queue st \/ el_queue st' = env index (el_queue st)))
      \/ (exists e stt, st' = mkEnqueueLoop (el_enqueued st ++ [e]) (aset rid (en_task_id e) (el_task_ids st))
                               (el_failures st) (el_failed st) (el_queue st')
         /\ en_resource_id e = rid /\ (forall r, dependency_of spec = Some r -> r ∉ el_failed st)
         /\ only "default" (clock index) (uuid index) spec (dependency_of spec ≫= fun r => aget r (el_task_ids st))
               (env index (el_queue st)) = Ok ((en_task_id e, stt, en_deduped e), el_queue st'))
  | inr st' =>
      stop = true
      /\ exists fs, st' = mkEnqueueLoop (el_enqueued st) (el_task_ids st) (el_failures st ++ fs) (rid :: el_failed st)
                            (env index (el_queue st))
         /\ map tr_resource_id fs = map (u ∘ spec_resource_id) (spec :: rest)
         /\ Forall (fun f => tr_task_id f = "" /\ tr_status f = "failed" /\ tr_task f = None) fs
  end.
Proof.
  cbv zeta. unfold enqueue_one. cbv zeta.
  destruct (where_ _ (option_list (dependency_of spec))) as [|r l] eqn:Ew.
  - assert (forall r, dependency_of spec = Some r -> r ∉ el_failed st) as Hd.
    { intros r Hr Hin. rewrite Hr in Ew. simpl in Ew. by rewrite bool_decide_eq_true_2 in Ew. }
    destruct (only _ _ _ _ _ _) as [[[[id stt] dd] q']|e] eqn:Eo.
    + right. exists (mkEnqueued (spec_resource_id spec) id dd), stt. done.
    + destruct stop.
      * split; [done|]. eexists (_ :: map _ rest). rewrite <- app_assoc. split; [reflexivity|]. split.
        -- cbn [map]. rewrite map_map. done.
        -- constructor; [done|]. apply Forall_forall. intros f Hf.
           apply list_elem_of_In, in_map_iff in Hf as (x & <- & _). done.
      * left. eexists. split; [reflexivity|]. do 4 (split; [done|]). by right.
  - left. eexists. split; [reflexivity|]. do 4 (split; [done|]). by left.
Qed.

(** Every member is queued or reported as not queued, once. *)
Lemma loop_accounts index specs st :
  map (u ∘ en_resource_id) (el_enqueued (loop index specs st)) ++ map tr_resource_id (el_failures (loop index specs st))
    ≡ₚ (map (u ∘ en_resource_id) (el_enqueued st) ++ map tr_resource_id (el_failures st))
         ++ map (u ∘ spec_resource_id) specs.
Proof.
  revert index st. induction specs as [|spec specs IH]; intros index st; cbn [enqueue_loop].
  { by rewrite app_nil_r. }
  pose proof (step_cases index spec specs st) as Hs. cbv zeta in Hs.
  destruct (step index spec specs st) as [st'|st'].
  - rewrite IH. destruct Hs as [(f & -> & Hf & _)|(e & stt & -> & He & _)]; cbn [el_enqueued el_failures].
    + rewrite map_app. cbn [map]. rewrite Hf. rewrite <- !app_assoc. reflexivity.
    + rewrite map_app. cbn [map]. unfold compose at 2. rewrite He. rewrite <- !app_assoc. f_equiv.
      apply (Permutation_middle (map tr_resource_id (el_failures st))).
  - destruct Hs as (_ & fs & -> & Hf & _). cbn [el_enqueued el_failures]. rewrite map_app, Hf. by rewrite <- app_assoc.
Qed.

Lemma loop_failures index specs st :
  Forall (fun f => tr_task_id f = "" /\ tr_status f = "failed" /\ tr_task f = None) (el_failures st) ->
  Forall (fun f => tr_task_id f = "" /\ tr_status f = "failed" /\ tr_task f = None)
    (el_failures (loop index specs st)).
Proof.
  revert index st. induction specs as [|spec specs IH]; intros index st H; cbn [enqueue_loop]; [done|].
  pose proof (step_cases index spec specs st) as Hs. cbv zeta in Hs.
  destruct (step index spec specs st) as [st'|st'].
  - apply IH. destruct Hs as [(f & -> & Hf & H1 & H2 & H3 & _)|(e & stt & -> & He & _)]; cbn [el_failures]; [|done].
    apply Forall_app. split; [done|]. by constructor.
  - destruct Hs as (_ & fs & -> & Hf & H1). cbn [el_failures]. by apply Forall_app.
Qed.

(** *** Dependencies *)

(** The member [s] after [pre]: a dependency among [pre] was queued, and a
    row this call created waits for exactly that task. *)
Definition queued_after (pre : list TaskSpec) (s : TaskSpec) (st : EnqueueLoop) (e : EnqueuedTask) : Prop :=
  let row_waits dep := en_deduped e = false ->
    exists t, find_task (en_task_id e) (tasks (qdb (el_queue st))) = Some t /\ dependency_task_id t = dep in
  match dependency_of s with
  | Some r =>
      if bool_decide (r ∈ map spec_resource_id pre)
      then exists e', e' ∈ el_enqueued st /\ en_resource_id e' = r /\ row_waits (Some (en_task_id e'))
      else row_waits None
  | None => row_waits None
  end.

Record dep_inv (done : list TaskSpec) (st : EnqueueLoop) : Prop := {
  di_ids : forall r id, aget r (el_task_ids st) = Some id ->
    r ∈ map spec_resource_id done /\ exists e, e ∈ el_enqueued st /\ en_resource_id e = r /\ en_task_id e = id;
  di_all : forall r, r ∈ map spec_resource_id done -> r ∈ el_failed st \/ is_Some (aget r (el_task_ids st));
  di_rows : forall e, e ∈ el_enqueued st -> exists pre s post, done = pre ++ s :: post
    /\ en_resource_id e = spec_resource_id s /\ queued_after pre s st e
}.

Lemma queued_after_mono pre s st st' e :
  (forall x, x ∈ el_enqueued st -> x ∈ el_enqueued st') ->
  (forall x t, find_task x (tasks (qdb (el_queue st))) = Some t ->
     exists t', find_task x (tasks (qdb (el_queue st'))) = Some t' /\ identity t' = identity t) ->
  queued_after pre s st e -> queued_after pre s st' e.
Proof.
  intros Hin Hrow. unfold queued_after.
  assert (forall dep, (en_deduped e = false ->
      exists t, find_task (en_task_id e) (tasks (qdb (el_queue st))) = Some t /\ dependency_task_id t = dep) ->
    en_deduped e = false ->
      exists t, find_task (en_task_id e) (tasks (qdb (el_queue st'))) = Some t /\ dependency_task_id t = dep) as Hw.
  { intros dep H Hd. destruct (H Hd) as (t & Ht & <-). destruct (Hrow _ _ Ht) as (t' & Ht' & Hi).
    exists t'. split; [done|]. unfold identity in Hi. congruence. }
  destruct (dependency_of s) as [r|]; [|apply Hw]. case_bool_decide; [|apply Hw].
  intros (e' & H1 & H2 & H3). exists e'. auto.
Qed.
Lemma dep_inv_keep done st st' spec :
  dep_inv done st -> el_enqueued st' = el_enqueued st -> el_task_ids st' = el_task_ids st ->
  el_failed st' = spec_resource_id spec :: el_failed st ->
  (forall x t, find_task x (tasks (qdb (el_queue st))) = Some t ->
     exists t', find_task x (tasks (qdb (el_queue st'))) = Some t' /\ identity t' = identity t) ->
  dep_inv (done ++ [spec]) st'.
Proof.
  intros [H1 H2 H3] He Hi Hf Hrow. split.
  - intros r id. rewrite Hi, He, map_app. intros (Hr & H)%H1. split; [|done]. apply elem_of_app. by left.
  - intros r. rewrite Hi, Hf, map_app. intros [Hr|Hr]%elem_of_app.
    + destruct (H2 _ Hr); [left; by right|by right].
    + apply list_elem_of_singleton in Hr as ->. left. left.
  - rewrite He. intros e Hin. destruct (H3 _ Hin) as (pre & s & post & -> & Hs & Hq).
    exists pre, s, (post ++ [spec]). rewrite <- app_assoc. split; [done|]. split; [done|].
    eapply queued_after_mono; [|exact Hrow|exact Hq]. by rewrite He.
Qed.

Lemma dep_inv_add index done st st' spec e stt :
  repo_env env -> dep_inv done st -> en_resource_id e = spec_resource_id spec ->
  el_enqueued st' = el_enqueued st ++ [e] ->
  el_task_ids st' = aset (spec_resource_id spec) (en_task_id e) (el_task_ids st) -> el_failed st' = el_failed st ->
  (forall r, dependency_of spec = Some r -> r ∉ el_failed st) ->
  only "default" (clock index) (uuid index) spec (dependency_of spec ≫= fun r => aget r (el_task_ids st))
    (env index (el_queue st)) = Ok ((en_task_id e, stt, en_deduped e), el_queue st') ->
  dep_inv (done ++ [spec]) st'.
Proof.
  intros Henv [H1 H2 H3] Hid He Hi Hf Hd Ho.
  apply enqueue_task_only_row in Ho as [Hkeep Hrow].
  assert (forall x, x ∈ el_enqueued st -> x ∈ el_enqueued st') as Hmono.
  { intros x Hx. rewrite He. apply elem_of_app. by left. }
  split.
  - intros r id. rewrite Hi, aget_aset, map_app. case_bool_decide as E.
    + intros [= <-]. subst r. split; [set_solver|]. exists e. rewrite He. set_solver.
    + intros (Hr & x & Hx & H)%H1. split; [set_solver|]. exists x. auto.
  - intros r. rewrite Hi, Hf, aget_aset, map_app. intros [Hr|Hr]%elem_of_app.
    + destruct (H2 _ Hr); [by left|right]. by case_bool_decide.
    + apply list_elem_of_singleton in Hr as ->. right. by rewrite bool_decide_eq_true_2.
  - rewrite He. intros x [Hx|Hx]%elem_of_app.
    + destruct (H3 _ Hx) as (pre & s & post & -> & Hs & Hq).
      exists pre, s, (post ++ [spec]). rewrite <- app_assoc. split; [done|]. split; [done|].
      eapply queued_after_mono; [exact Hmono| |exact Hq]. intros y t Hy.
      destruct (env_keeps env index _ y t Henv Hy) as (t' & Ht' & Hi'). exists t'. auto.
    + apply list_elem_of_singleton in Hx as ->. exists done, spec, []. split; [done|]. split; [done|].
      unfold queued_after. destruct (dependency_of spec) as [r|]; [|exact Hrow]. cbn [mbind option_bind] in Hrow.
      case_bool_decide as E.
      * destruct (H2 _ E) as [Hbad|[id' Hg]]; [by apply (Hd r) in Hbad|].
        destruct (H1 _ _ Hg) as (_ & e' & He' & Hr' & <-). exists e'. rewrite Hg in Hrow. auto.
      * destruct (aget r (el_task_ids st)) as [id'|] eqn:Hg; [|exact Hrow].
        exfalso. apply E. by apply H1 in Hg as [Hg _].
Qed.

Lemma loop_dep_inv index done specs st :
  repo_env env -> dep_inv done st ->
  exists done' rest, done ++ specs = done' ++ rest /\ dep_inv done' (loop index specs st).
Proof.
  intros Henv. revert index done st. induction specs as [|spec specs IH]; intros index done st Hinv; cbn [enqueue_loop].
  { exists done, []. done. }
  pose proof (step_cases index spec specs st) as Hs. cbv zeta in Hs.
  destruct (step index spec specs st) as [st'|st'].
  - assert (dep_inv (done ++ [spec]) st') as Hinv'.
    { destruct Hs as [(f & Est & _ & _ & _ & _ & Hq)|(e & stt & Est & He & Hd & Ho)].
      - apply (dep_inv_keep _ st); [done|by rewrite Est..|]. intros x t Ht.
        destruct Hq as [->| ->]; [by exists t|by apply env_keeps].
      - apply (dep_inv_add index done st st' spec e stt); [done|done|done|by rewrite Est|by rewrite Est|by rewrite Est|done|done]. }
    destruct (IH (S index) _ _ Hinv') as (done' & rest & Heq & H). exists done', rest.
    split; [|done]. by rewrite <- Heq, <- app_assoc.
  - destruct Hs as (_ & fs & -> & _). exists (done ++ [spec]), specs. rewrite <- app_assoc. split; [done|].
    apply (dep_inv_keep _ st); [done..|]. intros x t Ht. cbn [el_queue]. by apply env_keeps.
Qed.
End loop.

(** *** Collecting the answers *)

Lemma wait_one_id exc_text rid id r :
  tr_resource_id (wait_one exc_text rid id r) = u rid /\ tr_task_id (wait_one exc_text rid id r) = id.
Proof. destruct r as [d|e]; simpl; [|done]. unfold _task_result_from_finished. by destruct (status (row d)). Qed.

Lemma gather_waits exc_text (ids : list (string * string)) (wait : string -> option (result TaskDict)) specs :
  (forall id, is_Some (wait id)) ->
  exists results,
    gather (omap (fun spec => (fun id => wait_one exc_text (spec_resource_id spec) id <$> wait id)
                                <$> aget (spec_resource_id spec) ids) specs) = Some results
    /\ map tr_resource_id results
         = map (u ∘ spec_resource_id) (where_ (fun s => bool_decide (spec_resource_id s ∈ ids.*1)) specs)
    /\ Forall (fun br => exists rid r, wait (tr_task_id br) = Some r /\ br = wait_one exc_text rid (tr_task_id br) r) results.
Proof.
  intros Hw. induction specs as [|s specs (results & IH1 & IH2 & IH3)]; [by exists []|].
  cbn [where_ omap list_omap]. destruct (aget (spec_resource_id s) ids) as [id|] eqn:Hg.
  - destruct (Hw id) as [r Hr]. cbn [fmap option_fmap option_map]. rewrite Hr. cbn [fmap option_fmap option_map gather].
    exists (wait_one exc_text (spec_resource_id s) id r :: results).
    rewrite IH1. split; [done|]. destruct (wait_one_id exc_text (spec_resource_id s) id r) as [H1 H2].
    assert (spec_resource_id s ∈ ids.*1) as Hin.
    { apply list_elem_of_fmap. exists (spec_resource_id s, id). split; [done|]. by apply aget_Some_elem. }
    unfold where_. cbn [List.filter]. rewrite bool_decide_eq_true_2 by done. cbn [map]. split; [by rewrite H1, IH2|].
    constructor; [|done]. exists (spec_resource_id s), r. by rewrite H2.
  - apply aget_None in Hg. exists results. unfold where_. cbn [List.filter]. by rewrite bool_decide_eq_false_2.
Qed.

Lemma collected_ids enqueued (m : list (string * string)) :
  forall x, x ∈ (foldl (fun m e => aset (en_resource_id e) (en_task_id e) m) m enqueued).*1
    <-> x ∈ m.*1 \/ x ∈ map en_resource_id enqueued.
Proof.
  revert m. induction enqueued as [|e l IH]; intros m x; simpl; [set_solver|].
  rewrite IH, aset_keys. case_bool_decide; set_solver.
Qed.

Lemma results_split {A} (f : A -> pystr) (p : A -> bool) l :
  map f (where_ p l) ++ map f (where_ (fun x => negb (p x)) l) ≡ₚ map f l.
Proof.
  induction l as [|x l IH]; [done|]. unfold where_ in *. simpl. destruct (p x); simpl; rewrite <- IH; [done|].
  by rewrite <- Permutation_middle.
Qed.

Lemma NoDup_u specs : NoDup (map spec_resource_id specs) -> NoDup (map (u ∘ spec_resource_id) specs).
Proof.
  intros H. assert (Inj (=) (=) u) by (intros a b; apply u_inj). apply (NoDup_fmap_2 u) in H.
  by rewrite <- (map_map spec_resource_id u).
Qed.

Section batch.
Context (migration_ok : string -> result unit) (storage_ok : result unit)
        (derive : option json -> option string) (testing : bool) (exc_text : exc -> pystr) (project user : string).
Context (stop : bool) (env : nat -> Queue -> Queue) (clock : nat -> Z) (uuid : nat -> string).
Abbreviation sequential := (_enqueue_sequentially migration_ok storage_ok derive testing exc_text project user stop env clock uuid).
Abbreviation batch := (batch_enqueue_and_wait migration_ok storage_ok derive testing exc_text project user stop env clock uuid).

Lemma sequential_accounts specs q :
  map (u ∘ en_resource_id) (el_enqueued (sequential specs q)) ++ map tr_resource_id (el_failures (sequential specs q))
    ≡ₚ map (u ∘ spec_resource_id) specs.
Proof. exact (loop_accounts migration_ok storage_ok derive testing exc_text project user stop env clock uuid 0 specs _). Qed.

(** The members waited for are the members queued. *)
Lemma waited_queued specs q :
  NoDup (map spec_resource_id specs) ->
  let ids := foldl (fun m e => aset (en_resource_id e) (en_task_id e) m) [] (el_enqueued (sequential specs q)) in
  map (u ∘ spec_resource_id) (where_ (fun s => bool_decide (spec_resource_id s ∈ ids.*1)) specs)
    ≡ₚ map (u ∘ en_resource_id) (el_enqueued (sequential specs q)).
Proof.
  intros Hnd ids. pose proof (sequential_accounts specs q) as Hacc.
  assert (NoDup (map (u ∘ spec_resource_id) specs)) as Hnu.
  { by apply NoDup_u. }
  apply NoDup_Permutation.
  - by apply where_NoDup.
  - rewrite <- Hacc in Hnu. by apply NoDup_app in Hnu as [Hn _].
  - intros x. rewrite !list_elem_of_In, !in_map_iff. split.
    + intros (s & <- & Hs%list_elem_of_In). apply elem_of_where in Hs as [_ Hs%bool_decide_eq_true].
      apply collected_ids in Hs as [Hs%not_elem_of_nil|Hs]; [done|].
      apply list_elem_of_In, in_map_iff in Hs as (e & He & Hin). exists e. unfold compose. by rewrite He.
    + intros (e & <- & Hin). assert ((u ∘ en_resource_id) e ∈ map (u ∘ spec_resource_id) specs) as Hx.
      { rewrite <- Hacc. apply elem_of_app. left. apply list_elem_of_In, in_map, Hin. }
      apply list_elem_of_In, in_map_iff in Hx as (s & Hs & Hin'). exists s. split; [done|].
      apply list_elem_of_In, elem_of_where. split; [by apply list_elem_of_In|]. apply bool_decide_eq_true_2, collected_ids.
      right. apply u_inj in Hs. rewrite Hs. apply list_elem_of_In, in_map, Hin.
Qed.

(** What a report says about the wait it comes from. *)
Definition reported_as (wait : string -> option (result TaskDict)) (br : BatchTaskResult) : Prop :=
  match wait (tr_task_id br) with
  | Some (Ok d) => tr_task br = Some (row d) /\ tr_status br
      = match status (row d) with failed => "failed" | cancelled => "cancelled" | _ => "succeeded" end
  | Some (Raise e) => tr_task br = None
      /\ tr_status br = (if is_interrupted_wait_error e then "interrupted" else "failed")
  | None => False
  end.

Lemma wait_one_reported wait rid id r :
  wait id = Some r -> reported_as wait (wait_one exc_text rid id r).
Proof.
  unfold reported_as. destruct (wait_one_id exc_text rid id r) as [_ ->]. intros ->. destruct r as [d|e]; [|done].
  simpl. unfold _task_result_from_finished. by destruct (status (row d)).
Qed.

(** Every target of a batch is accounted for exactly once whatever fails:
    when the waits end, [batch_enqueue_and_wait] returns reports whose ids are
    the ids of the batch; a report of a queued task says what its wait said,
    and the successes are exactly the reports of rows that ended neither
    failed nor cancelled; a target that never reached the queue carries no
    task id; a wait cut short is reported so that the next step is to wait,
    never to submit again; and the outcomes fold into the result builder
    without an error, one item per target. *)
Theorem batch_reported wait specs q :
  NoDup (map spec_resource_id specs) -> (forall id, is_Some (wait id)) ->
  exists succ fail q', batch wait specs q = Some (succ, fail, q')
    /\ map tr_resource_id (succ ++ fail) ≡ₚ map (u ∘ spec_resource_id) specs
    /\ (forall br, br ∈ succ -> reported_as wait br /\ tr_status br = "succeeded")
    /\ (forall br, br ∈ fail -> tr_status br <> "succeeded"
          /\ (reported_as wait br \/ (tr_task_id br = "" /\ tr_task br = None))
          /\ (tr_task_id br <> "" -> tr_status br = "interrupted" ->
                p_action (failure_of br).2 = GenerationAction.WAIT_FOR_TASK))
    /\ forall (K : Type) (encode : K -> pystr) states compare fallback op mode,
         exists b, record_batch_outcomes encode states compare id fallback succ fail (new_builder op mode) = Ok b
           /\ map it_unit_id (b_items b) ≡ₚ map (u ∘ spec_resource_id) specs.
Proof.
  intros Hnd Hw. destruct specs as [|s0 specs0].
  { exists [], [], q. split; [done|]. split; [done|]. split; [by intros br ?%not_elem_of_nil|].
    split; [by intros br ?%not_elem_of_nil|]. intros. by exists (new_builder op mode). }
  set (specs := s0 :: specs0) in *. set (st := sequential specs q).
  destruct (gather_waits exc_text (foldl (fun m e => aset (en_resource_id e) (en_task_id e) m) [] (el_enqueued st))
              wait specs Hw) as (results & Hg & Hids & Hrep).
  set (ok := fun r => bool_decide (tr_status r = "succeeded")).
  exists (where_ ok results), (where_ (fun r => negb (ok r)) results ++ el_failures st), (el_queue st).
  split.
  { change (batch wait specs q) with
      ((fun results => (where_ ok results, where_ (fun r => negb (ok r)) results ++ el_failures st, el_queue st))
       <$> gather (omap (fun spec => (fun id => wait_one exc_text (spec_resource_id spec) id <$> wait id)
             <$> aget (spec_resource_id spec)
                   (foldl (fun m e => aset (en_resource_id e) (en_task_id e) m) [] (el_enqueued st))) specs)).
    by rewrite Hg. }
  assert (map tr_resource_id (where_ ok results ++ where_ (fun r => negb (ok r)) results ++ el_failures st)
            ≡ₚ map (u ∘ spec_resource_id) specs) as Hacc.
  { rewrite app_assoc, map_app, (map_app _ (where_ ok results)), results_split, Hids.
    etransitivity; [apply Permutation_app_tail, (waited_queued specs q Hnd)|apply sequential_accounts]. }
  assert (forall br, br ∈ results -> reported_as wait br) as Hra.
  { intros br Hin. rewrite Forall_forall in Hrep. destruct (Hrep _ Hin) as (rid & r & Hr & Hbr).
    pose proof (wait_one_reported wait rid _ r Hr) as H. by rewrite <- Hbr in H. }
  split; [exact Hacc|]. split; [|split].
  - intros br [Hin Hs]%elem_of_where. split; [by apply Hra|]. unfold ok in Hs. by to_prop.
  - intros br [Hin|Hin]%elem_of_app.
    + apply elem_of_where in Hin as [Hin Hs]. unfold ok in Hs. to_prop. split; [done|]. split; [left; by apply Hra|].
      intros Hid Hint. unfold failure_of. rewrite bool_decide_eq_false_2 by done. cbn [snd]. by rewrite Hint.
    + pose proof (loop_failures migration_ok storage_ok derive testing exc_text project user stop env clock uuid 0 specs
                    (mkEnqueueLoop [] [] [] [] q) (Forall_nil_2 _)) as Hf. rewrite Forall_forall in Hf.
      destruct (Hf _ Hin) as (H1 & H2 & H3). rewrite H2. split; [done|]. split; [by right|done].
  - intros K encode states compare fallback op mode.
    destruct (outcomes_recorded encode states compare fallback (where_ ok results)
                (where_ (fun r => negb (ok r)) results ++ el_failures st) op mode) as (b & Hb & Hitems).
    { rewrite Hacc. by apply NoDup_u. }
    exists b. split; [exact Hb|]. rewrite Hitems, <- Hacc, !map_app, !map_map. reflexivity.
Qed.

(** Dependencies of a batch: every task queued belongs to a member whose
    dependency, if it stands earlier in the batch, was queued too, and the
    row the call created waits for exactly that task, whatever other
    sessions do meanwhile; a member is never queued after its dependency
    failed to be. *)
Theorem batch_dependencies specs q :
  repo_env env ->
  forall e, e ∈ el_enqueued (sequential specs q) ->
  exists pre s post, specs = pre ++ s :: post /\ en_resource_id e = spec_resource_id s
    /\ queued_after pre s (sequential specs q) e.
Proof.
  intros Henv e He.
  destruct (loop_dep_inv migration_ok storage_ok derive testing exc_text project user stop env clock uuid 0 [] specs
              (mkEnqueueLoop [] [] [] [] q) Henv) as (done & rest & Heq & Hinv).
  { split; [done| |]; [by intros r Hr%not_elem_of_nil|by intros x Hx%not_elem_of_nil]. }
  destruct (di_rows _ _ Hinv e He) as (pre & s & post & -> & Hs & Hq). exists pre, s, (post ++ rest).
  split; [cbn [app] in Heq; by rewrite Heq, <- app_assoc|]. split; [done|]. exact Hq.
Qed.
End batch.

(** C17: Waiting ends: with the least time a round takes, a number of rounds
    that covers the timeout always gives an answer, and the answer is right:
    a row only if it is terminal, a timeout only after the full timeout, an
    offline worker only after it has been offline at every poll of the grace
    period, and no answer is given while an earlier poll could have ended. *)
Theorem wait_for_task_answers timeout_s grace_s start polls step T fuel :
  wait_timeout timeout_s = Some T -> (0 < step)%Z ->
  (forall k, start + Z.of_nat k * step <= poll_now (polls k))%Z ->
  (T <= Z.of_nat (fuel - 1) * step)%Z -> 0 < fuel ->
  exists n r, wait_for_task fuel timeout_s grace_s start polls = Some r /\ n < fuel
    /\ wait_verdict (Some T) (wait_grace grace_s) start polls n r
    /\ forall k, k < n -> exists d, poll_task (polls k) = Some d /\ is_terminal (status (row d)) = false.
Proof.
  intros HT Hs Hc Hf Hpos. unfold wait_for_task. rewrite HT.
  destruct (wait_loop_total fuel T (wait_grace grace_s) start polls 0 None step Hs Hc) as [r Hr]; [done..|].
  destruct (wait_loop_spec _ _ _ _ _ _ _ _ (I : offline_mark polls 0 None) Hr) as (n & Hn & Hv & Hk).
  exists n, r. split; [done|]. split; [lia|]. split; [done|]. intros k Hlt. apply Hk. lia.
Qed.

(** ** Witnesses *)

(** Three shots in a chain; the worker holds the lease. *)
Definition demo_spec (rid : string) (dep : option string) : TaskSpec :=
  mkSpec "storyboard" "image" rid None (Some "ep1.json") "agent" dep None None.
Definition demo_specs : list TaskSpec :=
  [demo_spec "A" None; demo_spec "B" (Some "A"); demo_spec "C" (Some "B")].
Definition demo_online : Queue :=
  mkQueue (db (acquire_or_renew_lease 0 "default" "w" 100 demo_fresh).2) [] true [].
Definition demo_uuid (n : nat) : string := nth n ["a"; "b"; "c"] "x".
(** The second wait times out, the rows of the others are gone. *)
Definition demo_wait (id : string) : option (result TaskDict) :=
  Some (if bool_decide (id = "b") then Raise TaskWaitTimeoutError else Raise RuntimeError).

Lemma batch_reported_witness :
  exists succ fail q',
    batch_enqueue_and_wait (fun _ => Ok tt) (Ok tt) (fun _ => None) false (fun _ => u "e") "demo" "alice" false
      (fun _ q => q) (fun n => Z.of_nat n) demo_uuid demo_wait demo_specs demo_online = Some (succ, fail, q')
    /\ map tr_resource_id (succ ++ fail) ≡ₚ [u "A"; u "B"; u "C"]
    /\ map tr_status fail = ["failed"; "interrupted"; "failed"].
Proof.
  destruct (batch_reported (fun _ => Ok tt) (Ok tt) (fun _ => None) false (fun _ => u "e") "demo" "alice" false
              (fun _ q => q) (fun n => Z.of_nat n) demo_uuid demo_wait demo_specs demo_online)
    as (succ & fail & q' & H & Hp & _).
  - apply (bool_decide_unpack _). vm_compute. exact I.
  - intros id. by eexists.
  - exists succ, fail, q'. split; [exact H|]. split; [exact Hp|]. vm_compute in H. injection H as <- <- _. reflexivity.
Defined.

Lemma batch_dependencies_witness :
  exists e e' t,
    let st := _enqueue_sequentially (fun _ => Ok tt) (Ok tt) (fun _ => None) false (fun _ => u "e") "demo" "alice" false
                (fun _ q => q) (fun n => Z.of_nat n) demo_uuid demo_specs demo_online in
    e ∈ el_enqueued st /\ en_resource_id e = "B" /\ e' ∈ el_enqueued st /\ en_resource_id e' = "A"
    /\ find_task (en_task_id e) (tasks (qdb (el_queue st))) = Some t
    /\ dependency_task_id t = Some (en_task_id e').
Proof.
  destruct (batch_dependencies (fun _ => Ok tt) (Ok tt) (fun _ => None) false (fun _ => u "e") "demo" "alice" false
              (fun _ q => q) (fun n => Z.of_nat n) demo_uuid demo_specs demo_online) with (e := mkEnqueued "B" "b" false)
    as (pre & s & post & Hs & Hid & Hq).
  - intros n q. exists []. apply rtc_refl.
  - vm_compute. right. left.
  - assert (pre = [demo_spec "A" None] /\ s = demo_spec "B" (Some "A")) as [-> ->].
    { destruct pre as [|x [|y [|z pre]]]; simpl in Hs; injection Hs; intros; subst; try done.
      by destruct pre. }
    unfold queued_after in Hq.
    change (dependency_of (demo_spec "B" (Some "A"))) with (Some "A") in Hq. cbv beta iota zeta in Hq.
    rewrite bool_decide_eq_true_2 in Hq by left.
    destruct Hq as (e' & He' & Hr & Hw). destruct (Hw eq_refl) as (t & Ht & Hd).
    exists (mkEnqueued "B" "b" false), e', t. split; [vm_compute; right; left|].
    split; [reflexivity|]. split; [exact He'|]. split; [exact Hr|]. split; [exact Ht|exact Hd].
Defined.

(** A row that keeps running, read every second. *)
Definition demo_poll (k : nat) : Poll :=
  mkPoll (_task_to_dict <$> find_task "t1" (rows demo_running)) (Z.of_nat k * SECOND) true.

Lemma wait_for_task_answers_witness :
  wait_for_task 6 (Some (5 * SECOND)%Z) None 0 demo_poll = Some (Raise TaskWaitTimeoutError).
Proof.
  destruct (wait_for_task_answers (Some (5 * SECOND)%Z) None 0 demo_poll SECOND (5 * SECOND) 6) as (n & r & H & _).
  - reflexivity.
  - done.
  - intros k. simpl. lia.
  - vm_compute. discriminate.
  - lia.
  - rewrite H. assert (wait_for_task 6 (Some (5 * SECOND)%Z) None 0 demo_poll = Some (Raise TaskWaitTimeoutError)) as E
      by (vm_compute; reflexivity).
    rewrite E in H. by injection H as <-.
Defined.
