(* ===== verification/Assets.v ===== *)
(** * Project assets: [lib/asset_types.py] and the asset writes of
    [lib/project_manager.py]

    The four kinds of project asset (character, scene, prop, product) share
    one name space in which names are compared after stripping and Unicode
    composition.  The Unicode tables are an argument: [nfc] is
    [unicodedata.normalize] with form NFC.  A project is the JSON object of
    its file; a mutation is the function that [update_project] runs under the
    project lock, so that an exception leaves the file as it is. *)

From S2P Require Import Prelude Json.

(** ** The registry of kinds *)

Record AssetSpec := mkAssetSpec {
  asset_type : string;
  bucket_key : string;
  sheet_field : string;
  subdir : string;
  namespace_priority : Z;
  reference_list_fields : list string;
  extra_string_fields : list string;
  extra_list_fields : list string;
  agent_editable_extra_fields : list string;
  in_global_library : bool
}.

Definition ASSET_SPECS : list (string * AssetSpec) :=
  [("character", mkAssetSpec "character" "characters" "character_sheet" "characters" 0
      ["characters_in_segment"; "characters_in_scene"; "characters_in_shot"]
      ["voice_style"; "reference_image"; "reference_audio"; "voice_notice_dismissed_at"] [] ["voice_style"] true);
   ("scene", mkAssetSpec "scene" "scenes" "scene_sheet" "scenes" 1 ["scenes"] [] [] [] true);
   ("prop", mkAssetSpec "prop" "props" "prop_sheet" "props" 2 ["props"] [] [] [] true);
   ("product", mkAssetSpec "product" "products" "product_sheet" "products" 3 ["products_in_shot"]
      ["brand"] ["reference_images"; "selling_points"] ["selling_points"] false)].

Definition BUCKET_KEY : list (string * string) := map (fun kv => (kv.1, bucket_key kv.2)) ASSET_SPECS.

(** [sorted(ASSET_SPECS.values(), key=namespace_priority)] *)
Definition specs_by_priority : list AssetSpec :=
  isort (fun a b => (namespace_priority a <=? namespace_priority b)%Z) (map snd ASSET_SPECS).

Record ProjectAssetNameMatch := mkMatch { m_asset_type : string; m_bucket_key : string; m_name : pystr }.

Definition ILLEGAL_ASSET_NAME_CHARS : list N := [47; 92; 0; 58; 42; 63; 34; 60; 62; 124; 93]%N.

Definition WINDOWS_RESERVED_BASENAMES : list pystr :=
  map u (["CON"; "PRN"; "AUX"; "NUL"]
         ++ map (fun i => "COM" +:+ i) ["1"; "2"; "3"; "4"; "5"; "6"; "7"; "8"; "9"]
         ++ map (fun i => "LPT" +:+ i) ["1"; "2"; "3"; "4"; "5"; "6"; "7"; "8"; "9"]).

(** [s.split(".", 1)[0]] *)
Fixpoint before_dot (s : pystr) : pystr :=
  match s with
  | [] => []
  | c :: r => if (c =? 46)%N then [] else c :: before_dot r
  end.

(** [".." in s] *)
Fixpoint has_dots (s : pystr) : bool :=
  match s with
  | c :: ((d :: _) as r) => ((c =? 46)%N && (d =? 46)%N) || has_dots r
  | _ => false
  end.

Section assets.
Context (nfc : pystr -> pystr).

Definition normalize_asset_name (name : pystr) : pystr := nfc name.

Definition asset_name_comparison_key (name : pystr) : pystr := normalize_asset_name (strip name).

(** The members of a bucket; a value that is no object counts as empty. *)
Definition bucket_members (bucket : option json) : dict :=
  match bucket with Some (JObj d) => d | _ => [] end.

(** The names of a project in the order of the kinds. *)
Definition project_names (project : dict) : list ProjectAssetNameMatch :=
  flat_map (fun spec => map (fun kv => mkMatch (asset_type spec) (bucket_key spec) kv.1)
                            (bucket_members (dict_get (u (bucket_key spec)) project))) specs_by_priority.

Definition is_excluded (exclude : option (string * pystr)) (m : ProjectAssetNameMatch) : bool :=
  match exclude with
  | Some (ty, nm) => bool_decide (m_asset_type m = ty) && bool_decide (m_name m = nm)
  | None => false
  end.

Definition find_project_asset_name (project : dict) (name : pystr) (exclude : option (string * pystr))
    : option ProjectAssetNameMatch :=
  List.find (fun m => negb (is_excluded exclude m)
                      && bool_decide (asset_name_comparison_key (m_name m) = asset_name_comparison_key name))
    (project_names project).

Definition ensure_project_asset_name_available (project : dict) (name : pystr) (exclude : option (string * pystr))
    : result unit :=
  match find_project_asset_name project name exclude with
  | Some m => Raise (ProjectAssetNameConflictError name (m_name m))
  | None => Ok tt
  end.

(** The loop of [project_asset_name_conflicts]: the first holder of each key
    and the pairs found so far. *)
Definition conflict_step (st : list (pystr * ProjectAssetNameMatch)
                               * list (ProjectAssetNameMatch * ProjectAssetNameMatch)) (m : ProjectAssetNameMatch) :=
  let key := asset_name_comparison_key (m_name m) in
  match aget key st.1 with
  | Some first => (st.1, st.2 ++ [(first, m)])
  | None => (aset key m st.1, st.2)
  end.

Definition project_asset_name_conflicts (project : dict) : list (ProjectAssetNameMatch * ProjectAssetNameMatch) :=
  (foldl conflict_step ([], []) (project_names project)).2.

Definition ensure_project_asset_namespace (project : dict) : result unit :=
  match project_asset_name_conflicts project with
  | (first, current) :: _ => Raise (ProjectAssetNameConflictError (m_name current) (m_name first))
  | [] => Ok tt
  end.

Definition normalize_asset_bucket (bucket : option json) : dict :=
  dict_of_pairs (map (fun kv => (normalize_asset_name kv.1, kv.2)) (bucket_members bucket)).

(** The last of the equivalent keys. *)
Definition resolve_asset_key (bucket : option json) (name : pystr) : option pystr :=
  foldl (fun found kv => if bool_decide (normalize_asset_name kv.1 = normalize_asset_name name) then Some kv.1 else found)
    None (bucket_members bucket).

(** The bucket afterwards and the value under the new name. *)
Definition rekey_equivalent_entries (bucket : dict) (old_name new_name : pystr) : option (dict * json) :=
  match resolve_asset_key (Some (JObj bucket)) old_name with
  | None => None
  | Some _ =>
      let rekeyed := dict_of_pairs (map (fun kv =>
        (if bool_decide (normalize_asset_name kv.1 = normalize_asset_name old_name) then new_name else kv.1, kv.2)) bucket) in
      (fun v => (rekeyed, v)) <$> dict_get new_name rekeyed
  end.

Definition validate_asset_name (name : json) : result pystr :=
  match name with
  | JStr s =>
      let cleaned := normalize_asset_name (strip s) in
      if bool_decide (cleaned = []) then Raise ValueError
      else if has_dots cleaned || List.existsb (fun c => bool_decide (c ∈ ILLEGAL_ASSET_NAME_CHARS)) cleaned
              || List.existsb (fun c => (c <? 32)%N || (c =? 127)%N) cleaned
      then Raise ValueError
      else if bool_decide (last cleaned = Some 46%N) then Raise ValueError
      else if bool_decide (ascii_upper (before_dot cleaned) ∈ WINDOWS_RESERVED_BASENAMES) then Raise ValueError
      else Ok cleaned
  | _ => Raise ValueError
  end.

(** ** Writes to the project *)

(** [project.setdefault(key, {})] *)
Definition setdefault_bucket (spec : AssetSpec) (project : dict) : dict :=
  match dict_get (u (bucket_key spec)) project with
  | Some _ => project
  | None => dict_set (u (bucket_key spec)) (JObj []) project
  end.

(** [bucket[name] = entry] on the bucket of the project. *)
Definition put_entry (spec : AssetSpec) (name : pystr) (entry : json) (project : dict) : result dict :=
  match dict_get (u (bucket_key spec)) project with
  | Some (JObj b) => Ok (dict_set (u (bucket_key spec)) (JObj (dict_set name entry b)) project)
  | _ => Raise TypeError
  end.

(** The mutation of [_add_asset]: whether it was added. *)
Definition add_asset_mutate (spec : AssetSpec) (name : pystr) (entry : json) (project : dict) : result (bool * dict) :=
  let project := setdefault_bucket spec project in
  match resolve_asset_key (dict_get (u (bucket_key spec)) project) name with
  | Some _ => Ok (false, project)
  | None =>
      let! _ := ensure_project_asset_name_available project name None in
      let! project' := put_entry spec name entry project in
      Ok (true, project')
  end.

Definition _add_asset (spec : AssetSpec) (name : json) (entry : json) (project : dict) : result (bool * dict) :=
  let! name := validate_asset_name name in
  add_asset_mutate spec name entry project.

(** The normalised entries of a batch; a second spelling of a name is refused. *)
Fixpoint normalized_entries (entries : dict) (acc : dict) : result dict :=
  match entries with
  | [] => Ok acc
  | (raw, entry) :: rest =>
      let! name := validate_asset_name (JStr raw) in
      if bool_decide (is_Some (dict_get name acc)) then Raise ValueError
      else normalized_entries rest (dict_set name entry acc)
  end.

Fixpoint add_entries (spec : AssetSpec) (entries : dict) (added : nat) (project : dict) : result (nat * dict) :=
  match entries with
  | [] => Ok (added, project)
  | (name, entry) :: rest =>
      let! out := add_asset_mutate spec name entry project in
      add_entries spec rest (if out.1 : bool then S added else added) out.2
  end.

Definition _add_assets_batch (spec : AssetSpec) (entries : dict) (project : dict) : result (nat * dict) :=
  let! entries := normalized_entries entries [] in
  match entries with
  | [] => Ok (0, project)
  | _ => add_entries spec entries 0 (setdefault_bucket spec project)
  end.

Definition delete_asset (spec : AssetSpec) (name : pystr) (project : dict) : result (pystr * dict) :=
  match resolve_asset_key (dict_get (u (bucket_key spec)) project) name with
  | Some key =>
      Ok (key, dict_set (u (bucket_key spec)) (JObj (adel key (bucket_members (dict_get (u (bucket_key spec)) project))))
                 project)
  | None => Raise KeyError
  end.

(** [bucket[key][sheet_field] = path]; the entry is an object. *)
Definition _update_asset_sheet (spec : AssetSpec) (name sheet_path : pystr) (project : dict) : result dict :=
  match resolve_asset_key (dict_get (u (bucket_key spec)) project) name with
  | Some key =>
      let b := bucket_members (dict_get (u (bucket_key spec)) project) in
      match dict_get key b with
      | Some (JObj e) =>
          Ok (dict_set (u (bucket_key spec))
                (JObj (dict_set key (JObj (dict_set (u (sheet_field spec)) (JStr sheet_path) e)) b)) project)
      | _ => Raise TypeError
      end
  | None => Raise KeyError
  end.

(** The project part of [rename_asset]: the guards and the new bucket.
    [old_claim] says that the manifest still holds a sheet under the old name
    while the entry under the new name has one, which is what a rename cut
    short before its last write leaves behind. *)
Definition rename_asset_project (old_claim : bool) (spec : AssetSpec) (old_name : pystr) (new_name : json) (project : dict)
    : result (pystr * pystr * dict) :=
  let! new_clean := validate_asset_name new_name in
  let bucket := dict_get (u (bucket_key spec)) project in
  match resolve_asset_key bucket old_name with
  | None =>
      match resolve_asset_key bucket new_clean with
      | Some completed => if old_claim then Ok (normalize_asset_name old_name, completed, project) else Raise KeyError
      | None => Raise KeyError
      end
  | Some old_key =>
      if match resolve_asset_key bucket new_clean with Some k => negb (bool_decide (k = old_key)) | None => false end
      then Raise ValueError
      else
        let! _ := ensure_project_asset_name_available project new_clean (Some (asset_type spec, old_key)) in
        match rekey_equivalent_entries (bucket_members bucket) old_key new_clean with
        | Some (b, _) => Ok (old_key, new_clean, dict_set (u (bucket_key spec)) (JObj b) project)
        | None => Raise KeyError
        end
  end.
End assets.

(** ** Lemmas *)

Lemma specs_by_priority_eq : specs_by_priority = map snd ASSET_SPECS.
Proof. reflexivity. Qed.

Lemma dict_of_pairs_keys (l : dict) k : k ∈ (dict_of_pairs l).*1 <-> k ∈ l.*1.
Proof.
  unfold dict_of_pairs. assert (forall d, k ∈ (foldl (fun d kv => dict_set kv.1 kv.2 d) d l).*1
    <-> k ∈ d.*1 \/ k ∈ l.*1) as H; [|rewrite H; set_solver].
  induction l as [|[k0 v0] l IH]; intros d; simpl; [set_solver|]. rewrite IH, dict_set_keys. set_solver.
Qed.

(** A dictionary built from pairs holds the last value given for a key. *)
Lemma dict_of_pairs_last (l : dict) k v r : k ∉ r.*1 -> dict_get k (dict_of_pairs (l ++ (k, v) :: r)) = Some v.
Proof.
  intros Hr. unfold dict_of_pairs. rewrite foldl_app. cbn [foldl fst snd].
  generalize (foldl (fun d kv => dict_set kv.1 kv.2 d) [] l). intros d.
  assert (forall d, dict_get k d = Some v -> dict_get k (foldl (fun d kv => dict_set kv.1 kv.2 d) d r) = Some v) as H.
  { clear d. induction r as [|[k0 v0] r IH]; intros d Hd; simpl; [done|]. apply IH; [set_solver|].
    rewrite dict_get_set_ne; [done|]. intros ->. apply Hr. left. }
  apply H, dict_get_set_eq.
Qed.

Section lemmas.
Context (nfc : pystr -> pystr).
Abbreviation key := (asset_name_comparison_key nfc).
Abbreviation keys p := (map (fun m => key (m_name m)) (project_names p)).

Lemma conflicts_nil p : project_asset_name_conflicts nfc p = [] <-> NoDup (keys p).
Proof.
  unfold project_asset_name_conflicts. generalize (project_names p) as l. intros l.
  assert (forall f cs, (foldl (conflict_step nfc) (f, cs) l).2 = [] <->
    cs = [] /\ NoDup (map (fun m => key (m_name m)) l)
    /\ forall k, k ∈ map (fun m => key (m_name m)) l -> k ∉ f.*1) as H; [|rewrite H; set_solver].
  induction l as [|m l IH]; intros f cs; cbn [foldl map].
  { simpl. split; [intros ->; split; [done|]; split; [constructor|set_solver]|by intros [-> _]]. }
  unfold conflict_step at 2. cbn [fst snd]. rewrite NoDup_cons.
  destruct (aget (key (m_name m)) f) as [first|] eqn:E; rewrite IH.
  - split; [intros [H _]; by destruct cs|]. intros (_ & _ & H). exfalso. apply (H (key (m_name m))); [left|].
    apply list_elem_of_fmap. exists (key (m_name m), first). split; [done|]. by apply aget_Some_elem.
  - apply aget_None in E. split.
    + intros (Hcs & Hnd & H). split; [exact Hcs|]. split.
      * split; [|done]. intros Hin. apply (H _ Hin). rewrite aset_keys.
        rewrite bool_decide_eq_false_2 by done. set_solver.
      * intros k [-> |Hk]%elem_of_cons; [done|]. specialize (H _ Hk). rewrite aset_keys in H.
        rewrite bool_decide_eq_false_2 in H by done. set_solver.
    + intros (Hcs & (Hni & Hnd) & H). split; [exact Hcs|]. split; [exact Hnd|]. intros k Hk. rewrite aset_keys.
      rewrite bool_decide_eq_false_2 by done. intros [Hk'| ->%list_elem_of_singleton]%elem_of_app; [|done].
      by apply (H k); [right|].
Qed.

(** The names of a project around one bucket. *)
Lemma names_around spec p :
  spec ∈ map snd ASSET_SPECS ->
  exists pre post,
    Forall (fun m => m_asset_type m <> asset_type spec) (pre ++ post)
    /\ project_names p = pre ++ map (fun kv => mkMatch (asset_type spec) (bucket_key spec) kv.1)
                                   (bucket_members (dict_get (u (bucket_key spec)) p)) ++ post
    /\ forall b, project_names (dict_set (u (bucket_key spec)) (JObj b) p)
          = pre ++ map (fun kv => mkMatch (asset_type spec) (bucket_key spec) kv.1) b ++ post.
Proof.
  intros (l1 & l2 & Hl)%list_elem_of_split. unfold project_names. rewrite specs_by_priority_eq, Hl.
  assert (NoDup (map asset_type (map snd ASSET_SPECS))) as Ht by (apply (bool_decide_unpack _); vm_compute; exact I).
  assert (NoDup (map (fun s' => u (bucket_key s')) (map snd ASSET_SPECS))) as Hb
    by (apply (bool_decide_unpack _); vm_compute; exact I).
  rewrite Hl, map_app in Ht, Hb. apply NoDup_app in Ht as (_ & Ht1 & Ht2), Hb as (_ & Hb1 & Hb2).
  apply NoDup_cons in Ht2 as [Ht2 _], Hb2 as [Hb2 _].
  assert (forall s', s' ∈ l1 ++ l2 -> asset_type s' <> asset_type spec /\ u (bucket_key spec) <> u (bucket_key s')) as Hne.
  { intros s' [Hin|Hin]%elem_of_app; split; intros Heq.
    - apply (Ht1 (asset_type s')); [by apply list_elem_of_fmap_2|]. rewrite Heq. left.
    - apply (Hb1 (u (bucket_key s'))); [by apply (list_elem_of_fmap_2 (fun s' => u (bucket_key s')))|]. rewrite <- Heq. left.
    - apply Ht2. rewrite <- Heq. by apply list_elem_of_fmap_2.
    - apply Hb2. rewrite Heq. by apply (list_elem_of_fmap_2 (fun s' => u (bucket_key s'))). }
  set (f := fun s' => map (fun kv => mkMatch (asset_type s') (bucket_key s') kv.1)
                       (bucket_members (dict_get (u (bucket_key s')) p))).
  exists (flat_map f l1), (flat_map f l2). split; [|split].
  - rewrite <- flat_map_app. apply Forall_forall. intros m Hm.
    apply list_elem_of_In, in_flat_map in Hm as (s' & Hs' & (kv & <- & _)%in_map_iff).
    by apply list_elem_of_In, Hne in Hs' as [? _].
  - rewrite flat_map_app. reflexivity.
  - intros b. rewrite flat_map_app. cbn [flat_map]. rewrite dict_get_set_eq. cbn [bucket_members].
    assert (forall l : list AssetSpec, (forall s', s' ∈ l -> u (bucket_key spec) <> u (bucket_key s')) ->
      flat_map (fun s' => map (fun kv => mkMatch (asset_type s') (bucket_key s') kv.1)
        (bucket_members (dict_get (u (bucket_key s')) (dict_set (u (bucket_key spec)) (JObj b) p)))) l
      = flat_map f l) as Hext.
    { induction l as [|s' l IH]; intros Hl'; [done|]. cbn [flat_map]. rewrite IH by (intros; apply Hl'; by right).
      unfold f at 2. by rewrite dict_get_set_ne by (apply Hl'; left). }
    rewrite !Hext by (intros; apply Hne, elem_of_app; by auto). done.
Qed.

(** No equivalent key, or the last one. *)
Lemma resolve_None b name :
  resolve_asset_key nfc b name = None -> forall kv, kv ∈ bucket_members b -> nfc kv.1 <> nfc name.
Proof.
  unfold resolve_asset_key, normalize_asset_name. generalize (bucket_members b) as l. intros l.
  assert (forall f, foldl (fun found kv => if bool_decide (nfc kv.1 = nfc name) then Some kv.1 else found) f l = None ->
    f = None /\ forall kv, kv ∈ l -> nfc kv.1 <> nfc name) as H; [|by intros [_ ?]%H].
  induction l as [|kv l IH]; intros f; simpl; [intros ->; split; [done|]; by intros kv ?%not_elem_of_nil|].
  intros [H1 H2]%IH. case_bool_decide as E; [done|]. split; [done|]. by intros kv' [-> |Hin]%elem_of_cons; [|by apply H2].
Qed.

Lemma resolve_Some b name k :
  resolve_asset_key nfc b name = Some k ->
  exists l v r, bucket_members b = l ++ (k, v) :: r /\ nfc k = nfc name /\ forall kv, kv ∈ r -> nfc kv.1 <> nfc name.
Proof.
  unfold resolve_asset_key, normalize_asset_name. generalize (bucket_members b) as l. intros l.
  assert (forall f, foldl (fun found kv => if bool_decide (nfc kv.1 = nfc name) then Some kv.1 else found) f l = Some k ->
    (f = Some k /\ forall kv, kv ∈ l -> nfc kv.1 <> nfc name)
    \/ exists l' v r, l = l' ++ (k, v) :: r /\ nfc k = nfc name /\ forall kv, kv ∈ r -> nfc kv.1 <> nfc name) as H;
    [|by intros [[? _]|?]%H].
  induction l as [|[k0 v0] l IH]; intros f; simpl; [intros ->; left; split; [done|]; by intros kv ?%not_elem_of_nil|].
  intros [[H1 H2]|(l' & v & r & -> & H2)]%IH.
  - case_bool_decide as E.
    + injection H1 as ->. right. by exists [], v0, l.
    + left. split; [done|]. by intros kv' [-> |Hin]%elem_of_cons; [|by apply H2].
  - right. by exists ((k0, v0) :: l'), v, r.
Qed.

Lemma find_None p name ex m :
  find_project_asset_name nfc p name ex = None -> m ∈ project_names p -> is_excluded ex m = false ->
  key (m_name m) <> key name.
Proof.
  intros H Hm He Heq. apply (find_None_elem _ _ m) in H; [|done]. cbv beta in H. rewrite He in H. cbn [negb andb] in H. by to_prop.
Qed.

Lemma ensure_available_Ok p name ex x :
  ensure_project_asset_name_available nfc p name ex = Ok x -> find_project_asset_name nfc p name ex = None.
Proof. unfold ensure_project_asset_name_available. by destruct find_project_asset_name. Qed.

(** *** The name space under the writes *)

Lemma setdefault_names spec p : spec ∈ map snd ASSET_SPECS -> project_names (setdefault_bucket spec p) = project_names p.
Proof.
  intros Hs. unfold setdefault_bucket. destruct (dict_get (u (bucket_key spec)) p) eqn:E; [done|].
  destruct (names_around spec p Hs) as (pre & post & _ & -> & H). rewrite H, E. done.
Qed.

Lemma add_asset_keys spec name entry p b p' :
  spec ∈ map snd ASSET_SPECS -> add_asset_mutate nfc spec name entry p = Ok (b, p') ->
  NoDup (keys p) -> NoDup (keys p').
Proof.
  intros Hs H Hnd. rewrite <- (setdefault_names spec p Hs) in Hnd. revert H Hnd.
  unfold add_asset_mutate. set (p0 := setdefault_bucket spec p).
  destruct (resolve_asset_key nfc _ name) as [k|] eqn:Er; [by intros [= _ <-]|].
  intros (x & Hx%ensure_available_Ok & (p1 & Hp & [= _ <-])%bind_Ok)%bind_Ok Hnd.
  unfold put_entry in Hp. destruct (dict_get (u (bucket_key spec)) p0) as [[]|] eqn:Eb; try done.
  injection Hp as <-. destruct (names_around spec p0 Hs) as (pre & post & _ & Hn & Hset).
  assert (forall m, m ∈ project_names p0 -> key (m_name m) <> key name) as Hfree by (intros m Hm; by apply (find_None p0 name None)).
  rewrite Hset. rewrite dict_set_fresh.
  - rewrite Eb in Hn. cbn [bucket_members] in Hn. rewrite Hn in Hnd, Hfree.
    rewrite !map_app in *. cbn [map] in *.
    assert (forall A B C : list pystr, A ++ (B ++ [key name]) ++ C ≡ₚ key name :: A ++ B ++ C) as Hperm.
    { intros A B C. rewrite <- app_assoc. cbn [app]. rewrite !app_assoc. symmetry. apply Permutation_middle. }
    cbn [m_name fst]. rewrite Hperm. apply NoDup_cons. split; [|exact Hnd].
    intros Hin. rewrite <- !map_app in Hin. apply list_elem_of_In, in_map_iff in Hin as (m & Hk & Hm%list_elem_of_In).
    by apply (Hfree m).
  - intros Hin. apply list_elem_of_fmap in Hin as (kv & -> & Hkv).
    by apply (resolve_None (Some (JObj members)) kv.1 Er kv).
Qed.

Lemma delete_asset_keys spec name p k p' :
  spec ∈ map snd ASSET_SPECS -> delete_asset nfc spec name p = Ok (k, p') -> NoDup (keys p) -> NoDup (keys p').
Proof.
  intros Hs. unfold delete_asset. destruct (resolve_asset_key _ _ _) as [k0|]; [|done]. intros [= <- <-].
  destruct (names_around spec p Hs) as (pre & post & _ & -> & Hset). rewrite Hset. clear Hset.
  generalize (bucket_members (dict_get (u (bucket_key spec)) p)) as b. intros b.
  rewrite !map_app, !map_map. cbn [m_name]. unfold adel. intros Hnd. eapply sublist_NoDup; [exact Hnd|]. clear Hnd.
  apply sublist_app; [done|]. apply sublist_app; [|done].
  induction b as [|kv b IH]; simpl; [constructor|]. case_bool_decide; simpl; by constructor.
Qed.

Lemma update_sheet_keys spec name path p p' :
  spec ∈ map snd ASSET_SPECS -> _update_asset_sheet nfc spec name path p = Ok p' -> keys p' = keys p.
Proof.
  intros Hs. unfold _update_asset_sheet. destruct (resolve_asset_key _ _ _) as [k0|]; [|done].
  destruct (dict_get k0 _) as [[]|] eqn:Eg; try done. intros [= <-].
  destruct (names_around spec p Hs) as (pre & post & _ & -> & Hset). rewrite Hset. clear Hset.
  revert Eg. generalize (bucket_members (dict_get (u (bucket_key spec)) p)) as b. intros b Eg.
  rewrite !map_app, !map_map. cbn [m_name]. f_equal. f_equal.
  induction b as [|[k v] b IH]; simpl in *; [done|]. case_bool_decide; simpl; [done|]. by rewrite IH.
Qed.

(** After a rename the bucket holds the new name and the names that were not
    equivalent to the old one. *)
Lemma rekeyed_names b old new :
  let b' := dict_of_pairs (map (fun kv =>
    (if bool_decide (nfc kv.1 = nfc old) then new else kv.1, kv.2)) b) in
  NoDup b'.*1 /\ forall k, k ∈ b'.*1 <-> (k = new /\ exists kv, kv ∈ b /\ nfc kv.1 = nfc old)
                                     \/ (k ∈ b.*1 /\ nfc k <> nfc old).
Proof.
  cbv zeta. split; [apply dict_of_pairs_NoDup|]. intros k. rewrite dict_of_pairs_keys, !list_elem_of_fmap. split.
  - intros (x & -> & (kv & <- & Hin)%list_elem_of_In%in_map_iff). apply list_elem_of_In in Hin. cbn [fst].
    case_bool_decide as E; [left; by eauto|right]. split; [|done]. by exists kv.
  - intros [[-> (kv & Hin & E)]|[(kv & -> & Hin) E]].
    + exists (new, kv.2). split; [done|]. apply list_elem_of_In, in_map_iff. exists kv.
      rewrite bool_decide_eq_true_2 by done. split; [done|by apply list_elem_of_In].
    + exists kv. split; [done|]. apply list_elem_of_In, in_map_iff. exists kv.
      rewrite bool_decide_eq_false_2 by done. split; [by destruct kv|by apply list_elem_of_In].
Qed.

Lemma rekeyed_others b old new x d :
  NoDup b.*1 -> x <> new -> nfc x <> nfc old ->
  dict_get x (foldl (fun d kv => dict_set kv.1 kv.2 d) d
    (map (fun kv => (if bool_decide (nfc kv.1 = nfc old) then new else kv.1, kv.2)) b))
  = match dict_get x b with Some v => Some v | None => dict_get x d end.
Proof.
  intros Hnd Hx Hne. revert d. induction b as [|[k v] b IH]; intros d; [done|].
  cbn [map foldl fst snd dict_get]. rewrite fmap_cons in Hnd. apply NoDup_cons in Hnd as [Hk Hnd]. rewrite IH by done.
  destruct (decide (k = x)) as [->|Hkx].
  - rewrite (bool_decide_eq_false_2 (nfc x = nfc old)), (bool_decide_eq_true_2 (x = x)) by done.
    rewrite dict_get_set_eq. destruct (dict_get x b) as [w|] eqn:E; [|done].
    exfalso. apply Hk. apply (dict_get_elem x w b Hnd) in E. by apply (list_elem_of_fmap_2 fst b (x, w)).
  - rewrite (bool_decide_eq_false_2 (k = x)) by done. case_bool_decide; by rewrite dict_get_set_ne.
Qed.

Lemma rename_keys claim spec old new p k n p' :
  spec ∈ map snd ASSET_SPECS -> rename_asset_project nfc claim spec old new p = Ok (k, n, p') ->
  NoDup (keys p) -> NoDup (keys p').
Proof.
  intros Hs. unfold rename_asset_project. intros (nc & _ & H)%bind_Ok. revert H.
  destruct (resolve_asset_key nfc _ old) as [ok|] eqn:Eo.
  2: { destruct (resolve_asset_key nfc _ nc); [|done]. destruct claim; [|done]. by intros [= _ _ <-]. }
  case_match; [done|]. intros (x & Hx%ensure_available_Ok & H1)%bind_Ok. revert H1.
  unfold rekey_equivalent_entries. destruct (resolve_asset_key nfc (Some _) ok); [|done].
  destruct (dict_get nc _); [|done]. intros [= _ _ <-] Hnd.
  destruct (names_around spec p Hs) as (pre & post & Hty & Hn & Hset). rewrite Hset. clear Hset.
  set (b := bucket_members _) in *. destruct (rekeyed_names b ok nc) as [Hraw Hmem].
  unfold normalize_asset_name. set (b' := dict_of_pairs _) in *.
  rewrite Hn, !map_app, !map_map in Hnd. cbn [m_name] in Hnd. rewrite !map_app, !map_map. cbn [m_name].
  assert (forall m, m ∈ pre ++ post -> key (m_name m) <> key nc) as Hout.
  { intros m Hm. apply (find_None p nc _ m Hx); [rewrite Hn; set_solver|]. unfold is_excluded.
    rewrite Forall_forall in Hty. rewrite bool_decide_eq_false_2 by (by apply Hty). done. }
  assert (forall k, k ∈ b.*1 -> nfc k <> nfc ok -> key k <> key nc) as Hin.
  { intros k' Hk' Hne. apply list_elem_of_fmap in Hk' as (kv & -> & Hkv).
    apply (find_None p nc _ (mkMatch (asset_type spec) (bucket_key spec) kv.1) Hx).
    - rewrite Hn. apply elem_of_app. right. apply elem_of_app. left. apply list_elem_of_In, in_map_iff.
      exists kv. by rewrite <- list_elem_of_In.
    - unfold is_excluded. cbn [m_name]. rewrite (bool_decide_eq_false_2 (kv.1 = ok)); [by rewrite andb_false_r|].
      intros E. apply Hne. by rewrite E. }
  apply NoDup_app in Hnd as (Hn1 & Hd1 & Hnd). apply NoDup_app in Hnd as (Hn2 & Hd2 & Hn3).
  assert (forall k, k ∈ b'.*1 -> key k = key nc \/ (key k ∈ map (fun kv : pystr * json => key kv.1) b /\ k ∈ b.*1 /\ nfc k <> nfc ok))
    as Hb'.
  { intros k' [[-> _]|[H1 H2]]%Hmem; [by left|right]. split; [|done]. rewrite <- (map_map fst key).
    by apply list_elem_of_fmap_2. }
  assert (forall y, y ∈ map (fun kv : pystr * json => key kv.1) b' -> y = key nc \/ y ∈ map (fun kv : pystr * json => key kv.1) b) as Hsub.
  { intros y Hy. rewrite <- (map_map fst key) in Hy. apply list_elem_of_fmap in Hy as (k' & -> & Hk').
    destruct (Hb' _ Hk') as [->|[? _]]; auto. }
  apply NoDup_app. split; [done|]. split.
  { intros y Hy [Hy'%Hsub|Hy']%elem_of_app; [|by apply (Hd1 y Hy); apply elem_of_app; right].
    destruct Hy' as [-> |Hy']; [|by apply (Hd1 y Hy); apply elem_of_app; left].
    apply list_elem_of_In, in_map_iff in Hy as (m & Hm & Hin'%list_elem_of_In). apply (Hout m); [set_solver|done]. }
  apply NoDup_app. split; [|split; [|done]].
  - rewrite <- (map_map fst key). apply NoDup_fmap_2_strong; [|exact Hraw]. intros k1 k2 H1 H2 Hk.
    apply Hmem in H1, H2. destruct H1 as [[-> _]|[H1 E1]], H2 as [[-> _]|[H2 E2]]; [done| | |].
    + exfalso. by apply (Hin k2).
    + exfalso. by apply (Hin k1).
    + rewrite <- (map_map fst key) in Hn2. apply list_elem_of_lookup_1 in H1 as [i1 H1], H2 as [i2 H2].
      assert (i1 = i2); [|congruence]. eapply (NoDup_lookup _ i1 i2 (key k1) Hn2).
      * change ((key <$> b.*1) !! i1 = Some (key k1)). by rewrite list_lookup_fmap, H1.
      * change ((key <$> b.*1) !! i2 = Some (key k1)). by rewrite list_lookup_fmap, H2, Hk.
  - intros y [-> |Hy']%Hsub Hy; [|by apply (Hd2 y Hy')].
    apply list_elem_of_In, in_map_iff in Hy as (m & Hm & Hin'%list_elem_of_In). apply (Hout m); [set_solver|done].
Qed.

Lemma add_entries_keys spec entries n p m p' :
  spec ∈ map snd ASSET_SPECS -> add_entries nfc spec entries n p = Ok (m, p') -> NoDup (keys p) -> NoDup (keys p').
Proof.
  intros Hs. revert n p. induction entries as [|[nm e] rest IH]; intros n p; simpl; [by intros [= _ <-]|].
  intros ([b q] & Hb & H)%bind_Ok Hnd. apply (IH _ _ H). by eapply add_asset_keys.
Qed.

(** The writes of [ProjectManager] to the assets of a project. *)
Inductive asset_step (p : dict) : dict -> Prop :=
| step_add spec name entry b p' :
    spec ∈ map snd ASSET_SPECS -> _add_asset nfc spec name entry p = Ok (b, p') -> asset_step p p'
| step_batch spec entries n p' :
    spec ∈ map snd ASSET_SPECS -> _add_assets_batch nfc spec entries p = Ok (n, p') -> asset_step p p'
| step_delete spec name k p' :
    spec ∈ map snd ASSET_SPECS -> delete_asset nfc spec name p = Ok (k, p') -> asset_step p p'
| step_sheet spec name path p' :
    spec ∈ map snd ASSET_SPECS -> _update_asset_sheet nfc spec name path p = Ok p' -> asset_step p p'
| step_rename claim spec old new k n p' :
    spec ∈ map snd ASSET_SPECS -> rename_asset_project nfc claim spec old new p = Ok (k, n, p') -> asset_step p p'.

Lemma asset_step_keys p p' : asset_step p p' -> NoDup (keys p) -> NoDup (keys p').
Proof.
  intros [spec name entry b q Hs H|spec entries n q Hs H|spec name k q Hs H|spec name path q Hs H
         |claim spec old new k n q Hs H] Hnd.
  - apply bind_Ok in H as (nm & _ & H). by eapply add_asset_keys.
  - apply bind_Ok in H as ([|e es] & _ & H); [by injection H as _ <-|].
    eapply add_entries_keys; [done|exact H|]. by rewrite setdefault_names.
  - by eapply delete_asset_keys.
  - by rewrite (update_sheet_keys _ _ _ _ _ Hs H).
  - by eapply rename_keys.
Qed.

(** C18: The shared name space of a project's assets stays free of conflicts:
    whatever sequence of adding, batch adding, deleting, sheet updates and
    renaming succeeds, two assets of any kinds never have names that agree
    after stripping and Unicode composition, provided it was so before. *)
Theorem asset_namespace_unique p p' :
  rtc asset_step p p' -> project_asset_name_conflicts nfc p = [] ->
  project_asset_name_conflicts nfc p' = [] /\ NoDup (keys p').
Proof.
  intros Hs H0%conflicts_nil. rewrite conflicts_nil. assert (NoDup (keys p')); [|done].
  induction Hs as [|p p1 p' H1 _ IH]; [done|]. apply IH. by eapply asset_step_keys.
Qed.

(** A rename that finds the asset replaces every spelling of the old name
    by the new one, which holds the value of the spelling the readers use
    (the last); no other entry changes its value, and unless the new name is
    itself a spelling of the old one, the old name no longer resolves. *)
Theorem rename_asset_exact claim spec old new p k n p' :
  spec ∈ map snd ASSET_SPECS -> rename_asset_project nfc claim spec old new p = Ok (k, n, p') ->
  let b := bucket_members (dict_get (u (bucket_key spec)) p) in
  let b' := bucket_members (dict_get (u (bucket_key spec)) p') in
  NoDup b.*1 -> resolve_asset_key nfc (Some (JObj b)) old = Some k ->
  validate_asset_name nfc new = Ok n
  /\ NoDup b'.*1
  /\ (forall x, x <> n -> nfc x <> nfc old -> dict_get x b' = dict_get x b)
  /\ (exists l v r, b = l ++ (k, v) :: r /\ (forall kv, kv ∈ r -> nfc kv.1 <> nfc old)
        /\ ((forall kv, kv ∈ r -> kv.1 <> n) -> dict_get n b' = Some v))
  /\ (forall x, x ∈ b'.*1 <-> x = n \/ (x ∈ b.*1 /\ nfc x <> nfc old))
  /\ (nfc n <> nfc old -> resolve_asset_key nfc (Some (JObj b')) old = None).
Proof.
  intros Hs H b b' Hnd Hr. unfold b', b in *. clear b b'.
  unfold rename_asset_project in H. apply bind_Ok in H as (nc & Hv & H). revert H.
  assert (forall o, resolve_asset_key nfc (Some (JObj (bucket_members o))) old = resolve_asset_key nfc o old) as Hsame.
  { intros [[]|]; done. }
  rewrite Hsame in Hr. rewrite Hr. case_match; [done|]. intros (x & Hx%ensure_available_Ok & H1)%bind_Ok. revert H1.
  set (b := bucket_members _) in *. unfold rekey_equivalent_entries.
  destruct (resolve_asset_key nfc (Some _) k) as [kk|]; [|done].
  destruct (resolve_Some _ _ _ Hr) as (l & v & r & Hl & Hk & Hlast). fold b in Hl.
  destruct (rekeyed_names b k nc) as [Hraw Hmem]. unfold normalize_asset_name.
  set (b' := dict_of_pairs _) in *. destruct (dict_get nc b') as [w|] eqn:Ew; [|done].
  intros [= <- <-]. rewrite dict_get_set_eq. cbn [bucket_members].
  split; [done|]. split; [exact Hraw|]. split; [|split; [|split]].
  - intros y Hy Hyo. unfold b', dict_of_pairs. rewrite rekeyed_others; [by destruct (dict_get y b)|done|done|by rewrite Hk].
  - exists l, v, r. split; [done|]. split; [done|]. intros Hnr. unfold b'. rewrite Hl, map_app. cbn [map fst snd].
    rewrite bool_decide_eq_true_2 by done. apply dict_of_pairs_last.
    intros (x' & Heq & (kv & <- & Hin%list_elem_of_In)%list_elem_of_In%in_map_iff)%list_elem_of_fmap. cbn [fst] in Heq.
    rewrite bool_decide_eq_false_2 in Heq by (rewrite Hk; by apply Hlast). by apply (Hnr kv Hin).
  - intros y. rewrite Hmem, Hk. split; [naive_solver|]. intros [-> |]; [left|by right]. split; [done|].
    exists (k, v). split; [|done]. rewrite Hl. set_solver.
  - intros Hne. unfold resolve_asset_key. cbn [bucket_members].
    assert (forall kv, kv ∈ b' -> nfc kv.1 <> nfc old) as Hno.
    { intros kv Hkv. assert (kv.1 ∈ b'.*1) as Hin by (by apply list_elem_of_fmap_2).
      apply Hmem in Hin as [[-> _]|[_ Hin]]; [done|]. by rewrite <- Hk. }
    revert Hno. generalize b' as bb. induction bb as [|kv bb IH]; intros Hno; [done|]. simpl.
    unfold normalize_asset_name. rewrite bool_decide_eq_false_2 by (apply Hno; left). apply IH. intros; apply Hno; by right.
Qed.
End lemmas.

(** ** Witnesses *)

Definition demo_project : dict :=
  [(u "characters", JObj [(u "Ann", JObj [])]); (u "props", JObj [(u "lamp", JObj [])])].
Definition character_spec : AssetSpec :=
  mkAssetSpec "character" "characters" "character_sheet" "characters" 0
    ["characters_in_segment"; "characters_in_scene"; "characters_in_shot"]
    ["voice_style"; "reference_image"; "reference_audio"; "voice_notice_dismissed_at"] [] ["voice_style"] true.

(** Adding works, then the name is taken for every kind. *)
Lemma asset_namespace_unique_witness :
  exists p', _add_asset id character_spec (JStr (u " Bob ")) (JObj []) demo_project = Ok (true, p')
    /\ project_asset_name_conflicts id p' = []
    /\ _add_asset id character_spec (JStr (u "lamp")) (JObj []) p'
         = Raise (ProjectAssetNameConflictError (u "lamp") (u "lamp")).
Proof.
  destruct (_add_asset id character_spec (JStr (u " Bob ")) (JObj []) demo_project) as [[b p']|] eqn:E;
    [|vm_compute in E; discriminate].
  assert (b = true) as -> by (vm_compute in E; by injection E as <- _).
  exists p'. split; [reflexivity|]. split.
  - destruct (asset_namespace_unique id demo_project p') as [H _]; [|vm_compute; reflexivity|exact H].
    apply rtc_once. eapply step_add; [|exact E]. vm_compute. left.
  - vm_compute in E. injection E as <-. vm_compute. reflexivity.
Defined.

Lemma rename_asset_exact_witness :
  exists p', rename_asset_project id false character_spec (u "Ann") (JStr (u "Eve")) demo_project
      = Ok (u "Ann", u "Eve", p')
    /\ resolve_asset_key id (dict_get (u "characters") p') (u "Ann") = None.
Proof.
  destruct (rename_asset_project id false character_spec (u "Ann") (JStr (u "Eve")) demo_project) as [[[k n] p']|] eqn:E;
    [|vm_compute in E; discriminate].
  assert (k = u "Ann" /\ n = u "Eve") as [-> ->] by (vm_compute in E; by injection E as <- <- _).
  exists p'. split; [reflexivity|].
  destruct (rename_asset_exact id false character_spec (u "Ann") (JStr (u "Eve")) demo_project (u "Ann") (u "Eve") p')
    as (_ & _ & _ & _ & _ & H); [vm_compute; left|exact E| |vm_compute; reflexivity|].
  - apply (bool_decide_unpack _). vm_compute. exact I.
  - assert (dict_get (u "characters") p' = Some (JObj (bucket_members (dict_get (u (bucket_key character_spec)) p')))) as ->
      by (vm_compute in E; injection E as <-; reflexivity).
    apply H. discriminate.
Defined.
