(* ===== verification/ShotParser.v ===== *)
(** * The writing syntax of shots: [lib/reference_video/shot_parser.py]

    Text in which [@[name]] refers to an asset, [{words}] is speech and a line
    headed by a shot mark begins a shot.  Text is a list of code points, so
    positions are those of the program.  Two tables of the Unicode standard
    are arguments: [nfc], composition, and [is_decimal], the digits of the
    regular expression class; in both cases the character classes the scanner
    mixes (space, digit, colon) are disjoint, so that greedy matching needs no
    backtracking. *)

From S2P Require Import Prelude Json Checkpoint Assets.

Definition c_at : N := 64.
Definition c_open : N := 91.
Definition c_close : N := 93.
Definition c_newline : N := 10.
Definition _BOM : N := 65279.
(** The full-width colon and the ASCII one. *)
Definition _SPEAKER_SEPARATORS : list N := [65306; 58]%N.

(** ** Positions *)

(** [text[a:b]] *)
Definition slice (a b : nat) (s : pystr) : pystr := take (b - a) (drop a s).

(** The distance to the first of the targets, the length if there is none. *)
Fixpoint distance (targets : list N) (s : pystr) : nat :=
  match s with
  | [] => 0
  | c :: r => if bool_decide (c ∈ targets) then 0 else S (distance targets r)
  end.

(** [_next_positions]: the table of the next target at or after a position,
    filled from the end of the text, of which [s] is the rest from [i]. *)
Fixpoint next_positions (targets : list N) (i : nat) (s : pystr) : list nat :=
  match s with
  | [] => [i]
  | c :: r => let later := next_positions targets (S i) r in
              (if bool_decide (c ∈ targets) then i else hd 0 later) :: later
  end.

Definition _next_positions (text : pystr) (targets : list N) : list nat := next_positions targets 0 text.

(** [text.find(c, start)] *)
Definition find_char (c : N) (start : nat) (s : pystr) : option nat :=
  let i := start + distance [c] (drop start s) in
  if i <? length s then Some i else None.

(** ** Mentions *)

Definition is_ascii_alnum (c : N) : bool :=
  (((48 <=? c) && (c <=? 57)) || ((65 <=? c) && (c <=? 90)) || ((97 <=? c) && (c <=? 122)))%N.

Definition _is_ascii_word_char (c : N) : bool := (c =? 95)%N || is_ascii_alnum c.

Definition _is_legacy_mention_char (c : N) : bool :=
  ((c =? 95) || is_ascii_alnum c || ((19968 <=? c) && (c <=? 40959)))%N.

(** The length of the longest prefix of such characters. *)
Fixpoint legacy_run (s : pystr) : nat :=
  match s with
  | c :: r => if _is_legacy_mention_char c then S (legacy_run r) else 0
  | [] => 0
  end.

(** The mention at the front of [s], after the character [prev]: its length
    and its name. *)
Definition mention_at (prev : option N) (s : pystr) : option (nat * pystr) :=
  match s with
  | c :: r =>
      if negb (c =? c_at)%N then None
      else if match prev with Some p => _is_ascii_word_char p | None => false end then None
      else match r with
           | [] => None
           | o :: q =>
               if (o =? c_open)%N then
                 let close := distance [c_close] q in
                 if (0 <? close) && (close <? distance [13; 10]%N q) then Some (S (S (S close)), take close q) else None
               else
                 let n := legacy_run r in
                 if 0 <? n then Some (S n, take n r) else None
           end
  | [] => None
  end.

(** The scan from position [i]: [(start, end, name)] of each mention. *)
Fixpoint iter_mentions (fuel i : nat) (prev : option N) (s : pystr) : list (nat * nat * pystr) :=
  match fuel with
  | O => []
  | S f =>
      match s with
      | [] => []
      | c :: r =>
          match mention_at prev s with
          | Some (n, name) => (i, i + n, name) :: iter_mentions f (i + n) (last (take n s)) (drop n s)
          | None => iter_mentions f (S i) (Some c) r
          end
      end
  end.

(** A position is passed in every round, so the length is enough fuel. *)
Definition _iter_mentions (text : pystr) : list (nat * nat * pystr) := iter_mentions (length text) 0 None text.

(** ** Lines *)

(** The line boundaries of [str.splitlines]. *)
Definition is_line_break (c : N) : bool := bool_decide (c ∈ [10; 13; 11; 12; 28; 29; 30; 133; 8232; 8233]%N).

(** The pieces between the boundaries; a carriage return takes a following
    newline with it. *)
Fixpoint split_lines (cur : pystr) (s : pystr) : list pystr :=
  match s with
  | [] => if bool_decide (cur = []) then [] else [reverse cur]
  | c :: r =>
      if is_line_break c then
        reverse cur :: match r with
                       | d :: r' => if (c =? 13)%N && (d =? 10)%N then split_lines [] r' else split_lines [] r
                       | [] => []
                       end
      else split_lines (c :: cur) r
  end.

Definition splitlines (s : pystr) : list pystr := split_lines [] s.

(** [sep.join(lines)] with a newline. *)
Fixpoint join_lines (l : list pystr) : pystr :=
  match l with
  | [] => []
  | [x] => x
  | x :: l' => x ++ c_newline :: join_lines l'
  end.

(** [s.split] at newlines. *)
Fixpoint split_newline (s : pystr) : list pystr :=
  match s with
  | [] => [[]]
  | c :: r => if (c =? c_newline)%N then [] :: split_newline r
              else match split_newline r with l :: ls => (c :: l) :: ls | [] => [[c]] end
  end.

(** [镜头] *)
Definition shot_word : pystr := [38236; 22836]%N.

Section parser.
Context (nfc : pystr -> pystr) (is_decimal : N -> bool).
Abbreviation key := (asset_name_comparison_key nfc).

Definition _normalize_source (text : pystr) : pystr := nfc (where_ (fun c => negb (c =? _BOM)%N) text).

Fixpoint skip_decimals (s : pystr) : pystr :=
  match s with
  | c :: r => if is_decimal c then skip_decimals r else s
  | [] => []
  end.

(** [_SHOT_HEADER_RE.match]: the group after the colon. *)
Definition shot_header (line : pystr) : option pystr :=
  match line with
  | a :: b :: s0 =>
      if negb (bool_decide ([a; b] = shot_word)) then None
      else
        match lstrip s0 with
        | d :: s1 =>
            if negb (is_decimal d) then None
            else match lstrip (skip_decimals s1) with
                 | c :: rest => if bool_decide (c ∈ _SPEAKER_SEPARATORS) && negb (bool_decide (c_newline ∈ rest))
                                then Some rest else None
                 | [] => None
                 end
        | [] => None
        end
  | _ => None
  end.

Definition strip_shot_header (line : pystr) : pystr :=
  let normalized := _normalize_source line in
  match shot_header (strip normalized) with
  | Some rest => lstrip rest
  | None => normalized
  end.

Record SpeechMark := mkMark { sm_speaker : pystr; sm_text : pystr; sm_raw : pystr }.

(** A description or a mark. *)
Definition part : Type := pystr + SpeechMark.

(** [while head > cursor and text[head - 1].isspace()] *)
Fixpoint skip_back (text : pystr) (cursor head : nat) : nat :=
  match head with
  | O => O
  | S h => if (cursor <? S h) && match text !! h with Some c => is_space c | None => false end
           then skip_back text cursor h else S h
  end.

(** [head > cursor and text[head - 1] in chars] *)
Definition before_is (text : pystr) (cursor head : nat) (chars : list N) : bool :=
  (cursor <? head) && match text !! (head - 1) with Some c => bool_decide (c ∈ chars) | None => false end.

(** What the braces at [open_index] and [close_index] are: the start of the
    mark and its speaker, or no mark. *)
Definition speech_head (text : pystr) (mentions : list (nat * nat * pystr)) (cursor open_index : nat)
    : option (nat * pystr) :=
  let head0 := skip_back text cursor open_index in
  let separator_colon := before_is text cursor head0 _SPEAKER_SEPARATORS in
  let head := if separator_colon then skip_back text cursor (head0 - 1) else head0 in
  match List.find (fun m => (m.1.2 =? head) && (cursor <=? m.1.1)) mentions with
  | Some (start, _, name) => if bool_decide (key name = []) then None else Some (start, key name)
  | None =>
      if before_is text cursor head [c_close] || (separator_colon && before_is text cursor head _SPEAKER_SEPARATORS)
      then None else Some (open_index, [])
  end.

(** The loop: the parts, or [None] when the fuel runs out. *)
Fixpoint split_speech (fuel : nat) (text : pystr) (mentions : list (nat * nat * pystr)) (cursor scan : nat)
    : option (list part) :=
  let rest := if cursor <? length text then [inl (drop cursor text)] else [] in
  match fuel with
  | O => None
  | S f =>
      match find_char 123 scan text with
      | None => Some rest
      | Some open_index =>
          match find_char 125 (S open_index) text with
          | None => Some rest
          | Some close_index =>
              let inner := slice (S open_index) close_index text in
              if bool_decide (123%N ∈ inner) then split_speech f text mentions cursor (S open_index)
              else if blank_text inner then split_speech f text mentions cursor (S close_index)
              else match speech_head text mentions cursor open_index with
                   | None => split_speech f text mentions cursor (S close_index)
                   | Some (start, speaker) =>
                       (fun ps => (if cursor <? start then [inl (slice cursor start text)] else [])
                                  ++ inr (mkMark speaker inner (slice start (S close_index) text)) :: ps)
                       <$> split_speech f text mentions (S close_index) (S close_index)
                   end
          end
      end
  end.

(** Every round moves the scan beyond a brace. *)
Definition split_speech_line (line : pystr) : option (list part) :=
  let text := _normalize_source line in
  split_speech (S (length text)) text (_iter_mentions text) 0 0.

Definition is_mark (p : part) : option SpeechMark := match p with inr m => Some m | inl _ => None end.
Definition is_description (p : part) : option pystr := match p with inl d => Some d | inr _ => None end.

Definition line_speech_marks (line : pystr) : list SpeechMark := omap is_mark (default [] (split_speech_line line)).
Definition speech_line_description (parts : list part) : pystr := concat (omap is_description parts).
Definition strip_speech_marks (line : pystr) : pystr :=
  speech_line_description (default [] (split_speech_line line)).

Definition leading_mention_before_colon (line : pystr) : option pystr :=
  let stripped := strip (_normalize_source line) in
  match _iter_mentions stripped with
  | (0, end_, name) :: _ =>
      match lstrip (drop end_ stripped) with
      | c :: _ => if bool_decide (c ∈ _SPEAKER_SEPARATORS) then Some (key name) else None
      | [] => None
      end
  | _ => None
  end.

(** The full-width at sign, or an at sign before a full-width bracket. *)
Definition wide_token (s : pystr) : bool :=
  match s with
  | c :: r => (c =? 65312)%N || ((c =? c_at)%N && match r with d :: _ => (d =? 65339)%N | [] => false end)
  | [] => false
  end.

Definition bad_token (text : pystr) (starts : list nat) (i : nat) : bool :=
  match text !! i, text !! S i with
  | Some a, Some b =>
      (a =? c_at)%N && (b =? c_open)%N && negb (bool_decide (i ∈ starts))
      && negb ((0 <? i) && match text !! (i - 1) with Some p => _is_ascii_word_char p | None => false end)
  | _, _ => false
  end.

Definition find_malformed_mention (line : pystr) : option pystr :=
  let text := _normalize_source line in
  match List.find (fun i => wide_token (drop i text)) (seq 0 (length text)) with
  | Some i => Some (slice i (i + 20) text)
  | None =>
      let starts := map (fun m => m.1.1) (_iter_mentions text) in
      (fun i => slice i (i + 20) text) <$> List.find (bad_token text starts) (seq 0 (length text - 1))
  end.

(** ** Prompts *)

(** The names outside speech, in the order of their first appearance. *)
Definition extract_mentions (text : pystr) : list pystr :=
  foldl (fun acc name => if bool_decide (name ∈ acc) then acc else acc ++ [name]) []
    (flat_map (fun raw => map (fun m => key m.2) (_iter_mentions (strip_speech_marks (strip_shot_header raw))))
       (splitlines text)).

(** The loop of [parse_prompt]: finished segments, whether a header was
    seen, and the lines of the current segment. *)
Fixpoint parse_lines (lines : list pystr) (segments : list pystr) (started : bool) (buf : list pystr) : list pystr :=
  match lines with
  | [] => if started then segments ++ [strip (join_lines buf)] else segments
  | line :: rest =>
      match shot_header (strip line) with
      | Some g =>
          let header_rest := lstrip g in
          if started then parse_lines rest (segments ++ [strip (join_lines buf)]) true [header_rest]
          else let pre := strip (join_lines buf) in
               parse_lines rest segments true (if bool_decide (pre = []) then [header_rest] else [pre; header_rest])
      | None => parse_lines rest segments started (buf ++ [line])
      end
  end.

Definition parse_prompt (text : pystr) : list pystr * list pystr :=
  let text := _normalize_source text in
  match parse_lines (splitlines text) [] false [] with
  | [] => ([strip text], extract_mentions text)
  | segments => (segments, extract_mentions text)
  end.

Definition shot_mark (index : nat) : pystr := shot_word ++ dumps_nat (N.of_nat index) ++ [65306%N].

(** [body.partition] at the first newline. *)
Definition partition_newline (body : pystr) : pystr * pystr :=
  let n := distance [c_newline] body in (take n body, drop (S n) body).

Definition render_block (index : nat) (body : pystr) : pystr :=
  let '(head, rest) := partition_newline body in
  shot_mark index ++ head ++ (if bool_decide (rest = []) then [] else c_newline :: rest).

(** The text of a shot, an object or anything else. *)
Definition shot_body (shot : json) : pystr :=
  match shot with JObj d => match dict_get (u "text") d with Some (JStr t) => t | _ => [] end | _ => [] end.

Definition render_shots_text (shots : list json) : pystr :=
  join_lines (imap (fun i shot => render_block (S i) (shot_body shot)) shots).

Definition assemble_shots_text (shots : list json) : pystr :=
  join_lines (omap (fun s => match s with JObj _ => Some (shot_body s) | _ => None end) shots).

Definition assemble_shots_text_for_render (shots : list json) : pystr :=
  join_lines (omap id (imap (fun i s =>
    match s with
    | JObj _ =>
        match split_newline (shot_body s) with
        | l :: ls => Some (shot_mark (S i) ++ join_lines (strip_shot_header l :: ls))
        | [] => None
        end
    | _ => None
    end) shots)).

(** ** Rewriting *)

(** The loop shared by the two rewriters: the mentions for which [f] gives a
    text are replaced by it. *)
Fixpoint rewrite_loop (f : nat * nat * pystr -> option pystr) (text : pystr) (last : nat)
    (ms : list (nat * nat * pystr)) : pystr :=
  match ms with
  | [] => drop last text
  | m :: ms' =>
      match f m with
      | Some r => slice last m.1.1 text ++ r ++ rewrite_loop f text m.1.2 ms'
      | None => rewrite_loop f text last ms'
      end
  end.

Definition wrapped (name : pystr) : pystr := [c_at; c_open] ++ name ++ [c_close].

Definition rename_piece (text target new_name : pystr) (m : nat * nat * pystr) : option pystr :=
  if negb (bool_decide (key m.2 = target)) || bool_decide (slice m.1.1 m.1.2 text = wrapped new_name)
  then None else Some (wrapped new_name).

Definition rewrite_mentions (text old_name new_name : pystr) : pystr * nat :=
  let f := rename_piece text (key old_name) new_name in
  let count := length (omap f (_iter_mentions text)) in
  if count =? 0 then (text, 0) else (rewrite_loop f text 0 (_iter_mentions text), count).

Definition subject_piece (text : pystr) (names : list pystr) (m : nat * nat * pystr) : pystr :=
  if bool_decide (key m.2 ∈ map (fun n => key n) names) then [60%N] ++ key m.2 ++ [62%N] else slice m.1.1 m.1.2 text.

Definition render_mentions_as_subjects (text : pystr) (names : list pystr) : pystr :=
  let text := _normalize_source text in
  rewrite_loop (fun m => Some (subject_piece text names m)) text 0 (_iter_mentions text).

(** ** References *)

Definition reference_buckets (project : dict) : list (string * dict) :=
  map (fun ty => (ty, normalize_asset_bucket nfc (dict_get (u (default "" (aget ty BUCKET_KEY))) project)))
    ["product"; "character"; "scene"; "prop"].

Fixpoint resolve_names (buckets : list (string * dict)) (names seen : list pystr)
    : list (string * pystr) * list pystr :=
  match names with
  | [] => ([], [])
  | raw :: rest =>
      let name := key raw in
      if bool_decide (name ∈ seen) then resolve_names buckets rest seen
      else
        let '(refs, missing) := resolve_names buckets rest (name :: seen) in
        match List.find (fun b => bool_decide (is_Some (dict_get name b.2))) buckets with
        | Some b => ((b.1, name) :: refs, missing)
        | None => (refs, name :: missing)
        end
  end.

Definition resolve_references (names : list pystr) (project : dict) : list (string * pystr) * list pystr :=
  resolve_names (reference_buckets project) names [].

Definition derive_references_from_text (text : pystr) (project : dict) : list (string * pystr) * list pystr :=
  resolve_references (extract_mentions text) project.

(** [for s in (unit.get("shots") or [])]: the objects met; a number cannot be
    iterated over. *)
Definition iter_objects (float_true : pystr -> bool) (v : option json) : result (list dict) :=
  if negb (py_bool float_true v) then Ok []
  else match v with
       | Some (JArr l) => Ok (omap (fun s => match s with JObj d => Some d | _ => None end) l)
       | Some (JObj _) | Some (JStr _) => Ok []
       | _ => Raise TypeError
       end.

(** [str(s.get("text") or "")] *)
Definition text_of (float_true : pystr -> bool) (py_repr : json -> pystr) (d : dict) : pystr :=
  let v := dict_get (u "text") d in
  if py_bool float_true v then py_str py_repr (default JNull v) else [].

Definition rederive_unit (float_true : pystr -> bool) (py_repr : json -> pystr) (project : dict) (unit : json) : result json :=
  match unit with
  | JObj d =>
      let! shots := iter_objects float_true (dict_get (u "shots") d) in
      let text := join_lines (map (text_of float_true py_repr) shots) in
      Ok (JObj (dict_set (u "references")
        (JArr (map (fun r => JObj [(u "type", JStr (u r.1)); (u "name", JStr r.2)])
                   (derive_references_from_text text project).1)) d))
  | _ => Ok unit
  end.

Fixpoint rederive_unit_references (float_true : pystr -> bool) (py_repr : json -> pystr) (units : list json) (project : dict)
    : result (list json) :=
  match units with
  | [] => Ok []
  | x :: rest =>
      let! x' := rederive_unit float_true py_repr project x in
      let! rest' := rederive_unit_references float_true py_repr rest project in
      Ok (x' :: rest')
  end.

Definition missing_registered_references (references : json) (project : dict) : list pystr :=
  match references with
  | JArr l =>
      omap (fun ref => match ref with
        | JObj d =>
            match dict_get (u "type") d, dict_get (u "name") d with
            | Some (JStr ty), Some (JStr name) =>
                match List.find (fun kv => bool_decide (u kv.1 = ty)) BUCKET_KEY with
                | Some kv =>
                    if bool_decide (is_Some (dict_get (key name)
                         (normalize_asset_bucket nfc (dict_get (u kv.2) project)))) then None
                    else Some (ty ++ [58%N] ++ name)
                | None => None
                end
            | _, _ => None
            end
        | _ => None
        end) l
  | _ => []
  end.
End parser.

(** ** Lemmas *)

(** *** Scanning *)

(** The table holds what a scan from the position would find. *)
Lemma next_positions_spec text targets i :
  i <= length text -> _next_positions text targets !! i = Some (i + distance targets (drop i text)).
Proof.
  unfold _next_positions. intros Hi.
  assert (forall s j k, k <= length s -> next_positions targets j s !! k = Some (j + k + distance targets (drop k s))) as H.
  { induction s as [|c s IH]; intros j k Hk; simpl in Hk.
    - replace k with 0 by lia. simpl. f_equal. lia.
    - cbn [next_positions]. destruct k as [|k].
      + cbn [lookup list_lookup drop distance].
        destruct (next_positions targets (S j) s) eqn:E; [by destruct s|]. simpl.
        pose proof (IH (S j) 0 ltac:(lia)) as H0. rewrite E in H0. simpl in H0. injection H0 as ->. rewrite drop_0.
        case_bool_decide; f_equal; lia.
      + cbn [lookup list_lookup drop]. rewrite IH by lia. f_equal. lia. }
  by rewrite H.
Qed.

Lemma distance_le targets s : distance targets s <= length s.
Proof. induction s; simpl; [done|]. case_bool_decide; lia. Qed.

(** A target not in the front of a text is found after it. *)
Lemma distance_app targets a b :
  Forall (fun c => c ∉ targets) a -> distance targets (a ++ b) = length a + distance targets b.
Proof.
  induction 1 as [|c a Hc Ha IH]; simpl; [done|]. rewrite bool_decide_eq_false_2 by done. by rewrite IH.
Qed.

Lemma take_distance targets s : Forall (fun c => c ∉ targets) (take (distance targets s) s).
Proof. induction s as [|c s IH]; simpl; [constructor|]. case_bool_decide; simpl; by constructor. Qed.

Lemma drop_distance targets s c :
  drop (distance targets s) s = c :: drop (S (distance targets s)) s -> c ∈ targets.
Proof.
  induction s as [|d s IH]; simpl; [done|]. case_bool_decide as E; simpl; [by intros [= ->]|]. apply IH.
Qed.

Lemma legacy_run_spec s :
  legacy_run s <= length s /\ Forall (fun c => _is_legacy_mention_char c = true) (take (legacy_run s) s)
  /\ match drop (legacy_run s) s with c :: _ => _is_legacy_mention_char c = false | [] => True end.
Proof.
  induction s as [|c s (H1 & H2 & H3)]; simpl; [done|]. destruct (_is_legacy_mention_char c) eqn:E; simpl.
  - split; [lia|]. split; [by constructor|done].
  - split; [lia|]. by rewrite E.
Qed.

Lemma legacy_run_app a b :
  Forall (fun c => _is_legacy_mention_char c = true) a ->
  match b with c :: _ => _is_legacy_mention_char c = false | [] => True end -> legacy_run (a ++ b) = length a.
Proof.
  intros Ha Hb. induction Ha as [|c a Hc Ha IH]; simpl; [destruct b; simpl; by rewrite ?Hb|]. by rewrite Hc, IH.
Qed.

(** A name that can stand between the brackets. *)
Definition nameable (name : pystr) : Prop := name <> [] /\ Forall (fun c => c ∉ [c_close; 13; 10]%N) name.

(** The two forms of a mention. *)
Definition bare (name : pystr) : pystr := c_at :: name.

Definition word_before (prev : option N) : bool := match prev with Some p => _is_ascii_word_char p | None => false end.

Definition legacy_name (name : pystr) : Prop :=
  name <> [] /\ Forall (fun c => _is_legacy_mention_char c = true) name.

Definition no_legacy_front (s : pystr) : Prop :=
  match s with c :: _ => _is_legacy_mention_char c = false | [] => True end.

Lemma mention_at_wrapped prev name rest :
  word_before prev = false -> nameable name ->
  mention_at prev (wrapped name ++ rest) = Some (length (wrapped name), name).
Proof.
  intros Hp [Hne Hn]. unfold wrapped. cbn [app mention_at]. unfold word_before in Hp. rewrite Hp.
  change (c_at =? c_at)%N with true. change (c_open =? c_open)%N with true. cbn [negb].
  rewrite <- app_assoc. cbn [app].
  rewrite distance_app by (eapply Forall_impl; [exact Hn|]; set_solver).
  rewrite (distance_app [13; 10]%N) by (eapply Forall_impl; [exact Hn|]; set_solver).
  cbn [distance]. rewrite (bool_decide_eq_true_2 (c_close ∈ [c_close])) by left.
  rewrite (bool_decide_eq_false_2 (c_close ∈ [13; 10]%N)) by (unfold c_close; set_solver).
  rewrite Nat.add_0_r. destruct name as [|x name]; [done|].
  rewrite (proj2 (Nat.ltb_lt 0 _)) by (simpl; lia). rewrite (proj2 (Nat.ltb_lt _ _)) by lia. cbn [andb].
  rewrite take_app_length. f_equal. f_equal. simpl. rewrite length_app. simpl. lia.
Qed.

Lemma mention_at_bare prev name rest :
  word_before prev = false -> legacy_name name -> no_legacy_front rest ->
  mention_at prev (bare name ++ rest) = Some (length (bare name), name).
Proof.
  intros Hp [Hne Hn] Hr. unfold bare. cbn [app mention_at]. unfold word_before in Hp. rewrite Hp.
  change (c_at =? c_at)%N with true. cbn [negb]. destruct name as [|x name]; [done|]. cbn [app].
  assert ((x =? c_open)%N = false) as ->.
  { inversion Hn as [|? ? Hx _]; subst. destruct (N.eqb_spec x c_open) as [->|]; done. }
  change (x :: name ++ rest) with ((x :: name) ++ rest). rewrite (legacy_run_app _ _ Hn Hr), take_app_length. done.
Qed.

Lemma mention_at_inv prev s n name :
  mention_at prev s = Some (n, name) ->
  word_before prev = false /\ exists rest,
    (nameable name /\ s = wrapped name ++ rest /\ n = length (wrapped name))
    \/ (legacy_name name /\ no_legacy_front rest /\ s = bare name ++ rest /\ n = length (bare name)).
Proof.
  destruct s as [|c r]; simpl; [done|]. destruct (N.eqb_spec c c_at) as [->|]; [|done]. cbn [negb].
  destruct (match prev with Some p => _ | None => _ end) eqn:Hp; [done|]. destruct r as [|o q]; [done|].
  destruct (N.eqb_spec o c_open) as [->|Ho].
  - set (k := distance [c_close] q). destruct ((0 <? k) && (k <? distance [13; 10]%N q)) eqn:E; [|done].
    intros [= <- <-]. split; [done|]. apply andb_true_iff in E as [E1%Nat.ltb_lt E2%Nat.ltb_lt].
    assert (k < length q) as Hk by (pose proof (distance_le [13; 10]%N q); lia).
    exists (drop (S k) q). left. destruct (lookup_lt_is_Some_2 q k Hk) as [x Hx].
    assert (drop k q = x :: drop (S k) q) as Hd by (by apply drop_S).
    assert (x = c_close) as -> by (apply (drop_distance [c_close] q x) in Hd; set_solver).
    split; [split|split].
    + intros H. apply (f_equal length) in H. rewrite length_take in H. simpl in H. lia.
    + pose proof (take_distance [c_close] q) as H1. pose proof (take_distance [13; 10]%N q) as H2. fold k in H1.
      assert (take k q = take k (take (distance [13; 10]%N q) q)) as Ht by (rewrite take_take; f_equal; lia).
      apply Forall_forall. intros y Hy. rewrite Forall_forall in H1, H2. specialize (H1 y Hy).
      rewrite Ht in Hy. apply elem_of_take in Hy as (i & Hi & _). apply list_elem_of_lookup_2, H2 in Hi. set_solver.
    + unfold wrapped. cbn [app]. rewrite <- app_assoc. cbn [app]. rewrite <- Hd, take_drop. done.
    + unfold wrapped. rewrite !length_app, length_take. simpl. lia.
  - destruct (legacy_run_spec (o :: q)) as (H1 & H2 & H3). set (k := legacy_run (o :: q)) in *.
    destruct (0 <? k) eqn:E; [|done]. apply Nat.ltb_lt in E. intros [= <- <-]. split; [done|].
    exists (drop k (o :: q)). right. split; [split; [|done]|].
    + intros H. apply (f_equal length) in H. rewrite length_take in H. simpl in *. lia.
    + split; [done|]. unfold bare. cbn [app length]. rewrite take_drop, length_take, min_l by done. done.
Qed.

(** A mention is at least two characters of the text. *)
Lemma mention_at_length prev s n name : mention_at prev s = Some (n, name) -> 2 <= n <= length s.
Proof.
  intros (_ & rest & [([Hne _] & -> & ->)|([Hne _] & _ & -> & ->)])%mention_at_inv;
    unfold wrapped, bare; rewrite !length_app; destruct name; simpl; try done; lia.
Qed.

(** *** Rewriting *)

(** The mentions of a scan with their text, and the text with each mention
    replaced by what [g] makes of its text and its name. *)
Fixpoint scan_mentions (fuel : nat) (prev : option N) (s : pystr) : list (pystr * pystr) :=
  match fuel, s with
  | S f, c :: r =>
      match mention_at prev s with
      | Some (n, name) => (take n s, name) :: scan_mentions f (last (take n s)) (drop n s)
      | None => scan_mentions f (Some c) r
      end
  | _, _ => []
  end.

Fixpoint rewritten (g : pystr -> pystr -> pystr) (fuel : nat) (prev : option N) (s : pystr) : pystr :=
  match fuel, s with
  | S f, c :: r =>
      match mention_at prev s with
      | Some (n, name) => g (take n s) name ++ rewritten g f (last (take n s)) (drop n s)
      | None => c :: rewritten g f (Some c) r
      end
  | _, _ => []
  end.

Lemma slice_slice a b c s : a <= b <= c -> slice a b s ++ slice b c s = slice a c s.
Proof.
  intros H. unfold slice. replace (drop b s) with (drop (b - a) (drop a s)) by (rewrite drop_drop; f_equal; lia).
  replace (c - a) with ((b - a) + (c - b)) by lia. apply take_take_drop.
Qed.

Lemma slice_drop a b s : a <= b -> slice a b s ++ drop b s = drop a s.
Proof.
  intros H. unfold slice. replace (drop b s) with (drop (b - a) (drop a s)) by (rewrite drop_drop; f_equal; lia).
  apply take_drop.
Qed.

Lemma slice_nil a s : slice a a s = [].
Proof. unfold slice. by rewrite Nat.sub_diag. Qed.

Lemma slice_snoc a i s c : a <= i -> s !! i = Some c -> slice a (S i) s = slice a i s ++ [c].
Proof.
  intros Ha Hc. rewrite <- (slice_slice a i (S i)) by lia. f_equal. unfold slice.
  replace (S i - i) with 1 by lia. rewrite (drop_S _ _ _ Hc). done.
Qed.

(** Where a scan is. *)
Lemma drop_cons {A} (l : list A) i c r : drop i l = c :: r -> l !! i = Some c /\ drop (S i) l = r /\ i < length l.
Proof.
  intros H. assert (l !! i = Some c) as Hc. { rewrite <- (Nat.add_0_r i), <- lookup_drop, H. done. }
  split; [done|]. split; [|by apply lookup_lt_Some in Hc]. rewrite (drop_S _ _ _ Hc) in H. by injection H.
Qed.

Lemma scan_positions text fuel i prev :
  map (fun m => (slice m.1.1 m.1.2 text, m.2)) (iter_mentions fuel i prev (drop i text))
  = scan_mentions fuel prev (drop i text).
Proof.
  revert i prev. induction fuel as [|f IH]; intros i prev; [done|]. cbn [iter_mentions scan_mentions].
  destruct (drop i text) as [|c r] eqn:Ed; [done|]. destruct (mention_at prev (c :: r)) as [[n name]|].
  - cbn [map fst snd]. rewrite <- Ed. unfold slice at 1. replace (i + n - i) with n by lia. f_equal.
    rewrite drop_drop. apply IH.
  - apply drop_cons in Ed as (_ & <- & _). apply IH.
Qed.

Lemma rewrite_loop_spec f g text :
  (forall m, default (slice m.1.1 m.1.2 text) (f m) = g (slice m.1.1 m.1.2 text) m.2) ->
  forall fuel i prev a, a <= i -> length text - i <= fuel ->
  rewrite_loop f text a (iter_mentions fuel i prev (drop i text)) = slice a i text ++ rewritten g fuel prev (drop i text).
Proof.
  intros Hfg. induction fuel as [|fuel IH]; intros i prev a Ha Hf; cbn [iter_mentions rewritten].
  { cbn [rewrite_loop]. rewrite app_nil_r. rewrite <- (slice_drop a i text Ha), (drop_ge text i) by lia.
    by rewrite app_nil_r. }
  destruct (drop i text) as [|c r] eqn:Ed.
  { cbn [rewrite_loop]. rewrite <- (slice_drop a i text Ha), Ed. done. }
  destruct (mention_at prev (c :: r)) as [[n name]|] eqn:Em.
  - pose proof (mention_at_length _ _ _ _ Em) as Hn. rewrite <- Ed in *. rewrite drop_drop.
    cbn [rewrite_loop fst snd]. specialize (Hfg (i, i + n, name)). cbn [fst snd] in Hfg.
    assert (slice i (i + n) text = take n (drop i text)) as Hs by (unfold slice; by replace (i + n - i) with n by lia).
    rewrite Hs in Hfg. destruct (f (i, i + n, name)) as [x|]; cbn [default] in Hfg; rewrite <- Hfg.
    + rewrite IH by lia. by rewrite slice_nil.
    + rewrite IH by lia. rewrite <- (slice_slice a i (i + n)) by lia. by rewrite Hs, <- app_assoc.
  - apply drop_cons in Ed as (Hc & <- & Hl). rewrite IH by lia. rewrite (slice_snoc a i text c) by done.
    by rewrite <- app_assoc.
Qed.

(** The rewriters replace mentions and leave every other character. *)
Lemma rewrite_loop_mentions f g text :
  (forall m, default (slice m.1.1 m.1.2 text) (f m) = g (slice m.1.1 m.1.2 text) m.2) ->
  rewrite_loop f text 0 (_iter_mentions text) = rewritten g (length text) None text.
Proof.
  intros H. pose proof (rewrite_loop_spec f g text H (length text) 0 None 0) as Hr. rewrite drop_0, slice_nil in Hr.
  apply Hr; lia.
Qed.

(** Enough fuel is enough. *)
Lemma scan_fuel f1 f2 prev s : length s <= f1 -> length s <= f2 -> scan_mentions f1 prev s = scan_mentions f2 prev s.
Proof.
  revert f2 prev s. induction f1 as [|f1 IH]; intros [|f2] prev [|c r] H1 H2; simpl in H1, H2; try done; try lia.
  cbn [scan_mentions]. destruct (mention_at prev (c :: r)) as [[n name]|] eqn:E; [|apply IH; lia].
  f_equal. apply mention_at_length in E. apply IH; rewrite length_drop; simpl in *; lia.
Qed.

(** *** Renaming *)

(** Of a closing bracket and a line break, the bracket comes first. *)
Definition closes_first (s : pystr) : bool := distance [c_close] s <? distance [13; 10]%N s.

Lemma closes_first_app raw a b : closes_first a = closes_first b -> closes_first (raw ++ a) = closes_first (raw ++ b).
Proof.
  intros H. induction raw as [|c raw IH]; [done|]. unfold closes_first in *. cbn [app distance].
  repeat case_bool_decide; try done.
Qed.

Lemma closes_first_wrapped name a : nameable name -> closes_first (wrapped name ++ a) = true.
Proof.
  intros [_ Hn]. unfold closes_first, wrapped. rewrite <- !app_assoc. cbn [app].
  assert (Forall (fun c => c ∉ [c_close; 13; 10]%N) (c_at :: c_open :: name)) as Hn'.
  { constructor; [unfold c_at, c_close; set_solver|]. constructor; [unfold c_open, c_close; set_solver|done]. }
  change (c_at :: c_open :: name ++ c_close :: a) with ((c_at :: c_open :: name) ++ c_close :: a).
  rewrite distance_app by (eapply Forall_impl; [exact Hn'|]; set_solver).
  rewrite (distance_app [13; 10]%N) by (eapply Forall_impl; [exact Hn'|]; set_solver).
  cbn [distance]. rewrite (bool_decide_eq_true_2 (c_close ∈ [c_close])) by left.
  rewrite (bool_decide_eq_false_2 (c_close ∈ [13; 10]%N)) by (unfold c_close; set_solver). apply Nat.ltb_lt. lia.
Qed.

Section rescan.
Context (g : pystr -> pystr -> pystr) (new : pystr).
Hypothesis new_nameable : nameable new.

(** [g] leaves a mention or replaces a wrapped one by the new name. *)
Definition tame (m : pystr * pystr) : Prop :=
  g m.1 m.2 = m.1 \/ (m.1 = wrapped m.2 /\ nameable m.2 /\ g m.1 m.2 = wrapped new).

Lemma rewritten_front fuel prev s :
  length s <= fuel -> Forall tame (scan_mentions fuel prev s) -> head (rewritten g fuel prev s) = head s.
Proof.
  destruct fuel as [|f], s as [|c r]; cbn [rewritten scan_mentions length]; try done; [lia|]. intros _.
  destruct (mention_at prev (c :: r)) as [[n name]|] eqn:E; [|intros _; done]. intros [H _]%Forall_cons.
  assert (c = c_at) as ->. { simpl in E. by destruct (N.eqb_spec c c_at) as [->|]. }
  pose proof (mention_at_length _ _ _ _ E) as Hn. destruct n as [|n]; [lia|].
  destruct H as [H|(_ & _ & H)]; cbn [fst snd] in H; rewrite H; done.
Qed.

Lemma rewritten_closes fuel prev s :
  length s <= fuel -> Forall tame (scan_mentions fuel prev s) ->
  closes_first (rewritten g fuel prev s) = closes_first s.
Proof.
  revert prev s. induction fuel as [|f IH]; intros prev [|c r] Hl; cbn [rewritten scan_mentions]; simpl in Hl; try done; [lia|].
  destruct (mention_at prev (c :: r)) as [[n name]|] eqn:E.
  - intros [H Hrest]%Forall_cons. pose proof (mention_at_length _ _ _ _ E) as Hn.
    assert (closes_first (rewritten g f (last (take n (c :: r))) (drop n (c :: r))) = closes_first (drop n (c :: r))) as IH'.
    { apply IH; [rewrite length_drop; simpl in *; lia|done]. }
    rewrite <- (take_drop n (c :: r)) at 4.
    destruct H as [H|(Hw & Hname & H)]; cbn [fst snd] in *; rewrite H.
    + by apply closes_first_app.
    + rewrite Hw. by rewrite !closes_first_wrapped.
  - intros H. apply (closes_first_app [c]), IH; [lia|done].
Qed.

(** Scanning the rewritten text finds the same mentions under their new
    names. *)
Lemma rewritten_scan fuel prev prev' s :
  length s <= fuel -> word_before prev = word_before prev' -> Forall tame (scan_mentions fuel prev s) ->
  forall fuel', length (rewritten g fuel prev s) <= fuel' ->
  scan_mentions fuel' prev' (rewritten g fuel prev s)
  = map (fun m => if decide (g m.1 m.2 = m.1) then m else (wrapped new, new)) (scan_mentions fuel prev s).
Proof.
  revert prev prev' s. induction fuel as [|f IH]; intros prev prev' s Hl Hp.
  { cbn. by intros _ []. }
  destruct s as [|c r]; [cbn; by intros _ []|]. simpl in Hl. cbn [rewritten scan_mentions].
  destruct (mention_at prev (c :: r)) as [[n name]|] eqn:E.
  - pose proof (mention_at_length _ _ _ _ E) as Hn. pose proof (mention_at_inv _ _ _ _ E) as (Hw & rest & Hshape).
    rewrite Hp in Hw. intros [H Hrest]%Forall_cons fuel' Hf. cbn [map fst snd] in *.
    set (p := last (take n (c :: r))) in *. set (s' := drop n (c :: r)) in *.
    assert (length s' <= f) as Hl' by (unfold s'; rewrite length_drop; simpl in *; lia).
    assert (forall raw p', g (take n (c :: r)) name = raw -> mention_at prev' (raw ++ rewritten g f p s') = Some (length raw, p') ->
      raw <> [] -> word_before (last raw) = word_before p ->
      scan_mentions fuel' prev' (raw ++ rewritten g f p s')
      = (raw, p') :: map (fun m => if decide (g m.1 m.2 = m.1) then m else (wrapped new, new)) (scan_mentions f p s')) as Hstep.
    { intros raw p' Hg Hm Hne Hlast. rewrite Hg, length_app in Hf. destruct fuel' as [|fuel']; [destruct raw; [done|simpl in Hf; lia]|].
      destruct raw as [|x raw]; [done|]. cbn [app scan_mentions]. change (x :: raw ++ ?t) with ((x :: raw) ++ t).
      rewrite Hm, take_app_length, drop_app_length. f_equal. apply IH; [done|by symmetry|done|]. simpl in Hf. lia. }
    destruct (decide (g (take n (c :: r)) name = take n (c :: r))) as [Hg|Hg].
    + rewrite Hg. apply Hstep; [done| | |done].
      * assert (head (rewritten g f p s') = head s') as Hh by (by apply rewritten_front).
        destruct Hshape as [(Hnm & Hs & ->)|(Hnm & Hr & Hs & ->)]; rewrite Hs, take_app_length.
        -- by apply mention_at_wrapped.
        -- apply mention_at_bare; [done|done|]. unfold s' in *. rewrite Hs, drop_app_length in Hh.
           unfold no_legacy_front in *. rewrite Hs, drop_app_length.
           destruct rest, (rewritten g f p _); simpl in Hh; try done. by injection Hh as ->.
      * intros H0. apply (f_equal length) in H0. rewrite length_take in H0. simpl in *. lia.
    + destruct H as [H|(Hraw & Hname & H)]; [done|]. cbn [fst snd] in Hraw, Hname, H. rewrite H. apply Hstep; [done| | |].
      * by apply mention_at_wrapped.
      * done.
      * unfold p. rewrite Hraw. unfold wrapped. by rewrite !app_assoc, !last_snoc.
  - intros Hrest fuel' Hf. destruct fuel' as [|fuel']; [simpl in Hf; lia|]. cbn [scan_mentions].
    assert (head (rewritten g f (Some c) r) = head r) as Hh by (apply rewritten_front; [lia|done]).
    assert (mention_at prev' (c :: rewritten g f (Some c) r) = None) as ->.
    2: { apply IH; [lia|done|done|]. simpl in Hf. lia. }
    clear Hf. revert E. cbn [mention_at]. destruct (N.eqb_spec c c_at) as [->|]; [|done]. cbn [negb].
    change (match prev with Some p => _is_ascii_word_char p | None => false end) with (word_before prev).
    change (match prev' with Some p => _is_ascii_word_char p | None => false end) with (word_before prev').
    rewrite Hp. destruct (word_before prev'); [done|].
    destruct r as [|o q]; [by destruct f|]. destruct f as [|f]; [simpl in Hl; lia|].
    destruct (rewritten g (S f) (Some c_at) (o :: q)) as [|o' q'] eqn:Er; [done|]. simpl in Hh. injection Hh as ->.
    destruct (N.eqb_spec o c_open) as [->|Ho].
    + cbn [rewritten mention_at] in Er. change (c_open =? c_at)%N with false in Er. cbn [negb] in Er. injection Er as <-.
      cbn [scan_mentions mention_at] in Hrest. change (c_open =? c_at)%N with false in Hrest. cbn [negb] in Hrest.
      assert (length q <= f) as Hq by (simpl in Hl; lia).
      pose proof (rewritten_closes f (Some c_open) q Hq Hrest) as Hc. pose proof (rewritten_front f (Some c_open) q Hq Hrest) as Hf.
      unfold closes_first in Hc. rewrite Hc. clear Hc.
      assert ((0 <? distance [c_close] (rewritten g f (Some c_open) q)) = (0 <? distance [c_close] q)) as ->; [|by destruct (_ && _)].
      destruct q as [|x q], (rewritten g f (Some c_open) _) as [|y q'']; simpl in Hf; try done. injection Hf as ->.
      simpl. by case_bool_decide.
    + simpl. by destruct (_is_legacy_mention_char o).
Qed.
End rescan.

Lemma scan_shape fuel prev s :
  Forall (fun m => (m.1 = wrapped m.2 /\ nameable m.2) \/ (m.1 = bare m.2 /\ legacy_name m.2)) (scan_mentions fuel prev s).
Proof.
  revert prev s. induction fuel as [|f IH]; intros prev [|c r]; cbn [scan_mentions]; try constructor.
  destruct (mention_at prev (c :: r)) as [[n name]|] eqn:E; [|apply IH]. constructor; [|apply IH].
  apply mention_at_inv in E as (_ & rest & [(H1 & -> & ->)|(H1 & _ & -> & ->)]); cbn [fst snd]; rewrite take_app_length; auto.
Qed.

Lemma wrapped_inj a b : wrapped a = wrapped b -> a = b.
Proof. unfold wrapped. cbn [app]. intros [= H]. by apply app_inj_tail in H as [-> _]. Qed.

(** The mentions of a text with their own text. *)
Lemma mentions_scan text :
  map (fun m => (slice m.1.1 m.1.2 text, m.2)) (_iter_mentions text) = scan_mentions (length text) None text.
Proof. pose proof (scan_positions text (length text) 0 None) as H. by rewrite drop_0 in H. Qed.

Lemma mention_names text : map snd (_iter_mentions text) = map snd (scan_mentions (length text) None text).
Proof. by rewrite <- mentions_scan, map_map. Qed.

Lemma validate_nameable nfc s n : validate_asset_name nfc (JStr s) = Ok n -> nameable n.
Proof.
  unfold validate_asset_name. cbv zeta. case_bool_decide as E0; [done|]. case_match eqn:E1; [done|].
  case_bool_decide; [done|]. case_bool_decide; [done|]. intros [= <-]. split; [done|].
  apply orb_false_iff in E1 as [E1 E3]. apply orb_false_iff in E1 as [_ E2].
  apply Forall_forall. intros c Hc Hin. apply list_elem_of_In in Hc.
  repeat (apply elem_of_cons in Hin as [-> |Hin]); [| | |by apply not_elem_of_nil in Hin].
  - apply (not_true_iff_false) in E2. apply E2, existsb_exists. exists c_close. split; [done|].
    vm_compute. reflexivity.
  - apply (not_true_iff_false) in E3. apply E3, existsb_exists. by exists 13%N.
  - apply (not_true_iff_false) in E3. apply E3, existsb_exists. by exists 10%N.
Qed.

Lemma rewrite_loop_none f text a ms : omap f ms = [] -> rewrite_loop f text a ms = drop a text.
Proof. revert a. induction ms as [|m ms IH]; intros a; simpl; [done|]. destruct (f m); [done|]. apply IH. Qed.

(** Among bracketed mentions, a rename touches those not already in the new form. *)
Lemma renamed_count nfc text target new (ms : list (nat * nat * pystr)) :
  (forall m, m ∈ ms -> asset_name_comparison_key nfc m.2 = target -> slice m.1.1 m.1.2 text = wrapped m.2) ->
  length (omap (rename_piece nfc text target new) ms)
  = length (where_ (fun m => bool_decide (asset_name_comparison_key nfc m.2 = target) && negb (bool_decide (m.2 = new))) ms).
Proof.
  induction ms as [|m ms IH]; intros Hw; [done|].
  cbn [omap list_omap List.filter]. specialize (IH ltac:(intros x Hx; apply Hw; by right)).
  unfold rename_piece at 1. destruct (decide (asset_name_comparison_key nfc m.2 = target)) as [E|E].
  - rewrite (bool_decide_eq_true_2 (asset_name_comparison_key nfc m.2 = target)) by done. cbn [negb orb andb].
    rewrite (Hw m ltac:(left) E). destruct (decide (m.2 = new)) as [->|E2].
    + rewrite !bool_decide_eq_true_2 by done. exact IH.
    + rewrite (bool_decide_eq_false_2 (m.2 = new)) by done. rewrite bool_decide_eq_false_2 by (by intros ?%wrapped_inj).
      cbn [length negb]. f_equal. exact IH.
  - rewrite (bool_decide_eq_false_2 (asset_name_comparison_key nfc m.2 = target)) by done. exact IH.
Qed.

(** The brackets make a rename exact. *)
Lemma rewrite_mentions_spec nfc text old raw new :
  validate_asset_name nfc raw = Ok new ->
  (forall m, m ∈ _iter_mentions text -> asset_name_comparison_key nfc m.2 = asset_name_comparison_key nfc old ->
     slice m.1.1 m.1.2 text = wrapped m.2) ->
  let out := rewrite_mentions nfc text old new in
  map snd (_iter_mentions out.1)
    = map (fun m => if bool_decide (asset_name_comparison_key nfc m.2 = asset_name_comparison_key nfc old) then new else m.2)
        (_iter_mentions text)
  /\ out.2 = length (where_ (fun m => bool_decide (asset_name_comparison_key nfc m.2 = asset_name_comparison_key nfc old)
                                      && negb (bool_decide (m.2 = new))) (_iter_mentions text)).
Proof.
  intros Hv Hw. set (target := asset_name_comparison_key nfc old) in *.
  assert (nameable new) as Hnew by (destruct raw; try done; by eapply validate_nameable).
  set (f := rename_piece nfc text target new).
  set (g := fun r name => if negb (bool_decide (asset_name_comparison_key nfc name = target)) || bool_decide (r = wrapped new)
                          then r else wrapped new).
  assert (forall m, default (slice m.1.1 m.1.2 text) (f m) = g (slice m.1.1 m.1.2 text) m.2) as Hfg.
  { intros m. unfold f, g, rename_piece. by case_match. }
  assert (Forall (fun m => asset_name_comparison_key nfc m.2 = target -> m.1 = wrapped m.2)
            (scan_mentions (length text) None text)) as Hscan.
  { rewrite <- mentions_scan. apply Forall_map, Forall_forall. intros m Hm. cbn. by apply Hw. }
  assert ((rewrite_mentions nfc text old new).1 = rewritten g (length text) None text) as Hout.
  { rewrite <- (rewrite_loop_mentions f g text Hfg). unfold rewrite_mentions. cbv zeta. fold target. fold f.
    destruct (Nat.eqb_spec (length (omap f (_iter_mentions text))) 0) as [E|]; [|done].
    apply nil_length_inv in E. by rewrite rewrite_loop_none. }
  cbv zeta. split.
  - rewrite Hout, mention_names, (rewritten_scan g new Hnew (length text) None None text); try done.
    + rewrite <- mentions_scan, !map_map. rewrite <- mentions_scan in Hscan. apply Forall_map in Hscan.
      apply map_ext_in. intros m Hm%list_elem_of_In. cbn [fst snd]. rewrite Forall_forall in Hscan.
      specialize (Hscan m Hm). cbn in Hscan. unfold g. case_bool_decide as E; cbn [negb orb].
      * specialize (Hscan E). rewrite Hscan. case_bool_decide as E2.
        -- apply wrapped_inj in E2 as <-. by case_decide.
        -- by case_decide.
      * by case_decide.
    + pose proof (scan_shape (length text) None text) as Hsh. apply Forall_forall. intros m Hm.
      rewrite Forall_forall in Hsh, Hscan. specialize (Hsh m Hm). specialize (Hscan m Hm). unfold tame, g.
      case_bool_decide as E; cbn [negb orb]; [|by left]. specialize (Hscan E). case_bool_decide as E2; [by left|]. right.
      destruct Hsh as [[H1 H2]|[H1 _]]; [done|]. rewrite H1 in Hscan. apply (f_equal length) in Hscan.
      unfold bare, wrapped in Hscan. rewrite !length_app in Hscan. simpl in Hscan. lia.
  - assert ((rewrite_mentions nfc text old new).2 = length (omap f (_iter_mentions text))) as ->.
    { unfold rewrite_mentions. cbv zeta. fold target. fold f. by destruct (Nat.eqb_spec (length (omap f (_iter_mentions text))) 0). }
    by apply renamed_count.
Qed.

(** C19: Renaming an asset in a text: when its mentions are written in brackets,
    which is what the editor writes, rewriting changes the name of exactly
    those mentions, finds no other mention than before, and counts those
    that were not already in the new form.  (A mention without brackets is
    not that tame: with brackets its neighbour can become a mention.) *)
Theorem rewrite_mentions_exact nfc text old raw new :
  validate_asset_name nfc raw = Ok new ->
  (forall m, m ∈ _iter_mentions text -> asset_name_comparison_key nfc m.2 = asset_name_comparison_key nfc old ->
     slice m.1.1 m.1.2 text = wrapped m.2) ->
  (let out := rewrite_mentions nfc text old new in
   map snd (_iter_mentions out.1)
     = map (fun m => if bool_decide (asset_name_comparison_key nfc m.2 = asset_name_comparison_key nfc old) then new else m.2)
         (_iter_mentions text)
   /\ out.2 = length (where_ (fun m => bool_decide (asset_name_comparison_key nfc m.2 = asset_name_comparison_key nfc old)
                                       && negb (bool_decide (m.2 = new))) (_iter_mentions text)))
  /\ map snd (_iter_mentions (u "@a@b")) = [u "a"]
  /\ map snd (_iter_mentions (rewrite_mentions id (u "@a@b") (u "a") (u "c")).1) = [u "c"; u "b"].
Proof.
  intros Hv Hw. split; [by eapply rewrite_mentions_spec|]. split; vm_compute; reflexivity.
Qed.

Lemma rewrite_mentions_exact_witness :
  rewrite_mentions id (u "@[Ann] greets @[Bob] and @[Ann]") (u "Ann") (u "Eve") = (u "@[Eve] greets @[Bob] and @[Eve]", 2)
  /\ map snd (_iter_mentions (u "@[Eve] greets @[Bob] and @[Eve]")) = [u "Eve"; u "Bob"; u "Eve"].
Proof.
  split; [vm_compute; reflexivity|].
  destruct (rewrite_mentions_exact id (u "@[Ann] greets @[Bob] and @[Ann]") (u "Ann") (JStr (u "Eve")) (u "Eve"))
    as ((H & _) & _).
  - vm_compute. reflexivity.
  - intros m Hm. vm_compute in Hm.
    repeat (apply elem_of_cons in Hm as [-> |Hm]; [vm_compute; done|]). by apply not_elem_of_nil in Hm.
  - vm_compute in H |- *. exact H.
Defined.

(** A front without an at sign has no mention. *)
Lemma scan_plain p fuel i prev s :
  c_at ∉ p -> iter_mentions (length p + fuel) i prev (p ++ s)
  = iter_mentions fuel (i + length p) (match last p with Some c => Some c | None => prev end) s.
Proof.
  revert i prev. induction p as [|c p IH]; intros i prev Hp; [by rewrite Nat.add_0_r|].
  apply not_elem_of_cons in Hp as [Hc Hp]. cbn [length app Nat.add iter_mentions].
  assert (mention_at prev (c :: p ++ s) = None) as ->.
  { cbn [mention_at]. by destruct (N.eqb_spec c c_at) as [->|]. }
  rewrite IH by done. replace (S i + length p) with (i + S (length p)) by lia. f_equal.
  destruct p as [|d p]; [done|]. rewrite (last_cons c). by destruct (last (d :: p)).
Qed.

(** Every name an asset can be registered under can be written as a
    mention and is read back unchanged, after any text without an at sign
    that does not end in a word character, and whatever follows. *)
Theorem asset_name_mentionable nfc raw n p q :
  validate_asset_name nfc raw = Ok n -> c_at ∉ p -> word_before (last p) = false ->
  head (_iter_mentions (p ++ wrapped n ++ q)) = Some (length p, length p + length (wrapped n), n).
Proof.
  intros Hv Hp Hw. assert (nameable n) as Hn by (destruct raw; try done; by eapply validate_nameable).
  unfold _iter_mentions. rewrite length_app, scan_plain by done.
  assert (length (wrapped n ++ q) = S (length n + 2 + length q)) as ->.
  { rewrite length_app. unfold wrapped. rewrite !length_app. simpl. lia. }
  set (prev := match last p with Some c => Some c | None => None end).
  assert (word_before prev = false) as Hprev by (unfold prev; by destruct (last p)).
  change (wrapped n ++ q) with (c_at :: (c_open :: n ++ [c_close]) ++ q). cbn [iter_mentions].
  change (c_at :: (c_open :: n ++ [c_close]) ++ q) with (wrapped n ++ q). by rewrite mention_at_wrapped.
Qed.

Lemma asset_name_mentionable_witness :
  head (_iter_mentions (u "see " ++ wrapped (u "a b@[c.d") ++ u "]x")) = Some (4, 4 + length (wrapped (u "a b@[c.d")), u "a b@[c.d").
Proof.
  apply (asset_name_mentionable id (JStr (u " a b@[c.d")) (u "a b@[c.d") (u "see ") (u "]x")).
  - vm_compute. reflexivity.
  - apply (bool_decide_unpack _). vm_compute. exact I.
  - reflexivity.
Defined.

(** *** Speech *)

Lemma find_char_spec c start s i :
  find_char c start s = Some i ->
  start <= i < length s /\ s !! i = Some c /\ Forall (fun x => x <> c) (slice start i s).
Proof.
  unfold find_char. destruct (Nat.ltb_spec (start + distance [c] (drop start s)) (length s)) as [Hl|]; [|done].
  intros [= <-]. set (k := distance [c] (drop start s)) in *. split; [lia|].
  destruct (lookup_lt_is_Some_2 s (start + k) Hl) as [x Hx]. split.
  - rewrite Hx. f_equal. assert (drop k (drop start s) = x :: drop (S k) (drop start s)) as Hd.
    { apply drop_S. by rewrite lookup_drop. }
    apply (drop_distance [c] (drop start s) x) in Hd. set_solver.
  - unfold slice. replace (start + k - start) with k by lia. pose proof (take_distance [c] (drop start s)) as H. fold k in H.
    eapply Forall_impl; [exact H|]. set_solver.
Qed.

Lemma skip_back_le text cursor head : skip_back text cursor head <= head.
Proof. induction head as [|h IH]; simpl; [done|]. case_match; lia. Qed.

(** The positions of a scan lie in the text. *)
Lemma iter_positions fuel i prev s :
  Forall (fun m => i <= m.1.1 < m.1.2 /\ m.1.2 <= i + length s) (iter_mentions fuel i prev s).
Proof.
  revert i prev s. induction fuel as [|f IH]; intros i prev s; cbn [iter_mentions]; [constructor|].
  destruct s as [|c r]; [constructor|]. destruct (mention_at prev (c :: r)) as [[n name]|] eqn:E.
  - apply mention_at_length in E. constructor; [cbn [fst snd]; lia|]. eapply Forall_impl; [apply IH|].
    intros m. cbv beta. rewrite length_drop. lia.
  - eapply Forall_impl; [apply IH|]. intros m. cbv beta. simpl. lia.
Qed.

Section speech.
Context (nfc : pystr -> pystr).

Definition part_raw (p : part) : pystr := match p with inl d => d | inr m => sm_raw m end.

(** A description is not empty; a mark ends in its words between braces, and
    they are not blank and hold no brace; without a speaker it is nothing
    else, with one it begins with the mention of that speaker. *)
Definition part_ok (text : pystr) (mentions : list (nat * nat * pystr)) (p : part) : Prop :=
  match p with
  | inl d => d <> []
  | inr m =>
      blank_text (sm_text m) = false /\ Forall (fun c => c <> 123%N /\ c <> 125%N) (sm_text m)
      /\ exists front, sm_raw m = front ++ 123%N :: sm_text m ++ [125%N]
         /\ ((sm_speaker m = [] /\ front = [])
             \/ (sm_speaker m <> [] /\ exists mn sep, mn ∈ mentions /\ sm_speaker m = asset_name_comparison_key nfc mn.2
                 /\ front = slice mn.1.1 mn.1.2 text ++ sep))
  end.

Lemma speech_head_spec text mentions cursor open_index start speaker :
  Forall (fun m => m.1.1 < m.1.2) mentions -> cursor <= open_index ->
  speech_head nfc text mentions cursor open_index = Some (start, speaker) ->
  cursor <= start <= open_index
  /\ ((speaker = [] /\ start = open_index)
      \/ (speaker <> [] /\ exists mn, mn ∈ mentions /\ speaker = asset_name_comparison_key nfc mn.2
            /\ mn.1.1 = start /\ start <= mn.1.2 <= open_index)).
Proof.
  intros Hm Hc. unfold speech_head. cbv zeta.
  set (head0 := skip_back text cursor open_index). set (sep := before_is text cursor head0 _SPEAKER_SEPARATORS).
  set (head := if sep then skip_back text cursor (head0 - 1) else head0).
  assert (head <= open_index) as Hh.
  { pose proof (skip_back_le text cursor open_index). pose proof (skip_back_le text cursor (head0 - 1)).
    unfold head, head0 in *. destruct sep; lia. }
  destruct (List.find _ mentions) as [[[a b] name]|] eqn:Ef.
  - apply find_Some_elem in Ef as [Hin Hb]. apply andb_true_iff in Hb as [Hb1%Nat.eqb_eq Hb2%Nat.leb_le].
    cbn [fst snd] in Hb1, Hb2. case_bool_decide as E; [done|]. intros [= <- <-].
    rewrite Forall_forall in Hm. specialize (Hm _ Hin). cbn [fst snd] in Hm. split; [lia|]. right. split; [done|].
    exists (a, b, name). cbn [fst snd]. split; [done|]. split; [done|]. split; [done|]. lia.
  - case_match; [done|]. intros [= <- <-]. split; [lia|]. by left.
Qed.

Lemma split_speech_spec text mentions fuel cursor scan :
  Forall (fun m => m.1.1 < m.1.2) mentions -> cursor <= scan <= length text -> length text < scan + fuel ->
  exists parts, split_speech nfc fuel text mentions cursor scan = Some parts
    /\ concat (map part_raw parts) = drop cursor text /\ Forall (part_ok text mentions) parts.
Proof.
  intros Hm. revert cursor scan. induction fuel as [|f IH]; intros cursor scan Hcs Hf; [lia|]. cbn [split_speech].
  assert (exists parts, Some (if cursor <? length text then [inl (drop cursor text)] else []) = Some parts
    /\ concat (map part_raw parts) = drop cursor text /\ Forall (part_ok text mentions) parts) as Hrest.
  { eexists. split; [done|]. destruct (Nat.ltb_spec cursor (length text)) as [Hl|Hl]; cbn [map part_raw concat].
    - rewrite app_nil_r. split; [done|]. constructor; [|constructor]. simpl. intros H. apply (f_equal length) in H.
      rewrite length_drop in H. simpl in H. lia.
    - rewrite drop_ge by lia. by split. }
  destruct (find_char 123 scan text) as [oi|] eqn:Eo; [|exact Hrest].
  destruct (find_char 125 (S oi) text) as [ci|] eqn:Ec; [|exact Hrest]. clear Hrest.
  apply find_char_spec in Eo as (Ho & Hoc & _), Ec as (Hci & Hcc & Hno).
  case_bool_decide as Eb; [apply IH; lia|]. destruct (blank_text _) eqn:Ebl; [apply IH; lia|].
  destruct (speech_head _ _ _ _ _) as [[start speaker]|] eqn:Eh; [|apply IH; lia].
  apply speech_head_spec in Eh as (Hs & Hsp); [|done|lia].
  destruct (IH (S ci) (S ci)) as (ps & -> & Hcat & Hok); [lia|lia|]. cbn [fmap option_fmap option_map].
  eexists. split; [reflexivity|]. cbv beta. set (inner := slice (S oi) ci text) in *.
  assert (slice start (S ci) text = slice start oi text ++ 123%N :: inner ++ [125%N]) as Hraw.
  { rewrite <- (slice_slice start oi (S ci)) by lia. f_equal. rewrite <- (slice_slice oi (S oi) (S ci)) by lia.
    rewrite (slice_snoc oi oi text 123%N) by done. rewrite slice_nil. cbn [app]. f_equal.
    rewrite (slice_snoc (S oi) ci text 125%N) by (done || lia). done. }
  assert (part_ok text mentions (inr (mkMark speaker inner (slice start (S ci) text)))) as Hmark.
  { cbn [part_ok sm_text sm_raw sm_speaker]. split; [done|]. split.
    - apply Forall_forall. intros c Hc. split; [by intros ->|]. rewrite Forall_forall in Hno. by apply Hno.
    - exists (slice start oi text). split; [exact Hraw|]. destruct Hsp as [[-> ->]|(Hne & mn & H1 & H2 & <- & H3)].
      + left. by rewrite slice_nil.
      + right. split; [done|]. exists mn, (slice mn.1.2 oi text). split; [done|]. split; [done|].
        by rewrite slice_slice by lia. }
  split.
  - rewrite map_app, concat_app. cbn [map part_raw sm_raw concat].
    etransitivity; [apply (f_equal (fun z => _ ++ _ ++ z)); exact Hcat|]. cbv beta.
    rewrite (slice_drop start (S ci)) by lia. destruct (Nat.ltb_spec cursor start) as [Hl|Hl]; cbn [map part_raw concat].
    + rewrite app_nil_r. apply slice_drop. lia.
    + by replace start with cursor by lia.
  - apply Forall_app. split; [|by constructor]. destruct (Nat.ltb_spec cursor start) as [Hl|Hl]; [|constructor].
    constructor; [|constructor]. simpl. intros H. apply (f_equal length) in H. unfold slice in H.
    rewrite length_take, length_drop in H. simpl in H. lia.
Qed.

(** Splitting a line into descriptions and speech loses nothing: it always
    ends, the parts put together are the normalised line, no description is
    empty, and every mark has words that are not blank, between its own pair
    of braces, spoken by the character whose mention it begins with or, when
    it begins with the brace, by nobody. *)
Theorem split_speech_lossless line :
  exists parts, split_speech_line nfc line = Some parts
    /\ concat (map part_raw parts) = _normalize_source nfc line
    /\ Forall (part_ok (_normalize_source nfc line) (_iter_mentions (_normalize_source nfc line))) parts.
Proof.
  unfold split_speech_line. set (text := _normalize_source nfc line).
  destruct (split_speech_spec text (_iter_mentions text) (S (length text)) 0 0) as (parts & H1 & H2 & H3); [|lia|lia|].
  - eapply Forall_impl; [apply iter_positions|]. cbv beta. lia.
  - exists parts. by rewrite drop_0 in H2.
Qed.
End speech.

(** *** Lines and shots *)

Lemma lstrip_length s : length (lstrip s) <= length s.
Proof. induction s as [|c s IH]; simpl; [done|]. destruct (is_space c); simpl; lia. Qed.

Lemma lstrip_id s : lstrip s = s <-> match s with c :: _ => is_space c = false | [] => True end.
Proof.
  destruct s as [|c s]; simpl; [done|]. destruct (is_space c) eqn:E; split; try done.
  intros H. apply (f_equal length) in H. pose proof (lstrip_length s). simpl in H. lia.
Qed.

(** Nothing to strip: no space at either end. *)
Lemma strip_id s :
  strip s = s <-> match head s with Some c => is_space c = false | None => True end
               /\ match last s with Some c => is_space c = false | None => True end.
Proof.
  assert (forall l : pystr, lstrip l = l <-> match head l with Some c => is_space c = false | None => True end) as Hl.
  { intros l. rewrite lstrip_id. by destruct l. }
  unfold strip. split.
  - intros H. assert (lstrip s = s) as H1.
    { assert (length (reverse (lstrip (reverse (lstrip s)))) = length s) as Hlen by (by rewrite H).
      rewrite length_reverse in Hlen. pose proof (lstrip_length (reverse (lstrip s))) as H2. rewrite length_reverse in H2.
      pose proof (lstrip_length s). assert (length (lstrip s) = length s) as H4 by lia. clear - H4.
      destruct s as [|c s]; [done|]. simpl in *. destruct (is_space c); [|done]. pose proof (lstrip_length s). lia. }
    rewrite H1 in H. split; [by apply Hl|]. apply (f_equal reverse) in H. rewrite reverse_involutive in H.
    apply Hl in H. by rewrite head_reverse in H.
  - intros [H1 H2]. rewrite (proj2 (Hl s) H1), (proj2 (Hl (reverse s))); [apply reverse_involutive|].
    by rewrite head_reverse.
Qed.

Definition plain (s : pystr) : Prop := Forall (fun c => is_line_break c = false) s.

Lemma split_lines_plain l cur r : plain l -> split_lines cur (l ++ r) = split_lines (reverse l ++ cur) r.
Proof.
  intros H. revert cur. induction H as [|c l Hc _ IH]; intros cur; [done|]. cbn [app split_lines]. rewrite Hc, IH.
  f_equal. by rewrite reverse_cons, <- app_assoc.
Qed.

Lemma splitlines_join ls : ls <> [] -> Forall plain ls -> last ls <> Some [] -> splitlines (join_lines ls) = ls.
Proof.
  unfold splitlines. induction ls as [|l [|l' ls] IH]; intros Hne Hp Hlast; [done| |]; apply Forall_cons in Hp as [Hl Hp].
  - cbn [join_lines]. rewrite <- (app_nil_r l) at 1. rewrite split_lines_plain by done. cbn [split_lines].
    rewrite app_nil_r. simpl in Hlast. rewrite bool_decide_eq_false_2, reverse_involutive; [done|].
    intros H. apply (f_equal reverse) in H. rewrite reverse_involutive in H. by subst l.
  - change (join_lines (l :: l' :: ls)) with (l ++ c_newline :: join_lines (l' :: ls)).
    rewrite split_lines_plain by done. rewrite app_nil_r. cbn [split_lines].
    change (is_line_break c_newline) with true. cbv iota. rewrite reverse_involutive. f_equal.
    transitivity (split_lines [] (join_lines (l' :: ls))); [|by apply IH]. by destruct (join_lines (l' :: ls)).
Qed.

Lemma join_lines_app a b : a <> [] -> b <> [] -> join_lines (a ++ b) = join_lines a ++ c_newline :: join_lines b.
Proof.
  intros Ha Hb. induction a as [|x [|y a] IH]; [done|by destruct b|].
  change ((x :: y :: a) ++ b) with (x :: (y :: a) ++ b).
  change (join_lines (x :: (y :: a) ++ b)) with (x ++ c_newline :: join_lines ((y :: a) ++ b)).
  rewrite IH by done. change (join_lines (x :: y :: a)) with (x ++ c_newline :: join_lines (y :: a)).
  by rewrite <- app_assoc.
Qed.

Lemma join_join lss : Forall (fun ls => ls <> []) lss -> join_lines (map join_lines lss) = join_lines (concat lss).
Proof.
  induction lss as [|ls [|ls' lss] IH]; intros H; [done|simpl; by rewrite app_nil_r|].
  apply Forall_cons in H as [H1 H2]. cbn [map concat]. specialize (IH H2). cbn [map concat] in IH.
  rewrite join_lines_app; [|done|apply Forall_cons in H2 as [H2 _]; by destruct ls'].
  change (join_lines (join_lines ls :: join_lines ls' :: map join_lines lss))
    with (join_lines ls ++ c_newline :: join_lines (join_lines ls' :: map join_lines lss)). by rewrite IH.
Qed.

Lemma split_newline_cons s : exists l ls, split_newline s = l :: ls.
Proof.
  induction s as [|c s (l & ls & IH)]; simpl; [by eauto|]. destruct (c =? c_newline)%N; [by eauto|]. rewrite IH. by eauto.
Qed.

Lemma join_split s : join_lines (split_newline s) = s.
Proof.
  induction s as [|c s IH]; [done|]. simpl. destruct (split_newline_cons s) as (l & ls & Hs). rewrite Hs in *.
  destruct (N.eqb_spec c c_newline) as [->|]; [cbn; by rewrite <- IH|]. rewrite <- IH. by destruct ls.
Qed.

Lemma partition_spec s l ls : split_newline s = l :: ls -> partition_newline s = (l, join_lines ls).
Proof.
  unfold partition_newline. revert l ls. induction s as [|c s IH]; intros l ls; simpl; [by intros [= <- <-]|].
  destruct (split_newline_cons s) as (l' & ls' & Hs). destruct (N.eqb_spec c c_newline) as [->|Hc].
  - intros [= <- <-]. rewrite bool_decide_eq_true_2 by left. rewrite join_split. done.
  - rewrite Hs. intros [= <- <-]. rewrite bool_decide_eq_false_2 by set_solver. specialize (IH _ _ Hs).
    injection IH as H1 H2. simpl. by rewrite H1, H2.
Qed.

(** A text that ends in an empty line ends in a newline. *)
Lemma split_newline_last s l ls : split_newline s = l :: ls -> last ls = Some [] -> last s = Some c_newline.
Proof.
  revert l ls. induction s as [|c s IH]; intros l ls; simpl; [by intros [= <- <-]|].
  destruct (split_newline_cons s) as (l' & ls' & Hs). destruct (N.eqb_spec c c_newline) as [->|Hc]; rewrite Hs.
  - intros [= <- <-]. destruct ls' as [|y ls']; [simpl; intros [= ->]|].
    + assert (s = []) as ->; [|done]. rewrite <- (join_split s), Hs. done.
    + intros H. assert (last s = Some c_newline) as E by (by eapply IH). destruct s; [done|]. exact E.
  - intros [= <- <-] H. assert (last s = Some c_newline) as E by (by eapply IH). destruct s; [done|]. exact E.
Qed.

Lemma uint_codes_digits d : Forall (fun c => 48 <= c <= 57)%N (uint_codes d).
Proof. induction d; simpl; constructor; try lia; done. Qed.

Lemma dumps_nat_digits n : exists c l, dumps_nat n = c :: l /\ Forall (fun c => 48 <= c <= 57)%N (c :: l).
Proof.
  unfold dumps_nat. pose proof (uint_codes_digits (N.to_uint n)) as H.
  destruct (uint_codes (N.to_uint n)) as [|c l] eqn:E; [|by exists c, l]. exfalso. clear H.
  destruct n as [|p]; [done|]. assert (N.to_uint (N.pos p) <> Decimal.Nil) as Hn by apply DecimalPos.Unsigned.to_uint_nonnil.
  by destruct (N.to_uint (N.pos p)).
Qed.

Section round_trip.
Context (nfc : pystr -> pystr) (is_decimal : N -> bool).
(** What the Unicode tables say about the characters of a header. *)
Hypothesis ascii_decimal : forall c, (48 <= c <= 57)%N -> is_decimal c = true.
Hypothesis colon_decimal : is_decimal 65306 = false.

(** A shot that can be read back: nothing to strip from it or from its first
    line, no line separator but the newline, and no header on a later line. *)
Definition readable_shot (t : pystr) : Prop :=
  strip t = t /\
  match split_newline t with
  | h :: ls => strip h = h /\ Forall plain (h :: ls) /\ Forall (fun l => shot_header is_decimal (strip l) = None) ls
  | [] => False
  end.

Lemma digit_not_space c : (48 <= c <= 57)%N -> is_space c = false.
Proof.
  intros H. unfold is_space. repeat (apply orb_false_iff; split); try (apply N.eqb_neq; lia);
    apply andb_false_iff; first [left; apply N.leb_gt; lia|right; apply N.leb_gt; lia].
Qed.

Lemma header_read i h :
  strip h = h -> plain h -> shot_header is_decimal (strip (shot_mark i ++ h)) = Some h /\ shot_mark i ++ h <> []
    /\ plain (shot_mark i ++ h).
Proof.
  intros Hh Hp. apply strip_id in Hh as [Hh1 Hh2]. unfold shot_mark.
  destruct (dumps_nat_digits (N.of_nat i)) as (d & ds & -> & Hd). apply Forall_cons in Hd as [Hd Hds].
  assert (strip ((shot_word ++ (d :: ds) ++ [65306%N]) ++ h) = (shot_word ++ (d :: ds) ++ [65306%N]) ++ h) as ->.
  { apply strip_id. split; [reflexivity|]. destruct h as [|x h]; [|by rewrite last_app_cons].
    rewrite app_nil_r, !app_assoc, last_snoc. reflexivity. }
  split; [|split; [done|]].
  - unfold shot_word. cbn [app shot_header]. rewrite bool_decide_eq_true_2 by done. cbn [negb].
    rewrite <- !app_assoc. cbn [app lstrip]. rewrite digit_not_space by done. rewrite ascii_decimal by done. cbn [negb].
    assert (skip_decimals is_decimal (ds ++ 65306%N :: h) = 65306%N :: h) as ->.
    { clear -Hds ascii_decimal colon_decimal. induction Hds as [|x ds Hx Hds IH]; simpl; [by rewrite colon_decimal|].
      by rewrite ascii_decimal. }
    cbn [lstrip]. change (is_space 65306) with false. cbv iota.
    rewrite bool_decide_eq_true_2 by left. cbn [andb]. rewrite bool_decide_eq_false_2; [done|].
    intros Hin. unfold plain in Hp. rewrite Forall_forall in Hp. by specialize (Hp _ Hin).
  - apply Forall_app. split; [|done]. constructor; [done|]. constructor; [done|]. apply Forall_app.
    split; [|by constructor]. assert (Forall (fun c => 48 <= c <= 57)%N (d :: ds)) as Hall by (by constructor).
    eapply Forall_impl; [exact Hall|]. intros c Hc. apply bool_decide_eq_false_2. intros Hin.
    repeat (apply elem_of_cons in Hin as [-> |Hin]; [lia|]). by apply not_elem_of_nil in Hin.
Qed.

(** The lines a shot is printed on. *)
Definition shot_lines (i : nat) (t : pystr) : list pystr :=
  match split_newline t with h :: ls => (shot_mark i ++ h) :: ls | [] => [] end.

Lemma render_block_lines i t : readable_shot t -> render_block i t = join_lines (shot_lines i t).
Proof.
  intros [Ht _]. unfold render_block, shot_lines. destruct (split_newline_cons t) as (h & ls & Hs).
  rewrite (partition_spec _ _ _ Hs), Hs. destruct ls as [|l ls]; [simpl; by rewrite app_nil_r|].
  rewrite bool_decide_eq_false_2.
  - change (join_lines ((shot_mark i ++ h) :: l :: ls)) with ((shot_mark i ++ h) ++ c_newline :: join_lines (l :: ls)).
    by rewrite <- app_assoc.
  - intros Hnil. assert (l = [] /\ ls = []) as [-> ->].
    { destruct ls as [|l2 ls]; [simpl in Hnil; by subst l|]. simpl in Hnil. by destruct l. }
    assert (last t = Some c_newline) as Hl by (by eapply split_newline_last).
    apply strip_id in Ht as [_ Ht]. by rewrite Hl in Ht.
Qed.

(** The parser on the later lines of a shot. *)
Lemma parse_body ls rest segs buf :
  Forall (fun l => shot_header is_decimal (strip l) = None) ls ->
  parse_lines is_decimal (ls ++ rest) segs true buf = parse_lines is_decimal rest segs true (buf ++ ls).
Proof.
  intros H. revert buf. induction H as [|l ls Hl _ IH]; intros buf; [by rewrite app_nil_r|].
  cbn [app parse_lines]. rewrite Hl, IH. by rewrite <- app_assoc.
Qed.

(** The parser on the lines of all shots after the first one has begun. *)
Lemma parse_shots ts i segs t h ls :
  Forall readable_shot ts -> readable_shot t -> split_newline t = h :: ls ->
  parse_lines is_decimal (concat (imap (fun k t => shot_lines (i + k) t) ts)) segs true (h :: ls)
  = segs ++ t :: ts.
Proof.
  revert i segs t h ls. induction ts as [|t' ts IH]; intros i segs t h ls Hts Ht Hs.
  - cbn [imap concat parse_lines]. rewrite <- Hs, join_split. by destruct Ht as [-> _].
  - apply Forall_cons in Hts as [Ht' Hts]. cbn [imap concat]. destruct (split_newline_cons t') as (h' & ls' & Hs').
    unfold shot_lines at 1. rewrite Hs'. cbn [app parse_lines].
    pose proof Ht' as [_ Hb]. rewrite Hs' in Hb. destruct Hb as (Hh & Hpl & Hno). apply Forall_cons in Hpl as [Hpl _].
    destruct (header_read (i + 0) h' Hh Hpl) as (-> & _). rewrite <- Hs, join_split.
    assert (lstrip h' = h') as ->. { apply strip_id in Hh as [Hh _]. apply lstrip_id. by destruct h'. }
    destruct Ht as [-> _]. rewrite parse_body by done. cbn [app].
    rewrite (imap_ext _ (fun k t => shot_lines (S i + k) t)) by (intros k x _; simpl; f_equal; lia).
    rewrite (IH (S i) (segs ++ [t]) t' h' ls') by done. by rewrite <- app_assoc.
Qed.

Lemma shot_lines_ok i t :
  readable_shot t -> shot_lines i t <> [] /\ Forall plain (shot_lines i t) /\ last (shot_lines i t) <> Some [].
Proof.
  intros [Ht Hb]. unfold shot_lines. destruct (split_newline_cons t) as (h & ls & Hs). rewrite Hs in *.
  destruct Hb as (Hh & Hpl & _). apply Forall_cons in Hpl as [Hpl Hls].
  destruct (header_read i h Hh Hpl) as (_ & Hne & Hp). split; [done|]. split; [by constructor|].
  destruct ls as [|l ls]; [simpl; by intros [= E]|]. intros Hl.
  assert (last t = Some c_newline) as Hl' by (eapply split_newline_last; [exact Hs|exact Hl]).
  apply strip_id in Ht as [_ Ht]. by rewrite Hl' in Ht.
Qed.

(** The rendered text is the lines of the shots in order. *)
Lemma render_lines ts :
  Forall readable_shot ts ->
  render_shots_text (map (fun t => JObj [(u "text", JStr t)]) ts) = join_lines (concat (imap (fun k t => shot_lines (S k) t) ts)).
Proof.
  intros Hts. rewrite <- join_join.
  - unfold render_shots_text. f_equal. change (map ?f ts) with (f <$> ts). rewrite imap_fmap.
    change (map join_lines ?l) with (join_lines <$> l). rewrite fmap_imap. apply imap_ext. intros k t Hk. cbn.
    apply render_block_lines. rewrite Forall_forall in Hts. apply Hts. by eapply list_elem_of_lookup_2.
  - apply Forall_forall. intros ls Hls. apply elem_of_lookup_imap in Hls as (k & t & -> & Hk).
    apply shot_lines_ok. rewrite Forall_forall in Hts. apply Hts. by eapply list_elem_of_lookup_2.
Qed.

(** C20: Printing shots and parsing the text gives the shots back, in number
    and word by word, for shots that are stripped, use no line separator but
    the newline and hide no header on a later line; the text is taken to be
    in the normal form the parser works in. *)
Theorem parse_render_round_trip ts :
  ts <> [] -> Forall readable_shot ts ->
  let text := render_shots_text (map (fun t => JObj [(u "text", JStr t)]) ts) in
  _normalize_source nfc text = text -> (parse_prompt nfc is_decimal text).1 = ts.
Proof.
  intros Hne Hts text Hn. unfold parse_prompt. rewrite Hn. unfold text. rewrite render_lines by done.
  destruct ts as [|t ts]; [done|]. apply Forall_cons in Hts as [Ht Hts].
  assert (Forall plain (concat (imap (fun k t => shot_lines (S k) t) (t :: ts)))
          /\ last (concat (imap (fun k t => shot_lines (S k) t) (t :: ts))) <> Some []
          /\ concat (imap (fun k t => shot_lines (S k) t) (t :: ts)) <> []) as (Hp & Hl & Hnil).
  { assert (forall i l, Forall readable_shot l ->
      Forall plain (concat (imap (fun k t => shot_lines (i + k) t) l))
      /\ last (concat (imap (fun k t => shot_lines (i + k) t) l)) <> Some []
      /\ (l <> [] -> concat (imap (fun k t => shot_lines (i + k) t) l) <> [])) as Hall.
    { intros i l. revert i. induction l as [|x l IH]; intros i Hl; [done|]. apply Forall_cons in Hl as [Hx Hl].
      destruct (shot_lines_ok (i + 0) x Hx) as (H1 & H2 & H3). cbn [imap concat].
      rewrite (imap_ext _ (fun k t => shot_lines (S i + k) t)) by (intros k y _; simpl; f_equal; lia).
      destruct (IH (S i) Hl) as (H4 & H5 & H6). split; [by apply Forall_app|]. split.
      - destruct (concat (imap (fun k t => shot_lines (S i + k) t) l)) as [|y ys]; [by rewrite app_nil_r|by rewrite last_app_cons].
      - intros _ [H _]%app_eq_nil. done. }
    destruct (Hall 1 (t :: ts)) as (H1 & H2 & H3); [by constructor|]. split; [exact H1|]. split; [exact H2|]. by apply H3. }
  rewrite splitlines_join by done. cbn [imap concat]. destruct (split_newline_cons t) as (h & ls & Hs).
  unfold shot_lines at 1. rewrite Hs. cbn [app parse_lines].
  pose proof Ht as [_ Hb]. rewrite Hs in Hb. destruct Hb as (Hh & Hpl & Hno). apply Forall_cons in Hpl as [Hpl _].
  destruct (header_read 1 h Hh Hpl) as (-> & _).
  change (strip (join_lines [])) with (@nil N). rewrite bool_decide_eq_true_2 by done.
  assert (lstrip h = h) as ->. { apply strip_id in Hh as [Hh _]. apply lstrip_id. by destruct h. }
  rewrite parse_body by done. cbn [app].
  rewrite (imap_ext _ (fun k t => shot_lines (2 + k) t)) by (intros k y _; done).
  rewrite (parse_shots ts 2 [] t h ls) by done. done.
Qed.
End round_trip.

Lemma parse_render_round_trip_witness :
  (parse_prompt id (fun c => (48 <=? c) && (c <=? 57))%N
     (render_shots_text (map (fun t => JObj [(u "text", JStr t)])
        [u "@[Ann] waits"; []; u "rain" ++ [10%N] ++ u "{hello}"]))).1
  = [u "@[Ann] waits"; []; u "rain" ++ [10%N] ++ u "{hello}"].
Proof.
  apply (parse_render_round_trip id (fun c => (48 <=? c) && (c <=? 57))%N).
  - intros c [H1 H2]. apply andb_true_iff. split; by apply N.leb_le.
  - reflexivity.
  - done.
  - repeat constructor; vm_compute; try reflexivity; apply (bool_decide_unpack _); vm_compute; exact I.
  - vm_compute. reflexivity.
Defined.

(** *** References *)

Lemma resolve_names_spec nfc buckets names seen :
  let out := resolve_names nfc buckets names seen in
  NoDup (map snd out.1 ++ out.2)
  /\ (forall n, n ∈ map snd out.1 ++ out.2 <-> n ∈ map (asset_name_comparison_key nfc) names /\ n ∉ seen)
  /\ map snd out.1 `sublist_of` map (asset_name_comparison_key nfc) names
  /\ out.2 `sublist_of` map (asset_name_comparison_key nfc) names
  /\ (forall n b, n ∈ out.2 -> b ∈ buckets -> dict_get n b.2 = None)
  /\ (forall ty n, (ty, n) ∈ out.1 -> exists pre b post, buckets = pre ++ b :: post /\ b.1 = ty
        /\ is_Some (dict_get n b.2) /\ forall b', b' ∈ pre -> dict_get n b'.2 = None).
Proof.
  assert (forall n (bs : list (string * dict)), match List.find (fun b => bool_decide (is_Some (dict_get n b.2))) bs with
    | Some b => exists pre post, bs = pre ++ b :: post /\ is_Some (dict_get n b.2) /\ forall b', b' ∈ pre -> dict_get n b'.2 = None
    | None => forall b, b ∈ bs -> dict_get n b.2 = None end) as Hfind.
  { intros n bs. induction bs as [|b bs IH]; [by intros b ?%not_elem_of_nil|]. simpl. case_bool_decide as E.
    - exists [], bs. split; [done|]. split; [done|]. by intros b' ?%not_elem_of_nil.
    - apply eq_None_not_Some in E. destruct (List.find _ bs) as [b0|].
      + destruct IH as (pre & post & -> & H1 & H2). exists (b :: pre), post. split; [done|]. split; [done|].
        by intros b' [-> |Hb]%elem_of_cons; [|by apply H2].
      + by intros b' [-> |Hb]%elem_of_cons; [|by apply IH]. }
  cbv zeta. revert seen. induction names as [|raw names IH]; intros seen; cbn [resolve_names map].
  { cbn. split; [constructor|]. split; [set_solver|]. split; [constructor|]. split; [constructor|]. set_solver. }
  set (name := asset_name_comparison_key nfc raw). case_bool_decide as E.
  - destruct (IH seen) as (H1 & H2 & H3 & H4 & H5 & H6). split; [done|]. split; [|split_and!; [by constructor|by constructor|done..]].
    intros n. rewrite H2. set_solver.
  - specialize (Hfind name buckets). destruct (IH (name :: seen)) as (H1 & H2 & H3 & H4 & H5 & H6).
    destruct (resolve_names nfc buckets names (name :: seen)) as [refs missing]. cbn [fst snd] in *.
    assert (name ∉ map snd refs ++ missing) as Hni by (rewrite H2; set_solver).
    destruct (List.find _ buckets) as [b|]; cbn [fst snd map].
    + destruct Hfind as (pre & post & Hb & Hs & Hpre). split; [by constructor|].
      split. { intros n. change ((name :: map snd refs) ++ missing) with (name :: (map snd refs ++ missing)).
        rewrite !elem_of_cons, H2, not_elem_of_cons. destruct (decide (n = name)) as [->|]; naive_solver. }
      split; [by constructor|]. split; [by constructor|]. split; [done|].
      intros ty n [[= -> ->]|Hin]%elem_of_cons; [by exists pre, b, post|by apply H6].
    + split. { rewrite <- Permutation_middle. by constructor. }
      split. { intros n. rewrite <- Permutation_middle, !elem_of_cons, H2, not_elem_of_cons. destruct (decide (n = name)) as [->|]; naive_solver. }
      split; [by constructor|]. split; [by constructor|]. split; [|done].
      intros n b [-> |Hn]%elem_of_cons Hb; [by apply Hfind|by eapply H5].
Qed.

(** The references of a prompt: every mentioned name is either resolved or
    reported missing, once and in the order of the text; a resolved name
    carries the first kind, in the fixed order product, character, scene,
    prop, whose assets contain it, and a missing one is in none. *)
Theorem resolve_references_exact nfc names project :
  let out := resolve_references nfc names project in
  NoDup (map snd out.1 ++ out.2)
  /\ (forall n, n ∈ map snd out.1 ++ out.2 <-> n ∈ map (asset_name_comparison_key nfc) names)
  /\ map snd out.1 `sublist_of` map (asset_name_comparison_key nfc) names
  /\ out.2 `sublist_of` map (asset_name_comparison_key nfc) names
  /\ (forall n b, n ∈ out.2 -> b ∈ reference_buckets nfc project -> dict_get n b.2 = None)
  /\ (forall ty n, (ty, n) ∈ out.1 -> exists pre b post, reference_buckets nfc project = pre ++ b :: post /\ b.1 = ty
        /\ is_Some (dict_get n b.2) /\ forall b', b' ∈ pre -> dict_get n b'.2 = None)
  /\ map fst (reference_buckets nfc project) = ["product"; "character"; "scene"; "prop"].
Proof.
  destruct (resolve_names_spec nfc (reference_buckets nfc project) names []) as (H1 & H2 & H3 & H4 & H5 & H6).
  cbv zeta. unfold resolve_references. split_and!; try done. intros n. rewrite H2. set_solver.
Qed.
