(* ===== verification/Workflow.v ===== *)
(** * Workflow rules and plan: [lib/workflow_rules.py], [lib/workflow_plan.py]

    The rules fix the ordered steps of each pair of content and generation
    mode.  A plan projects a status snapshot, the problems found in the
    script, the tasks observed and the answer of batch admission onto the
    steps.  The program keeps the steps in a list and in a dictionary that
    share the objects; here an update by name acts on the list.  How the status
    itself is derived ([lib/workflow_state.py]) is not part of this file. *)

From S2P Require Import Prelude Json TaskFailure TaskStore GenerationResult BatchAdmission.

(** ** Rules *)

Record WorkflowStepRule := mkStepRule { rule_id : string; checkpoint : option string; applicable : bool }.

Record WorkflowRule := mkRule {
  content_mode : string;
  generation_mode : string;
  skeleton_kind : string;
  preprocessor : option string;
  rule_steps : list WorkflowStepRule
}.

Definition _STEP_CHECKPOINTS : list (string * option string) :=
  [("project_input", Some "PROJECT_INPUT"); ("selling_points", Some "SELLING_POINTS");
   ("asset_inventory", Some "ASSET_INVENTORY"); ("episode_plan", Some "EPISODE_PLAN");
   ("step1_content", Some "STEP1_CONTENT"); ("step1_review", Some "STEP1_REVIEW");
   ("final_script", Some "FINAL_SCRIPT"); ("asset_sheets", Some "ASSET_SHEETS"); ("script_structure", None);
   ("storyboard", Some "STORYBOARD"); ("narration_delivery", None); ("video", Some "VIDEO");
   ("export", Some "EXPORT_READY")].

Definition _EPISODIC_STEPS : list string :=
  ["project_input"; "asset_inventory"; "episode_plan"; "step1_content"; "step1_review"; "final_script"; "asset_sheets";
   "script_structure"; "narration_delivery"; "video"; "export"].

Definition _CONTENT_STEPS : list (string * list string) :=
  [("narration", _EPISODIC_STEPS); ("drama", _EPISODIC_STEPS);
   ("ad", ["project_input"; "selling_points"; "final_script"; "asset_sheets"; "script_structure"; "narration_delivery";
           "video"; "export"])].

Definition _PREPROCESSORS : list ((string * string) * option string) :=
  [(("narration", "storyboard"), Some "split-narration-segments");
   (("narration", "reference_video"), Some "split-reference-video-units");
   (("drama", "storyboard"), Some "normalize-drama-script");
   (("drama", "reference_video"), Some "split-reference-video-units");
   (("ad", "storyboard"), None); (("ad", "reference_video"), None)].

(** [resolve_declared_kind] of [lib/script_skeleton.py]. *)
Definition resolve_declared_kind (content_mode generation_mode : string) : result string :=
  let reference := bool_decide (generation_mode = "reference_video") in
  if bool_decide (content_mode = "ad") then Ok (if reference then "video_units" else "shots")
  else if bool_decide (content_mode = "narration") then Ok (if reference then "video_units" else "segments")
  else if bool_decide (content_mode = "drama") then Ok (if reference then "video_units" else "scenes")
  else Raise ValueError.

Definition _build_rule (cm gm : string) : result WorkflowRule :=
  match aget cm _CONTENT_STEPS, aget (cm, gm) _PREPROCESSORS with
  | Some base, Some pre =>
      let applicable := if bool_decide (gm = "storyboard") then "storyboard" :: base else base in
      let! kind := resolve_declared_kind cm gm in
      Ok (mkRule cm gm kind pre (map (fun sc => mkStepRule sc.1 sc.2 (bool_decide (sc.1 ∈ applicable))) _STEP_CHECKPOINTS))
  | _, _ => Raise KeyError
  end.

(** Built when the module is loaded, for the pairs of the two loops. *)
Definition WORKFLOW_RULES : list ((string * string) * WorkflowRule) :=
  flat_map (fun cm => flat_map (fun gm => match _build_rule cm gm with Ok r => [((cm, gm), r)] | Raise _ => [] end)
                        ["storyboard"; "reference_video"]) ["narration"; "drama"; "ad"].

Definition workflow_rule (cm gm : string) : result WorkflowRule :=
  match aget (cm, gm) WORKFLOW_RULES with
  | Some r => Ok r
  | None => Raise ValueError
  end.

(** ** Status *)

Module WorkflowActionType.
Inductive t :=
| NONE | COLLECT_PROJECT_INPUT | DRAFT_SELLING_POINTS | ANALYZE_ASSETS | PLAN_EPISODES | RESET_EPISODE_PLANNING
| PREPARE_STEP1 | CONFIRM_STEP1 | GENERATE_SCRIPT | GENERATE_ASSET_SHEETS | GENERATE_STORYBOARDS | GENERATE_GRID
| REPAIR_VIDEO_UNITS | GENERATE_VIDEOS | EXPORT | RETRY_PROJECT_MIGRATION | PATCH_EPISODE_SCRIPT
| CHOOSE_NARRATION_DELIVERY | RETRY | FIX_INPUT | GENERATE_DEPENDENCY | GENERATE_TTS | REGENERATE_TTS | WAIT_FOR_TASK
| REPLAN_UNIT | CONFIRM_REQUEST_DURATION | CONFIGURE_PROVIDER | REPAIR_ARTIFACT_STATE.

#[global] Instance eq_dec : EqDecision t.
Proof. solve_decision. Defined.

Definition values : list (string * t) :=
  [("none", NONE); ("collect_project_input", COLLECT_PROJECT_INPUT); ("draft_selling_points", DRAFT_SELLING_POINTS);
   ("analyze_assets", ANALYZE_ASSETS); ("plan_episodes", PLAN_EPISODES);
   ("reset_episode_planning", RESET_EPISODE_PLANNING); ("prepare_step1", PREPARE_STEP1);
   ("confirm_step1", CONFIRM_STEP1); ("generate_script", GENERATE_SCRIPT);
   ("generate_asset_sheets", GENERATE_ASSET_SHEETS); ("generate_storyboards", GENERATE_STORYBOARDS);
   ("generate_grid", GENERATE_GRID); ("repair_video_units", REPAIR_VIDEO_UNITS); ("generate_videos", GENERATE_VIDEOS);
   ("export", EXPORT); ("retry_project_migration", RETRY_PROJECT_MIGRATION);
   ("patch_episode_script", PATCH_EPISODE_SCRIPT); ("choose_narration_delivery", CHOOSE_NARRATION_DELIVERY);
   ("retry", RETRY); ("fix_input", FIX_INPUT); ("generate_dependency", GENERATE_DEPENDENCY);
   ("generate_tts", GENERATE_TTS); ("regenerate_tts", REGENERATE_TTS); ("wait_for_task", WAIT_FOR_TASK);
   ("replan_unit", REPLAN_UNIT); ("confirm_request_duration", CONFIRM_REQUEST_DURATION);
   ("configure_provider", CONFIGURE_PROVIDER); ("repair_artifact_state", REPAIR_ARTIFACT_STATE)].

(** [WorkflowActionType(value)] *)
Definition of_value (v : pystr) : result t :=
  match List.find (fun kv => bool_decide (u kv.1 = v)) values with
  | Some kv => Ok kv.2
  | None => Raise ValueError
  end.
End WorkflowActionType.

Record WorkflowProject := mkProjectModes {
  wp_content_mode : string;
  wp_generation_mode : option string;
  wp_grid_storyboard : bool;
  workflow_applicable : bool
}.

Record WorkflowBlocker := mkBlocker { bl_code : string; bl_path : pystr; bl_reason : pystr }.

Record WorkflowNextAction := mkAction {
  na_type : WorkflowActionType.t;
  na_args : dict;
  na_requested_ids : list pystr;
  na_requires_confirmation : bool;
  na_reason : pystr
}.

(** The fields the plan reads. *)
Record WorkflowStatus := mkStatus {
  ws_project : WorkflowProject;
  ws_state : string;
  ws_blockers : list WorkflowBlocker;
  ws_artifacts : list (string * dict);
  ws_next_action : WorkflowNextAction
}.

(** ** Plan *)

Module WorkflowStepState.
Inductive t := COMPLETED | READY | ACTIVE | BLOCKED | PENDING | SKIPPED.
#[global] Instance eq_dec : EqDecision t.
Proof. solve_decision. Defined.
End WorkflowStepState.

Inductive NarrationDelivery := POST_PRODUCTION | USE_TTS.

#[global] Instance NarrationDelivery_eq_dec : EqDecision NarrationDelivery.
Proof. solve_decision. Defined.

Record WorkflowTaskObservation := mkObservation {
  ob_unit_id : pystr;
  ob_task_id : string;
  ob_task_type : string;
  ob_status : TaskStatus;
  ob_provider_checkpoint : option ProviderCheckpoint;
  ob_problem : option GenerationProblem
}.

Record WorkflowPlanStep := mkStep {
  ps_id : string;
  ps_state : WorkflowStepState.t;
  ps_required : bool;
  ps_action : option WorkflowNextAction;
  ps_requested_ids : list pystr;
  ps_artifacts : dict;
  ps_problems : list GenerationProblem;
  ps_tasks : list WorkflowTaskObservation;
  ps_admission : option dict;
  ps_script_edit : option string;
  ps_batch_admission : option string
}.

Record WorkflowPlan := mkPlan {
  pl_status : WorkflowStatus;
  pl_narration_delivery : option NarrationDelivery;
  pl_steps : list WorkflowPlanStep;
  pl_blockers : list WorkflowBlocker;
  pl_problems : list GenerationProblem;
  pl_next_action : WorkflowNextAction
}.

Definition _ARTIFACT_BY_STEP : list (string * string) :=
  [("asset_inventory", "asset_inventory"); ("asset_sheets", "asset_sheets"); ("step1_content", "step1");
   ("step1_review", "step1"); ("final_script", "script"); ("storyboard", "storyboards");
   ("narration_delivery", "audio"); ("video", "videos")].

Definition _TASK_STEP : list (string * string) :=
  [("storyboard", "storyboard"); ("grid", "storyboard"); ("tts", "narration_delivery"); ("video", "video");
   ("reference_video", "video")].

Definition _baseline_step_state (rule : WorkflowStepRule) (index current_index : nat) (status : WorkflowStatus)
    : WorkflowStepState.t :=
  if negb (applicable rule) then WorkflowStepState.SKIPPED
  else if index <? current_index then WorkflowStepState.COMPLETED
  else if current_index <? index then WorkflowStepState.PENDING
  else if negb (bool_decide (ws_blockers status = [] :> list WorkflowBlocker))
          || bool_decide (na_type (ws_next_action status) = WorkflowActionType.NONE)
  then WorkflowStepState.BLOCKED else WorkflowStepState.READY.

Definition is_repair (t : WorkflowActionType.t) : bool := bool_decide (t = WorkflowActionType.REPAIR_VIDEO_UNITS).

(** The position of the first rule that satisfies [p]. *)
Fixpoint index_of {A} (p : A -> bool) (l : list A) : option nat :=
  match l with
  | [] => None
  | x :: l' => if p x then Some 0 else S <$> index_of p l'
  end.

Definition _current_rule_index (status : WorkflowStatus) (rules : list WorkflowStepRule) : result nat :=
  if is_repair (na_type (ws_next_action status)) then
    match index_of (fun r => bool_decide (rule_id r = "script_structure")) rules with
    | Some i => Ok i
    | None => Raise StopIteration
    end
  else match index_of (fun r => applicable r && bool_decide (checkpoint r = Some (ws_state status))) rules with
       | Some i => Ok i
       | None => Raise ValueError
       end.

(** [GenerationProblem.model_validate]: the four fields, no other, of their
    types; [params] may be left out. *)
Definition action_of (v : pystr) : option GenerationAction.t :=
  List.find (fun a => bool_decide (action_value a = v))
    [GenerationAction.RETRY; GenerationAction.FIX_INPUT; GenerationAction.GENERATE_DEPENDENCY; GenerationAction.GENERATE_TTS;
     GenerationAction.REGENERATE_TTS; GenerationAction.WAIT_FOR_TASK; GenerationAction.REPLAN_UNIT;
     GenerationAction.CONFIRM_REQUEST_DURATION; GenerationAction.CONFIGURE_PROVIDER; GenerationAction.REPAIR_ARTIFACT_STATE;
     GenerationAction.RETRY_PROJECT_MIGRATION; GenerationAction.NONE].

Definition problem_of_json (raw : json) : result GenerationProblem :=
  match raw with
  | JObj d =>
      if negb (List.forallb (fun kv => bool_decide (kv.1 ∈ map u ["code"; "detail"; "action"; "params"])) d) then Raise ValueError
      else match dict_get (u "code") d, dict_get (u "detail") d, dict_get (u "action") d with
           | Some (JStr code), Some (JStr detail), Some (JStr a) =>
               match action_of a, dict_get (u "params") d with
               | Some act, Some (JObj ps) => Ok (mkProblem code detail act ps)
               | Some act, None => Ok (mkProblem code detail act [])
               | _, _ => Raise ValueError
               end
           | _, _, _ => Raise ValueError
           end
  | _ => Raise ValueError
  end.

Fixpoint map_result {A B} (f : A -> result B) (l : list A) : result (list B) :=
  match l with
  | [] => Ok []
  | x :: l' => let! y := f x in let! ys := map_result f l' in Ok (y :: ys)
  end.

(** The problems of one entry of [admission["units"]]. *)
Definition unit_problems (unit : json) : result (list GenerationProblem) :=
  match unit with
  | JObj d =>
      match default (JArr []) (dict_get (u "problems") d) with
      | JArr l => map_result problem_of_json l
      | _ => Ok []
      end
  | _ => Ok []
  end.

(** [units] is a list; another container has no objects, a scalar cannot be
    iterated over. *)
Definition _admission_problems (admission : option dict) : result (list GenerationProblem) :=
  match admission with
  | None | Some [] => Ok []
  | Some d =>
      match default (JArr []) (dict_get (u "units") d) with
      | JArr l => let! ps := map_result unit_problems l in Ok (concat ps)
      | JObj _ | JStr _ => Ok []
      | _ => Raise TypeError
      end
  end.

Definition problem_unit_id (p : GenerationProblem) : option pystr :=
  match dict_get (u "unit_id") (p_params p) with
  | Some (JStr s) => Some s
  | _ => match dict_get (u "speech_admission") (p_params p) with
         | Some (JObj a) => match dict_get (u "unit_id") a with Some (JStr s) => Some s | _ => None end
         | _ => None
         end
  end.

Definition _problem_unit_ids (ps : list GenerationProblem) : list pystr :=
  foldl (fun ids p => match problem_unit_id p with
                      | Some (c :: s) => if bool_decide ((c :: s) ∈ ids) then ids else ids ++ [c :: s]
                      | _ => ids
                      end) [] ps.

Definition first_detail (ps : list GenerationProblem) (other : pystr) : pystr :=
  match ps with p :: _ => p_detail p | [] => other end.

(** The caller passes at least one problem. *)
Definition _structure_action (ps : list GenerationProblem) (script_revision : option pystr) : WorkflowNextAction :=
  mkAction WorkflowActionType.PATCH_EPISODE_SCRIPT
    [(u "expected_revision", match script_revision with Some r => JStr r | None => JNull end);
     (u "problems", JArr (map problem_json ps))]
    (_problem_unit_ids ps) false (first_detail ps []).

(** [d.get(key) == text] *)
Definition text_is (key v : string) (d : dict) : bool :=
  match dict_get (u key) d with Some (JStr s) => bool_decide (s = u v) | _ => false end.

Definition decision_is (v : string) (admission : dict) : bool := text_is "decision" v admission.

Definition _admission_action (admission : dict) (ps : list GenerationProblem) (requested_ids : list pystr)
    : result WorkflowNextAction :=
  let action := match ps with p :: _ => p_action p | [] => GenerationAction.CONFIRM_REQUEST_DURATION end in
  let! ty := WorkflowActionType.of_value (action_value action) in
  Ok (mkAction ty [(u "admission", JObj admission)] requested_ids (decision_is "confirmation_required" admission)
        (first_detail ps (u "video batch requires confirmation"))).

(** ** Building *)

Definition set_state (st : WorkflowStepState.t) (s : WorkflowPlanStep) : WorkflowPlanStep :=
  mkStep (ps_id s) st (ps_required s) (ps_action s) (ps_requested_ids s) (ps_artifacts s) (ps_problems s) (ps_tasks s)
    (ps_admission s) (ps_script_edit s) (ps_batch_admission s).
Definition set_action (a : option WorkflowNextAction) (s : WorkflowPlanStep) : WorkflowPlanStep :=
  mkStep (ps_id s) (ps_state s) (ps_required s) a (ps_requested_ids s) (ps_artifacts s) (ps_problems s) (ps_tasks s)
    (ps_admission s) (ps_script_edit s) (ps_batch_admission s).
Definition set_problems (ps : list GenerationProblem) (s : WorkflowPlanStep) : WorkflowPlanStep :=
  mkStep (ps_id s) (ps_state s) (ps_required s) (ps_action s) (ps_requested_ids s) (ps_artifacts s) ps (ps_tasks s)
    (ps_admission s) (ps_script_edit s) (ps_batch_admission s).
Definition set_requested (ids : list pystr) (s : WorkflowPlanStep) : WorkflowPlanStep :=
  mkStep (ps_id s) (ps_state s) (ps_required s) (ps_action s) ids (ps_artifacts s) (ps_problems s) (ps_tasks s)
    (ps_admission s) (ps_script_edit s) (ps_batch_admission s).
Definition add_task (o : WorkflowTaskObservation) (s : WorkflowPlanStep) : WorkflowPlanStep :=
  mkStep (ps_id s) (ps_state s) (ps_required s) (ps_action s) (ps_requested_ids s) (ps_artifacts s) (ps_problems s)
    (ps_tasks s ++ [o]) (ps_admission s) (ps_script_edit s) (ps_batch_admission s).
Definition set_admission (a : option dict) (s : WorkflowPlanStep) : WorkflowPlanStep :=
  mkStep (ps_id s) (ps_state s) (ps_required s) (ps_action s) (ps_requested_ids s) (ps_artifacts s) (ps_problems s)
    (ps_tasks s) a (ps_script_edit s) (ps_batch_admission s).

(** [by_id[id]], read and written. *)
Definition at_step (id : string) (f : WorkflowPlanStep -> WorkflowPlanStep) (steps : list WorkflowPlanStep)
    : list WorkflowPlanStep :=
  map (fun s => if bool_decide (ps_id s = id) then f s else s) steps.

Definition skipped (s : WorkflowPlanStep) : bool := bool_decide (ps_state s = WorkflowStepState.SKIPPED).

Definition delivery_required (status : WorkflowStatus) : bool :=
  bool_decide (ws_state status = "VIDEO") && bool_decide (na_type (ws_next_action status) = WorkflowActionType.GENERATE_VIDEOS).

(** One round of the loop over the rules. *)
Definition baseline_step (status : WorkflowStatus) (current_index index : nat) (rule : WorkflowStepRule) : WorkflowPlanStep :=
  let here := bool_decide (checkpoint rule = Some (ws_state status)) in
  let artifacts := match aget (rule_id rule) _ARTIFACT_BY_STEP with
                   | Some k => default [] (aget k (ws_artifacts status))
                   | None => []
                   end in
  let state := _baseline_step_state rule index current_index status in
  mkStep (rule_id rule)
    (if text_is "state" "blocked" artifacts
        && negb (bool_decide (state = WorkflowStepState.SKIPPED)) then WorkflowStepState.BLOCKED else state)
    (if bool_decide (rule_id rule = "narration_delivery") then delivery_required status else applicable rule)
    (if here then Some (ws_next_action status) else None)
    (if here then na_requested_ids (ws_next_action status) else [])
    artifacts [] [] None
    (if bool_decide (rule_id rule = "script_structure") then Some "script_batch_edit/v1" else None)
    (if bool_decide (rule_id rule = "video") then Some "video_batch_admission/v1" else None).

Definition mark_structure (ps : list GenerationProblem) (script_revision : option pystr) (steps : list WorkflowPlanStep)
    : list WorkflowPlanStep :=
  match ps with
  | [] => steps
  | _ =>
      let hold s := if skipped s then s else set_action None (set_state WorkflowStepState.PENDING s) in
      at_step "video" hold (at_step "narration_delivery" hold (at_step "storyboard" hold
        (at_step "script_structure"
           (fun s => set_action (Some (_structure_action ps script_revision))
                       (set_requested (_problem_unit_ids ps) (set_problems ps (set_state WorkflowStepState.BLOCKED s)))) steps)))
  end.

Definition mark_delivery (narration_delivery : option NarrationDelivery) (s : WorkflowPlanStep) : WorkflowPlanStep :=
  if bool_decide (narration_delivery = Some USE_TTS) && bool_decide (ps_state s = WorkflowStepState.BLOCKED) then s
  else set_state (match narration_delivery with Some _ => WorkflowStepState.COMPLETED | None => WorkflowStepState.READY end) s.

Definition in_flight (o : WorkflowTaskObservation) : bool :=
  match ob_status o with queued | running | cancelling => true | _ => false end.

Definition observe (steps : list WorkflowPlanStep) (o : WorkflowTaskObservation) : list WorkflowPlanStep :=
  match aget (ob_task_type o) _TASK_STEP with
  | None => steps
  | Some step_id =>
      at_step step_id (fun s => let s' := add_task o s in
                                if in_flight o then set_state WorkflowStepState.ACTIVE s' else s') steps
  end.

Definition wait_action (active : list WorkflowTaskObservation) : WorkflowNextAction :=
  mkAction WorkflowActionType.WAIT_FOR_TASK [(u "task_ids", JArr (map (fun o => JStr (u (ob_task_id o))) active))]
    (map ob_unit_id active) false (u "workflow has active generation tasks").

Definition choose_action (status : WorkflowStatus) : WorkflowNextAction :=
  mkAction WorkflowActionType.CHOOSE_NARRATION_DELIVERY
    [(u "options", JArr [JStr (u "post_production"); JStr (u "use_tts")])]
    (na_requested_ids (ws_next_action status)) false (u "choose narration delivery for this video request").

(** The last decision of the plan: the next action and the steps. *)
Definition decide_action (status : WorkflowStatus) (narration_delivery : option NarrationDelivery)
    (structure_problems : list GenerationProblem) (script_revision : option pystr)
    (observations : list WorkflowTaskObservation) (admission : option dict) (admission_problems : list GenerationProblem)
    (steps : list WorkflowPlanStep) : result (WorkflowNextAction * list WorkflowPlanStep) :=
  let active := where_ in_flight observations in
  if negb (bool_decide (ws_blockers status = [] :> list WorkflowBlocker)) then Ok (ws_next_action status, steps)
  else match structure_problems with
  | _ :: _ => Ok (_structure_action structure_problems script_revision, steps)
  | [] =>
      match active with
      | _ :: _ =>
          let action := wait_action active in
          let is_active s := bool_decide (ps_state s = WorkflowStepState.ACTIVE) in
          Ok (action, at_step "video" (fun s => if is_active s then s else set_action None s)
                        (map (fun s => if is_active s then set_action (Some action) s else s) steps))
      | [] =>
          if delivery_required status && bool_decide (narration_delivery = None) then
            let action := choose_action status in
            Ok (action, at_step "video" (fun s => set_action None (set_state WorkflowStepState.PENDING s))
                          (at_step "narration_delivery" (set_action (Some action)) steps))
          else match admission with
               | Some a =>
                   if decision_is "admitted" a then Ok (ws_next_action status, steps)
                   else let! action := _admission_action a admission_problems (na_requested_ids (ws_next_action status)) in
                        Ok (action, at_step "video" (set_action (Some action)) steps)
               | None => Ok (ws_next_action status, steps)
               end
      end
  end.

(** The steps before the last decision. *)
Definition plan_steps (status : WorkflowStatus) (rules : list WorkflowStepRule) (current_index : nat)
    (narration_delivery : option NarrationDelivery) (structure_problems : list GenerationProblem)
    (script_revision : option pystr) (observations : list WorkflowTaskObservation) (admission : option dict)
    (admission_problems : list GenerationProblem) : list WorkflowPlanStep :=
  let s0 := imap (baseline_step status current_index) rules in
  let s1 := mark_structure structure_problems script_revision s0 in
  let delivery_index := default 0 (index_of (fun r => bool_decide (rule_id r = "narration_delivery")) rules) in
  let s2 := match structure_problems with
            | [] => if delivery_index <=? current_index then at_step "narration_delivery" (mark_delivery narration_delivery) s1
                    else s1
            | _ => s1
            end in
  let s3 := foldl observe s2 observations in
  at_step "video" (fun s =>
    let s' := set_problems admission_problems (set_admission admission s) in
    match admission with
    | Some a => if negb (decision_is "admitted" a) && match ps_tasks s' with [] => true | _ => false end
                then set_state WorkflowStepState.BLOCKED s' else s'
    | None => s'
    end) s3.

Definition build_workflow_plan (status : WorkflowStatus) (narration_delivery : option NarrationDelivery)
    (structure_problems : list GenerationProblem) (script_revision : option pystr)
    (task_observations : list WorkflowTaskObservation) (admission : option dict) : result WorkflowPlan :=
  if negb (workflow_applicable (ws_project status)) then
    Ok (mkPlan status None [] (ws_blockers status) [] (ws_next_action status))
  else match wp_generation_mode (ws_project status) with
  | None => Raise ValueError
  | Some gm =>
      let! rule := workflow_rule (wp_content_mode (ws_project status)) gm in
      let rules := rule_steps rule in
      let! current_index := _current_rule_index status rules in
      let! admission_problems := _admission_problems admission in
      let steps := plan_steps status rules current_index narration_delivery structure_problems script_revision
                     task_observations admission admission_problems in
      let! out := decide_action status narration_delivery structure_problems script_revision task_observations admission
                    admission_problems steps in
      Ok (mkPlan status narration_delivery out.2 (ws_blockers status) (structure_problems ++ admission_problems) out.1)
  end.

(** ** Lemmas *)

Lemma action_round_trip a : action_of (action_value a) = Some a.
Proof. by destruct a. Qed.

Lemma problem_round_trip p : problem_of_json (problem_json p) = Ok p.
Proof.
  destruct p as [code detail a params]. unfold problem_json, problem_of_json. cbn [p_code p_detail p_action p_params].
  change (List.forallb _ _) with true. cbn [negb]. change (dict_get (u "code") _) with (Some (JStr code)).
  change (dict_get (u "detail") _) with (Some (JStr detail)). change (dict_get (u "action") _) with (Some (JStr (action_value a))).
  change (dict_get (u "params") _) with (Some (JObj params)). cbv iota. by rewrite action_round_trip.
Qed.

Lemma map_result_ok {A B} (f : A -> result B) (g : A -> B) l :
  (forall x, x ∈ l -> f x = Ok (g x)) -> map_result f l = Ok (map g l).
Proof.
  induction l as [|x l IH]; intros H; [done|]. cbn [map_result map]. rewrite H by left. cbn [bind].
  rewrite IH by (intros y Hy; apply H; by right). done.
Qed.

(** Every next action of a problem is an action of the workflow, and none of
    them generates videos. *)
Lemma generation_actions a :
  exists ty, WorkflowActionType.of_value (action_value a) = Ok ty /\ ty <> WorkflowActionType.GENERATE_VIDEOS.
Proof. destruct a; eexists; (split; [vm_compute; reflexivity|done]). Qed.

Lemma admission_action_total d ps ids :
  exists a, _admission_action d ps ids = Ok a /\ na_type a <> WorkflowActionType.GENERATE_VIDEOS
    /\ na_requires_confirmation a = decision_is "confirmation_required" d
    /\ (forall p ps', ps = p :: ps' -> WorkflowActionType.of_value (action_value (p_action p)) = Ok (na_type a)).
Proof.
  unfold _admission_action. cbv zeta.
  destruct (generation_actions (match ps with p :: _ => p_action p | [] => GenerationAction.CONFIRM_REQUEST_DURATION end))
    as (ty & Hty & Hne). rewrite Hty. cbn [bind]. eexists. split; [reflexivity|]. split; [done|]. split; [done|].
  intros p ps' ->. exact Hty.
Qed.

Lemma rule_shape cm gm r :
  workflow_rule cm gm = Ok r ->
  map rule_id (rule_steps r) = map fst _STEP_CHECKPOINTS /\ map checkpoint (rule_steps r) = map snd _STEP_CHECKPOINTS
  /\ forall s, s ∈ rule_steps r -> rule_id s ∈ ["video"; "script_structure"; "narration_delivery"] -> applicable s = true.
Proof.
  unfold workflow_rule. destruct (aget (cm, gm) WORKFLOW_RULES) as [r'|] eqn:E; [|done]. intros [= <-].
  apply aget_Some_elem in E. apply (list_elem_of_fmap_2 snd) in E. cbn [snd] in E.
  assert (Forall (fun r => map rule_id (rule_steps r) = map fst _STEP_CHECKPOINTS
    /\ map checkpoint (rule_steps r) = map snd _STEP_CHECKPOINTS
    /\ Forall (fun s => rule_id s ∈ ["video"; "script_structure"; "narration_delivery"] -> applicable s = true) (rule_steps r))
    WORKFLOW_RULES.*2) as H.
  { apply (bool_decide_unpack _). vm_compute. exact I. }
  rewrite Forall_forall in H. destruct (H _ E) as (H1 & H2 & H3). rewrite Forall_forall in H3. auto.
Qed.

Lemma at_step_ids id f steps : (forall s, ps_id (f s) = ps_id s) -> map ps_id (at_step id f steps) = map ps_id steps.
Proof. intros H. unfold at_step. rewrite map_map. apply map_ext. intros s. by case_bool_decide. Qed.

Lemma at_step_Forall (P : WorkflowPlanStep -> Prop) id f steps :
  Forall P steps -> (forall s, P s -> ps_id s = id -> P (f s)) -> Forall P (at_step id f steps).
Proof.
  intros H Hf. unfold at_step. apply Forall_map. eapply Forall_impl; [exact H|]. intros s Hs. cbv beta.
  case_bool_decide; auto.
Qed.

(** *** Who may carry the order to generate videos *)

(** Only the video step. *)
Definition orders_videos (s : WorkflowPlanStep) : Prop :=
  exists a, ps_action s = Some a /\ na_type a = WorkflowActionType.GENERATE_VIDEOS.
Definition only_video (s : WorkflowPlanStep) : Prop := orders_videos s -> ps_id s = "video".
Definition video_unordered (s : WorkflowPlanStep) : Prop := ps_id s = "video" -> ~ orders_videos s.

Lemma baseline_only_video status i k r :
  ws_state status = "VIDEO" -> (checkpoint r = Some "VIDEO" -> rule_id r = "video") -> only_video (baseline_step status i k r).
Proof.
  intros Hv Hr (a & Ha & _). cbn [baseline_step ps_action ps_id] in *. rewrite Hv in Ha. case_bool_decide; [by apply Hr|done].
Qed.

Lemma observe_Forall (P : WorkflowPlanStep -> Prop) obs steps :
  (forall s o, P s -> P (add_task o s)) -> (forall s, P s -> P (set_state WorkflowStepState.ACTIVE s)) ->
  Forall P steps -> Forall P (foldl observe steps obs).
Proof.
  intros H1 H2. revert steps. induction obs as [|o obs IH]; intros steps H; [done|]. cbn [foldl]. apply IH.
  unfold observe. destruct (aget (ob_task_type o) _TASK_STEP); [|done]. apply at_step_Forall; [done|].
  intros s' Hs _. cbv zeta. destruct (in_flight o); auto.
Qed.

(** A property of steps that only looks at the name and the action is kept
    by what does not touch the action. *)
Definition action_local (P : WorkflowPlanStep -> Prop) : Prop :=
  forall s s', ps_id s' = ps_id s -> ps_action s' = ps_action s -> P s -> P s'.

Lemma plan_steps_local P status rules i nd sp rev obs adm ps :
  action_local P -> Forall P (mark_structure sp rev (imap (baseline_step status i) rules)) ->
  Forall P (plan_steps status rules i nd sp rev obs adm ps).
Proof.
  intros HP H. unfold plan_steps. cbv zeta. apply at_step_Forall.
  - apply observe_Forall; [intros s o Hs; by apply (HP s)|intros s Hs; by apply (HP s)|]. destruct sp; [|done]. case_match; [|done].
    apply at_step_Forall; [done|]. intros s Hs _. unfold mark_delivery. case_match; [done|]. by apply (HP s).
  - intros s Hs _. destruct adm; [case_match|]; by apply (HP s).
Qed.

Lemma only_video_local : action_local only_video.
Proof. intros s s' Hid Ha H (a & E & Ht). rewrite Hid. apply H. exists a. by rewrite <- Ha. Qed.

Lemma video_unordered_local : action_local video_unordered.
Proof. intros s s' Hid Ha H Hv (a & E & Ht). rewrite Hid in Hv. apply (H Hv). exists a. by rewrite <- Ha. Qed.

(** Problems of the script take the order from the video step. *)
Lemma structure_unorders sp rev steps :
  sp <> [] -> Forall (fun s => ps_id s = "video" -> ps_state s <> WorkflowStepState.SKIPPED) steps ->
  Forall video_unordered (mark_structure sp rev steps).
Proof.
  intros Hsp H. destruct sp as [|p sp]; [done|]. unfold mark_structure. unfold at_step at 1. apply Forall_map.
  assert (forall id f l, id <> "video" -> (forall s, ps_id (f s) = ps_id s) ->
    Forall (fun s => ps_id s = "video" -> ps_state s <> WorkflowStepState.SKIPPED) l ->
    Forall (fun s => ps_id s = "video" -> ps_state s <> WorkflowStepState.SKIPPED) (at_step id f l)) as Hk.
  { intros id f l Hid Hf Hl. apply at_step_Forall; [done|]. intros s _ Hs Hv. rewrite Hf in Hv. congruence. }
  eapply Forall_impl; [apply Hk; [done|by intros s; case_match|]; apply Hk; [done|by intros s; case_match|];
                       apply Hk; [done|done|exact H]|].
  intros s Hs. cbv beta in Hs |- *. case_bool_decide as E; [|by intros Hid]. unfold skipped.
  rewrite bool_decide_eq_false_2 by (by apply Hs). intros _ (a & Ha & _). done.
Qed.

(** Before the last decision: only the video step may carry the order, and
    not even that one when the script has problems. *)
Lemma plan_steps_orders status rule i nd sp rev obs adm ps cm gm :
  workflow_rule cm gm = Ok rule -> ws_state status = "VIDEO" ->
  let steps := plan_steps status (rule_steps rule) i nd sp rev obs adm ps in
  Forall only_video steps /\ (sp <> [] -> Forall video_unordered steps).
Proof.
  intros Hr Hv. apply rule_shape in Hr as (Hids & Hcps & Happl).
  assert (map (fun r => (rule_id r, checkpoint r)) (rule_steps rule) = _STEP_CHECKPOINTS) as Hpairs.
  { revert Hids Hcps. generalize _STEP_CHECKPOINTS as l. generalize (rule_steps rule) as rs.
    clear. induction rs as [|r rs IH]; intros [|[a b] l]; simpl; try done. intros [= <- H1] [= <- H2]. f_equal. by apply IH. }
  assert (Forall (fun rc => rc.2 = Some "VIDEO" -> rc.1 = "video") _STEP_CHECKPOINTS) as Hcv
    by (apply (bool_decide_unpack _); vm_compute; exact I).
  rewrite <- Hpairs in Hcv. apply Forall_map in Hcv. rewrite Forall_forall in Hcv.
  assert (Forall only_video (imap (baseline_step status i) (rule_steps rule))) as H0.
  { apply Forall_forall. intros s Hs. apply elem_of_lookup_imap in Hs as (k & r & -> & Hk).
    apply baseline_only_video; [done|]. apply (Hcv r). by eapply list_elem_of_lookup_2. }
  cbv zeta. split; [|intros Hsp]; apply plan_steps_local; try apply only_video_local; try apply video_unordered_local.
  - destruct sp as [|p sp]; [done|]. unfold mark_structure.
    assert (forall s, only_video s -> only_video (if skipped s then s else set_action None (set_state WorkflowStepState.PENDING s))) as Hh.
    { intros s Hs. destruct (skipped s); [done|]. by intros (a & Ha & _). }
    repeat (apply at_step_Forall; [|intros s Hs _; try by apply Hh]); [done|]. by intros (a & [= <-] & Ht).
  - apply structure_unorders; [done|]. apply Forall_forall. intros s Hs Hid.
    apply elem_of_lookup_imap in Hs as (k & r & -> & Hk). cbn [baseline_step ps_id ps_state] in *.
    assert (applicable r = true) as Ha by (apply Happl; [by eapply list_elem_of_lookup_2|rewrite Hid; left]).
    unfold _baseline_step_state. rewrite Ha. cbn [negb]. repeat case_match; done.
Qed.

(** Setting actions other than "generate videos" on steps that order videos at
    most at the video step. *)
Lemma wait_unorders obs steps :
  Forall only_video steps ->
  Forall (fun s => ~ orders_videos s)
    (at_step "video" (fun s => if bool_decide (ps_state s = WorkflowStepState.ACTIVE) then s else set_action None s)
       (map (fun s => if bool_decide (ps_state s = WorkflowStepState.ACTIVE) then set_action (Some (wait_action obs)) s else s) steps)).
Proof.
  intros Hov. unfold at_step. apply Forall_map, Forall_map.
  eapply Forall_impl; [exact Hov|]. intros s Hs (a & Ha & Ht). cbv beta in Ha.
  destruct (bool_decide (ps_state s = WorkflowStepState.ACTIVE)) eqn:E1.
  - cbn [ps_id set_action ps_state] in Ha. rewrite E1 in Ha. case_bool_decide; injection Ha as <-; done.
  - rewrite E1 in Ha. case_bool_decide as E2; [done|]. apply E2, Hs. by exists a.
Qed.

Lemma choose_unorders status steps :
  Forall only_video steps ->
  Forall (fun s => ~ orders_videos s)
    (at_step "video" (fun s => set_action None (set_state WorkflowStepState.PENDING s))
       (at_step "narration_delivery" (set_action (Some (choose_action status))) steps)).
Proof.
  intros Hov. unfold at_step. apply Forall_map, Forall_map.
  eapply Forall_impl; [exact Hov|]. intros s Hs (a & Ha & Ht). cbv beta in Ha.
  destruct (decide (ps_id s = "narration_delivery")) as [E1|E1].
  - rewrite (bool_decide_eq_true_2 (ps_id s = _)) in Ha by done. cbn [set_action ps_id] in Ha. rewrite E1 in Ha.
    by injection Ha as <-.
  - rewrite (bool_decide_eq_false_2 (ps_id s = _)) in Ha by done. case_bool_decide as E2; [done|]. apply E2, Hs. by exists a.
Qed.

(** The plan never sends anybody to generate videos too early: if, with
    nothing blocked, its next action or the action of any of its steps is to
    generate videos, then the script has no structural problem, no task is in
    flight, the narration delivery is chosen, and the batch was admitted or
    not submitted to admission. *)
Theorem plan_gates_videos status nd sp rev obs adm plan :
  build_workflow_plan status nd sp rev obs adm = Ok plan ->
  workflow_applicable (ws_project status) = true -> ws_blockers status = [] -> ws_state status = "VIDEO" ->
  na_type (pl_next_action plan) = WorkflowActionType.GENERATE_VIDEOS
  \/ (exists s a, s ∈ pl_steps plan /\ ps_action s = Some a /\ na_type a = WorkflowActionType.GENERATE_VIDEOS) ->
  sp = [] /\ (forall o, o ∈ obs -> in_flight o = false) /\ nd <> None
  /\ (forall d, adm = Some d -> decision_is "admitted" d = true).
Proof.
  unfold build_workflow_plan. intros H Happ Hb Hv Hg. rewrite Happ in H. cbn [negb] in H.
  destruct (wp_generation_mode (ws_project status)) as [gm|]; [|done].
  apply bind_Ok in H as (rule & Hr & (i & _ & (ps & _ & ([act steps] & Hd & [= <-])%bind_Ok)%bind_Ok)%bind_Ok).
  cbn [pl_next_action pl_steps fst snd] in *.
  destruct (plan_steps_orders status rule i nd sp rev obs adm ps _ gm Hr Hv) as [Hov Hsp].
  unfold decide_action in Hd. cbv zeta in Hd. rewrite Hb in Hd. rewrite (bool_decide_eq_true_2 ([] = [])) in Hd by done.
  cbn [negb] in Hd. set (steps0 := plan_steps _ _ _ _ _ _ _ _ _) in *.
  assert (na_type act <> WorkflowActionType.GENERATE_VIDEOS -> Forall (fun s => ~ orders_videos s) steps -> False) as Hno.
  { intros H1 H2. destruct Hg as [Hg|(s & a & Hs & Ha & Ht)]; [done|]. rewrite Forall_forall in H2. apply (H2 s Hs). by exists a. }
  destruct sp as [|p sp].
  2: { exfalso. injection Hd as <- <-. apply Hno; [done|]. specialize (Hsp ltac:(done)). apply Forall_forall. intros s Hs Ho.
       rewrite Forall_forall in Hov, Hsp. apply (Hsp s Hs); [by apply Hov|done]. }
  split; [done|]. destruct (where_ in_flight obs) as [|o os] eqn:Eact.
  2: { exfalso. injection Hd as <- <-. apply Hno; [done|]. by apply wait_unorders. }
  assert (forall o, o ∈ obs -> in_flight o = false) as Hfl by (by apply where_nil). split; [exact Hfl|].
  destruct (delivery_required status && bool_decide (nd = None)) eqn:Edel.
  { exfalso. injection Hd as <- <-. apply Hno; [done|]. by apply choose_unorders. }
  assert (na_type (ws_next_action status) = WorkflowActionType.GENERATE_VIDEOS ->  nd <> None) as Hnd.
  { intros Ht ->. unfold delivery_required in Edel. rewrite Hv, Ht in Edel. done. }
  assert (Forall (fun s => orders_videos s -> na_type (ws_next_action status) = WorkflowActionType.GENERATE_VIDEOS) steps0) as Hord.
  { apply plan_steps_local.
    - intros s s' _ Ha H (a & E & Ht). apply H. exists a. by rewrite <- Ha.
    - apply Forall_forall. intros s Hs (a & Ha & Ht). apply elem_of_lookup_imap in Hs as (k & r & -> & _).
      cbn [baseline_step ps_action] in Ha. case_bool_decide; [|done]. by injection Ha as ->. }
  assert (act = ws_next_action status -> steps = steps0 -> nd <> None) as Hok.
  { intros -> ->. destruct Hg as [Hg|(s & a & Hs & Ha & Ht)]; [by apply Hnd|]. rewrite Forall_forall in Hord.
    apply Hnd, (Hord s Hs). by exists a. }
  destruct adm as [d|]; [|injection Hd as <- <-; split; [by apply Hok|done]].
  destruct (decision_is "admitted" d) eqn:Edec; [injection Hd as <- <-; split; [by apply Hok|by intros ? [= <-]]|].
  exfalso. apply bind_Ok in Hd as (a & Ha & [= <- <-]).
  destruct (admission_action_total d ps (na_requested_ids (ws_next_action status))) as (a' & Ha' & Hne & _).
  rewrite Ha in Ha'. injection Ha' as <-. apply Hno; [done|]. unfold at_step. apply Forall_map.
  eapply Forall_impl; [exact Hov|]. intros s Hs (x & Hx & Ht). cbv beta in Hx.
  case_bool_decide as E; [injection Hx as <-; done|]. apply E, Hs. by exists x.
Qed.

(** *** The shape of a plan *)

Definition observed_at (id : string) (o : WorkflowTaskObservation) : bool :=
  bool_decide (aget (ob_task_type o) _TASK_STEP = Some id).

(** A step belongs to its rule: it has the name, the observations of its
    tasks, and it is skipped exactly if the rule does not apply and no task of
    it is in flight. *)
Definition step_of (obs : list WorkflowTaskObservation) (r : WorkflowStepRule) (s : WorkflowPlanStep) : Prop :=
  ps_id s = rule_id r /\ ps_tasks s = where_ (observed_at (rule_id r)) obs
  /\ (ps_state s = WorkflowStepState.SKIPPED
      <-> applicable r = false /\ forall o, o ∈ obs -> observed_at (rule_id r) o = true -> in_flight o = false).

Lemma at_step_rules (R R' : WorkflowStepRule -> WorkflowPlanStep -> Prop) id f rules steps :
  Forall2 R rules steps -> (forall r s, r ∈ rules -> R r s -> ps_id s = id -> R' r (f s)) ->
  (forall r s, r ∈ rules -> R r s -> ps_id s <> id -> R' r s) -> Forall2 R' rules (at_step id f steps).
Proof.
  intros H Hf Hg. unfold at_step. apply Forall2_fmap_r. apply Forall2_same_length_lookup_2.
  { by eapply Forall2_length. }
  intros k r s Hr Hs. assert (r ∈ rules) as Hin by (by eapply list_elem_of_lookup_2).
  assert (R r s) by (by eapply Forall2_lookup_lr). unfold compose. case_bool_decide; auto.
Qed.

Lemma step_of_state obs r s st :
  applicable r = true -> st <> WorkflowStepState.SKIPPED -> step_of obs r s -> step_of obs r (set_state st s).
Proof.
  intros Ha Hst (H1 & H2 & _). split; [done|]. split; [done|]. cbn [set_state ps_state].
  split; [done|]. intros [H _]. congruence.
Qed.

Lemma step_of_action obs r s a : step_of obs r s -> step_of obs r (set_action a s).
Proof. done. Qed.

Lemma observe_rules rules obs done steps :
  Forall2 (step_of done) rules steps -> Forall2 (step_of (done ++ obs)) rules (foldl observe steps obs).
Proof.
  revert done steps. induction obs as [|o obs IH]; intros done steps H; [by rewrite app_nil_r|]. cbn [foldl].
  replace (done ++ o :: obs) with ((done ++ [o]) ++ obs) by (by rewrite <- app_assoc). apply IH. clear IH.
  assert (forall r s, step_of done r s -> observed_at (rule_id r) o = false -> step_of (done ++ [o]) r s) as Hother.
  { intros r s (H1 & H2 & H3) Ho. split; [done|]. split.
    - rewrite List.filter_app. cbn [List.filter]. by rewrite Ho, app_nil_r.
    - rewrite H3. split; intros [Ha Hob]; (split; [done|]); intros x Hx.
      + apply elem_of_app in Hx as [Hx| ->%list_elem_of_singleton]; [by apply Hob|congruence].
      + apply Hob, elem_of_app. by left. }
  unfold observe. destruct (aget (ob_task_type o) _TASK_STEP) as [id|] eqn:E.
  - eapply at_step_rules; [exact H| |].
    + intros r s _ (H1 & H2 & H3) Hid. cbv zeta.
      assert (observed_at (rule_id r) o = true) as Ho by (apply bool_decide_eq_true_2; congruence).
      assert (ps_tasks (add_task o s) = where_ (observed_at (rule_id r)) (done ++ [o])) as Ht.
      { cbn [add_task ps_tasks]. rewrite H2, List.filter_app. cbn [List.filter]. by rewrite Ho. }
      destruct (in_flight o) eqn:Ef; (split; [done|]; split; [done|]); cbn [set_state add_task ps_state].
      * split; [done|]. intros [_ Hob]. rewrite Hob in Ef; [done|set_solver|done].
      * rewrite H3. split; intros [Ha Hob]; (split; [done|]); intros x Hx.
        -- apply elem_of_app in Hx as [Hx| ->%list_elem_of_singleton]; [by apply Hob|done].
        -- apply Hob, elem_of_app. by left.
    + intros r s _ Hs Hne. apply Hother; [done|]. apply bool_decide_eq_false_2. destruct Hs as [H1 _]. congruence.
  - eapply Forall2_impl; [exact H|]. intros r s Hs. apply Hother; [done|]. apply bool_decide_eq_false_2. congruence.
Qed.

Lemma plan_steps_rules status rule i nd sp rev obs adm ps cm gm :
  workflow_rule cm gm = Ok rule ->
  Forall2 (step_of obs) (rule_steps rule) (plan_steps status (rule_steps rule) i nd sp rev obs adm ps).
Proof.
  intros Hr. apply rule_shape in Hr as (_ & _ & Happl).
  assert (forall r s id, r ∈ rule_steps rule -> step_of [] r s -> ps_id s = id ->
            id ∈ ["video"; "script_structure"; "narration_delivery"] -> applicable r = true) as Ha.
  { intros r s id Hin [H1 _] Hid Hm. apply Happl; [done|]. congruence. }
  assert (Forall2 (step_of []) (rule_steps rule) (imap (baseline_step status i) (rule_steps rule))) as H0.
  { apply Forall2_same_length_lookup_2; [by rewrite length_imap|]. intros k r s Hk Hs.
    rewrite list_lookup_imap, Hk in Hs. injection Hs as <-. split; [done|]. split; [done|].
    cbn [baseline_step ps_state]. unfold _baseline_step_state. destruct (applicable r); cbn [negb].
    - split; [repeat case_match; done|by intros [? _]].
    - rewrite andb_false_r. split; [|done]. intros _. split; [done|]. by intros o ?%not_elem_of_nil. }
  assert (Forall2 (step_of []) (rule_steps rule) (mark_structure sp rev (imap (baseline_step status i) (rule_steps rule)))) as H1.
  { destruct sp as [|p sp]; [done|]. unfold mark_structure.
    assert (forall r s, step_of [] r s ->
      step_of [] r (if skipped s then s else set_action None (set_state WorkflowStepState.PENDING s))) as Hh.
    { intros r s (E1 & E2 & E3). unfold skipped. case_bool_decide as E; [done|]. split; [done|]. split; [done|].
      cbn. split; [done|]. intros H. by apply E3 in H. }
    repeat (eapply at_step_rules; [|intros r s _ Hs _; by apply Hh|done]).
    eapply at_step_rules; [exact H0| |done]. intros r s Hin Hs Hid. apply (step_of_state [] r s); [|done|done].
    eapply Ha; [done..|]. set_solver. }
  unfold plan_steps. cbv zeta. eapply at_step_rules; [apply (observe_rules _ obs [])| |done].
  - destruct sp as [|p sp]; [|exact H1]. case_match; [|exact H1]. eapply at_step_rules; [exact H1| |done].
    intros r s Hin Hs Hid. unfold mark_delivery. case_match; [done|]. apply step_of_state; [|by destruct nd|done].
    eapply Ha; [done..|]. set_solver.
  - intros r s Hin Hs Hid. cbv zeta. assert (applicable r = true) as Hap.
    { apply Happl; [done|]. destruct Hs as [H2 _]. rewrite <- H2, Hid. left. }
    destruct adm; [case_match; [by apply (step_of_state obs r s)|done]|done].
Qed.

Lemma decide_action_rules status nd sp rev obs adm ps rule cm gm act steps steps' :
  workflow_rule cm gm = Ok rule -> Forall2 (step_of obs) (rule_steps rule) steps ->
  decide_action status nd sp rev obs adm ps steps = Ok (act, steps') ->
  Forall2 (step_of obs) (rule_steps rule) steps'.
Proof.
  intros (_ & _ & Happl)%rule_shape H. unfold decide_action. cbv zeta. destruct (negb _); [by intros [= _ <-]|].
  destruct sp; [|by intros [= _ <-]]. destruct (where_ in_flight obs).
  2: { intros [= _ <-]. apply (at_step_rules (step_of obs) (step_of obs)); [| |done].
       - apply Forall2_fmap_r. eapply Forall2_impl; [exact H|]. intros r s Hs. unfold compose. by case_bool_decide.
       - intros r s _ Hs _. by case_bool_decide. }
  case_match.
  - intros [= _ <-]. apply (at_step_rules (step_of obs) (step_of obs));
      [apply (at_step_rules (step_of obs) (step_of obs)); [exact H|done|done]| |done].
    intros r s Hin Hs Hid. apply step_of_action, step_of_state; [|done|done].
    apply Happl; [done|]. destruct Hs as [H2 _]. rewrite <- H2, Hid. left.
  - destruct adm as [d|]; [|by intros [= _ <-]]. destruct (decision_is _ _); [by intros [= _ <-]|].
    intros (a & _ & [= _ <-])%bind_Ok. by apply (at_step_rules (step_of obs) (step_of obs)).
Qed.

Lemma decide_action_total status nd sp rev obs adm ps steps :
  exists out, decide_action status nd sp rev obs adm ps steps = Ok out.
Proof.
  unfold decide_action. cbv zeta. destruct (negb _); [by eexists|]. destruct sp; [|by eexists].
  destruct (where_ in_flight obs); [|by eexists]. case_match; [by eexists|]. destruct adm as [d|]; [|by eexists].
  destruct (decision_is _ _); [by eexists|].
  destruct (admission_action_total d ps (na_requested_ids (ws_next_action status))) as (a & -> & _). by eexists.
Qed.

(** C21: A plan is well formed and exists whenever it can: for a project with a
    fixed workflow, building fails only on an unknown pair of modes, a state
    no step of the pair owns, or admission facts that do not validate;
    otherwise the plan has the thirteen steps in order, each with the
    observations of its own tasks and skipped exactly if it does not apply
    and nothing runs for it, and lists all problems. *)
Theorem plan_well_formed status nd sp rev obs adm gm :
  workflow_applicable (ws_project status) = true -> wp_generation_mode (ws_project status) = Some gm ->
  match build_workflow_plan status nd sp rev obs adm with
  | Ok plan =>
      exists rule ps, workflow_rule (wp_content_mode (ws_project status)) gm = Ok rule
        /\ map ps_id (pl_steps plan) = map fst _STEP_CHECKPOINTS
        /\ Forall2 (step_of obs) (rule_steps rule) (pl_steps plan)
        /\ _admission_problems adm = Ok ps /\ pl_problems plan = sp ++ ps
  | Raise _ =>
      (forall rule, workflow_rule (wp_content_mode (ws_project status)) gm <> Ok rule)
      \/ (exists rule, workflow_rule (wp_content_mode (ws_project status)) gm = Ok rule
           /\ na_type (ws_next_action status) <> WorkflowActionType.REPAIR_VIDEO_UNITS
           /\ forall r, r ∈ rule_steps rule -> applicable r = true -> checkpoint r <> Some (ws_state status))
      \/ (exists e, _admission_problems adm = Raise e)
  end.
Proof.
  intros Ha Hgm. unfold build_workflow_plan. rewrite Ha, Hgm. cbn [negb].
  destruct (workflow_rule _ gm) as [rule|] eqn:Er; cbn [bind]; [|by left].
  destruct (_current_rule_index status (rule_steps rule)) as [i|e] eqn:Ei; cbn [bind].
  - destruct (_admission_problems adm) as [ps|e] eqn:Ep; cbn [bind]; [|right; right; by exists e].
    set (steps := plan_steps _ _ _ _ _ _ _ _ _).
    destruct (decide_action_total status nd sp rev obs adm ps steps) as ([act steps'] & Hd). rewrite Hd. cbn [bind].
    pose proof (plan_steps_rules status rule i nd sp rev obs adm ps _ gm Er) as Hs.
    pose proof (decide_action_rules _ _ _ _ _ _ _ _ _ _ _ _ _ Er Hs Hd) as Hs'.
    exists rule, ps. cbn [pl_steps pl_problems snd]. split; [done|]. split; [|done].
    apply rule_shape in Er as (<- & _). clear -Hs'. induction Hs' as [|r s rs ss (H1 & _) _ IH]; [done|].
    cbn [map]. by rewrite H1, IH.
  - right. left. exists rule. split; [done|]. revert Ei. unfold _current_rule_index, is_repair.
    assert (forall p (l : list WorkflowStepRule), index_of p l = None -> forall r, r ∈ l -> p r = false) as Hnone.
    { intros p l. induction l as [|x l IH]; intros H r Hr; [by apply not_elem_of_nil in Hr|]. simpl in H.
      destruct (p x) eqn:Ex; [done|]. destruct (index_of p l); [done|].
      apply elem_of_cons in Hr as [-> |Hr]; [done|by apply IH]. }
    case_bool_decide as Et.
    + destruct (index_of _ _) eqn:Ex; [done|]. exfalso. apply rule_shape in Er as (Hids & _ & _).
      assert ("script_structure" ∈ map rule_id (rule_steps rule)) as Hin by (rewrite Hids; vm_compute; set_solver).
      apply list_elem_of_fmap in Hin as (r & Hr & Hin). apply (Hnone _ _ Ex) in Hin. by rewrite bool_decide_eq_true_2 in Hin.
    + destruct (index_of _ _) eqn:Ex; [done|]. intros _. split; [done|]. intros r Hr Hap Hc.
      apply (Hnone _ _ Ex) in Hr. rewrite Hap, Hc in Hr. by rewrite bool_decide_eq_true_2 in Hr.
Qed.

(** *** Plans and admission *)

Lemma video_index cm gm rule status :
  workflow_rule cm gm = Ok rule -> ws_state status = "VIDEO" ->
  na_type (ws_next_action status) = WorkflowActionType.GENERATE_VIDEOS ->
  exists i, _current_rule_index status (rule_steps rule) = Ok i.
Proof.
  unfold workflow_rule. destruct (aget (cm, gm) WORKFLOW_RULES) as [r'|] eqn:E; [|done]. intros [= <-] Hv Ht.
  apply aget_Some_elem in E. apply (list_elem_of_fmap_2 snd) in E. cbn [snd] in E.
  assert (Forall (fun r => is_Some (index_of (fun r => applicable r && bool_decide (checkpoint r = Some "VIDEO")) (rule_steps r)))
            WORKFLOW_RULES.*2) as H by (apply (bool_decide_unpack _); vm_compute; exact I).
  rewrite Forall_forall in H. destruct (H _ E) as [i Hi]. exists i. unfold _current_rule_index, is_repair.
  rewrite Ht, Hv. cbn [bool_decide]. by rewrite Hi.
Qed.

Section admission.
Context {amount : Type} (to_amount : json -> amount) (zero : amount) (add : amount -> amount -> amount)
        (amount_json : amount -> json).
Abbreviation payload := (to_payload to_amount zero add amount_json).

(** The problems a ticket is shown with. *)
Definition shown_problems (a : BatchAdmission) (t : UnitAdmissionTicket) : list GenerationProblem :=
  match withheld_problem_for a t with Some w => [w] | None => problems t end.

Lemma payload_problems a : _admission_problems (Some (payload a)) = Ok (concat (map (shown_problems a) (tickets a))).
Proof.
  change (_admission_problems (Some (payload a))) with
    (let! ps := map_result unit_problems (map (fun t => JObj (unit_payload a t)) (tickets a)) in Ok (concat ps)).
  assert (map_result unit_problems (map (fun t => JObj (unit_payload a t)) (tickets a))
    = Ok (map (shown_problems a) (tickets a))) as ->; [|done].
  induction (tickets a) as [|t ts IH]; [done|]. cbn [map map_result].
  assert (unit_problems (JObj (unit_payload a t)) = Ok (shown_problems a t)) as ->; [|cbn [bind]; by rewrite IH].
  assert (forall l, map_result problem_of_json (map problem_json l) = Ok l) as Hl.
  { induction l as [|p l IHl]; [done|]. cbn [map map_result]. rewrite problem_round_trip. cbn [bind]. by rewrite IHl. }
  unfold unit_problems, shown_problems, unit_payload. cbv zeta.
  destruct (withheld_problem_for a t) as [w|].
  - rewrite dict_get_set_eq. cbn [default]. apply (Hl [w]).
  - rewrite dict_get_set_ne by done. change (dict_get (u "problems") (ticket_payload t)) with (Some (JArr (map problem_json (problems t)))).
    cbn [default]. apply Hl.
Qed.

Lemma payload_decision a v :
  decision_is v (payload a) = bool_decide (BatchAdmissionDecision.value (decision a) = u v).
Proof. reflexivity. Qed.

(** The plan reports what admission decided: when only admission is left
    to decide, the plan exists and lists every problem the batch is shown
    with; an admitted batch is sent on; a refused one gets the action of the
    first ticket, asking for confirmation exactly when the decision is to
    confirm.  The first ticket may be one that is merely held back by
    others, and then the action is to retry, whatever the others need. *)
Theorem plan_follows_admission a status nd rev obs gm rule :
  workflow_applicable (ws_project status) = true -> wp_generation_mode (ws_project status) = Some gm ->
  workflow_rule (wp_content_mode (ws_project status)) gm = Ok rule ->
  ws_blockers status = [] -> ws_state status = "VIDEO" ->
  na_type (ws_next_action status) = WorkflowActionType.GENERATE_VIDEOS ->
  (forall o, o ∈ obs -> in_flight o = false) ->
  exists plan, build_workflow_plan status (Some nd) [] rev obs (Some (payload a)) = Ok plan
    /\ pl_problems plan = concat (map (shown_problems a) (tickets a))
    /\ (batch_admitted a = true -> pl_next_action plan = ws_next_action status)
    /\ (batch_admitted a = false ->
          na_requires_confirmation (pl_next_action plan)
            = bool_decide (decision a = BatchAdmissionDecision.CONFIRMATION_REQUIRED)
          /\ exists t ts, tickets a = t :: ts
             /\ WorkflowActionType.of_value (action_value (match problems t with p :: _ => p_action p | [] => GenerationAction.RETRY end))
                = Ok (na_type (pl_next_action plan))).
Proof.
  intros Happ Hgm Hr Hb Hv Ht Hobs. unfold build_workflow_plan. rewrite Happ, Hgm. cbn [negb]. rewrite Hr. cbn [bind].
  destruct (video_index _ _ _ _ Hr Hv Ht) as [i ->]. cbn [bind]. rewrite payload_problems. cbn [bind].
  set (ps := concat _). set (steps := plan_steps _ _ _ _ _ _ _ _ _). unfold decide_action. cbv zeta. rewrite Hb.
  rewrite (bool_decide_eq_true_2 ([] = [])) by done. cbn [negb]. rewrite (proj2 (where_nil in_flight obs) Hobs).
  rewrite (bool_decide_eq_false_2 (Some nd = None)) by done. rewrite andb_false_r. rewrite payload_decision.
  assert (bool_decide (BatchAdmissionDecision.value (decision a) = u "admitted") = batch_admitted a) as ->.
  { unfold batch_admitted. by destruct (decision a). }
  destruct (batch_admitted a) eqn:Ea.
  - cbn [bind]. eexists. split; [reflexivity|]. split; [done|]. by split.
  - destruct (admission_action_total (payload a) ps (na_requested_ids (ws_next_action status))) as (act & -> & _ & Hc & Hp).
    cbn [bind]. eexists. split; [reflexivity|]. cbn [pl_problems pl_next_action fst]. split; [done|]. split; [done|]. intros _.
    split; [rewrite Hc, payload_decision; by destruct (decision a)|].
    unfold batch_admitted in Ea. apply bool_decide_eq_false in Ea.
    destruct (tickets a) as [|t ts] eqn:Et; [by unfold decision, refused_tickets in Ea; rewrite Et in Ea|].
    exists t, ts. split; [done|]. unfold ps in Hp. cbn [map concat] in Hp.
    destruct (problems t) as [|p l] eqn:Epr.
    + assert (shown_problems a t = [_withheld_problem (holding_unit_ids a)]) as Hsp.
      { unfold shown_problems, withheld_problem_for, ticket_admitted. rewrite Epr. cbn [negb].
        destruct (holding_unit_ids a) eqn:Eh; [|done]. unfold holding_unit_ids in Eh. apply map_eq_nil in Eh.
        by unfold decision in Ea; rewrite Eh in Ea. }
      rewrite Hsp in Hp. by apply (Hp _ _ eq_refl).
    + assert (shown_problems a t = p :: l) as Hsp.
      { unfold shown_problems, withheld_problem_for, ticket_admitted. rewrite Epr. by destruct (holding_unit_ids a). }
      rewrite Hsp in Hp. by apply (Hp _ _ eq_refl).
Qed.
End admission.

(** ** Witnesses *)

Definition demo_generate : WorkflowNextAction := mkAction WorkflowActionType.GENERATE_VIDEOS [] [u "U1"] false (u "videos").
Definition demo_status : WorkflowStatus :=
  mkStatus (mkProjectModes "drama" (Some "storyboard") false true) "VIDEO" [] [(("videos"), [])] demo_generate.
Definition demo_observed : WorkflowTaskObservation := mkObservation (u "U1") "t1" "video" succeeded None None.

Lemma plan_gates_videos_witness :
  exists plan, build_workflow_plan demo_status (Some USE_TTS) [] None [demo_observed] None = Ok plan
    /\ na_type (pl_next_action plan) = WorkflowActionType.GENERATE_VIDEOS
    /\ (forall o, o ∈ [demo_observed] -> in_flight o = false).
Proof.
  destruct (build_workflow_plan demo_status (Some USE_TTS) [] None [demo_observed] None) as [plan|] eqn:E;
    [|vm_compute in E; discriminate].
  exists plan. split; [done|].
  assert (na_type (pl_next_action plan) = WorkflowActionType.GENERATE_VIDEOS) as Ht
    by (vm_compute in E; injection E as <-; reflexivity).
  split; [done|]. by destruct (plan_gates_videos _ _ _ _ _ _ _ E) as (_ & H & _); [reflexivity..|left|].
Defined.

Lemma plan_well_formed_witness :
  exists plan, build_workflow_plan demo_status None [] None [] None = Ok plan
    /\ map ps_id (pl_steps plan) = map fst _STEP_CHECKPOINTS
    /\ na_type (pl_next_action plan) = WorkflowActionType.CHOOSE_NARRATION_DELIVERY.
Proof.
  pose proof (plan_well_formed demo_status None [] None [] None "storyboard" eq_refl eq_refl) as H.
  destruct (build_workflow_plan demo_status None [] None [] None) as [plan|] eqn:E; [|vm_compute in E; discriminate].
  destruct H as (rule & ps & _ & H & _). exists plan. split; [done|]. split; [exact H|].
  vm_compute in E. injection E as <-. reflexivity.
Defined.

(** A batch whose first unit passed and whose second needs consent. *)
Definition demo_mixed : BatchAdmission :=
  mkAdmission (u "videos") GenerationSelectionMode.EXPLICIT (u "use_tts")
    [mkTicket (u "U1") [] None None None None; demo_consent "U2" []].

Lemma plan_follows_admission_witness :
  exists plan, build_workflow_plan demo_status (Some USE_TTS) [] None []
      (Some (to_payload demo_amount 0%Z Z.add JInt demo_mixed)) = Ok plan
    /\ decision demo_mixed = BatchAdmissionDecision.CONFIRMATION_REQUIRED
    /\ na_requires_confirmation (pl_next_action plan) = true
    /\ na_type (pl_next_action plan) = WorkflowActionType.RETRY.
Proof.
  destruct (workflow_rule "drama" "storyboard") as [rule|] eqn:Er; [|vm_compute in Er; discriminate].
  destruct (plan_follows_admission demo_amount 0%Z Z.add JInt demo_mixed demo_status USE_TTS None [] "storyboard" rule)
    as (plan & Hp & _ & _ & H); [reflexivity|reflexivity|exact Er|reflexivity|reflexivity|reflexivity|by intros o ?%not_elem_of_nil|].
  destruct (H eq_refl) as (Hc & t & ts & [= <- <-] & Ht). exists plan. split; [exact Hp|]. split; [reflexivity|].
  split; [exact Hc|]. change (Ok WorkflowActionType.RETRY = Ok (na_type (pl_next_action plan))) in Ht. by injection Ht as <-.
Defined.
