(* ===== verification/Speech.v ===== *)
(** * Who speaks in a unit: [lib/speech_composition/__init__.py]

    Each kind of script unit is adapted to an ordered list of utterances with
    the problems found on the way; one function decides from it whether the
    unit is spoken by characters, by a narrator or by nobody, and a unit with
    any problem is not admitted.  A unit is a JSON object; a missing member is
    [None], as the sentinel of the program. *)

From S2P Require Import Prelude Json Checkpoint Assets ShotParser.

Inductive SpeechOwner := CHARACTER | NARRATOR.
Inductive SpeechMode := CHARACTER_SPEECH | NARRATOR_VOICEOVER | SILENT.
Inductive SpeechProblemCode := MIXED_SPEECH | NEEDS_REPLAN | PARSE_FAILED | EMPTY_SPEAKER.
Inductive SpeechProblemReason :=
| CHARACTER_AND_NARRATOR_MIXED | UNIT_MARKED_NEEDS_REPLAN | SPEECH_INPUT_UNPARSEABLE | CHARACTER_SPEAKER_EMPTY.
Inductive SpeechProblemAction := REPLAN_UNIT | FIX_INPUT | ASSIGN_SPEAKER.

#[global] Instance SpeechOwner_eq_dec : EqDecision SpeechOwner.
Proof. solve_decision. Defined.

(** A member name or a position. *)
Inductive path_item := Key (k : string) | At (i : nat).

Record SpeechFieldLocation := mkLocation { loc_path : list path_item; loc_line : option nat }.

Record SpeechProblem := mkSpeechProblem {
  sp_code : SpeechProblemCode;
  sp_unit_id : pystr;
  sp_locations : list SpeechFieldLocation;
  sp_reason : SpeechProblemReason;
  sp_action : SpeechProblemAction
}.

Record SpeechInputUtterance := mkInput {
  si_text : pystr;
  si_speaker : option pystr;
  si_speaker_required : bool;
  si_location : SpeechFieldLocation
}.

Record SpeechUtterance := mkUtterance {
  su_owner : SpeechOwner;
  su_text : pystr;
  su_speaker : option pystr;
  su_location : SpeechFieldLocation
}.

Record SpeechUnitSnapshot := mkSnapshot {
  ss_unit_id : pystr;
  ss_entries : list SpeechInputUtterance;
  ss_problems : list SpeechProblem
}.

Record SpeechPreparation := mkPreparation {
  pr_unit_id : pystr;
  pr_mode : option SpeechMode;
  pr_utterances : list SpeechUtterance;
  pr_problems : list SpeechProblem
}.

#[export] Instance code_eq_dec : EqDecision SpeechProblemCode.
Proof. solve_decision. Defined.
#[export] Instance reason_eq_dec : EqDecision SpeechProblemReason.
Proof. solve_decision. Defined.
#[export] Instance action_eq_dec : EqDecision SpeechProblemAction.
Proof. solve_decision. Defined.
#[export] Instance mode_eq_dec : EqDecision SpeechMode.
Proof. solve_decision. Defined.
#[export] Instance path_item_eq_dec : EqDecision path_item.
Proof. solve_decision. Defined.
#[export] Instance location_eq_dec : EqDecision SpeechFieldLocation.
Proof. solve_decision. Defined.
#[export] Instance speech_problem_eq_dec : EqDecision SpeechProblem.
Proof. solve_decision. Defined.
#[export] Instance utterance_eq_dec : EqDecision SpeechUtterance.
Proof. solve_decision. Defined.
#[export] Instance preparation_eq_dec : EqDecision SpeechPreparation.
Proof. solve_decision. Defined.

(** The texts of the enumerations. *)
Definition speech_code_value (c : SpeechProblemCode) : string :=
  match c with MIXED_SPEECH => "mixed_speech" | NEEDS_REPLAN => "needs_replan" | PARSE_FAILED => "parse_failed" | EMPTY_SPEAKER => "empty_speaker" end.
Definition speech_reason_value (r : SpeechProblemReason) : string :=
  match r with
  | CHARACTER_AND_NARRATOR_MIXED => "character_and_narrator_mixed"
  | UNIT_MARKED_NEEDS_REPLAN => "unit_marked_needs_replan"
  | SPEECH_INPUT_UNPARSEABLE => "speech_input_unparseable"
  | CHARACTER_SPEAKER_EMPTY => "character_speaker_empty"
  end.
Definition speech_action_value (a : SpeechProblemAction) : string :=
  match a with REPLAN_UNIT => "replan_unit" | FIX_INPUT => "fix_input" | ASSIGN_SPEAKER => "assign_speaker" end.

(** [SpeechAdmission.allowed] *)
Definition allowed (p : SpeechPreparation) : bool := match pr_problems p with [] => true | _ => false end.

(** [x or None] on text. *)
Definition or_none (s : pystr) : option pystr := match s with [] => None | _ => Some s end.

Definition at_path (p : list path_item) : SpeechFieldLocation := mkLocation p None.

Definition _empty_speaker_problem (unit_id : pystr) (loc : SpeechFieldLocation) : SpeechProblem :=
  mkSpeechProblem EMPTY_SPEAKER unit_id [loc] CHARACTER_SPEAKER_EMPTY ASSIGN_SPEAKER.

Definition _parse_problem (unit_id : pystr) (loc : SpeechFieldLocation) : SpeechProblem :=
  mkSpeechProblem PARSE_FAILED unit_id [loc] SPEECH_INPUT_UNPARSEABLE FIX_INPUT.

(** ** Composition *)

Definition speaker_of (e : SpeechInputUtterance) : pystr := match si_speaker e with Some s => strip s | None => [] end.

Definition utterance_of (e : SpeechInputUtterance) : SpeechUtterance :=
  let speaker := speaker_of e in
  mkUtterance (if negb (bool_decide (speaker = [])) || si_speaker_required e then CHARACTER else NARRATOR)
    (si_text e) (or_none speaker) (si_location e).

Definition entry_problems (unit_id : pystr) (e : SpeechInputUtterance) : list SpeechProblem :=
  if si_speaker_required e && bool_decide (speaker_of e = []) then [_empty_speaker_problem unit_id (si_location e)] else [].

Definition owned_by (o : SpeechOwner) (l : list SpeechUtterance) : bool :=
  List.existsb (fun x => bool_decide (su_owner x = o)) l.

Definition prepare (snapshot : SpeechUnitSnapshot) : SpeechPreparation :=
  let id := ss_unit_id snapshot in
  let utterances := map utterance_of (ss_entries snapshot) in
  let found := ss_problems snapshot ++ flat_map (entry_problems id) (ss_entries snapshot) in
  let char := owned_by CHARACTER utterances in
  let narr := owned_by NARRATOR utterances in
  let problems := if char && narr
                  then found ++ [mkSpeechProblem MIXED_SPEECH id (map su_location utterances) CHARACTER_AND_NARRATOR_MIXED REPLAN_UNIT]
                  else found in
  mkPreparation id
    (match problems with
     | _ :: _ => None
     | [] => Some (if char then CHARACTER_SPEECH else if narr then NARRATOR_VOICEOVER else SILENT)
     end) utterances problems.

(** ** Adapters *)

(** The two lists an adapter fills. *)
Definition acc : Type := list SpeechInputUtterance * list SpeechProblem.
Definition add_problem (p : SpeechProblem) (a : acc) : acc := (a.1, a.2 ++ [p]).
Definition add_entry (e : SpeechInputUtterance) (a : acc) : acc := (a.1 ++ [e], a.2).

Definition text_member (key : string) (d : dict) : pystr :=
  match dict_get (u key) d with Some (JStr s) => s | _ => [] end.

Definition _initial_problems (source : dict) (unit_id : pystr) (id_field : string) : list SpeechProblem :=
  (if blank_text unit_id then [_parse_problem unit_id (at_path [Key id_field])] else [])
  ++ match dict_get (u "needs_replan") source with
     | Some (JBool true) =>
         [mkSpeechProblem NEEDS_REPLAN unit_id [at_path [Key "needs_replan"]] UNIT_MARKED_NEEDS_REPLAN REPLAN_UNIT]
     | None | Some JNull | Some (JBool false) => []
     | Some _ => [_parse_problem unit_id (at_path [Key "needs_replan"])]
     end.

Definition _append_structured_entry (unit_id : pystr) (text speaker : option json) (speaker_required : bool)
    (text_location speaker_location : SpeechFieldLocation) (a : acc) : acc :=
  match text with
  | Some (JStr t) =>
      if blank_text t then add_problem (_parse_problem unit_id text_location) a
      else
        let go (named : pystr) :=
          if negb speaker_required && negb (bool_decide (named = [])) then add_problem (_parse_problem unit_id speaker_location) a
          else add_entry (mkInput t (or_none named) speaker_required
                            (if speaker_required && bool_decide (named = []) then speaker_location else text_location)) a in
        match speaker with
        | None | Some JNull => go []
        | Some (JStr s) => go (strip s)
        | Some _ => add_problem (_parse_problem unit_id speaker_location) a
        end
  | _ => add_problem (_parse_problem unit_id text_location) a
  end.

(** [for index, raw in enumerate(l)] with the accumulator. *)
Fixpoint each_indexed {A} (f : nat -> A -> acc -> acc) (i : nat) (l : list A) (a : acc) : acc :=
  match l with
  | [] => a
  | x :: l' => each_indexed f (S i) l' (f i x a)
  end.

Definition _append_video_prompt_dialogue (unit_id : pystr) (video_prompt : option json) (a : acc) : acc :=
  match video_prompt with
  | Some (JStr _) => a
  | Some (JObj vp) =>
      match dict_get (u "dialogue") vp with
      | Some (JArr l) =>
          each_indexed (fun i raw a =>
            match raw with
            | JObj d => _append_structured_entry unit_id (dict_get (u "line") d) (dict_get (u "speaker") d) true
                          (at_path [Key "video_prompt"; Key "dialogue"; At i; Key "line"])
                          (at_path [Key "video_prompt"; Key "dialogue"; At i; Key "speaker"]) a
            | _ => add_problem (_parse_problem unit_id (at_path [Key "video_prompt"; Key "dialogue"; At i])) a
            end) 0 l a
      | None | Some JNull => a
      | Some _ => add_problem (_parse_problem unit_id (at_path [Key "video_prompt"; Key "dialogue"])) a
      end
  | _ => add_problem (_parse_problem unit_id (at_path [Key "video_prompt"])) a
  end.

(** An object of [l] with a list or an object under [key], which cannot be
    looked up in a set. *)
Definition unhashable (key : string) (l : option json) : bool :=
  match l with
  | Some (JArr items) =>
      List.existsb (fun x => match x with
        | JObj d => match dict_get (u key) d with Some (JArr _) | Some (JObj _) => true | _ => false end
        | _ => false
        end) items
  | _ => false
  end.

Definition snapshot_of (unit_id : pystr) (a : acc) : SpeechUnitSnapshot := mkSnapshot unit_id a.1 a.2.

Definition adapt_narration_segment (segment : dict) : result SpeechUnitSnapshot :=
  let id := text_member "segment_id" segment in
  let a := _append_video_prompt_dialogue id (dict_get (u "video_prompt") segment)
             ([], _initial_problems segment id "segment_id") in
  Ok (snapshot_of id
    (match dict_get (u "novel_text") segment with
     | Some (JStr t) => if blank_text t then add_problem (_parse_problem id (at_path [Key "novel_text"])) a
                        else add_entry (mkInput t None false (at_path [Key "novel_text"])) a
     | _ => add_problem (_parse_problem id (at_path [Key "novel_text"])) a
     end)).

(** One entry of [utterances]. *)
Definition drama_utterance (id : pystr) (i : nat) (raw : json) (a : acc) : acc :=
  match raw with
  | JObj d =>
      let kind k := match dict_get (u "kind") d with Some (JStr s) => bool_decide (s = u k) | _ => false end in
      if negb (kind "dialogue" || kind "voiceover")
      then add_problem (_parse_problem id (at_path [Key "utterances"; At i; Key "kind"])) a
      else _append_structured_entry id (dict_get (u "text") d) (dict_get (u "speaker") d) (kind "dialogue")
             (at_path [Key "utterances"; At i; Key "text"]) (at_path [Key "utterances"; At i; Key "speaker"]) a
  | _ => add_problem (_parse_problem id (at_path [Key "utterances"; At i])) a
  end.

(** One entry of the former [video_prompt.dialogue]. *)
Definition legacy_dialogue (id : pystr) (i : nat) (raw : json) (a : acc) : acc :=
  match raw with
  | JObj d =>
      let line := at_path [Key "video_prompt"; Key "dialogue"; At i; Key "line"] in
      let who := at_path [Key "video_prompt"; Key "dialogue"; At i; Key "speaker"] in
      let go (named : pystr) :=
        _append_structured_entry id (dict_get (u "line") d) (JStr <$> or_none named) (negb (bool_decide (named = []))) line who a in
      match dict_get (u "speaker") d with
      | None | Some JNull => go []
      | Some (JStr s) => go (strip s)
      | Some _ => add_problem (_parse_problem id who) a
      end
  | _ => add_problem (_parse_problem id (at_path [Key "video_prompt"; Key "dialogue"; At i])) a
  end.

Definition adapt_drama_scene (scene : dict) : result SpeechUnitSnapshot :=
  let id := text_member "scene_id" scene in
  let a := ([], _initial_problems scene id "scene_id") in
  if unhashable "kind" (dict_get (u "utterances") scene) then Raise TypeError
  else Ok (snapshot_of id
    (match dict_get (u "utterances") scene with
     | Some (JArr l) => each_indexed (drama_utterance id) 0 l a
     | Some _ => add_problem (_parse_problem id (at_path [Key "utterances"])) a
     | None =>
         let dialogue := match dict_get (u "video_prompt") scene with Some (JObj vp) => dict_get (u "dialogue") vp | _ => None end in
         let a1 := match dialogue with
                   | Some (JArr l) => each_indexed (legacy_dialogue id) 0 l a
                   | None | Some JNull => a
                   | Some _ => add_problem (_parse_problem id (at_path [Key "video_prompt"; Key "dialogue"])) a
                   end in
         match dict_get (u "voiceover") scene with
         | Some (JArr l) =>
             each_indexed (fun i t a => _append_structured_entry id (Some t) None false (at_path [Key "voiceover"; At i])
                                          (at_path [Key "voiceover"; At i]) a) 0 l a1
         | None | Some JNull => a1
         | Some _ => add_problem (_parse_problem id (at_path [Key "voiceover"])) a1
         end
     end)).

Definition adapt_ad_shot (shot : dict) : result SpeechUnitSnapshot :=
  let id := text_member "shot_id" shot in
  let a := _append_video_prompt_dialogue id (dict_get (u "video_prompt") shot) ([], _initial_problems shot id "shot_id") in
  Ok (snapshot_of id
    (match dict_get (u "voiceover_text") shot with
     | Some (JStr t) => if blank_text t then a else add_entry (mkInput t None false (at_path [Key "voiceover_text"])) a
     | _ => add_problem (_parse_problem id (at_path [Key "voiceover_text"])) a
     end)).

(** ** Reference-video units *)

Section units.
Context (nfc : pystr -> pystr) (float_true : pystr -> bool).

Definition _non_character_reference_names (raw : option json) : list pystr :=
  match raw with
  | Some (JArr l) =>
      omap (fun r => match r with
        | JObj d =>
            match dict_get (u "type") d, dict_get (u "name") d with
            | Some (JStr ty), Some (JStr name) =>
                if bool_decide (ty ∈ map u ["product"; "scene"; "prop"]) && negb (blank_text name)
                then Some (normalize_asset_name nfc (strip name)) else None
            | _, _ => None
            end
        | _ => None
        end) l
  | _ => []
  end.

(** [_EMPTY_SPEAKER_LINE.match]: the words between the braces. *)
Definition empty_speaker_line (s : pystr) : option pystr :=
  match lstrip s with
  | a :: b :: s1 =>
      if (a =? c_at)%N && (b =? c_open)%N then
        match lstrip s1 with
        | c :: s2 =>
            if (c =? c_close)%N then
              match lstrip s2 with
              | d :: s3 =>
                  if bool_decide (d ∈ _SPEAKER_SEPARATORS) then
                    match lstrip s3 with
                    | e :: s4 =>
                        let n := distance [123; 125]%N s4 in
                        match drop n s4 with
                        | f :: s5 => if (e =? 123)%N && (0 <? n) && (f =? 125)%N && blank_text s5 then Some (take n s4) else None
                        | [] => None
                        end
                    | [] => None
                    end
                  else None
              | [] => None
              end
            else None
        | [] => None
        end
      else None
  | _ => None
  end.

Definition mark_entry (location : SpeechFieldLocation) (m : SpeechMark) : SpeechInputUtterance :=
  mkInput (sm_text m) (or_none (sm_speaker m)) (negb (bool_decide (sm_speaker m = []))) location.

(** The rest of a line that cannot be a description. *)
Definition bad_rest (non_character : list pystr) (rest : pystr) : bool :=
  List.existsb (fun c => bool_decide (c ∈ [123; 125; 65371; 65373]%N)) rest
  || match leading_mention_before_colon nfc rest with
     | Some name => negb (bool_decide (normalize_asset_name nfc (strip name) ∈ non_character))
     | None => false
     end
  || bool_decide (is_Some (find_malformed_mention nfc rest)).

Definition adapt_line (id : pystr) (non_character : list pystr) (shot line_index : nat) (line : pystr) (a : acc) : acc :=
  let location := mkLocation [Key "shots"; At shot; Key "text"] (Some line_index) in
  let parts := default [] (split_speech_line nfc line) in
  let a1 := (a.1 ++ map (mark_entry location) (omap is_mark parts), a.2) in
  let rest := speech_line_description parts in
  match empty_speaker_line (where_ (fun c => negb (c =? _BOM)%N) rest) with
  | Some spoken =>
      if blank_text spoken then add_problem (_parse_problem id location) a1
      else add_entry (mkInput spoken None true location) a1
  | None => if bad_rest non_character rest then add_problem (_parse_problem id location) a1 else a1
  end.

Definition adapt_shot (id : pystr) (non_character : list pystr) (i : nat) (shot : json) (a : acc) : acc :=
  match shot with
  | JObj d =>
      match dict_get (u "text") d with
      | Some (JStr text) => each_indexed (adapt_line id non_character i) 0 (splitlines text) a
      | _ => add_problem (_parse_problem id (at_path [Key "shots"; At i; Key "text"])) a
      end
  | _ => add_problem (_parse_problem id (at_path [Key "shots"; At i])) a
  end.

Definition adapt_video_unit (unit : dict) : result SpeechUnitSnapshot :=
  let id := text_member "unit_id" unit in
  let a := ([], _initial_problems unit id "unit_id") in
  let names := _non_character_reference_names (dict_get (u "references") unit) in
  if unhashable "type" (dict_get (u "references") unit) then Raise TypeError
  else Ok (snapshot_of id
    (match dict_get (u "shots") unit with
     | Some (JArr (s :: l)) => each_indexed (adapt_shot id names) 0 (s :: l) a
     | _ => add_problem (_parse_problem id (at_path [Key "shots"])) a
     end)).

Definition _SKELETON_ADAPTERS : list (string * (dict -> result SpeechUnitSnapshot)) :=
  [("segments", adapt_narration_segment); ("scenes", adapt_drama_scene); ("shots", adapt_ad_shot);
   ("video_units", adapt_video_unit)].

Definition admit_script_unit (skeleton_kind : string) (unit : dict) (ignore_marker : bool) : result SpeechPreparation :=
  match aget skeleton_kind _SKELETON_ADAPTERS with
  | Some adapter =>
      let! snapshot := adapter (if ignore_marker then adel (u "needs_replan") unit else unit) in
      Ok (prepare snapshot)
  | None => Raise ValueError
  end.

Definition require_script_unit_admitted (skeleton_kind : string) (unit : dict) (ignore_marker : bool) : result SpeechPreparation :=
  let! p := admit_script_unit skeleton_kind unit ignore_marker in
  if allowed p then Ok p else Raise SpeechAdmissionError.

Definition video_unit_replan_problems (unit : dict) (ignore_marker : bool) : result (list SpeechProblem) :=
  let! p := admit_script_unit "video_units" unit ignore_marker in
  Ok (pr_problems p).

Definition valid_duration (d : option json) : bool := match d with Some (JInt z) => (0 <? z)%Z | _ => false end.

Definition migration_key : pystr := u "migration_requires_content_replan".

Definition refresh_video_unit_replan_state (unit : dict) (allow_clear content_changed : bool) : result dict :=
  let unit := if content_changed then adel migration_key unit else unit in
  let mark := dict_set (u "needs_replan") (JBool true) unit in
  match dict_get migration_key unit with
  | Some (JBool true) => Ok mark
  | _ =>
      if negb (py_bool float_true (dict_get (u "shots") unit)) || negb (valid_duration (dict_get (u "duration_seconds") unit))
      then Ok mark
      else
        let! problems := video_unit_replan_problems unit true in
        match problems with
        | _ :: _ => Ok mark
        | [] => Ok (if allow_clear then adel (u "needs_replan") unit else unit)
        end
  end.
End units.

(** ** Lemmas *)

Lemma owned_by_true o l : owned_by o l = true <-> exists x, x ∈ l /\ su_owner x = o.
Proof.
  unfold owned_by. rewrite existsb_exists. setoid_rewrite bool_decide_eq_true. by setoid_rewrite list_elem_of_In.
Qed.

Lemma owned_by_false o l : owned_by o l = false <-> Forall (fun x => su_owner x <> o) l.
Proof.
  rewrite <- not_true_iff_false, owned_by_true, Forall_forall. split; [intros H x Hx Ho; apply H; by exists x|].
  intros H (x & Hx & Ho). by apply (H x).
Qed.

Lemma narrator_unnamed e : su_owner (utterance_of e) = NARRATOR -> su_speaker (utterance_of e) = None.
Proof. unfold utterance_of. cbn. by destruct (speaker_of e). Qed.

(** Without a problem, the speaker of character speech has a name. *)
Lemma character_named id e :
  entry_problems id e = [] -> su_owner (utterance_of e) = CHARACTER -> is_Some (su_speaker (utterance_of e)).
Proof.
  unfold entry_problems, utterance_of. cbn [su_owner su_speaker]. destruct (speaker_of e) as [|c sp]; [|by eexists].
  rewrite bool_decide_eq_true_2 by done. by destruct (si_speaker_required e).
Qed.

Lemma flat_map_nil {A B} (f : A -> list B) l : flat_map f l = [] <-> forall x, x ∈ l -> f x = [].
Proof.
  induction l as [|x l IH]; simpl.
  - split; [intros _ x ?%not_elem_of_nil; done|done].
  - split.
    + intros [H1 H2]%app_nil y [-> |Hy]%elem_of_cons; [done|by apply IH].
    + intros H. rewrite (H x) by left. cbn [app]. apply IH. intros y Hy. apply H. by right.
Qed.

(** Speech of a unit has one owner.  The utterances keep the words and the
    order of the input; a unit has a mode exactly if no problem was found; in
    a unit of character speech every utterance names its speaker, in a
    voice-over none does, a silent unit says nothing; and a unit in which
    both occur is reported with the places of all its utterances. *)
Theorem prepare_exclusive s :
  let p := prepare s in
  map su_text (pr_utterances p) = map si_text (ss_entries s)
  /\ (pr_mode p = None <-> pr_problems p <> [])
  /\ (pr_mode p = Some CHARACTER_SPEECH -> pr_utterances p <> []
        /\ Forall (fun x => su_owner x = CHARACTER /\ is_Some (su_speaker x)) (pr_utterances p))
  /\ (pr_mode p = Some NARRATOR_VOICEOVER -> pr_utterances p <> []
        /\ Forall (fun x => su_owner x = NARRATOR /\ su_speaker x = None) (pr_utterances p))
  /\ (pr_mode p = Some SILENT -> pr_utterances p = [])
  /\ (forall x y, x ∈ pr_utterances p -> y ∈ pr_utterances p -> su_owner x = CHARACTER -> su_owner y = NARRATOR ->
        pr_mode p = None /\ mkSpeechProblem MIXED_SPEECH (ss_unit_id s) (map su_location (pr_utterances p))
                              CHARACTER_AND_NARRATOR_MIXED REPLAN_UNIT ∈ pr_problems p).
Proof.
  cbv zeta. unfold prepare. cbn [pr_utterances pr_mode pr_problems]. split; [by rewrite map_map|].
  set (us := map utterance_of (ss_entries s)). set (found := ss_problems s ++ _). set (mixed := mkSpeechProblem MIXED_SPEECH _ _ _ _).
  assert (found = [] -> forall x, x ∈ us -> su_owner x = CHARACTER -> is_Some (su_speaker x)) as Hnamed.
  { intros Hf x (e & -> & He)%list_elem_of_fmap. unfold found in Hf. apply app_nil in Hf as [_ Hf]. by apply (character_named (ss_unit_id s)), (flat_map_nil _ (ss_entries s)). }
  assert (forall x, x ∈ us -> su_owner x = NARRATOR -> su_speaker x = None) as Hnarr.
  { intros x (e & -> & He)%list_elem_of_fmap. apply narrator_unnamed. }
  destruct (owned_by CHARACTER us) eqn:Ec, (owned_by NARRATOR us) eqn:En; cbn [andb];
    [|apply owned_by_true in Ec; apply owned_by_false in En; rewrite Forall_forall in En
     |apply owned_by_false in Ec; apply owned_by_true in En; rewrite Forall_forall in Ec
     |apply owned_by_false in Ec, En; rewrite Forall_forall in Ec, En].
  - destruct (found ++ [mixed]) as [|q l] eqn:Ef; [by destruct found|]. split; [done|]. do 3 (split; [done|]).
    intros x y _ _ _ _. split; [done|]. rewrite <- Ef. set_solver.
  - destruct Ec as (x0 & Hx0 & _). split; [by destruct found|]. split; [|split_and!; [by destruct found..|]].
    + destruct found; [|done]. intros _. split; [by intros H0; rewrite H0 in Hx0; apply not_elem_of_nil in Hx0|].
      apply Forall_forall. intros x Hx. destruct (su_owner x) eqn:Eo; [auto|by apply En in Eo].
    + intros x y _ Hy _ Ho. by apply En in Ho.
  - destruct En as (x0 & Hx0 & _). split; [by destruct found|]. split; [by destruct found|]. split; [|split; [by destruct found|]].
    + intros _. split; [by intros H0; rewrite H0 in Hx0; apply not_elem_of_nil in Hx0|].
      apply Forall_forall. intros x Hx. destruct (su_owner x) eqn:Eo; [by apply Ec in Eo|auto].
    + intros x y Hx _ Ho _. by apply Ec in Ho.
  - split; [by destruct found|]. do 2 (split; [by destruct found|]). split.
    + intros _. destruct us as [|x us']; [done|]. exfalso. destruct (su_owner x) eqn:Eo; [by apply (Ec x); [left|]|by apply (En x); [left|]].
    + intros x y Hx _ Ho _. by apply Ec in Ho.
Qed.

(** *** Adapters that only append *)

Lemma each_indexed_local {A} (f : nat -> A -> acc -> acc) E P :
  (forall i x a, f i x a = (a.1 ++ E i x, a.2 ++ P i x)) ->
  forall l i a, each_indexed f i l a
    = (a.1 ++ concat (imap (fun k x => E (i + k) x) l), a.2 ++ concat (imap (fun k x => P (i + k) x) l)).
Proof.
  intros H. induction l as [|x l IH]; intros i a; cbn [each_indexed imap concat]; [rewrite !app_nil_r; by destruct a|].
  rewrite IH, H. cbn [fst snd]. rewrite <- !app_assoc. rewrite Nat.add_0_r.
  f_equal; f_equal; f_equal; f_equal; apply imap_ext; intros k y _; simpl; f_equal; lia.
Qed.

Section admitted.
Context (nfc : pystr -> pystr) (float_true : pystr -> bool).

Definition line_parts (line : pystr) : list part := default [] (split_speech_line nfc line).
Definition line_rest (line : pystr) : pystr := speech_line_description (line_parts line).
Definition line_location (shot li : nat) : SpeechFieldLocation := mkLocation [Key "shots"; At shot; Key "text"] (Some li).

(** What a line adds: its marks, and what its rest is read as. *)
Definition rest_entries (shot li : nat) (line : pystr) : list SpeechInputUtterance :=
  match empty_speaker_line (where_ (fun c => negb (c =? _BOM)%N) (line_rest line)) with
  | Some spoken => if blank_text spoken then [] else [mkInput spoken None true (line_location shot li)]
  | None => []
  end.
Definition rest_problems (id : pystr) (names : list pystr) (shot li : nat) (line : pystr) : list SpeechProblem :=
  match empty_speaker_line (where_ (fun c => negb (c =? _BOM)%N) (line_rest line)) with
  | Some spoken => if blank_text spoken then [_parse_problem id (line_location shot li)] else []
  | None => if bad_rest nfc names (line_rest line) then [_parse_problem id (line_location shot li)] else []
  end.
Definition line_entries (shot li : nat) (line : pystr) : list SpeechInputUtterance :=
  map (mark_entry (line_location shot li)) (omap is_mark (line_parts line)) ++ rest_entries shot li line.

Lemma adapt_line_local id names shot li line a :
  adapt_line nfc id names shot li line a = (a.1 ++ line_entries shot li line, a.2 ++ rest_problems id names shot li line).
Proof.
  unfold adapt_line, line_entries, rest_entries, rest_problems. cbv zeta. fold (line_parts line). fold (line_rest line).
  fold (line_location shot li). destruct (empty_speaker_line _) as [sp|].
  - destruct (blank_text sp); unfold add_problem, add_entry; cbn [fst snd]; by rewrite ?app_nil_r, ?app_assoc.
  - destruct (bad_rest _ _ _); unfold add_problem; cbn [fst snd]; by rewrite ?app_nil_r.
Qed.

Definition shot_entries (i : nat) (shot : json) : list SpeechInputUtterance :=
  match shot with
  | JObj d => match dict_get (u "text") d with
              | Some (JStr text) => concat (imap (fun k line => line_entries i k line) (splitlines text))
              | _ => []
              end
  | _ => []
  end.
Definition shot_problems (id : pystr) (names : list pystr) (i : nat) (shot : json) : list SpeechProblem :=
  match shot with
  | JObj d => match dict_get (u "text") d with
              | Some (JStr text) => concat (imap (fun k line => rest_problems id names i k line) (splitlines text))
              | _ => [_parse_problem id (at_path [Key "shots"; At i; Key "text"])]
              end
  | _ => [_parse_problem id (at_path [Key "shots"; At i])]
  end.

Lemma adapt_shot_local id names i shot a :
  adapt_shot nfc id names i shot a = (a.1 ++ shot_entries i shot, a.2 ++ shot_problems id names i shot).
Proof.
  unfold adapt_shot, shot_entries, shot_problems, add_problem.
  destruct shot; try by rewrite app_nil_r. destruct (dict_get (u "text") members) as [[]|]; try by rewrite app_nil_r.
  apply (each_indexed_local (adapt_line nfc id names i) (line_entries i) (rest_problems id names i)).
  intros k x b. apply adapt_line_local.
Qed.

Lemma concat_nil {A} (ls : list (list A)) : concat ls = [] <-> Forall (fun l => l = []) ls.
Proof.
  induction ls as [|l ls IH]; simpl; [done|]. rewrite app_nil, IH, Forall_cons. done.
Qed.

(** The texts of the shots of a unit. *)
Definition shot_texts (shots : list json) : list pystr :=
  omap (fun s => match s with JObj d => match dict_get (u "text") d with Some (JStr t) => Some t | _ => None end | _ => None end) shots.

(** The line holds no brace outside its speech, and no broken mention. *)
Definition clean_line (line : pystr) : Prop :=
  Forall (fun c => c ∉ [123; 125; 65371; 65373]%N) (line_rest line) /\ find_malformed_mention nfc (line_rest line) = None.

Lemma line_clean id names shot li line :
  rest_problems id names shot li line = [] -> flat_map (entry_problems id) (line_entries shot li line) = [] ->
  clean_line line
  /\ map (fun x => (default [] (su_speaker x), su_text x)) (map utterance_of (line_entries shot li line))
     = map (fun m => (strip (sm_speaker m), sm_text m)) (omap is_mark (line_parts line)).
Proof.
  unfold rest_problems, line_entries, rest_entries. intros Hp He.
  destruct (empty_speaker_line _) as [sp|].
  { destruct (blank_text sp); [done|]. rewrite flat_map_app in He. apply app_nil in He as [_ He]. done. }
  destruct (bad_rest nfc names (line_rest line)) eqn:Eb; [done|]. unfold bad_rest in Eb.
  apply orb_false_iff in Eb as [Eb E3]. apply orb_false_iff in Eb as [E1 _]. to_prop. split.
  - split; [|by apply eq_None_not_Some]. apply Forall_forall. intros c Hc Hin. apply not_true_iff_false in E1. apply E1, existsb_exists.
    exists c. split; [by apply list_elem_of_In|by apply bool_decide_eq_true_2].
  - rewrite app_nil_r, !map_map. apply map_ext. intros m. unfold utterance_of, mark_entry, speaker_of. cbn.
    destruct (sm_speaker m) as [|c sp]; [done|]. cbn [or_none]. by destruct (strip (c :: sp)).
Qed.

Lemma imap_nil {A B} (f : nat -> A -> list B) l : Forall (fun x => x = []) (imap f l) <-> forall k x, l !! k = Some x -> f k x = [].
Proof.
  rewrite Forall_forall. split.
  - intros H k x Hk. apply H, elem_of_lookup_imap. by exists k, x.
  - intros H y (k & x & -> & Hk)%elem_of_lookup_imap. by apply H.
Qed.

(** Collecting from indexed pieces, piece by piece. *)
Lemma map_concat_imap {A B C} (f : B -> C) (g : A -> list C) (E : nat -> A -> list B) l :
  (forall k x, l !! k = Some x -> map f (E k x) = g x) -> map f (concat (imap E l)) = flat_map g l.
Proof.
  revert E. induction l as [|x l IH]; intros E H; [done|]. cbn [imap concat flat_map]. rewrite map_app. f_equal; [by apply H|].
  apply IH. intros k y Hk. by apply (H (S k)).
Qed.

Lemma flat_map_concat_imap {A B C} (f : B -> list C) (E : nat -> A -> list B) l :
  flat_map f (concat (imap E l)) = [] -> forall k x, l !! k = Some x -> flat_map f (E k x) = [].
Proof.
  rewrite flat_map_nil. intros H k x Hk. apply flat_map_nil. intros b Hb. apply H, list_elem_of_In, in_concat.
  exists (E k x). split; apply list_elem_of_In; [|done]. apply elem_of_lookup_imap. by exists k, x.
Qed.

(** The words of the marks of a text, with their speakers. *)
Definition spoken_in (text : pystr) : list (pystr * pystr) :=
  flat_map (fun line => map (fun m => (strip (sm_speaker m), sm_text m)) (omap is_mark (line_parts line))) (splitlines text).

Definition voiced (x : SpeechUtterance) : pystr * pystr := (default [] (su_speaker x), su_text x).

Lemma shot_clean id names i shot :
  shot_problems id names i shot = [] -> flat_map (entry_problems id) (shot_entries i shot) = [] ->
  exists text, shot_texts [shot] = [text] /\ Forall clean_line (splitlines text)
    /\ map voiced (map utterance_of (shot_entries i shot)) = spoken_in text.
Proof.
  unfold shot_problems, shot_entries, shot_texts. destruct shot as [| | | | | |d]; try done.
  cbn [omap list_omap]. destruct (dict_get (u "text") d) as [[| | | |text| |]|]; try done. intros Hp He. exists text.
  rewrite concat_nil, imap_nil in Hp.
  assert (forall k line, splitlines text !! k = Some line ->
            clean_line line /\ map voiced (map utterance_of (line_entries i k line))
                               = map (fun m => (strip (sm_speaker m), sm_text m)) (omap is_mark (line_parts line))) as Hl.
  { intros k line Hk. apply (line_clean id names); [by apply Hp|]. by apply (flat_map_concat_imap _ _ _ He). }
  split; [done|]. split; [apply Forall_lookup; intros k line Hk; apply (Hl k line Hk)|].
  rewrite map_map. apply map_concat_imap. intros k line Hk. rewrite <- map_map. by apply Hl.
Qed.

Lemma shots_clean id names shots :
  concat (imap (shot_problems id names) shots) = [] ->
  flat_map (entry_problems id) (concat (imap shot_entries shots)) = [] ->
  length (shot_texts shots) = length shots /\ Forall (fun t => Forall clean_line (splitlines t)) (shot_texts shots)
  /\ map voiced (map utterance_of (concat (imap shot_entries shots))) = flat_map spoken_in (shot_texts shots).
Proof.
  rewrite concat_nil, imap_nil. intros Hp He.
  assert (forall k shot, shots !! k = Some shot -> exists text, shot_texts [shot] = [text] /\ Forall clean_line (splitlines text)
            /\ map voiced (map utterance_of (shot_entries k shot)) = spoken_in text) as H.
  { intros k shot Hk. apply (shot_clean id names); [by apply Hp|]. by apply (flat_map_concat_imap _ _ _ He). }
  clear Hp He. revert H. generalize shot_entries as E. induction shots as [|shot shots IH]; intros E H; [done|].
  destruct (H 0 shot eq_refl) as (text & Ht & Hc & Hs). destruct (IH (fun k => E (S k)) (fun k y => H (S k) y)) as (H1 & H2 & H3).
  assert (shot_texts (shot :: shots) = text :: shot_texts shots) as ->.
  { unfold shot_texts in *. change (shot :: shots) with ([shot] ++ shots). by rewrite omap_app, Ht. }
  cbn [length imap concat flat_map]. split; [by rewrite H1|]. split; [by constructor|].
  rewrite !map_app, Hs. f_equal. exact H3.
Qed.

Lemma prepare_allowed s :
  allowed (prepare s) = true -> ss_problems s = [] /\ flat_map (entry_problems (ss_unit_id s)) (ss_entries s) = [].
Proof.
  unfold allowed, prepare. cbn [pr_problems]. destruct (owned_by _ _ && owned_by _ _).
  - destruct (ss_problems s); [|done]. by destruct (flat_map _ _).
  - destruct (ss_problems s); [|done]. by destruct (flat_map _ _).
Qed.

Lemma admit_video_unit unit ignore_marker :
  admit_script_unit nfc "video_units" unit ignore_marker
  = let! s := adapt_video_unit nfc (if ignore_marker then adel (u "needs_replan") unit else unit) in Ok (prepare s).
Proof.
  unfold admit_script_unit. cbn [aget _SKELETON_ADAPTERS]. do 3 (rewrite bool_decide_eq_false_2 by done).
  by rewrite bool_decide_eq_true_2.
Qed.

(** The adapter appends what the shots add to the problems of the unit. *)
Lemma adapt_video_unit_shots unit s :
  adapt_video_unit nfc unit = Ok s ->
  let id := text_member "unit_id" unit in
  let names := _non_character_reference_names nfc (dict_get (u "references") unit) in
  ss_unit_id s = id
  /\ ((exists shots, dict_get (u "shots") unit = Some (JArr shots) /\ shots <> []
        /\ ss_entries s = concat (imap shot_entries shots)
        /\ ss_problems s = _initial_problems unit id "unit_id" ++ concat (imap (shot_problems id names) shots))
      \/ ss_problems s <> []).
Proof.
  unfold adapt_video_unit. destruct (unhashable "type" _); [done|]. intros H. apply Ok_inj in H as <-. cbv zeta. split; [done|].
  set (names := _non_character_reference_names _ _). set (id := text_member _ _). clearbody names id.
  destruct (dict_get (u "shots") unit) as [[| | | | |[|x l]|]|]; unfold snapshot_of; cbn [ss_problems ss_entries];
    try (right; unfold add_problem; cbn [snd]; by intros [_ ?]%app_nil).
  left. exists (x :: l). do 2 (split; [done|]).
  rewrite (each_indexed_local _ shot_entries (shot_problems id names)) by (intros; apply adapt_shot_local). done.
Qed.

(** What an admitted reference-video unit says is what its text says.  Such a
    unit has shots, each with a text; no line has a brace outside of a speech
    mark, nor a broken mention; and the utterances are exactly the marks of
    the lines in order, with their speakers.  The unit carries no replan
    marker and has an id. *)
Theorem admitted_unit_speech unit p :
  admit_script_unit nfc "video_units" unit false = Ok p -> allowed p = true ->
  exists shots, dict_get (u "shots") unit = Some (JArr shots) /\ shots <> []
    /\ length (shot_texts shots) = length shots
    /\ Forall (fun t => Forall clean_line (splitlines t)) (shot_texts shots)
    /\ map voiced (pr_utterances p) = flat_map spoken_in (shot_texts shots)
    /\ blank_text (text_member "unit_id" unit) = false
    /\ dict_get (u "needs_replan") unit <> Some (JBool true).
Proof.
  rewrite admit_video_unit. destruct (adapt_video_unit nfc unit) as [s|e] eqn:Ea; [|done]. cbn [bind]. intros H Hal.
  apply Ok_inj in H as <-. apply prepare_allowed in Hal as [Hp He].
  apply adapt_video_unit_shots in Ea as [Hid [(shots & Hs & Hne & Hes & Hps)|?]]; [|done].
  rewrite Hps in Hp. apply app_nil in Hp as [Hi Hp]. rewrite Hes, Hid in He.
  destruct (shots_clean _ _ _ Hp He) as (H1 & H2 & H3). exists shots. split_and!; try done.
  - unfold prepare. cbn [pr_utterances]. by rewrite Hes.
  - unfold _initial_problems in Hi. apply app_nil in Hi as [Hi _]. by destruct (blank_text _).
  - intros Hm. unfold _initial_problems in Hi. rewrite Hm in Hi. by apply app_nil in Hi as [_ ?].
Qed.

(** *** The replan marker *)

Definition marker : pystr := u "needs_replan".

(** What the refresh finds out about the unit, marker aside. *)
Definition must_replan (unit : dict) : result bool :=
  match dict_get migration_key unit with
  | Some (JBool true) => Ok true
  | _ =>
      if negb (py_bool float_true (dict_get (u "shots") unit)) || negb (valid_duration (dict_get (u "duration_seconds") unit))
      then Ok true
      else let! p := admit_script_unit nfc "video_units" unit true in Ok (negb (allowed p))
  end.

Lemma refresh_must_replan unit allow_clear content_changed :
  refresh_video_unit_replan_state nfc float_true unit allow_clear content_changed
  = let unit := if content_changed then adel migration_key unit else unit in
    let! b := must_replan unit in
    Ok (if b then dict_set marker (JBool true) unit else if allow_clear then adel marker unit else unit).
Proof.
  unfold refresh_video_unit_replan_state, must_replan, video_unit_replan_problems, marker. cbv zeta.
  destruct (if content_changed then _ else _) as [|kv unit'] eqn:Eu; rewrite <- Eu; clear Eu;
    generalize (if content_changed then adel migration_key unit else unit); clear; intros unit;
    destruct (dict_get migration_key unit) as [[|[]| | | | |]|]; try done;
    destruct (_ || _); try done; destruct (admit_script_unit _ _ _ _) as [p|e]; try done; cbn [bind]; unfold allowed;
    by destruct (pr_problems p).
Qed.

Lemma dict_get_adel k k' d : k <> k' -> dict_get k (adel k' d) = dict_get k d.
Proof.
  intros Hne. unfold adel. induction d as [|[k0 v0] d IH]; simpl; [done|].
  case_bool_decide as E; simpl; [subst|by rewrite IH]. by rewrite (bool_decide_eq_false_2 (k' = k)).
Qed.

Lemma dict_get_adel_eq k d : dict_get k (adel k d) = None.
Proof.
  unfold adel. induction d as [|[k0 v0] d IH]; simpl; [done|]. case_bool_decide as E; simpl; [done|].
  by rewrite bool_decide_eq_false_2.
Qed.

Lemma adel_set k v d : adel k (dict_set k v d) = adel k d.
Proof.
  unfold adel. induction d as [|[k0 v0] d IH]; simpl.
  - by rewrite bool_decide_eq_true_2.
  - case_bool_decide as E; simpl; [by rewrite (bool_decide_eq_true_2 (k0 = k))|]. rewrite bool_decide_eq_false_2 by done.
    cbn [negb]. by rewrite IH.
Qed.

Lemma adel_adel {V} k (d : list (pystr * V)) : adel k (adel k d) = adel k d.
Proof.
  unfold adel. induction d as [|[k0 v0] d IH]; simpl; [done|]. case_bool_decide as E; simpl; [done|].
  rewrite bool_decide_eq_false_2 by done. cbn [negb]. by rewrite IH.
Qed.

Lemma dict_set_same_twice k v d : dict_set k v (dict_set k v d) = dict_set k v d.
Proof.
  induction d as [|[k0 v0] d IH]; simpl; [by rewrite bool_decide_eq_true_2|].
  case_bool_decide as E; simpl; [by rewrite bool_decide_eq_true_2|]. rewrite bool_decide_eq_false_2 by done. by rewrite IH.
Qed.

Lemma adel_fresh k d : dict_get k d = None -> adel k d = d.
Proof.
  unfold adel. induction d as [|[k0 v0] d IH]; simpl; [done|]. case_bool_decide as E; [done|]. intros H. cbn [negb]. by rewrite IH.
Qed.

(** The verdict does not look at the marker. *)
Lemma must_replan_adel unit : must_replan (adel marker unit) = must_replan unit.
Proof.
  unfold must_replan. rewrite !dict_get_adel by done. do 2 case_match; try done; by rewrite !admit_video_unit, adel_adel.
Qed.

Lemma must_replan_set v unit : must_replan (dict_set marker v unit) = must_replan unit.
Proof. by rewrite <- must_replan_adel, adel_set, must_replan_adel. Qed.

Lemma must_replan_admitted unit :
  must_replan unit = Ok false -> exists p, admit_script_unit nfc "video_units" (adel marker unit) false = Ok p /\ allowed p = true.
Proof.
  unfold must_replan. intros H.
  assert ((let! p := admit_script_unit nfc "video_units" unit true in Ok (negb (allowed p))) = Ok false) as Hp.
  { destruct (dict_get migration_key unit) as [[|[]| | | | |]|]; try done; by destruct (_ || _). }
  destruct (admit_script_unit nfc "video_units" unit true) as [p|e] eqn:E; [|done]. cbn [bind] in Hp. apply Ok_inj in Hp.
  exists p. rewrite admit_video_unit in *. split; [exact E|]. by destruct (allowed p).
Qed.

(** A refresh of the replan state decides by the content alone.  It marks
    the unit exactly if migration evidence stands against it, it has no
    shots or no positive length, or it has a problem other than the marker;
    a refresh that may clear otherwise removes the marker, and the unit is
    then admitted; one that may not leaves the unit alone.  No other member
    changes but the migration evidence a content change consumes, and a
    second refresh changes nothing. *)
Theorem replan_marker_exact unit allow_clear content_changed unit' :
  refresh_video_unit_replan_state nfc float_true unit allow_clear content_changed = Ok unit' ->
  let before := if content_changed then adel migration_key unit else unit in
  (must_replan before = Ok true /\ dict_get marker unit' = Some (JBool true)
   \/ must_replan before = Ok false
      /\ (if allow_clear
          then dict_get marker unit' = None /\ exists p, admit_script_unit nfc "video_units" unit' false = Ok p /\ allowed p = true
          else unit' = before))
  /\ (forall k, k <> marker -> k <> migration_key -> dict_get k unit' = dict_get k unit)
  /\ refresh_video_unit_replan_state nfc float_true unit' allow_clear content_changed = Ok unit'.
Proof.
  rewrite refresh_must_replan. cbv zeta. set (before := if content_changed then _ else _).
  assert (forall k, k <> migration_key -> dict_get k before = dict_get k unit) as Hb.
  { intros k Hk. unfold before. destruct content_changed; [by apply dict_get_adel|done]. }
  assert (forall d, (forall k, k <> marker -> dict_get k d = dict_get k before) ->
            (if content_changed then adel migration_key d else d) = d) as Hsame.
  { intros d Hd. unfold before in Hd. destruct content_changed; [|done]. apply adel_fresh. rewrite Hd by done. apply dict_get_adel_eq. }
  destruct (must_replan before) as [b|e] eqn:Em; [|done]. cbn [bind]. intros H. apply Ok_inj in H as <-.
  set (after := if b then _ else _).
  assert (forall k, k <> marker -> dict_get k after = dict_get k before) as Ha.
  { intros k Hk. unfold after. destruct b; [by apply dict_get_set_ne|]. destruct allow_clear; [by apply dict_get_adel|done]. }
  split; [|split; [intros k Hk Hm; by rewrite Ha, Hb|]].
  - unfold after. destruct b; [left; split; [done|apply dict_get_set_eq]|]. right. split; [done|].
    destruct allow_clear; [|done]. split; [apply dict_get_adel_eq|]. by apply must_replan_admitted.
  - rewrite refresh_must_replan. cbv zeta. rewrite (Hsame after Ha). unfold after. destruct b; [|destruct allow_clear].
    + rewrite must_replan_set, Em. cbn [bind]. by rewrite dict_set_same_twice.
    + rewrite must_replan_adel, Em. cbn [bind]. by rewrite adel_adel.
    + by rewrite Em.
Qed.
End admitted.

Definition sample_unit (text : string) (extra : dict) : dict :=
  [(u "unit_id", JStr (u "E1U1")); (u "duration_seconds", JInt 5); (u "shots", JArr [JObj [(u "text", JStr (u text))]])] ++ extra.

Lemma admitted_unit_speech_witness :
  exists p, admit_script_unit id "video_units" (sample_unit "@[Ann]: {Hello} she waves" []) false = Ok p
    /\ pr_mode p = Some CHARACTER_SPEECH /\ map voiced (pr_utterances p) = [(u "Ann", u "Hello")].
Proof.
  set (p := match admit_script_unit id "video_units" (sample_unit "@[Ann]: {Hello} she waves" []) false with Ok p => p | Raise _ => mkPreparation [] None [] [] end).
  exists p. destruct (admitted_unit_speech id (sample_unit "@[Ann]: {Hello} she waves" []) p) as (shots & _); [reflexivity|reflexivity|].
  split; [reflexivity|]. split; reflexivity.
Defined.

Lemma replan_marker_exact_witness :
  let unit := sample_unit "@[Ann]: {Hello} she waves" [(marker, JBool true); (migration_key, JBool true)] in
  exists unit', refresh_video_unit_replan_state id (fun _ => true) unit true true = Ok unit' /\ dict_get marker unit' = None
    /\ dict_get (u "unit_id") unit' = Some (JStr (u "E1U1")).
Proof.
  cbv zeta. set (unit := sample_unit _ _). set (unit' := sample_unit "@[Ann]: {Hello} she waves" []). exists unit'.
  destruct (replan_marker_exact id (fun _ => true) unit true true unit' eq_refl) as (_ & Hf & _).
  split; [reflexivity|]. split; [reflexivity|]. rewrite Hf by (apply (bool_decide_unpack _); vm_compute; exact I). reflexivity.
Defined.
