(* ===== verification/Pricing.v ===== *)
(** * What a call costs: [lib/pricing] and [lib/cost_calculator.py]

    Price declarations, their lookup and the calculation by kind.  Amounts are
    Python floats: the arithmetic is an interface with the operations the code
    uses, none of whose rounding matters to what is proved, and
    [lower]/[upper] are the Unicode case mappings.  The model registry of
    [lib/config/registry.py] is a value of its type; a dictionary keeps its
    insertion order. *)

From S2P Require Import Prelude Json.
From Stdlib Require Import QArith.
Open Scope nat_scope.
Open Scope spool_scope.

(** ** Floats *)

Class Floats := {
  num : Type;
  lit : Q -> num;                      (* a literal of the source *)
  of_int : Z -> num;                   (* an integer as an operand *)
  int_div : Z -> Z -> num;             (* [/] of two integers *)
  fadd : num -> num -> num;
  fmul : num -> num -> num;
  fdiv : num -> num -> num;
  fleb : num -> num -> bool;
  fround : nat -> num -> num           (* [round(x, n)] *)
}.

(** What is used of the order: prices are numbers, so they compare. *)
Class FloatOrder (F : Floats) := {
  fleb_total : forall x y, fleb x y = true \/ fleb y x = true;
  fleb_trans : forall x y z, fleb x y = true -> fleb y z = true -> fleb x z = true
}.

Definition fzero `{Floats} : num := lit 0.

(** ** Python expressions *)

(** [d[k]] *)
Definition subscript {K V} `{EqDecision K} (k : K) (d : list (K * V)) : result V :=
  match aget k d with Some v => Ok v | None => Raise KeyError end.

(** [x or y] on optional text and integers. *)
Definition text_or (x : option pystr) (y : pystr) : pystr := match x with Some (c :: s) => c :: s | _ => y end.
Definition int_or (x : option Z) (y : Z) : Z := match x with Some z => if (z =? 0)%Z then y else z | None => y end.

Section pricing.
Context `{F : Floats}.

(** ** Declarations *)

Record rates_of (R : Type) := mkRates { rates : list (pystr * R); default_model : pystr; currency_of_rates : pystr }.
Arguments mkRates {R}.
Arguments rates {R}.
Arguments default_model {R}.
Arguments currency_of_rates {R}.

Inductive dimensions := resolution_audio | resolution_only | flat.

Inductive Pricing :=
| PerToken (p : rates_of (list (pystr * num)))
| PerImageFlat (p : rates_of num)
| PerImageByResolution (p : rates_of (list (pystr * num)))
| PerImageOpenAIToken (token_rates : list (pystr * list (pystr * num)))
    (p : rates_of (list (pystr * pystr * num)))
| PerSecondMatrix (p : rates_of (list (pystr * option bool * num))) (dims : dimensions) (default_resolution : pystr)
| PerVideoBucket (p : rates_of (list (pystr * Z * num)))
| PerSecondTiered (p : rates_of (list (pystr * bool * num)))
| PerTokenVideo (p : rates_of (list (pystr * bool * num)))
| PerCharacter (p : rates_of num)
| ViduDelegate.

Definition pricing_currency (p : Pricing) : pystr :=
  match p with
  | PerToken r => currency_of_rates r
  | PerImageFlat r => currency_of_rates r
  | PerImageByResolution r => currency_of_rates r
  | PerImageOpenAIToken _ r => currency_of_rates r
  | PerSecondMatrix r _ _ => currency_of_rates r
  | PerVideoBucket r => currency_of_rates r
  | PerSecondTiered r => currency_of_rates r
  | PerTokenVideo r => currency_of_rates r
  | PerCharacter r => currency_of_rates r
  | ViduDelegate => u "CNY"
  end.

Record PricingParams := mkParams {
  pp_call_type : string;
  pp_model : option pystr;
  pp_resolution : option pystr;
  pp_aspect_ratio : option pystr;
  pp_duration_seconds : option Z;
  pp_generate_audio : bool;
  pp_usage_tokens : option Z;
  pp_service_tier : pystr;
  pp_input_tokens : option Z;
  pp_output_tokens : option Z;
  pp_quality : option pystr;
  pp_size : option pystr;
  pp_image_input_tokens : option Z;
  pp_image_output_tokens : option Z;
  pp_text_input_tokens : option Z;
  pp_text_output_tokens : option Z;
  pp_n : Z
}.

(** [replace(params, duration_seconds=...)] and the like. *)
Definition with_duration (d : option Z) (p : PricingParams) : PricingParams :=
  mkParams (pp_call_type p) (pp_model p) (pp_resolution p) (pp_aspect_ratio p) d (pp_generate_audio p) (pp_usage_tokens p)
    (pp_service_tier p) (pp_input_tokens p) (pp_output_tokens p) (pp_quality p) (pp_size p) (pp_image_input_tokens p)
    (pp_image_output_tokens p) (pp_text_input_tokens p) (pp_text_output_tokens p) (pp_n p).
Definition with_usage (t : option Z) (p : PricingParams) : PricingParams :=
  mkParams (pp_call_type p) (pp_model p) (pp_resolution p) (pp_aspect_ratio p) (pp_duration_seconds p) (pp_generate_audio p) t
    (pp_service_tier p) (pp_input_tokens p) (pp_output_tokens p) (pp_quality p) (pp_size p) (pp_image_input_tokens p)
    (pp_image_output_tokens p) (pp_text_input_tokens p) (pp_text_output_tokens p) (pp_n p).

Definition MILLION : Z := 1000000.
Definition CHARACTERS_PER_PRICING_UNIT : Z := 10000.
Definition _DEFAULT_BUCKET_DURATION : Z := 6.

Definition cost : Type := num * pystr.

(** ** Strategies *)

Context (lower upper : pystr -> pystr).

(** [rates.get(model, rates[default_model])]: the default is looked up first. *)
Definition model_rates {R} (p : rates_of R) (params : PricingParams) : result R :=
  let! fallback := subscript (default_model p) (rates p) in
  Ok (default fallback (aget (text_or (pp_model params) (default_model p)) (rates p))).

Definition _per_token (p : rates_of (list (pystr * num))) (params : PricingParams) : result cost :=
  let none := [(u "input", lit 0); (u "output", lit 0)] in
  let r := default (default none (aget (default_model p) (rates p)))
             (aget (text_or (pp_model params) (default_model p)) (rates p)) in
  let! i := subscript (u "input") r in
  let! o := subscript (u "output") r in
  Ok (fdiv (fadd (fmul (of_int (int_or (pp_input_tokens params) 0)) i) (fmul (of_int (int_or (pp_output_tokens params) 0)) o))
        (of_int MILLION), currency_of_rates p).

Definition _per_image_flat (p : rates_of num) (params : PricingParams) : result cost :=
  let! per_image := model_rates p params in
  Ok (fmul per_image (of_int (pp_n params)), currency_of_rates p).

Definition _per_image_by_resolution (p : rates_of (list (pystr * num))) (params : PricingParams) : result cost :=
  let! model_costs := model_rates p params in
  let! default_cost := match aget (u "1K") model_costs with
                       | Some x => Ok x
                       | None => let! d := subscript (default_model p) (rates p) in Ok (default (lit 0) (aget (u "1K") d))
                       end in
  Ok (fmul (default default_cost (aget (upper (text_or (pp_resolution params) (u "1K"))) model_costs)) (of_int (pp_n params)),
      currency_of_rates p).

Definition has_image_usage (params : PricingParams) : bool :=
  bool_decide (is_Some (pp_image_input_tokens params) \/ is_Some (pp_image_output_tokens params)
               \/ is_Some (pp_text_input_tokens params) \/ is_Some (pp_text_output_tokens params)).

Definition _per_image_openai_token (token_rates : list (pystr * list (pystr * num)))
    (p : rates_of (list (pystr * pystr * num))) (params : PricingParams) : result cost :=
  if has_image_usage params then
    let! r := model_rates (mkRates token_rates (default_model p) (currency_of_rates p)) params in
    let! ii := subscript (u "image_in") r in
    let! io := subscript (u "image_out") r in
    let! ti := subscript (u "text_in") r in
    let! to := subscript (u "text_out") r in
    let part t x := fmul (of_int (int_or t 0)) x in
    Ok (fdiv (fadd (fadd (fadd (part (pp_image_input_tokens params) ii) (part (pp_image_output_tokens params) io))
                      (part (pp_text_input_tokens params) ti)) (part (pp_text_output_tokens params) to)) (of_int MILLION),
        currency_of_rates p)
  else
    let quality := text_or (pp_quality params) (u "medium") in
    let size := text_or (pp_size params) (u "1024x1024") in
    let! c := model_rates p params in
    let square := default (default (lit (34 # 1000)) (aget (u "medium", u "1024x1024") c)) (aget (quality, u "1024x1024") c) in
    Ok (fmul (default square (aget (quality, size) c)) (of_int (pp_n params)), currency_of_rates p).

Definition seconds_or_8 (params : PricingParams) : Z := default 8%Z (pp_duration_seconds params).

Definition _per_second_matrix (p : rates_of (list (pystr * option bool * num))) (dims : dimensions) (default_resolution : pystr)
    (params : PricingParams) : result cost :=
  let! c := model_rates p params in
  let! per_second :=
    match dims with
    | resolution_audio =>
        let! fallback := match aget (u "1080p", Some true) c with
                         | Some x => Ok x
                         | None => let! d := subscript (default_model p) (rates p) in
                                   Ok (default (lit 0) (aget (u "1080p", Some true) d))
                         end in
        Ok (default fallback (aget (lower (text_or (pp_resolution params) (u "1080p")), Some (pp_generate_audio params)) c))
    | resolution_only =>
        let d := lower default_resolution in
        Ok (default (default (lit 0) (aget (d, None) c)) (aget (lower (text_or (pp_resolution params) d), None) c))
    | flat => Ok (default (lit 0) (aget ([], None) c))
    end in
  Ok (fmul (of_int (seconds_or_8 params)) per_second, currency_of_rates p).

Definition tier_of (params : PricingParams) : pystr :=
  if bool_decide (lower (text_or (pp_resolution params) []) = u "4k") then u "4k"
  else let service_tier := lower (pp_service_tier params) in
       if bool_decide (service_tier = []) || bool_decide (service_tier = u "default") then u "std" else service_tier.

Definition _per_second_tiered (p : rates_of (list (pystr * bool * num))) (params : PricingParams) : result cost :=
  let! c := model_rates p params in
  let per_second := match aget (tier_of params, pp_generate_audio params) c with
                    | Some x => x
                    | None => default (default (lit 0) (aget (u "std", false) c)) (aget (u "std", pp_generate_audio params) c)
                    end in
  Ok (fmul (of_int (seconds_or_8 params)) per_second, currency_of_rates p).

(** Comparison of two buckets by the tuple [(abs(dur - duration), dur, price, (res, dur))]. *)
Definition bucket : Type := pystr * Z * num.
Definition bucket_lt (duration : Z) (a b : bucket) : bool :=
  let '(ra, da, pa) := a in let '(rb, db, pb) := b in
  let xa := Z.abs (da - duration) in let xb := Z.abs (db - duration) in
  (xa <? xb)%Z || (xa =? xb)%Z && ((da <? db)%Z || (da =? db)%Z &&
    (negb (fleb pb pa) || fleb pa pb && (negb (str_leb rb ra) || bool_decide (ra = rb) && (da <? db)%Z))).

(** [min(...)]: the first of the least. *)
Fixpoint min_by {A} (lt : A -> A -> bool) (best : A) (l : list A) : A :=
  match l with
  | [] => best
  | x :: l' => min_by lt (if lt x best then x else best) l'
  end.

Definition nearest (duration : Z) (resolution : pystr) (buckets : list bucket) : result bucket :=
  let same := where_ (fun b => bool_decide (b.1.1 = resolution)) buckets in
  match (match same with [] => buckets | _ => same end) with
  | [] => Raise ValueError
  | b :: l => Ok (min_by (bucket_lt duration) b l)
  end.

Definition _per_video_bucket (p : rates_of (list (pystr * Z * num))) (params : PricingParams) : result cost :=
  let! buckets := model_rates p params in
  let resolution := lower (text_or (pp_resolution params) (u "768p")) in
  let duration := default _DEFAULT_BUCKET_DURATION (pp_duration_seconds params) in
  match aget (resolution, duration) buckets with
  | Some exact => Ok (exact, currency_of_rates p)
  | None => let! b := nearest duration resolution buckets in Ok (b.2, currency_of_rates p)
  end.

Definition _per_token_video (p : rates_of (list (pystr * bool * num))) (params : PricingParams) : result cost :=
  let! c := model_rates p params in
  match (match aget (pp_service_tier params, pp_generate_audio params) c with
         | Some x => Some x
         | None => aget (u "default", true) c
         end) with
  | Some per_million => Ok (fmul (int_div (int_or (pp_usage_tokens params) 0) MILLION) per_million, currency_of_rates p)
  | None => Ok (lit 0, currency_of_rates p)
  end.

Definition _per_character (p : rates_of num) (params : PricingParams) : result cost :=
  let rate := default (default (lit 0) (aget (default_model p) (rates p)))
                (aget (text_or (pp_model params) (default_model p)) (rates p)) in
  Ok (fmul (int_div (int_or (pp_usage_tokens params) 0) CHARACTERS_PER_PRICING_UNIT) rate, currency_of_rates p).

(** *** [lib/vidu_shared.py] *)

Definition VIDU_CREDIT_TO_CNY : num := lit (3125 # 100000).
Definition res_table (l : list (string * Z)) : list (pystr * Z) := map (fun '(k, v) => (u k, v)) l.
Definition VIDU_VIDEO_CREDITS_PER_SECOND : list (pystr * list (pystr * Z)) :=
  [(u "viduq3-pro", res_table [("540p", 10); ("720p", 25); ("1080p", 30)]%Z);
   (u "viduq3-turbo", res_table [("540p", 8); ("720p", 12); ("1080p", 14)]%Z);
   (u "viduq3-pro-fast", res_table [("540p", 8); ("720p", 12); ("1080p", 14)]%Z);
   (u "viduq3", res_table [("540p", 10); ("720p", 25); ("1080p", 30)]%Z);
   (u "viduq3-mix", res_table [("540p", 10); ("720p", 25); ("1080p", 30)]%Z);
   (u "vidu2.0", res_table [("360p", 5); ("720p", 10); ("1080p", 25)]%Z)].
Definition DEFAULT_VIDU_VIDEO_MODEL : pystr := u "viduq3-turbo".
Definition VIDU_IMAGE_CREDITS : list (pystr * list (pystr * Z)) :=
  [(u "viduq2", res_table [("1080p", 8); ("2k", 12); ("4k", 20)]%Z); (u "viduq1", res_table [("1080p", 20)]%Z)].
Definition DEFAULT_VIDU_IMAGE_MODEL : pystr := u "viduq2".

(** [(duration_seconds or 5) * per_sec] is an integer product. *)
Definition calculate_vidu_cost (params : PricingParams) : result cost :=
  let credits z := Ok (fmul (of_int z) VIDU_CREDIT_TO_CNY, u "CNY") in
  let res_key := lower (text_or (pp_resolution params) []) in
  let by_table :=
    if bool_decide (pp_call_type params = "image") then
      let! fallback := subscript DEFAULT_VIDU_IMAGE_MODEL VIDU_IMAGE_CREDITS in
      let table := default fallback (aget (text_or (pp_model params) DEFAULT_VIDU_IMAGE_MODEL) VIDU_IMAGE_CREDITS) in
      match table with
      | (_, first) :: _ => credits (default first (aget (text_or (Some res_key) (u "1080p")) table))
      | [] => Raise StopIteration
      end
    else if bool_decide (pp_call_type params = "video") then
      let! fallback := subscript DEFAULT_VIDU_VIDEO_MODEL VIDU_VIDEO_CREDITS_PER_SECOND in
      let table := default fallback (aget (text_or (pp_model params) DEFAULT_VIDU_VIDEO_MODEL) VIDU_VIDEO_CREDITS_PER_SECOND) in
      let per_sec := default (default 25%Z (aget (u "720p") table)) (aget (text_or (Some res_key) (u "720p")) table) in
      credits (int_or (pp_duration_seconds params) 5 * per_sec)%Z
    else Ok (lit 0, u "CNY") in
  match pp_usage_tokens params with
  | Some t => if (0 <=? t)%Z then credits t else by_table
  | None => by_table
  end.

Definition calculate_pricing (p : Pricing) (params : PricingParams) : result cost :=
  match p with
  | PerToken r => _per_token r params
  | PerImageFlat r => _per_image_flat r params
  | PerImageByResolution r => _per_image_by_resolution r params
  | PerImageOpenAIToken t r => _per_image_openai_token t r params
  | PerSecondMatrix r d res => _per_second_matrix r d res params
  | PerSecondTiered r => _per_second_tiered r params
  | PerVideoBucket r => _per_video_bucket r params
  | PerTokenVideo r => _per_token_video r params
  | PerCharacter r => _per_character r params
  | ViduDelegate => calculate_vidu_cost params
  end.

(** ** Lookup *)

Record ModelInfo := mkModel { media_type : string; is_default : bool; pricing : option Pricing }.

(** [{provider: {model: info}}] *)
Definition ModelRegistry : Type := list (pystr * list (pystr * ModelInfo)).

Definition _OWN_TABLE_PROVIDERS : list pystr :=
  map u ["ark"; "grok"; "openai"; "dashscope"; "minimax"; "kling"; "agnes"].

Definition token_rates_of (i o : Z) : list (pystr * num) := [(u "input", lit (inject_Z i)); (u "output", lit (inject_Z o))].
Definition _ANTHROPIC_PRICING : Pricing :=
  PerToken (mkRates
    ([(u "claude-sonnet-4", token_rates_of 3 15); (u "claude-sonnet-4-20250514", token_rates_of 3 15);
      (u "claude-sonnet-4.5", token_rates_of 3 15); (u "claude-sonnet-4-5", token_rates_of 3 15);
      (u "claude-sonnet-4-6", token_rates_of 3 15); (u "claude-haiku-4-5", token_rates_of 1 5);
      (u "claude-haiku-4-5-20251001", token_rates_of 1 5); (u "claude-haiku-4-20250514", token_rates_of 1 5);
      (u "claude-opus-4", token_rates_of 15 75); (u "claude-opus-4-6", token_rates_of 15 75);
      (u "claude-opus-4-7", token_rates_of 15 75)]) (u "claude-sonnet-4") (u "USD")).

Definition default_model_for_provider (reg : ModelRegistry) (provider : pystr) (media : string) : option pystr :=
  match aget provider reg with
  | Some models => fst <$> List.find (fun m => bool_decide (media_type m.2 = media) && is_default m.2) models
  | None => None
  end.

(** The price of a model of this medium, if it declares one. *)
Definition priced (media : string) (info : option ModelInfo) : option Pricing :=
  match info with Some i => if bool_decide (media_type i = media) then pricing i else None | None => None end.

Fixpoint first_gemini (reg : ModelRegistry) (model : pystr) (media : string) (providers : list string) : result (option Pricing) :=
  match providers with
  | [] => Ok None
  | p :: rest =>
      let! models := subscript (u p) reg in
      match priced media (aget model models) with
      | Some x => Ok (Some x)
      | None => first_gemini reg model media rest
      end
  end.

Fixpoint first_default (reg : ModelRegistry) (models : list (pystr * ModelInfo)) (medias : list string) : result Pricing :=
  match medias with
  | [] => Raise RuntimeError
  | m :: rest =>
      match (match default_model_for_provider reg (u "gemini-aistudio") m with
             | Some id => match aget id models with Some i => pricing i | None => None end
             | None => None
             end) with
      | Some x => Ok x
      | None => first_default reg models rest
      end
  end.

Definition _gemini_default_pricing_for (reg : ModelRegistry) (media : string) (model : option pystr) : result Pricing :=
  let! hit := match model with
              | Some m => first_gemini reg m media ["gemini-aistudio"; "gemini-vertex"]
              | None => Ok None
              end in
  match hit with
  | Some x => Ok x
  | None => let! models := subscript (u "gemini-aistudio") reg in first_default reg models [media; "text"]
  end.

Definition lookup_pricing (reg : ModelRegistry) (provider : pystr) (model : option pystr) (media : string) : result Pricing :=
  if bool_decide (provider = u "anthropic") then Ok _ANTHROPIC_PRICING
  else if bool_decide (provider = u "vidu") then Ok ViduDelegate
  else match aget provider reg with
  | None => _gemini_default_pricing_for reg media model
  | Some models =>
      let info := match model with Some m => aget m models | None => None end in
      match priced media info with
      | Some x => Ok x
      | None =>
          match (if bool_decide (provider ∈ _OWN_TABLE_PROVIDERS)
                 then match default_model_for_provider reg provider media with
                      | Some d => match aget d models with Some i => pricing i | None => None end
                      | None => None
                      end
                 else None) with
          | Some x => Ok x
          | None => _gemini_default_pricing_for reg media model
          end
      end
  end.

(** ** The calculator *)

Definition CUSTOM_PROVIDER_PREFIX : pystr := u "custom-".
Definition is_custom_provider (provider : pystr) : bool :=
  bool_decide (take (length CUSTOM_PROVIDER_PREFIX) provider = CUSTOM_PROVIDER_PREFIX).

Record CustomProviderPrice := mkCustomPrice {
  price_input : option num;
  price_output : option num;
  price_currency : option pystr;
  price_unit : option pystr
}.
Definition _NO_PRICE : CustomProviderPrice := mkCustomPrice None None None None.

Definition _ARK_TOKENS_PER_SECOND_ESTIMATE : Z := 60000.

Definition unit_of_call (call_type : string) : pystr :=
  default [] (aget call_type [("text", u "token"); ("image", u "image"); ("video", u "second"); ("audio", u "character")]).

(** [price_output or 0] is the integer zero when there is no price; a price
    of zero is falsy too, and the product is the same zero. *)
Definition _calculate_custom_cost (price : CustomProviderPrice) (params : PricingParams) : cost :=
  let cur := text_or (price_currency price) (u "USD") in
  match price_input price with
  | None => (lit 0, cur)
  | Some p =>
      let unit := match lower (strip (text_or (price_unit price) [])) with [] => unit_of_call (pp_call_type params) | x => x end in
      if bool_decide (unit = u "token") then
        let inp := fmul (of_int (int_or (pp_input_tokens params) 0)) p in
        let out := fmul (of_int (int_or (pp_output_tokens params) 0)) (default (of_int 0) (price_output price)) in
        (fdiv (fadd inp out) (of_int MILLION), cur)
      else if bool_decide (unit = u "image") then (p, cur)
      else if bool_decide (unit = u "second") then (fmul (of_int (int_or (pp_duration_seconds params) 8)) p, cur)
      else if bool_decide (unit = u "character") then
        (fmul (int_div (int_or (pp_usage_tokens params) 0) CHARACTERS_PER_PRICING_UNIT) p, cur)
      else (lit 0, cur)
  end.

Definition is_per_second (p : Pricing) : bool := match p with PerSecondMatrix _ _ _ | PerSecondTiered _ => true | _ => false end.
Definition is_per_token_video (p : Pricing) : bool := match p with PerTokenVideo _ => true | _ => false end.
Definition falsy_int (x : option Z) : bool := match x with Some z => (z =? 0)%Z | None => true end.

Definition calculate_cost (reg : ModelRegistry) (provider : pystr) (params : PricingParams) (price : CustomProviderPrice)
    (estimate_only : bool) : result cost :=
  if is_custom_provider provider then Ok (_calculate_custom_cost price params)
  else if bool_decide (pp_call_type params = "text") && bool_decide (pp_input_tokens params = None) then Ok (lit 0, u "USD")
  else
    let! p := lookup_pricing reg provider (pp_model params) (pp_call_type params) in
    let params := if is_per_second p && falsy_int (pp_duration_seconds params) then with_duration (Some 8%Z) params else params in
    let params := if estimate_only && is_per_token_video p && bool_decide (pp_usage_tokens params = None)
                     && negb (falsy_int (pp_duration_seconds params))
                  then with_usage ((fun d => d * _ARK_TOKENS_PER_SECOND_ESTIMATE)%Z <$> pp_duration_seconds params) params
                  else params in
    calculate_pricing p params.

Definition estimate_reference_video_cost (reg : ModelRegistry) (unit_durations_seconds : list Z) (provider : pystr)
    (model resolution : option pystr) (generate_audio : bool) (service_tier : pystr) : result cost :=
  let! p := lookup_pricing reg provider model "video" in
  match unit_durations_seconds with
  | [] => Ok (lit 0, pricing_currency p)
  | _ =>
      let total := foldl (fun a d => a + Z.max 0 d)%Z 0%Z unit_durations_seconds in
      let usage := if is_per_token_video p then Some (total * _ARK_TOKENS_PER_SECOND_ESTIMATE)%Z else None in
      calculate_pricing p (mkParams "video" model resolution None (Some total) generate_audio usage service_tier
                             None None None None None None None None 1)
  end.
End pricing.

Arguments mkRates {R}.
Arguments rates {R}.
Arguments default_model {R}.
Arguments currency_of_rates {R}.

(** ** Lookup as a search through candidates *)

Section lookup.
Context `{F : Floats}.

Definition info_of (reg : ModelRegistry) (provider model : pystr) : option ModelInfo :=
  match aget provider reg with Some models => aget model models | None => None end.

(** The models whose price is asked for, in this order: the model called, the
    default of a provider with a table of its own, the model name among the
    Gemini providers, and Gemini's default for the medium and for text. *)
Definition candidates (reg : ModelRegistry) (provider : pystr) (model : option pystr) (media : string)
    : list (pystr * pystr * string) :=
  let named p := match model with Some m => [(p, m, media)] | None => [] end in
  let dflt p m := match default_model_for_provider reg p m with Some d => [(p, d, m)] | None => [] end in
  (if bool_decide (is_Some (aget provider reg)) then named provider else [])
  ++ (if bool_decide (is_Some (aget provider reg)) && bool_decide (provider ∈ _OWN_TABLE_PROVIDERS) then dflt provider media else [])
  ++ named (u "gemini-aistudio") ++ named (u "gemini-vertex")
  ++ dflt (u "gemini-aistudio") media ++ dflt (u "gemini-aistudio") "text".

Definition candidate_price (reg : ModelRegistry) (c : pystr * pystr * string) : option Pricing :=
  priced c.2 (info_of reg c.1.1 c.1.2).

(** What the program relies on: the registry is a dictionary of dictionaries
    with both Gemini providers, and the default text model of the first has
    a price. *)
Record registry_ok (reg : ModelRegistry) : Prop := {
  ro_models : forall p models, aget p reg = Some models -> NoDup models.*1;
  ro_vertex : is_Some (aget (u "gemini-vertex") reg);
  ro_text : exists d i, default_model_for_provider reg (u "gemini-aistudio") "text" = Some d
              /\ info_of reg (u "gemini-aistudio") d = Some i /\ is_Some (pricing i)
}.

Fixpoint first_price (reg : ModelRegistry) (l : list (pystr * pystr * string)) : option Pricing :=
  match l with
  | [] => None
  | c :: l' => match candidate_price reg c with Some p => Some p | None => first_price reg l' end
  end.

Lemma first_price_app reg l l' :
  first_price reg (l ++ l') = match first_price reg l with Some p => Some p | None => first_price reg l' end.
Proof. induction l as [|c l IH]; simpl; [done|]. by destruct (candidate_price reg c). Qed.

Lemma first_price_Some reg l p :
  first_price reg l = Some p ->
  exists pre c post, l = pre ++ c :: post /\ candidate_price reg c = Some p /\ Forall (fun d => candidate_price reg d = None) pre.
Proof.
  induction l as [|c l IH]; simpl; [done|]. destruct (candidate_price reg c) as [x|] eqn:E.
  - intros [= ->]. by exists [], c, l.
  - intros (pre & d & post & -> & H1 & H2)%IH. exists (c :: pre), d, post. by repeat constructor.
Qed.

(** The default model of a medium is of that medium. *)
Lemma default_model_info reg p media d :
  registry_ok reg -> default_model_for_provider reg p media = Some d ->
  exists i, info_of reg p d = Some i /\ media_type i = media.
Proof.
  intros Hok. unfold default_model_for_provider, info_of. destruct (aget p reg) as [models|] eqn:E; [|done].
  intros ([k i] & Hf & Hk)%fmap_Some. cbn in Hk. subst. apply find_Some_elem in Hf as [Hin Hc]. cbn [snd] in Hc. to_prop.
  exists i. split; [|done]. apply aget_elem; [by eapply ro_models|done].
Qed.

Lemma priced_default reg p media d :
  registry_ok reg -> default_model_for_provider reg p media = Some d ->
  candidate_price reg (p, d, media) = match info_of reg p d with Some i => pricing i | None => None end.
Proof.
  intros Hok Hd. destruct (default_model_info _ _ _ _ Hok Hd) as (i & Hi & Hm). unfold candidate_price, priced. cbn [fst snd].
  rewrite Hi. by rewrite bool_decide_eq_true_2.
Qed.

Lemma first_gemini_price reg model media :
  registry_ok reg ->
  first_gemini reg model media ["gemini-aistudio"; "gemini-vertex"]
  = Ok (first_price reg [(u "gemini-aistudio", model, media); (u "gemini-vertex", model, media)]).
Proof.
  intros Hok. cbn [first_gemini first_price]. unfold subscript, candidate_price, info_of. cbn [fst snd].
  destruct (ro_text _ Hok) as (d & i & Hd & _ & _). unfold default_model_for_provider in Hd.
  destruct (aget (u "gemini-aistudio") reg) as [ms|]; [|done]. cbn [bind].
  destruct (ro_vertex _ Hok) as [vs ->]. cbn [bind].
  destruct (priced media (aget model ms)); [done|]. by destruct (priced media (aget model vs)).
Qed.

Lemma first_default_price reg models medias :
  registry_ok reg -> aget (u "gemini-aistudio") reg = Some models ->
  first_default reg models medias
  = match first_price reg (flat_map (fun m => match default_model_for_provider reg (u "gemini-aistudio") m with
                                              | Some d => [(u "gemini-aistudio", d, m)] | None => [] end) medias) with
    | Some p => Ok p
    | None => Raise RuntimeError
    end.
Proof.
  intros Hok Hm. induction medias as [|m medias IH]; cbn [first_default flat_map]; [done|].
  destruct (default_model_for_provider reg (u "gemini-aistudio") m) as [d|] eqn:Ed; [|exact IH].
  cbn [app first_price]. rewrite (priced_default _ _ _ _ Hok Ed). unfold info_of. rewrite Hm.
  destruct (aget d models) as [i|]; [|exact IH]. by destruct (pricing i).
Qed.

Lemma text_default_priced reg :
  registry_ok reg -> exists d p, default_model_for_provider reg (u "gemini-aistudio") "text" = Some d
    /\ candidate_price reg (u "gemini-aistudio", d, "text") = Some p.
Proof.
  intros Hok. destruct (ro_text _ Hok) as (d & i & Hd & Hi & [p Hp]). exists d, p. split; [done|].
  by rewrite (priced_default _ _ _ _ Hok Hd), Hi.
Qed.

(** The Gemini part of the candidates. *)
Definition gemini_candidates (reg : ModelRegistry) (model : option pystr) (media : string) : list (pystr * pystr * string) :=
  let named p := match model with Some m => [(p, m, media)] | None => [] end in
  let dflt p m := match default_model_for_provider reg p m with Some d => [(p, d, m)] | None => [] end in
  named (u "gemini-aistudio") ++ named (u "gemini-vertex") ++ dflt (u "gemini-aistudio") media ++ dflt (u "gemini-aistudio") "text".

Lemma gemini_default_price reg media model :
  registry_ok reg ->
  exists p, _gemini_default_pricing_for reg media model = Ok p /\ first_price reg (gemini_candidates reg model media) = Some p.
Proof.
  intros Hok. destruct (text_default_priced _ Hok) as (d & pt & Hd & Hpt).
  assert (exists ms, aget (u "gemini-aistudio") reg = Some ms) as [ms Hms].
  { unfold default_model_for_provider in Hd. destruct (aget (u "gemini-aistudio") reg) as [ms|]; [by exists ms|done]. }
  unfold _gemini_default_pricing_for, gemini_candidates.
  set (named := (match model with Some m => [(u "gemini-aistudio", m, media)] | None => [] end)
                ++ (match model with Some m => [(u "gemini-vertex", m, media)] | None => [] end)).
  assert ((match model with Some m => first_gemini reg m media ["gemini-aistudio"; "gemini-vertex"] | None => Ok None end)
          = Ok (first_price reg named)) as ->.
  { destruct model as [m|]; [by apply first_gemini_price|done]. }
  cbv zeta. rewrite app_assoc. fold named. rewrite first_price_app. cbn [bind].
  destruct (first_price reg named) as [p|]; [by exists p|].
  unfold subscript. rewrite Hms. cbn [bind]. rewrite (first_default_price _ _ _ Hok Hms). cbn [flat_map]. rewrite app_nil_r.
  rewrite !first_price_app.
  destruct (first_price reg (match default_model_for_provider reg (u "gemini-aistudio") media with
                             | Some d => [(u "gemini-aistudio", d, media)] | None => [] end)) as [p|]; [by exists p|].
  rewrite Hd. cbn [first_price]. rewrite Hpt. by exists pt.
Qed.

(** All candidates but the last are of the medium of the call. *)
Lemma candidates_media reg provider model media :
  registry_ok reg ->
  exists l d, candidates reg provider model media = l ++ [(u "gemini-aistudio", d, "text")] /\ Forall (fun c => c.2 = media) l.
Proof.
  intros Hok. destruct (text_default_priced _ Hok) as (d & p & Hd & _). unfold candidates. rewrite Hd. cbv zeta.
  rewrite !app_assoc. eexists _, d. split; [done|].
  rewrite !Forall_app. repeat split; repeat case_match; by repeat constructor.
Qed.

(** C23: A call is priced by the first of its candidates that declares a price
    for the medium of the call: its own model, then (for a provider with a
    table of its own) that provider's default model of the medium, then
    Gemini's model of that name and Gemini's default.  The search always
    finds one, and never uses the price of a model of another medium but for
    the text default that ends it; Anthropic and Vidu bypass it. *)
Theorem lookup_first_candidate reg provider model media :
  registry_ok reg -> provider <> u "anthropic" -> provider <> u "vidu" ->
  exists p, lookup_pricing reg provider model media = Ok p
    /\ exists pre c post info, candidates reg provider model media = pre ++ c :: post
       /\ Forall (fun d => candidate_price reg d = None) pre
       /\ info_of reg c.1.1 c.1.2 = Some info /\ pricing info = Some p /\ media_type info = c.2
       /\ (media_type info = media \/ (c.1.1 = u "gemini-aistudio" /\ c.2 = "text" /\ post = [])).
Proof.
  intros Hok Ha Hv.
  assert (exists p, lookup_pricing reg provider model media = Ok p /\ first_price reg (candidates reg provider model media) = Some p)
    as (p & Hp & Hf).
  { unfold lookup_pricing, candidates. rewrite !bool_decide_eq_false_2 by done.
    destruct (gemini_default_price reg media model Hok) as (pg & Hpg & Hg). unfold gemini_candidates in Hg. cbv zeta in Hg.
    destruct (aget provider reg) as [models|] eqn:Em.
    2: { rewrite (bool_decide_eq_false_2 (is_Some None)) by (by intros [? ?]). cbn [andb app]. by exists pg. }
    rewrite (bool_decide_eq_true_2 (is_Some (Some models))) by (by exists models). cbn [andb]. rewrite first_price_app.
    assert (first_price reg (match model with Some m => [(provider, m, media)] | None => [] end)
            = priced media (match model with Some m => aget m models | None => None end)) as ->.
    { destruct model as [m|]; [|done]. cbn [first_price]. unfold candidate_price, info_of. cbn [fst snd]. rewrite Em.
      by destruct (priced _ _). }
    destruct (priced media _) as [x|]; [by exists x|]. rewrite first_price_app.
    case_bool_decide as Eo; [|by exists pg].
    destruct (default_model_for_provider reg provider media) as [d|] eqn:Ed; [|by exists pg]. cbn [first_price].
    rewrite (priced_default _ _ _ _ Hok Ed). unfold info_of. rewrite Em. destruct (aget d models) as [i|]; [|by exists pg].
    destruct (pricing i) as [x|]; [by exists x|by exists pg]. }
  exists p. split; [done|]. apply first_price_Some in Hf as (pre & c & post & Hc & Hcp & Hpre).
  unfold candidate_price, priced in Hcp. destruct (info_of reg c.1.1 c.1.2) as [i|] eqn:Ei; [|done].
  case_bool_decide as Em; [|done]. exists pre, c, post, i. do 5 (split; [done|]).
  destruct (candidates_media reg provider model media Hok) as (l & d & Hl & Hmed). rewrite Hl in Hc.
  destruct post as [|x post] using rev_ind.
  - apply app_inj_tail in Hc as [_ <-]. right. cbn [fst snd]. done.
  - left. rewrite app_comm_cons, app_assoc in Hc. apply app_inj_tail in Hc as [-> _]. rewrite Em.
    rewrite Forall_app, Forall_cons in Hmed. naive_solver.
Qed.
End lookup.

(** ** Buckets *)

Section buckets.
Context `{F : Floats} {FO : FloatOrder F}.

(** [pa < pb] on prices and on names. *)
Lemma fltb_trans x y z : negb (fleb y x) = true -> negb (fleb z y) = true -> negb (fleb z x) = true.
Proof.
  rewrite !negb_true_iff. intros H1 H2. destruct (fleb z x) eqn:E; [|done].
  destruct (fleb_total x y) as [H|H]; [|congruence]. rewrite <- H2. symmetry. by apply (fleb_trans z x y).
Qed.

Lemma bucket_lt_iff d ra da pa rb db pb :
  bucket_lt d (ra, da, pa) (rb, db, pb) = true <->
  (Z.abs (da - d) < Z.abs (db - d))%Z
  \/ Z.abs (da - d) = Z.abs (db - d)
     /\ ((da < db)%Z \/ da = db /\ (fleb pb pa = false \/ fleb pa pb = true /\ str_leb rb ra = false)).
Proof.
  unfold bucket_lt. rewrite !orb_true_iff, !andb_true_iff, !orb_true_iff, !andb_true_iff, !orb_true_iff, !andb_true_iff, !orb_true_iff,
    !andb_true_iff, !negb_true_iff, !Z.ltb_lt, !Z.eqb_eq. split; [|tauto].
  intros [H|(H1 & [H|(H2 & [H|(H3 & [H|[_ H]])])])]; [auto|auto|auto 6|auto 7|lia].
Qed.

Lemma bucket_lt_trans d a b c : bucket_lt d a b = true -> bucket_lt d b c = true -> bucket_lt d a c = true.
Proof.
  destruct a as [[ra da] pa], b as [[rb db] pb], c as [[rc dc] pc]. rewrite !bucket_lt_iff.
  intros [H1|(H1 & [H2|(H2 & H3)])] [G1|(G1 & [G2|(G2 & G3)])]; try (left; lia); right; (split; [lia|]); try (left; lia).
  right. split; [lia|]. destruct H3 as [H3|[H3 H4]], G3 as [G3|[G3 G4]].
  - left. apply negb_true_iff. eapply fltb_trans; by apply negb_true_iff.
  - left. destruct (fleb pc pa) eqn:E; [|done]. rewrite <- H3. symmetry. by apply (fleb_trans pb pc pa).
  - left. destruct (fleb pc pa) eqn:E; [|done]. rewrite <- G3. symmetry. by apply (fleb_trans pc pa pb).
  - right. split; [by apply (fleb_trans pa pb pc)|]. destruct (str_leb rc ra) eqn:E; [|done].
    destruct (str_leb_total ra rb) as [H|H]; [|congruence]. rewrite <- G4. symmetry. by apply (str_leb_trans rc ra rb).
Qed.

(** Only the bucket itself is neither before nor after. *)
Lemma bucket_lt_tricho d a b : bucket_lt d a b = false -> bucket_lt d b a = false -> a.1 = b.1.
Proof.
  destruct a as [[ra da] pa], b as [[rb db] pb]. intros H1%not_true_iff_false H2%not_true_iff_false.
  rewrite bucket_lt_iff in H1, H2. cbn [fst].
  destruct (Z.lt_trichotomy (Z.abs (da - d)) (Z.abs (db - d))) as [?|[E1|?]]; [tauto| |tauto].
  pose proof (eq_sym E1) as E1'. destruct (Z.lt_trichotomy da db) as [?|[E2|?]]; [tauto| |tauto].
  pose proof (eq_sym E2) as E2'.
  destruct (fleb pb pa) eqn:P1; [|tauto]. destruct (fleb pa pb) eqn:P2; [|tauto].
  destruct (str_leb rb ra) eqn:S1; [|tauto]. destruct (str_leb ra rb) eqn:S2; [|tauto].
  by rewrite (str_leb_antisym ra rb S2 S1), E2.
Qed.

(** The order is total up to equal rank: whatever lies between. *)
Lemma bucket_lt_cotrans d a b c : bucket_lt d a c = true -> bucket_lt d a b = true \/ bucket_lt d b c = true.
Proof.
  destruct a as [[ra da] pa], b as [[rb db] pb], c as [[rc dc] pc]. rewrite !bucket_lt_iff. intros H.
  destruct (Z.lt_trichotomy (Z.abs (da - d)) (Z.abs (db - d))) as [?|[E1|?]]; [tauto| |right; left; destruct H; lia].
  destruct H as [H|[H1 H]]; [right; left; lia|].
  destruct (Z.lt_trichotomy da db) as [?|[E2|?]]; [tauto| |right; right; split; [lia|left; destruct H; lia]].
  destruct H as [H|[H2 H]]; [right; right; split; [lia|left; lia]|].
  destruct (fleb pb pa) eqn:P1; [|tauto]. destruct (fleb pc pb) eqn:P2; [|right; right; split; [lia|right; split; [lia|tauto]]].
  assert (fleb pc pa = true) as P3 by (by eapply fleb_trans). destruct H as [H|[H3 H4]]; [congruence|].
  assert (fleb pa pb = true) as P4 by (by eapply fleb_trans). assert (fleb pb pc = true) as P5 by (by eapply fleb_trans).
  destruct (str_leb rb ra) eqn:S1; [|left; right; split; [lia|right; split; [lia|tauto]]].
  right; right; split; [lia|right; split; [lia|right; split; [done|]]].
  destruct (str_leb rc rb) eqn:S2; [|done]. rewrite <- H4. symmetry. by eapply str_leb_trans.
Qed.

Lemma bucket_lt_irrefl d a : bucket_lt d a a = false.
Proof.
  destruct a as [[r x] p]. apply not_true_iff_false. rewrite bucket_lt_iff. intros [?|(_ & [?|(_ & [H|[_ H]])])]; try lia.
  - destruct (fleb_total p p); congruence.
  - destruct (str_leb_total r r); congruence.
Qed.

Lemma min_by_spec d best l :
  min_by (bucket_lt d) best l ∈ best :: l /\ forall x, x ∈ best :: l -> bucket_lt d x (min_by (bucket_lt d) best l) = false.
Proof.
  revert best. induction l as [|y l IH]; intros best; cbn [min_by].
  - split; [left|]. intros x [-> |?%not_elem_of_nil]%elem_of_cons; [apply bucket_lt_irrefl|done].
  - set (best' := if bucket_lt d y best then y else best). destruct (IH best') as [Hin Hmin]. split.
    + unfold best' in *. destruct (bucket_lt d y best); set_solver.
    + assert (forall x, bucket_lt d x best' = false -> bucket_lt d x (min_by (bucket_lt d) best' l) = false) as Hb.
      { intros x Hx. apply not_true_iff_false. intros [H|H]%(bucket_lt_cotrans _ _ best'); [congruence|].
        by rewrite Hmin in H by left. }
      intros x [-> |[-> |Hx]%elem_of_cons]%elem_of_cons; [apply Hb..|by apply Hmin; right]; unfold best';
        destruct (bucket_lt d y best) eqn:E; [|apply bucket_lt_irrefl|apply bucket_lt_irrefl|done].
      apply not_true_iff_false. intros H. pose proof (bucket_lt_trans _ _ _ _ H E) as Hx. by rewrite bucket_lt_irrefl in Hx.
Qed.

Lemma nearest_spec d res l b :
  nearest d res l = Ok b ->
  b ∈ l /\ (b.1.1 = res \/ forall x, x ∈ l -> x.1.1 <> res)
  /\ forall x, x ∈ l -> (x.1.1 = res \/ b.1.1 <> res) -> bucket_lt d x b = false.
Proof.
  unfold nearest. destruct (where_ (fun b => bool_decide (b.1.1 = res)) l) as [|x0 same] eqn:E.
  - assert (forall x, x ∈ l -> x.1.1 <> res) as Hno.
    { intros x Hx Hr. apply (proj1 (where_nil _ _) E) in Hx. by rewrite bool_decide_eq_true_2 in Hx. }
    destruct l as [|x l]; [done|]. intros [= <-]. destruct (min_by_spec d x l) as [H1 H2]. split; [done|]. split; [by right|].
    intros y Hy _. by apply H2.
  - intros [= <-]. destruct (min_by_spec d x0 same) as [H1 H2].
    assert (forall y, y ∈ x0 :: same <-> y ∈ l /\ y.1.1 = res) as Hs.
    { intros y. pose proof (elem_of_where (fun b : bucket => bool_decide (b.1.1 = res)) l y) as Hw.
      etransitivity; [|etransitivity; [exact Hw|by rewrite bool_decide_eq_true]]. by rewrite <- E. }
    apply Hs in H1 as [H1 H3]. split; [done|]. split; [by left|]. intros y Hy [Hr|?]; [|done]. apply H2. by apply Hs.
Qed.

Lemma NoDup_fst_eq {A B} (l : list (A * B)) x y : NoDup l.*1 -> x ∈ l -> y ∈ l -> x.1 = y.1 -> x = y.
Proof.
  intros Hnd [i Hi]%list_elem_of_lookup [j Hj]%list_elem_of_lookup He.
  assert (i = j) as ->; [|congruence]. eapply (NoDup_lookup l.*1); [done|by rewrite list_lookup_fmap, Hi|].
  rewrite list_lookup_fmap, Hj. cbn. by rewrite He.
Qed.

(** The price of a video bucket does not depend on how the table is
    written down: any order of the same table gives the same price.  An exact
    bucket is taken as it is; otherwise the chosen one is of the wanted
    resolution if the table has any, and then no other such bucket is nearer
    in length, nor as near and shorter. *)
Theorem bucket_price_deterministic lower model cur (b1 b2 : list bucket) params :
  NoDup b1.*1 -> b1 ≡ₚ b2 -> b1 <> [] ->
  let p b := mkRates [(model, b)] model cur in
  let res := lower (text_or (pp_resolution params) (u "768p")) in
  let d := default _DEFAULT_BUCKET_DURATION (pp_duration_seconds params) in
  exists b, _per_video_bucket lower (p b1) params = Ok (b.2, cur) /\ _per_video_bucket lower (p b2) params = Ok (b.2, cur)
    /\ b ∈ b1
    /\ ((exists x, x ∈ b1 /\ x.1 = (res, d)) -> b.1 = (res, d))
    /\ ((exists x, x ∈ b1 /\ x.1.1 = res) -> b.1.1 = res)
    /\ forall x, x ∈ b1 -> (x.1.1 = res \/ b.1.1 <> res) ->
         (Z.abs (b.1.2 - d) < Z.abs (x.1.2 - d) \/ (Z.abs (b.1.2 - d) = Z.abs (x.1.2 - d) /\ b.1.2 <= x.1.2))%Z.
Proof.
  intros Hnd Hperm Hne. cbv zeta. set (res := lower _). set (d := default _ _).
  assert (NoDup b2.*1) as Hnd2 by (by rewrite <- Hperm).
  assert (forall b : list bucket, model_rates (mkRates [(model, b)] model cur) params = Ok b) as Hm.
  { intros b. unfold model_rates, subscript. cbn. rewrite bool_decide_eq_true_2 by done. cbn. by case_bool_decide. }
  unfold _per_video_bucket. rewrite !Hm. cbn [bind]. fold res. fold d.
  assert (aget (res, d) b2 = aget (res, d) b1) as ->.
  { apply option_eq. intros v. split; intros H%aget_Some_elem; (apply aget_elem; [done|]); [by rewrite Hperm|by rewrite <- Hperm]. }
  destruct (aget (res, d) b1) as [v|] eqn:E.
  { apply aget_Some_elem in E. exists ((res, d), v). cbn [fst snd]. do 2 (split; [done|]). split; [done|]. do 2 (split; [done|]).
    intros x Hx _. destruct (Z.eq_dec (Z.abs (x.1.2 - d)) 0); [right|left]; lia. }
  assert (forall b : list bucket, b <> [] -> exists x, nearest d res b = Ok x) as Hn.
  { intros b Hb. unfold nearest. destruct (where_ (fun x => bool_decide (x.1.1 = res)) b); [destruct b; [done|by eexists]|by eexists]. }
  destruct (Hn b1 Hne) as [x Hx]. assert (b2 <> []) as Hne2 by (intros ->; by apply Permutation_nil_r in Hperm).
  destruct (Hn b2 Hne2) as [y Hy]. rewrite Hx, Hy. cbn [bind].
  apply nearest_spec in Hx as (X1 & X2 & X3), Hy as (Y1 & Y2 & Y3).
  assert (y = x) as ->.
  { rewrite <- Hperm in Y1. assert (x.1 = y.1) as He.
    { assert (x ∈ b2) as X1' by (by rewrite <- Hperm). apply (bucket_lt_tricho d).
      - apply Y3; [done|]. destruct X2 as [X2|X2]; [by left|right; by apply X2].
      - apply X3; [done|]. destruct Y2 as [Y2|Y2]; [by left|right; by apply Y2]. }
    apply (NoDup_fst_eq b1); auto. }
  exists x. do 3 (split; [done|]). split; [|split].
  - intros (z & Hz & Hzk). exfalso. destruct z as [k v]. cbn in Hzk. subst. by rewrite (aget_elem _ _ _ Hnd Hz) in E.
  - intros (z & Hz & Hzr). destruct X2 as [|X2]; [done|]. by apply X2 in Hz.
  - intros z Hz Hc. specialize (X3 z Hz Hc). destruct z as [[rz dz] pz], x as [[rx dx] px]. cbn [fst snd] in *.
    apply not_true_iff_false in X3. rewrite bucket_lt_iff in X3. lia.
Qed.
End buckets.

(** ** Estimates *)

(** Exact numbers are one implementation of the interface. *)
#[global] Instance q_floats : Floats := {|
  num := Q; lit := fun q => q; of_int := inject_Z; int_div := fun a b => Qdiv (inject_Z a) (inject_Z b);
  fadd := Qplus; fmul := Qmult; fdiv := Qdiv; fleb := Qle_bool; fround := fun _ x => x
|}.

#[global] Instance q_order : FloatOrder q_floats.
Proof.
  split; cbn.
  - intros x y. rewrite !Qle_bool_iff. destruct (Qlt_le_dec x y) as [H|H]; [left; by apply Qlt_le_weak|by right].
  - intros x y z. rewrite !Qle_bool_iff. apply Qle_trans.
Qed.

Definition total_seconds (ds : list Z) : Z := foldl (fun a d => a + Z.max 0 d)%Z 0%Z ds.

Definition video_params (model resolution : option pystr) (seconds : Z) (audio : bool) (tier : pystr) : PricingParams :=
  mkParams "video" model resolution None (Some seconds) audio None tier None None None None None None None None 1.

Lemma with_usage_none p : pp_usage_tokens p = None -> with_usage None p = p.
Proof. destruct p; cbn. by intros ->. Qed.

(** A demonstration registry: one provider that sells videos by the bucket. *)
Definition demo_buckets : list (bucket (F := q_floats)) := [((u "768p", 6%Z), 2 # 1)%Q; ((u "768p", 10%Z), 4 # 1)%Q].
Definition demo_models_of : ModelRegistry (F := q_floats) :=
  [(u "minimax", [(u "clip", mkModel "video" true (Some (PerVideoBucket (mkRates [(u "clip", demo_buckets)] (u "clip") (u "CNY")))))]);
   (u "gemini-aistudio", [(u "flash", mkModel "text" true (Some (PerToken (mkRates [(u "flash", token_rates_of 1 2)] (u "flash") (u "USD")))))]);
   (u "gemini-vertex", [])].

Abbreviation demo_estimate ds := (estimate_reference_video_cost id id demo_models_of ds (u "minimax") None None true (u "default")).

(** The estimate of an episode is the price of one video as long as all its
    units together: negative lengths count as nothing, an empty episode costs
    nothing in the currency of the model, and an episode with some length
    costs what the calculator says of a single call of that length.  That is
    the sum over the units when the price is linear in the seconds, but for a
    model priced by buckets it is not: three clips of six seconds, two yuan
    each, are estimated at the four yuan of the longest bucket. *)
Theorem estimate_one_call `{F : Floats} lower upper reg ds provider model resolution audio tier :
  is_custom_provider provider = false ->
  (ds = [] -> estimate_reference_video_cost lower upper reg ds provider model resolution audio tier
              = let! p := lookup_pricing reg provider model "video" in Ok (lit 0, pricing_currency p))
  /\ ((0 < total_seconds ds)%Z ->
        estimate_reference_video_cost lower upper reg ds provider model resolution audio tier
        = calculate_cost lower upper reg provider (video_params model resolution (total_seconds ds) audio tier) _NO_PRICE true)
  /\ demo_estimate [6; 6; 6]%Z = Ok (4 # 1, u "CNY") /\ demo_estimate [6]%Z = Ok (2 # 1, u "CNY").
Proof.
  intros Hc. split; [intros ->; done|]. split; [|split; reflexivity].
  intros Ht. unfold estimate_reference_video_cost, calculate_cost, video_params. rewrite Hc.
  cbn [pp_call_type pp_model pp_input_tokens].
  rewrite bool_decide_eq_false_2 by done. cbn [andb pp_model].
  destruct (lookup_pricing reg provider model "video") as [p|e]; [|done]. cbn [bind].
  destruct ds as [|d ds]; [done|]. fold (total_seconds (d :: ds)). cbn [pp_duration_seconds falsy_int].
  destruct (Z.eqb_spec (total_seconds (d :: ds)) 0) as [E|_]; [lia|]. rewrite andb_false_r. cbn [pp_usage_tokens pp_duration_seconds falsy_int].
  rewrite (bool_decide_eq_true_2 (None = None :> option Z)) by reflexivity. destruct (Z.eqb_spec (total_seconds (d :: ds)) 0) as [E|_]; [lia|].
  by destruct (is_per_token_video p).
Qed.

Lemma lookup_first_candidate_witness :
  exists p, lookup_pricing demo_models_of (u "minimax") (Some (u "clip")) "video" = Ok p /\ p <> ViduDelegate.
Proof.
  destruct (lookup_first_candidate demo_models_of (u "minimax") (Some (u "clip")) "video") as (p & Hp & _).
  - split.
    + intros q models Hq. cbn in Hq. repeat case_bool_decide; simplify_eq; apply (bool_decide_unpack _); vm_compute; exact I.
    + apply (bool_decide_unpack _). vm_compute. exact I.
    + exists (u "flash"). eexists. split; [reflexivity|]. split; [reflexivity|]. by eexists.
  - apply (bool_decide_unpack _). vm_compute. exact I.
  - apply (bool_decide_unpack _). vm_compute. exact I.
  - exists p. split; [exact Hp|]. intros ->. discriminate Hp.
Defined.

Lemma bucket_price_deterministic_witness :
  let params := video_params None (Some (u "768p")) 9 true (u "default") in
  exists b, _per_video_bucket id (mkRates [(u "clip", demo_buckets)] (u "clip") (u "CNY")) params = Ok (b, u "CNY") /\ b = (4 # 1)%Q
    /\ _per_video_bucket id (mkRates [(u "clip", reverse demo_buckets)] (u "clip") (u "CNY")) params = Ok (b, u "CNY").
Proof.
  cbv zeta. set (params := video_params None (Some (u "768p")) 9 true (u "default")).
  destruct (bucket_price_deterministic (F := q_floats) id (u "clip") (u "CNY") demo_buckets (reverse demo_buckets) params) as (b & H1 & H2 & _).
  - apply (bool_decide_unpack _). vm_compute. exact I.
  - symmetry. apply reverse_Permutation.
  - done.
  - exists b.2. split; [exact H1|]. split; [|exact H2]. change (Ok ((4 # 1)%Q, u "CNY") = Ok (b.2, u "CNY")) in H1. congruence.
Defined.

Lemma estimate_one_call_witness : demo_estimate [6; -3; 4]%Z = Ok (4 # 1, u "CNY").
Proof.
  destruct (estimate_one_call id id demo_models_of [6; -3; 4]%Z (u "minimax") None None true (u "default") eq_refl) as (_ & H & _).
  etransitivity; [apply H; reflexivity|reflexivity].
Defined.
