(* ===== verification/Usage.v ===== *)
(** * Book-keeping of API calls: [lib/ledger.py], [lib/db/repositories/usage_repo.py]

    The table of calls, settlement of a call, the two writes that end a call,
    the recording bracket with its faults, and the cost reports.  Time is in
    microseconds; [to_ms] is the float conversion of an interval, [sql_sum]
    the database's SUM of a column and [get_model] the lookup of a custom
    model's price, which may raise. *)

From S2P Require Import Prelude Json TaskFailure TaskStore TaskRepo Pricing.
Open Scope nat_scope.
Open Scope spool_scope.

Section usage.
Context `{F : Floats}.

(** ** Table *)

Record ApiCall := mkApiCall {
  ac_id : nat;
  ac_project_id : option string;
  ac_project_name : string;
  ac_actor_username : option string;
  ac_call_type : string;
  ac_model : pystr;
  ac_prompt : option pystr;
  ac_resolution : option pystr;
  ac_duration_seconds : option Z;
  ac_aspect_ratio : option pystr;
  ac_generate_audio : option bool;
  ac_status : string;
  ac_error_message : option pystr;
  ac_output_path : option pystr;
  ac_segment_id : option string;
  ac_started_at : Z;
  ac_finished_at : option Z;
  ac_duration_ms : option Z;
  ac_cost_amount : num;
  ac_currency : pystr;
  ac_provider : pystr;
  ac_usage_tokens : option Z;
  ac_input_tokens : option Z;
  ac_output_tokens : option Z;
  ac_image_input_tokens : option Z;
  ac_image_output_tokens : option Z;
  ac_text_input_tokens : option Z;
  ac_text_output_tokens : option Z;
  ac_user_id : string
}.

(** The table with its autoincrement, and the identity tables it refers to. *)
Record UsageDB := mkUsage { calls : list ApiCall; next_id : nat; identity : DB }.

Definition with_calls (l : list ApiCall) (d : UsageDB) : UsageDB := mkUsage l (next_id d) (identity d).

Definition find_call (id : nat) (d : UsageDB) : option ApiCall := List.find (fun r => bool_decide (ac_id r = id)) (calls d).

(** [UPDATE ... WHERE id = ? AND ...] and its row count. *)
Definition update_calls (p : ApiCall -> bool) (f : ApiCall -> ApiCall) (d : UsageDB) : nat * UsageDB :=
  (length (where_ p (calls d)), with_calls (map (fun r => if p r then f r else r) (calls d)) d).

Record SettlementInput := mkSettlement {
  se_cost_amount : option num;
  se_currency : option pystr;
  se_service_tier : pystr;
  se_generate_audio : option bool;
  se_billed_duration_seconds : option Z;
  se_usage_tokens : option Z;
  se_input_tokens : option Z;
  se_output_tokens : option Z;
  se_quality : option pystr;
  se_image_input_tokens : option Z;
  se_image_output_tokens : option Z;
  se_text_input_tokens : option Z;
  se_text_output_tokens : option Z
}.
Definition no_settlement : SettlementInput :=
  mkSettlement None None (u "default") None None None None None None None None None None.

Record _SettledCall := mkSettled {
  sc_duration_ms : Z;
  sc_effective_duration_seconds : option Z;
  sc_effective_generate_audio : option bool;
  sc_input_tokens : option Z;
  sc_output_tokens : option Z;
  sc_cost_amount : num;
  sc_currency : pystr
}.

Definition MAX_BILLED_DURATION_SECONDS : Z := 86400.

(** [text[:500] if text else None] *)
Definition truncated (t : option pystr) : option pystr :=
  match t with Some (c :: s) => Some (take 500 (c :: s)) | _ => None end.

(** ** Writes *)

Context (lower upper : pystr -> pystr) (to_ms : Z -> Z) (reg : ModelRegistry) (testing : bool).
Context (get_model : pystr -> pystr -> result (option CustomProviderPrice)).

Definition resolve_price (provider model : pystr) : CustomProviderPrice :=
  if negb (is_custom_provider provider) then _NO_PRICE
  else match get_model provider model with Ok (Some p) => p | _ => _NO_PRICE end.

Record CallArgs := mkCallArgs {
  ca_project_name : string;
  ca_call_type : string;
  ca_model : pystr;
  ca_prompt : option pystr;
  ca_resolution : option pystr;
  ca_duration_seconds : option Z;
  ca_aspect_ratio : option pystr;
  ca_generate_audio : bool;
  ca_provider : pystr;
  ca_user_id : string;
  ca_segment_id : option string
}.

Definition start_call (now : Z) (a : CallArgs) (d : UsageDB) : result (nat * UsageDB) :=
  let! pid := resolve_project_id (identity d) (ca_project_name a) in
  let! actor := resolve_actor_user_id testing (identity d) (Some (ca_user_id a)) in
  let id := next_id d in
  let row := mkApiCall id pid (ca_project_name a) (_actor_username (identity d) actor) (ca_call_type a) (ca_model a)
               (truncated (ca_prompt a)) (ca_resolution a) (ca_duration_seconds a) (ca_aspect_ratio a)
               (Some (ca_generate_audio a)) "pending" None None (ca_segment_id a) now None None fzero (u "USD")
               (ca_provider a) None None None None None None None actor in
  Ok (id, mkUsage (calls d ++ [row]) (S id) (identity d)).

Definition effective_duration (row : ApiCall) (s : SettlementInput) : option Z :=
  match se_billed_duration_seconds s with
  | Some b => if (0 <? b)%Z && (b <=? MAX_BILLED_DURATION_SECONDS)%Z then Some b else ac_duration_seconds row
  | None => ac_duration_seconds row
  end.

Definition has_image_tokens (s : SettlementInput) : bool :=
  bool_decide (is_Some (se_image_input_tokens s) \/ is_Some (se_image_output_tokens s)
               \/ is_Some (se_text_input_tokens s) \/ is_Some (se_text_output_tokens s)).

Definition settled_tokens (s : SettlementInput) : option Z * option Z :=
  if has_image_tokens s
  then (Some (int_or (se_image_input_tokens s) 0 + int_or (se_text_input_tokens s) 0)%Z,
        Some (int_or (se_image_output_tokens s) 0 + int_or (se_text_output_tokens s) 0)%Z)
  else (se_input_tokens s, se_output_tokens s).

Definition truthy_flag (b : option bool) : bool := match b with Some b => b | None => false end.

Definition _settle (row : ApiCall) (finished_at : Z) (s : SettlementInput) (auto_calc : bool) (base_currency : pystr)
    : result _SettledCall :=
  let audio := match se_generate_audio s with Some b => Some b | None => ac_generate_audio row end in
  let seconds := effective_duration row s in
  let tokens := settled_tokens s in
  let! paid :=
    match se_cost_amount s with
    | Some c => Ok (c, text_or (se_currency s) base_currency)
    | None =>
        if auto_calc then
          let provider := text_or (Some (ac_provider row)) (u "gemini") in
          calculate_cost lower upper reg provider
            (mkParams (ac_call_type row) (Some (ac_model row)) (ac_resolution row) (ac_aspect_ratio row) seconds (truthy_flag audio)
               (se_usage_tokens s) (se_service_tier s) tokens.1 tokens.2 (se_quality s) None (se_image_input_tokens s)
               (se_image_output_tokens s) (se_text_input_tokens s) (se_text_output_tokens s) 1)
            (resolve_price provider (ac_model row)) false
        else Ok (fzero, base_currency)
    end in
  Ok (mkSettled (to_ms (finished_at - ac_started_at row)) seconds audio tokens.1 tokens.2 paid.1 paid.2).

(** The columns both ending writes set. *)
Definition end_row (status : string) (now : Z) (s : SettlementInput) (c : _SettledCall) (r : ApiCall) : ApiCall :=
  mkApiCall (ac_id r) (ac_project_id r) (ac_project_name r) (ac_actor_username r) (ac_call_type r) (ac_model r) (ac_prompt r)
    (ac_resolution r) (sc_effective_duration_seconds c) (ac_aspect_ratio r) (sc_effective_generate_audio c) status
    (ac_error_message r) (ac_output_path r) (ac_segment_id r) (ac_started_at r) (Some now) (Some (sc_duration_ms c))
    (sc_cost_amount c) (sc_currency c) (ac_provider r) (se_usage_tokens s) (ac_input_tokens r) (ac_output_tokens r)
    (ac_image_input_tokens r) (ac_image_output_tokens r) (ac_text_input_tokens r) (ac_text_output_tokens r) (ac_user_id r).

(** The further columns of [finish_call]. *)
Definition finish_row (status : string) (now : Z) (s : SettlementInput) (c : _SettledCall) (out err : option pystr) (r : ApiCall)
    : ApiCall :=
  let r := end_row status now s c r in
  mkApiCall (ac_id r) (ac_project_id r) (ac_project_name r) (ac_actor_username r) (ac_call_type r) (ac_model r) (ac_prompt r)
    (ac_resolution r) (ac_duration_seconds r) (ac_aspect_ratio r) (ac_generate_audio r) (ac_status r) (truncated err) out
    (ac_segment_id r) (ac_started_at r) (ac_finished_at r) (ac_duration_ms r) (ac_cost_amount r) (ac_currency r) (ac_provider r)
    (ac_usage_tokens r) (sc_input_tokens c) (sc_output_tokens c) (se_image_input_tokens s) (se_image_output_tokens s)
    (se_text_input_tokens s) (se_text_output_tokens s) (ac_user_id r).

Definition finalize_pending_by_call_id (now : Z) (id : nat) (s : SettlementInput) (status : string) (d : UsageDB)
    : result (nat * UsageDB) :=
  match find_call id d with
  | None => Ok (0, d)
  | Some row =>
      let! c := _settle row now s (bool_decide (status = "success") && bool_decide (ac_status row = "pending"))
                  (text_or (se_currency s) (u "USD")) in
      Ok (update_calls (fun r => bool_decide (ac_id r = id) && bool_decide (ac_status r = "pending")) (end_row status now s c) d)
  end.

Definition finish_call (now : Z) (id : nat) (status : string) (s : SettlementInput) (out err : option pystr) (d : UsageDB)
    : result UsageDB :=
  match find_call id d with
  | None => Ok d
  | Some row =>
      let! c := _settle row now s (bool_decide (status = "success")) (text_or (Some (ac_currency row)) (u "USD")) in
      Ok (update_calls (fun r => bool_decide (ac_id r = id)) (finish_row status now s c out err) d).2
  end.

(** ** The ledger *)

(** What a backend hands back, by medium. *)
Inductive BackendResult :=
| ImageResult (usage_tokens : option Z) (quality : option pystr) (image_in image_out text_in text_out : option Z)
| AudioResult (characters : option Z)
| VideoResult (usage_tokens : option Z) (generate_audio : option bool) (duration_seconds : option Z)
| TextResult (input_tokens output_tokens : option Z).

Definition _settlement_from_result (call_type : string) (r : BackendResult) (service_tier : pystr) : result SettlementInput :=
  let dflt := u "default" in
  if bool_decide (call_type = "image") then
    match r with
    | ImageResult t q ii io ti to => Ok (mkSettlement None None dflt None None t None None q ii io ti to)
    | _ => Raise AttributeError
    end
  else if bool_decide (call_type = "audio") then
    match r with
    | AudioResult n => Ok (mkSettlement None None dflt None None n None None None None None None None)
    | _ => Raise AttributeError
    end
  else if bool_decide (call_type = "video") then
    match r with
    | VideoResult t a s => Ok (mkSettlement None None service_tier a s t None None None None None None None)
    | _ => Raise AttributeError
    end
  else if bool_decide (call_type = "text") then
    match r with
    | TextResult i o => Ok (mkSettlement None None dflt None None None i o None None None None None)
    | _ => Raise AttributeError
    end
  else Raise ValueError.

(** A transaction can raise without effect, or after it was committed. *)
Inductive fault := NoFault | Before (e : exc) | After (e : exc).

Definition perform {A} (f : fault) (w : UsageDB -> result (A * UsageDB)) (d : UsageDB) : result A * UsageDB :=
  match f with
  | Before e => (Raise e, d)
  | _ =>
      match w d with
      | Ok (a, d') => (match f with After e => Raise e | _ => Ok a end, d')
      | Raise e => (Raise e, d)
      end
  end.

(** How the block under the bracket ends: its last word on the result, an
    exception, or a cancellation. *)
Inductive block_end := Finished (r : option BackendResult) | BlockRaised (e : exc) | BlockCancelled.
Inductive bracket_end := Returned | Raised (e : exc) | Cancelled.

Context (exc_text : exc -> pystr).

Definition _finish_failed (f : fault) (now : Z) (id : nat) (e : exc) (d : UsageDB) : UsageDB :=
  (perform f (fun d => let! d' := finish_call now id "failed" no_settlement None (Some (exc_text e)) d in Ok (tt, d')) d).2.

Definition _finish_success (f : fault) (now : Z) (id : nat) (s : SettlementInput) (out : option pystr) (d : UsageDB)
    : result unit * UsageDB :=
  perform f (fun d => let! d' := finish_call now id "success" s out None d in Ok (tt, d')) d.

Record Faults := mkFaults { f_start : fault; f_success : fault; f_failed : fault }.

Definition record (now later : Z) (fs : Faults) (a : CallArgs) (service_tier : pystr) (out : option pystr)
    (block : nat -> UsageDB -> block_end * UsageDB) (d : UsageDB) : bracket_end * UsageDB :=
  match perform (f_start fs) (start_call now a) d with
  | (Raise e, d1) => (Raised e, d1)
  | (Ok id, d1) =>
      let '(b, d2) := block id d1 in
      match b with
      | BlockCancelled => (Cancelled, d2)
      | BlockRaised e => (Raised e, _finish_failed (f_failed fs) later id e d2)
      | Finished None => (Raised RuntimeError, d2)
      | Finished (Some r) =>
          match _settlement_from_result (ca_call_type a) r service_tier with
          | Raise e => (Raised e, _finish_failed (f_failed fs) later id e d2)
          | Ok s =>
              match _finish_success (f_success fs) later id s out d2 with
              | (Ok _, d3) => (Returned, d3)
              | (Raise e, d3) => (Raised e, _finish_failed (f_failed fs) later id e d3)
              end
          end
      end
  end.

Definition resume_success (now : Z) (id : nat) (r : BackendResult) (service_tier : pystr) (d : UsageDB) : result (nat * UsageDB) :=
  let! s := _settlement_from_result "video" r service_tier in
  finalize_pending_by_call_id now id s "success" d.

Definition free_settlement : SettlementInput :=
  mkSettlement (Some fzero) None (u "default") None None None None None None None None None None.
Definition resume_failed (now : Z) (id : nat) (d : UsageDB) : result (nat * UsageDB) :=
  finalize_pending_by_call_id now id free_settlement "failed" d.

Definition backfill (now later : Z) (a : CallArgs) (status : string) (s : SettlementInput) (d : UsageDB) : result UsageDB :=
  let! started := start_call now a d in
  finish_call later started.1 status s None None started.2.

(** ** Reports *)

Context (sql_sum : list num -> num).

Definition is_billed (r : ApiCall) : bool := bool_decide (ac_status r = "success") && negb (fleb (ac_cost_amount r) fzero).

(** [SELECT key, SUM(cost_amount) ... GROUP BY key] *)
Definition group_sums {K} `{EqDecision K} (key : ApiCall -> K) (l : list ApiCall) : list (K * num) :=
  map (fun k => (k, sql_sum (map ac_cost_amount (where_ (fun r => bool_decide (key r = k)) l)))) (remove_dups (map key l)).

Definition project_scope (pid : option string) (project_name : string) (r : ApiCall) : bool :=
  match pid with
  | Some (String c s) => bool_decide (ac_project_id r = pid)
  | _ => bool_decide (ac_project_name r = project_name)
  end.

Definition PROJECT_LEVEL_SEGMENT_KEY : string := String "000"%char "__project__".

(** [result.setdefault(a, {}).setdefault(b, {})[c] = v] *)
Definition put3 {V} (a b : string) (c : pystr) (v : V) (m : list (string * list (string * list (pystr * V))))
    : list (string * list (string * list (pystr * V))) :=
  let m1 := default [] (aget a m) in
  let m2 := default [] (aget b m1) in
  aset a (aset b (aset c v m2) m1) m.

Definition get_actual_costs_by_segment (project_name : string) (project_id : option string) (d : UsageDB)
    : result (list (string * list (string * list (pystr * num)))) :=
  let! pid := project_id_or_resolve (identity d) project_name project_id in
  let rows := where_ (fun r => project_scope pid project_name r && is_billed r) (calls d) in
  Ok (foldl (fun m g => let '((seg, ct, cur), total) := g in
                        put3 (default PROJECT_LEVEL_SEGMENT_KEY seg) ct cur (fround 6 total) m) []
        (group_sums (fun r => (ac_segment_id r, ac_call_type r, ac_currency r)) rows)).

(** [needle in s] *)
Fixpoint is_in (needle s : pystr) : bool :=
  bool_decide (take (length needle) s = needle) || match s with [] => false | _ :: s' => is_in needle s' end.
Definition starts_with (prefix s : pystr) : bool := bool_decide (take (length prefix) s = prefix).

Definition _classify_asset_output_path (output_path : option pystr) : string :=
  match output_path with
  | None | Some [] => "other"
  | Some path =>
      let normalized := lower (map (fun c => if (c =? 92)%N then 47%N else c) path) in
      let under (t : string) := is_in (u ("/" +:+ t +:+ "/")) normalized || starts_with (u (t +:+ "/")) normalized in
      match List.find under ["characters"; "scenes"; "props"; "products"] with
      | Some t => t
      | None => if under "clues" then "props" else "other"
      end
  end.

Definition get_project_image_costs_by_asset_type (project_name : string) (project_id : option string) (d : UsageDB)
    : result (list (string * list (pystr * num))) :=
  let! pid := project_id_or_resolve (identity d) project_name project_id in
  let rows := where_ (fun r => project_scope pid project_name r && is_billed r && bool_decide (ac_call_type r = "image")
                               && bool_decide (ac_segment_id r = None)) (calls d) in
  Ok (foldl (fun m g => let '((path, cur), total) := g in
                        let t := _classify_asset_output_path path in
                        let bucket := default [] (aget t m) in
                        aset t (aset cur (fround 6 (fadd (default (of_int 0) (aget cur bucket)) total)) bucket) m) []
        (group_sums (fun r => (ac_output_path r, ac_currency r)) rows)).
End usage.

(** ** Lemmas *)

Section lemmas.
Context `{F : Floats} (lower upper : pystr -> pystr) (to_ms : Z -> Z) (reg : ModelRegistry) (testing : bool).
Context (get_model : pystr -> pystr -> result (option CustomProviderPrice)) (exc_text : exc -> pystr).
Abbreviation settle := (_settle lower upper to_ms reg get_model).
Abbreviation finalize := (finalize_pending_by_call_id lower upper to_ms reg get_model).
Abbreviation finish := (finish_call lower upper to_ms reg get_model).

(** The ids are a key, below the autoincrement. *)
Record wf_usage (d : UsageDB) : Prop := {
  wu_nodup : NoDup (map ac_id (calls d));
  wu_bound : forall r, r ∈ calls d -> ac_id r < next_id d
}.

Lemma find_call_Some id d r : find_call id d = Some r -> r ∈ calls d /\ ac_id r = id.
Proof. intros [H1 H2]%find_Some_elem. by to_prop. Qed.

Lemma find_call_elem d r : NoDup (map ac_id (calls d)) -> r ∈ calls d -> find_call (ac_id r) d = Some r.
Proof.
  unfold find_call. induction (calls d) as [|x l IH]; intros Hnd Hr; [by apply not_elem_of_nil in Hr|].
  cbn [map] in Hnd. apply NoDup_cons in Hnd as [Hni Hnd]. cbn [List.find]. case_bool_decide as E.
  - f_equal. apply elem_of_cons in Hr as [-> |Hr]; [done|]. exfalso. apply Hni. rewrite E. by apply list_elem_of_fmap_2.
  - apply elem_of_cons in Hr as [-> |Hr]; [done|by apply IH].
Qed.

(** A guarded update of one id. *)
Lemma find_call_update id p f d k :
  (forall r, ac_id (f r) = ac_id r) -> (forall r, p r = true -> ac_id r = id) ->
  find_call k (update_calls p f d).2 = (fun r => if p r then f r else r) <$> find_call k d.
Proof.
  intros Hid _. unfold find_call, update_calls, with_calls. cbn [snd calls]. induction (calls d) as [|x l IH]; [done|].
  cbn [map List.find]. assert (ac_id (if p x then f x else x) = ac_id x) as -> by (destruct (p x); [apply Hid|done]).
  by case_bool_decide.
Qed.

Lemma update_none p f d : where_ p (calls d) = [] -> update_calls p f d = (0, d).
Proof.
  intros H. unfold update_calls. rewrite H. f_equal. unfold with_calls. destruct d as [l n i]. cbn [calls next_id identity] in *.
  f_equal. rewrite where_nil in H. induction l as [|x l IH]; [done|]. cbn [map]. rewrite (H x) by left. f_equal.
  apply IH. intros y Hy. apply H. by right.
Qed.

Lemma where_key id q d r :
  NoDup (map ac_id (calls d)) -> find_call id d = Some r ->
  where_ (fun x => bool_decide (ac_id x = id) && q x) (calls d) = if q r then [r] else [].
Proof.
  unfold find_call. induction (calls d) as [|x l IH]; [done|]. cbn [map List.find List.filter]. intros [Hni Hnd]%NoDup_cons.
  case_bool_decide as E; cbn [andb].
  - intros [= ->]. assert (where_ (fun x => bool_decide (ac_id x = id) && q x) l = []) as ->; [|by destruct (q r)].
    apply where_nil. intros y Hy. rewrite bool_decide_eq_false_2; [done|]. intros Hyi. apply Hni. rewrite E, <- Hyi.
    by apply list_elem_of_fmap_2.
  - intros H. by apply IH.
Qed.

Lemma update_wf p f d : (forall r, ac_id (f r) = ac_id r) -> wf_usage d -> wf_usage (update_calls p f d).2.
Proof.
  intros Hf [H1 H2]. assert (map ac_id (calls (update_calls p f d).2) = map ac_id (calls d)) as Hids.
  { unfold update_calls, with_calls. cbn [snd calls]. rewrite map_map. apply map_ext. intros r. by destruct (p r). }
  split; [by rewrite Hids|]. intros r Hr. unfold update_calls, with_calls in Hr |- *. cbn [snd calls next_id] in *.
  apply list_elem_of_fmap in Hr as (x & -> & Hx). destruct (p x); [rewrite Hf|]; by apply H2.
Qed.

Lemma start_call_spec now a d id d1 :
  wf_usage d -> start_call testing now a d = Ok (id, d1) ->
  wf_usage d1 /\ find_call id d = None
  /\ (exists r, find_call id d1 = Some r /\ ac_status r = "pending" /\ ac_finished_at r = None /\ ac_cost_amount r = fzero
        /\ ac_duration_seconds r = ca_duration_seconds a /\ ac_provider r = ca_provider a /\ ac_model r = ca_model a)
  /\ forall k, k <> id -> find_call k d1 = find_call k d.
Proof.
  intros Hwf. unfold start_call. intros (pid & _ & (actor & _ & H)%bind_Ok)%bind_Ok. apply (f_equal (fun x => match x with Ok y => y | _ => (id, d1) end)) in H.
  injection H as <- <-. destruct Hwf as [Hnd Hb].
  set (row := mkApiCall _ _ _ _ _ _ _ _ _ _ _ _ _ _ _ _ _ _ _ _ _ _ _ _ _ _ _ _ _).
  assert (forall k, find_call k (mkUsage (calls d ++ [row]) (S (next_id d)) (identity d))
                    = match find_call k d with Some r => Some r | None => if bool_decide (next_id d = k) then Some row else None end) as Hf.
  { clear Hnd Hb. intros k. unfold find_call. cbn [calls]. induction (calls d) as [|x l IH]; cbn [app List.find]; [done|].
    destruct (bool_decide (ac_id x = k)); [done|exact IH]. }
  assert (find_call (next_id d) d = None) as Hn.
  { destruct (find_call (next_id d) d) as [r|] eqn:E; [|done]. apply find_call_Some in E as [E1 E2]. apply Hb in E1. lia. }
  split; [split; cbn [calls next_id]|split; [exact Hn|split]].
  - rewrite map_app. apply NoDup_app. split; [done|]. split; [|apply NoDup_singleton].
    intros x Hx ->%list_elem_of_singleton. apply list_elem_of_fmap in Hx as (r & Hr & Hin). apply Hb in Hin. cbn in Hr. lia.
  - intros r [Hr| ->%list_elem_of_singleton]%elem_of_app; [apply Hb in Hr; lia|cbn; lia].
  - exists row. rewrite Hf, Hn, bool_decide_eq_true_2 by done. done.
  - intros k Hk. rewrite Hf. destruct (find_call k d); [done|]. by rewrite bool_decide_eq_false_2.
Qed.

Lemma end_row_id st now s c r : ac_id (end_row st now s c r) = ac_id r.
Proof. done. Qed.
Lemma finish_row_id st now s c o e r : ac_id (finish_row st now s c o e r) = ac_id r.
Proof. done. Qed.

(** [finish_call] writes the row of its id whatever its status. *)
Lemma finish_spec now id st s out err d d' r :
  wf_usage d -> find_call id d = Some r -> finish now id st s out err d = Ok d' ->
  exists c, settle r now s (bool_decide (st = "success")) (text_or (Some (ac_currency r)) (u "USD")) = Ok c
    /\ find_call id d' = Some (finish_row st now s c out err r) /\ wf_usage d'
    /\ forall k, k <> id -> find_call k d' = find_call k d.
Proof.
  intros Hwf Hf. unfold finish_call. rewrite Hf. intros (c & Hc & H)%bind_Ok. apply Ok_inj in H as <-. exists c. split; [done|].
  assert (forall k, find_call k (update_calls (fun r => bool_decide (ac_id r = id)) (finish_row st now s c out err) d).2
                    = (fun r => if bool_decide (ac_id r = id) then finish_row st now s c out err r else r) <$> find_call k d) as Hk.
  { intros k. apply (find_call_update id); [done|]. intros x Hx. by to_prop. }
  split; [|split; [by apply update_wf|]].
  - rewrite Hk, Hf. cbn. apply find_call_Some in Hf as [_ Hi]. by rewrite bool_decide_eq_true_2.
  - intros k Hne. rewrite Hk. destruct (find_call k d) as [x|] eqn:E; [|done]. apply find_call_Some in E as [_ Hi]. cbn.
    by rewrite bool_decide_eq_false_2 by congruence.
Qed.

(** A submitted call is settled once.  Settling it on resumption writes the
    row only while it is pending, returning one; the write sets the status
    and the settled facts of that row and of no other, after which any
    further attempt returns zero and changes nothing, as it does for a row
    that has already ended or does not exist. *)
Theorem finalize_once now id s status d n d' :
  wf_usage d -> status <> "pending" -> finalize now id s status d = Ok (n, d') ->
  (n = 0 /\ d' = d /\ forall r, find_call id d = Some r -> ac_status r <> "pending")
  \/ (n = 1 /\ exists r c, find_call id d = Some r /\ ac_status r = "pending"
       /\ settle r now s (bool_decide (status = "success")) (text_or (se_currency s) (u "USD")) = Ok c
       /\ find_call id d' = Some (end_row status now s c r)
       /\ (forall k, k <> id -> find_call k d' = find_call k d)
       /\ forall now2 s2 status2 m d2, finalize now2 id s2 status2 d' = Ok (m, d2) -> m = 0 /\ d2 = d').
Proof.
  intros Hwf Hst. unfold finalize_pending_by_call_id at 1. destruct (find_call id d) as [r|] eqn:Hf.
  2: { intros H. apply Ok_inj in H. injection H as <- <-. left. done. }
  set (p := fun x => bool_decide (ac_id x = id) && bool_decide (ac_status x = "pending")).
  intros (c & Hc & H)%bind_Ok. apply Ok_inj in H.
  pose proof (where_key id (fun x => bool_decide (ac_status x = "pending")) d r (wu_nodup _ Hwf) Hf) as Hw. cbn beta in Hw. fold p in Hw.
  destruct (decide (ac_status r = "pending")) as [Hp|Hp].
  - right. rewrite bool_decide_eq_true_2 in Hw by done. rewrite (bool_decide_eq_true_2 (ac_status r = "pending")), andb_true_r in Hc by done.
    unfold update_calls in H. rewrite Hw in H. cbn [length] in H. injection H as <- <-. split; [done|]. exists r, c.
    do 3 (split; [done|]).
    assert (forall k, find_call k (with_calls (map (fun x => if p x then end_row status now s c x else x) (calls d)) d)
                      = (fun x => if p x then end_row status now s c x else x) <$> find_call k d) as Hk.
    { intros k. apply (find_call_update id p (end_row status now s c) d k); [done|]. intros x Hx. unfold p in Hx. by to_prop. }
    set (d' := with_calls _ d) in *.
    assert (find_call id d' = Some (end_row status now s c r)) as Hid.
    { rewrite Hk, Hf. cbn. unfold p. apply find_call_Some in Hf as [_ Hi]. by rewrite !bool_decide_eq_true_2. }
    split; [done|]. split.
    + intros k Hne. rewrite Hk. destruct (find_call k d) as [x|] eqn:E; [|done]. apply find_call_Some in E as [_ Hi]. cbn. unfold p.
      by rewrite bool_decide_eq_false_2 by congruence.
    + intros now2 s2 status2 m d2. unfold finalize_pending_by_call_id. rewrite Hid. intros (c2 & _ & H)%bind_Ok. apply Ok_inj in H.
      rewrite update_none in H; [by injection H as <- <-|].
      assert (wf_usage d') as Hwf' by (apply (update_wf p (end_row status now s c) d); [done|exact Hwf]).
      rewrite (where_key id (fun x => bool_decide (ac_status x = "pending")) d' _ (wu_nodup _ Hwf') Hid). cbn.
      by rewrite bool_decide_eq_false_2.
  - left. rewrite bool_decide_eq_false_2 in Hw by done. rewrite update_none in H by done. injection H as <- <-.
    split; [done|]. split; [done|]. by intros ? [= <-].
Qed.

(** What the failure write of the bracket leaves of a row. *)
Definition marked_failed (f : fault) (later : Z) (x : exc) (r r' : ApiCall) : Prop :=
  match f with
  | Before _ => r' = r
  | _ => ac_status r' = "failed" /\ ac_cost_amount r' = fzero /\ ac_error_message r' = truncated (Some (exc_text x))
         /\ ac_finished_at r' = Some later
  end.

Lemma finish_failed_spec f later id x d r :
  wf_usage d -> find_call id d = Some r ->
  let d' := _finish_failed lower upper to_ms reg get_model exc_text f later id x d in
  (exists r', find_call id d' = Some r' /\ marked_failed f later x r r') /\ forall k, k <> id -> find_call k d' = find_call k d.
Proof.
  intros Hwf Hf. cbv zeta. unfold _finish_failed.
  assert (exists c, settle r later no_settlement false (text_or (Some (ac_currency r)) (u "USD")) = Ok c /\ sc_cost_amount c = fzero)
    as (c & Hc & Hz) by (by eexists).
  assert (exists d', finish later id "failed" no_settlement None (Some (exc_text x)) d = Ok d') as [d' Hd'].
  { unfold finish_call. rewrite Hf, bool_decide_eq_false_2 by done. rewrite Hc. by eexists. }
  destruct (finish_spec _ _ _ _ _ _ _ _ _ Hwf Hf Hd') as (c' & Hc' & Hr & _ & Ho).
  rewrite bool_decide_eq_false_2 in Hc' by done. rewrite Hc in Hc'. apply Ok_inj in Hc' as <-.
  unfold perform. destruct f as [|y|y]; [rewrite Hd'; cbn [bind snd]|cbn [snd]|rewrite Hd'; cbn [bind snd]].
  - split; [|done]. eexists. split; [exact Hr|]. by repeat split.
  - split; [by exists r|done].
  - split; [|done]. eexists. split; [exact Hr|]. by repeat split.
Qed.

(** The success write, with its faults. *)
Lemma finish_success_spec f later id s out d r :
  wf_usage d -> find_call id d = Some r ->
  match settle r later s true (text_or (Some (ac_currency r)) (u "USD")), f with
  | Ok c, NoFault => exists d', _finish_success lower upper to_ms reg get_model f later id s out d = (Ok tt, d')
                     /\ find_call id d' = Some (finish_row "success" later s c out None r) /\ wf_usage d'
                     /\ forall k, k <> id -> find_call k d' = find_call k d
  | Ok c, After y => exists d', _finish_success lower upper to_ms reg get_model f later id s out d = (Raise y, d')
                     /\ find_call id d' = Some (finish_row "success" later s c out None r) /\ wf_usage d'
                     /\ forall k, k <> id -> find_call k d' = find_call k d
  | _, Before y => _finish_success lower upper to_ms reg get_model f later id s out d = (Raise y, d)
  | Raise y, _ => _finish_success lower upper to_ms reg get_model f later id s out d = (Raise y, d)
  end.
Proof.
  intros Hwf Hf. unfold _finish_success, perform.
  destruct (settle r later s true _) as [c|y] eqn:Hc.
  - assert (exists d', finish later id "success" s out None d = Ok d') as [d' Hd'].
    { unfold finish_call. rewrite Hf, bool_decide_eq_true_2 by done. rewrite Hc. by eexists. }
    destruct (finish_spec _ _ _ _ _ _ _ _ _ Hwf Hf Hd') as (c' & Hc' & Hr & Hwf' & Ho).
    rewrite bool_decide_eq_true_2 in Hc' by done. rewrite Hc in Hc'. apply Ok_inj in Hc' as <-.
    destruct f as [|y|y]; [|done|]; rewrite Hd'; cbn [bind]; by exists d'.
  - destruct f as [|z|z]; [|done|]; unfold finish_call; rewrite Hf, bool_decide_eq_true_2 by done; by rewrite Hc.
Qed.

End lemmas.

(** ** Reports *)

Section reports.
Context `{F : Floats} (sql_sum : list num -> num).

Definition get3 {V} (a b : string) (c : pystr) (m : list (string * list (string * list (pystr * V)))) : option V :=
  aget c (default [] (aget b (default [] (aget a m)))).

Lemma get3_put3 {V} a b c a' b' c' (v : V) m :
  get3 a' b' c' (put3 a b c v m) = if bool_decide ((a, b, c) = (a', b', c')) then Some v else get3 a' b' c' m.
Proof.
  unfold get3, put3. rewrite aget_aset. destruct (decide (a = a')) as [->|Ha].
  2: { rewrite (bool_decide_eq_false_2 (a = a')) by done. rewrite bool_decide_eq_false_2; [done|congruence]. }
  rewrite (bool_decide_eq_true_2 (a' = a')) by done. cbn [from_option id]. rewrite aget_aset. destruct (decide (b = b')) as [->|Hb].
  2: { rewrite (bool_decide_eq_false_2 (b = b')) by done. rewrite bool_decide_eq_false_2; [done|congruence]. }
  rewrite (bool_decide_eq_true_2 (b' = b')) by done. cbn [from_option id]. rewrite aget_aset. destruct (decide (c = c')) as [->|Hc].
  - by rewrite !bool_decide_eq_true_2.
  - rewrite (bool_decide_eq_false_2 (c = c')) by done. rewrite bool_decide_eq_false_2; [done|congruence].
Qed.

Lemma aget_tabulate {K V} `{EqDecision K} (f : K -> V) (ks : list K) k :
  aget k (map (fun k => (k, f k)) ks) = if bool_decide (k ∈ ks) then Some (f k) else None.
Proof.
  induction ks as [|x ks IH]; cbn [map aget].
  - by rewrite bool_decide_eq_false_2 by apply not_elem_of_nil.
  - destruct (decide (x = k)) as [->|Hne].
    + rewrite (bool_decide_eq_true_2 (k = k)) by done. by rewrite bool_decide_eq_true_2 by left.
    + rewrite (bool_decide_eq_false_2 (x = k)) by done. rewrite IH. apply (f_equal (fun b : bool => if b then Some (f k) else None)).
      apply bool_decide_ext. rewrite elem_of_cons. naive_solver.
Qed.

Definition segment_key (seg : option string) : string := default PROJECT_LEVEL_SEGMENT_KEY seg.

Lemma segment_key_inj s s' :
  s <> Some PROJECT_LEVEL_SEGMENT_KEY -> s' <> Some PROJECT_LEVEL_SEGMENT_KEY -> segment_key s = segment_key s' -> s = s'.
Proof. destruct s, s'; cbn; congruence. Qed.

Lemma fold_put3 (g : list (option string * string * pystr * num)) m seg ct cur :
  NoDup g.*1 -> (forall x, x ∈ g -> x.1.1.1 <> Some PROJECT_LEVEL_SEGMENT_KEY) -> seg <> Some PROJECT_LEVEL_SEGMENT_KEY ->
  get3 (segment_key seg) ct cur
    (foldl (fun m x => let '((s, t, c), total) := x in put3 (default PROJECT_LEVEL_SEGMENT_KEY s) t c (fround 6 total) m) m g)
  = match aget (seg, ct, cur) g with Some t => Some (fround 6 t) | None => get3 (segment_key seg) ct cur m end.
Proof.
  revert m. induction g as [|[[[s t] c] total] g IH]; intros m Hnd Hkey Hseg; [done|]. cbn [foldl fmap list_fmap aget] in *.
  apply NoDup_cons in Hnd as [Hni Hnd]. rewrite IH; [|done|intros x Hx; apply Hkey; by right|done]. rewrite get3_put3.
  destruct (decide ((s, t, c) = (seg, ct, cur))) as [E|E].
  - rewrite (bool_decide_eq_true_2 _ E). injection E as -> -> ->. rewrite (bool_decide_eq_true_2 (_ = _)) by done.
    by rewrite (proj2 (aget_None _ _) Hni).
  - rewrite (bool_decide_eq_false_2 _ E). rewrite bool_decide_eq_false_2; [done|]. intros [= H1 -> ->]. apply E.
    f_equal. f_equal. apply segment_key_inj; [|done|done]. apply (Hkey (s, ct, cur, total)). left.
Qed.

Lemma group_sums_get {K} `{EqDecision K} (key : ApiCall -> K) rows k :
  aget k (group_sums sql_sum key rows)
  = match where_ (fun r => bool_decide (key r = k)) rows with
    | [] => None
    | hits => Some (sql_sum (map ac_cost_amount hits))
    end.
Proof.
  unfold group_sums. rewrite aget_tabulate. destruct (where_ (fun r => bool_decide (key r = k)) rows) as [|r l] eqn:E.
  - rewrite bool_decide_eq_false_2; [done|]. rewrite elem_of_remove_dups. intros (r & -> & Hin)%list_elem_of_fmap.
    apply (proj1 (where_nil _ _) E) in Hin. by rewrite bool_decide_eq_true_2 in Hin.
  - rewrite bool_decide_eq_true_2; [done|]. rewrite elem_of_remove_dups.
    assert (r ∈ r :: l) as Hr by left. rewrite <- E in Hr. apply elem_of_where in Hr as [Hr Hk]. to_prop. rewrite <- Hk.
    by apply list_elem_of_fmap_2.
Qed.

(** The cost report adds up what was paid: for every segment (or the
    project itself), kind of call and currency it holds the rounded sum of
    the costs of exactly the project's successful calls of that segment, kind
    and currency that cost something, and it holds no other entry.  The key
    of the project level is one no segment has. *)
Theorem segment_costs_exact project_name project_id d m :
  get_actual_costs_by_segment sql_sum project_name project_id d = Ok m ->
  exists pid, project_id_or_resolve (identity d) project_name project_id = Ok pid
    /\ let rows := where_ (fun r => project_scope pid project_name r && is_billed r) (calls d) in
       (forall r, r ∈ rows -> ac_segment_id r <> Some PROJECT_LEVEL_SEGMENT_KEY) ->
       forall seg ct cur, seg <> Some PROJECT_LEVEL_SEGMENT_KEY ->
         let hits := where_ (fun r => bool_decide ((ac_segment_id r, ac_call_type r, ac_currency r) = (seg, ct, cur))) rows in
         get3 (segment_key seg) ct cur m = match hits with [] => None | _ => Some (fround 6 (sql_sum (map ac_cost_amount hits))) end.
Proof.
  unfold get_actual_costs_by_segment. intros (pid & Hpid & H)%bind_Ok. apply Ok_inj in H as <-. exists pid. split; [done|].
  cbv zeta. set (rows := where_ _ (calls d)). intros Hseg seg ct cur Hs.
  set (key := fun r => (ac_segment_id r, ac_call_type r, ac_currency r)).
  rewrite fold_put3.
  - rewrite group_sums_get. unfold key. by destruct (where_ _ rows).
  - unfold group_sums. change (map ?f ?l) with (f <$> l). rewrite <- list_fmap_compose. rewrite (list_fmap_ext _ id) by done.
    rewrite list_fmap_id. apply NoDup_remove_dups.
  - intros x (k & -> & Hk)%list_elem_of_fmap. cbn [fst]. rewrite elem_of_remove_dups in Hk.
    apply list_elem_of_fmap in Hk as (r & -> & Hr). by apply Hseg.
  - done.
Qed.
End reports.

(** ** Examples *)

Definition demo_usage : UsageDB (F := q_floats) := mkUsage [] 1 (mkDB [] [] [] []).
Definition demo_call : CallArgs :=
  mkCallArgs "p" "video" (u "clip") (Some (u "a cat")) (Some (u "768p")) (Some 6%Z) None true (u "minimax") "default" (Some "S1").
Definition demo_ms (us : Z) : Z := (us / 1000)%Z.
Definition demo_models (_ _ : pystr) : result (option (CustomProviderPrice (F := q_floats))) := Ok None.
Definition demo_started : UsageDB (F := q_floats) :=
  match start_call true 0 demo_call demo_usage with Ok (_, d) => d | Raise _ => demo_usage end.
Abbreviation demo_record fs block :=
  (record id id demo_ms demo_models_of true demo_models (fun _ => u "boom") 0 5000 fs demo_call (u "default") None block demo_usage).

Lemma demo_started_wf : wf_usage demo_started.
Proof.
  split; [apply (bool_decide_unpack _); vm_compute; exact I|].
  intros r Hr. vm_compute in Hr. apply list_elem_of_singleton in Hr as ->. vm_compute. lia.
Qed.

Lemma finalize_once_witness :
  exists d', resume_success id id demo_ms demo_models_of demo_models 5000 1 (VideoResult None (Some true) (Some 10%Z)) (u "default") demo_started
             = Ok (1, d')
    /\ (ac_status <$> find_call 1 d') = Some "success" /\ (ac_cost_amount <$> find_call 1 d') = Some (QArith_base.inject_Z 4).
Proof.
  set (s := mkSettlement None None (u "default") (Some true) (Some 10%Z) None None None None None None None None).
  set (d' := match finalize_pending_by_call_id id id demo_ms demo_models_of demo_models 5000 1 s "success" demo_started with
             | Ok x => x.2 | Raise _ => demo_started end).
  exists d'.
  destruct (finalize_once id id demo_ms demo_models_of demo_models 5000 1 s "success" demo_started 1 d') as [(H & _)|(_ & r & c & _ & _ & _ & Hr & _)].
  - exact demo_started_wf.
  - done.
  - reflexivity.
  - done.
  - split; [reflexivity|]. split; [by rewrite Hr|reflexivity].
Defined.


Definition demo_settled : UsageDB (F := q_floats) :=
  snd (demo_record (mkFaults NoFault NoFault NoFault) (fun _ d => (Finished (Some (VideoResult None None None)), d))).
Definition demo_sum (l : list (num (Floats := q_floats))) : num (Floats := q_floats) := foldr fadd fzero l.

Lemma segment_costs_exact_witness :
  exists m, get_actual_costs_by_segment demo_sum "p" None demo_settled = Ok m
    /\ get3 "S1" "video" (u "CNY") m = Some (QArith_base.inject_Z 2) /\ get3 "S2" "video" (u "CNY") m = None.
Proof.
  set (m := match get_actual_costs_by_segment demo_sum "p" None demo_settled with Ok m => m | Raise _ => [] end). exists m.
  split; [reflexivity|].
  destruct (segment_costs_exact demo_sum "p" None demo_settled m eq_refl) as (pid & Hpid & H).
  change (Ok None = Ok pid) in Hpid. apply Ok_inj in Hpid as <-. cbv zeta in H.
  assert (forall r, r ∈ where_ (fun r => project_scope None "p" r && is_billed r) (calls demo_settled) ->
            ac_segment_id r <> Some PROJECT_LEVEL_SEGMENT_KEY) as Hs.
  { intros r Hr. apply elem_of_where in Hr as [Hr _]. vm_compute in Hr. apply list_elem_of_singleton in Hr as ->. done. }
  specialize (H Hs). split; [exact (H (Some "S1") "video" (u "CNY") ltac:(done))|exact (H (Some "S2") "video" (u "CNY") ltac:(done))].
Defined.
