(* ===== verification/Guards.v ===== *)
(** * Small guards: login throttling, retries, duration slots

    [server/security/login_throttle.py] with its clock in microseconds,
    [lib/retry.py] with the outcome of each attempt as an argument, and
    [lib/reference_video/duration_slots.py], where a length is a rational
    number, which every Python integer and float is. *)

From S2P Require Import Prelude Json.
From stdpp Require Import sorting.
From Stdlib Require Import QArith.
Open Scope nat_scope.
Open Scope spool_scope.

(** ** Login throttling *)

Module LoginThrottle.
Open Scope Z_scope.

Record AttemptState := mkAttempts { failures : list Z; locked_until : Z }.

Record config := mkConfig {
  max_failures : nat;
  window : Z;
  lock : Z;
  max_entries : nat
}.

(** [self._states]: the entries in the order they came. *)
Abbreviation states := (list (string * AttemptState)).

Definition SECOND : Z := 1000000.

(** [math.ceil] of a time in seconds. *)
Definition ceil_seconds (us : Z) : Z := - ((- us) / SECOND).

Fixpoint drop_old (cutoff : Z) (l : list Z) : list Z :=
  match l with
  | t :: l' => if t <=? cutoff then drop_old cutoff l' else l
  | [] => []
  end.

Definition _prune (c : config) (now : Z) (s : AttemptState) : AttemptState :=
  mkAttempts (drop_old (now - window c) (failures s)) (locked_until s).

Definition retry_after (c : config) (key : string) (now : Z) (m : states) : Z * states :=
  match aget key m with
  | None => (0, m)
  | Some s =>
      let s := _prune c now s in
      if locked_until s <=? now then
        match failures s with
        | [] => (0, adel key m)
        | _ => (0, aset key (mkAttempts (failures s) 0) m)
        end
      else (Z.max 1 (ceil_seconds (locked_until s - now)), aset key s m)
  end.

Definition is_stale (now : Z) (s : AttemptState) : bool :=
  (locked_until s <=? now) && match failures s with [] => true | _ => false end.

Definition _evict_if_needed (c : config) (now : Z) (m : states) : states :=
  if (length m <? max_entries c)%nat then m
  else
    let m := where_ (fun e => negb (is_stale now e.2)) m in
    if (max_entries c <=? length m)%nat then tail m else m.

Definition record_failure (c : config) (key : string) (now : Z) (m : states) : states :=
  let m := _evict_if_needed c now m in
  let s := _prune c now (default (mkAttempts [] 0) (aget key m)) in
  let fs := failures s ++ [now] in
  aset key (mkAttempts fs (if (max_failures c <=? length fs)%nat then now + lock c else locked_until s)) m.

Definition clear (key : string) (m : states) : states := adel key m.

(** The calls, each at its time. *)
Inductive call := RetryAfter (key : string) | RecordFailure (key : string) | Clear (key : string) | Reset.

Definition run (c : config) (now : Z) (x : call) (m : states) : states :=
  match x with
  | RetryAfter k => (retry_after c k now m).2
  | RecordFailure k => record_failure c k now m
  | Clear k => clear k m
  | Reset => []
  end.

Inductive reachable (c : config) : states -> Prop :=
| reachable_new : reachable c []
| reachable_run now x m : reachable c m -> reachable c (run c now x m).

(** A call that keeps what is known of [key]: it does not forgive it, and a
    failure is recorded only while there is room for another entry. *)
Definition keeps (c : config) (key : string) (x : call) (m : states) : Prop :=
  match x with
  | RetryAfter _ => True
  | RecordFailure _ => (length m < max_entries c)%nat
  | Clear k => k <> key
  | Reset => False
  end.

(** Such calls between two times. *)
Inductive quiet (c : config) (key : string) (from until : Z) : states -> states -> Prop :=
| quiet_refl m : quiet c key from until m m
| quiet_step now x m m' :
    from <= now -> now < until -> keeps c key x m -> quiet c key from until (run c now x m) m' -> quiet c key from until m m'.

Lemma length_adel {V} (k : string) (m : list (string * V)) : (length (adel k m) <= length m)%nat.
Proof. apply where_length_le. Qed.

Lemma evict_room c now m :
  (0 < max_entries c)%nat -> (length m <= max_entries c)%nat -> (length (_evict_if_needed c now m) < max_entries c)%nat.
Proof.
  intros Hc Hm. unfold _evict_if_needed. destruct (Nat.ltb_spec (length m) (max_entries c)) as [|H]; [done|].
  pose proof (where_length_le (fun e : string * AttemptState => negb (is_stale now e.2)) m) as Hle.
  destruct (where_ _ m) as [|e l]; cbn [length] in *.
  - destruct (Nat.leb_spec (max_entries c) 0); cbn; lia.
  - destruct (Nat.leb_spec (max_entries c) (S (length l))); cbn [tail length]; lia.
Qed.

Lemma run_bounded c now x m :
  (0 < max_entries c)%nat -> (length m <= max_entries c)%nat -> (length (run c now x m) <= max_entries c)%nat.
Proof.
  intros Hc Hm. destruct x as [k|k|k|]; cbn [run].
  - unfold retry_after. destruct (aget k m) as [s|] eqn:E; [|done]. destruct (_ <=? now).
    + destruct (failures _); cbn [snd]; [pose proof (length_adel k m); lia|]. rewrite length_aset, E. lia.
    + cbn [snd]. rewrite length_aset, E. lia.
  - unfold record_failure. rewrite length_aset. pose proof (evict_room c now m Hc Hm). case_match; lia.
  - pose proof (length_adel k m). unfold clear. lia.
  - cbn. lia.
Qed.

(** The lock of [key] lasts until then. *)
Definition locked (key : string) (until : Z) (m : states) : Prop :=
  exists s, aget key m = Some s /\ until <= locked_until s.

Lemma run_keeps_lock c key from until now x m :
  from <= now -> now < until -> until <= from + lock c -> keeps c key x m -> locked key until m -> locked key until (run c now x m).
Proof.
  intros Hf Hn Hl Hk (s & Hs & Hu). destruct x as [k|k|k|]; cbn [run keeps] in *; [| | |done].
  - unfold retry_after. destruct (aget k m) as [sk|] eqn:E; [|by exists s]. unfold _prune. cbn [locked_until failures].
    destruct (decide (k = key)) as [->|Hne].
    + rewrite E in Hs. injection Hs as ->. destruct (Z.leb_spec (locked_until s) now); [lia|]. cbn [snd].
      eexists. rewrite aget_aset, bool_decide_eq_true_2 by done. by split; [done|].
    + exists s. split; [|done]. destruct (_ <=? now); [destruct (drop_old _ _)|]; cbn [snd];
        rewrite ?aget_adel, ?aget_aset, bool_decide_eq_false_2; done.
  - unfold record_failure, _evict_if_needed. destruct (Nat.ltb_spec (length m) (max_entries c)); [|lia].
    destruct (decide (k = key)) as [->|Hne].
    + eexists. rewrite aget_aset, bool_decide_eq_true_2 by done. split; [done|]. cbn [locked_until]. rewrite Hs.
      cbn [from_option id _prune locked_until]. case_match; lia.
    + exists s. rewrite aget_aset, bool_decide_eq_false_2 by done. done.
  - exists s. unfold clear. rewrite aget_adel, bool_decide_eq_false_2; done.
Qed.

Definition demo_config : config := mkConfig 1 600 900 1.

(** What the login throttle promises.  Its table never exceeds its size.
    Once a failure is recorded that makes the number of recent failures
    reach the limit, every later question about the key is answered with a
    waiting time of at least a second until the lock has run out, whatever
    is asked or recorded meanwhile and as long as the key is not cleared and
    the table has room.  When it is full the lock is not safe: the oldest
    entry makes way even while it is locked. *)
Theorem login_lock_holds c key t m m' now :
  (0 < max_entries c)%nat ->
  (forall x, reachable c x -> (length x <= max_entries c)%nat)
  /\ (let s := default (mkAttempts [] 0) (aget key (_evict_if_needed c t m)) in
      (max_failures c <= length (drop_old (t - window c) (failures s)) + 1)%nat ->
      quiet c key t (t + lock c) (record_failure c key t m) m' ->
      t <= now -> now < t + lock c -> 1 <= (retry_after c key now m').1)
  /\ let full := record_failure demo_config "a" 0 [] in
     (retry_after demo_config "a" 1 full).1 = 1
     /\ (retry_after demo_config "a" 1 (record_failure demo_config "b" 0 full)).1 = 0.
Proof.
  intros Hc. split; [|split; [|split; reflexivity]].
  - induction 1 as [|n x m0 _ IH]; cbn; [lia|]. by apply run_bounded.
  - cbv zeta. intros Hfull Hq Ht Hn.
    assert (locked key (t + lock c) (record_failure c key t m)) as Hlock.
    { eexists. unfold record_failure. rewrite aget_aset, bool_decide_eq_true_2 by done. split; [done|]. cbn [locked_until].
      rewrite length_app. cbn [length _prune failures]. destruct (Nat.leb_spec (max_failures c)
        (length (drop_old (t - window c) (failures (default (mkAttempts [] 0) (aget key (_evict_if_needed c t m))))) + 1)); lia. }
    assert (locked key (t + lock c) m') as (s & Hs & Hu).
    { clear -Hq Hlock. induction Hq as [|now x m0 m1 H1 H2 H3 _ IH]; [done|]. apply IH.
      eapply (run_keeps_lock c key t (t + lock c)); eauto. lia. }
    unfold retry_after. rewrite Hs. cbn [_prune locked_until]. destruct (Z.leb_spec (locked_until s) now); [lia|]. cbn [fst]. lia.
Qed.

Lemma login_lock_holds_witness :
  let c := mkConfig 2 600000000 900000000 10 in
  let m := record_failure c "a" 5 (record_failure c "a" 0 []) in
  1 <= (retry_after c "a" 1000 (record_failure c "b" 7 m)).1.
Proof.
  cbv zeta. set (c := mkConfig 2 600000000 900000000 10).
  destruct (login_lock_holds c "a" 5 (record_failure c "a" 0 []) (record_failure c "b" 7 (record_failure c "a" 5 (record_failure c "a" 0 []))) 1000)
    as (_ & H & _); [cbn; lia|].
  apply H; [vm_compute; lia| |lia|cbn; lia].
  apply (quiet_step c "a" 5 _ 7 (RecordFailure "b")); [lia|cbn; lia|vm_compute; lia|]. constructor.
Defined.
End LoginThrottle.

(** ** Retries *)

Module Retry.

Definition DEFAULT_MAX_ATTEMPTS : nat := 3.
Definition RETRYABLE_STATUS_PATTERNS : list pystr :=
  map u ["429"; "resource_exhausted"; "500"; "502"; "503"; "504"; "internalservererror"; "internal server error";
         "serviceunavailable"; "service unavailable"; "bad gateway"; "gateway timeout"; "timed out"; "timeout"].

(** [needle in s] *)
Fixpoint contains (needle s : pystr) : bool :=
  bool_decide (take (length needle) s = needle) || match s with [] => false | _ :: s' => contains needle s' end.

(** An exception: its text and what it is an instance of. *)
Record failure := mkFailure { text : pystr; is_non_retryable : bool; is_retryable_type : bool }.

Section retry.
Context (lower : pystr -> pystr) {A : Type}.

Definition _should_retry (e : failure) : bool :=
  if is_non_retryable e then false
  else if is_retryable_type e then true
  else List.existsb (fun p => contains p (lower (text e))) RETRYABLE_STATUS_PATTERNS.

Inductive outcome := Return (a : A) | RaiseIt (e : failure) | NoAttempt.

(** The loop from attempt [k]; [attempt k] is what the call then does.  The
    result comes with the waits, as indexes into [backoff_seconds]. *)
Fixpoint loop (predicate : failure -> bool) (attempt : nat -> A + failure) (backoffs max_attempts k fuel : nat)
    : outcome * list nat :=
  match fuel with
  | 0 => (NoAttempt, [])
  | S fuel =>
      match attempt k with
      | inl a => (Return a, [])
      | inr e =>
          if (max_attempts - 1 <=? k) || is_non_retryable e || negb (predicate e) then (RaiseIt e, [])
          else let '(r, waits) := loop predicate attempt backoffs max_attempts (S k) fuel in
               (r, Nat.min k (backoffs - 1) :: waits)
      end
  end.

Definition with_retry_async (predicate : failure -> bool) (attempt : nat -> A + failure) (backoffs max_attempts : nat)
    : outcome * list nat :=
  loop predicate attempt backoffs max_attempts 0 max_attempts.

(** An attempt after which the loop goes on if it may. *)
Definition transient (predicate : failure -> bool) (x : A + failure) : Prop :=
  match x with inr e => is_non_retryable e = false /\ predicate e = true | inl _ => False end.

Lemma loop_spec predicate attempt backoffs max k fuel :
  k + fuel = max -> 0 < fuel ->
  exists n, k <= n < max /\ (forall j, k <= j < n -> transient predicate (attempt j))
    /\ (n + 1 = max \/ ~ transient predicate (attempt n))
    /\ loop predicate attempt backoffs max k fuel
       = (match attempt n with inl a => Return a | inr e => RaiseIt e end, map (fun j => Nat.min j (backoffs - 1)) (seq k (n - k))).
Proof.
  revert k. induction fuel as [|fuel IH]; intros k Hk Hf; [lia|]. cbn [loop].
  destruct (attempt k) as [a|e] eqn:Ea.
  { exists k. rewrite Ea, Nat.sub_diag. split; [lia|]. split; [lia|]. split; [right; rewrite ?Ea; by intros []|done]. }
  destruct (Nat.leb_spec (max - 1) k) as [Hlast|Hlast]; cbn [orb].
  { exists k. rewrite Ea, Nat.sub_diag. split; [lia|]. split; [lia|]. split; [left; lia|done]. }
  destruct (is_non_retryable e || negb (predicate e)) eqn:Ep.
  { exists k. rewrite Ea, Nat.sub_diag. split; [lia|]. split; [lia|]. split; [|done]. right. intros [H1 H2].
    rewrite H1, H2 in Ep. done. }
  apply orb_false_iff in Ep as [E1 E2]. apply negb_false_iff in E2.
  destruct (IH (S k)) as (n & Hn & Hj & Hend & Hl); [lia|lia|]. rewrite Hl. exists n. split; [lia|]. split; [|split; [done|]].
  - intros j Hjk. destruct (decide (j = k)) as [->|]; [by rewrite Ea|]. apply Hj. lia.
  - f_equal. replace (n - k) with (S (n - S k)) by lia. done.
Qed.

(** A retried call is attempted at most [max_attempts] times, and goes on
    exactly as long as the attempts fail transiently: the result is that of
    the first attempt that returns or fails for good, or of the last one;
    before each further attempt it waits, the last backoff repeating.
    Without an attempt to make it is an error. *)
Theorem retry_exact predicate attempt backoffs max_attempts :
  (max_attempts = 0 -> with_retry_async predicate attempt backoffs max_attempts = (NoAttempt, []))
  /\ (0 < max_attempts ->
      exists n, n < max_attempts /\ (forall j, j < n -> transient predicate (attempt j))
        /\ (n + 1 = max_attempts \/ ~ transient predicate (attempt n))
        /\ with_retry_async predicate attempt backoffs max_attempts
           = (match attempt n with inl a => Return a | inr e => RaiseIt e end, map (fun j => Nat.min j (backoffs - 1)) (seq 0 n))).
Proof.
  split; [by intros ->|]. intros H. destruct (loop_spec predicate attempt backoffs max_attempts 0 max_attempts eq_refl H)
    as (n & Hn & Hj & He & Hl). exists n. split; [lia|]. split; [intros j Hjn; apply Hj; lia|]. split; [done|].
  rewrite Nat.sub_0_r in Hl. exact Hl.
Qed.
End retry.
End Retry.

(** ** Duration slots *)

Module DurationSlots.

Inductive Adjustment := EXACT | UP | DOWN | UNCONSTRAINED.
Record DurationSlot := mkSlot { seconds : Z; total_seconds : Q; adjustment : Adjustment }.

Definition needs_confirmation (s : DurationSlot) : bool :=
  match adjustment s with UP | DOWN => true | _ => false end.

Definition warning (model : pystr) (s : DurationSlot) : option (string * Q * Z * pystr) :=
  if negb (needs_confirmation s) then None
  else Some (match adjustment s with UP => "ref_duration_rounded_up" | _ => "ref_duration_exceeded" end,
             total_seconds s, seconds s, model).

(** [int(x)] truncates towards zero. *)
Definition py_int (q : Q) : Z := Z.quot (Qnum q) (Zpos (Qden q)).

Definition resolve_duration_slot (total : Q) (supported : list Z) : DurationSlot :=
  let slots := isort Z.leb (remove_dups supported) in
  match last slots with
  | None => mkSlot (py_int total) total UNCONSTRAINED
  | Some greatest =>
      match where_ (fun d => Qle_bool total (inject_Z d)) slots with
      | chosen :: _ => mkSlot chosen total (if Qeq_bool (inject_Z chosen) total then EXACT else UP)
      | [] => mkSlot greatest total DOWN
      end
  end.

Lemma zleb_total x y : (x <=? y)%Z = true \/ (y <=? x)%Z = true.
Proof. lia. Qed.
Lemma zleb_trans x y z : (x <=? y)%Z = true -> (y <=? z)%Z = true -> (x <=? z)%Z = true.
Proof. lia. Qed.

Lemma sorted_where_head (p : Z -> bool) l x l' :
  StronglySorted (fun a b => Is_true (Z.leb a b)) l -> where_ p l = x :: l' -> forall y, y ∈ l -> p y = true -> (x <= y)%Z.
Proof.
  induction 1 as [|a l Hs IH Ha]; [done|]. cbn [List.filter]. destruct (p a) eqn:E.
  - intros [= -> _] y [-> |Hy]%elem_of_cons _; [lia|]. rewrite Forall_forall in Ha. specialize (Ha y Hy). cbn in Ha.
    apply Is_true_true in Ha. lia.
  - intros H y [-> |Hy]%elem_of_cons Hp; [congruence|by apply IH].
Qed.

Lemma sorted_last (l : list Z) x : StronglySorted (fun a b => Is_true (Z.leb a b)) l -> last l = Some x -> forall y, y ∈ l -> (y <= x)%Z.
Proof.
  induction 1 as [|a l Hs IH Ha]; [done|]. destruct l as [|b l].
  - intros [= ->] y ->%list_elem_of_singleton. lia.
  - intros H y [-> |Hy]%elem_of_cons; [|by apply IH]. rewrite Forall_forall in Ha. specialize (Ha x). cbn in Ha.
    assert (x ∈ b :: l) as Hx by (by apply last_Some_elem_of). apply Ha in Hx. apply Is_true_true in Hx. lia.
Qed.

(** Sorting forgets order and repetition. *)
Lemma slots_unique (l l' : list Z) : (forall d, d ∈ l <-> d ∈ l') -> isort Z.leb (remove_dups l) = isort Z.leb (remove_dups l').
Proof.
  intros Hl. assert (AntiSymm (=) (fun x y => Is_true (Z.leb x y))).
  { intros x y Hx%Is_true_true Hy%Is_true_true. lia. }
  apply (StronglySorted_unique (fun x y => Is_true (Z.leb x y))); [apply isort_sorted; [apply zleb_total|apply zleb_trans]..|].
  rewrite !isort_perm. apply NoDup_Permutation; [apply NoDup_remove_dups..|]. intros d. by rewrite !elem_of_remove_dups.
Qed.

(** The slot chosen for a length is a supported one, whatever the order or
    repetition of the table: the shortest that holds the length, or the
    longest of all if none does; it needs confirmation exactly if it is not
    the length itself, and a length is shortened only if no slot holds it. *)
Theorem slot_holds_length total supported :
  supported <> [] ->
  let s := resolve_duration_slot total supported in
  seconds s ∈ supported
  /\ ((exists d, d ∈ supported /\ (total <= inject_Z d)%Q) ->
        (total <= inject_Z (seconds s))%Q /\ (forall d, d ∈ supported -> (total <= inject_Z d)%Q -> (seconds s <= d)%Z)
        /\ adjustment s <> DOWN)
  /\ ((forall d, d ∈ supported -> ~ (total <= inject_Z d)%Q) ->
        (forall d, d ∈ supported -> (d <= seconds s)%Z) /\ adjustment s = DOWN)
  /\ (needs_confirmation s = false <-> (inject_Z (seconds s) == total)%Q)
  /\ forall supported', (forall d, d ∈ supported' <-> d ∈ supported) -> resolve_duration_slot total supported' = s.
Proof.
  intros Hne. cbv zeta. unfold resolve_duration_slot. set (slots := isort Z.leb (remove_dups supported)).
  pose proof (isort_sorted Z.leb zleb_total zleb_trans (remove_dups supported)) as Hs. fold slots in Hs.
  assert (forall d, d ∈ slots <-> d ∈ supported) as Hin.
  { intros d. unfold slots. by rewrite elem_of_isort, elem_of_remove_dups. }
  assert (forall supported', (forall d, d ∈ supported' <-> d ∈ supported) -> isort Z.leb (remove_dups supported') = slots) as Hsame.
  { intros l Hl. apply slots_unique. intros d. by rewrite Hl. }
  destruct (last slots) as [g|] eqn:Eg.
  2: { apply last_None in Eg. destruct supported as [|x l]; [done|]. specialize (Hin x). rewrite Eg in Hin. set_solver. }
  assert (forall d, Qle_bool total (inject_Z d) = true <-> (total <= inject_Z d)%Q) as Hq by (intros d; apply Qle_bool_iff).
  destruct (where_ (fun d => Qle_bool total (inject_Z d)) slots) as [|c rest] eqn:Ew.
  - cbn [seconds adjustment needs_confirmation]. rewrite where_nil in Ew.
    assert (forall d, d ∈ supported -> ~ (total <= inject_Z d)%Q) as Hno.
    { intros d Hd Hle. apply Hin in Hd. apply Ew in Hd. apply Hq in Hle. congruence. }
    split; [by apply Hin, last_Some_elem_of|]. split; [intros (d & Hd & Hle); by apply Hno in Hle|].
    split; [intros _; split; [|done]; intros d Hd; apply (sorted_last slots); by rewrite ?Hin|]. split.
    + cbn. split; [done|]. intros He. exfalso. apply (Hno g); [by apply Hin, last_Some_elem_of|]. rewrite He. apply Qle_refl.
    + intros l Hl. rewrite (Hsame l Hl), Eg. by rewrite (proj2 (where_nil _ _) Ew).
  - cbn [seconds]. assert (c ∈ c :: rest) as Hc by left. rewrite <- Ew in Hc. apply elem_of_where in Hc as [Hc Hle]. apply Hq in Hle.
    split; [by apply Hin|]. split; [|split; [|split]].
    + intros _. split; [done|]. split; [|by cbn; destruct (Qeq_bool _ _)]. intros d Hd Hdl.
      apply (sorted_where_head _ slots c rest Hs Ew); [by apply Hin|by apply Hq].
    + intros Hno. exfalso. apply (Hno c); [by apply Hin|done].
    + unfold needs_confirmation. cbn [adjustment]. rewrite <- Qeq_bool_iff. by destruct (Qeq_bool _ _).
    + intros l Hl. by rewrite (Hsame l Hl), Eg, Ew.
Qed.

Lemma slot_holds_length_witness : seconds (resolve_duration_slot (9 # 2) [10; 5; 5]%Z) = 5%Z /\ (9 # 2 <= inject_Z 5)%Q.
Proof.
  destruct (slot_holds_length (9 # 2) [10; 5; 5]%Z) as (_ & H & _); [done|]. split; [reflexivity|].
  apply H. exists 5%Z. split; [set_solver|]. by apply Qle_bool_iff.
Defined.
End DurationSlots.
