(* ===== verification/AssetRename.v ===== *)
(** * Renaming an asset everywhere: [lib/asset_rename.py]

    The rewriting of the references in a script or draft, and of the paths of
    an asset entry.  The code rewrites the payload in place; here a rewriting
    returns the new value with its count.  [is_digit] is [str.isdigit] on one
    code point.  The scan of the directories is not modelled. *)

From S2P Require Import Prelude Json Assets ShotParser.

(** ** Paths: what is used of [PurePosixPath] *)

Record path := mkPath { p_root : pystr; p_parts : list pystr }.

Fixpoint split_slash (s : pystr) (word : pystr) : list pystr :=
  match s with
  | [] => [reverse word]
  | c :: r => if (c =? 47)%N then reverse word :: split_slash r [] else split_slash r (c :: word)
  end.

Definition parse_path (s : pystr) : path :=
  mkPath (match s with
          | a :: b :: c :: _ => if (a =? 47)%N then (if (b =? 47)%N && negb (c =? 47)%N then u "//" else u "/") else []
          | [a; b] => if (a =? 47)%N then (if (b =? 47)%N then u "//" else u "/") else []
          | [a] => if (a =? 47)%N then u "/" else []
          | [] => []
          end)
    (where_ (fun w => negb (bool_decide (w = [])) && negb (bool_decide (w = u "."))) (split_slash s [])).

Definition path_name (p : path) : pystr := default [] (last (p_parts p)).
Definition path_parent (p : path) : path := mkPath (p_root p) (removelast (p_parts p)).
Definition path_str (p : path) : pystr :=
  match p_root p ++ join [47%N] (p_parts p) with [] => u "." | s => s end.

(** The stem and the suffix: the suffix starts at the last dot, unless that is
    the first or the last character. *)
Fixpoint rfind_dot (s : pystr) (i : nat) (best : option nat) : option nat :=
  match s with
  | [] => best
  | c :: r => rfind_dot r (S i) (if (c =? 46)%N then Some i else best)
  end.
Definition stem_suffix (name : pystr) : pystr * pystr :=
  match rfind_dot name 0 None with
  | Some i => if (0 <? i) && (i <? length name - 1) then (take i name, drop i name) else (name, [])
  | None => (name, [])
  end.

Definition with_name (name : pystr) (p : path) : result path :=
  if bool_decide (path_name p = []) then Raise ValueError
  else if bool_decide (name = []) || bool_decide (name = u ".") || bool_decide (47%N ∈ name) then Raise ValueError
  else Ok (mkPath (p_root p) (removelast (p_parts p) ++ [name])).

(** ** Rewriting *)

(** A rewriting of each item of a list and of each member of an object. *)
Definition each (f : json -> json * nat) : list json -> list json * nat :=
  fix go l := match l with
              | [] => ([], 0)
              | x :: l' => ((f x).1 :: (go l').1, (f x).2 + (go l').2)
              end.
Definition each_member (f : pystr -> json -> json * nat) : dict -> dict * nat :=
  fix go m := match m with
              | [] => ([], 0)
              | (k, v) :: m' => ((k, (f k v).1) :: (go m').1, (f k v).2 + (go m').2)
              end.

Section rename.
Context (nfc : pystr -> pystr) (is_digit : N -> bool).
Abbreviation key := (asset_name_comparison_key nfc).

Definition renamed_file_stem (stem old_name new_name : pystr) (allow_sequence : bool) : option pystr :=
  let normalized := normalize_asset_name nfc stem in
  let target := normalize_asset_name nfc old_name in
  if bool_decide (normalized = target) then Some new_name
  else if allow_sequence then
    let prefix := target ++ u "_" in
    let rest := drop (length prefix) normalized in
    if bool_decide (take (length prefix) normalized = prefix) && negb (bool_decide (rest = [])) && forallb is_digit rest
    then Some (new_name ++ u "_" ++ rest) else None
  else None.

Definition back_to_slash (s : pystr) : pystr := map (fun c => if (c =? 92)%N then 47%N else c) s.

Definition renamed_relpath (rel old_name new_name : pystr) (allow_sequence : bool) : result (option pystr) :=
  let p := parse_path (back_to_slash rel) in
  let '(stem, suffix) := stem_suffix (path_name p) in
  match renamed_file_stem stem old_name new_name allow_sequence with
  | None => Ok None
  | Some new_stem => let! q := with_name (new_stem ++ suffix) p in Ok (Some (path_str q))
  end.

Definition migrated_dirs (spec : AssetSpec) : list path :=
  let base := parse_path (u (subdir spec)) in
  [base; mkPath (p_root base) (p_parts base ++ [u "refs"]); mkPath (p_root base) (p_parts base ++ [u "refs_audio"])].

#[global] Instance path_eq_dec : EqDecision path.
Proof. solve_decision. Defined.

(** [rewrite] of [rewrite_entry_paths] *)
Definition rewrite_path (spec : AssetSpec) (old_name new_name value : pystr) (sequenced_field : bool) : result (option pystr) :=
  let parent := path_parent (parse_path (back_to_slash value)) in
  if negb (bool_decide (parent ∈ migrated_dirs spec)) then Ok None
  else
    let base := parse_path (u (subdir spec)) in
    let allow_sequence := sequenced_field && bool_decide ("reference_images" ∈ extra_list_fields spec)
                          && bool_decide (parent = mkPath (p_root base) (p_parts base ++ [u "refs"])) in
    let! renamed := renamed_relpath value old_name new_name allow_sequence in
    Ok (match renamed with Some r => if bool_decide (r = value) then None else Some r | None => None end).

Fixpoint rewrite_fields (spec : AssetSpec) (old_name new_name : pystr) (fields : list string) (entry : dict) : result (dict * nat) :=
  match fields with
  | [] => Ok (entry, 0)
  | f :: rest =>
      let! renamed := match dict_get (u f) entry with
                      | Some (JStr (c :: s)) => rewrite_path spec old_name new_name (c :: s) false
                      | _ => Ok None
                      end in
      match renamed with
      | Some r => let! out := rewrite_fields spec old_name new_name rest (dict_set (u f) (JStr r) entry) in Ok (out.1, S out.2)
      | None => rewrite_fields spec old_name new_name rest entry
      end
  end.

Fixpoint rewrite_images (spec : AssetSpec) (old_name new_name : pystr) (images : list json) : result (list json * nat) :=
  match images with
  | [] => Ok ([], 0)
  | x :: rest =>
      let! renamed := match x with JStr (c :: s) => rewrite_path spec old_name new_name (c :: s) true | _ => Ok None end in
      let! out := rewrite_images spec old_name new_name rest in
      Ok (match renamed with Some r => (JStr r :: out.1, S out.2) | None => (x :: out.1, out.2) end)
  end.

Definition rewrite_entry_paths (entry : dict) (spec : AssetSpec) (old_name new_name : pystr) : result (dict * nat) :=
  let! out := rewrite_fields spec old_name new_name [sheet_field spec; "reference_image"; "reference_audio"] entry in
  match dict_get (u "reference_images") out.1 with
  | Some (JArr images) =>
      let! r := rewrite_images spec old_name new_name images in
      Ok (dict_set (u "reference_images") (JArr r.1) out.1, out.2 + r.2)
  | _ => Ok out
  end.

(** *** The references of a payload *)

Section walk.
Context (spec : AssetSpec) (old_name new_name : pystr).

Definition _matches (v : json) : bool :=
  match v with JStr s => bool_decide (key s = key old_name) && negb (bool_decide (s = new_name)) | _ => false end.

Definition is_type (v : option json) : bool := match v with Some (JStr s) => bool_decide (s = u (asset_type spec)) | _ => false end.

(** An entry of a [references] list. *)
Definition rewrite_reference (item : json) : json * nat :=
  match item with
  | JObj d =>
      if is_type (dict_get (u "type") d) && match dict_get (u "name") d with Some v => _matches v | None => false end
      then (JObj (dict_set (u "name") (JStr new_name) d), 1) else (item, 0)
  | _ => (item, 0)
  end.

(** The text of a shot or unit. *)
Definition rewrite_text (item : json) : json * nat :=
  match item with
  | JObj d =>
      match dict_get (u "text") d with
      | Some (JStr t) =>
          let '(t', n) := rewrite_mentions nfc t old_name new_name in
          if n =? 0 then (item, 0) else (JObj (dict_set (u "text") (JStr t') d), n)
      | _ => (item, 0)
      end
  | _ => (item, 0)
  end.

Inductive member_kind := ListField | References | Speaker | Shots | Other.

Definition kind_of (k : pystr) (v : json) : member_kind :=
  match v with
  | JArr _ =>
      if bool_decide (k ∈ map u (reference_list_fields spec)) then ListField
      else if bool_decide (k = u "references") then References
      else if bool_decide (k ∈ map u ["shots"; "units"]) then Shots
      else Other
  | JStr _ => if bool_decide (k = u "speaker") && bool_decide (asset_type spec = "character") then Speaker else Other
  | _ => Other
  end.

(** [_walk].  The text of a shot is rewritten before its members are walked;
    the walk leaves a text member alone, so the order does not matter. *)
Fixpoint walk (node : json) : json * nat :=
  match node with
  | JObj m =>
      let r := each_member (fun k v =>
        match kind_of k v, v with
        | ListField, JArr l => let r := each (fun x => if _matches x then (JStr new_name, 1) else walk x) l in (JArr r.1, r.2)
        | References, JArr l => let r := each rewrite_reference l in (JArr r.1, r.2)
        | Speaker, _ => if _matches v then (JStr new_name, 1) else (v, 0)
        | Shots, JArr l => let r := each (fun x => let w := walk x in let t := rewrite_text w.1 in (t.1, t.2 + w.2)) l in (JArr r.1, r.2)
        | _, _ => walk v
        end) m in
      (JObj r.1, r.2)
  | JArr l => let r := each walk l in (JArr r.1, r.2)
  | _ => (node, 0)
  end.

(** The mirror of the characters in an older script. *)
Definition rewrite_mirror (payload : dict) : result (dict * nat) :=
  match dict_get (u "characters") payload with
  | Some (JObj embedded) =>
      match rekey_equivalent_entries nfc embedded old_name new_name with
      | None => Ok (payload, 0)
      | Some (rekeyed, entry) =>
          let n := if bool_decide (rekeyed.*1 = embedded.*1) then 0 else 1 in
          match entry with
          | JObj e =>
              let! out := rewrite_entry_paths e spec old_name new_name in
              Ok (dict_set (u "characters") (JObj (dict_set new_name (JObj out.1) rekeyed)) payload, n + out.2)
          | JNull => Ok (dict_set (u "characters") (JObj rekeyed) payload, 0)
          | _ => Ok (dict_set (u "characters") (JObj rekeyed) payload, n)
          end
      end
  | _ => Ok (payload, 0)
  end.

Definition rewrite_payload_references (payload : dict) : result (dict * nat) :=
  let! m := if bool_decide (asset_type spec = "character") then rewrite_mirror payload else Ok (payload, 0) in
  let '(out, n) := walk (JObj m.1) in
  Ok (match out with JObj d => d | _ => m.1 end, m.2 + n).
End walk.
End rename.

(** ** What the rewriting does to the references *)

Section exact.
Context (nfc : pystr -> pystr) (spec : AssetSpec) (old_name new_name : pystr).
Abbreviation key := (asset_name_comparison_key nfc).
Abbreviation walk := (walk nfc spec old_name new_name).

(** A collector over the places a reference can be: names and texts. *)
Section collect.
Context {A : Type} (name text : pystr -> list A).

Definition of_text (x : json) : list A :=
  match x with
  | JObj d => match dict_get (u "text") d with Some (JStr t) => text t | _ => [] end
  | _ => []
  end.
Definition of_reference (x : json) : list A :=
  match x with
  | JObj d => if is_type spec (dict_get (u "type") d)
              then match dict_get (u "name") d with Some (JStr s) => name s | _ => [] end else []
  | _ => []
  end.

Fixpoint collect (node : json) : list A :=
  match node with
  | JObj m =>
      flat_map (fun kv =>
        match kind_of spec kv.1 kv.2, kv.2 with
        | ListField, JArr l => flat_map (fun x => match x with JStr s => name s | _ => collect x end) l
        | References, JArr l => flat_map of_reference l
        | Speaker, JStr s => name s
        | Shots, JArr l => flat_map (fun x => of_text x ++ collect x) l
        | _, _ => collect kv.2
        end) m
  | JArr l => flat_map collect l
  | _ => []
  end.
End collect.

(** The names a payload refers to, and the texts that mention names. *)
Definition references : json -> list pystr := collect (fun s => [s]) (fun t => map snd (_iter_mentions t)).
Definition texts : json -> list pystr := collect (fun _ => []) (fun t => [t]).

Definition renamed (s : pystr) : pystr := if bool_decide (key s = key old_name) then new_name else s.
Definition due (s : pystr) : bool := bool_decide (key s = key old_name) && negb (bool_decide (s = new_name)).

(** A rewriting that renames what [g] collects, counts what was due, and only
    changes what it counts. *)
Definition exact_at (g : json -> list pystr) (f : json -> json * nat) (x : json) : Prop :=
  g (f x).1 = map renamed (g x) /\ (f x).2 = length (where_ due (g x)) /\ ((f x).2 = 0 -> (f x).1 = x).

Lemma renamed_not_due s : due s = false -> renamed s = s.
Proof.
  unfold due, renamed. destruct (bool_decide (key s = key old_name)); [|done]. cbn. intros H. apply negb_false_iff in H. by to_prop.
Qed.

Lemma each_exact g f l :
  Forall (exact_at g f) l ->
  flat_map g (each f l).1 = map renamed (flat_map g l)
  /\ (each f l).2 = length (where_ due (flat_map g l)) /\ ((each f l).2 = 0 -> (each f l).1 = l).
Proof.
  induction 1 as [|x l (H1 & H2 & H3) _ (IH1 & IH2 & IH3)]; [done|]. cbn [each fst snd flat_map].
  rewrite map_app, H1, IH1. split; [done|]. rewrite List.filter_app, length_app, <- H2, <- IH2. split; [done|].
  intros H0. rewrite H3, IH3 by lia. done.
Qed.

Lemma each_member_exact (g : pystr -> json -> list pystr) f m :
  Forall (fun kv => exact_at (g kv.1) (f kv.1) kv.2) m ->
  flat_map (fun kv => g kv.1 kv.2) (each_member f m).1 = map renamed (flat_map (fun kv => g kv.1 kv.2) m)
  /\ (each_member f m).2 = length (where_ due (flat_map (fun kv => g kv.1 kv.2) m))
  /\ ((each_member f m).2 = 0 -> (each_member f m).1 = m).
Proof.
  induction 1 as [|[k v] m (H1 & H2 & H3) _ (IH1 & IH2 & IH3)]; [done|]. cbn [each_member fst snd flat_map] in *.
  rewrite map_app, H1, IH1. split; [done|]. rewrite List.filter_app, length_app, <- H2, <- IH2. split; [done|].
  intros H0. rewrite H3, IH3 by lia. done.
Qed.

(** The mentions of the old name in a text are in brackets. *)
Definition tame_text (t : pystr) : Prop :=
  forall m, m ∈ _iter_mentions t -> key m.2 = key old_name -> slice m.1.1 m.1.2 t = wrapped m.2.

Lemma rewrite_reference_exact x :
  exact_at (of_reference (fun s => [s])) (rewrite_reference nfc spec old_name new_name) x.
Proof.
  unfold exact_at, rewrite_reference, of_reference. destruct x as [| | | | | |d]; try done.
  destruct (is_type spec (dict_get (u "type") d)) eqn:Et; cbn [andb]; [|by cbn [fst snd]; rewrite ?Et].
  destruct (dict_get (u "name") d) as [v|] eqn:En; [|by cbn [fst snd]; rewrite ?Et, ?En].
  destruct v as [| | | |s| |]; cbn [_matches]; try by (cbn [fst snd]; rewrite ?Et, ?En).
  fold (due s). destruct (due s) eqn:Ed; cbn [fst snd].
  - rewrite dict_get_set_ne by done. rewrite ?Et, dict_get_set_eq. cbn [map List.filter length].
    rewrite Ed. unfold due in Ed. unfold renamed. apply andb_true_iff in Ed as [-> _]. done.
  - rewrite ?Et, ?En. cbn [map List.filter]. by rewrite Ed, renamed_not_due.
Qed.

(** The text of a shot survives the walk. *)
Lemma each_member_get f k m :
  dict_get k (each_member f m).1 = (fun v => (f k v).1) <$> dict_get k m.
Proof.
  induction m as [|[k' v] m IH]; [done|]. cbn [each_member fst dict_get]. case_bool_decide as E; [|exact IH]. by subst.
Qed.

Lemma walk_head x :
  match x with
  | JStr s => walk x = (JStr s, 0)
  | JArr _ => exists l, (walk x).1 = JArr l
  | JObj _ => exists d, (walk x).1 = JObj d
  | _ => walk x = (x, 0)
  end.
Proof. destruct x; cbn; eauto. Qed.

Lemma walk_text {A} (text : pystr -> list A) x : of_text text (walk x).1 = of_text text x.
Proof.
  destruct x as [| | | | | |d]; try done. cbn [walk fst of_text].
  rewrite each_member_get. destruct (dict_get (u "text") d) as [v|]; [|done]. cbn [fmap option_fmap option_map].
  destruct v as [| | | |s|l|m]; cbn [kind_of]; try done.
  do 3 (case_bool_decide; [done|]). by destruct (walk_head (JArr l)) as [? ->].
Qed.

Context (raw : json) (new_ok : validate_asset_name nfc raw = Ok new_name).

Lemma map_renamed_due l : length (where_ due (map renamed l)) = 0 \/ key new_name = key old_name.
Proof.
  destruct (decide (key new_name = key old_name)) as [H|H]; [by right|left]. induction l as [|s l IH]; [done|].
  cbn [map List.filter]. unfold renamed at 1. case_bool_decide as E.
  - unfold due at 1. by rewrite bool_decide_eq_false_2.
  - unfold due at 1. by rewrite bool_decide_eq_false_2.
Qed.

(** A text member is nothing the collector looks at by itself. *)
Lemma references_set_text d t t' :
  dict_get (u "text") d = Some (JStr t) -> references (JObj (dict_set (u "text") (JStr t') d)) = references (JObj d).
Proof.
  unfold references. cbn [collect]. induction d as [|[k v] d IH]; [done|]. cbn [dict_get dict_set]. case_bool_decide as E.
  - intros [= ->]. subst k. cbn [flat_map fst snd kind_of]. rewrite bool_decide_eq_false_2 by done. done.
  - intros H. cbn [flat_map fst snd]. f_equal. by apply IH.
Qed.

Lemma text_exact x :
  Forall tame_text (of_text (fun t => [t]) x) ->
  let r := rewrite_text nfc old_name new_name x in
  let names := of_text (fun t => map snd (_iter_mentions t)) in
  names r.1 = map renamed (names x) /\ references r.1 = references x
  /\ r.2 = length (where_ due (names x)) /\ (r.2 = 0 -> r.1 = x).
Proof.
  cbv zeta. unfold rewrite_text, of_text. destruct x as [| | | | | |d]; try done.
  destruct (dict_get (u "text") d) as [[| | | |t| |]|] eqn:Et; try by (cbn [fst snd]; rewrite ?Et).
  intros [Ht _]%Forall_cons. destruct (rewrite_mentions_spec nfc t old_name raw new_name new_ok Ht) as [H1 H2].
  destruct (rewrite_mentions nfc t old_name new_name) as [t' n] eqn:Er. cbn [fst snd] in H1, H2.
  assert (n = length (where_ due (map snd (_iter_mentions t)))) as Hn.
  { rewrite H2. clear. induction (_iter_mentions t) as [|m l IH]; [done|]. cbn [map List.filter].
    change (due m.2) with (bool_decide (key m.2 = key old_name) && negb (bool_decide (m.2 = new_name))).
    destruct (_ && _); cbn [length]; by rewrite IH. }
  destruct (Nat.eqb_spec n 0) as [->|H0].
  - cbn [fst snd]. rewrite Et. split; [|done]. symmetry in Hn. apply nil_length_inv in Hn. rewrite where_nil in Hn.
    etransitivity; [symmetry; apply map_id|]. apply map_ext_in. intros s Hs%list_elem_of_In. symmetry. by apply renamed_not_due, Hn.
  - cbn [fst snd]. rewrite dict_get_set_eq. split; [|split; [by apply (references_set_text _ t)|done]].
    rewrite H1, map_map. by apply map_ext.
Qed.

(** What the collectors and the walk do with one member. *)
Definition member_of {A} (name text : pystr -> list A) (k : pystr) (v : json) : list A :=
  match kind_of spec k v, v with
  | ListField, JArr l => flat_map (fun x => match x with JStr s => name s | _ => collect name text x end) l
  | References, JArr l => flat_map (of_reference name) l
  | Speaker, JStr s => name s
  | Shots, JArr l => flat_map (fun x => of_text text x ++ collect name text x) l
  | _, _ => collect name text v
  end.
Definition walk_member (k : pystr) (v : json) : json * nat :=
  match kind_of spec k v, v with
  | ListField, JArr l => let r := each (fun x => if _matches nfc old_name new_name x then (JStr new_name, 1) else walk x) l in (JArr r.1, r.2)
  | References, JArr l => let r := each (rewrite_reference nfc spec old_name new_name) l in (JArr r.1, r.2)
  | Speaker, _ => if _matches nfc old_name new_name v then (JStr new_name, 1) else (v, 0)
  | Shots, JArr l =>
      let r := each (fun x => let w := walk x in let t := rewrite_text nfc old_name new_name w.1 in (t.1, t.2 + w.2)) l in (JArr r.1, r.2)
  | _, _ => walk v
  end.

Abbreviation names := (fun s : pystr => [s]).
Abbreviation mentions := (fun t : pystr => map snd (_iter_mentions t)).
Abbreviation no_names := (fun _ : pystr => @nil pystr).
Abbreviation the_text := (fun t : pystr => [t]).

Definition walk_ok (x : json) : Prop := Forall tame_text (texts x) -> exact_at references walk x.
Definition walk_ok' (x : json) : Prop := walk_ok x /\ match x with JArr l => Forall walk_ok l | _ => True end.

Lemma name_exact s : exact_at (fun x => match x with JStr s => [s] | _ => references x end)
                       (fun x => if _matches nfc old_name new_name x then (JStr new_name, 1) else (x, 0)) (JStr s).
Proof.
  unfold exact_at. cbn [_matches]. fold (due s). destruct (due s) eqn:E; cbn [fst snd map List.filter length]; rewrite E.
  - unfold due in E. unfold renamed. apply andb_true_iff in E as [-> _]. done.
  - by rewrite renamed_not_due.
Qed.

Lemma flat_map_tame (g : json -> list pystr) l x : Forall tame_text (flat_map g l) -> x ∈ l -> Forall tame_text (g x).
Proof.
  intros H Hx. rewrite Forall_forall in *. intros t Ht. apply H, list_elem_of_In, in_flat_map. exists x. by rewrite <- !list_elem_of_In.
Qed.

Lemma list_field_exact l :
  Forall walk_ok l -> Forall tame_text (flat_map (fun x => match x with JStr s => no_names s | _ => texts x end) l) ->
  Forall (exact_at (fun x => match x with JStr s => [s] | _ => references x end)
            (fun x => if _matches nfc old_name new_name x then (JStr new_name, 1) else walk x)) l.
Proof.
  intros Hl Ht. apply Forall_forall. intros x Hx. rewrite Forall_forall in Hl. specialize (Hl x Hx).
  pose proof (flat_map_tame _ l x Ht Hx) as Htx. cbv beta in Htx.
  destruct x as [| | | |s|l'|m]; [done..|exact (name_exact s)| |].
  - specialize (Hl Htx). unfold exact_at in *. cbn [_matches]. by destruct (walk_head (JArr l')) as [l2 E]; rewrite E in *.
  - specialize (Hl Htx). unfold exact_at in *. cbn [_matches]. by destruct (walk_head (JObj m)) as [m2 E]; rewrite E in *.
Qed.

Lemma shots_exact l :
  Forall walk_ok l -> Forall tame_text (flat_map (fun x => of_text the_text x ++ texts x) l) ->
  Forall (exact_at (fun x => of_text mentions x ++ references x)
            (fun x => let w := walk x in let t := rewrite_text nfc old_name new_name w.1 in (t.1, t.2 + w.2))) l.
Proof.
  intros Hl Ht. apply Forall_forall. intros x Hx. rewrite Forall_forall in Hl. specialize (Hl x Hx).
  pose proof (flat_map_tame _ l x Ht Hx) as Htx. cbv beta in Htx. apply Forall_app in Htx as [Ht1 Ht2].
  destruct (Hl Ht2) as (W1 & W2 & W3). destruct (text_exact (walk x).1) as (T1 & T2 & T3 & T4); [by rewrite walk_text|].
  rewrite walk_text in T1, T3. unfold exact_at. cbv zeta. cbn [fst snd]. rewrite map_app, T1, T2, W1. split; [done|].
  rewrite List.filter_app, length_app, <- T3, <- W2. split; [done|]. intros H0. rewrite T4, W3 by lia. done.
Qed.

Lemma member_exact k v :
  walk_ok' v -> Forall tame_text (member_of no_names the_text k v) -> exact_at (member_of names mentions k) (walk_member k) v.
Proof.
  intros [Hv Hl] Ht. unfold exact_at.
  destruct v as [| | | |s|l|m]; try (by apply Hv).
  - unfold member_of, walk_member, kind_of in *. destruct (_ && _); [|done].
    pose proof (name_exact s) as Hn. unfold exact_at in Hn. by destruct (_matches nfc old_name new_name (JStr s)).
  - assert (forall l', kind_of spec k (JArr l') = kind_of spec k (JArr l)) as Hk by done.
    unfold member_of, walk_member in *. destruct (kind_of spec k (JArr l)) eqn:Ek; cbn [fst snd]; rewrite ?Hk.
    + destruct (each_exact _ _ _ (list_field_exact l Hl Ht)) as (H1 & H2 & H3). split; [exact H1|]. split; [exact H2|].
      intros H0. f_equal. by apply H3.
    + destruct (each_exact (of_reference names) (rewrite_reference nfc spec old_name new_name) l) as (H1 & H2 & H3).
      { apply Forall_forall. intros x _. apply rewrite_reference_exact. }
      split; [exact H1|]. split; [exact H2|]. intros H0. f_equal. by apply H3.
    + unfold kind_of in Ek. by repeat case_bool_decide.
    + destruct (each_exact _ _ _ (shots_exact l Hl Ht)) as (H1 & H2 & H3). split; [exact H1|]. split; [exact H2|].
      intros H0. f_equal. by apply H3.
    + destruct (Hv Ht) as (H1 & H2 & H3). destruct (walk_head (JArr l)) as [l' E]. rewrite E in *. by rewrite Hk.
Qed.

Lemma walk_exact x : walk_ok' x.
Proof.
  induction x as [|b|z|f|s|l IH|m IH] using json_ind'; (split; [|try done]); try by (intros _; unfold exact_at).
  - intros Ht. assert (Forall (exact_at references walk) l) as Hl.
    { apply Forall_forall. intros x Hx. rewrite Forall_forall in IH. apply IH; [done|]. by apply (flat_map_tame _ l). }
    destruct (each_exact _ _ _ Hl) as (H1 & H2 & H3). split; [exact H1|]. split; [exact H2|]. intros H0. cbn [walk fst]. f_equal. by apply H3.
  - eapply Forall_impl; [exact IH|]. by intros x [H _].
  - intros Ht. destruct (each_member_exact (member_of names mentions) walk_member m) as (H1 & H2 & H3).
    + apply Forall_forall. intros [k v] Hin. cbn [fst snd]. apply member_exact.
      * rewrite Forall_forall in IH. by apply (IH (k, v)).
      * change (texts (JObj m)) with (flat_map (fun kv => member_of no_names the_text kv.1 kv.2) m) in Ht.
        rewrite Forall_forall in *. intros t Htt. apply Ht, list_elem_of_In, in_flat_map. exists (k, v). by rewrite <- !list_elem_of_In.
    + split; [exact H1|]. split; [exact H2|]. intros H0. change ((walk (JObj m)).1) with (JObj (each_member walk_member m).1). f_equal. by apply H3.
Qed.

(** The mentions of the texts are among the references. *)
Definition mentioned (x : json) : Prop := forall t n, t ∈ texts x -> n ∈ mentions t -> n ∈ references x.
Definition mentioned' (x : json) : Prop := mentioned x /\ match x with JArr l => Forall mentioned l | _ => True end.

Lemma flat_map_mentioned (g h : json -> list pystr) l :
  Forall (fun x => forall t n, t ∈ g x -> n ∈ mentions t -> n ∈ h x) l ->
  forall t n, t ∈ flat_map g l -> n ∈ mentions t -> n ∈ flat_map h l.
Proof.
  intros Hl t n Ht Hn. apply list_elem_of_In in Ht. apply in_flat_map in Ht as (x & Hx & Ht). apply list_elem_of_In, in_flat_map.
  exists x. split; [done|]. apply list_elem_of_In in Hx, Ht. rewrite Forall_forall in Hl. by apply list_elem_of_In, (Hl x Hx t).
Qed.

Lemma of_text_mentioned x t n : t ∈ of_text the_text x -> n ∈ mentions t -> n ∈ of_text mentions x.
Proof. unfold of_text. repeat case_match; try by intros ?%not_elem_of_nil. by intros ->%list_elem_of_singleton. Qed.

Lemma member_mentioned k v :
  mentioned' v -> forall t n, t ∈ member_of no_names the_text k v -> n ∈ mentions t -> n ∈ member_of names mentions k v.
Proof.
  intros [Hv Hl] t n. unfold member_of. destruct v as [| | | |s|l|m]; try (by apply Hv).
  - cbn [kind_of]. destruct (_ && _); [by intros ?%not_elem_of_nil|by intros ?%not_elem_of_nil].
  - destruct (kind_of spec k (JArr l)); [| |by apply Hv| |by apply Hv]; apply flat_map_mentioned; eapply Forall_impl; try exact Hl;
      intros x Hx t' n'.
    + destruct x; try (by apply Hx). by intros ?%not_elem_of_nil.
    + unfold of_reference. repeat case_match; by intros ?%not_elem_of_nil.
    + rewrite !elem_of_app. intros [H|H] Hn; [left; by eapply of_text_mentioned|right; by eapply Hx].
Qed.

Lemma texts_mentioned x : mentioned' x.
Proof.
  induction x as [|b|z|f|s|l IH|m IH] using json_ind'; (split; [|try done]); try by (intros t n ?%not_elem_of_nil).
  - intros t n. apply flat_map_mentioned. eapply Forall_impl; [exact IH|]. by intros x [H _].
  - eapply Forall_impl; [exact IH|]. by intros x [H _].
  - intros t n Ht Hn. change (texts (JObj m)) with (flat_map (fun kv => member_of no_names the_text kv.1 kv.2) m) in Ht.
    change (references (JObj m)) with (flat_map (fun kv => member_of names mentions kv.1 kv.2) m).
    apply list_elem_of_In in Ht. apply in_flat_map in Ht as (kv & Hkv & Ht). apply list_elem_of_In, in_flat_map. exists kv. split; [done|].
    apply list_elem_of_In. apply list_elem_of_In in Ht, Hkv. rewrite Forall_forall in IH. by eapply member_mentioned; [apply IH| |].
Qed.

(** Once nothing refers to the old name, a walk finds nothing to do. *)
Lemma walk_idle x : (forall s, s ∈ references x -> key s <> key old_name) -> walk x = (x, 0).
Proof.
  intros Hx. destruct (proj1 (walk_exact x)) as (_ & H2 & H3).
  { apply Forall_forall. intros t Ht m Hm Hk. exfalso. apply (Hx m.2); [|done]. eapply (proj1 (texts_mentioned x)); [exact Ht|].
    by apply list_elem_of_fmap_2. }
  assert (length (where_ due (references x)) = 0) as H0.
  { apply length_zero_iff_nil, where_nil. intros s Hs. unfold due. rewrite bool_decide_eq_false_2; [done|by apply Hx]. }
  rewrite H0 in H2. specialize (H3 H2). destruct (walk x) as [y n]. cbn in *. congruence.
Qed.

(** A rename reaches every reference of a script or draft and nothing else.
    Where the texts mention the old name in brackets, the names the payload
    refers to, in its lists of names, its references, its speakers and the
    mentions of its shots and units, are afterwards the same with the old
    name replaced; the count is the number of those that were not yet the
    new name (and of what changed in the mirror of the characters); without a
    count nothing has changed; and if the new name is not another spelling of
    the old one, a second run finds nothing to do. *)
Theorem payload_renamed is_digit payload payload1 n1 out n :
  (if bool_decide (asset_type spec = "character") then rewrite_mirror nfc is_digit spec old_name new_name payload else Ok (payload, 0))
    = Ok (payload1, n1) ->
  Forall tame_text (texts (JObj payload1)) ->
  rewrite_payload_references nfc is_digit spec old_name new_name payload = Ok (out, n) ->
  references (JObj out) = map renamed (references (JObj payload1))
  /\ n = n1 + length (where_ due (references (JObj payload1)))
  /\ (n = n1 -> out = payload1)
  /\ (key new_name <> key old_name -> walk (JObj out) = (JObj out, 0)).
Proof.
  intros Hm Ht. unfold rewrite_payload_references. rewrite Hm. cbn [bind fst snd].
  destruct (proj1 (walk_exact (JObj payload1)) Ht) as (H1 & H2 & H3). destruct (walk_head (JObj payload1)) as [d Hd].
  destruct (walk (JObj payload1)) as [y c]. cbn [fst snd] in *. subst y. intros H. apply Ok_inj in H. injection H as <- <-.
  split; [exact H1|]. split; [by rewrite H2|]. split.
  - intros H0. assert (JObj d = JObj payload1) as E by (apply H3; lia). congruence.
  - intros Hne. apply walk_idle. rewrite H1. intros s (y & -> & _)%list_elem_of_fmap. unfold renamed.
    destruct (decide (key y = key old_name)) as [E|E]; [rewrite bool_decide_eq_true_2 by done|rewrite bool_decide_eq_false_2 by done]; done.
Qed.
End exact.

Definition demo_script : dict :=
  [(u "scenes", JArr [JObj [(u "scene_id", JStr (u "S1")); (u "scenes", JArr [JStr (u "Hall"); JStr (u "Yard")])]]);
   (u "video_units", JArr [JObj [(u "references", JArr [JObj [(u "type", JStr (u "scene")); (u "name", JStr (u "Hall"))]]);
                                 (u "shots", JArr [JObj [(u "text", JStr (u "into @[Hall] and out"))]])]])].

Lemma payload_renamed_witness :
  exists out, rewrite_payload_references id (fun _ => true) (mkAssetSpec "scene" "scenes" "scene_sheet" "scenes" 1 ["scenes"] [] [] [] true)
                (u "Hall") (u "Room") demo_script = Ok (out, 3)
    /\ references (mkAssetSpec "scene" "scenes" "scene_sheet" "scenes" 1 ["scenes"] [] [] [] true) (JObj out)
       = [u "Room"; u "Yard"; u "Room"; u "Room"].
Proof.
  set (spec := mkAssetSpec "scene" "scenes" "scene_sheet" "scenes" 1 ["scenes"] [] [] [] true).
  set (out := match rewrite_payload_references id (fun _ => true) spec (u "Hall") (u "Room") demo_script with Ok x => x.1 | Raise _ => [] end).
  exists out.
  destruct (payload_renamed id spec (u "Hall") (u "Room") (JStr (u "Room")) eq_refl (fun _ => true) demo_script demo_script 0 out 3)
    as (H & _).
  - reflexivity.
  - apply Forall_forall. intros t Ht. vm_compute in Ht. apply list_elem_of_singleton in Ht as ->. intros m Hm _.
    vm_compute in Hm. apply list_elem_of_singleton in Hm as ->. reflexivity.
  - reflexivity.
  - split; [reflexivity|]. etransitivity; [exact H|]. reflexivity.
Defined.
