(* ===== verification/EpisodeLedger.v ===== *)
(** * The ledger of episodes: [lib/episode_ledger.py]

    A project records in [episodes] which range of which source text each
    episode covers.  The part of a project directory the ledger code looks at
    is a value: the entries of [source/], [scripts/] and [drafts/], and what
    other paths hold.  Arguments are Unicode's composition [nfc], the classes
    [isdigit] (of [str.isdigit]) and [decimal] (the value [int] gives a
    character), and [sha256] of a text. *)

From S2P Require Import Prelude Json AssetRename.

(** ** The project directory *)

(** An entry of a directory.  A file without text cannot be read as UTF-8; a
    link that leads to a file shows that file's text, any other link leads
    nowhere or to a directory; [inside] tells whether the target lies in the
    project.  The targets are not written by the operations modelled here. *)
Inductive node := File (text : option pystr) | Folder | Link (to : option (option pystr)) (inside : bool).

Definition is_file (n : node) : bool := match n with File _ | Link (Some _) _ => true | _ => false end.
Definition is_symlink (n : node) : bool := match n with Link _ _ => true | _ => false end.
Definition read_text (n : node) : option pystr := match n with File t | Link (Some t) _ => t | _ => None end.

Record Disk := mkDisk {
  d_source : option (list (pystr * node));     (* [None]: source/ is no directory *)
  d_source_link : bool;                        (* source/ itself is a link *)
  d_scripts : list (pystr * bool);             (* entries of scripts/, and whether they are files *)
  d_drafts : list (pystr * bool);              (* entries of drafts/, and whether they are directories with a step1 file *)
  d_is_file : pystr -> bool;                   (* [safe_exists] of a path in the project *)
  d_elsewhere : pystr -> option (option pystr) (* files that are not named source/<entry> *)
}.

Definition source_entries (d : Disk) : list (pystr * node) := default [] (d_source d).

Definition with_source (l : list (pystr * node)) (d : Disk) : Disk :=
  mkDisk (Some l) (d_source_link d) (d_scripts d) (d_drafts d) (d_is_file d) (d_elsewhere d).

Lemma source_entries_with l d : source_entries (with_source l d) = l.
Proof. done. Qed.

(** [sorted(source_dir.iterdir())]. *)
Definition listing (d : Disk) : list (pystr * node) := isort key_leb (source_entries d).

(** ** Names *)

(** [re.fullmatch("episode_([0-9]+)" + suffix, name)], and its number. *)
Definition match_episode (suffix name : pystr) : option Z :=
  if bool_decide (take 8 name = u "episode_") then
    let '(digits, rest) := span_digits (drop 8 name) in
    if negb (bool_decide (digits = [])) && bool_decide (rest = suffix) then Some (Z.of_N (N.of_uint (codes_uint digits))) else None
  else None.

Definition _EPISODE_FILE_RE : pystr -> option Z := match_episode (u ".txt").
Definition _SCRIPT_FILE_RE : pystr -> option Z := match_episode (u ".json").
Definition _DRAFT_DIR_RE : pystr -> option Z := match_episode [].

Definition episode_txt (num : Z) : pystr := u "episode_" ++ dumps_int num ++ u ".txt".
Definition episode_script_filename (num : Z) : pystr := u "episode_" ++ dumps_int num ++ u ".json".
Definition episode_script_relpath (num : Z) : pystr := u "scripts/" ++ episode_script_filename num.
Definition episode_drafts_dir (num : Z) : pystr := u "episode_" ++ dumps_int num.

(** [str.lower]; only ASCII letters have a lower case among the letters of the
    suffixes it is compared with. *)
Definition ascii_lower (s : pystr) : pystr := map (fun c => if ((65 <=? c) && (c <=? 90))%N then (c + 32)%N else c) s.

Definition SOURCE_TEXT_SUFFIXES : list pystr := [u ".txt"; u ".md"].
Definition SOURCE_FINGERPRINTS_KEY : pystr := u "source_fingerprints".
Definition LEDGER_STATUSES : list string := ["planned"; "consumed"; "stale"].

(** ** The typed fields *)

Definition _validate_rel_posix_path (value : pystr) : result pystr :=
  if bool_decide (value = []) || bool_decide (92%N ∈ value) then Raise ValueError
  else
    let p := parse_path value in
    if negb (bool_decide (p_root p = [])) || bool_decide (u ".." ∈ p_parts p) then Raise ValueError else Ok value.

Record SourceRange := mkRange { source_file : pystr; range_start : Z; range_end : Z }.

(** Construction with the validators of the class. *)
Definition make_source_range (file : pystr) (a b : Z) : result SourceRange :=
  let! f := _validate_rel_posix_path file in
  if (a <? 0)%Z || (b <? 0)%Z || (b <? a)%Z then Raise ValueError else Ok (mkRange f a b).

Record PlanningCursor := mkCursor { cursor_file : pystr; offset : Z }.

Definition make_planning_cursor (file : pystr) (o : Z) : result PlanningCursor :=
  let! f := _validate_rel_posix_path file in
  if (o <? 0)%Z then Raise ValueError else Ok (mkCursor f o).

Record SourceDoc := mkDoc { rel_path : pystr; doc_text : pystr }.

Section ledger.
Context (nfc : pystr -> pystr) (isdigit : N -> bool) (decimal : N -> option Z) (sha256 : pystr -> pystr).

(** [.replace("\r\n", "\n").replace("\r", "\n")] *)
Fixpoint crlf (s : pystr) : pystr :=
  match s with
  | 13%N :: (10%N :: _) as r => crlf r
  | c :: r => c :: crlf r
  | [] => []
  end.
Definition unify_newlines (s : pystr) : pystr := map (fun c => if (c =? 13)%N then 10%N else c) (crlf s).

Definition normalize_source_text (text : pystr) : pystr := unify_newlines (nfc text).

(** [int(text)] of a text of digits: every character needs a decimal value,
    and the interpreter refuses more than 4300 of them. *)
Fixpoint int_value (acc : Z) (s : pystr) : option Z :=
  match s with
  | [] => Some acc
  | c :: r => match decimal c with Some d => int_value (10 * acc + d) r | None => None end
  end.

Definition parse_episode_num (value : option json) : option Z :=
  match value with
  | Some (JInt z) => Some z
  | Some (JStr s) =>
      if negb (bool_decide (s = [])) && List.forallb isdigit s
      then if 4300 <? length s then None else int_value 0 s
      else None
  | _ => None
  end.

Definition parse_positive_episode_num (value : option json) : option Z :=
  match parse_episode_num value with
  | Some n => if (0 <? n)%Z then Some n else None
  | None => None
  end.

(** The number of an entry of the ledger. *)
Definition episode_of (entry : json) : option Z :=
  match entry with JObj e => parse_episode_num (dict_get (u "episode") e) | _ => None end.

(** ** What is on disk *)

Definition hidden (name : pystr) : bool :=
  match name with c :: _ => (c =? 95)%N || (c =? 46)%N | [] => false end.

Definition is_source (name : pystr) (n : node) : bool :=
  is_file n && negb (hidden name) && bool_decide (ascii_lower (stem_suffix name).2 ∈ SOURCE_TEXT_SUFFIXES)
  && match _EPISODE_FILE_RE name with Some _ => false | None => true end.

Definition source_doc (e : pystr * node) : option SourceDoc :=
  if is_source e.1 e.2
  then match read_text e.2 with Some t => Some (mkDoc (u "source/" ++ e.1) (normalize_source_text t)) | None => None end
  else None.

Definition discover_sources (d : Disk) : list SourceDoc := omap source_doc (listing d).

Definition compute_source_fingerprints (sources : list SourceDoc) : list (pystr * pystr) :=
  foldl (fun m doc => aset (rel_path doc) (sha256 (doc_text doc)) m) [] sources.

Definition mismatched_source_fingerprints (recorded : option json) (sources : list SourceDoc) : list pystr :=
  match recorded with
  | Some (JObj m) =>
      let current := compute_source_fingerprints sources in
      isort str_leb (remove_dups
        (omap (fun '(rel, v) => match v with
                                | JStr fp => if bool_decide (aget rel current = Some fp) then None else Some rel
                                | _ => None
                                end) m))
  | _ => []
  end.

(** The files of each number, in the order of their names. *)
Definition add_alias (m : list (Z * list (pystr * node))) (e : pystr * node) : list (Z * list (pystr * node)) :=
  match _EPISODE_FILE_RE e.1 with
  | Some num => if is_file e.2 || is_symlink e.2 then aset num (default [] (aget num m) ++ [e]) m else m
  | None => m
  end.

Definition discover_episode_file_aliases (d : Disk) : list (Z * list (pystr * node)) := foldl add_alias [] (listing d).

Definition discover_episode_files (d : Disk) : list (Z * pystr) :=
  omap (fun '(num, paths) => match List.find (fun e => is_file e.2) paths with Some e => Some (num, e.1) | None => None end)
       (discover_episode_file_aliases d).

Definition discover_product_episode_nums (d : Disk) : list Z :=
  remove_dups
    (omap (fun '(name, file) => if (file : bool) then _SCRIPT_FILE_RE name else None) (d_scripts d)
     ++ omap (fun '(name, step1) => if (step1 : bool) then _DRAFT_DIR_RE name else None) (d_drafts d)).

Definition has_downstream_products (d : Disk) (num : Z) (entry : dict) : bool :=
  match dict_get (u "script_file") entry with Some (JStr f) => d_is_file d f | _ => false end
  || bool_decide (aget (episode_script_filename num) (d_scripts d) = Some true)
  || bool_decide (aget (episode_drafts_dir num) (d_drafts d) = Some true).

(** ** The ledger *)

Definition entries_of (project : dict) : list json :=
  match dict_get (u "episodes") project with Some (JArr l) => l | _ => [] end.

Definition known_numbers (episodes : list json) : list Z := omap episode_of episodes.

Definition new_entry (d : Disk) (num : Z) : json :=
  let entry := [(u "episode", JInt num); (u "title", JStr []); (u "script_file", JStr (episode_script_relpath num))] in
  JObj (entry ++ [(u "ledger_status", JStr (u (if has_downstream_products d num entry then "consumed" else "planned")))]).

Fixpoint append_missing (d : Disk) (nums : list Z) (known : list Z) (episodes : list json) : list json :=
  match nums with
  | [] => episodes
  | num :: rest =>
      if bool_decide (num ∈ known) then append_missing d rest known episodes
      else append_missing d rest (num :: known) (episodes ++ [new_entry d num])
  end.

Definition entry_leb (a b : json) : bool := (default 0 (episode_of a) <=? default 0 (episode_of b))%Z.

Definition _sort_episodes_if_possible (episodes : list json) : list json :=
  if List.forallb (fun e => bool_decide (is_Some (episode_of e))) episodes then isort entry_leb episodes else episodes.

Definition register_orphan_episode_entries (d : Disk) (project : dict) : dict :=
  match dict_get (u "episodes") project with
  | None | Some (JArr _) =>
      let episodes := entries_of project in
      let nums := isort Z.leb (discover_episode_files d).*1 in
      dict_set (u "episodes")
        (JArr (_sort_episodes_if_possible (append_missing d nums (known_numbers episodes) episodes))) project
  | _ => project
  end.

Definition parse_source_range (entry : dict) : option (pystr * Z * Z) :=
  match dict_get (u "source_range") entry with
  | Some (JObj r) =>
      match dict_get (u "source_file") r, dict_get (u "start") r, dict_get (u "end") r with
      | Some (JStr rel), Some (JInt a), Some (JInt b) => Some (rel, a, b)
      | _, _, _ => None
      end
  | _ => None
  end.

Definition lacks_range (entry : json) : option Z :=
  match entry with
  | JObj e =>
      match episode_of entry with
      | Some num => match parse_source_range e with None => Some num | Some _ => None end
      | None => None
      end
  | _ => None
  end.

Definition episodes_without_source_range (project : dict) : list Z :=
  isort Z.leb (remove_dups (omap lacks_range (entries_of project))).
End ledger.

(** ** Names and numbers *)

Lemma span_digits_codes d r : nondigit_head r -> span_digits (uint_codes d ++ r) = (uint_codes d, r).
Proof.
  intros Hr. induction d as [|d IH|d IH|d IH|d IH|d IH|d IH|d IH|d IH|d IH|d IH]; cbn [uint_codes app]; [|by cbn; rewrite IH..].
  destruct r as [|c r]; [done|]. cbn in *. by rewrite Hr.
Qed.

Lemma uint_codes_nil d : uint_codes d = [] -> d = Decimal.Nil.
Proof. by destruct d. Qed.

Lemma dumps_int_codes n : (0 <= n)%Z -> dumps_int n = uint_codes (N.to_uint (Z.to_N n)).
Proof. by destruct n. Qed.

(** The number of a canonical name is read back. *)
Lemma match_episode_canonical suffix n : (0 <= n)%Z -> nondigit_head suffix ->
  match_episode suffix (u "episode_" ++ dumps_int n ++ suffix) = Some n.
Proof.
  intros Hn Hs. unfold match_episode. rewrite take_app_length', drop_app_length' by done.
  rewrite bool_decide_eq_true_2 by done. rewrite dumps_int_codes, span_digits_codes by done.
  rewrite bool_decide_eq_false_2.
  - rewrite bool_decide_eq_true_2 by done. cbn [negb andb]. rewrite codes_uint_codes, DecimalN.Unsigned.of_to, Z2N.id by done. done.
  - intros H%uint_codes_nil. destruct (to_uint_shape (Z.to_N n)) as [E|E]; rewrite H in E; done.
Qed.

Lemma episode_txt_number n : (0 <= n)%Z -> _EPISODE_FILE_RE (episode_txt n) = Some n.
Proof. intros H. by apply match_episode_canonical. Qed.

Lemma episode_txt_read n m : _EPISODE_FILE_RE (episode_txt n) = Some m -> m = n.
Proof.
  destruct (decide (0 <= n)%Z) as [H|H]; [rewrite episode_txt_number by done; congruence|].
  destruct n as [|p|p]; try lia. done.
Qed.

Lemma episode_txt_inj a b : episode_txt a = episode_txt b -> a = b.
Proof.
  unfold episode_txt. intros H%app_inv_head%app_inv_tail. rewrite <- (int_of_text_dumps a), <- (int_of_text_dumps b). by rewrite H.
Qed.

(** ** The files of the episodes *)

Definition is_alias (n : Z) (e : pystr * node) : bool :=
  bool_decide (_EPISODE_FILE_RE e.1 = Some n) && (is_file e.2 || is_symlink e.2).

Lemma aliases_get n l m : aget n (foldl add_alias m l) =
  match where_ (is_alias n) l with
  | [] => aget n m
  | found => Some (default [] (aget n m) ++ found)
  end.
Proof.
  revert m. induction l as [|e l IH]; intros m; [done|]. cbn [foldl List.filter]. rewrite IH. unfold is_alias at 2, add_alias.
  destruct (_EPISODE_FILE_RE e.1) as [k|]; [|by rewrite bool_decide_eq_false_2].
  destruct (is_file e.2 || is_symlink e.2) eqn:Ef; [|by rewrite andb_false_r].
  rewrite aget_aset. destruct (decide (k = n)) as [->|Hne].
  - rewrite !bool_decide_eq_true_2 by done. cbn [andb]. destruct (where_ _ l); [done|]. cbn [default from_option]. unfold id. by rewrite <- app_assoc.
  - rewrite !bool_decide_eq_false_2 by congruence. done.
Qed.

Lemma aliases_NoDup l m : NoDup m.*1 -> NoDup (foldl add_alias m l).*1.
Proof.
  revert m. induction l as [|e l IH]; intros m Hm; [done|]. cbn [foldl]. apply IH. unfold add_alias.
  repeat case_goal; try done. by apply aset_NoDup.
Qed.

Lemma discover_aliases_get n d : aget n (discover_episode_file_aliases d) =
  match where_ (is_alias n) (listing d) with [] => None | found => Some found end.
Proof. unfold discover_episode_file_aliases. rewrite aliases_get. by destruct (where_ _ _). Qed.

(** A number has a derived file if a file of that number can be read. *)
Lemma elem_of_episode_files n d :
  n ∈ (discover_episode_files d).*1 <->
  exists e, e ∈ source_entries d /\ _EPISODE_FILE_RE e.1 = Some n /\ is_file e.2 = true.
Proof.
  assert (NoDup (discover_episode_file_aliases d).*1) as Hnd by apply aliases_NoDup, NoDup_nil_2.
  unfold discover_episode_files. rewrite list_elem_of_fmap. split.
  - intros ([n' name] & -> & H). cbn [fst]. apply list_elem_of_omap in H as ([k paths] & Hin & Hf).
    destruct (List.find _ paths) as [e|] eqn:E; [|done]. injection Hf as <- <-. apply find_Some_elem in E as [He Hfile].
    apply (aget_elem _ _ _ Hnd) in Hin. rewrite discover_aliases_get in Hin.
    destruct (where_ _ (listing d)) eqn:Ew; [done|]. injection Hin as <-. rewrite <- Ew in He. apply elem_of_where in He as [He Ha].
    exists e. unfold listing in He. rewrite elem_of_isort in He. split; [done|]. split; [|done]. unfold is_alias in Ha. by to_prop.
  - intros (e & He & Hn & Hf). assert (e ∈ where_ (is_alias n) (listing d)) as Hin.
    { apply elem_of_where. split; [unfold listing; by rewrite elem_of_isort|]. unfold is_alias. by rewrite bool_decide_eq_true_2, Hf by done. }
    pose proof (discover_aliases_get n d) as Hg. destruct (where_ _ (listing d)) as [|x l] eqn:Ew; [by apply not_elem_of_nil in Hin|].
    destruct (List.find (fun e : pystr * node => is_file e.2) (x :: l)) as [y|] eqn:Ef;
      [|eapply find_None_elem in Ef; [|exact Hin]; cbn in Ef; congruence].
    exists (n, y.1). split; [done|]. apply list_elem_of_omap. exists (n, x :: l). split; [by apply aget_Some_elem|]. by rewrite Ef.
Qed.

(** ** What makes a source *)

Section sources.
Context (nfc : pystr -> pystr).

Definition source_entry (e : pystr * node) : bool := is_source e.1 e.2.

Lemma omap_sources l : omap (source_doc nfc) l = omap (source_doc nfc) (where_ source_entry l).
Proof.
  induction l as [|e l IH]; [done|]. cbn [omap list_omap List.filter]. unfold source_entry at 1. destruct (is_source e.1 e.2) eqn:E.
  - cbn [omap list_omap]. by rewrite IH.
  - unfold source_doc at 1. by rewrite E.
Qed.

(** Only the entries that are sources matter. *)
Lemma discover_sources_ext d d' :
  where_ source_entry (source_entries d) = where_ source_entry (source_entries d') -> discover_sources nfc d = discover_sources nfc d'.
Proof.
  intros H. unfold discover_sources, listing. rewrite (omap_sources (isort _ (source_entries d))), (omap_sources (isort _ (source_entries d'))).
  rewrite !where_isort; try (intros x y; apply str_leb_total); try (intros x y z; apply str_leb_trans). by rewrite H.
Qed.

(** Names that are never sources. *)
Definition no_source (name : pystr) : Prop := forall n, is_source name n = false.

Lemma hidden_no_source name : hidden name = true -> no_source name.
Proof. intros H n. unfold is_source. rewrite H. cbn [negb]. by rewrite andb_false_r. Qed.

Lemma episode_no_source name n : _EPISODE_FILE_RE name = Some n -> no_source name.
Proof. intros H x. unfold is_source. rewrite H. by rewrite andb_false_r. Qed.

Lemma where_adel name l : no_source name -> where_ source_entry (adel name l) = where_ source_entry l.
Proof.
  intros H. unfold adel. induction l as [|[k v] l IH]; [done|]. cbn [List.filter fst]. destruct (decide (k = name)) as [->|Hne].
  - rewrite bool_decide_eq_true_2 by done. cbn [negb]. rewrite IH. unfold source_entry. cbn [fst snd]. by rewrite H.
  - rewrite bool_decide_eq_false_2 by done. cbn [negb List.filter]. by rewrite IH.
Qed.

Lemma where_aset name v l : no_source name -> where_ source_entry (aset name v l) = where_ source_entry l.
Proof.
  intros H. assert (forall x, source_entry (name, x) = false) as Hn by (intros x; apply H).
  induction l as [|[k w] l IH]; cbn [aset List.filter]; [by rewrite Hn|]. destruct (decide (k = name)) as [->|Hne].
  - rewrite bool_decide_eq_true_2 by done. cbn [List.filter]. by rewrite !Hn.
  - rewrite bool_decide_eq_false_2 by done. cbn [List.filter]. by rewrite IH.
Qed.
End sources.

(** ** Registering orphans *)

Section registered.
Context (isdigit : N -> bool) (decimal : N -> option Z).

Notation number := (episode_of isdigit decimal).
Notation numbers := (known_numbers isdigit decimal).
Notation sort_episodes := (_sort_episodes_if_possible isdigit decimal).
Notation register := (register_orphan_episode_entries isdigit decimal).

Lemma new_entry_number d n : number (new_entry d n) = Some n.
Proof. done. Qed.

Lemma append_missing_spec d nums known episodes : exists added,
  append_missing d nums known episodes = episodes ++ map (new_entry d) added
  /\ NoDup added /\ forall n, n ∈ added <-> n ∈ nums /\ n ∉ known.
Proof.
  revert known episodes. induction nums as [|m nums IH]; intros known episodes; cbn [append_missing].
  - exists []. rewrite app_nil_r. split; [done|]. split; [constructor|]. set_solver.
  - destruct (decide (m ∈ known)) as [Hm|Hm].
    + rewrite bool_decide_eq_true_2 by done. destruct (IH known episodes) as (a & H1 & H2 & H3).
      exists a. split; [done|]. split; [done|]. intros n. rewrite H3, elem_of_cons. naive_solver.
    + rewrite bool_decide_eq_false_2 by done. destruct (IH (m :: known) (episodes ++ [new_entry d m])) as (a & H1 & H2 & H3).
      exists (m :: a). split; [rewrite H1, <- app_assoc; reflexivity|].
      split; [constructor; [rewrite H3, elem_of_cons; tauto|done]|].
      intros n. rewrite !elem_of_cons, H3, elem_of_cons. destruct (decide (n = m)); naive_solver.
Qed.

Lemma entry_leb_total a b : entry_leb isdigit decimal a b = true \/ entry_leb isdigit decimal b a = true.
Proof. unfold entry_leb. lia. Qed.

Lemma entry_leb_trans a b c :
  entry_leb isdigit decimal a b = true -> entry_leb isdigit decimal b c = true -> entry_leb isdigit decimal a c = true.
Proof. unfold entry_leb. lia. Qed.

Lemma sort_episodes_perm l : sort_episodes l ≡ₚ l.
Proof. unfold _sort_episodes_if_possible. case_goal; [apply isort_perm|done]. Qed.

Lemma sort_episodes_idem l : sort_episodes (sort_episodes l) = sort_episodes l.
Proof.
  unfold _sort_episodes_if_possible at 2 3. destruct (List.forallb _ l) eqn:E; unfold _sort_episodes_if_possible; [|by rewrite E].
  case_goal; [|done]. apply isort_id, isort_sorted; [apply entry_leb_total|apply entry_leb_trans].
Qed.

Lemma entries_of_set l project : entries_of (dict_set (u "episodes") (JArr l) project) = l.
Proof. unfold entries_of. by rewrite dict_get_set_eq. Qed.

Definition ledger_shaped (project : dict) : Prop :=
  match dict_get (u "episodes") project with None | Some (JArr _) => True | _ => False end.

Lemma register_shaped d project : ledger_shaped project ->
  register d project = dict_set (u "episodes")
    (JArr (sort_episodes (append_missing d (isort Z.leb (discover_episode_files d).*1) (numbers (entries_of project)) (entries_of project))))
    project.
Proof. unfold ledger_shaped, register_orphan_episode_entries. by repeat case_goal. Qed.

Lemma register_entries d project : ledger_shaped project -> exists added,
  entries_of (register d project) ≡ₚ entries_of project ++ map (new_entry d) added
  /\ NoDup added /\ forall n, n ∈ added <-> n ∈ (discover_episode_files d).*1 /\ n ∉ numbers (entries_of project).
Proof.
  intros Hs. rewrite register_shaped by done. rewrite entries_of_set.
  destruct (append_missing_spec d (isort Z.leb (discover_episode_files d).*1) (numbers (entries_of project)) (entries_of project))
    as (a & -> & H2 & H3).
  exists a. split; [apply sort_episodes_perm|]. split; [done|]. intros n. rewrite H3. by rewrite elem_of_isort.
Qed.

Lemma numbers_perm l l' n : l ≡ₚ l' -> n ∈ numbers l -> n ∈ numbers l'.
Proof. unfold known_numbers. rewrite !list_elem_of_omap. intros H (x & Hx & E). exists x. by rewrite <- H. Qed.

Lemma numbers_new d added : numbers (map (new_entry d) added) = added.
Proof. induction added as [|n l IH]; [done|]. cbn [map]. unfold known_numbers in *. cbn [omap list_omap]. rewrite new_entry_number. by f_equal. Qed.

Lemma numbers_app l l' : numbers (l ++ l') = numbers l ++ numbers l'.
Proof. apply omap_app. Qed.

(** Every number with a file has an entry afterwards. *)
Lemma register_covers d project n : ledger_shaped project ->
  n ∈ (discover_episode_files d).*1 -> n ∈ numbers (entries_of (register d project)).
Proof.
  intros Hs Hn. destruct (register_entries d project Hs) as (a & Hp & _ & Ha).
  eapply numbers_perm; [symmetry; exact Hp|]. rewrite numbers_app, numbers_new, elem_of_app, Ha.
  destruct (decide (n ∈ numbers (entries_of project))); auto.
Qed.

Lemma append_missing_none d nums known episodes : (forall n, n ∈ nums -> n ∈ known) -> append_missing d nums known episodes = episodes.
Proof.
  induction nums as [|m nums IH]; intros H; [done|]. cbn [append_missing]. rewrite bool_decide_eq_true_2 by (apply H; left).
  apply IH. intros n Hn. apply H. by right.
Qed.

(** Registering orphans adds exactly one entry for every number that has a
    readable file in source/ and no entry, keeps all entries and all other
    fields, and is idempotent. *)
Theorem orphans_registered d project :
  ledger_shaped project ->
  (exists added,
     entries_of (register d project) ≡ₚ entries_of project ++ map (new_entry d) added
     /\ NoDup added /\ forall n, n ∈ added <-> n ∈ (discover_episode_files d).*1 /\ n ∉ numbers (entries_of project))
  /\ (forall k, k <> u "episodes" -> dict_get k (register d project) = dict_get k project)
  /\ register d (register d project) = register d project.
Proof.
  intros Hs. split; [by apply register_entries|]. split.
  - intros k Hk. rewrite register_shaped by done. by rewrite dict_get_set_ne by congruence.
  - assert (ledger_shaped (register d project)) as Hs' by (rewrite register_shaped by done; unfold ledger_shaped; by rewrite dict_get_set_eq).
    rewrite register_shaped by done. rewrite append_missing_none.
    + rewrite (register_shaped d project) by done. rewrite entries_of_set, sort_episodes_idem. by apply dict_set_same, dict_get_set_eq.
    + intros n Hn%elem_of_isort. by apply register_covers.
Qed.
End registered.

Definition demo_disk : Disk :=
  mkDisk (Some [(u "novel.txt", File (Some (u "One. Two."))); (u "episode_2.txt", File (Some (u "Two.")))])
         false [(u "episode_2.json", true)] [] (fun _ => false) (fun _ => None).

Lemma orphans_registered_witness :
  exists added, entries_of (register_orphan_episode_entries is_digit (fun c => Some (Z.of_N c - 48)%Z) demo_disk [])
                ≡ₚ [] ++ map (new_entry demo_disk) added
    /\ 2%Z ∈ added.
Proof.
  destruct (orphans_registered is_digit (fun c => Some (Z.of_N c - 48)%Z) demo_disk [] I) as [(a & H1 & _ & H3) _].
  exists a. split; [exact H1|]. apply H3. split; [vm_compute; by left|]. vm_compute. by apply not_elem_of_nil.
Defined.
