(* ===== verification/TextMetrics.v ===== *)
(** * Reading units of a text: [lib/text_metrics.py]

    Chinese text is measured in characters, English and Vietnamese in words.
    Unicode's word characters (the class of [\w]) and lower-casing are
    arguments. *)

From S2P Require Import Prelude.

Section metrics.
Context (is_word : N -> bool) (lower : pystr -> pystr).

Inductive pattern := _ZH_UNIT_PATTERN | _LATIN_WORD_PATTERN.

Definition _pattern_for (language : option pystr) : pattern :=
  let code := lower (strip (default [] language)) in
  if bool_decide (code = u "en") || bool_decide (code = u "vi") then _LATIN_WORD_PATTERN else _ZH_UNIT_PATTERN.

Definition is_zh_unit (c : N) : bool :=
  (((13312 <=? c) && (c <=? 40959)) || ((63744 <=? c) && (c <=? 64255)) || ((12288 <=? c) && (c <=? 12351))
   || ((65280 <=? c) && (c <=? 65519)) || ((131072 <=? c) && (c <=? 205743)))%N.

Definition starts_word (s : pystr) : bool := match s with c :: _ => is_word c | [] => false end.

(** Whether a match ends with the character [c] before the rest [r]: every unit
    character is a match of its own, and a word is a longest run. *)
Definition ends_unit (p : pattern) (c : N) (r : pystr) : bool :=
  match p with
  | _ZH_UNIT_PATTERN => is_zh_unit c
  | _LATIN_WORD_PATTERN => is_word c && negb (starts_word r)
  end.

(** [match.end()] of every match of [finditer]. *)
Fixpoint unit_ends (p : pattern) (i : nat) (s : pystr) : list nat :=
  match s with
  | [] => []
  | c :: r => if ends_unit p c r then S i :: unit_ends p (S i) r else unit_ends p (S i) r
  end.

Definition count_reading_units (text : pystr) (language : option pystr) : nat :=
  if bool_decide (text = []) then 0 else length (unit_ends (_pattern_for language) 0 text).

(** The noun of the unit: a word, or a character. *)
Definition reading_unit_noun (language : option pystr) : pystr :=
  match _pattern_for language with _LATIN_WORD_PATTERN => [35789%N] | _ZH_UNIT_PATTERN => [23383%N] end.

Definition find_reading_unit_offset (text : pystr) (target_units : Z) (language : option pystr) : nat :=
  if (target_units <=? 0)%Z || bool_decide (text = []) then 0
  else default (length text) (unit_ends (_pattern_for language) 0 text !! (Z.to_nat target_units - 1)).

(** ** An offset splits the units of a text *)

Lemma unit_ends_shift p i s : unit_ends p i s = map (Nat.add i) (unit_ends p 0 s).
Proof.
  revert i. induction s as [|c r IH]; intros i; [done|]. cbn [unit_ends]. rewrite IH, (IH 1).
  case_goal; cbn [map]; rewrite map_map; [f_equal; [lia|]|]; apply map_ext; intros; lia.
Qed.

Lemma unit_ends_le p i s e : e ∈ unit_ends p i s -> i < e <= i + length s.
Proof.
  revert i. induction s as [|c r IH]; intros i; cbn [unit_ends length]; [by intros ?%not_elem_of_nil|].
  case_goal; [intros [->|H]%elem_of_cons; [lia|]|intros H]; specialize (IH _ H); lia.
Qed.

(** Cutting after the end of the [k]-th match leaves that many matches before
    the cut. *)
Lemma unit_ends_cut p i s k e :
  unit_ends p i s !! k = Some e ->
  length (unit_ends p i (take (e - i) s)) = S k
  /\ length (unit_ends p i (take (e - i) s)) + length (unit_ends p e (drop (e - i) s)) = length (unit_ends p i s).
Proof.
  revert i k. induction s as [|c r IH]; intros i k; cbn [unit_ends]; [done|].
  destruct (ends_unit p c r) eqn:Ec.
  - destruct k as [|k]; cbn [lookup list_lookup].
    + intros [= <-]. replace (S i - i) with 1 by lia. rewrite firstn_cons, skipn_cons, take_0, drop_0. cbn [unit_ends].
      assert (ends_unit p c [] = true) as -> by (destruct p; cbn in *; [done|by destruct (is_word c)]).
      cbn [length]. lia.
    + intros H. destruct (IH _ _ H) as [H1 H2]. apply list_elem_of_lookup_2, unit_ends_le in H.
      replace (e - i) with (S (e - S i)) by lia. rewrite firstn_cons, skipn_cons. cbn [unit_ends].
      assert (ends_unit p c (take (e - S i) r) = true) as ->.
      { destruct p; cbn in *; [done|]. destruct (e - S i), r; cbn in *; try done; try (by destruct (is_word c)). }
      cbn [length]. split; lia.
  - intros H. destruct (IH _ _ H) as [H1 H2]. apply list_elem_of_lookup_2, unit_ends_le in H.
    replace (e - i) with (S (e - S i)) by lia. rewrite firstn_cons, skipn_cons. cbn [unit_ends].
    assert (ends_unit p c (take (e - S i) r) = false) as ->.
    { destruct p; cbn in *; [done|]. destruct (e - S i) eqn:E0, r; cbn in *; try done; lia. }
    split; [done|lia].
Qed.

Lemma count_units_eq text language : count_reading_units text language = length (unit_ends (_pattern_for language) 0 text).
Proof. unfold count_reading_units. case_bool_decide as E; [by rewrite E|done]. Qed.

(** The offset of a number of units cuts the text into that many units and the
    rest of them, as counted by the measure itself; a text with fewer units is
    taken whole. *)
Theorem unit_offset_exact text target language :
  (0 < target)%Z ->
  let o := find_reading_unit_offset text target language in
  o <= length text
  /\ (Z.of_nat (count_reading_units text language) < target -> o = length text)%Z
  /\ (target <= Z.of_nat (count_reading_units text language) -> Z.of_nat (count_reading_units (take o text) language) = target)%Z
  /\ count_reading_units (take o text) language + count_reading_units (drop o text) language = count_reading_units text language.
Proof.
  intros Ht o. subst o. unfold find_reading_unit_offset. rewrite !count_units_eq.
  destruct (decide (text = [])) as [->|Hne]; [rewrite bool_decide_eq_true_2, orb_true_r by done; cbn; lia|].
  rewrite bool_decide_eq_false_2 by done. replace (target <=? 0)%Z with false by lia. cbn [orb].
  destruct (unit_ends _ 0 text !! _) as [e|] eqn:E; cbn [from_option]; unfold id.
  - destruct (unit_ends_cut _ _ _ _ _ E) as [H1 H2]. rewrite Nat.sub_0_r in H1, H2.
    pose proof (list_elem_of_lookup_2 _ _ _ E) as He%unit_ends_le. apply lookup_lt_Some in E.
    split; [lia|]. split; [lia|]. split; [lia|]. rewrite <- H2. f_equal. by rewrite (unit_ends_shift _ e), length_map.
  - apply lookup_ge_None in E. rewrite take_ge, drop_ge by lia. cbn [unit_ends length]. lia.
Qed.
End metrics.

Lemma unit_offset_exact_witness :
  find_reading_unit_offset (fun c => negb (c =? 32)%N) id (u "one two three") 2 (Some (u "en")) = 7
  /\ Z.of_nat (count_reading_units (fun c => negb (c =? 32)%N) id (take 7 (u "one two three")) (Some (u "en"))) = 2%Z.
Proof.
  split; [reflexivity|].
  destruct (unit_offset_exact (fun c => negb (c =? 32)%N) id (u "one two three") 2 (Some (u "en"))) as (_ & _ & H & _); [lia|].
  apply H. vm_compute. discriminate.
Defined.
