(* ===== verification/EpisodePlanner.v ===== *)
(** * Planning episodes: [lib/episode_planner.py]

    [EpisodePlanner.plan] takes a window of the source text from the planning
    cursor, has a text model divide it at anchors, and commits the division to
    the ledger together with the derived files [source/episode_N.txt].  The
    model is called once per attempt; its answers are an argument, and the
    prompt it is given is not modelled.  The project and the directory may
    change while the model works: the commit runs on a later state of both.
    Further arguments are those of the ledger, the truth of a float
    ([float_true]), and the fingerprint of a step1 file of an episode
    ([step1_fingerprint], [None] if there is none). *)

From S2P Require Import Prelude Json AssetRename EpisodeLedger TextMetrics.
From Stdlib Require Import Sorted.

(** ** Python slices with any bounds *)

Definition py_index (len : nat) (z : Z) : nat :=
  if (z <? 0)%Z then Z.to_nat (Z.of_nat len + z) else Nat.min (Z.to_nat z) len.
Definition py_slice (a b : Z) (s : pystr) : pystr :=
  let i := py_index (length s) a in take (py_index (length s) b - i) (drop i s).
Definition py_from (a : Z) (s : pystr) : pystr := drop (py_index (length s) a) s.

(** [not text.strip()] *)
Definition blank (s : pystr) : bool := bool_decide (strip s = []).

(** [x <= w * 1.2] on integers.  The product is that of floats: [w] and the
    product are rounded to 53 significant bits, half to even; the constant is
    5404319552844595 / 2^52. *)
Definition round53 (z : Z) : Z :=
  let e := (Z.log2 z - 52)%Z in
  if (e <=? 0)%Z then z
  else
    let q := Z.shiftr z e in
    let r := (z - Z.shiftl q e)%Z in
    let half := Z.shiftl 1 (e - 1) in
    let q' := if (half <? r)%Z || ((half =? r)%Z && Z.odd q) then (q + 1)%Z else q in
    Z.shiftl q' e.
Definition times_1_2 (w : Z) : Z := round53 (round53 w * 5404319552844595).
Definition le_times_1_2 (x w : Z) : result bool :=
  if (2 ^ 1024 - 2 ^ 970 <=? w)%Z then Raise OverflowError else Ok (x * 2 ^ 52 <=? times_1_2 w)%Z.

Definition DEFAULT_PLANNING_WINDOW_CHARS : Z := 30000.
Definition DEFAULT_PLANNING_MAX_EPISODES : Z := 20.
Definition _MAX_PLAN_ATTEMPTS : nat := 3.
Definition _CONTEXT_EPISODES_LIMIT : nat := 5.

(** ** The drafts of the model *)

Record EpisodeDraft := mkDraft {
  dr_title : pystr;
  dr_hook : pystr;
  dr_end_anchor : pystr;
  dr_outline : option (list pystr * option pystr)   (* story beats and teaser of a drama *)
}.

(** Why an answer is rejected. *)
Inductive Reason :=
| NotJson
| NotSchema
| AnchorMissing (idx : nat) (anchor : pystr)
| AnchorRepeated (idx times : nat) (folded : bool) (anchor : pystr)
| AnchorNotAfter (idx : nat) (anchor : pystr).

Definition keys_within (allowed : list string) (m : dict) : bool := List.forallb (fun kv => bool_decide (kv.1 ∈ map u allowed)) m.

Definition str_field (k : string) (min_length : nat) (m : dict) : option pystr :=
  match dict_get (u k) m with
  | Some (JStr s) => if min_length <=? length s then Some s else None
  | _ => None
  end.

Definition str_items (l : list json) : option (list pystr) := mapM (fun v => match v with JStr s => Some s | _ => None end) l.

(** [model_validate] of one episode. *)
Definition episode_draft (drama : bool) (v : json) : option EpisodeDraft :=
  match v with
  | JObj m =>
      if keys_within (["title"; "hook"; "end_anchor"] ++ if drama then ["story_beats"; "next_episode_teaser"] else []) m then
        match str_field "title" 1 m, str_field "hook" 1 m, str_field "end_anchor" 2 m with
        | Some t, Some h, Some a =>
            if drama then
              match dict_get (u "story_beats") m with
              | Some (JArr (b :: bs)) =>
                  match str_items (b :: bs), dict_get (u "next_episode_teaser") m with
                  | Some beats, (None | Some JNull) => Some (mkDraft t h a (Some (beats, None)))
                  | Some beats, Some (JStr s) => Some (mkDraft t h a (Some (beats, Some s)))
                  | _, _ => None
                  end
              | _ => None
              end
            else Some (mkDraft t h a None)
        | _, _, _ => None
        end
      else None
  | _ => None
  end.

Definition plan_draft (drama : bool) (v : json) : option (list EpisodeDraft) :=
  match v with
  | JObj m =>
      if keys_within ["episodes"] m then
        match dict_get (u "episodes") m with
        | Some (JArr (e :: es)) => mapM (episode_draft drama) (e :: es)
        | _ => None
        end
      else None
  | _ => None
  end.

(** [strip_json_code_fences] of [lib/text_utils.py]: an opening fence with an
    optional [json] (in any case; the long s folds to s) and a closing one. *)
Definition fence : pystr := [96%N; 96%N; 96%N].
Fixpoint skip_blanks (s : pystr) : pystr :=
  match s with c :: r => if (c =? 32)%N || (c =? 9)%N then skip_blanks r else s | [] => [] end.
Definition skip_json (s : pystr) : pystr :=
  match s with
  | j :: c :: o :: n :: r =>
      if bool_decide (j ∈ [106; 74]%N) && bool_decide (c ∈ [115; 83; 383]%N) && bool_decide (o ∈ [111; 79]%N) && bool_decide (n ∈ [110; 78]%N)
      then r else s
  | _ => s
  end.
Definition skip_newline (s : pystr) : pystr := match s with 10%N :: r => r | _ => s end.
Definition open_fence (s : pystr) : pystr :=
  if bool_decide (take 3 s = fence) then skip_newline (skip_blanks (skip_json (skip_blanks (drop 3 s)))) else s.
Definition close_fence (s : pystr) : pystr :=
  let n := length s - 3 in
  if (3 <=? length s) && bool_decide (drop n s = fence) then reverse (skip_newline (reverse (take n s))) else s.
Definition strip_json_code_fences (text : pystr) : pystr := strip (close_fence (open_fence (strip text))).

Definition _parse_draft (text : pystr) (drama : bool) : list EpisodeDraft + list Reason :=
  match loads (strip_json_code_fences text) with
  | None => inr [NotJson]
  | Some v => match plan_draft drama v with Some l => inl l | None => inr [NotSchema] end
  end.

(** ** Locating anchors *)

Definition _PUNCT_FOLD : list (N * N) :=
  [(12290, 46); (65294, 46); (65292, 44); (65281, 33); (65311, 63); (65306, 58); (65307, 59); (65288, 40); (65289, 41);
   (65374, 126); (12316, 126); (8220, 34); (8221, 34); (8216, 39); (8217, 39); (65282, 34); (65287, 39)]%N.

Definition fold_char (c : N) : N :=
  match aget c _PUNCT_FOLD with Some f => f | None => if is_space c then 32%N else c end.
Definition _fold_for_match (text : pystr) : pystr := map fold_char text.

Definition occurs_at (needle hay : pystr) (i : nat) : bool := bool_decide (take (length needle) (drop i hay) = needle).

(** [haystack.find(needle, from)] *)
Definition py_find (hay needle : pystr) (from : nat) : option nat :=
  List.find (occurs_at needle hay) (seq from (S (length hay) - from)).

Fixpoint find_loop (fuel : nat) (hay needle : pystr) (found : option nat) : list nat :=
  match fuel, found with
  | S fuel, Some i => i :: find_loop fuel hay needle (py_find hay needle (S i))
  | _, _ => []
  end.

Definition _find_all_overlapping (hay needle : pystr) : list nat :=
  if bool_decide (needle = []) then [] else find_loop (S (length hay)) hay needle (py_find hay needle 0).

Section planner.
Context (nfc : pystr -> pystr) (isdigit : N -> bool) (decimal : N -> option Z) (sha256 : pystr -> pystr).
Context (is_word : N -> bool) (lower : pystr -> pystr) (float_true : pystr -> bool).
Context (step1_fingerprint : Z -> string -> option pystr).

Notation number := (episode_of isdigit decimal).
Notation register := (register_orphan_episode_entries isdigit decimal).
Notation sources := (discover_sources nfc).
Notation fingerprints := (compute_source_fingerprints sha256).

(** Where an anchor occurs: as it stands, or else after folding; with the
    length of the match. *)
Definition locate (window anchor : pystr) : list nat * nat * bool :=
  match _find_all_overlapping window anchor with
  | [] =>
      let normalized := normalize_source_text nfc anchor in
      match _find_all_overlapping (_fold_for_match window) (_fold_for_match normalized) with
      | [] => ([], length anchor, false)
      | starts => (starts, length normalized, true)
      end
  | starts => (starts, length anchor, false)
  end.

Fixpoint resolve_loop (window : pystr) (drafts : list EpisodeDraft) (idx pos : nat) (ordering_valid : bool)
    : list Reason * list nat :=
  match drafts with
  | [] => ([], [])
  | ep :: rest =>
      let anchor := dr_end_anchor ep in
      match locate window anchor with
      | ([], _, _) =>
          let '(rs, es) := resolve_loop window rest (S idx) pos false in (AnchorMissing idx anchor :: rs, es)
      | ([start], match_len, _) =>
          let stop := start + match_len in
          if ordering_valid && (stop <=? pos)
          then let '(rs, es) := resolve_loop window rest (S idx) pos false in (AnchorNotAfter idx anchor :: rs, es)
          else let '(rs, es) := resolve_loop window rest (S idx) stop ordering_valid in (rs, stop :: es)
      | (starts, _, folded) =>
          let '(rs, es) := resolve_loop window rest (S idx) pos false in
          (AnchorRepeated idx (length starts) folded anchor :: rs, es)
      end
  end.

Definition _resolve_boundaries (window : pystr) (drafts : list EpisodeDraft) (snap_whitespace_tail : bool)
    : result (list nat + list Reason) :=
  match resolve_loop window drafts 1 0 true with
  | ([], ends) =>
      if snap_whitespace_tail then
        match last ends with
        | None => Raise IndexError
        | Some e =>
            Ok (inl (if (e <? length window) && blank (drop e window) then removelast ends ++ [length window] else ends))
        end
      else Ok (inl ends)
  | (reasons, _) => Ok (inr reasons)
  end.

(** ** Asking the model *)

Inductive Answer := Text (text : pystr) | OutputTruncated | OutputExhausted | Failed (e : exc).

(** One answer, judged. *)
Definition judge (drama : bool) (window : pystr) (snap : bool) (max_episodes : Z) (text : pystr)
    : result (list EpisodeDraft * list nat + list Reason) :=
  match _parse_draft text drama with
  | inr reasons => Ok (inr reasons)
  | inl all =>
      let drafts := take (Z.to_nat max_episodes) all in
      let! r := _resolve_boundaries window drafts snap in
      Ok (match r with inl ends => inl (drafts, ends) | inr reasons => inr reasons end)
  end.

(** The loop over the attempts; the prompt of an attempt carries the reasons
    for which the previous one was rejected. *)
Fixpoint ask (generate : list Reason -> nat -> Answer) (drama : bool) (window : pystr) (snap : bool) (max_episodes : Z)
    (tries attempt : nat) (failure : list Reason) : result (list EpisodeDraft * list nat) :=
  match tries with
  | O => Raise (EpisodePlanningError "attempts")
  | S tries =>
      match generate failure attempt with
      | OutputTruncated => Raise (EpisodePlanningError "truncated")
      | OutputExhausted => Raise (EpisodePlanningError "exhausted")
      | Failed e => Raise e
      | Text text =>
          let! r := judge drama window snap max_episodes text in
          match r with
          | inl x => Ok x
          | inr reasons => ask generate drama window snap max_episodes tries (S attempt) reasons
          end
      end
  end.

Definition _request_validated_drafts (generator : option (list Reason -> nat -> Answer)) (max_attempts : nat)
    (drama : bool) (window : pystr) (snap : bool) (max_episodes : Z) : result (list EpisodeDraft * list nat) :=
  match generator with
  | None => Raise RuntimeError
  | Some generate => ask generate drama window snap max_episodes max_attempts 1 []
  end.

(** ** Reading the ledger and the sources *)

(** [project.get("episodes") or []], iterated over. *)
Definition iter_episodes (project : dict) : result (list json) :=
  match dict_get (u "episodes") project with
  | Some (JArr l) => Ok l
  | Some (JObj m) => Ok (map (fun kv => JStr kv.1) m)
  | Some (JStr s) => Ok (map (fun c => JStr [c]) s)
  | v => if py_bool float_true v then Raise TypeError else Ok []
  end.

Definition _language_of (project : dict) : option pystr :=
  match dict_get (u "source_language") project with Some (JStr s) => Some s | _ => None end.

Definition _setting_int (project : dict) (key : string) (dflt : Z) : Z :=
  match dict_get (u key) project with
  | Some (JInt v) => if (1 <=? v)%Z then v else dflt
  | _ => dflt
  end.

Definition is_drama (project : dict) : bool :=
  match dict_get (u "content_mode") project with Some (JStr s) => bool_decide (s = u "drama") | _ => false end.

Definition count_planned_of (episodes : list json) : nat := length (omap number episodes).
Definition _count_planned_episodes (project : dict) : result nat :=
  let! l := iter_episodes project in Ok (count_planned_of l).

(** The last episodes with a recorded range, in the order of their numbers. *)
Definition anchored_entry (e : json) : option (Z * json) :=
  match e, number e with
  | JObj m, Some n => match dict_get (u "source_range") m with Some (JObj _) => Some (n, e) | _ => None end
  | _, _ => None
  end.
Definition _context_entries (project : dict) : result (list json) :=
  let! l := iter_episodes project in
  let anchored := isort (fun a b : Z * json => (a.1 <=? b.1)%Z) (omap anchored_entry l) in
  Ok (drop (length anchored - _CONTEXT_EPISODES_LIMIT) anchored).*2.

Definition _check_source_ranges (project : dict) : result unit :=
  if bool_decide (episodes_without_source_range isdigit decimal project = []) then Ok tt
  else Raise (EpisodePlanningError "missing_source_range").

Definition _check_source_fingerprints (project : dict) (docs : list SourceDoc) : result unit :=
  if bool_decide (mismatched_source_fingerprints sha256 (dict_get SOURCE_FINGERPRINTS_KEY project) docs = [])
  then Ok tt else Raise (EpisodePlanningError "source_changed").

(** [safe_join] and [read_text]. *)
Definition plain_name (rel : pystr) : option pystr :=
  let name := drop 7 rel in
  if bool_decide (take 7 rel = u "source/") && negb (bool_decide (name = [])) && negb (bool_decide (47%N ∈ name))
     && negb (bool_decide (name = u ".")) && negb (bool_decide (name = u ".."))
  then Some name else None.

Definition file_at (d : Disk) (rel : pystr) : option (option pystr) :=
  match plain_name rel with
  | Some name =>
      if d_source_link d then d_elsewhere d rel
      else match aget name (source_entries d) with
           | Some (File t) | Some (Link (Some t) true) => Some t
           | _ => None
           end
  | None => d_elsewhere d rel
  end.

Definition _load_normalized_source (d : Disk) (rel : pystr) : result pystr :=
  match file_at d rel with
  | Some (Some t) => Ok (normalize_source_text nfc t)
  | _ => Raise (EpisodePlanningError "unreadable_source")
  end.

(** The sources after the first one of a name. *)
Fixpoint sources_after (rel : pystr) (l : list SourceDoc) : list SourceDoc :=
  match l with
  | [] => []
  | doc :: l => if bool_decide (rel_path doc = rel) then l else sources_after rel l
  end.

Definition _next_source_rel (d : Disk) (rel : pystr) : option pystr :=
  match sources_after rel (sources d) with doc :: _ => Some (rel_path doc) | [] => None end.

(** The end of the range of an entry, as far as the planner trusts it. *)
Definition anchored_end (e : json) : option (Z * (pystr * Z)) :=
  match e, number e with
  | JObj m, Some n =>
      match dict_get (u "source_range") m with
      | Some (JObj r) =>
          match dict_get (u "source_file") r, dict_get (u "end") r with
          | Some (JStr rel), Some (JInt b) => Some (n, (rel, b))
          | _, _ => None
          end
      | _ => None
      end
  | _, _ => None
  end.

(** The end of the entry with the greatest number, the first of equals. *)
Definition later (best : option (Z * (pystr * Z))) (x : Z * (pystr * Z)) : option (Z * (pystr * Z)) :=
  match best with
  | Some b => if (b.1 <? x.1)%Z then Some x else best
  | None => Some x
  end.
Definition last_anchored (episodes : list json) : option (pystr * Z) :=
  snd <$> foldl later None (omap anchored_end episodes).

Definition cursor_of (project : dict) : option (pystr * Z) :=
  match dict_get (u "planning_cursor") project with
  | Some (JObj c) =>
      match dict_get (u "source_file") c, dict_get (u "offset") c with
      | Some (JStr rel), Some (JInt o) => if (0 <=? o)%Z then Some (rel, o) else None
      | _, _ => None
      end
  | _ => None
  end.

Fixpoint index_of (rel : pystr) (l : list SourceDoc) : option nat :=
  match l with
  | [] => None
  | doc :: l => if bool_decide (rel_path doc = rel) then Some 0 else S <$> index_of rel l
  end.

Definition _effective_start (d : Disk) (project : dict) : result (pystr * Z) :=
  let! episodes := iter_episodes project in
  match last_anchored episodes, cursor_of project with
  | Some last, Some cur =>
      if bool_decide (cur.1 = last.1) then Ok (last.1, Z.max last.2 cur.2)
      else
        Ok (match index_of last.1 (sources d), index_of cur.1 (sources d) with
            | None, Some _ => cur
            | None, None => last
            | Some _, None => last
            | Some l, Some c => if c <? l then last else cur
            end)
  | Some last, None => Ok last
  | None, Some cur => Ok cur
  | None, None =>
      match sources d with
      | doc :: _ => Ok (rel_path doc, 0%Z)
      | [] => Raise (EpisodePlanningError "no_source")
      end
  end.

(** ** Derived files *)

Definition set_file (name : pystr) (text : pystr) (d : Disk) : result unit * Disk :=
  match aget name (source_entries d) with
  | Some Folder => (Raise OSError, d)
  | _ => (Ok tt, with_source (aset name (File (Some text)) (source_entries d)) d)
  end.

Fixpoint write_all (writes : list (Z * pystr)) (d : Disk) : result unit * Disk :=
  match writes with
  | [] => (Ok tt, d)
  | (num, text) :: rest =>
      match set_file (episode_txt num) text d with
      | (Ok _, d') => write_all rest d'
      | r => r
      end
  end.

(** What is to be written for each entry of the ledger, with the cache of
    source texts. *)
Definition planned_write (d : Disk) (cache : list (pystr * pystr)) (e : json)
    : result (option (Z * pystr) * list (pystr * pystr)) :=
  match e, number e with
  | JObj m, Some num =>
      match parse_source_range m with
      | None => Raise (EpisodePlanningError "bad_range")
      | Some (rel, a, b) =>
          let! text := match aget rel cache with Some t => Ok t | None => _load_normalized_source d rel end in
          if negb ((0 <=? a)%Z && (a <=? b)%Z && (b <=? Z.of_nat (length text))%Z) then Raise (EpisodePlanningError "range_out_of_bounds")
          else if bool_decide (is_symlink <$> aget (episode_txt num) (source_entries d) = Some true)
          then Raise (EpisodePlanningError "derived_link")
          else Ok (Some (num, py_slice a b text), match aget rel cache with Some _ => cache | None => aset rel text cache end)
      end
  | _, _ => Ok (None, cache)
  end.

Fixpoint planned_writes (d : Disk) (cache : list (pystr * pystr)) (episodes : list json) : result (list (Z * pystr)) :=
  match episodes with
  | [] => Ok []
  | e :: rest =>
      let! r := planned_write d cache e in
      let! ws := planned_writes d r.2 rest in
      Ok (match r.1 with Some w => w :: ws | None => ws end)
  end.

Definition unlink (name : pystr) (d : Disk) : Disk := with_source (adel name (source_entries d)) d.

Definition drop_remaining (d : Disk) : Disk :=
  if bool_decide (is_file <$> aget (u "_remaining.txt") (source_entries d) = Some true) then unlink (u "_remaining.txt") d else d.

Definition _reconcile_derived_files (d : Disk) (project : dict) (cache : list (pystr * pystr)) : result unit * Disk :=
  if d_source_link d then (Raise (EpisodePlanningError "source_link"), d)
  else
    match iter_episodes project with
    | Raise e => (Raise e, d)
    | Ok episodes =>
        match planned_writes d cache episodes with
        | Raise e => (Raise e, d)
        | Ok writes =>
            let keep := omap number episodes in
            match write_all writes (with_source (source_entries d) d) with
            | (Raise e, d1) => (Raise e, d1)
            | (Ok _, d1) =>
                let d2 := foldl (fun d' '(num, name) => if bool_decide (num ∈ keep) then d' else unlink name d') d1 (discover_episode_files d1) in
                (Ok tt, drop_remaining d2)
            end
        end
    end.

(** ** Sizes of the episodes *)

Record LedgerStats := mkStats {
  total_episodes : nat;
  smallest : list (Z * nat);
  median_units : option nat;
  target_units : option Z
}.

(** [int(round(statistics.median(values)))] of sorted values: the mean of the
    two middle values is rounded to even. *)
Definition round_half_even (s : nat) : nat :=
  if Nat.even s then s / 2 else if Nat.even (s / 2) then s / 2 else s / 2 + 1.
Definition median (values : list nat) : option nat :=
  let n := length values in
  if n =? 0 then None
  else if Nat.odd n then values !! (n / 2)
  else match values !! (n / 2 - 1), values !! (n / 2) with Some a, Some b => Some (round_half_even (a + b)) | _, _ => None end.

Fixpoint units_by_episode (d : Disk) (language : option pystr) (episodes : list json) (m : list (Z * nat)) : list (Z * nat) :=
  match episodes with
  | [] => m
  | e :: rest =>
      units_by_episode d language rest
        (match e, number e with
         | JObj o, Some num =>
             match parse_source_range o with
             | Some (rel, a, b) =>
                 match _load_normalized_source d rel with
                 | Ok text =>
                     if (0 <=? a)%Z && (a <=? b)%Z && (b <=? Z.of_nat (length text))%Z
                     then aset num (count_reading_units is_word lower (py_slice a b text) language) m else m
                 | Raise _ => m
                 end
             | None => m
             end
         | _, _ => m
         end)
  end.

Definition units_leb (a b : Z * nat) : bool := (a.2 <? b.2) || ((a.2 =? b.2) && (a.1 <=? b.1)%Z).

Definition _compute_ledger_stats (d : Disk) (project : dict) : result LedgerStats :=
  let! episodes := iter_episodes project in
  let units := units_by_episode d (_language_of project) episodes [] in
  Ok (mkStats (count_planned_of episodes) (take 5 (isort units_leb units)) (median (isort Nat.leb units.*2))
        (match dict_get (u "episode_target_units") project with Some (JInt t) => if (1 <=? t)%Z then Some t else None | _ => None end)).

(** ** The commit *)

(** [script_review.step1_path]: the step1 file of the project's variant. *)
Definition step1_file (project : dict) : result (option string) :=
  match dict_get (u "content_mode") project with
  | Some (JStr s) =>
      if bool_decide (s = u "drama") || bool_decide (s = u "narration") then
        Ok (Some (match dict_get (u "generation_mode") project with
                  | Some (JStr g) => if bool_decide (g = u "reference_video") then "step1_reference_units.json"
                                     else if bool_decide (s = u "drama") then "step1_normalized_script.json" else "step1_segments.json"
                  | _ => if bool_decide (s = u "drama") then "step1_normalized_script.json" else "step1_segments.json"
                  end))
      else Ok None
  | Some (JArr _) | Some (JObj _) => Raise TypeError
  | _ => Ok None
  end.

Definition json_opt (s : option pystr) : json := match s with Some t => JStr t | None => JNull end.

Definition range_json (rel : pystr) (a b : Z) : json :=
  JObj [(u "source_file", JStr rel); (u "start", JInt a); (u "end", JInt b)].

Definition _ledger_entry_from_draft (draft : EpisodeDraft) (num : Z) (source_rel : pystr) (a b : Z) (status : string) : dict :=
  [(u "episode", JInt num);
   (u "title", JStr (dr_title draft));
   (u "script_file", JStr (episode_script_relpath num));
   (u "source_range", range_json source_rel a b);
   (u "hook", JStr (dr_hook draft));
   (u "ledger_status", JStr (u status))]
  ++ match dr_outline draft with
     | Some (beats, teaser) =>
         [(u "outline", JObj [(u "story_beats", JArr (map JStr beats)); (u "next_episode_teaser", json_opt teaser)])]
     | None => []
     end.

(** An episode that already has products starts as stale, with the fingerprint
    of the step1 file it had. *)
Definition planned_entry (d : Disk) (project : dict) (draft : EpisodeDraft) (num : Z) (source_rel : pystr) (a b : Z)
    : result (dict * bool) :=
  let entry := _ledger_entry_from_draft draft num source_rel a b "planned" in
  if has_downstream_products d num entry then
    let! file := step1_file project in
    Ok (dict_set (u "stale_step1_revision") (match file with Some f => json_opt (step1_fingerprint num f) | None => JNull end)
          (dict_set (u "ledger_status") (JStr (u "stale")) entry), true)
  else Ok (entry, false).

Record EpisodePlanSummary := mkSummary {
  su_episode : Z;
  su_title : pystr;
  su_hook : pystr;
  su_reading_units : nat;
  su_ledger_status : string
}.

Fixpoint planned_entries (d : Disk) (project : dict) (source_rel text : pystr) (start prev num : Z)
    (drafts : list EpisodeDraft) (ends : list nat) : result (list (dict * bool) * list EpisodePlanSummary) :=
  match drafts, ends with
  | [], [] => Ok ([], [])
  | draft :: drafts, rel_end :: ends =>
      let abs_end := (start + Z.of_nat rel_end)%Z in
      let! entry := planned_entry d project draft num source_rel prev abs_end in
      let! rest := planned_entries d project source_rel text start abs_end (num + 1)%Z drafts ends in
      Ok (entry :: rest.1,
          mkSummary num (dr_title draft) (dr_hook draft)
            (count_reading_units is_word lower (py_slice prev abs_end text) (_language_of project))
            (if entry.2 then "stale" else "planned") :: rest.2)
  | _, _ => Raise ValueError
  end.

Definition next_number (episodes : list json) : Z := (foldr Z.max 0 (omap number episodes) + 1)%Z.

(** What [plan] has read before the model is called. *)
Record Request := mkRequest {
  rq_start_ref : pystr * Z;
  rq_source : pystr;
  rq_start : Z;
  rq_text : pystr;
  rq_window : pystr;
  rq_final : bool;
  rq_drama : bool;
  rq_max_episodes : Z;
  rq_fingerprints : list (pystr * pystr)
}.

Record PlanResult := mkPlanResult {
  pr_episodes : list EpisodePlanSummary;
  pr_cursor : option json;
  pr_source_exhausted : bool;
  pr_stale_episodes : list Z;
  pr_total_planned : nat;
  pr_ledger_stats : option LedgerStats
}.

Definition changed_fingerprints (used current : list (pystr * pystr)) : list pystr :=
  isort str_leb (omap (fun '(rel, fp) => if bool_decide (aget rel current = Some fp) then None else Some rel) used).

Definition fingerprints_json (m : list (pystr * pystr)) : json := JObj (map (fun '(k, v) => (k, JStr v)) m).

Definition is_null (v : json) : bool := match v with JNull => true | _ => false end.

(** The mutation the planner runs under the project's lock. *)
Definition _commit (rq : Request) (drafts : list EpisodeDraft) (ends : list nat) (project : dict) (d : Disk)
    : result (dict * list EpisodePlanSummary * list Z * bool) * Disk :=
  let p := register d project in
  match (let! _ := _check_source_ranges p in
         let! start := _effective_start d p in
         let! _ := if bool_decide (start = rq_start_ref rq) then Ok tt else Raise PlanningConflictError in
         let! _ := _check_source_fingerprints p (sources d) in
         let current := fingerprints (sources d) in
         let! _ := if bool_decide (changed_fingerprints (rq_fingerprints rq) current = []) then Ok tt
                   else Raise (EpisodePlanningError "source_changed") in
         let! all := iter_episodes p in
         let old := where_ (fun e => negb (is_null e)) all in
         let! new := planned_entries d p (rq_source rq) (rq_text rq) (rq_start rq) (rq_start rq) (next_number old) drafts ends in
         let! last_end := match last ends with Some e => Ok e | None => Raise IndexError end in
         let p1 := dict_set (u "episodes") (JArr (_sort_episodes_if_possible isdigit decimal (old ++ map JObj new.1.*1))) p in
         let p2 := dict_set (u "planning_cursor")
                     (JObj [(u "source_file", JStr (rq_source rq)); (u "offset", JInt (rq_start rq + Z.of_nat last_end))]) p1 in
         Ok (dict_set SOURCE_FINGERPRINTS_KEY (fingerprints_json current) p2, new, last_end)) with
  | Raise e => (Raise e, d)
  | Ok (p3, new, last_end) =>
      match _reconcile_derived_files d p3 [(rq_source rq, rq_text rq)] with
      | (Raise e, d') => (Raise e, d')
      | (Ok _, d') =>
          let exhausted := rq_final rq && blank (py_from (rq_start rq + Z.of_nat last_end) (rq_text rq))
                           && bool_decide (_next_source_rel d' (rq_source rq) = None) in
          (Ok (p3, new.2, omap (fun s => if bool_decide (su_ledger_status s = "stale") then Some (su_episode s) else None) new.2, exhausted), d')
      end
  end.

(** ** Before the model is called *)

Definition text_of (rel : pystr) (docs : list SourceDoc) : option pystr :=
  doc_text <$> List.find (fun doc => bool_decide (rel_path doc = rel)) docs.

(** Skip sources of which only white space is left. *)
Fixpoint skip_blank_sources (rest : list SourceDoc) : option SourceDoc :=
  match rest with
  | [] => None
  | doc :: rest => if blank (doc_text doc) then skip_blank_sources rest else Some doc
  end.

(** The text at the start, and the fingerprints that have been used. *)
Definition start_text (d : Disk) (rel : pystr) : result (pystr * list (pystr * pystr)) :=
  let used := fingerprints (sources d) in
  match text_of rel (sources d) with
  | Some t => Ok (t, used)
  | None => let! t := _load_normalized_source d rel in Ok (t, aset rel (sha256 t) used)
  end.

Definition window_of (project : dict) (start_ref : pystr * Z) (source : pystr) (start : Z) (text : pystr) (used : list (pystr * pystr))
    : result Request :=
  let window_chars := _setting_int project "planning_window_chars" DEFAULT_PLANNING_WINDOW_CHARS in
  let len := Z.of_nat (length text) in
  let! whole := le_times_1_2 (len - start) window_chars in
  let window_end := if whole then len else (start + window_chars)%Z in
  Ok (mkRequest start_ref source start text (py_slice start window_end text) (len <=? window_end)%Z (is_drama project)
        (_setting_int project "planning_max_episodes" DEFAULT_PLANNING_MAX_EPISODES) used).

(** The request, or the fingerprints used if every source is planned. *)
Definition prepare_plan (project : dict) (d : Disk) : result (dict * (Request + list (pystr * pystr))) :=
  let p := register d project in
  let! _ := _check_source_ranges p in
  let! _ := _check_source_fingerprints p (sources d) in
  let! start := _effective_start d p in
  let! tu := start_text d start.1 in
  if (Z.of_nat (length tu.1) <? start.2)%Z then Raise (EpisodePlanningError "start_out_of_bounds")
  else if negb (blank (py_from start.2 tu.1)) then
    let! rq := window_of p start start.1 start.2 tu.1 tu.2 in Ok (p, inl rq)
  else
    match skip_blank_sources (sources_after start.1 (sources d)) with
    | Some doc => let! rq := window_of p start (rel_path doc) 0 (doc_text doc) tu.2 in Ok (p, inl rq)
    | None => Ok (p, inr tu.2)
    end.

Definition _backfill_source_fingerprints_if_missing (p : dict) (used : list (pystr * pystr)) (project : dict) (d : Disk)
    : result (dict * option dict) :=
  match dict_get SOURCE_FINGERPRINTS_KEY p with
  | Some JNull | None =>
      let! _ := _check_source_fingerprints project (sources d) in
      let current := fingerprints (sources d) in
      if bool_decide (changed_fingerprints used current = [])
      then let q := dict_set SOURCE_FINGERPRINTS_KEY (fingerprints_json current) project in Ok (q, Some q)
      else Raise (EpisodePlanningError "source_changed")
  | Some _ => Ok (p, None)
  end.

(** [plan], reading the state before the model call and committing on the
    state after it; the project is written back only if the call succeeds. *)
Definition plan (generator : option (list Reason -> nat -> Answer)) (max_attempts : nat) (before after : dict * Disk)
    : result PlanResult * (dict * Disk) :=
  match prepare_plan before.1 before.2 with
  | Raise e => (Raise e, after)
  | Ok (p, inr used) =>
      match _backfill_source_fingerprints_if_missing p used after.1 after.2 with
      | Raise e => (Raise e, after)
      | Ok (q, written) =>
          (let! total := _count_planned_episodes q in
           let! stats := _compute_ledger_stats after.2 q in
           Ok (mkPlanResult [] (dict_get (u "planning_cursor") q) true [] total (Some stats)), (default after.1 written, after.2))
      end
  | Ok (p, inl rq) =>
      match _request_validated_drafts generator max_attempts (rq_drama rq) (rq_window rq) (rq_final rq) (rq_max_episodes rq) with
      | Raise e => (Raise e, after)
      | Ok (drafts, ends) =>
          match _commit rq drafts ends after.1 after.2 with
          | (Raise e, d) => (Raise e, (after.1, d))
          | (Ok (q, summaries, stale, exhausted), d) =>
              (let! total := _count_planned_episodes q in
               let! stats := (if exhausted then let! s := _compute_ledger_stats d q in Ok (Some s) else Ok None) in
               Ok (mkPlanResult summaries (dict_get (u "planning_cursor") q) exhausted stale total stats), (q, d))
          end
      end
  end.
End planner.

(** ** Anchors *)

Lemma find_loop_seq hay needle k : forall a fuel,
  a + k = S (length hay) -> k <= fuel ->
  find_loop fuel hay needle (List.find (occurs_at needle hay) (seq a k)) = where_ (occurs_at needle hay) (seq a k).
Proof.
  induction k as [|k IH]; intros a fuel Ha Hf; [by destruct fuel|]. cbn [seq List.find List.filter].
  destruct (occurs_at needle hay a); [|apply IH; lia].
  destruct fuel as [|fuel]; [lia|]. cbn [find_loop]. f_equal. unfold py_find.
  replace (S (length hay) - S a) with k by lia. apply IH; lia.
Qed.

(** The loop of [find] calls collects every occurrence. *)
Lemma find_all_exact hay needle : needle <> [] ->
  _find_all_overlapping hay needle = where_ (occurs_at needle hay) (seq 0 (S (length hay))).
Proof.
  intros H. unfold _find_all_overlapping. rewrite bool_decide_eq_false_2 by done.
  unfold py_find. rewrite Nat.sub_0_r. apply find_loop_seq; lia.
Qed.

Lemma find_all_nil hay : _find_all_overlapping hay [] = [].
Proof. done. Qed.

Lemma occurs_at_bound needle hay i : occurs_at needle hay i = true -> needle <> [] -> i + length needle <= length hay.
Proof.
  intros H%bool_decide_eq_true Hn. assert (length (take (length needle) (drop i hay)) = length needle) as E by congruence.
  rewrite length_take, length_drop in E. destruct needle; [done|]. cbn [length] in *. lia.
Qed.

(** [needle] occurs at one place, and ends at [e]. *)
Definition ends_once (needle hay : pystr) (e : nat) : Prop :=
  exists s, e = s + length needle /\ forall i, occurs_at needle hay i = true <-> i = s.

Lemma find_all_once hay needle s : _find_all_overlapping hay needle = [s] ->
  ends_once needle hay (s + length needle) /\ 0 < s + length needle <= length hay.
Proof.
  destruct (decide (needle = [])) as [->|Hn]; [done|]. rewrite find_all_exact by done. intros H.
  assert (forall i, occurs_at needle hay i = true <-> i = s) as Hi.
  { intros i. split.
    - intros Ho. pose proof (occurs_at_bound _ _ _ Ho Hn).
      assert (i ∈ where_ (occurs_at needle hay) (seq 0 (S (length hay)))) as Hin by (apply elem_of_where; split; [apply elem_of_seq; lia|done]).
      rewrite H in Hin. by apply list_elem_of_singleton in Hin.
    - intros ->. assert (s ∈ where_ (occurs_at needle hay) (seq 0 (S (length hay)))) as Hin by (rewrite H; by apply list_elem_of_singleton).
      by apply elem_of_where in Hin as [_ ?]. }
  split; [by exists s|]. pose proof (occurs_at_bound _ _ _ (proj2 (Hi s) eq_refl) Hn). destruct needle; [done|]. cbn [length] in *. lia.
Qed.

Lemma find_all_none hay needle : needle <> [] -> _find_all_overlapping hay needle = [] -> forall i, occurs_at needle hay i = false.
Proof.
  intros Hn H i. destruct (occurs_at needle hay i) eqn:E; [|done]. exfalso. rewrite find_all_exact in H by done.
  eapply where_nil in H; [rewrite H in E; done|]. apply elem_of_seq. pose proof (occurs_at_bound _ _ _ E Hn). lia.
Qed.

Lemma fold_length s : length (_fold_for_match s) = length s.
Proof. apply length_map. Qed.

Section boundaries.
Context (nfc : pystr -> pystr).

(** Where a draft's anchor ends in the window: its only occurrence, or, if it
    does not occur at all, the only occurrence up to normalisation, punctuation
    width and white space. *)
Definition anchor_ends (window anchor : pystr) (e : nat) : Prop :=
  ends_once anchor window e
  \/ (forall i, anchor <> [] -> occurs_at anchor window i = false)
     /\ ends_once (_fold_for_match (normalize_source_text nfc anchor)) (_fold_for_match window) e.

Lemma locate_once window anchor s len folded : locate nfc window anchor = ([s], len, folded) ->
  anchor_ends window anchor (s + len) /\ 0 < s + len <= length window.
Proof.
  unfold locate. destruct (_find_all_overlapping window anchor) as [|x l] eqn:E.
  - destruct (_find_all_overlapping (_fold_for_match window) _) as [|y l'] eqn:E'; [done|]. intros [= -> -> <- _].
    apply find_all_once in E' as [H1 H2]. rewrite !fold_length in *. split; [|done]. right. split; [|done].
    intros i Hn. by apply find_all_none.
  - intros [= -> -> <- _]. apply find_all_once in E as [H1 H2]. split; [by left|done].
Qed.

Lemma resolve_loop_ok window drafts idx pos ends :
  resolve_loop nfc window drafts idx pos true = ([], ends) ->
  Forall2 (fun ep e => anchor_ends window (dr_end_anchor ep) e) drafts ends
  /\ StronglySorted lt (pos :: ends) /\ Forall (fun e => e <= length window) ends.
Proof.
  revert idx pos ends. induction drafts as [|ep rest IH]; intros idx pos ends; cbn [resolve_loop].
  - intros [= <-]. repeat constructor.
  - destruct (locate nfc window (dr_end_anchor ep)) as [[[|s [|s' ss]] len] folded] eqn:El.
    + by destruct (resolve_loop _ _ _ _ _ _).
    + apply locate_once in El as [Ha Hb]. cbn [andb]. destruct (s + len <=? pos) eqn:Ep; [by destruct (resolve_loop _ _ _ _ _ _)|].
      destruct (resolve_loop nfc window rest (S idx) (s + len) true) as [rs es] eqn:Er. intros [= -> <-].
      destruct (IH _ _ _ Er) as (H1 & H2 & H3). apply Nat.leb_gt in Ep.
      split; [by constructor|]. split; [|constructor; [lia|done]].
      constructor; [done|]. constructor; [done|]. inv H2. eapply Forall_impl; [done|]. cbn. lia.
    + by destruct (resolve_loop _ _ _ _ _ _).
Qed.

Lemma StronglySorted_removelast {A} (R : A -> A -> Prop) l x y :
  StronglySorted R (l ++ [x]) -> (forall z, z ∈ l -> R z x -> R z y) -> StronglySorted R (l ++ [y]).
Proof.
  induction l as [|a l IH]; cbn [app]; intros Hs Hy; [repeat constructor|]. inv Hs. constructor.
  - apply IH; [done|]. intros z Hz. apply Hy. by right.
  - rewrite Forall_app in *. destruct H2 as [Hl Hx]. inv Hx. split; [done|]. constructor; [|done]. apply Hy; [left|done].
Qed.

Lemma app_removelast {A} (l : list A) x : last l = Some x -> l = removelast l ++ [x].
Proof.
  intros H. destruct (last_Some l x) as [[l' ->] _]; [done|]. by rewrite removelast_last.
Qed.

(** What is accepted is a division of the window: as many ends as episodes,
    each after the one before, the first not empty, none behind the window,
    each where its anchor is found and nowhere else; the last one is moved to
    the end of the window only over white space, and then nothing is left. *)
Lemma resolve_boundaries_ok window drafts snap ends :
  _resolve_boundaries nfc window drafts snap = Ok (inl ends) ->
  length ends = length drafts
  /\ StronglySorted lt (0 :: ends) /\ Forall (fun e => e <= length window) ends
  /\ exists found, Forall2 (fun ep e => anchor_ends window (dr_end_anchor ep) e) drafts found
       /\ (ends = found
           \/ snap = true /\ exists e, last found = Some e /\ blank (drop e window) = true /\ ends = removelast found ++ [length window]).
Proof.
  unfold _resolve_boundaries. destruct (resolve_loop nfc window drafts 1 0 true) as [[|r rs] found] eqn:E; [|done].
  apply resolve_loop_ok in E as (H1 & H2 & H3). pose proof (Forall2_length _ _ _ H1) as Hl.
  assert (length found = length drafts /\ StronglySorted lt (0 :: found) /\ Forall (fun e => e <= length window) found
          /\ exists f, Forall2 (fun ep e => anchor_ends window (dr_end_anchor ep) e) drafts f /\ (found = f \/ snap = true /\
               exists e, last f = Some e /\ blank (drop e window) = true /\ found = removelast f ++ [length window])) as Hsame
    by (split; [done|]; split; [done|]; split; [done|]; exists found; auto).
  destruct snap; [|intros H; apply Ok_inj in H; injection H as <-; exact Hsame].
  destruct (last found) as [e|] eqn:El; [|done]. intros H. apply Ok_inj in H. injection H as <-.
  destruct ((e <? length window) && blank (drop e window)) eqn:Eb; [|exact Hsame].
  apply andb_true_iff in Eb as [Ee Eb]. apply Nat.ltb_lt in Ee. pose proof (app_removelast _ _ El) as Ef.
  split; [rewrite Hl, Ef, !length_app, <- Ef; done|].
  rewrite Ef in H2, H3. apply Forall_app in H3 as [H3 _]. split; [|split].
  - rewrite app_comm_cons in *. eapply StronglySorted_removelast; [exact H2|]. intros z _ ?. lia.
  - apply Forall_app. split; [done|]. by repeat constructor.
  - exists found. split; [done|]. right. split; [done|]. by exists e.
Qed.
End boundaries.

(** ** Numbers and ranges of entries *)

Section views.
Context (isdigit : N -> bool) (decimal : N -> option Z).
Notation number := (episode_of isdigit decimal).

Definition range_of (e : json) : option (pystr * Z * Z) := match e with JObj m => parse_source_range m | _ => None end.
Definition view (e : json) : option Z * option (pystr * Z * Z) := (number e, range_of e).

(** Entries with consecutive numbers and the given ranges. *)
Fixpoint numbered (n : Z) (rs : list (pystr * Z * Z)) : list (option Z * option (pystr * Z * Z)) :=
  match rs with [] => [] | r :: rs => (Some n, Some r) :: numbered (n + 1) rs end.

(** The ranges between consecutive ends. *)
Fixpoint slices (rel : pystr) (start prev : Z) (ends : list nat) : list (pystr * Z * Z) :=
  match ends with
  | [] => []
  | e :: ends => (rel, prev, start + Z.of_nat e)%Z :: slices rel start (start + Z.of_nat e)%Z ends
  end.

Lemma numbered_app n a b : numbered n (a ++ b) = numbered n a ++ numbered (n + Z.of_nat (length a)) b.
Proof.
  revert n. induction a as [|r a IH]; intros n; cbn [numbered app length]; [by rewrite Z.add_0_r|].
  rewrite IH. do 3 f_equal. lia.
Qed.

Lemma numbered_length n rs : length (numbered n rs) = length rs.
Proof. revert n. induction rs as [|r rs IH]; intros n; [done|]. cbn [numbered length]. by rewrite IH. Qed.

Lemma elem_of_numbered n rs v : v ∈ numbered n rs -> exists k r, v = (Some k, Some r) /\ (n <= k < n + Z.of_nat (length rs))%Z.
Proof.
  revert n. induction rs as [|r rs IH]; intros n; cbn [numbered length]; [by intros ?%not_elem_of_nil|].
  intros [->|H]%elem_of_cons; [exists n, r; split; [done|lia]|]. destruct (IH _ H) as (k & r' & -> & Hk). exists k, r'. split; [done|lia].
Qed.

Lemma slices_last rel start prev ends e : last ends = Some e -> exists prev',
  last (slices rel start prev ends) = Some (rel, prev', start + Z.of_nat e)%Z.
Proof.
  revert prev. induction ends as [|x [|y ends] IH]; intros prev; [done| |].
  - intros [= <-]. by exists prev.
  - intros H. apply (IH (start + Z.of_nat x)%Z H).
Qed.

Lemma slices_length rel start prev ends : length (slices rel start prev ends) = length ends.
Proof. revert prev. induction ends as [|e ends IH]; intros prev; [done|]. cbn [slices length]. by rewrite IH. Qed.

Lemma last_numbered n rs r : last rs = Some r -> last (numbered n rs) = Some (Some (n + Z.of_nat (length rs) - 1)%Z, Some r).
Proof.
  revert n. induction rs as [|x [|y rs] IH]; intros n; [done| |].
  - intros [= ->]. cbn [numbered last length]. do 3 f_equal. lia.
  - intros H. change (last (numbered n (x :: y :: rs))) with (last (numbered (n + 1) (y :: rs))). rewrite IH by done.
    do 3 f_equal. cbn [length]. lia.
Qed.

Lemma omap_number_view l : omap number l = omap fst (map view l).
Proof. induction l as [|e l IH]; [done|]. cbn [map omap list_omap fst view]. by rewrite IH. Qed.

Lemma next_number_gt l e n : e ∈ l -> number e = Some n -> (n < next_number isdigit decimal l)%Z.
Proof.
  unfold next_number. intros He Hn. assert (n ∈ omap number l) as H by (apply list_elem_of_omap; eauto). clear He Hn.
  revert H. induction (omap number l) as [|x k IH]; [by intros ?%not_elem_of_nil|]. cbn [foldr]. intros [->|H]%elem_of_cons; [lia|].
  specialize (IH H). lia.
Qed.

Lemma next_number_numbered l rs : map view l = numbered 1 rs -> next_number isdigit decimal l = (1 + Z.of_nat (length rs))%Z.
Proof.
  unfold next_number. rewrite omap_number_view. intros ->.
  assert (forall n, (0 <= n)%Z -> foldr Z.max 0%Z (omap fst (numbered n rs)) = if bool_decide (rs = []) then 0%Z else (n + Z.of_nat (length rs) - 1)%Z) as H.
  { induction rs as [|r rs IH]; intros n Hn; [done|]. cbn [numbered omap list_omap fst foldr length]. rewrite IH by lia.
    rewrite (bool_decide_eq_false_2 (r :: rs = [])) by done. case_bool_decide as E; [rewrite E; cbn; lia|lia]. }
  rewrite H by lia. case_bool_decide as E; [by rewrite E|lia].
Qed.

Lemma next_number_perm l l' : l ≡ₚ l' -> next_number isdigit decimal l = next_number isdigit decimal l'.
Proof.
  unfold next_number. intros H. f_equal. induction H as [|x l l' _ IH|x y l|l l1 l2 _ IH1 _ IH2]; [done| | |congruence].
  - cbn [omap list_omap]. destruct (number x); [|done]. cbn [foldr]. by rewrite IH.
  - cbn [omap list_omap]. destruct (number x), (number y); cbn [foldr]; lia.
Qed.

Definition present (l : list json) : list json := where_ (fun e => negb (is_null e)) l.

Lemma next_number_present l : next_number isdigit decimal (present l) = next_number isdigit decimal l.
Proof.
  unfold next_number, present. do 2 f_equal. induction l as [|e l IH]; [done|]. cbn [List.filter]. destruct e; cbn [is_null negb omap list_omap]; by rewrite <- ?IH.
Qed.

Lemma slices_snoc rel start prev ends e : exists prev',
  slices rel start prev (ends ++ [e]) = slices rel start prev ends ++ [(rel, prev', start + Z.of_nat e)%Z].
Proof.
  revert prev. induction ends as [|x ends IH]; intros prev; cbn [app slices]; [by exists prev|].
  destruct (IH (start + Z.of_nat x)%Z) as [p' ->]. by exists p'.
Qed.

(** The entry with the greatest number decides where planning resumes. *)
Lemma later_max l x best : x ∈ l \/ best = Some x ->
  (forall y, y ∈ l -> y = x \/ (y.1 < x.1)%Z) -> (forall b, best = Some b -> b = x \/ (b.1 < x.1)%Z) ->
  foldl later best l = Some x.
Proof.
  revert best. induction l as [|y l IH]; intros best Hx Hl Hb; cbn [foldl].
  - destruct Hx as [?%not_elem_of_nil|]; done.
  - assert (later best y = Some x \/ (x ∈ l /\ forall b, later best y = Some b -> b = x \/ (b.1 < x.1)%Z)) as Hstep.
    { unfold later. destruct (Hl y) as [->|Hy]; [left| |].
      - left. destruct best as [b|]; [|done]. destruct (Hb b eq_refl) as [->|Hlt]; [by rewrite Z.ltb_irrefl|].
        by rewrite (proj2 (Z.ltb_lt _ _) Hlt).
      - destruct Hx as [[->|Hx]%elem_of_cons|Hx]; [lia| |].
        + right. split; [done|]. intros b. destruct best as [b0|]; [|intros [= <-]; by right].
          destruct (b0.1 <? y.1)%Z; [intros [= <-]; by right|apply Hb].
        + left. subst best. replace (x.1 <? y.1)%Z with false; [done|]. symmetry. apply Z.ltb_ge. lia. }
    apply IH.
    + destruct Hstep as [|[]]; auto.
    + intros z Hz. apply Hl. by right.
    + destruct Hstep as [->|[_ H]]; [intros b [= <-]; by left|exact H].
Qed.

Lemma anchored_end_view e n rel a b : view e = (Some n, Some (rel, a, b)) -> anchored_end isdigit decimal e = Some (n, (rel, b)).
Proof.
  unfold view, anchored_end, range_of, parse_source_range. intros [Hn Hr]%pair_equal_spec. destruct e; try done. rewrite Hn. revert Hr.
  destruct (dict_get (u "source_range") members) as [[| | | | | |r]|]; try done.
  destruct (dict_get (u "source_file") r) as [[]|], (dict_get (u "start") r) as [[]|], (dict_get (u "end") r) as [[]|]; try done.
  by intros [= <- <- <-].
Qed.

Lemma anchored_end_number e n x : anchored_end isdigit decimal e = Some (n, x) -> number e = Some n.
Proof. unfold anchored_end. destruct e; try done. by repeat case_goal; intros [= <- _]. Qed.

Lemma last_anchored_max l r rel a b n :
  r ∈ l -> view r = (Some n, Some (rel, a, b)) ->
  (forall e m, e ∈ l -> number e = Some m -> e = r \/ (m < n)%Z) ->
  last_anchored isdigit decimal l = Some (rel, b).
Proof.
  intros Hr Hv Hall. unfold last_anchored. rewrite (later_max _ (n, (rel, b))); [done|left|..].
  - apply list_elem_of_omap. exists r. split; [done|by apply anchored_end_view with a].
  - intros y (e & He & Hy)%list_elem_of_omap. destruct y as [m x]. destruct (Hall e m He (anchored_end_number _ _ _ Hy)) as [->|Hlt].
    + left. erewrite anchored_end_view in Hy by exact Hv. congruence.
    + by right.
  - done.
Qed.
End views.

(** ** What a commit does *)

Section committed.
Context (nfc : pystr -> pystr) (isdigit : N -> bool) (decimal : N -> option Z) (sha256 : pystr -> pystr).
Context (is_word : N -> bool) (lower : pystr -> pystr) (float_true : pystr -> bool).
Context (step1_fingerprint : Z -> string -> option pystr).

Notation number := (episode_of isdigit decimal).
Notation view := (view isdigit decimal).
Notation register := (register_orphan_episode_entries isdigit decimal).
Notation sources := (discover_sources nfc).
Notation effective_start := (_effective_start nfc isdigit decimal float_true).
Notation commit := (_commit nfc isdigit decimal sha256 is_word lower float_true step1_fingerprint).
Notation planned_entries := (planned_entries is_word lower step1_fingerprint).

Lemma draft_entry_view draft num rel a b status :
  view (JObj (_ledger_entry_from_draft draft num rel a b status)) = (Some num, Some (rel, a, b)).
Proof. by destruct draft as [t h an [[bs te]|]]. Qed.

Lemma view_set k v m : k <> u "episode" -> k <> u "source_range" -> view (JObj (dict_set k v m)) = view (JObj m).
Proof.
  intros H1 H2. unfold EpisodePlanner.view, episode_of, range_of, parse_source_range. by rewrite !dict_get_set_ne by done.
Qed.

Lemma planned_entry_view d p draft num rel a b e stale :
  planned_entry step1_fingerprint d p draft num rel a b = Ok (e, stale) -> view (JObj e) = (Some num, Some (rel, a, b)).
Proof.
  unfold planned_entry. case_goal.
  - intros (f & _ & H)%bind_Ok. apply Ok_inj in H. apply pair_equal_spec in H as [<- _].
    rewrite !view_set by (intros [=]). apply draft_entry_view.
  - intros H. apply Ok_inj, pair_equal_spec in H as [<- _]. apply draft_entry_view.
Qed.

Lemma planned_entries_view d p rel text start prev num drafts ends new sums :
  planned_entries d p rel text start prev num drafts ends = Ok (new, sums) ->
  map view (map JObj new.*1) = numbered num (slices rel start prev ends).
Proof.
  revert prev num ends new sums. induction drafts as [|dr drafts IH]; intros prev num [|e ends] new sums; cbn [EpisodePlanner.planned_entries];
    try done; [intros H; apply Ok_inj in H; by injection H as <- _|].
  intros ([en st] & He & ([new' sums'] & Hr & H)%bind_Ok)%bind_Ok. apply Ok_inj, pair_equal_spec in H as [<- _]. cbn [fst].
  rewrite fmap_cons. cbn [map numbered slices fst]. rewrite (planned_entry_view _ _ _ _ _ _ _ _ _ He). f_equal. by apply IH in Hr.
Qed.

(** No entry lacks its range: so registering has added none, and every file of
    an episode belongs to an entry. *)
Lemma checked_ranges p : _check_source_ranges isdigit decimal p = Ok tt ->
  forall e n, e ∈ entries_of p -> number e = Some n -> exists r, range_of e = Some r.
Proof.
  unfold _check_source_ranges. case_bool_decide as H; [|done]. intros _ e n He Hn.
  unfold episodes_without_source_range in H. apply isort_nil_inv in H.
  destruct (range_of e) as [r|] eqn:Er; [by exists r|]. exfalso.
  assert (n ∈ remove_dups (omap (lacks_range isdigit decimal) (entries_of p))) as Hin; [|rewrite H in Hin; by apply not_elem_of_nil in Hin].
  apply elem_of_remove_dups, list_elem_of_omap. exists e. split; [done|]. unfold lacks_range. destruct e; try done.
  rewrite Hn. unfold range_of in Er. by rewrite Er.
Qed.

Lemma new_entry_range d n : range_of (new_entry d n) = None.
Proof. done. Qed.

Lemma register_checked d project :
  ledger_shaped project -> _check_source_ranges isdigit decimal (register d project) = Ok tt ->
  entries_of (register d project) ≡ₚ entries_of project
  /\ (forall n, n ∈ (discover_episode_files d).*1 -> n ∈ known_numbers isdigit decimal (entries_of project))
  /\ dict_get (u "episodes") (register d project) = Some (JArr (_sort_episodes_if_possible isdigit decimal (entries_of project))).
Proof.
  intros Hs Hc. destruct (register_entries isdigit decimal d project Hs) as (added & Hp & _ & Ha).
  assert (added = []) as ->.
  { destruct added as [|n added]; [done|]. exfalso. destruct (checked_ranges _ Hc (new_entry d n) n) as [r Hr]; [|done..].
    rewrite Hp, elem_of_app. right. left. }
  assert (forall n, n ∈ (discover_episode_files d).*1 -> n ∈ known_numbers isdigit decimal (entries_of project)) as Hk.
  { intros n Hn. destruct (decide (n ∈ known_numbers isdigit decimal (entries_of project))) as [|Hni]; [done|].
    assert (n ∈ @nil Z) as []%not_elem_of_nil by (apply Ha; done). }
  split; [by rewrite app_nil_r in Hp|]. split; [done|].
  rewrite register_shaped by done. rewrite dict_get_set_eq. do 2 f_equal. rewrite append_missing_none; [done|].
  intros n Hn%elem_of_isort. by apply Hk.
Qed.

Lemma iter_entries p l : dict_get (u "episodes") p = Some (JArr l) -> iter_episodes float_true p = Ok l.
Proof. unfold iter_episodes. by intros ->. Qed.

(** The project a commit writes. *)
Definition committed_project (rq : Request) (p : dict) (current : list (pystr * pystr)) (all : list json) (e : nat) : dict :=
  dict_set SOURCE_FINGERPRINTS_KEY (fingerprints_json current)
    (dict_set (u "planning_cursor") (JObj [(u "source_file", JStr (rq_source rq)); (u "offset", JInt (rq_start rq + Z.of_nat e))])
       (dict_set (u "episodes") (JArr (_sort_episodes_if_possible isdigit decimal all)) p)).

Lemma commit_inv rq drafts ends project d q sums stale ex d' :
  commit rq drafts ends project d = (Ok (q, sums, stale, ex), d') ->
  let p := register d project in
  let current := compute_source_fingerprints sha256 (sources d) in
  exists all new e,
    _check_source_ranges isdigit decimal p = Ok tt
    /\ effective_start d p = Ok (rq_start_ref rq)
    /\ _check_source_fingerprints sha256 p (sources d) = Ok tt
    /\ changed_fingerprints (rq_fingerprints rq) current = []
    /\ iter_episodes float_true p = Ok all
    /\ planned_entries d p (rq_source rq) (rq_text rq) (rq_start rq) (rq_start rq)
         (next_number isdigit decimal (present all)) drafts ends = Ok new
    /\ last ends = Some e
    /\ q = committed_project rq p current (present all ++ map JObj new.1.*1) e
    /\ _reconcile_derived_files nfc isdigit decimal float_true d q [(rq_source rq, rq_text rq)] = (Ok tt, d').
Proof.
  intros H p current. unfold _commit in H.
  match type of H with (match ?m with Ok _ => _ | Raise _ => _ end) = _ => destruct m as [[[p3 new] e]|] eqn:E; [|done] end.
  apply bind_Ok in E as ([] & E1 & E). apply bind_Ok in E as (st & E2 & E). apply bind_Ok in E as ([] & E3 & E).
  apply bind_Ok in E as ([] & E4 & E). apply bind_Ok in E as ([] & E5 & E). apply bind_Ok in E as (all & E6 & E).
  apply bind_Ok in E as (new' & E7 & E). apply bind_Ok in E as (e' & E8 & E). apply Ok_inj in E.
  apply pair_equal_spec in E as [E Ee]. apply pair_equal_spec in E as [Ep En]. subst p3 new' e'.
  destruct (_reconcile_derived_files _ _ _ _ _ _ _) as [[[]|] d2] eqn:Er; [|done]. apply pair_equal_spec in H as [H <-].
  apply Ok_inj in H. apply pair_equal_spec in H as [H _]. apply pair_equal_spec in H as [H _]. apply pair_equal_spec in H as [<- _].
  exists all, new, e. revert E3 E5 E8. case_bool_decide as Hst; [|done]. case_bool_decide as Hch; [|done]. destruct (last ends) as [e0|]; [|done].
  intros _ _ He. apply Ok_inj in He as <-. by rewrite <- Hst.
Qed.

(** ** The derived files agree with the ledger *)

(** The text a range refers to: the one the plan was made on, or the file. *)
Definition text_in (d : Disk) (cache : list (pystr * pystr)) (rel text : pystr) : Prop :=
  aget rel cache = Some text \/ aget rel cache = None /\ _load_normalized_source nfc d rel = Ok text.

Definition write_of (d : Disk) (cache : list (pystr * pystr)) (e : json) (w : Z * pystr) : Prop :=
  exists rel a b text, view e = (Some w.1, Some (rel, a, b)) /\ (0 <= a <= b)%Z /\ (b <= Z.of_nat (length text))%Z
    /\ w.2 = py_slice a b text /\ text_in d cache rel text.

Lemma text_in_grown d cache rel text rel' text' :
  _load_normalized_source nfc d rel = Ok text -> aget rel cache = None ->
  text_in d (aset rel text cache) rel' text' -> text_in d cache rel' text'.
Proof.
  intros Hl Hc. unfold text_in. rewrite aget_aset. destruct (decide (rel = rel')) as [->|H].
  - rewrite bool_decide_eq_true_2 by done. rewrite Hc. intros [[= <-]|[? _]]; [by right|done].
  - by rewrite bool_decide_eq_false_2 by done.
Qed.

Lemma write_of_grown d cache rel text e w :
  _load_normalized_source nfc d rel = Ok text -> aget rel cache = None ->
  write_of d (aset rel text cache) e w -> write_of d cache e w.
Proof.
  intros Hl Hc (r & a & b & t & H1 & H2 & H3 & H4 & H5). exists r, a, b, t. repeat split; try done; try lia. by eapply text_in_grown.
Qed.

Lemma planned_writes_spec d cache l ws :
  planned_writes nfc isdigit decimal d cache l = Ok ws ->
  Forall2 (fun e w => write_of d cache e w) (where_ (fun e => bool_decide (is_Some (number e))) l) ws.
Proof.
  revert cache ws. induction l as [|e l IH]; intros cache ws; cbn [planned_writes List.filter]; [intros H; apply Ok_inj in H as <-; constructor|].
  intros ([w c'] & Hw & (ws' & Hr & H)%bind_Ok)%bind_Ok. apply Ok_inj in H as <-. cbn [fst snd] in *. unfold planned_write in Hw.
  destruct e as [| | | | | |m]; try (apply Ok_inj, pair_equal_spec in Hw as [<- <-]; apply IH, Hr).
  destruct (number (JObj m)) as [n|] eqn:En; [|apply Ok_inj, pair_equal_spec in Hw as [<- <-]; apply IH, Hr].
  rewrite bool_decide_eq_true_2 by done. destruct (parse_source_range m) as [[[rel a] b]|] eqn:Ep; [|done].
  apply bind_Ok in Hw as (text & Ht & Hw).
  destruct ((0 <=? a) && (a <=? b) && (b <=? Z.of_nat (length text)))%Z eqn:Eb; cbn [negb] in Hw; [|done].
  destruct (bool_decide (_ <$> _ = _)); [done|]. apply Ok_inj, pair_equal_spec in Hw as [<- <-].
  apply andb_true_iff in Eb as [[Ea Eab]%andb_true_iff Eb].
  assert (text_in d cache rel text) as Htx by (unfold text_in; destruct (aget rel cache); [left; by apply Ok_inj in Ht as ->|by right]).
  constructor.
  - exists rel, a, b, text. cbn [fst snd]. unfold EpisodePlanner.view, range_of. rewrite En, Ep. repeat split; try done; lia.
  - destruct (aget rel cache) eqn:Ec; [by apply IH|]. eapply Forall2_impl; [apply IH, Hr|]. intros x w Hx. by eapply write_of_grown.
Qed.

Lemma write_numbers d cache l ws :
  Forall2 (fun e w => write_of d cache e w) (where_ (fun e => bool_decide (is_Some (number e))) l) ws -> ws.*1 = omap number l.
Proof.
  revert ws. induction l as [|e l IH]; intros ws; cbn [List.filter omap list_omap]; [intros H; by inv H|].
  destruct (number e) as [n|] eqn:En.
  - rewrite bool_decide_eq_true_2 by done. intros H. inv H. destruct H2 as (? & ? & ? & ? & Hv & _). rewrite fmap_cons. f_equal; [|by apply IH].
    unfold EpisodePlanner.view in Hv. rewrite En in Hv. by injection Hv.
  - rewrite bool_decide_eq_false_2 by (intros [? ?]; done). apply IH.
Qed.

Lemma write_all_get ws d d' name :
  write_all ws d = (Ok tt, d') ->
  aget name (source_entries d') =
    match List.find (fun w => bool_decide (episode_txt w.1 = name)) (reverse ws) with
    | Some w => Some (File (Some w.2))
    | None => aget name (source_entries d)
    end.
Proof.
  revert d. induction ws as [|[n t] ws IH]; intros d; cbn [write_all]; [intros H; by apply pair_equal_spec in H as [_ <-]|].
  rewrite reverse_cons, find_app. unfold set_file. intros H.
  assert (exists d1, write_all ws d1 = (Ok tt, d') /\ source_entries d1 = aset (episode_txt n) (File (Some t)) (source_entries d)) as (d1 & Hw & Hd).
  { destruct (aget (episode_txt n) (source_entries d)) as [[]|]; try done; eexists; (split; [exact H|done]). }
  rewrite (IH _ Hw). destruct (List.find _ (reverse ws)); [done|]. cbn [List.find fst]. rewrite Hd, aget_aset. by case_bool_decide.
Qed.

Lemma write_all_elem ws d d' e : write_all ws d = (Ok tt, d') -> e ∈ source_entries d' ->
  e ∈ source_entries d \/ exists w, w ∈ ws /\ e.1 = episode_txt w.1.
Proof.
  revert d. induction ws as [|[n t] ws IH]; intros d; cbn [write_all]; [intros H; apply pair_equal_spec in H as [_ <-]; by left|].
  unfold set_file. intros H He.
  assert (exists d1, write_all ws d1 = (Ok tt, d') /\ source_entries d1 = aset (episode_txt n) (File (Some t)) (source_entries d)) as (d1 & Hw & Hd).
  { destruct (aget (episode_txt n) (source_entries d)) as [[]|]; try done; eexists; (split; [exact H|done]). }
  destruct (IH _ Hw He) as [Hin|(w & Hin & Hn)]; [|right; exists w; split; [by right|done]].
  rewrite Hd in Hin. apply elem_of_aset in Hin as [Hin|Hin]; [right; exists (n, t); split; [left|done]|by left].
Qed.

Lemma write_all_rest ws d d' : write_all ws d = (Ok tt, d') ->
  d_source_link d' = d_source_link d /\ d_scripts d' = d_scripts d /\ d_drafts d' = d_drafts d
  /\ d_is_file d' = d_is_file d /\ d_elsewhere d' = d_elsewhere d.
Proof.
  revert d. induction ws as [|[n t] ws IH]; intros d; cbn [write_all]; [intros H; by apply pair_equal_spec in H as [_ <-]|].
  unfold set_file. destruct (aget _ _) as [[]|]; try done; intros H; apply (IH _ H).
Qed.

Lemma files_written ws d d1 n : write_all ws (with_source (source_entries d) d) = (Ok tt, d1) ->
  n ∈ (discover_episode_files d1).*1 -> n ∈ (discover_episode_files d).*1 \/ n ∈ ws.*1.
Proof.
  intros Hw (e & He & Hn & Hf)%elem_of_episode_files. destruct (write_all_elem _ _ _ _ Hw He) as [Hin|(w & Hin & Hname)].
  - left. apply elem_of_episode_files. exists e. done.
  - right. rewrite Hname in Hn. apply episode_txt_read in Hn as ->. apply list_elem_of_fmap. eauto.
Qed.

Lemma no_residue (keep : list Z) (files : list (Z * pystr)) d : (forall n, n ∈ files.*1 -> n ∈ keep) ->
  foldl (fun d' '(num, name) => if bool_decide (num ∈ keep) then d' else unlink name d') d files = d.
Proof.
  induction files as [|[n name] files IH]; intros H; [done|]. cbn [foldl]. rewrite bool_decide_eq_true_2 by (apply H; left).
  apply IH. intros m Hm. apply H. by right.
Qed.

Lemma reconcile_ok d q cache d' l :
  dict_get (u "episodes") q = Some (JArr l) ->
  (forall n, n ∈ (discover_episode_files d).*1 -> n ∈ omap number l) ->
  _reconcile_derived_files nfc isdigit decimal float_true d q cache = (Ok tt, d') ->
  d_source_link d = false
  /\ exists ws d1, Forall2 (write_of d cache) (where_ (fun e => bool_decide (is_Some (number e))) l) ws
       /\ write_all ws (with_source (source_entries d) d) = (Ok tt, d1) /\ d' = drop_remaining d1.
Proof.
  intros Hl Hn. unfold _reconcile_derived_files. destruct (d_source_link d); [done|]. rewrite (iter_entries _ _ Hl).
  destruct (planned_writes _ _ _ _ _ _) as [ws|] eqn:Ew; [|done]. apply planned_writes_spec in Ew.
  destruct (write_all ws _) as [[[]|] d1] eqn:E1; [|done]. intros H. apply pair_equal_spec in H as [_ <-]. split; [done|].
  exists ws, d1. split; [done|]. split; [done|]. rewrite no_residue; [done|]. intros n Hin.
  destruct (files_written _ _ _ _ E1 Hin) as [H|H]; [by apply Hn|]. by rewrite (write_numbers _ _ _ _ Ew) in H.
Qed.

Lemma committed_episodes rq p current all e :
  dict_get (u "episodes") (committed_project rq p current all e) = Some (JArr (_sort_episodes_if_possible isdigit decimal all)).
Proof. unfold committed_project. by rewrite !dict_get_set_ne, dict_get_set_eq by (intros [=]). Qed.

Lemma cursor_set rel o p : cursor_of (dict_set (u "planning_cursor") (JObj [(u "source_file", JStr rel); (u "offset", JInt o)]) p)
  = if (0 <=? o)%Z then Some (rel, o) else None.
Proof. unfold cursor_of. by rewrite dict_get_set_eq. Qed.

Lemma cursor_of_set k v p : k <> u "planning_cursor" -> cursor_of (dict_set k v p) = cursor_of p.
Proof. intros H. unfold cursor_of. by rewrite dict_get_set_ne by done. Qed.

Lemma committed_cursor rq p current all e :
  cursor_of (committed_project rq p current all e)
  = if (0 <=? rq_start rq + Z.of_nat e)%Z then Some (rq_source rq, rq_start rq + Z.of_nat e)%Z else None.
Proof. unfold committed_project. rewrite cursor_of_set by (intros [=]). apply cursor_set. Qed.

(** A commit keeps the entries there are and adds one per draft, numbered on,
    whose ranges follow one another from the start of the window to the last
    end; and planning then resumes exactly at that end, whatever files there
    are by then. *)
Lemma commit_extends rq drafts ends project d q sums stale ex d' :
  ledger_shaped project ->
  commit rq drafts ends project d = (Ok (q, sums, stale, ex), d') ->
  exists new e, last ends = Some e
    /\ entries_of q ≡ₚ present (entries_of project) ++ new
    /\ map view new = numbered (next_number isdigit decimal (entries_of project)) (slices (rq_source rq) (rq_start rq) (rq_start rq) ends)
    /\ forall d2, effective_start d2 q = Ok (rq_source rq, rq_start rq + Z.of_nat e)%Z.
Proof.
  intros Hs (all & [new sums'] & e & Hc & _ & _ & _ & Ha & Hn & He & -> & _)%commit_inv.
  destruct (register_checked d project Hs Hc) as (_ & _ & Hg). rewrite (iter_entries _ _ Hg) in Ha. apply Ok_inj in Ha as <-.
  set (l := _sort_episodes_if_possible isdigit decimal (entries_of project)) in *.
  assert (l ≡ₚ entries_of project) as Hl by apply sort_episodes_perm.
  rewrite next_number_present, (next_number_perm isdigit decimal _ _ Hl) in Hn. apply planned_entries_view in Hn. cbn [fst] in *.
  set (N := next_number isdigit decimal (entries_of project)) in *. set (fresh := map JObj new.*1) in *.
  assert (present l ≡ₚ present (entries_of project)) as Hpres by (unfold present; by rewrite Hl).
  exists fresh, e. split; [done|]. split; [|split; [done|]].
  - unfold entries_of at 1. rewrite committed_episodes. rewrite sort_episodes_perm. by rewrite Hpres.
  - intros d2. destruct (last_Some ends e) as [[es ->] _]; [done|].
    destruct (slices_snoc (rq_source rq) (rq_start rq) (rq_start rq) es e) as [a Hsl]. rewrite Hsl, numbered_app in Hn. cbn [numbered] in Hn.
    apply map_eq_app in Hn as (n1 & n2 & Hf & H1 & H2). destruct n2 as [|r [|]]; try done. injection H2 as Hnum Hran.
    assert (last_anchored isdigit decimal (_sort_episodes_if_possible isdigit decimal (present l ++ fresh))
            = Some (rq_source rq, rq_start rq + Z.of_nat e)%Z) as Hlast.
    { eapply last_anchored_max with (r := r); [|unfold EpisodePlanner.view; by rewrite Hnum, Hran|].
      - rewrite sort_episodes_perm, Hf, !elem_of_app. right. right. left.
      - intros x m Hx Hm. rewrite sort_episodes_perm, Hf, !elem_of_app in Hx. destruct Hx as [Hx|[Hx|Hx]].
        + right. rewrite Hpres in Hx. apply elem_of_where in Hx as [Hx _]. pose proof (next_number_gt _ _ _ _ _ Hx Hm). lia.
        + right. assert (view x ∈ map view n1) as Hv by (by apply list_elem_of_fmap_2). rewrite H1 in Hv.
          apply elem_of_numbered in Hv as (k & r' & Hv & Hk). unfold EpisodePlanner.view in Hv. rewrite Hm in Hv. injection Hv as -> _. lia.
        + left. by apply list_elem_of_singleton in Hx. }
    unfold _effective_start. rewrite (iter_entries _ _ (committed_episodes _ _ _ _ _)). cbn [bind]. rewrite Hlast.
    rewrite committed_cursor. destruct (0 <=? _)%Z; [|done]. cbn [fst snd].
    rewrite bool_decide_eq_true_2 by done. by rewrite Z.max_id.
Qed.

(** *** Files after a commit *)

Lemma drop_remaining_get d name : name <> u "_remaining.txt" ->
  aget name (source_entries (drop_remaining d)) = aget name (source_entries d).
Proof.
  intros H. unfold drop_remaining. case_bool_decide; [|done]. unfold unlink. rewrite source_entries_with, aget_adel. by rewrite bool_decide_eq_false_2.
Qed.

Lemma drop_remaining_elem d e : e ∈ source_entries (drop_remaining d) -> e ∈ source_entries d.
Proof.
  unfold drop_remaining. case_bool_decide; [|done]. unfold unlink. rewrite source_entries_with. unfold adel. by intros [? _]%elem_of_where.
Qed.

Lemma files_dropped d n : n ∈ (discover_episode_files (drop_remaining d)).*1 -> n ∈ (discover_episode_files d).*1.
Proof. rewrite !elem_of_episode_files. intros (e & He & H). exists e. split; [by apply drop_remaining_elem|done]. Qed.

Lemma Forall2_elem_l {A B} (P : A -> B -> Prop) l k x : Forall2 P l k -> x ∈ l -> exists y, y ∈ k /\ P x y.
Proof. intros H [i Hi]%list_elem_of_lookup. destruct (Forall2_lookup_l _ _ _ _ _ H Hi) as (y & Hy & HP). exists y. split; [by eapply list_elem_of_lookup_2|done]. Qed.

Lemma written_file ws d d1 w : write_all ws d = (Ok tt, d1) -> NoDup ws.*1 -> w ∈ ws ->
  aget (episode_txt w.1) (source_entries d1) = Some (File (Some w.2)).
Proof.
  intros Hw Hnd Hin. rewrite (write_all_get _ _ _ _ Hw). destruct (List.find _ (reverse ws)) as [w'|] eqn:Ef.
  - apply find_Some_elem in Ef as [Hin' Hn%bool_decide_eq_true]. rewrite elem_of_reverse in Hin'. apply episode_txt_inj in Hn.
    destruct w as [n t], w' as [n' t']. cbn [fst snd] in *. subst n'.
    apply (aget_elem n t ws Hnd) in Hin. apply (aget_elem n t' ws Hnd) in Hin'. congruence.
  - exfalso. eapply find_None_elem in Ef; [|by apply elem_of_reverse]. cbn in Ef. by rewrite bool_decide_eq_true_2 in Ef.
Qed.

Lemma commit_files rq drafts ends project d q sums stale ex d' :
  ledger_shaped project ->
  commit rq drafts ends project d = (Ok (q, sums, stale, ex), d') ->
  exists ws d1, Forall2 (write_of d [(rq_source rq, rq_text rq)]) (where_ (fun e => bool_decide (is_Some (number e))) (entries_of q)) ws
    /\ write_all ws (with_source (source_entries d) d) = (Ok tt, d1) /\ d' = drop_remaining d1
    /\ forall n, n ∈ (discover_episode_files d').*1 -> n ∈ known_numbers isdigit decimal (entries_of q).
Proof.
  intros Hs (all & [new sums'] & e & Hc & _ & _ & _ & Ha & _ & _ & -> & Hr)%commit_inv.
  destruct (register_checked d project Hs Hc) as (_ & Hk & Hg). rewrite (iter_entries _ _ Hg) in Ha. apply Ok_inj in Ha as <-.
  cbn [fst] in *.
  set (raw := present (_sort_episodes_if_possible isdigit decimal (entries_of project)) ++ map JObj new.*1) in *.
  set (l := _sort_episodes_if_possible isdigit decimal raw).
  assert (entries_of (committed_project rq (register d project) (compute_source_fingerprints sha256 (sources d)) raw e) = l) as Hl
    by (unfold entries_of; by rewrite committed_episodes).
  rewrite Hl. assert (forall n, n ∈ (discover_episode_files d).*1 -> n ∈ omap number l) as Hnum.
  { intros n Hn. specialize (Hk n Hn). unfold known_numbers in Hk. apply list_elem_of_omap in Hk as (x & Hx & Hxn).
    apply list_elem_of_omap. exists x. split; [|done]. unfold l. rewrite sort_episodes_perm. unfold raw. rewrite elem_of_app. left.
    apply elem_of_where. rewrite sort_episodes_perm. split; [done|]. by destruct x. }
  destruct (reconcile_ok _ _ _ _ l (committed_episodes _ _ _ _ _) Hnum Hr) as (_ & ws & d1 & H1 & H2 & H3).
  exists ws, d1. split; [done|]. split; [done|]. split; [done|]. subst d'. intros n Hn%files_dropped.
  destruct (files_written _ _ _ _ H2 Hn) as [H|H]; [by apply Hnum|]. rewrite (write_numbers _ _ _ _ H1) in H. exact H.
Qed.

(** After a commit every episode of the ledger has a range within its source,
    and its derived file holds exactly the text of that range; no other number
    has a derived file. *)
Theorem commit_writes_episodes rq drafts ends project d q sums stale ex d' :
  ledger_shaped project ->
  commit rq drafts ends project d = (Ok (q, sums, stale, ex), d') ->
  NoDup (known_numbers isdigit decimal (entries_of q)) ->
  (forall e n, e ∈ entries_of q -> number e = Some n ->
     exists rel a b text, range_of e = Some (rel, a, b) /\ (0 <= a <= b)%Z /\ (b <= Z.of_nat (length text))%Z
       /\ text_in d [(rq_source rq, rq_text rq)] rel text
       /\ aget (episode_txt n) (source_entries d') = Some (File (Some (py_slice a b text))))
  /\ (forall n, n ∈ (discover_episode_files d').*1 -> n ∈ known_numbers isdigit decimal (entries_of q)).
Proof.
  intros Hs Hcommit Hnd. destruct (commit_files _ _ _ _ _ _ _ _ _ _ Hs Hcommit) as (ws & d1 & H1 & H2 & H3 & H4).
  split; [|done]. intros e n He Hn.
  destruct (Forall2_elem_l _ _ _ e H1) as (w & Hw & rel & a & b & text & Hv & Hab & Hb & Ht & Hin).
  { apply elem_of_where. split; [done|]. by apply bool_decide_eq_true_2. }
  unfold EpisodePlanner.view in Hv. rewrite Hn in Hv. injection Hv as Hwn Hr. exists rel, a, b, text. repeat split; try done; try lia.
  subst d'. rewrite drop_remaining_get by (intros [=]). rewrite Hwn, <- Ht. eapply written_file; [done| |done].
  by rewrite (write_numbers _ _ _ _ H1).
Qed.

(** *** The whole call *)

Lemma ask_ok generate drama window snap max tries attempt failure drafts ends :
  ask nfc generate drama window snap max tries attempt failure = Ok (drafts, ends) ->
  length drafts <= Z.to_nat max /\ _resolve_boundaries nfc window drafts snap = Ok (inl ends).
Proof.
  revert attempt failure. induction tries as [|tries IH]; intros attempt failure; cbn [ask]; [done|].
  destruct (generate failure attempt) as [text| | |]; try done. intros (r & Hj & H)%bind_Ok.
  destruct r as [[dr en]|reasons]; [|by eapply IH]. apply Ok_inj, pair_equal_spec in H as [-> ->].
  unfold judge in Hj. destruct (_parse_draft text drama) as [all|]; [|done]. apply bind_Ok in Hj as (r & Hr & Hj).
  destruct r as [en|]; [|done]. apply Ok_inj in Hj. injection Hj as <- <-. split; [rewrite length_take; lia|done].
Qed.

Lemma unchanged_texts used current : changed_fingerprints used current = [] ->
  forall rel fp, (rel, fp) ∈ used -> aget rel current = Some fp.
Proof.
  unfold changed_fingerprints. intros H%isort_nil_inv rel fp Hin. destruct (decide (aget rel current = Some fp)) as [|Hne]; [done|]. exfalso.
  assert (rel ∈ @nil pystr) as []%not_elem_of_nil. rewrite <- H. apply list_elem_of_omap. exists (rel, fp). split; [done|].
  by rewrite bool_decide_eq_false_2.
Qed.

(** C25: A call of the planner that reaches the model divides the window it has
    prepared: the accepted ends rise strictly through the window, no more
    episodes than asked for are taken, the ledger found at the commit keeps its
    entries and gains one per draft, numbered on, with ranges that follow one
    another from the start of the window; the next call starts exactly at the
    last end; and every source read before the model was called still has the
    same fingerprint at the commit. *)
Theorem plan_extends_ledger generator attempts before after r q d' p rq :
  ledger_shaped after.1 ->
  prepare_plan nfc isdigit decimal sha256 float_true before.1 before.2 = Ok (p, inl rq) ->
  plan nfc isdigit decimal sha256 is_word lower float_true step1_fingerprint generator attempts before after = (Ok r, (q, d')) ->
  exists ends new e,
    length ends <= Z.to_nat (rq_max_episodes rq) /\ StronglySorted lt (0 :: ends) /\ Forall (fun x => x <= length (rq_window rq)) ends
    /\ last ends = Some e
    /\ entries_of q ≡ₚ present (entries_of after.1) ++ new
    /\ map view new = numbered (next_number isdigit decimal (entries_of after.1)) (slices (rq_source rq) (rq_start rq) (rq_start rq) ends)
    /\ (forall d2, effective_start d2 q = Ok (rq_source rq, rq_start rq + Z.of_nat e)%Z)
    /\ (forall rel fp, (rel, fp) ∈ rq_fingerprints rq -> aget rel (compute_source_fingerprints sha256 (sources after.2)) = Some fp).
Proof.
  intros Hs Hp Hplan. unfold plan in Hplan. rewrite Hp in Hplan.
  destruct (_request_validated_drafts _ _ _ _ _ _ _) as [[drafts ends]|] eqn:Ea; [|done].
  destruct (commit rq drafts ends after.1 after.2) as [[[[[q' sums] stale] ex]|] d2] eqn:Ec; [|done].
  apply pair_equal_spec in Hplan as [_ Hq]. apply pair_equal_spec in Hq as [-> ->].
  unfold _request_validated_drafts in Ea. destruct generator as [generate|]; [|done]. apply ask_ok in Ea as [Hmax Hb].
  apply resolve_boundaries_ok in Hb as (H1 & H2 & H3 & _).
  destruct (commit_extends _ _ _ _ _ _ _ _ _ _ Hs Ec) as (new & e & He & Hnew & Hview & Hstart).
  exists ends, new, e. split; [lia|]. do 6 (split; [done|]).
  destruct (commit_inv _ _ _ _ _ _ _ _ _ _ Ec) as (? & ? & ? & _ & _ & _ & Hch & _). by apply unchanged_texts.
Qed.
End committed.

(** ** An example *)

Definition demo_decimal (c : N) : option Z := Some (Z.of_N c - 48)%Z.
Definition demo_sources : Disk :=
  mkDisk (Some [(u "novel.txt", File (Some (u "Rain fell. The door opened. Nobody came.")))]) false [] [] (fun _ => false) (fun _ => None).
Definition demo_answer : pystr :=
  uq "{'episodes': [{'title': 'Rain', 'hook': 'who?', 'end_anchor': 'opened.'}, {'title': 'Alone', 'hook': 'why?', 'end_anchor': 'came.'}]}".
Definition demo_plan (project : dict) (d : Disk) : result PlanResult * (dict * Disk) :=
  plan id is_digit demo_decimal id is_digit id (fun _ => true) (fun _ _ => None) (Some (fun _ _ => Text demo_answer)) 3 (project, d) (project, d).

Definition demo_request : result (dict * (Request + list (pystr * pystr))) :=
  prepare_plan id is_digit demo_decimal id (fun _ => true) [] demo_sources.

Lemma plan_extends_ledger_witness :
  exists r, (demo_plan [] demo_sources).1 = Ok r /\ pr_source_exhausted r = true
    /\ exists e, _effective_start id is_digit demo_decimal (fun _ => true) demo_sources (demo_plan [] demo_sources).2.1
       = Ok (u "source/novel.txt", Z.of_nat e).
Proof.
  assert (exists r q d', demo_plan [] demo_sources = (Ok r, (q, d'))) as (r & q & d' & E) by (vm_compute; eauto).
  assert (exists p rq, demo_request = Ok (p, inl rq) /\ rq_source rq = u "source/novel.txt" /\ rq_start rq = 0%Z)
    as (p & rq & Ep & Hs & Ha) by (vm_compute; eauto 10).
  exists r. rewrite E. split; [done|]. split; [vm_compute in E; by injection E as <- _ _|].
  destruct (plan_extends_ledger id is_digit demo_decimal id is_digit id (fun _ => true) (fun _ _ => None)
              (Some (fun _ _ => Text demo_answer)) 3 ([], demo_sources) ([], demo_sources) r q d' p rq I Ep E)
    as (ends & new & e & _ & _ & _ & _ & _ & _ & Hstart & _).
  exists e. cbn [fst snd]. rewrite Hstart, Hs, Ha. by rewrite Z.add_0_l.
Defined.

Definition demo_drafts : list EpisodeDraft := [mkDraft (u "Rain") (u "who?") (u "opened.") None].

Definition demo_rq : Request :=
  match demo_request with Ok (_, inl rq) => rq | _ => mkRequest ([], 0%Z) [] 0 [] [] false false 0 [] end.
Definition demo_commit : result (dict * list EpisodePlanSummary * list Z * bool) * Disk :=
  _commit id is_digit demo_decimal id is_digit id (fun _ => true) (fun _ _ => None) demo_rq demo_drafts [27] [] demo_sources.
Definition demo_committed : dict := match demo_commit.1 with Ok (q, _, _, _) => q | Raise _ => [] end.

Lemma commit_writes_episodes_witness :
  exists rel a b text, map range_of (entries_of demo_committed) = [Some (rel, a, b)]
    /\ aget (episode_txt 1) (source_entries demo_commit.2) = Some (File (Some (py_slice a b text)))
    /\ py_slice a b text = u "Rain fell. The door opened.".
Proof.
  assert (exists sums stale ex, demo_commit = (Ok (demo_committed, sums, stale, ex), demo_commit.2)) as (sums & stale & ex & E)
    by (do 3 eexists; vm_compute; reflexivity).
  assert (exists e, entries_of demo_committed = [e] /\ episode_of is_digit demo_decimal e = Some 1%Z) as (e & He & Hn)
    by (eexists; split; [vm_compute; reflexivity|reflexivity]).
  destruct (commit_writes_episodes id is_digit demo_decimal id is_digit id (fun _ => true) (fun _ _ => None)
              demo_rq demo_drafts [27] [] demo_sources demo_committed sums stale ex demo_commit.2 I E) as [H _].
  - apply (bool_decide_unpack _). vm_compute. exact I.
  - destruct (H e 1%Z) as (rel & a & b & text & Hr & _ & _ & _ & Hf); [rewrite He; by left|done|].
    exists rel, a, b, text. rewrite He. cbn [map]. rewrite Hr. split; [done|]. split; [done|].
    assert (aget (episode_txt 1) (source_entries demo_commit.2) = Some (File (Some (u "Rain fell. The door opened.")))) as Hc by reflexivity.
    rewrite Hc in Hf. congruence.
Defined.
