(* ===== verification/EpisodeReset.v ===== *)
(** * Taking back a plan: [lib/episode_reset.py]

    [reset_episode_planning] returns the ledger to an earlier state.  A full
    reset (from episode 1) accepts any ledger, however damaged; a partial one
    keeps the first episodes and insists that their ranges are a sound
    division of the sources.  The artifact manifest is a list of keys of which
    only the episode number matters here; a manifest that cannot be read is
    [None].  The state the caller saw and the state under the lock may
    differ.  File operations that fail are not modelled. *)

From S2P Require Import Prelude Json AssetRename EpisodeLedger TextMetrics EpisodePlanner.
From Stdlib Require Import Sorted.

Record _ResetPlan := mkResetPlan {
  rp_episode_nums : list Z;
  rp_consumed : list Z;
  rp_deletes : list pystr;
  rp_archives : list pystr
}.

Record EpisodeResetResult := mkReset {
  removed_episodes : list Z;
  deleted_files : list pystr;
  archived_files : list (pystr * pystr);
  consumed_episodes : list Z
}.

(** [dict.pop] *)
Definition dict_del (k : pystr) (d : dict) : dict := where_ (fun kv => negb (bool_decide (kv.1 = k))) d.

(** ** Archive names *)

Definition archive_candidate (name : pystr) (index : nat) : pystr :=
  [95%N] ++ name ++ match index with
                    | O => u ".bak"
                    | S i => u "." ++ dumps_nat (N.of_nat (S i)) ++ u ".bak"
                    end.

(** The first candidate that is no entry of the directory. *)
Fixpoint free_candidate (fuel : nat) (taken : list pystr) (name : pystr) (index : nat) : pystr :=
  match fuel with
  | O => archive_candidate name index
  | S fuel => if bool_decide (archive_candidate name index ∈ taken) then free_candidate fuel taken name (S index)
              else archive_candidate name index
  end.

Definition _archive_path (d : Disk) (name : pystr) : pystr :=
  free_candidate (length (source_entries d)) (source_entries d).*1 name 0.

Section reset.
Context (nfc : pystr -> pystr) (isdigit : N -> bool) (decimal : N -> option Z) (sha256 : pystr -> pystr).
Context {K : Type} (episode_number : K -> option Z).

Notation number := (episode_of isdigit decimal).
Notation sources := (discover_sources nfc).

(** ** The scan *)

Definition numbered_entries (project : dict) : list (Z * dict) :=
  omap (fun e => match e, number e with JObj m, Some n => Some (n, m) | _, _ => None end) (entries_of project).

Definition dupes_of (num : Z) (entries : list (Z * dict)) : list dict :=
  match omap (fun '(n, m) => if bool_decide (n = num) then Some m else None) entries with [] => [[]] | l => l end.

Definition marked_consumed (m : dict) : bool :=
  match dict_get (u "ledger_status") m with Some (JStr s) => bool_decide (s = u "consumed") | _ => false end.

Definition _has_recreatable_source_range (m : dict) : bool := bool_decide (is_Some (parse_source_range m)).

Definition _in_scope (from_episode num : Z) : bool := (from_episode =? 1)%Z || (from_episode <=? num)%Z.

Definition is_consumed (d : Disk) (entries : list (Z * dict)) (num : Z) : bool :=
  bool_decide (num ∈ (where_ (fun e => marked_consumed e.2) entries).*1)
  || bool_decide (num ∈ discover_product_episode_nums d)
  || existsb (has_downstream_products d num) (dupes_of num entries).

Definition alias_names (d : Disk) (num : Z) : list pystr := (default [] (aget num (discover_episode_file_aliases d))).*1.

Definition _scan (d : Disk) (project : dict) (from_episode : Z) : _ResetPlan :=
  let entries := numbered_entries project in
  let nums := isort Z.leb (remove_dups (entries.*1 ++ (discover_episode_file_aliases d).*1 ++ discover_product_episode_nums d)) in
  let scope := where_ (_in_scope from_episode) nums in
  let recreatable num := List.forallb _has_recreatable_source_range (dupes_of num entries) in
  mkResetPlan
    (where_ (_in_scope from_episode) (isort Z.leb (remove_dups entries.*1)))
    (where_ (is_consumed d entries) scope)
    (where_ recreatable scope ≫= alias_names d)
    (where_ (fun num => negb (recreatable num)) scope ≫= alias_names d).

(** ** Files *)

Definition rename_entry (name target : pystr) (l : list (pystr * node)) : list (pystr * node) :=
  match aget name l with
  | Some n => aset target n (adel name l)
  | None => l
  end.

Definition _apply_files (d : Disk) (plan : _ResetPlan) : result (list pystr * list (pystr * pystr)) * Disk :=
  if d_source_link d then (Raise (EpisodeResetError "source_link"), d)
  else
    let targets := map (fun name => (name, _archive_path d name)) (rp_archives plan) in
    let d1 := foldl (fun d' name => unlink name d') d (rp_deletes plan) in
    let d2 := foldl (fun d' '(name, target) => with_source (rename_entry name target (source_entries d')) d') d1 targets in
    (Ok (map (app (u "source/")) (rp_deletes plan),
         map (fun '(a, b) => (u "source/" ++ a, u "source/" ++ b)) targets),
     drop_remaining d2).

(** ** The cursor of a partial reset *)

(** Every entry an object with a positive number of its own. *)
Fixpoint entries_by_num (episodes : list json) (acc : list (Z * dict)) : result (list (Z * dict)) :=
  match episodes with
  | [] => Ok acc
  | JObj m :: rest =>
      match number (JObj m) with
      | None => Raise (EpisodeResetError "unparsable_number")
      | Some n =>
          if (n <? 1)%Z then Raise (EpisodeResetError "nonpositive_number")
          else if bool_decide (n ∈ acc.*1) then Raise (EpisodeResetError "duplicate_number")
          else entries_by_num rest (acc ++ [(n, m)])
      end
  | _ :: _ => Raise (EpisodeResetError "not_an_object")
  end.

(** The first number from [expected] on that is missing in a sorted list. *)
Fixpoint first_gap (expected : Z) (nums : list Z) : Z :=
  match nums with
  | n :: rest => if (n =? expected)%Z then first_gap (expected + 1) rest else expected
  | [] => expected
  end.

Definition all_blank (docs : list SourceDoc) : bool := List.forallb (fun doc => blank (doc_text doc)) docs.

(** [current_sources[i]] for [i] from [a] up to [b]. *)
Definition docs_between (docs : list SourceDoc) (a b : nat) : list SourceDoc := take (b - a) (drop a docs).

(** The checks on the range of one kept episode. *)
Definition range_inside (docs : list SourceDoc) (rel : pystr) (a b : Z) : bool :=
  match text_of rel docs with
  | Some text => (0 <=? a)%Z && (a <? b)%Z && (b <=? Z.of_nat (length text))%Z
  | None => false
  end.

Definition starts_sources (docs : list SourceDoc) (rel : pystr) (a : Z) : bool :=
  (a =? 0)%Z && match index_of rel docs with Some i => all_blank (take i docs) | None => false end.

Definition switch_ok (docs : list SourceDoc) (prev_rel : pystr) (prev_end : Z) (rel : pystr) : bool :=
  match index_of prev_rel docs, index_of rel docs, text_of prev_rel docs with
  | Some i, Some j, Some prev_text => (i <? j) && blank (py_from prev_end prev_text) && all_blank (docs_between docs (S i) j)
  | _, _, _ => false
  end.

Definition check_range (docs : list SourceDoc) (num : Z) (prev : option (pystr * Z)) (rel : pystr) (a b : Z)
    : result (option (pystr * Z)) :=
  if negb (range_inside docs rel a b) then Raise (EpisodeResetError "range")
  else
    match prev with
    | None =>
        if negb (num =? 1)%Z then Raise (EpisodeResetError "after_unrecorded")
        else if starts_sources docs rel a then Ok (Some (rel, b)) else Raise (EpisodeResetError "first_start")
    | Some (prev_rel, prev_end) =>
        if bool_decide (rel = prev_rel)
        then if (a =? prev_end)%Z then Ok (Some (rel, b)) else Raise (EpisodeResetError "gap")
        else if switch_ok docs prev_rel prev_end rel
        then if (a =? 0)%Z then Ok (Some (rel, b)) else Raise (EpisodeResetError "gap")
        else Raise (EpisodeResetError "switch")
    end.

(** One step of the loop over the kept episodes. *)
Definition check_episode (docs : list SourceDoc) (num : Z) (prev : option (pystr * Z)) (entry : dict)
    : result (option (pystr * Z)) :=
  match parse_source_range entry with
  | None => Ok None
  | Some (rel, a, b) => check_range docs num prev rel a b
  end.

(** [for num in range(1, from_episode)] *)
Fixpoint check_kept (docs : list SourceDoc) (entries : list (Z * dict)) (num : Z) (count : nat) (prev : option (pystr * Z))
    : result (option (pystr * Z)) :=
  match count with
  | O => Ok prev
  | S count =>
      match aget num entries with
      | None => Raise KeyError
      | Some entry =>
          let! prev' := check_episode docs num prev entry in
          check_kept docs entries (num + 1) count prev'
      end
  end.

Definition _resolve_partial_reset_cursor (d : Disk) (project : dict) (from_episode : Z) : result (pystr * Z) :=
  match dict_get (u "episodes") project with
  | Some (JArr raw) =>
      let! entries := entries_by_num raw [] in
      if negb (bool_decide (from_episode ∈ entries.*1)) then Raise (EpisodeResetError "unknown_episode")
      else if negb (first_gap 1 (isort Z.leb (where_ (fun n => (n <? from_episode)%Z) entries.*1)) =? from_episode)%Z
      then Raise (EpisodeResetError "missing_episode")
      else if negb (bool_decide (mismatched_source_fingerprints sha256 (dict_get SOURCE_FINGERPRINTS_KEY project) (sources d) = []))
      then Raise (EpisodeResetError "source_changed")
      else
        let! prev := check_kept (sources d) entries 1 (Z.to_nat (from_episode - 1)) None in
        match prev with
        | Some cursor => Ok cursor
        | None => Raise (EpisodeResetError "no_range")
        end
  | _ => Raise (EpisodeResetError "episodes_shape")
  end.

(** ** The reset *)

Definition kept_entries (project : dict) (from_episode : Z) : list json :=
  isort (fun a b => (default 0 (number a) <=? default 0 (number b))%Z)
    (where_ (fun e => match e with JObj _ => (default 0 (number e) <? from_episode)%Z | _ => false end) (entries_of project)).

(** The ledger after the reset. *)
Definition reset_project (project : dict) (cursor : option (pystr * Z)) (from_episode : Z) : dict :=
  match cursor with
  | Some (rel, o) =>
      dict_set (u "planning_cursor") (JObj [(u "source_file", JStr rel); (u "offset", JInt o)])
        (dict_set (u "episodes") (JArr (kept_entries project from_episode)) project)
  | None =>
      dict_del SOURCE_FINGERPRINTS_KEY
        (dict_set (u "planning_cursor") JNull (dict_set (u "episodes") (JArr []) project))
  end.

(** The claims of the manifest that are kept. *)
Definition reset_manifest (manifest : option (list K)) (from_episode : Z) : result (list K) :=
  match manifest with
  | Some keys =>
      Ok (where_ (fun k => match episode_number k with Some n => negb (_in_scope from_episode n) | None => true end) keys)
  | None => if (from_episode =? 1)%Z then Ok [] else Raise RuntimeError
  end.

Record ResetState := mkResetState { rs_project : dict; rs_disk : Disk; rs_manifest : option (list K) }.

Inductive reset_outcome :=
| ConfirmationRequired (consumed : list Z) (archived : list pystr)
| Reset (r : EpisodeResetResult).

(** The mutation under the lock: checks and scan are repeated. *)
Definition commit_reset (plan : _ResetPlan) (from_episode : Z) (s : ResetState) : result (dict * list K * _ResetPlan) :=
  let! cursor := if (1 <? from_episode)%Z
                 then let! c := _resolve_partial_reset_cursor (rs_disk s) (rs_project s) from_episode in Ok (Some c)
                 else Ok None in
  let current := _scan (rs_disk s) (rs_project s) from_episode in
  if existsb (fun num => negb (bool_decide (num ∈ rp_consumed plan))) (rp_consumed current) then Raise EpisodeResetConflictError
  else
    let! manifest := reset_manifest (rs_manifest s) from_episode in
    Ok (reset_project (rs_project s) cursor from_episode, manifest, current).

Definition reset_episode_planning (from_episode : Z) (confirm_consumed : bool) (before : dict * Disk) (s : ResetState)
    : result reset_outcome * ResetState :=
  if (from_episode <? 1)%Z then (Raise (EpisodeResetError "from_episode"), s)
  else
    match (if (1 <? from_episode)%Z then _resolve_partial_reset_cursor before.2 before.1 from_episode else Ok ([], 0%Z)) with
    | Raise e => (Raise e, s)
    | Ok _ =>
        let plan := _scan before.2 before.1 from_episode in
        if negb (bool_decide (rp_consumed plan = [])) && negb confirm_consumed
        then (Ok (ConfirmationRequired (rp_consumed plan) (map (app (u "source/")) (rp_archives plan))), s)
        else
          match commit_reset plan from_episode s with
          | Raise e => (Raise e, s)
          | Ok (project, manifest, current) =>
              match _apply_files (rs_disk s) current with
              | (Raise e, _) => (Raise e, s)
              | (Ok (deleted, archived), d) =>
                  (Ok (Reset (mkReset (rp_episode_nums current) deleted archived (rp_consumed current))),
                   mkResetState project d (Some manifest))
              end
          end
    end.
End reset.

(** ** Archive names *)

Lemma match_episode_shape suffix name n : match_episode suffix name = Some n ->
  exists digits, name = u "episode_" ++ digits ++ suffix /\ span_digits (digits ++ suffix) = (digits, suffix).
Proof.
  unfold match_episode. case_bool_decide as H; [|done]. destruct (span_digits (drop 8 name)) as [ds rest] eqn:E.
  destruct (negb _ && _) eqn:Eb; [|done]. to_prop. intros _. subst rest. exists ds.
  pose proof (span_digits_eq (drop 8 name)) as Hs. rewrite E in Hs. cbn [fst snd] in Hs. rewrite <- Hs. split; [|done].
  by rewrite <- H, take_drop.
Qed.

Lemma dumps_nat_inj a b : dumps_nat a = dumps_nat b -> a = b.
Proof.
  unfold dumps_nat. intros H. rewrite <- (DecimalN.Unsigned.of_to a), <- (DecimalN.Unsigned.of_to b), <- (codes_uint_codes (N.to_uint a)),
    <- (codes_uint_codes (N.to_uint b)). by rewrite H.
Qed.

Lemma archive_candidate_inj name i j : archive_candidate name i = archive_candidate name j -> i = j.
Proof.
  unfold archive_candidate. intros H%app_inv_head%app_inv_head.
  assert (forall k, length (u "." ++ dumps_nat k ++ u ".bak") = 5 + length (dumps_nat k)) as Hl
    by (intros k; rewrite !length_app; cbn; lia).
  destruct i as [|i], j as [|j]; [done|..].
  - apply (f_equal length) in H. rewrite Hl in H. discriminate.
  - apply (f_equal length) in H. rewrite Hl in H. discriminate.
  - apply app_inv_head, app_inv_tail, dumps_nat_inj in H. lia.
Qed.

Lemma free_candidate_spec fuel taken name i :
  (exists j, free_candidate fuel taken name i = archive_candidate name j)
  /\ (free_candidate fuel taken name i ∈ taken -> forall k, i <= k <= i + fuel -> archive_candidate name k ∈ taken).
Proof.
  revert i. induction fuel as [|fuel IH]; intros i; cbn [free_candidate].
  - split; [by exists i|]. intros H k Hk. by replace k with i by lia.
  - destruct (decide (archive_candidate name i ∈ taken)) as [Hi|Hi].
    + rewrite bool_decide_eq_true_2 by done. destruct (IH (S i)) as [H1 H2]. split; [done|]. intros H k Hk.
      destruct (decide (k = i)) as [->|]; [done|]. apply H2; [done|lia].
    + rewrite bool_decide_eq_false_2 by done. split; [by exists i|]. done.
Qed.

(** There are more candidates than entries, so the loop finds a free one. *)
Lemma archive_path_free d name : _archive_path d name ∉ (source_entries d).*1.
Proof.
  unfold _archive_path. set (n := length (source_entries d)). intros H.
  destruct (free_candidate_spec n (source_entries d).*1 name 0) as [_ Hall]. specialize (Hall H).
  assert (map (archive_candidate name) (seq 0 (S n)) ⊆ (source_entries d).*1) as Hsub.
  { intros x (k & -> & Hk)%list_elem_of_fmap. apply elem_of_seq in Hk. apply Hall. lia. }
  assert (NoDup (map (archive_candidate name) (seq 0 (S n)))) as Hnd.
  { apply NoDup_fmap_2_strong; [|apply NoDup_seq]. intros x y _ _. apply archive_candidate_inj. }
  apply NoDup_submseteq in Hsub; [|done]. apply submseteq_length in Hsub. rewrite length_map, length_seq, length_fmap in Hsub. lia.
Qed.

Lemma archive_path_shape d name : exists j, _archive_path d name = archive_candidate name j.
Proof. apply free_candidate_spec. Qed.

Lemma archive_path_hidden d name : hidden (_archive_path d name) = true.
Proof. by destruct (archive_path_shape d name) as [j ->]. Qed.

Lemma archive_path_no_episode d name : _EPISODE_FILE_RE (_archive_path d name) = None.
Proof. by destruct (archive_path_shape d name) as [j ->]. Qed.

Lemma archive_path_inj d a b n m : _EPISODE_FILE_RE a = Some n -> _EPISODE_FILE_RE b = Some m ->
  _archive_path d a = _archive_path d b -> a = b.
Proof.
  intros (x & -> & Hx)%match_episode_shape (y & -> & Hy)%match_episode_shape.
  destruct (archive_path_shape d (u "episode_" ++ x ++ u ".txt")) as [i ->], (archive_path_shape d (u "episode_" ++ y ++ u ".txt")) as [j ->].
  unfold archive_candidate. intros H%app_inv_head. rewrite <- !app_assoc in H. apply app_inv_head in H.
  assert (forall ds t, span_digits (ds ++ u ".txt") = (ds, u ".txt") -> span_digits (ds ++ u ".txt" ++ t) = (ds, u ".txt" ++ t)) as Hspan.
  { intros ds t Hd. apply span_digits_run; [|done]. pose proof (span_digits_fst (ds ++ u ".txt")) as Hf. rewrite Hd in Hf. apply Hf. }
  apply (f_equal span_digits) in H. rewrite !Hspan in H by done. injection H as ->. done.
Qed.

(** ** What the file operations leave *)

Lemma unlink_all_get names d k :
  aget k (source_entries (foldl (fun d' name => unlink name d') d names)) = if bool_decide (k ∈ names) then None else aget k (source_entries d).
Proof.
  revert d. induction names as [|x names IH]; intros d; [done|]. cbn [foldl]. rewrite IH. unfold unlink. rewrite source_entries_with, aget_adel.
  destruct (decide (k = x)) as [->|Hne].
  - rewrite (bool_decide_eq_true_2 (x ∈ x :: names)) by left. case_bool_decide; [done|]. by rewrite bool_decide_eq_true_2.
  - rewrite (bool_decide_eq_false_2 (x = k)) by done. rewrite (bool_decide_ext (k ∈ x :: names) (k ∈ names)); [done|]. rewrite elem_of_cons. naive_solver.
Qed.

Lemma unlink_all_NoDup names d : NoDup (source_entries d).*1 -> NoDup (source_entries (foldl (fun d' name => unlink name d') d names)).*1.
Proof. revert d. induction names as [|x names IH]; intros d H; [done|]. cbn [foldl]. apply IH. by apply adel_NoDup. Qed.

Lemma unlink_all_sources names d : Forall no_source names ->
  where_ source_entry (source_entries (foldl (fun d' name => unlink name d') d names)) = where_ source_entry (source_entries d).
Proof.
  intros H. revert d. induction H as [|x names Hx _ IH]; intros d; [done|]. cbn [foldl]. rewrite IH. by apply where_adel.
Qed.

Abbreviation rename_all d targets :=
  (foldl (fun d' '(name, target) => with_source (rename_entry name target (source_entries d')) d') d targets).

Lemma rename_entry_get name target l k : name <> target ->
  aget k (rename_entry name target l)
  = match aget name l with
    | Some n => if bool_decide (k = target) then Some n else if bool_decide (k = name) then None else aget k l
    | None => aget k l
    end.
Proof.
  intros Hne. unfold rename_entry. destruct (aget name l) as [n|]; [|done]. rewrite aget_aset, aget_adel.
  rewrite (bool_decide_ext (target = k) (k = target)), (bool_decide_ext (name = k) (k = name)) by (split; congruence). done.
Qed.

Lemma rename_all_NoDup targets d : NoDup (source_entries d).*1 -> NoDup (source_entries (rename_all d targets)).*1.
Proof.
  revert d. induction targets as [|[a b] targets IH]; intros d H; [done|]. cbn [foldl]. apply IH. rewrite source_entries_with.
  unfold rename_entry. case_goal; [|done]. by apply aset_NoDup, adel_NoDup.
Qed.

Lemma rename_all_sources targets d : Forall (fun t => no_source t.1 /\ no_source t.2) targets ->
  where_ source_entry (source_entries (rename_all d targets)) = where_ source_entry (source_entries d).
Proof.
  intros H. revert d. induction H as [|[a b] targets [Ha Hb] _ IH]; intros d; [done|]. cbn [foldl]. rewrite IH, source_entries_with.
  unfold rename_entry. case_goal; [|done]. by rewrite where_aset, where_adel.
Qed.

(** Renaming several entries to fresh names. *)
Lemma rename_all_get targets d k :
  NoDup targets.*1 -> NoDup targets.*2 -> (forall t, t ∈ targets.*2 -> aget t (source_entries d) = None /\ t ∉ targets.*1) ->
  (forall a, a ∈ targets.*1 -> aget a (source_entries d) <> None) ->
  aget k (source_entries (rename_all d targets))
  = match List.find (fun t => bool_decide (t.2 = k)) targets with
    | Some t => aget t.1 (source_entries d)
    | None => if bool_decide (k ∈ targets.*1) then None else aget k (source_entries d)
    end.
Proof.
  revert d. induction targets as [|[a b] targets IH]; intros d Hn1 Hn2 Hf Hin; [done|]. cbn [foldl List.find].
  rewrite fmap_cons in *. cbn [fst snd] in *. inv Hn1. inv Hn2.
  destruct (Hf b) as [Hb1 Hb2]; [left|]. assert (a <> b) as Hab by (intros ->; apply Hb2; left).
  destruct (aget a (source_entries d)) as [n|] eqn:Ea; [|exfalso; apply (Hin a); [left|done]].
  assert (forall x, aget x (source_entries (with_source (rename_entry a b (source_entries d)) d))
          = if bool_decide (x = b) then Some n else if bool_decide (x = a) then None else aget x (source_entries d)) as Hget.
  { intros x. rewrite source_entries_with, rename_entry_get, Ea by done. done. }
  assert (forall x, x ∈ targets.*1 -> x <> a /\ x <> b) as Hx1 by (intros x Hx; split; [congruence|]; intros ->; apply Hb2; by right).
  assert (forall x, x ∈ targets.*2 -> x <> a /\ x <> b).
  { intros x Hx. split; [|congruence]. intros ->. destruct (Hf a) as [_ Hna]; [by right|]. apply Hna. left. }
  rewrite IH; [|done|done| |].
  - destruct (decide (b = k)) as [<-|Hk].
    + rewrite (bool_decide_eq_true_2 (b = b)) by done. destruct (List.find _ targets) as [t|] eqn:Ef.
      { apply find_Some_elem in Ef as [Ht Hb%bool_decide_eq_true]. exfalso. destruct (H t.2) as [_ Hnb]; [by apply list_elem_of_fmap_2|]. done. }
      rewrite (bool_decide_eq_false_2 (b ∈ targets.*1)); [by rewrite Hget, bool_decide_eq_true_2|]. intros Hin'. by apply Hx1 in Hin' as [_ ?].
    + rewrite (bool_decide_eq_false_2 (b = k)) by done. destruct (List.find _ targets) as [t|] eqn:Ef.
      * apply find_Some_elem in Ef as [Ht _]. destruct (Hx1 t.1) as [? ?]; [by apply list_elem_of_fmap_2|].
        rewrite Hget. by rewrite !bool_decide_eq_false_2.
      * rewrite Hget, (bool_decide_eq_false_2 (k = b)) by done. rewrite (bool_decide_ext (k ∈ a :: targets.*1) (k = a \/ k ∈ targets.*1)) by (by rewrite elem_of_cons).
        destruct (decide (k = a)) as [->|Hka].
        -- rewrite (bool_decide_eq_true_2 (a = a)), (bool_decide_eq_true_2 (a = a \/ _)) by auto. by case_bool_decide.
        -- rewrite (bool_decide_eq_false_2 (k = a)) by done. rewrite (bool_decide_ext (k = a \/ k ∈ targets.*1) (k ∈ targets.*1)); [done|naive_solver].
  - intros t Ht. destruct (H t Ht), (Hf t) as [Ht1 Ht2]; [by right|]. rewrite Hget, !bool_decide_eq_false_2 by done. split; [done|].
    intros Hc. apply Ht2. by right.
  - intros x Hx. destruct (Hx1 x Hx). rewrite Hget, !bool_decide_eq_false_2 by done. apply Hin. by right.
Qed.

(** ** Full reset *)

Lemma where_distinct {A} (p : A -> bool) l : NoDup l -> NoDup (where_ p l).
Proof.
  induction 1 as [|x l Hx _ IH]; cbn [List.filter]; [constructor|]. destruct (p x); [|done]. constructor; [|done].
  by intros [? _]%elem_of_where.
Qed.

Lemma where_keys_NoDup {A B} (p : A * B -> bool) l : NoDup l.*1 -> NoDup (where_ p l).*1.
Proof.
  induction l as [|x l IH]; cbn [List.filter]; [done|]. rewrite fmap_cons. intros [Hx Hl]%NoDup_cons. destruct (p x); [|by apply IH].
  rewrite fmap_cons. constructor; [|by apply IH]. intros (y & Ey & [Hy _]%elem_of_where)%list_elem_of_fmap. apply Hx. rewrite Ey. by apply list_elem_of_fmap_2.
Qed.

Lemma alias_names_where d n : alias_names d n = (where_ (is_alias n) (listing d)).*1.
Proof. unfold alias_names. rewrite discover_aliases_get. by destruct (where_ _ _). Qed.

Lemma elem_of_alias_names d n x : x ∈ alias_names d n <-> exists v, (x, v) ∈ source_entries d /\ is_alias n (x, v) = true.
Proof.
  rewrite alias_names_where, list_elem_of_fmap. split.
  - intros ([y v] & -> & [Hin Ha]%elem_of_where). unfold listing in Hin. rewrite elem_of_isort in Hin. by exists v.
  - intros (v & Hin & Ha). exists (x, v). split; [done|]. apply elem_of_where. unfold listing. by rewrite elem_of_isort.
Qed.

Lemma alias_number d n x : x ∈ alias_names d n -> _EPISODE_FILE_RE x = Some n.
Proof. intros (v & _ & H)%elem_of_alias_names. unfold is_alias in H. by to_prop. Qed.

Lemma alias_names_NoDup d n : NoDup (source_entries d).*1 -> NoDup (alias_names d n).
Proof.
  intros H. rewrite alias_names_where. apply where_keys_NoDup. unfold listing.
  by rewrite (fmap_Permutation fst _ _ (isort_perm key_leb (source_entries d))).
Qed.

Lemma alias_known d n x : x ∈ alias_names d n -> n ∈ (discover_episode_file_aliases d).*1.
Proof.
  unfold alias_names. intros H. destruct (aget n _) as [l|] eqn:E; [|by apply not_elem_of_nil in H].
  apply aget_Some_elem in E. apply list_elem_of_fmap. by exists (n, l).
Qed.

Lemma aliases_empty d : (forall n, alias_names d n = []) -> discover_episode_file_aliases d = [].
Proof.
  intros H. destruct (discover_episode_file_aliases d) as [|[n l] m] eqn:E; [done|]. exfalso. specialize (H n).
  assert (aget n (discover_episode_file_aliases d) = Some l) as Hg by (rewrite E; cbn [aget]; by rewrite bool_decide_eq_true_2).
  rewrite discover_aliases_get in Hg. rewrite alias_names_where in H. destruct (where_ _ _); done.
Qed.

Section full.
Context (nfc : pystr -> pystr) (isdigit : N -> bool) (decimal : N -> option Z) (sha256 : pystr -> pystr) (float_true : pystr -> bool).
Context {K : Type} (episode_number : K -> option Z).

Notation scan := (_scan isdigit decimal).

Lemma scan_deletes d project from x : x ∈ rp_deletes (scan d project from) -> exists n, x ∈ alias_names d n.
Proof. cbn [rp_deletes _scan]. intros (n & Hx & _)%list_elem_of_bind. eauto. Qed.

Lemma scan_archives d project from x : x ∈ rp_archives (scan d project from) -> exists n, x ∈ alias_names d n.
Proof. cbn [rp_archives _scan]. intros (n & Hx & _)%list_elem_of_bind. eauto. Qed.

(** A full reset disposes of every file of an episode, in one of two ways. *)
Lemma scan_all_aliases d project n x : x ∈ alias_names d n -> x ∈ rp_deletes (scan d project 1) \/ x ∈ rp_archives (scan d project 1).
Proof.
  intros Hx. pose proof (alias_known _ _ _ Hx) as Hk. cbn [rp_deletes rp_archives _scan].
  set (scope := where_ (_in_scope 1) _). assert (n ∈ scope) as Hn.
  { apply elem_of_where. split; [|done]. rewrite elem_of_isort, elem_of_remove_dups, !elem_of_app. auto. }
  set (rec := fun num => List.forallb _ _). rewrite !list_elem_of_bind.
  destruct (rec n) eqn:E; [left|right]; exists n; (split; [done|]); apply elem_of_where; (split; [done|]).
  - exact E.
  - unfold rec in E. cbn beta. by rewrite E.
Qed.

Lemma scan_disjoint d project from x : x ∈ rp_deletes (scan d project from) -> x ∈ rp_archives (scan d project from) -> False.
Proof.
  cbn [rp_deletes rp_archives _scan]. intros (n & Hn & [_ Hr]%elem_of_where)%list_elem_of_bind (m & Hm & [_ Hs]%elem_of_where)%list_elem_of_bind.
  apply alias_number in Hn, Hm. rewrite Hn in Hm. injection Hm as ->. by rewrite Hr in Hs.
Qed.

Lemma scan_archives_NoDup d project from : NoDup (source_entries d).*1 -> NoDup (rp_archives (scan d project from)).
Proof.
  intros Hnd. cbn [rp_archives _scan]. apply NoDup_bind.
  - intros x y z _ _ Hx%alias_number Hy%alias_number. congruence.
  - intros n _. by apply alias_names_NoDup.
  - do 2 apply where_distinct. rewrite isort_perm. apply NoDup_remove_dups.
Qed.

(** The directory after the files have been disposed of. *)
Lemma applied_files d plan ok d' :
  _apply_files d plan = (Ok ok, d') ->
  d' = drop_remaining (rename_all (foldl (fun d' name => unlink name d') d (rp_deletes plan))
                         (map (fun name => (name, _archive_path d name)) (rp_archives plan)))
  /\ ok.2 = map (fun '(a, b) => (u "source/" ++ a, u "source/" ++ b)) (map (fun name => (name, _archive_path d name)) (rp_archives plan)).
Proof.
  unfold _apply_files. destruct (d_source_link d); [done|]. intros [H <-]%pair_equal_spec. apply Ok_inj in H as <-. done.
Qed.

Lemma drop_remaining_sources d : where_ source_entry (source_entries (drop_remaining d)) = where_ source_entry (source_entries d).
Proof. unfold drop_remaining. case_bool_decide; [|done]. unfold unlink. rewrite source_entries_with. by apply where_adel, hidden_no_source. Qed.

Lemma drop_remaining_NoDup d : NoDup (source_entries d).*1 -> NoDup (source_entries (drop_remaining d)).*1.
Proof. intros H. unfold drop_remaining. case_bool_decide; [|done]. by apply adel_NoDup. Qed.

Lemma applied_sources d project from ok d' :
  _apply_files d (scan d project from) = (Ok ok, d') -> discover_sources nfc d' = discover_sources nfc d.
Proof.
  intros [-> _]%applied_files. apply discover_sources_ext. rewrite drop_remaining_sources, rename_all_sources, unlink_all_sources; [done|..].
  - apply Forall_forall. intros x (n & Hx%alias_number)%scan_deletes. by eapply episode_no_source.
  - apply Forall_forall. intros t (x & -> & (n & Hx%alias_number)%scan_archives)%list_elem_of_fmap. cbn [fst snd].
    split; [by eapply episode_no_source|]. apply hidden_no_source, archive_path_hidden.
Qed.

Section gets.
Context (d : Disk) (project : dict) (from : Z) (Hnd : NoDup (source_entries d).*1).
Notation plan := (scan d project from).
Notation d1 := (foldl (fun d' name => unlink name d') d (rp_deletes plan)).
Notation targets := (map (fun name => (name, _archive_path d name)) (rp_archives plan)).

Lemma targets_fst : targets.*1 = rp_archives plan.
Proof. induction (rp_archives plan) as [|x l IH]; [done|]. cbn [map]. rewrite fmap_cons. by rewrite IH. Qed.

Lemma targets_snd : targets.*2 = map (_archive_path d) (rp_archives plan).
Proof. induction (rp_archives plan) as [|x l IH]; [done|]. cbn [map]. rewrite fmap_cons. by rewrite IH. Qed.

Lemma archived_get k :
  aget k (source_entries (rename_all d1 targets))
  = match List.find (fun t => bool_decide (t.2 = k)) targets with
    | Some t => aget t.1 (source_entries d1)
    | None => if bool_decide (k ∈ rp_archives plan) then None else aget k (source_entries d1)
    end.
Proof.
  rewrite rename_all_get; [by rewrite targets_fst|..].
  - rewrite targets_fst. by apply scan_archives_NoDup.
  - rewrite targets_snd. apply NoDup_fmap_2_strong; [|by apply scan_archives_NoDup].
    intros x y (n & Hx%alias_number)%scan_archives (m & Hy%alias_number)%scan_archives. by eapply archive_path_inj.
  - rewrite targets_snd, targets_fst. intros t (x & -> & _)%list_elem_of_fmap. split.
    + rewrite unlink_all_get. case_bool_decide; [done|]. apply aget_None, archive_path_free.
    + intros (n & Hn%alias_number)%scan_archives. by rewrite archive_path_no_episode in Hn.
  - rewrite targets_fst. intros a Ha. rewrite unlink_all_get, bool_decide_eq_false_2 by (intros ?; by eapply scan_disjoint).
    destruct (scan_archives _ _ _ _ Ha) as (n & (v & Hv & _)%elem_of_alias_names). by rewrite (aget_elem _ _ _ Hnd Hv).
Qed.
End gets.

Lemma applied_no_alias d project ok d' n : NoDup (source_entries d).*1 ->
  _apply_files d (scan d project 1) = (Ok ok, d') -> alias_names d' n = [].
Proof.
  intros Hnd [-> _]%applied_files. destruct (alias_names _ n) as [|x l] eqn:E; [done|]. exfalso.
  assert (x ∈ alias_names (drop_remaining (rename_all (foldl (fun d' name => unlink name d') d (rp_deletes (scan d project 1)))
            (map (fun name => (name, _archive_path d name)) (rp_archives (scan d project 1))))) n) as Hx by (rewrite E; left).
  pose proof (alias_number _ _ _ Hx) as Hnum. apply elem_of_alias_names in Hx as (v & Hv%drop_remaining_elem & Ha).
  apply aget_elem in Hv; [|by apply rename_all_NoDup, unlink_all_NoDup]. rewrite archived_get in Hv by done.
  destruct (List.find _ _) as [t|] eqn:Ef.
  - apply find_Some_elem in Ef as [(y & -> & _)%list_elem_of_fmap Ht%bool_decide_eq_true]. cbn [snd] in Ht. subst x.
    by rewrite archive_path_no_episode in Hnum.
  - case_bool_decide as Hna; [done|]. rewrite unlink_all_get in Hv. case_bool_decide as Hnd'; [done|].
    destruct (scan_all_aliases d project n x); [|done..]. apply elem_of_alias_names. exists v. split; [by apply aget_Some_elem|done].
Qed.

(** Archived files keep their contents under names that were free. *)
Lemma applied_archives d project from ok d' a b : NoDup (source_entries d).*1 ->
  _apply_files d (scan d project from) = (Ok ok, d') -> (u "source/" ++ a, u "source/" ++ b) ∈ ok.2 ->
  aget b (source_entries d) = None /\ aget b (source_entries d') = aget a (source_entries d) /\ aget a (source_entries d) <> None.
Proof.
  intros Hnd [-> ->]%applied_files ([x y] & Heq & Hin)%list_elem_of_fmap. apply pair_equal_spec in Heq as [<-%app_inv_head <-%app_inv_head].
  apply list_elem_of_fmap in Hin as (z & [-> ->]%pair_equal_spec & Hz).
  assert (aget (_archive_path d z) (source_entries d) = None) as Hfree by apply aget_None, archive_path_free. split; [done|].
  destruct (scan_archives _ _ _ _ Hz) as (n & Hzn). pose proof (alias_number _ _ _ Hzn) as Hnum.
  apply elem_of_alias_names in Hzn as (v & Hv & _). apply (aget_elem _ _ _ Hnd) in Hv. split; [|by rewrite Hv].
  rewrite drop_remaining_get by (destruct (archive_path_shape d z) as [j ->]; apply match_episode_shape in Hnum as (ds & -> & _); intros [=]).
  rewrite archived_get by done. destruct (List.find _ _) as [t|] eqn:Ef.
  - apply find_Some_elem in Ef as [(y' & -> & (m & Hm%alias_number)%scan_archives)%list_elem_of_fmap Ht%bool_decide_eq_true]. cbn [fst snd] in *.
    apply (archive_path_inj _ _ _ _ _ Hm Hnum) in Ht as ->. rewrite unlink_all_get, bool_decide_eq_false_2; [done|]. intros ?. by eapply scan_disjoint.
  - exfalso. eapply (find_None_elem _ _ (z, _archive_path d z)) in Ef; [|apply list_elem_of_fmap; by exists z]. cbn in Ef. by rewrite bool_decide_eq_true_2 in Ef.
Qed.

Lemma dict_get_del k k' d : dict_get k (dict_del k' d) = if bool_decide (k' = k) then None else dict_get k d.
Proof.
  unfold dict_del. induction d as [|[x v] d IH]; cbn [List.filter dict_get fst]; [by case_bool_decide|].
  destruct (decide (x = k')) as [->|Hx].
  - rewrite bool_decide_eq_true_2 by done. cbn [negb]. rewrite IH. by case_bool_decide.
  - rewrite bool_decide_eq_false_2 by done. cbn [negb dict_get]. rewrite IH. destruct (decide (x = k)) as [->|Hk].
    + rewrite (bool_decide_eq_true_2 (k = k)), (bool_decide_eq_false_2 (k' = k)) by congruence. done.
    + by rewrite (bool_decide_eq_false_2 (x = k)).
Qed.

End full.

Definition damaged : dict := [(u "episodes", JArr [JObj [(u "episode", JInt (-3))]; JNull; JObj [(u "episode", JInt 1); (u "source_range", JStr [])]])].
Definition demo_split : Disk :=
  mkDisk (Some [(u "novel.txt", File (Some (u "One. Two."))); (u "episode_1.txt", File (Some (u "One."))); (u "episode_01.txt", Link None true)])
         false [(u "episode_1.json", true)] [] (fun _ => false) (fun _ => None).

