(* ===== verification/EpisodeCover.v ===== *)
(** * Planning and taking back, together

    What the division into episodes means for the text: apart from white
    space, the episodes up to the cursor contain exactly the text of the
    sources up to the cursor, in order, nothing lost and nothing twice.  A
    partial reset only accepts ledgers with this property, and every ledger
    that planning and resets produce is accepted by it. *)

From S2P Require Import Prelude Json AssetRename EpisodeLedger TextMetrics EpisodePlanner EpisodeReset.
From Stdlib Require Import Sorted.

(** ** Text apart from white space *)

Definition ink (s : pystr) : pystr := where_ (fun c => negb (is_space c)) s.

Lemma ink_app a b : ink (a ++ b) = ink a ++ ink b.
Proof. apply List.filter_app. Qed.

Lemma lstrip_nil s : lstrip s = [] -> ink s = [].
Proof. induction s as [|c s IH]; [done|]. cbn [lstrip ink List.filter]. destruct (is_space c); [|done]. apply IH. Qed.

Lemma lstrip_ink s : ink (lstrip s) = ink s.
Proof. induction s as [|c s IH]; [done|]. cbn [lstrip]. destruct (is_space c) eqn:E; [|done]. rewrite IH. unfold ink. cbn [List.filter]. by rewrite E. Qed.

Lemma blank_ink s : blank s = true -> ink s = [].
Proof.
  unfold blank, strip. intros H%bool_decide_eq_true. rewrite <- (lstrip_ink s).
  assert (lstrip (reverse (lstrip s)) = []) as Hr%lstrip_nil by (rewrite <- (reverse_involutive (lstrip (reverse _))), H; done).
  unfold ink in *. rewrite where_nil in *. intros x Hx. apply Hr. by rewrite elem_of_reverse.
Qed.

Lemma concat_blank docs : all_blank docs = true -> ink (concat (map doc_text docs)) = [].
Proof.
  unfold all_blank. induction docs as [|doc docs IH]; [done|]. cbn [List.forallb map concat]. intros [H1 H2]%andb_true_iff.
  rewrite ink_app, blank_ink, IH by done. done.
Qed.

(** ** Positions in the sources *)

(** The text of the sources before a position. *)
Definition text_before (docs : list SourceDoc) (rel : pystr) (o : Z) : pystr :=
  match index_of rel docs with
  | Some i => concat (map doc_text (take i docs)) ++ take (Z.to_nat o) (default [] (text_of rel docs))
  | None => []
  end.

Definition slice_text (docs : list SourceDoc) (r : pystr * Z * Z) : pystr :=
  match text_of r.1.1 docs with Some t => py_slice r.1.2 r.2 t | None => [] end.

Lemma text_of_index rel docs t : text_of rel docs = Some t ->
  exists i doc, index_of rel docs = Some i /\ docs !! i = Some doc /\ doc_text doc = t.
Proof.
  unfold text_of. induction docs as [|doc docs IH]; [done|]. cbn [List.find index_of]. destruct (decide (rel_path doc = rel)) as [H|H].
  - rewrite bool_decide_eq_true_2 by done. intros [= <-]. by exists 0, doc.
  - rewrite bool_decide_eq_false_2 by done. intros (i & d & Hi & Hd & Ht)%IH. exists (S i), d. by rewrite Hi.
Qed.

Lemma index_of_text rel docs i : index_of rel docs = Some i -> exists doc, docs !! i = Some doc /\ text_of rel docs = Some (doc_text doc) /\ rel_path doc = rel.
Proof.
  revert i. unfold text_of. induction docs as [|doc docs IH]; intros i; [done|]. cbn [List.find index_of]. destruct (decide (rel_path doc = rel)) as [H|H].
  - rewrite bool_decide_eq_true_2 by done. intros [= <-]. by exists doc.
  - rewrite bool_decide_eq_false_2 by done. destruct (index_of rel docs) as [j|]; [|done]. intros [= <-]. apply (IH j eq_refl).
Qed.

Lemma py_index_nonneg len z : (0 <= z <= Z.of_nat len)%Z -> py_index len z = Z.to_nat z.
Proof. intros H. unfold py_index. replace (z <? 0)%Z with false by lia. lia. Qed.

Lemma py_slice_inside a b t : (0 <= a <= b)%Z -> (b <= Z.of_nat (length t))%Z ->
  take (Z.to_nat b) t = take (Z.to_nat a) t ++ py_slice a b t.
Proof.
  intros Ha Hb. unfold py_slice. rewrite !py_index_nonneg by lia. rewrite <- (take_drop (Z.to_nat a) (take (Z.to_nat b) t)).
  rewrite take_take, skipn_firstn_comm. f_equal. f_equal. lia.
Qed.

Lemma range_inside_inv docs rel a b : range_inside docs rel a b = true ->
  exists t, text_of rel docs = Some t /\ (0 <= a < b)%Z /\ (b <= Z.of_nat (length t))%Z.
Proof. unfold range_inside. destruct (text_of rel docs) as [t|]; [|done]. intros H. exists t. split; [done|]. lia. Qed.

Lemma docs_split docs i j doc : docs !! i = Some doc -> i < j -> j <= length docs ->
  take j docs = take i docs ++ doc :: docs_between docs (S i) j.
Proof.
  intros Hi Hij Hj. unfold docs_between. rewrite <- (take_drop i (take j docs)). rewrite take_take, Nat.min_l by lia. f_equal.
  rewrite skipn_firstn_comm, (drop_S _ _ _ Hi). replace (j - i) with (S (j - S i)) by lia. done.
Qed.

(** Where planning has got to. *)
Definition reached (docs : list SourceDoc) (prev : option (pystr * Z)) : pystr :=
  match prev with Some (rel, o) => text_before docs rel o | None => [] end.

Definition position_ok (docs : list SourceDoc) (prev : option (pystr * Z)) : Prop :=
  match prev with Some (rel, o) => exists t, text_of rel docs = Some t /\ (0 <= o <= Z.of_nat (length t))%Z | None => True end.

(** An accepted range continues the text exactly. *)
Lemma check_range_cover docs num prev rel a b x :
  position_ok docs prev -> check_range docs num prev rel a b = Ok x ->
  x = Some (rel, b) /\ position_ok docs x
  /\ ink (reached docs x) = ink (reached docs prev) ++ ink (slice_text docs (rel, a, b)).
Proof.
  intros Hp. unfold check_range. destruct (range_inside docs rel a b) eqn:Er; [|done]. cbn [negb].
  apply range_inside_inv in Er as (t & Ht & Ha & Hb). destruct (text_of_index _ _ _ Ht) as (j & doc & Hj & Hdoc & Hdt).
  assert (slice_text docs (rel, a, b) = py_slice a b t) as Hsl by (unfold slice_text; cbn [fst snd]; by rewrite Ht).
  assert (position_ok docs (Some (rel, b))) as Hpos by (exists t; split; [done|lia]).
  assert (reached docs (Some (rel, b)) = concat (map doc_text (take j docs)) ++ take (Z.to_nat b) t) as Hreach
    by (cbn [reached]; unfold text_before; by rewrite Hj, Ht).
  destruct prev as [[prel pend]|].
  - destruct (decide (rel = prel)) as [<-|Hne].
    + rewrite bool_decide_eq_true_2 by done. destruct (a =? pend)%Z eqn:Ea; [|done]. intros H. apply Ok_inj in H as <-. apply Z.eqb_eq in Ea as <-.
      split; [done|]. split; [done|]. rewrite Hreach, Hsl. cbn [reached]. unfold text_before. rewrite Hj, Ht. cbn [default from_option]. unfold id.
      rewrite (py_slice_inside a b t) by lia. by rewrite <- ink_app, app_assoc.
    + rewrite bool_decide_eq_false_2 by done. destruct (switch_ok docs prel pend rel) eqn:Es; [|done].
      destruct (a =? 0)%Z eqn:Ea; [|done]. intros H. apply Ok_inj in H as <-. apply Z.eqb_eq in Ea as ->. split; [done|]. split; [done|].
      unfold switch_ok in Es. destruct (index_of prel docs) as [i|] eqn:Ei; [|done]. rewrite Hj in Es.
      destruct (text_of prel docs) as [pt|] eqn:Ept; [|done]. to_prop. apply Nat.ltb_lt in H.
      destruct (index_of_text _ _ _ Ei) as (pdoc & Hpd & Hpt & _). rewrite Ept in Hpt. injection Hpt as ->.
      destruct Hp as (pt & Hpt & Hpe). rewrite Ept in Hpt. injection Hpt as <-.
      pose proof (lookup_lt_Some _ _ _ Hdoc) as Hlen.
      rewrite Hreach, (docs_split docs i j pdoc) by (done || lia). rewrite map_app, concat_app. cbn [map concat].
      rewrite Hsl. cbn [reached]. unfold text_before. rewrite Ei, Ept. cbn [default from_option]. unfold id.
      unfold py_from in H1. rewrite py_index_nonneg in H1 by lia.
      rewrite <- (take_drop (Z.to_nat pend) (doc_text pdoc)) at 1. rewrite !ink_app, (blank_ink _ H1), (concat_blank _ H0), !app_nil_r. cbn [app].
      rewrite (py_slice_inside 0 b t), ink_app by lia. by rewrite <- !app_assoc.
  - destruct (num =? 1)%Z; [|done]. cbn [negb]. destruct (starts_sources docs rel a) eqn:Es; [|done]. intros H. apply Ok_inj in H as <-.
    split; [done|]. split; [done|]. unfold starts_sources in Es. rewrite Hj in Es. to_prop. apply Z.eqb_eq in H as ->.
    rewrite Hreach, Hsl, ink_app, (concat_blank _ H0). cbn [app reached]. by rewrite (py_slice_inside 0 b t), ink_app by lia.
Qed.

(** ** Divisions *)

Fixpoint tiled (docs : list SourceDoc) (num : Z) (prev : option (pystr * Z)) (rs : list (pystr * Z * Z)) : Prop :=
  match rs with
  | [] => True
  | (rel, a, b) :: rs => check_range docs num prev rel a b = Ok (Some (rel, b)) /\ tiled docs (num + 1) (Some (rel, b)) rs
  end.

Definition end_of (prev : option (pystr * Z)) (rs : list (pystr * Z * Z)) : option (pystr * Z) :=
  match last rs with Some (rel, _, b) => Some (rel, b) | None => prev end.

Lemma end_of_cons prev rel a b rs : end_of prev ((rel, a, b) :: rs) = end_of (Some (rel, b)) rs.
Proof. unfold end_of. destruct rs; [done|]. rewrite last_cons_cons. by destruct (last _) as [[[]]|] eqn:E; [|apply last_None in E]. Qed.

Lemma tiled_cover docs num prev rs : position_ok docs prev -> tiled docs num prev rs ->
  position_ok docs (end_of prev rs)
  /\ ink (reached docs (end_of prev rs)) = ink (reached docs prev) ++ ink (concat (map (slice_text docs) rs)).
Proof.
  revert num prev. induction rs as [|[[rel a] b] rs IH]; intros num prev Hp; [by rewrite app_nil_r|]. cbn [tiled]. intros [Hc Ht].
  destruct (check_range_cover _ _ _ _ _ _ _ Hp Hc) as (_ & Hp' & Hi). destruct (IH _ _ Hp' Ht) as [H1 H2].
  rewrite end_of_cons. split; [done|]. cbn [map concat]. by rewrite H2, Hi, ink_app, <- app_assoc.
Qed.

Lemma tiled_app docs num prev rs rs' :
  tiled docs num prev (rs ++ rs') <-> tiled docs num prev rs /\ tiled docs (num + Z.of_nat (length rs)) (end_of prev rs) rs'.
Proof.
  revert num prev. induction rs as [|[[rel a] b] rs IH]; intros num prev; cbn [app tiled length].
  - rewrite Z.add_0_r. unfold end_of. tauto.
  - rewrite IH, end_of_cons. replace (num + 1 + Z.of_nat (length rs))%Z with (num + Z.of_nat (S (length rs)))%Z by lia. tauto.
Qed.

(** ** The kept episodes of a partial reset *)

Section partial.
Context (nfc : pystr -> pystr) (isdigit : N -> bool) (decimal : N -> option Z) (sha256 : pystr -> pystr) (float_true : pystr -> bool).
Notation number := (episode_of isdigit decimal).
Notation view := (view isdigit decimal).
Notation kept := (kept_entries isdigit decimal).

Lemma entries_by_num_ok raw acc entries :
  entries_by_num isdigit decimal raw acc = Ok entries ->
  exists ms, raw = map (fun nm => JObj nm.2) ms /\ entries = acc ++ ms /\ Forall (fun nm => number (JObj nm.2) = Some nm.1 /\ (1 <= nm.1)%Z) ms
    /\ (NoDup acc.*1 -> NoDup entries.*1).
Proof.
  revert acc. induction raw as [|e raw IH]; intros acc; cbn [entries_by_num].
  - intros H. apply Ok_inj in H as <-. exists []. by rewrite app_nil_r.
  - destruct e as [| | | | | |m]; try done. destruct (number (JObj m)) as [n|] eqn:En; [|done].
    destruct (n <? 1)%Z eqn:E1; [done|]. case_bool_decide as Hd; [done|]. intros (ms & -> & -> & Hf & Hnd)%IH.
    exists ((n, m) :: ms). split; [done|]. split; [by rewrite <- app_assoc|]. split; [constructor; [cbn [fst snd]; split; [done|lia]|done]|].
    intros Hacc. apply Hnd. rewrite fmap_app. apply NoDup_app. split; [done|]. split; [|repeat constructor; by apply not_elem_of_nil].
    intros x Hx ->%list_elem_of_singleton. done.
Qed.

Lemma first_gap_run L a k :
  StronglySorted Z.lt L -> (forall n, n ∈ L -> a <= n < k)%Z -> first_gap a L = k -> L = seqZ a (k - a).
Proof.
  revert a. induction L as [|n L IH]; intros a Hs Hb; cbn [first_gap].
  - intros ->. by rewrite Z.sub_diag.
  - inv Hs. pose proof (Hb n (list_elem_of_here _ _)) as Hn. destruct (n =? a)%Z eqn:E; [|intros ->; lia]. apply Z.eqb_eq in E as ->. intros Hg.
    rewrite seqZ_cons by lia. f_equal. replace (Z.pred (k - a)) with (k - (a + 1))%Z by lia. apply IH; [done| |done].
    intros m Hm. pose proof (Hb m (list_elem_of_further _ _ _ Hm)). eapply Forall_forall in H2; [|done]. lia.
Qed.

Lemma sorted_strict (L : list Z) : NoDup L -> StronglySorted (fun a b => Is_true (Z.leb a b)) L -> StronglySorted Z.lt L.
Proof.
  intros Hnd Hs. induction Hs as [|x l Hs IH Hx]; [constructor|]. inv Hnd. constructor; [by apply IH|]. apply Forall_forall. intros y Hy.
  eapply Forall_forall in Hx; [|done]. apply Is_true_true in Hx. assert (x <> y) by congruence. lia.
Qed.

Lemma where_map {A B} (f : A -> B) (p : B -> bool) l : where_ p (map f l) = map f (where_ (fun x => p (f x)) l).
Proof. induction l as [|x l IH]; [done|]. cbn [map List.filter]. rewrite IH. by destruct (p (f x)). Qed.

Lemma map_fst_where_sorted (ms : list (Z * dict)) (p : Z -> bool) :
  map fst (isort (fun a b : Z * dict => Z.leb a.1 b.1) (where_ (fun nm => p nm.1) ms)) = isort Z.leb (where_ p (map fst ms)).
Proof. rewrite <- (isort_map (fun a b : Z * dict => Z.leb a.1 b.1) Z.leb fst) by done. by rewrite where_map. Qed.

Lemma kept_entries_eq project ms k :
  dict_get (u "episodes") project = Some (JArr (map (fun nm => JObj nm.2) ms)) ->
  Forall (fun nm => number (JObj nm.2) = Some nm.1) ms ->
  kept project k = map (fun nm => JObj nm.2) (isort (fun a b : Z * dict => Z.leb a.1 b.1) (where_ (fun nm => (nm.1 <? k)%Z) ms)).
Proof.
  intros Hg Hf. unfold kept_entries, entries_of. rewrite Hg, where_map.
  rewrite (List.filter_ext_in _ (fun nm => (nm.1 <? k)%Z)); last first.
  { intros nm Hin%list_elem_of_In. eapply Forall_forall in Hf; [|done]. by rewrite Hf. }
  assert (Forall (fun nm => number (JObj nm.2) = Some nm.1) (where_ (fun nm => (nm.1 <? k)%Z) ms)) as Hw.
  { apply Forall_forall. intros nm [Hin _]%elem_of_where. by eapply Forall_forall in Hf. }
  clear Hf. revert Hw. generalize (where_ (fun nm : Z * dict => (nm.1 <? k)%Z) ms) as l. intros l Hw. clear Hg.
  induction Hw as [|nm l Hn Hw IH]; [done|]. cbn [map isort]. rewrite IH.
  assert (Forall (fun nm => number (JObj nm.2) = Some nm.1) (isort (fun a b : Z * dict => Z.leb a.1 b.1) l)) as Hs by (by rewrite isort_perm).
  revert Hs. generalize (isort (fun a b : Z * dict => Z.leb a.1 b.1) l) as s. induction s as [|y s IHs]; intros Hs; [done|]. inv Hs.
  cbn [map insert_by].
  assert ((default 0 (number (JObj nm.2)) <=? default 0 (number (JObj y.2)))%Z = (nm.1 <=? y.1)%Z) as Hle by (by rewrite Hn, H1).
  rewrite Hle. destruct (nm.1 <=? y.1)%Z; [done|]. cbn [map]. by rewrite IHs.
Qed.

(** The loop over the kept episodes, along their list. *)
Fixpoint check_list (docs : list SourceDoc) (num : Z) (prev : option (pystr * Z)) (l : list dict) : result (option (pystr * Z)) :=
  match l with
  | [] => Ok prev
  | m :: l => let! prev' := check_episode docs num prev m in check_list docs (num + 1) prev' l
  end.

Lemma check_kept_list docs entries num l prev :
  (forall i m, l !! i = Some m -> aget (num + Z.of_nat i)%Z entries = Some m) ->
  check_kept docs entries num (length l) prev = check_list docs num prev l.
Proof.
  revert num prev. induction l as [|m l IH]; intros num prev H; [done|]. cbn [length check_kept check_list].
  pose proof (H 0 m eq_refl) as H0. rewrite Z.add_0_r in H0. rewrite H0. destruct (check_episode _ _ _ _); [|done]. cbn [bind].
  apply IH. intros i x Hx. rewrite <- (H (S i) x Hx). f_equal. lia.
Qed.

(** A gap in the records is never closed again. *)
Lemma check_list_gap docs num l x : (1 < num)%Z -> check_list docs num None l = Ok x -> x = None.
Proof.
  revert num. induction l as [|m l IH]; intros num Hn; cbn [check_list]; [by intros [= <-]|]. intros (p & Hp & H)%bind_Ok.
  unfold check_episode in Hp. destruct (parse_source_range m) as [[[rel a] b]|].
  - unfold check_range in Hp. destruct (range_inside _ _ _ _); [|done]. cbn [negb] in Hp. by replace (num =? 1)%Z with false in Hp by lia.
  - apply Ok_inj in Hp as <-. eapply IH; [|done]. lia.
Qed.

Lemma check_range_end docs num prev rel a b x : check_range docs num prev rel a b = Ok x -> x = Some (rel, b).
Proof. unfold check_range. repeat case_goal; try done; intros H; by apply Ok_inj in H. Qed.

Lemma check_list_tiled docs num prev l c : (1 <= num)%Z ->
  check_list docs num prev l = Ok (Some c) -> exists rs, map parse_source_range l = map Some rs /\ tiled docs num prev rs /\ end_of prev rs = Some c.
Proof.
  revert num prev. induction l as [|m l IH]; intros num prev Hn; cbn [check_list].
  - intros H. apply Ok_inj in H as ->. by exists [].
  - intros (p & Hp & H)%bind_Ok. unfold check_episode in Hp. destruct (parse_source_range m) as [[[rel a] b]|] eqn:Er.
    + pose proof (check_range_end _ _ _ _ _ _ _ Hp) as ->. destruct (IH (num + 1)%Z (Some (rel, b))) as (rs & H1 & H2 & H3); [lia|done|].
      exists ((rel, a, b) :: rs). cbn [map tiled]. rewrite Er, H1, end_of_cons. done.
    + apply Ok_inj in Hp as <-. apply check_list_gap in H; [done|lia].
Qed.

Lemma view_numbered (S : list (Z * dict)) a rs :
  map fst S = seqZ a (Z.of_nat (length S)) -> Forall (fun nm => number (JObj nm.2) = Some nm.1) S ->
  map parse_source_range (map snd S) = map Some rs -> map view (map (fun nm => JObj nm.2) S) = numbered a rs.
Proof.
  revert a rs. induction S as [|[n m] S IH]; intros a rs Hf Hn Hr; [by destruct rs|]. destruct rs as [|r rs]; [done|].
  cbn [length] in Hf. rewrite seqZ_cons in Hf by lia. cbn [map fst snd] in *. injection Hf as -> Hf. injection Hr as Hr1 Hr2. inv Hn.
  cbn [map numbered]. unfold EpisodePlanner.view at 1. cbn [range_of fst snd] in *. rewrite H1, Hr1. f_equal.
  apply IH; [|done|done]. rewrite Hf. f_equal; lia.
Qed.

(** What an accepted partial reset has checked. *)
Lemma partial_inv d project k rel o :
  _resolve_partial_reset_cursor nfc isdigit decimal sha256 d project k = Ok (rel, o) ->
  exists ranges, map view (kept project k) = numbered 1 ranges /\ Z.of_nat (length ranges) = (k - 1)%Z
    /\ tiled (discover_sources nfc d) 1 None ranges /\ end_of None ranges = Some (rel, o).
Proof.
  unfold _resolve_partial_reset_cursor. destruct (dict_get (u "episodes") project) as [[| | | | |raw|]|] eqn:Hg; try done.
  intros (entries & He & H)%bind_Ok. apply entries_by_num_ok in He as (ms & -> & -> & Hf & Hnd). specialize (Hnd (NoDup_nil_2)). cbn [app] in *.
  destruct (bool_decide (k ∈ ms.*1)) eqn:Ek; [|done]. cbn [negb] in H. apply bool_decide_eq_true in Ek.
  destruct (first_gap 1 _ =? k)%Z eqn:Eg; [|done]. cbn [negb] in H. apply Z.eqb_eq in Eg.
  destruct (bool_decide (mismatched_source_fingerprints _ _ _ = [])); [|done]. cbn [negb] in H. apply bind_Ok in H as ([c|] & Hc & H); [|done].
  apply Ok_inj in H as ->.
  assert (Forall (fun nm : Z * dict => number (JObj nm.2) = Some nm.1) ms) as Hnum by (eapply Forall_impl; [exact Hf|]; cbn; tauto).
  rewrite (kept_entries_eq _ _ _ Hg Hnum). set (S := isort _ (where_ (fun nm : Z * dict => (nm.1 <? k)%Z) ms)).
  assert (map fst S = isort Z.leb (where_ (fun n => (n <? k)%Z) ms.*1)) as HS by apply (map_fst_where_sorted ms (fun n => (n <? k)%Z)).
  apply first_gap_run in Eg; cycle 1.
  { apply sorted_strict; [rewrite isort_perm; by apply where_distinct|]. apply isort_sorted; intros; lia. }
  { intros n Hn. rewrite elem_of_isort in Hn. apply elem_of_where in Hn as [Hn Hk]. split; [|lia].
    apply list_elem_of_fmap in Hn as (nm & -> & Hin). eapply Forall_forall in Hf; [|done]. lia. }
  rewrite Eg in HS. apply list_elem_of_fmap in Ek as (nm & -> & Hin). eapply Forall_forall in Hf; [|exact Hin].
  assert (length S = Z.to_nat (nm.1 - 1)) as Hlen by (apply (f_equal length) in HS; by rewrite length_map, length_seqZ in HS).
  assert (forall i m, map snd S !! i = Some m -> aget (1 + Z.of_nat i)%Z ms = Some m) as Hget.
  { intros i m Hi. rewrite list_lookup_fmap in Hi. destruct (S !! i) as [[n m']|] eqn:Ei; [|done]. injection Hi as ->.
    assert (map fst S !! i = Some n) as Hfst by (rewrite list_lookup_fmap; by rewrite Ei).
    rewrite HS in Hfst. apply lookup_seqZ in Hfst as [-> _]. apply aget_elem; [done|].
    apply list_elem_of_lookup_2 in Ei. unfold S in Ei. rewrite elem_of_isort in Ei. by apply elem_of_where in Ei as [? _]. }
  rewrite <- Hlen, <- (length_map snd S), check_kept_list in Hc by done.
  apply check_list_tiled in Hc as (rs & H1 & H2 & H3); [|lia]. exists rs. split; [|split; [|done]].
  - apply view_numbered; [rewrite HS, Hlen; f_equal; lia| |done]. unfold S. rewrite isort_perm.
    apply Forall_forall. intros x [Hx _]%elem_of_where. by eapply Forall_forall in Hnum.
  - apply (f_equal length) in H1. rewrite !length_map in H1. lia.
Qed.

Lemma last_anchored_numbered l rs rel a b : map view l = numbered 1 rs -> last rs = Some (rel, a, b) -> last_anchored isdigit decimal l = Some (rel, b).
Proof.
  intros Hv Hl. apply last_Some in Hl as [rs' ->]. rewrite numbered_app in Hv. cbn [numbered] in Hv.
  apply map_eq_app in Hv as (l1 & l2 & -> & H1 & H2). destruct l2 as [|e [|]]; try done. cbn [map] in H2. injection H2 as He Hr.
  eapply last_anchored_max with (r := e); [rewrite elem_of_app; right; left|unfold EpisodePlanner.view; by rewrite He, Hr|].
  intros x m [Hx|Hx]%elem_of_app Hm; [right|left; by apply list_elem_of_singleton in Hx].
  assert (view x ∈ map view l1) as Hin by (by apply list_elem_of_fmap_2). rewrite H1 in Hin. apply elem_of_numbered in Hin as (k & r & Hin & Hk).
  unfold EpisodePlanner.view in Hin. rewrite Hm in Hin. injection Hin as -> _. lia.
Qed.

(** A ledger with these ranges resumes at its end. *)
Lemma start_at_end d p l rs rel o :
  dict_get (u "episodes") p = Some (JArr l) -> map view l = numbered 1 rs -> end_of None rs = Some (rel, o) -> cursor_of p = Some (rel, o) ->
  _effective_start nfc isdigit decimal float_true d p = Ok (rel, o).
Proof.
  intros Hg Hv He Hc. unfold _effective_start. rewrite (iter_entries _ _ _ Hg). cbn [bind]. unfold end_of in He.
  destruct (last rs) as [[[r a] b]|] eqn:Hl; [|done]. injection He as -> ->. rewrite (last_anchored_numbered _ _ _ _ _ Hv Hl), Hc. cbn [fst snd].
  by rewrite bool_decide_eq_true_2, Z.max_id by done.
Qed.

(** If a partial reset is accepted, the kept episodes are the ones before it,
    their texts contain, apart from white space, exactly the text of the
    sources up to the new cursor, and planning resumes at that cursor. *)
Theorem partial_reset_sound d project k rel o :
  _resolve_partial_reset_cursor nfc isdigit decimal sha256 d project k = Ok (rel, o) ->
  exists ranges, map view (kept project k) = numbered 1 ranges /\ Z.of_nat (length ranges) = (k - 1)%Z
    /\ ink (concat (map (slice_text (discover_sources nfc d)) ranges)) = ink (text_before (discover_sources nfc d) rel o)
    /\ forall d2, _effective_start nfc isdigit decimal float_true d2 (reset_project isdigit decimal project (Some (rel, o)) k) = Ok (rel, o).
Proof.
  intros (rs & Hv & Hlen & Ht & He)%partial_inv. exists rs. split; [done|]. split; [done|].
  destruct (tiled_cover (discover_sources nfc d) 1 None rs I Ht) as [Hpos Hink]. rewrite He in Hpos, Hink. split; [by symmetry|].
  intros d2. destruct Hpos as (t & _ & Ho). unfold reset_project. eapply start_at_end; [by rewrite dict_get_set_ne, dict_get_set_eq by (intros [=])|done..|].
  rewrite cursor_set. by replace (0 <=? o)%Z with true by lia.
Qed.
End partial.

(** ** Every planned ledger can be taken back *)

Section planned.
Context (nfc : pystr -> pystr) (isdigit : N -> bool) (decimal : N -> option Z) (sha256 : pystr -> pystr).
Context (is_word : N -> bool) (lower : pystr -> pystr) (float_true : pystr -> bool).
Context (step1_fingerprint : Z -> string -> option pystr).
Context {K : Type} (episode_number : K -> option Z).
Context (docs : list SourceDoc) (docs_distinct : NoDup (map rel_path docs)).

Notation number := (episode_of isdigit decimal).
Notation view := (view isdigit decimal).
Notation sources := (discover_sources nfc).
Notation fingerprints := (compute_source_fingerprints sha256).
Notation commit := (_commit nfc isdigit decimal sha256 is_word lower float_true step1_fingerprint).
Notation prepare := (prepare_plan nfc isdigit decimal sha256 float_true).

(** The episodes of a project, as numbers and ranges. *)
Definition ledger_view (p : dict) (rs : list (pystr * Z * Z)) : Prop :=
  dict_get (u "episodes") p = None /\ rs = [] \/ exists l, dict_get (u "episodes") p = Some (JArr l) /\ map view l = numbered 1 rs.

Record well_planned (p : dict) (rs : list (pystr * Z * Z)) : Prop := {
  wp_view : ledger_view p rs;
  wp_cursor : cursor_of p = end_of None rs;
  wp_fingerprints : mismatched_source_fingerprints sha256 (dict_get SOURCE_FINGERPRINTS_KEY p) docs = [];
  wp_tiled : tiled docs 1 None rs
}.

(** *** Sources by their place *)

Lemma lookup_doc j doc : docs !! j = Some doc -> index_of (rel_path doc) docs = Some j /\ text_of (rel_path doc) docs = Some (doc_text doc).
Proof.
  intros Hj. assert (index_of (rel_path doc) docs = Some j) as Hi.
  { clear -docs_distinct Hj. revert j Hj docs_distinct. induction docs as [|x l IH]; intros j Hj Hd; [done|]. cbn [index_of map] in *. inv Hd.
    destruct j as [|j]; [injection Hj as ->; by rewrite bool_decide_eq_true_2|]. cbn in Hj.
    rewrite bool_decide_eq_false_2; [by rewrite (IH j)|]. intros E. apply H1. rewrite E. apply list_elem_of_fmap_2. by eapply list_elem_of_lookup_2. }
  split; [done|]. destruct (index_of_text _ _ _ Hi) as (x & Hx & Ht & _). congruence.
Qed.

Lemma sources_after_drop rel l i : index_of rel l = Some i -> sources_after rel l = drop (S i) l.
Proof.
  revert i. induction l as [|x l IH]; intros i; [done|]. cbn [index_of sources_after]. case_bool_decide; [by intros [= <-]|].
  destruct (index_of rel l) as [j|]; [|done]. intros [= <-]. by rewrite (IH j).
Qed.

Lemma skip_blank_lookup l doc : skip_blank_sources l = Some doc -> exists k, l !! k = Some doc /\ all_blank (take k l) = true.
Proof.
  induction l as [|x l IH]; [done|]. cbn [skip_blank_sources]. destruct (blank (doc_text x)) eqn:E.
  - intros (k & Hk & Hb)%IH. exists (S k). split; [done|]. unfold all_blank. cbn [take List.forallb firstn]. by rewrite E.
  - intros [= <-]. by exists 0.
Qed.

Lemma next_source i doc : skip_blank_sources (drop (S i) docs) = Some doc ->
  exists j, i < j /\ docs !! j = Some doc /\ all_blank (docs_between docs (S i) j) = true.
Proof.
  intros (k & Hk & Hb)%skip_blank_lookup. rewrite lookup_drop in Hk. exists (S i + k). split; [lia|]. split; [done|].
  unfold docs_between. by replace (S i + k - S i) with k by lia.
Qed.

(** *** The range a plan starts with *)

(** The start of a plan, seen from the division so far. *)
Definition start_of (rs : list (pystr * Z * Z)) : option (pystr * Z) :=
  match end_of None rs with
  | Some c => Some c
  | None => match docs with doc :: _ => Some (rel_path doc, 0%Z) | [] => None end
  end.

Lemma range_inside_intro j doc a b : docs !! j = Some doc -> (0 <= a < b)%Z -> (b <= Z.of_nat (length (doc_text doc)))%Z ->
  range_inside docs (rel_path doc) a b = true.
Proof. intros Hj Ha Hb. unfold range_inside. rewrite (proj2 (lookup_doc _ _ Hj)). lia. Qed.

(** Continuing in the same source. *)
Lemma check_same n rs rel o b t : tiled docs 1 None rs -> start_of rs = Some (rel, o) -> n = (1 + Z.of_nat (length rs))%Z ->
  text_of rel docs = Some t -> (0 <= o < b)%Z -> (b <= Z.of_nat (length t))%Z ->
  check_range docs n (end_of None rs) rel o b = Ok (Some (rel, b)).
Proof.
  intros Ht Hs -> Htx Ho Hb. destruct (text_of_index _ _ _ Htx) as (j & doc & Hj & Hdoc & <-).
  assert (rel_path doc = rel) as Hrel by (destruct (index_of_text _ _ _ Hj) as (x & Hx & _ & <-); congruence). subst rel.
  unfold check_range. rewrite (range_inside_intro j doc) by done. cbn [negb]. unfold start_of in Hs. destruct (end_of None rs) as [[r e]|] eqn:He.
  - injection Hs as -> ->. by rewrite bool_decide_eq_true_2, Z.eqb_refl by done.
  - destruct rs as [|[[r a] c] rs]; [|unfold end_of in He; destruct (last _) as [[[]]|] eqn:El in He; [done|by apply last_None in El]].
    cbn [length]. change (1 + Z.of_nat 0 =? 1)%Z with true. cbn [negb]. destruct docs as [|d0 rest] eqn:Ed; [done|]. injection Hs as Hr <-.
    unfold starts_sources. cbn [index_of]. rewrite bool_decide_eq_true_2 by done. done.
Qed.

(** Going on in the next source that is not blank. *)
Lemma check_next n rs rel o i doc b t : tiled docs 1 None rs -> start_of rs = Some (rel, o) -> n = (1 + Z.of_nat (length rs))%Z ->
  index_of rel docs = Some i -> text_of rel docs = Some t -> blank (py_from o t) = true ->
  skip_blank_sources (drop (S i) docs) = Some doc -> (0 < b)%Z -> (b <= Z.of_nat (length (doc_text doc)))%Z ->
  check_range docs n (end_of None rs) (rel_path doc) 0 b = Ok (Some (rel_path doc, b)).
Proof.
  intros Ht Hs -> Hi Htx Hblank Hskip Hb Hlen. destruct (next_source _ _ Hskip) as (j & Hij & Hj & Hall).
  destruct (lookup_doc _ _ Hj) as [Hidx Htext]. unfold check_range. rewrite (range_inside_intro j doc) by (done || lia). cbn [negb].
  assert (rel_path doc <> rel) as Hne by (intros E; rewrite E, Hi in Hidx; injection Hidx; lia).
  unfold start_of in Hs. destruct (end_of None rs) as [[r e]|] eqn:He.
  - injection Hs as -> ->. rewrite bool_decide_eq_false_2 by done. unfold switch_ok. rewrite Hi, Hidx, Htx, Hblank, Hall.
    by rewrite (proj2 (Nat.ltb_lt _ _) Hij).
  - destruct rs as [|[[r a] c] rs]; [|unfold end_of in He; destruct (last _) as [[[]]|] eqn:El in He; [done|by apply last_None in El]].
    cbn [length]. change (1 + Z.of_nat 0 =? 1)%Z with true. cbn [negb]. destruct (index_of_text _ _ _ Hi) as (x & Hx & Hxt & Hxr).
    rewrite Htx in Hxt. injection Hxt as ->.
    assert (o = 0%Z /\ i = 0) as [-> ->].
    { destruct docs as [|d0 rest]; [done|]. injection Hs as Hr <-. cbn [index_of] in Hi. rewrite bool_decide_eq_true_2 in Hi by done. by injection Hi as <-. }
    unfold starts_sources. rewrite Hidx. rewrite (docs_split docs 0 j x) by (done || (apply lookup_lt_Some in Hj; lia)).
    unfold all_blank in *. rewrite take_0. cbn [app List.forallb]. rewrite Hall. unfold py_from in Hblank. rewrite py_index_nonneg in Hblank by lia.
    change (Z.to_nat 0) with 0 in Hblank. rewrite drop_0 in Hblank. by rewrite Hblank.
Qed.

(** *** Planning keeps the division *)

Lemma tiled_slices num rel start prev ends t :
  text_of rel docs = Some t -> (0 <= start <= prev)%Z -> StronglySorted lt (Z.to_nat (prev - start) :: ends) ->
  Forall (fun e => (start + Z.of_nat e <= Z.of_nat (length t))%Z) ends ->
  tiled docs num (Some (rel, prev)) (slices rel start prev ends).
Proof.
  intros Ht. revert num prev. induction ends as [|e ends IH]; intros num prev Hp Hs Hb; cbn [slices tiled]; [done|].
  inv Hs. inv Hb. inv H2. split.
  - unfold check_range, range_inside. rewrite Ht. replace ((0 <=? prev) && _ && _)%Z with true by lia. cbn [negb].
    by rewrite bool_decide_eq_true_2, Z.eqb_refl by done.
  - apply IH; [lia| |done]. replace (Z.to_nat (start + Z.of_nat e - start)) with e by lia. done.
Qed.

Lemma length_py_slice a b s : (0 <= a <= Z.of_nat (length s))%Z -> (a + Z.of_nat (length (py_slice a b s)) <= Z.of_nat (length s))%Z.
Proof. intros H. unfold py_slice. rewrite (py_index_nonneg _ a) by lia. rewrite length_take, length_drop. lia. Qed.

Lemma prepare_shape p0 d0 p rq rel o t :
  sources d0 = docs -> prepare p0 d0 = Ok (p, inl rq) -> rq_start_ref rq = (rel, o) -> text_of rel docs = Some t ->
  (exists wend, rq_window rq = py_slice (rq_start rq) wend (rq_text rq))
  /\ (rq_source rq = rel /\ rq_start rq = o /\ rq_text rq = t /\ (o <= Z.of_nat (length t))%Z
      \/ exists i doc, index_of rel docs = Some i /\ blank (py_from o t) = true /\ skip_blank_sources (drop (S i) docs) = Some doc
           /\ rq_source rq = rel_path doc /\ rq_start rq = 0%Z /\ rq_text rq = doc_text doc).
Proof.
  intros Hd Hp Href Ht. unfold prepare_plan in Hp. apply bind_Ok in Hp as ([] & _ & Hp). apply bind_Ok in Hp as ([] & _ & Hp).
  apply bind_Ok in Hp as (st & _ & Hp). apply bind_Ok in Hp as (tu & Htu & Hp).
  destruct (Z.of_nat (length tu.1) <? st.2)%Z eqn:Elen; [done|].
  assert (forall src a tx, window_of (register_orphan_episode_entries isdigit decimal d0 p0) st src a tx tu.2 = Ok rq ->
    rq_start_ref rq = st /\ rq_source rq = src /\ rq_start rq = a /\ rq_text rq = tx /\ exists wend, rq_window rq = py_slice a wend tx) as Hw.
  { intros src a tx (whole & _ & H)%bind_Ok. apply Ok_inj in H as <-. cbn. eauto 10. }
  destruct (blank (py_from st.2 tu.1)) eqn:Eb; cbn [negb] in Hp.
  - destruct (skip_blank_sources _) as [doc|] eqn:Es; [|done]. apply bind_Ok in Hp as (rq' & Hr & Hp). apply Ok_inj, pair_equal_spec in Hp as [_ [= ->]].
    apply Hw in Hr as (H1 & H2 & H3 & H4 & wend & H5). rewrite Href in H1. subst st. cbn [fst snd] in *. rewrite Hd in Es.
    unfold start_text in Htu. rewrite Hd, Ht in Htu. apply Ok_inj in Htu as <-. cbn [fst] in *.
    split; [rewrite H3, H4; eauto|]. right. destruct (text_of_index _ _ _ Ht) as (i & x & Hi & _). exists i, doc.
    rewrite (sources_after_drop _ _ _ Hi) in Es. done.
  - apply bind_Ok in Hp as (rq' & Hr & Hp). apply Ok_inj, pair_equal_spec in Hp as [_ [= ->]].
    apply Hw in Hr as (H1 & H2 & H3 & H4 & wend & H5). rewrite Href in H1. subst st. cbn [fst snd] in *.
    unfold start_text in Htu. rewrite Hd, Ht in Htu. apply Ok_inj in Htu as <-. cbn [fst] in *.
    split; [rewrite H3, H4; eauto|]. left. repeat split; try done. lia.
Qed.

(** The first range of a plan continues the division, and so do the others. *)
Lemma plan_tiles p0 d0 p rq rs rel o ends :
  sources d0 = docs -> prepare p0 d0 = Ok (p, inl rq) -> rq_start_ref rq = (rel, o) ->
  tiled docs 1 None rs -> start_of rs = Some (rel, o) ->
  StronglySorted lt (0 :: ends) -> Forall (fun e => e <= length (rq_window rq)) ends ->
  tiled docs (1 + Z.of_nat (length rs)) (end_of None rs) (slices (rq_source rq) (rq_start rq) (rq_start rq) ends)
  /\ (0 <= rq_start rq)%Z.
Proof.
  intros Hd Hp Href Htl Hs Hsort Hle.
  assert (exists t, text_of rel docs = Some t /\ (0 <= o)%Z) as (t & Ht & Ho).
  { unfold start_of in Hs. destruct (tiled_cover docs 1 None rs I Htl) as [Hpos _]. destruct (end_of None rs) as [[r e]|].
    - injection Hs as -> ->. destruct Hpos as (t & H1 & H2). exists t. split; [done|lia].
    - destruct docs as [|d1 rest] eqn:Ed; [done|]. injection Hs as <- <-. exists (doc_text d1). split; [|lia].
      unfold text_of. cbn [List.find]. by rewrite bool_decide_eq_true_2. }
  destruct (prepare_shape _ _ _ _ _ _ _ Hd Hp Href Ht) as [[wend Hw] Hcase].
  assert (exists tx, text_of (rq_source rq) docs = Some tx /\ rq_text rq = tx /\ (0 <= rq_start rq <= Z.of_nat (length tx))%Z
          /\ forall b, (rq_start rq < b <= Z.of_nat (length tx))%Z ->
               check_range docs (1 + Z.of_nat (length rs)) (end_of None rs) (rq_source rq) (rq_start rq) b = Ok (Some (rq_source rq, b))) as (tx & H1 & H2 & H3 & H4).
  { destruct Hcase as [(E1 & E2 & E3 & E4)|(i & doc & Hi & Hb & Hsk & E1 & E2 & E3)].
    - exists t. rewrite E1, E2, E3. split; [done|]. split; [done|]. split; [lia|]. intros b Hb. eapply check_same; try done; lia.
    - destruct (next_source _ _ Hsk) as (j & _ & Hj & _). exists (doc_text doc). rewrite E1, E2, E3. split; [apply (lookup_doc _ _ Hj)|].
      split; [done|]. split; [lia|]. intros b Hb'. eapply check_next; try done; lia. }
  split; [|lia]. rewrite Hw, H2 in Hle.
  assert (Forall (fun e => (rq_start rq + Z.of_nat e <= Z.of_nat (length tx))%Z) ends) as Hbound.
  { eapply Forall_impl; [exact Hle|]. intros e He. cbn beta in He. pose proof (length_py_slice (rq_start rq) wend tx H3). lia. }
  destruct ends as [|e ends]; [done|]. cbn [slices tiled]. apply Forall_cons in Hbound as [Hb1 Hb2].
  apply StronglySorted_inv in Hsort as [Hs1 Hs2]. apply Forall_cons in Hs2 as [Hs2 _]. split; [apply H4; lia|].
  eapply tiled_slices; [exact H1|lia| |done]. replace (Z.to_nat (rq_start rq + Z.of_nat e - rq_start rq)) with e by lia. done.
Qed.

Lemma numbered_later l a rs x : map view l = numbered a rs -> x ∈ l -> exists k, number x = Some k /\ (a <= k < a + Z.of_nat (length rs))%Z.
Proof.
  intros Hv Hx. assert (view x ∈ map view l) as Hin by (by apply list_elem_of_fmap_2). rewrite Hv in Hin.
  apply elem_of_numbered in Hin as (k & r & Hxv & Hk). apply pair_equal_spec in Hxv as [Hxn _]. eauto.
Qed.

Lemma sort_numbered l a rs : map view l = numbered a rs -> _sort_episodes_if_possible isdigit decimal l = l.
Proof.
  intros Hv. unfold _sort_episodes_if_possible. destruct (List.forallb _ l); [|done]. apply isort_id.
  revert a rs Hv. induction l as [|e l IH]; intros a rs Hv; [constructor|]. destruct rs as [|r rs]; [done|].
  cbn [map numbered] in Hv. injection Hv as Hn _ Hv. constructor; [by eapply IH|].
  apply Forall_forall. intros x Hx. destruct (numbered_later _ _ _ _ Hv Hx) as (k & Hk & Hb). unfold entry_leb. rewrite Hn, Hk. cbn.
  apply Is_true_true. lia.
Qed.

Lemma view_present l a rs : map view l = numbered a rs -> present l = l.
Proof.
  revert a rs. induction l as [|e l IH]; intros a [|r rs] Hv; try done. cbn [map numbered] in Hv. injection Hv as Hn _ Hv.
  unfold present in *. cbn [List.filter]. rewrite (IH _ _ Hv). by destruct e.
Qed.

Lemma mismatched_self : mismatched_source_fingerprints sha256 (Some (fingerprints_json (fingerprints docs))) docs = [].
Proof.
  unfold mismatched_source_fingerprints, fingerprints_json. set (m := fingerprints docs).
  assert (NoDup m.*1) as Hnd.
  { unfold m, compute_source_fingerprints. assert (NoDup (@nil (pystr * pystr)).*1) as H0 by constructor. revert H0.
    generalize (@nil (pystr * pystr)) as acc. clear docs_distinct m. induction docs as [|d l IH]; intros acc H0; [done|]. cbn [foldl]. apply IH. by apply aset_NoDup. }
  assert (omap (fun '(rel, v) => match v with JStr fp => if bool_decide (aget rel m = Some fp) then None else Some rel | _ => None end)
            (map (fun '(k, v) => (k, JStr v)) m) = []) as ->; [|done].
  apply elem_of_nil_inv. intros x (y & Hy & Hx)%list_elem_of_omap. apply list_elem_of_fmap in Hy as ([k v] & -> & Hin).
  by rewrite (aget_elem _ _ _ Hnd Hin), bool_decide_eq_true_2 in Hx.
Qed.

Lemma view_shaped p rs : ledger_view p rs -> ledger_shaped p /\ map view (entries_of p) = numbered 1 rs.
Proof.
  unfold ledger_shaped, entries_of. intros [[-> ->]|(l & -> & Hv)]; [by split|]. by split.
Qed.

Lemma write_all_sources ws d d' : Forall (fun w : Z * pystr => (0 <= w.1)%Z) ws -> write_all ws d = (Ok tt, d') ->
  where_ source_entry (source_entries d') = where_ source_entry (source_entries d).
Proof.
  intros H. revert d. induction H as [|[n t] ws Hn _ IH]; intros d; cbn [write_all]; [intros [_ <-]%pair_equal_spec; done|]. cbn [fst] in Hn.
  unfold set_file. intros E.
  assert (exists d1, write_all ws d1 = (Ok tt, d') /\ source_entries d1 = aset (episode_txt n) (File (Some t)) (source_entries d)) as (d1 & Hw & Hd).
  { destruct (aget (episode_txt n) (source_entries d)) as [[]|]; try done; eexists; (split; [exact E|done]). }
  rewrite (IH _ Hw), Hd. apply where_aset. eapply episode_no_source, episode_txt_number; done.
Qed.

Lemma end_of_snoc prev rs rel a b : end_of prev (rs ++ [(rel, a, b)]) = Some (rel, b).
Proof. unfold end_of. by rewrite last_snoc. Qed.

Lemma register_view d p rs : ledger_view p rs -> _check_source_ranges isdigit decimal (register_orphan_episode_entries isdigit decimal d p) = Ok tt ->
  dict_get (u "episodes") (register_orphan_episode_entries isdigit decimal d p) = Some (JArr (entries_of p)).
Proof.
  intros [Hs Hv]%view_shaped Hc. destruct (register_checked isdigit decimal d p Hs Hc) as (_ & _ & ->). by rewrite (sort_numbered _ _ _ Hv).
Qed.

Lemma register_cursor d p : ledger_shaped p -> cursor_of (register_orphan_episode_entries isdigit decimal d p) = cursor_of p.
Proof. intros Hs. rewrite register_shaped by done. apply cursor_of_set. intros [=]. Qed.

(** Where the commit finds planning to resume. *)
Lemma start_of_ledger d p rs :
  well_planned p rs -> sources d = docs -> _check_source_ranges isdigit decimal (register_orphan_episode_entries isdigit decimal d p) = Ok tt ->
  forall x, _effective_start nfc isdigit decimal float_true d (register_orphan_episode_entries isdigit decimal d p) = Ok x -> start_of rs = Some x.
Proof.
  intros [Hv Hcur _ Ht] Hd Hc x Hx. pose proof (view_shaped _ _ Hv) as [Hs Hview]. pose proof (register_view _ _ _ Hv Hc) as Hg.
  pose proof (register_cursor d p Hs) as Hrc. rewrite Hcur in Hrc. unfold start_of. destruct (end_of None rs) as [[rel o]|] eqn:He.
  - erewrite start_at_end in Hx; [|done..]. by apply Ok_inj in Hx as <-.
  - assert (rs = []) as ->.
    { unfold end_of in He. destruct rs as [|r rs]; [done|]. destruct (last (r :: rs)) as [[[]]|] eqn:El; [done|]. by apply last_None in El. }
    destruct (entries_of p); [|done]. unfold _effective_start in Hx. rewrite (iter_entries _ _ _ Hg), Hrc, Hd in Hx. cbn [bind] in Hx.
    unfold last_anchored in Hx. cbn in Hx. destruct docs; [done|]. by apply Ok_inj in Hx as <-.
Qed.

Lemma commit_planned p0 d0 p1 rq drafts ends p d q sums stale ex d' rs :
  sources d0 = docs -> prepare p0 d0 = Ok (p1, inl rq) ->
  StronglySorted lt (0 :: ends) -> Forall (fun e => e <= length (rq_window rq)) ends ->
  well_planned p rs -> sources d = docs ->
  commit rq drafts ends p d = (Ok (q, sums, stale, ex), d') ->
  well_planned q (rs ++ slices (rq_source rq) (rq_start rq) (rq_start rq) ends) /\ sources d' = docs.
Proof.
  intros Hd0 Hprep Hsort Hle Hwp Hd Hcommit. pose proof (wp_view _ _ Hwp) as Hv. pose proof (view_shaped _ _ Hv) as [Hs Hview].
  destruct (commit_inv _ _ _ _ _ _ _ _ _ _ _ _ _ _ _ _ _ _ Hcommit) as (all & [new sums'] & e & Hc & Hst & _ & _ & Ha & Hn & He & Hq & _).
  pose proof (start_of_ledger _ _ _ Hwp Hd Hc _ Hst) as Hstart. destruct (rq_start_ref rq) as [rel o] eqn:Href.
  destruct (plan_tiles _ _ _ _ _ _ _ _ Hd0 Hprep Href (wp_tiled _ _ Hwp) Hstart Hsort Hle) as [Htl Hpos].
  rewrite (iter_entries _ _ _ (register_view _ _ _ Hv Hc)) in Ha. apply Ok_inj in Ha as <-. rewrite (view_present _ _ _ Hview) in Hq, Hn.
  rewrite (next_number_numbered _ _ _ _ Hview) in Hn. apply (planned_entries_view isdigit decimal) in Hn. cbn [fst] in Hq.
  set (fresh := map JObj new.*1) in *. set (rs' := slices (rq_source rq) (rq_start rq) (rq_start rq) ends) in *.
  assert (map view (entries_of p ++ fresh) = numbered 1 (rs ++ rs')) as Hall by (by rewrite map_app, numbered_app, Hview, Hn).
  assert (dict_get (u "episodes") q = Some (JArr (entries_of p ++ fresh))) as Hqe
    by (rewrite Hq, committed_episodes; by rewrite (sort_numbered _ _ _ Hall)).
  split; [split|].
  - right. eauto.
  - rewrite Hq, committed_cursor. rewrite (proj2 (Z.leb_le 0 (rq_start rq + Z.of_nat e))) by (clear -Hpos; lia).
    destruct (last_Some ends e) as [[es ->] _]; [done|]. unfold rs'. destruct (slices_snoc (rq_source rq) (rq_start rq) (rq_start rq) es e) as [a ->].
    by rewrite app_assoc, end_of_snoc.
  - rewrite Hq. unfold committed_project. rewrite dict_get_set_eq, Hd. apply mismatched_self.
  - apply tiled_app. split; [apply (wp_tiled _ _ Hwp)|done].
  - destruct (commit_files _ _ _ _ _ _ _ _ _ _ _ _ _ _ _ _ _ _ Hs Hcommit) as (ws & d1 & H1 & H2 & -> & _).
    rewrite <- Hd. apply discover_sources_ext. rewrite drop_remaining_sources. rewrite (write_all_sources ws _ _) with (2 := H2); [done|].
    apply write_numbers in H1. apply Forall_forall. intros w Hw. assert (w.1 ∈ ws.*1) as Hin by (by apply list_elem_of_fmap_2).
    rewrite H1 in Hin. apply list_elem_of_omap in Hin as (x & Hx & Hxn). unfold entries_of in Hx. rewrite Hqe in Hx.
    destruct (numbered_later _ _ _ _ Hall Hx) as (k & Hk & Hb). rewrite Hk in Hxn. injection Hxn as <-. lia.
Qed.

(** *** Taking back *)

Lemma reset_planned from confirm before s r s' :
  sources (rs_disk s) = docs ->
  reset_episode_planning nfc isdigit decimal sha256 episode_number from confirm before s = (Ok (Reset r), s') ->
  exists rs, well_planned (rs_project s') rs /\ sources (rs_disk s') = docs.
Proof.
  intros Hd. unfold reset_episode_planning. destruct (from <? 1)%Z eqn:E1; [done|].
  destruct (if (1 <? from)%Z then _ else _) as [c0|]; [|done]. destruct (negb _ && _); [done|].
  destruct (commit_reset _ _ _ _ _ _ _ _) as [[[p m] current]|] eqn:Ec; [|done].
  destruct (_apply_files (rs_disk s) current) as [[[del arch]|] d'] eqn:Ea; [|done]. intros [_ <-]%pair_equal_spec. cbn [rs_project rs_disk].
  unfold commit_reset in Ec. apply bind_Ok in Ec as (cursor & Hcur & Ec). destruct (existsb _ _); [done|].
  apply bind_Ok in Ec as (m' & _ & Ec). apply Ok_inj in Ec. apply pair_equal_spec in Ec as [[<- _]%pair_equal_spec <-].
  pose proof (applied_sources nfc isdigit decimal _ _ _ _ _ Ea) as Hsrc. rewrite Hd in Hsrc.
  destruct (1 <? from)%Z eqn:Ef.
  - apply bind_Ok in Hcur as ([rel o] & Hr & H). apply Ok_inj in H as <-.
    pose proof Hr as Hr'. apply (partial_inv _ _ _ _ float_true) in Hr' as (rs & Hv & Hlen & Ht & He). rewrite Hd in Ht. exists rs. split; [|done].
    destruct (tiled_cover docs 1 None rs I Ht) as [Hpos _]. rewrite He in Hpos. destruct Hpos as (t & _ & Ho). split.
    + right. exists (kept_entries isdigit decimal (rs_project s) from). split; [|done]. unfold reset_project.
      by rewrite dict_get_set_ne, dict_get_set_eq by (intros [=]).
    + unfold reset_project. rewrite cursor_set, He. by rewrite (proj2 (Z.leb_le 0 o)) by (clear -Ho; lia).
    + unfold reset_project. rewrite !dict_get_set_ne by (intros [=]). unfold _resolve_partial_reset_cursor in Hr.
      destruct (dict_get (u "episodes") (rs_project s)) as [[| | | | |raw|]|]; try done. apply bind_Ok in Hr as (es & _ & Hr).
      destruct (negb (bool_decide (from ∈ _))); [done|]. destruct (negb (first_gap _ _ =? _)%Z); [done|]. rewrite Hd in Hr.
      destruct (bool_decide (mismatched_source_fingerprints _ _ _ = [])) eqn:Em; [|done]. by apply bool_decide_eq_true in Em.
    + done.
  - apply Ok_inj in Hcur as <-. exists []. split; [|done]. split; [| | |done].
    + right. exists []. split; [|done]. unfold reset_project. rewrite dict_get_del, bool_decide_eq_false_2 by (intros [=]).
      by rewrite dict_get_set_ne, dict_get_set_eq by (intros [=]).
    + unfold reset_project, cursor_of. rewrite dict_get_del, bool_decide_eq_false_2 by (intros [=]). by rewrite dict_get_set_eq.
    + unfold reset_project. by rewrite dict_get_del, bool_decide_eq_true_2.
Qed.

(** *** All histories *)

(** The same episodes, cursor and fingerprints; anything else may differ. *)
Record same_plan (p p' : dict) : Prop := {
  sp_episodes : dict_get (u "episodes") p = None /\ dict_get (u "episodes") p' = None
                \/ exists l l', dict_get (u "episodes") p = Some (JArr l) /\ dict_get (u "episodes") p' = Some (JArr l') /\ map view l = map view l';
  sp_cursor : cursor_of p' = cursor_of p;
  sp_fingerprints : dict_get SOURCE_FINGERPRINTS_KEY p' = dict_get SOURCE_FINGERPRINTS_KEY p
}.

Inductive planned : dict -> Disk -> Prop :=
| planned_fresh p d : ledger_view p [] -> cursor_of p = None -> dict_get SOURCE_FINGERPRINTS_KEY p = None -> sources d = docs -> planned p d
| planned_edit p d p' d' : planned p d -> same_plan p p' -> sources d' = docs -> planned p' d'
| planned_plan p d generator attempts p0 d0 r q d' :
    planned p d -> sources d0 = docs ->
    plan nfc isdigit decimal sha256 is_word lower float_true step1_fingerprint generator attempts (p0, d0) (p, d) = (Ok r, (q, d')) ->
    planned q d'
| planned_reset s from confirm before r s' :
    planned (rs_project s) (rs_disk s) ->
    reset_episode_planning nfc isdigit decimal sha256 episode_number from confirm before s = (Ok (Reset r), s') ->
    planned (rs_project s') (rs_disk s').

Lemma ledger_view_set k v p rs : k <> u "episodes" -> ledger_view p rs -> ledger_view (dict_set k v p) rs.
Proof. intros Hk. unfold ledger_view. by rewrite dict_get_set_ne by done. Qed.

Lemma same_plan_view p p' rs : same_plan p p' -> ledger_view p rs -> ledger_view p' rs.
Proof.
  intros [[[H1 H2]|(l & l' & H1 & H2 & Hv)] _ _]; unfold ledger_view; rewrite H1, H2.
  - intros [[_ ->]|(? & ? & _)]; [by left|done].
  - intros [[? _]|(x & [= <-] & Hx)]; [done|]. right. exists l'. split; [done|congruence].
Qed.

Lemma planned_well p d : planned p d -> (exists rs, well_planned p rs) /\ sources d = docs.
Proof.
  induction 1 as [p d Hv Hc Hf Hd|p d p' d' _ [[rs Hwp] _] Hsame Hd|p d gen att p0 d0 r q d' _ [[rs Hwp] Hd] Hd0 Hplan|s from confirm before r s' _ [_ Hd] Hr].
  - split; [|done]. exists []. split; [done|done| |done]. by rewrite Hf.
  - split; [|done]. exists rs. destruct Hwp as [H1 H2 H3 H4]. split; [by eapply same_plan_view| | |done].
    + by rewrite (sp_cursor _ _ Hsame).
    + by rewrite (sp_fingerprints _ _ Hsame).
  - unfold plan in Hplan. cbn [fst snd] in Hplan. destruct (prepare p0 d0) as [[p1 [rq|used]]|] eqn:Ep; [| |done].
    + destruct (_request_validated_drafts _ _ _ _ _ _ _) as [[drafts ends]|] eqn:Ea; [|done].
      destruct (commit rq drafts ends p d) as [[[[[q' sums] stale] ex]|] d2] eqn:Ec; [|done].
      apply pair_equal_spec in Hplan as [_ [-> ->]%pair_equal_spec].
      unfold _request_validated_drafts in Ea. destruct gen as [generate|]; [|done]. apply ask_ok in Ea as [_ Hb].
      apply resolve_boundaries_ok in Hb as (_ & H2 & H3 & _).
      destruct (commit_planned _ _ _ _ _ _ _ _ _ _ _ _ _ _ Hd0 Ep H2 H3 Hwp Hd Ec) as [Hq Hs]. eauto.
    + destruct (_backfill_source_fingerprints_if_missing _ _ _ _ _ _) as [[q1 w]|] eqn:Eb; [|done].
      apply pair_equal_spec in Hplan as [_ [<- <-]%pair_equal_spec]. split; [|done]. exists rs.
      unfold _backfill_source_fingerprints_if_missing in Eb.
      assert (w = None \/ w = Some (dict_set SOURCE_FINGERPRINTS_KEY (fingerprints_json (fingerprints (sources d))) p)) as [-> | ->].
      { destruct (dict_get SOURCE_FINGERPRINTS_KEY p1) as [[]|]; try (by apply Ok_inj, pair_equal_spec in Eb as [_ <-]; left);
          apply bind_Ok in Eb as ([] & _ & Eb); (case_bool_decide; [|done]); apply Ok_inj, pair_equal_spec in Eb as [_ <-]; by right. }
      * done.
      * destruct Hwp as [H1 H2 H3 H4]. cbn [default from_option]. unfold id. split; [apply ledger_view_set; [intros [=]|done]| | |done].
        -- rewrite cursor_of_set by (intros [=]). done.
        -- rewrite dict_get_set_eq, Hd. apply mismatched_self.
  - destruct (reset_planned _ _ _ _ _ _ Hd Hr) as (rs & Hwp & Hs). eauto.
Qed.

(** *** The checks of a partial reset, in the other direction *)

Lemma entries_by_num_intro raw acc a rs :
  map view raw = numbered a rs -> (1 <= a)%Z -> Forall (fun n => (n < a)%Z) acc.*1 ->
  exists ms, entries_by_num isdigit decimal raw acc = Ok (acc ++ ms) /\ ms.*1 = seqZ a (Z.of_nat (length rs))
    /\ map parse_source_range (map snd ms) = map Some rs.
Proof.
  revert acc a rs. induction raw as [|e raw IH]; intros acc a [|r rs] Hv Ha Hacc; try done.
  - exists []. by rewrite app_nil_r.
  - cbn [map numbered] in Hv. injection Hv as Hn Hr Hv. destruct e as [| | | | | |m]; try done. cbn [range_of] in Hr. cbn [entries_by_num]. rewrite Hn.
    rewrite (proj2 (Z.ltb_ge a 1)) by (clear -Ha; lia). rewrite bool_decide_eq_false_2.
    2:{ intros Hin. eapply Forall_forall in Hacc; [|exact Hin]. cbn beta in Hacc. lia. }
    destruct (IH (acc ++ [(a, m)]) (a + 1)%Z rs Hv) as (ms & H1 & H2 & H3); [lia| |].
    { rewrite fmap_app, Forall_app. split; [|repeat constructor; cbn; lia]. eapply Forall_impl; [exact Hacc|]. cbn. lia. }
    exists ((a, m) :: ms). rewrite H1, <- app_assoc. split; [done|]. cbn [map length fst snd]. rewrite H3, Hr. split; [|done].
    rewrite seqZ_cons by lia. change (a :: ms.*1 = a :: seqZ (Z.succ a) (Z.pred (Z.of_nat (S (length rs))))). rewrite H2. do 2 f_equal; lia.
Qed.

Lemma first_gap_seqZ a n : (0 <= n)%Z -> first_gap a (seqZ a n) = (a + n)%Z.
Proof.
  intros Hn. rewrite <- (Z2Nat.id n) by done. clear Hn. generalize (Z.to_nat n) as k. intros k. revert a. induction k as [|k IH]; intros a.
  - rewrite seqZ_nil by lia. cbn [first_gap]. lia.
  - rewrite seqZ_cons by lia. cbn [first_gap]. rewrite Z.eqb_refl. replace (Z.pred (Z.of_nat (S k))) with (Z.of_nat k) by lia.
    replace (Z.succ a) with (a + 1)%Z by lia. rewrite IH. lia.
Qed.

Lemma where_seqZ a n k : (0 <= k <= n)%Z -> where_ (fun x => (x <? a + k)%Z) (seqZ a n) = seqZ a k.
Proof.
  intros H. replace n with (k + (n - k))%Z by lia. rewrite seqZ_app by lia. rewrite List.filter_app.
  assert (where_ (fun x => (x <? a + k)%Z) (seqZ (a + k) (n - k)) = []) as ->.
  { apply where_nil. intros x Hx. apply elem_of_seqZ in Hx. lia. }
  rewrite app_nil_r. assert (Forall (fun x => (x <? a + k)%Z = true) (seqZ a k)) as Hall
    by (apply Forall_forall; intros x Hx; apply elem_of_seqZ in Hx; lia).
  induction Hall as [|x l Hx _ IH]; [done|]. cbn [List.filter]. by rewrite Hx, IH.
Qed.

Lemma seqZ_isort a n : isort Z.leb (seqZ a n) = seqZ a n.
Proof.
  apply isort_id. destruct (decide (0 <= n)%Z) as [Hn|Hn]; [|by rewrite seqZ_nil by lia; constructor].
  rewrite <- (Z2Nat.id n) by done. clear Hn. generalize (Z.to_nat n) as k. intros k. revert a. induction k as [|k IH]; intros a; [constructor|].
  rewrite seqZ_cons by lia. replace (Z.pred (Z.of_nat (S k))) with (Z.of_nat k) by lia. constructor; [apply IH|].
  apply Forall_forall. intros x Hx. apply elem_of_seqZ in Hx. apply Is_true_true. lia.
Qed.

Lemma check_list_intro num prev l rs : tiled docs num prev rs -> map parse_source_range l = map Some rs ->
  check_list docs num prev l = Ok (end_of prev rs).
Proof.
  revert num prev rs. induction l as [|m l IH]; intros num prev [|[[rel a] b] rs] Ht Hr; try done. cbn [map] in Hr. injection Hr as Hm Hr.
  destruct Ht as [Hc Ht]. cbn [check_list]. unfold check_episode. rewrite Hm, Hc. cbn [bind]. rewrite end_of_cons. by apply IH.
Qed.

Lemma accepted p d rs kept rest :
  well_planned p rs -> sources d = docs -> rs = kept ++ rest -> rest <> [] ->
  forall c, end_of None kept = Some c ->
  _resolve_partial_reset_cursor nfc isdigit decimal sha256 d p (1 + Z.of_nat (length kept)) = Ok c.
Proof.
  intros [Hv _ Hf Ht] Hd -> Hrest c Hc. unfold _resolve_partial_reset_cursor.
  destruct Hv as [[_ H]|(l & Hg & Hv)]; [apply app_eq_nil in H as [_ H]; done|]. rewrite Hg.
  destruct (entries_by_num_intro l [] 1 _ Hv) as (ms & -> & Hms & Hr); [lia|constructor|]. cbn [bind app]. rewrite Hms, length_app.
  assert (0 < length rest) as Hpos by (destruct rest; [done|cbn; lia]).
  rewrite bool_decide_eq_true_2 by (apply elem_of_seqZ; lia). cbn [negb].
  rewrite where_seqZ, seqZ_isort, first_gap_seqZ, Z.eqb_refl by lia. cbn [negb].
  rewrite Hd, bool_decide_eq_true_2 by done. cbn [negb]. replace (Z.to_nat (1 + Z.of_nat (length kept) - 1)) with (length kept) by lia.
  rewrite !map_app in Hr. apply map_eq_app in Hr as (l1 & l2 & Hl & Hr1 & Hr2).
  assert (length l1 = length kept) as Hlen by (apply (f_equal length) in Hr1; by rewrite !length_map in Hr1).
  rewrite <- Hlen, check_kept_list.
  - apply tiled_app in Ht as [Ht _]. rewrite (check_list_intro _ _ _ _ Ht Hr1). cbn [bind]. by rewrite Hc.
  - intros i m Hi. assert (map snd ms !! i = Some m) as Hm by (rewrite Hl; by apply lookup_app_l_Some).
    rewrite list_lookup_fmap in Hm. destruct (ms !! i) as [[n m']|] eqn:Ei; [|done]. injection Hm as ->.
    assert (ms.*1 !! i = Some n) as Hn by (rewrite list_lookup_fmap; by rewrite Ei). rewrite Hms in Hn. apply lookup_seqZ in Hn as [-> _].
    apply aget_elem; [rewrite Hms; apply NoDup_seqZ|by eapply list_elem_of_lookup_2].
Qed.

(** C24: Whatever the planner, resets and edits that leave the division alone have
    done to a project whose sources stay the same, its episodes are numbered
    from 1, their texts are, apart from white space, the text of the sources
    up to the cursor, and taking back the episodes from any later number on is
    accepted and puts the cursor at the end of the last episode kept. *)
Theorem planned_ledger_resettable p d :
  planned p d ->
  exists rs, ledger_view p rs
    /\ ink (concat (map (slice_text docs) rs)) = ink (reached docs (cursor_of p))
    /\ forall kept rest, rs = kept ++ rest -> kept <> [] -> rest <> [] ->
         exists c, end_of None kept = Some c
           /\ _resolve_partial_reset_cursor nfc isdigit decimal sha256 d p (1 + Z.of_nat (length kept)) = Ok c.
Proof.
  intros [[rs Hwp] Hd]%planned_well. exists rs. split; [apply (wp_view _ _ Hwp)|].
  destruct (tiled_cover docs 1 None rs I (wp_tiled _ _ Hwp)) as [_ Hink]. split; [by rewrite (wp_cursor _ _ Hwp), Hink|].
  intros kept rest Hrs Hk Hr. destruct (end_of None kept) as [c|] eqn:He.
  - exists c. split; [done|]. by eapply accepted.
  - unfold end_of in He. destruct (last kept) as [[[]]|] eqn:El; [done|]. by apply last_None in El.
Qed.
End planned.

(** ** Examples *)

Definition demo_docs : list SourceDoc := discover_sources id demo_sources.
Definition demo_ledger : dict := (demo_plan [] demo_sources).2.1.
Definition demo_planned_disk : Disk := (demo_plan [] demo_sources).2.2.

Lemma planned_ledger_resettable_witness :
  exists rs, ledger_view is_digit demo_decimal demo_ledger rs /\ length rs = 2
    /\ exists c, _resolve_partial_reset_cursor id is_digit demo_decimal id demo_planned_disk demo_ledger 2 = Ok c.
Proof.
  assert (exists r, demo_plan [] demo_sources = (Ok r, (demo_ledger, demo_planned_disk))) as [r E] by (vm_compute; eauto).
  destruct (planned_ledger_resettable id is_digit demo_decimal id is_digit id (fun _ => true) (fun _ _ => None) (fun k : option Z => k)
              demo_docs (NoDup_singleton _) demo_ledger demo_planned_disk) as (rs & Hv & _ & H).
  - eapply planned_plan with (p0 := []) (d0 := demo_sources); [|reflexivity|exact E].
    apply planned_fresh; [left; split; reflexivity|reflexivity..].
  - exists rs. split; [exact Hv|]. destruct Hv as [[Hv _]|(l & Hl & Hv)]; [vm_compute in Hv; discriminate Hv|].
    assert (length rs = 2) as Hlen.
    { rewrite <- (numbered_length 1 rs), <- Hv, length_map. vm_compute in Hl. injection Hl as <-. reflexivity. }
    split; [exact Hlen|]. destruct rs as [|r1 [|r2 [|]]]; try discriminate Hlen.
    destruct (H [r1] [r2]) as (c & _ & Hc); [reflexivity|discriminate|discriminate|]. exists c. exact Hc.
Defined.

Lemma partial_reset_sound_witness :
  exists rel o ranges, _resolve_partial_reset_cursor id is_digit demo_decimal id demo_planned_disk demo_ledger 2 = Ok (rel, o)
    /\ map (view is_digit demo_decimal) (kept_entries is_digit demo_decimal demo_ledger 2) = numbered 1 ranges
    /\ ink (concat (map (slice_text demo_docs) ranges)) = u "Rainfell.Thedooropened.".
Proof.
  assert (_resolve_partial_reset_cursor id is_digit demo_decimal id demo_planned_disk demo_ledger 2 = Ok (u "source/novel.txt", 27%Z)) as E
    by (vm_compute; reflexivity).
  destruct (partial_reset_sound id is_digit demo_decimal id (fun _ => true) _ _ _ _ _ E) as (ranges & Hv & _ & Hink & _).
  assert (discover_sources id demo_planned_disk = demo_docs) as Hd by (vm_compute; reflexivity). rewrite Hd in Hink.
  exists (u "source/novel.txt"), 27%Z, ranges. split; [exact E|]. split; [exact Hv|]. rewrite Hink. vm_compute. reflexivity.
Defined.
