(* ===== verification/DurationMigration.v ===== *)
(** * Taking over the durations of old drafts

    [lib/reference_video/duration_migration.py]: the seconds that shots used to
    carry are moved to their unit.  The code rewrites the documents in place;
    here each function returns the rewritten value. *)

From S2P Require Import Prelude Json Guards EpisodeReset.
From Stdlib Require Import QArith.
Open Scope nat_scope.
Open Scope spool_scope.
Import Guards.DurationSlots.

Definition REFERENCE_UNIT_DURATION_RANGE : Z * Z := (1, 300)%Z.
Definition _LEGACY_SHOT_FIELD : pystr := u "duration".
Definition _LEGACY_UNIT_FIELD : pystr := u "duration_override".

Definition _positive_int (value : option json) : option Z :=
  match value with Some (JInt z) => if (0 <? z)%Z then Some z else None | _ => None end.

(** The shots without their seconds, the sum of these, and whether any shot
    had the field. *)
Fixpoint strip_shots (shots : list json) : list json * Z * bool :=
  match shots with
  | [] => ([], 0%Z, false)
  | shot :: rest =>
      let '(rest', total, stripped) := strip_shots rest in
      match shot with
      | JObj m =>
          match dict_get _LEGACY_SHOT_FIELD m with
          | Some v => (JObj (dict_del _LEGACY_SHOT_FIELD m) :: rest', (default 0 (_positive_int (Some v)) + total)%Z, true)
          | None => (shot :: rest', total, stripped)
          end
      | _ => (shot :: rest', total, stripped)
      end
  end.

Definition _strip_legacy_shot_durations (unit : dict) : dict * option Z * bool :=
  match dict_get (u "shots") unit with
  | Some (JArr shots) =>
      let '(shots', total, stripped) := strip_shots shots in
      (dict_set (u "shots") (JArr shots') unit, if (total =? 0)%Z then None else Some total, stripped)
  | _ => (unit, None, false)
  end.

(** The two warnings, with their parameters. *)
Inductive DurationWarning :=
| val_unit_duration_clamped (unit_id : option json) (target low high clamped : Z)
| val_unit_duration_slotted (unit_id : option json) (duration : Z) (durations : list Z) (slot : Z).

(** The seconds a unit gets. *)
Definition settle_duration (supported_durations : list Z) (unit_id : option json) (target : Z) : Z * list DurationWarning :=
  let '(low, high) := REFERENCE_UNIT_DURATION_RANGE in
  let clamped := Z.min (Z.max target low) high in
  let w1 := if (clamped =? target)%Z then [] else [val_unit_duration_clamped unit_id target low high clamped] in
  match supported_durations with
  | [] => (clamped, w1)
  | _ =>
      let slot := seconds (resolve_duration_slot (inject_Z clamped) supported_durations) in
      (slot, w1 ++ if (slot =? clamped)%Z then []
                   else [val_unit_duration_slotted unit_id clamped (isort Z.leb (remove_dups supported_durations)) slot])
  end.

(** One round of the loop; [None] where the unit has no legacy field. *)
Definition migrate_unit (supported_durations : list Z) (unit : dict) : dict * option (list DurationWarning) :=
  let '(unit1, legacy_total, stripped) := _strip_legacy_shot_durations unit in
  let had_override := bool_decide (is_Some (dict_get _LEGACY_UNIT_FIELD unit1)) in
  let unit2 := dict_del _LEGACY_UNIT_FIELD unit1 in
  if negb stripped && negb had_override then (unit2, None)
  else
    match (match _positive_int (dict_get (u "duration_seconds") unit2) with Some z => Some z | None => legacy_total end) with
    | None => (unit2, Some [])
    | Some target =>
        let '(secs, warnings) := settle_duration supported_durations (dict_get (u "unit_id") unit2) target in
        (dict_set (u "duration_seconds") (JInt secs) unit2, Some warnings)
    end.

Fixpoint migrate_units (supported_durations : list Z) (units : list json) : list json * bool * list DurationWarning :=
  match units with
  | [] => ([], false, [])
  | x :: rest =>
      let '(rest', changed, warnings) := migrate_units supported_durations rest in
      match x with
      | JObj unit =>
          match migrate_unit supported_durations unit with
          | (unit', Some w) => (JObj unit' :: rest', true, w ++ warnings)
          | (unit', None) => (JObj unit' :: rest', changed, warnings)
          end
      | _ => (x :: rest', changed, warnings)
      end
  end.

(** On the value of [units] in its document; [supported_durations] is falsy
    when it is [None] or empty. *)
Definition migrate_unit_durations (units : option json) (supported_durations : option (list Z))
    : option json * bool * list DurationWarning :=
  match units with
  | Some (JArr l) =>
      let '(l', changed, warnings) := migrate_units (default [] supported_durations) l in (Some (JArr l'), changed, warnings)
  | _ => (units, false, [])
  end.

(** The document with its units migrated. *)
Definition migrate_document (key : pystr) (supported_durations : option (list Z)) (content : dict) : dict * bool * list DurationWarning :=
  match migrate_unit_durations (dict_get key content) supported_durations with
  | (Some units, changed, warnings) => (dict_set key units content, changed, warnings)
  | (None, changed, warnings) => (content, changed, warnings)
  end.

Definition migrate_script_unit_durations (script : json) : json * bool * list DurationWarning :=
  match script with
  | JObj m => let '(m', changed, warnings) := migrate_document (u "video_units") None m in (JObj m', changed, warnings)
  | _ => (script, false, [])
  end.

(** ** What a unit says apart from legacy fields *)

Definition bare_shot (shot : json) : json := match shot with JObj m => JObj (dict_del _LEGACY_SHOT_FIELD m) | _ => shot end.

Definition bare_unit (unit : dict) : dict :=
  dict_del (u "duration_seconds") (dict_del _LEGACY_UNIT_FIELD
    (match dict_get (u "shots") unit with Some (JArr shots) => dict_set (u "shots") (JArr (map bare_shot shots)) unit | _ => unit end)).

(** The seconds of a unit before or after the migration. *)
Definition unit_seconds (unit : dict) : option Z :=
  match _positive_int (dict_get (u "duration_seconds") unit) with
  | Some z => Some z
  | None => (_strip_legacy_shot_durations unit).1.2
  end.

Lemma dict_del_id k d : dict_get k d = None -> dict_del k d = d.
Proof.
  unfold dict_del. induction d as [|[k' v] d IH]; cbn [dict_get List.filter fst]; [done|]. case_bool_decide; [done|]. intros H'%IH. cbn [negb]. by rewrite H'.
Qed.

Lemma dict_del_set k v d : dict_del k (dict_set k v d) = dict_del k d.
Proof.
  unfold dict_del. induction d as [|[k' v'] d IH]; cbn [dict_set List.filter fst]; [by rewrite bool_decide_eq_true_2|].
  destruct (decide (k' = k)) as [->|Hk].
  - rewrite bool_decide_eq_true_2 by done. cbn [List.filter fst]. by rewrite bool_decide_eq_true_2.
  - rewrite bool_decide_eq_false_2 by done. cbn [List.filter fst]. rewrite IH. by rewrite bool_decide_eq_false_2.
Qed.

Lemma dict_del_set_ne k k' v d : k <> k' -> dict_del k (dict_set k' v d) = dict_set k' v (dict_del k d).
Proof.
  intros Hk. unfold dict_del. induction d as [|[x w] d IH]; cbn [dict_set List.filter fst]; [by rewrite bool_decide_eq_false_2 by done|].
  destruct (decide (x = k')) as [->|Hx].
  - rewrite (bool_decide_eq_true_2 (k' = k')) by done. cbn [List.filter fst]. rewrite (bool_decide_eq_false_2 (k' = k)) by done. cbn [negb dict_set].
    by rewrite bool_decide_eq_true_2.
  - rewrite (bool_decide_eq_false_2 (x = k')) by done. cbn [List.filter fst]. rewrite IH.
    destruct (bool_decide (x = k)); cbn [negb dict_set]; [done|]. by rewrite (bool_decide_eq_false_2 (x = k')).
Qed.

Lemma dict_del_del k d : dict_del k (dict_del k d) = dict_del k d.
Proof. apply dict_del_id. by rewrite dict_get_del, bool_decide_eq_true_2. Qed.

Lemma dict_del_comm k k' d : dict_del k (dict_del k' d) = dict_del k' (dict_del k d).
Proof. unfold dict_del. induction d as [|x d IH]; [done|]. cbn [List.filter]. repeat (case_goal; cbn [List.filter]); congruence. Qed.

Lemma dict_set_set k v w d : dict_set k v (dict_set k w d) = dict_set k v d.
Proof.
  induction d as [|[x y] d IH]; cbn [dict_set]; [by rewrite bool_decide_eq_true_2|].
  destruct (bool_decide (x = k)) eqn:E; cbn [dict_set]; rewrite E; [done|]. by rewrite IH.
Qed.

(** ** Stripping *)

Lemma strip_shots_bare l : exists t s, strip_shots l = (map bare_shot l, t, s) /\ (0 <= t)%Z /\ (s = false -> t = 0%Z /\ map bare_shot l = l).
Proof.
  induction l as [|x l (t & s & IH & Ht & Hs)]; [by exists 0%Z, false|]. cbn [strip_shots map]. rewrite IH.
  destruct x as [| | | | | |m]; try (exists t, s; split; [done|]; split; [done|]; intros [-> Hl]%Hs; split; [done|]; cbn [bare_shot]; by rewrite Hl).
  destruct (dict_get _LEGACY_SHOT_FIELD m) as [v|] eqn:E.
  - eexists _, true. split; [done|]. split; [|done]. unfold _positive_int. destruct v; cbn; try lia. destruct (0 <? z)%Z eqn:Ez; cbn; lia.
  - exists t, s. cbn [bare_shot]. rewrite (dict_del_id _ _ E). split; [done|]. split; [done|]. intros [-> Hl]%Hs. by rewrite Hl.
Qed.

Lemma strip_bare l : strip_shots (map bare_shot l) = (map bare_shot l, 0%Z, false).
Proof.
  induction l as [|x l IH]; [done|]. cbn [map strip_shots]. rewrite IH. destruct x as [| | | | | |m]; try done. cbn [bare_shot].
  by rewrite dict_get_del, bool_decide_eq_true_2.
Qed.

Lemma bare_bare l : map bare_shot (map bare_shot l) = map bare_shot l.
Proof. rewrite map_map. apply map_ext. intros [| | | | | |m]; try done. cbn. by rewrite dict_del_del. Qed.

(** The unit whose shots are bare. *)
Definition bare_shots (unit : dict) : dict :=
  match dict_get (u "shots") unit with Some (JArr shots) => dict_set (u "shots") (JArr (map bare_shot shots)) unit | _ => unit end.

Lemma strip_unit unit : exists t s, _strip_legacy_shot_durations unit = (bare_shots unit, t, s)
  /\ (forall z, t = Some z -> (0 < z)%Z) /\ (s = false -> t = None /\ bare_shots unit = unit).
Proof.
  unfold _strip_legacy_shot_durations, bare_shots. destruct (dict_get (u "shots") unit) as [[| | | | |l|]|] eqn:E; try (by exists None, false).
  destruct (strip_shots_bare l) as (t & s & -> & Ht & Hs). eexists _, s. split; [done|]. split.
  - intros z. destruct (t =? 0)%Z eqn:Ez; [done|]. intros [= <-]. lia.
  - intros [-> Hl]%Hs. split; [done|]. rewrite Hl. by apply dict_set_same.
Qed.

Lemma bare_shots_get k unit : k <> u "shots" -> dict_get k (bare_shots unit) = dict_get k unit.
Proof. intros Hk. unfold bare_shots. destruct (dict_get (u "shots") unit) as [[]|]; try done. apply dict_get_set_ne. congruence. Qed.

(** A unit whose shots are bare and whose other members are set or deleted
    has nothing left to strip. *)
Lemma strip_nothing unit unit' : dict_get (u "shots") unit' = dict_get (u "shots") (bare_shots unit) ->
  _strip_legacy_shot_durations unit' = (unit', None, false).
Proof.
  intros H. unfold _strip_legacy_shot_durations. destruct (dict_get (u "shots") unit') as [[| | | | |l|]|] eqn:E; try done.
  assert (exists l0, l = map bare_shot l0) as [l0 ->].
  { unfold bare_shots in H. destruct (dict_get (u "shots") unit) as [[| | | | |l0|]|] eqn:E0; rewrite ?dict_get_set_eq in H; try congruence.
    exists l0. congruence. }
  rewrite strip_bare. change (0 =? 0)%Z with true. by rewrite dict_set_same.
Qed.

Lemma bare_shots_same unit unit' : dict_get (u "shots") unit' = dict_get (u "shots") (bare_shots unit) -> bare_shots unit' = unit'.
Proof.
  intros H%strip_nothing. destruct (strip_unit unit') as (t & s & H' & _ & Hs). rewrite H in H'. by injection H' as <-.
Qed.

Lemma bare_unit_eq unit : bare_unit unit = dict_del (u "duration_seconds") (dict_del _LEGACY_UNIT_FIELD (bare_shots unit)).
Proof. done. Qed.

Lemma bare_unit_of_stripped unit unit' :
  unit' = dict_del _LEGACY_UNIT_FIELD (bare_shots unit) \/ (exists v, unit' = dict_set (u "duration_seconds") v (dict_del _LEGACY_UNIT_FIELD (bare_shots unit))) ->
  dict_get (u "shots") unit' = dict_get (u "shots") (bare_shots unit) /\ dict_get _LEGACY_UNIT_FIELD unit' = None /\ bare_unit unit' = bare_unit unit.
Proof.
  intros H.
  assert (dict_get (u "shots") unit' = dict_get (u "shots") (bare_shots unit)) as Hs
    by (destruct H as [-> |[v ->]]; rewrite ?dict_get_set_ne, dict_get_del, bool_decide_eq_false_2 by (intros [=]); done).
  assert (dict_get _LEGACY_UNIT_FIELD unit' = None) as Hl
    by (destruct H as [-> |[v ->]]; rewrite ?dict_get_set_ne, dict_get_del, bool_decide_eq_true_2 by done; done).
  split; [done|]. split; [done|]. rewrite !bare_unit_eq, (bare_shots_same _ _ Hs), (dict_del_id _ unit' Hl).
  destruct H as [-> |[v ->]]; [done|apply dict_del_set].
Qed.

Lemma slot_member total supported : supported <> [] -> seconds (resolve_duration_slot total supported) ∈ supported.
Proof.
  intros Hne. unfold resolve_duration_slot.
  assert (forall d, d ∈ isort Z.leb (remove_dups supported) -> d ∈ supported) as Hin by (intros d; by rewrite elem_of_isort, elem_of_remove_dups).
  destruct (last (isort Z.leb (remove_dups supported))) as [g|] eqn:Eg.
  - destruct (where_ _ _) as [|c rest] eqn:Ew; cbn [seconds]; apply Hin; [by apply last_Some_elem_of|].
    assert (c ∈ c :: rest) as Hc by left. rewrite <- Ew in Hc. by apply elem_of_where in Hc as [? _].
  - apply last_None, isort_nil_inv in Eg. destruct supported as [|x l]; [done|].
    assert (x ∈ remove_dups (x :: l)) as Hx by (rewrite elem_of_remove_dups; left). rewrite Eg in Hx. by apply not_elem_of_nil in Hx.
Qed.

Lemma settle_quiet supported id target secs : settle_duration supported id target = (secs, []) -> secs = target.
Proof.
  unfold settle_duration, REFERENCE_UNIT_DURATION_RANGE. destruct supported as [|x l].
  - destruct (Z.min _ _ =? target)%Z eqn:E; intros [= <-]. lia.
  - destruct (Z.min _ _ =? target)%Z eqn:E; cbn [app]; [|done]. destruct (_ =? Z.min _ _)%Z eqn:E2; [|done]. intros [= <-]. lia.
Qed.

Lemma migrate_unit_same supported unit unit' w :
  migrate_unit supported unit = (unit', Some w) ->
  bare_unit unit' = bare_unit unit
  /\ migrate_unit supported unit' = (unit', None)
  /\ (w = [] -> unit_seconds unit' = unit_seconds unit)
  /\ (forall s, unit_seconds unit = Some s -> exists s', dict_get (u "duration_seconds") unit' = Some (JInt s')
        /\ if bool_decide (supported = []) then (1 <= s' <= 300)%Z else s' ∈ supported).
Proof.
  unfold migrate_unit. destruct (strip_unit unit) as (t & s & Hst & Htpos & Hsf). rewrite Hst.
  set (unit2 := dict_del _LEGACY_UNIT_FIELD (bare_shots unit)). destruct (negb s && negb _) eqn:Eg; [done|].
  assert (dict_get (u "duration_seconds") unit2 = dict_get (u "duration_seconds") unit) as Hds
    by (unfold unit2; rewrite dict_get_del, bool_decide_eq_false_2, bare_shots_get by (intros [=]); done).
  rewrite Hds. unfold unit_seconds at 2 3. rewrite Hst. cbn [fst snd].
  assert (forall unit', unit' = unit2 \/ (exists v, unit' = dict_set (u "duration_seconds") v unit2) ->
            bare_unit unit' = bare_unit unit /\ migrate_unit supported unit' = (unit', None) /\ (_strip_legacy_shot_durations unit').1.2 = None) as Hdone.
  { intros x Hx. destruct (bare_unit_of_stripped unit x Hx) as (H1 & H2 & H3). split; [done|].
    unfold migrate_unit. rewrite (strip_nothing _ _ H1), H2. cbn [negb andb fst snd]. rewrite bool_decide_eq_false_2 by (intros [? [=]]).
    cbn [negb]. by rewrite (dict_del_id _ _ H2). }
  destruct (match _positive_int _ with Some z => Some z | None => t end) as [target|] eqn:Et.
  - destruct (settle_duration supported _ target) as [secs ws] eqn:Es. intros [= <- <-].
    destruct (Hdone (dict_set (u "duration_seconds") (JInt secs) unit2)) as (H1 & H2 & H3); [eauto|]. split; [done|]. split; [done|]. split.
    + intros ->. apply settle_quiet in Es as ->. unfold unit_seconds. rewrite dict_get_set_eq. cbn [_positive_int].
      assert (0 < target)%Z as Hpos.
      { unfold _positive_int in Et. destruct (dict_get (u "duration_seconds") unit) as [[]|]; try (by apply Htpos).
        destruct (0 <? z)%Z eqn:Ez; [injection Et as <-; lia|by apply Htpos]. }
      by rewrite (proj2 (Z.ltb_lt _ _) Hpos).
    + intros x _. exists secs. split; [apply dict_get_set_eq|]. unfold settle_duration, REFERENCE_UNIT_DURATION_RANGE in Es. destruct supported as [|y l].
      * rewrite bool_decide_eq_true_2 by done. injection Es as <- _. lia.
      * rewrite bool_decide_eq_false_2 by done. injection Es as <- _. apply (slot_member (inject_Z _) (y :: l)). done.
  - intros [= <- <-]. destruct (Hdone unit2) as (H1 & H2 & H3); [by left|]. split; [done|]. split; [done|]. split; [|done].
    intros _. unfold unit_seconds. rewrite H3, Hds. by destruct (_positive_int _).
Qed.

(** ** Documents *)

(** Two units that say the same, whether their seconds have been taken over
    or not. *)
Definition same_unit (x y : json) : Prop :=
  match x, y with
  | JObj a, JObj b => bare_unit a = bare_unit b /\ unit_seconds a = unit_seconds b
  | _, _ => x = y
  end.

#[export] Instance same_unit_equiv : Equivalence same_unit.
Proof.
  split.
  - intros []; try done; by split.
  - intros [] []; try done. cbn. intros [? ?]. by split.
  - intros [] [] []; try done; cbn; try congruence. intros [? ?] [? ?]. split; congruence.
Qed.

Definition same_document (key : pystr) (c c' : dict) : Prop :=
  c = c' \/ (dict_del key c = dict_del key c'
             /\ exists l l', dict_get key c = Some (JArr l) /\ dict_get key c' = Some (JArr l') /\ Forall2 same_unit l l').

#[export] Instance same_document_equiv key : Equivalence (same_document key).
Proof.
  split.
  - intros c. by left.
  - intros c c' [-> |(Hd & l & l' & H1 & H2 & H)]; [by left|]. right. split; [done|]. exists l', l. split; [done|]. split; [done|].
    by symmetry.
  - intros a b c [-> |(Hd & l & l' & H1 & H2 & H)]; [done|]. intros [-> |(Hd' & m & m' & H1' & H2' & H')]; [right; eauto 10|].
    right. split; [congruence|]. exists l, m'. repeat split; try done. rewrite H2 in H1'. injection H1' as <-. by etrans.
Qed.

Lemma migrate_unit_none supported unit unit' : migrate_unit supported unit = (unit', None) -> unit' = unit.
Proof.
  unfold migrate_unit. destruct (strip_unit unit) as (t & s & -> & _ & Hs). cbn [fst snd].
  destruct s; cbn [negb andb]; [repeat case_goal; done|]. destruct (Hs eq_refl) as [-> ->].
  destruct (dict_get _LEGACY_UNIT_FIELD unit) as [v|] eqn:E.
  - rewrite bool_decide_eq_true_2 by eauto. cbn [negb]. repeat case_goal; done.
  - rewrite bool_decide_eq_false_2 by (intros [? [=]]). cbn [negb]. intros [= <-]. by apply dict_del_id.
Qed.

Lemma migrate_units_quiet supported l l' changed : migrate_units supported l = (l', changed, []) -> Forall2 same_unit l l'.
Proof.
  revert l' changed. induction l as [|x l IH]; intros l' changed; cbn [migrate_units]; [by intros [= <- _]|].
  destruct (migrate_units supported l) as [[r c] w] eqn:E.
  destruct x as [| | | | | |unit]; try (intros [= <- _ ->]; constructor; [done|by eapply IH]).
  destruct (migrate_unit supported unit) as [unit' [w'|]] eqn:Eu.
  - intros [= <- _ Hw]. apply app_eq_nil in Hw as [-> ->]. constructor; [|by eapply IH].
    destruct (migrate_unit_same _ _ _ _ Eu) as (H1 & _ & H2). cbn. split; [done|]. symmetry. by apply H2.
  - apply migrate_unit_none in Eu as ->. intros [= <- _ ->]. constructor; [done|by eapply IH].
Qed.

(** Without a warning the migrated document says the same. *)
Lemma migrate_document_quiet key supported c c' changed :
  migrate_document key supported c = (c', changed, []) -> same_document key c c'.
Proof.
  unfold migrate_document, migrate_unit_durations. destruct (dict_get key c) as [[| | | | |l|]|] eqn:E;
    try (intros [= <- _]; left; symmetry; by apply dict_set_same); [|intros [= <- _]; by left].
  destruct (migrate_units _ l) as [[l' ch] w] eqn:Em. intros [= <- _ ->]. right. rewrite dict_del_set. split; [done|].
  exists l, l'. split; [done|]. split; [apply dict_get_set_eq|]. by eapply migrate_units_quiet.
Qed.

Lemma migrate_units_again supported l : forall l' c w, migrate_units supported l = (l', c, w) -> migrate_units supported l' = (l', false, []).
Proof.
  induction l as [|x l IH]; intros l' c w; cbn [migrate_units]; [by intros [= <- _ _]|].
  destruct (migrate_units supported l) as [[r c0] w0] eqn:E. specialize (IH _ _ _ eq_refl).
  destruct x as [| | | | | |unit]; try (intros [= <- _ _]; cbn [migrate_units]; by rewrite IH).
  destruct (migrate_unit supported unit) as [unit' [w'|]] eqn:Eu; intros [= <- _ _]; cbn [migrate_units]; rewrite IH.
  - destruct (migrate_unit_same _ _ _ _ Eu) as (_ & -> & _). done.
  - pose proof Eu as Hu. apply migrate_unit_none in Hu as ->. by rewrite Eu.
Qed.

(** A second run changes nothing. *)
Lemma migrate_document_again key supported c c' changed w :
  migrate_document key supported c = (c', changed, w) -> migrate_document key supported c' = (c', false, []).
Proof.
  unfold migrate_document, migrate_unit_durations. destruct (dict_get key c) as [[| | | | |l|]|] eqn:E;
    try (intros [= <- _ _]; by rewrite !(dict_set_same key _ _ E), E, (dict_set_same key _ _ E)); [|intros [= <- _ _]; by rewrite E].
  destruct (migrate_units _ l) as [[l' ch] w0] eqn:Em. intros [= <- _ _]. rewrite dict_get_set_eq, (migrate_units_again _ _ _ _ _ Em).
  by rewrite dict_set_set.
Qed.

(** What becomes of one entry of the list of units. *)
Definition taken_over (supported : list Z) (x y : json) : Prop :=
  match x, y with
  | JObj a, JObj b =>
      bare_unit b = bare_unit a
      /\ (a = b \/ forall s, unit_seconds a = Some s -> exists s', dict_get (u "duration_seconds") b = Some (JInt s')
            /\ if bool_decide (supported = []) then (1 <= s' <= 300)%Z else s' ∈ supported)
  | _, _ => x = y
  end.

Lemma migrate_units_taken supported l : forall l' c w, migrate_units supported l = (l', c, w) -> Forall2 (taken_over supported) l l'.
Proof.
  induction l as [|x l IH]; intros l' c w; cbn [migrate_units]; [by intros [= <- _ _]|].
  destruct (migrate_units supported l) as [[r c0] w0] eqn:E. specialize (IH _ _ _ eq_refl).
  destruct x as [| | | | | |unit]; try (by intros [= <- _ _]; constructor).
  destruct (migrate_unit supported unit) as [unit' [w'|]] eqn:Eu; intros [= <- _ _]; (constructor; [|done]).
  - destruct (migrate_unit_same _ _ _ _ Eu) as (H1 & _ & _ & H2). split; [done|]. by right.
  - apply migrate_unit_none in Eu as ->. split; [done|]. by left.
Qed.

(** The migration of a document removes the legacy fields of its units and
    touches nothing else but their seconds; a unit that had legacy fields and
    seconds gets seconds that are supported, or within the range where none
    are known; a second run finds nothing to do; and without a warning every
    unit keeps the seconds it had. *)
Theorem migrate_document_faithful key supported c c' changed w :
  migrate_document key supported c = (c', changed, w) ->
  dict_del key c' = dict_del key c
  /\ (forall l, dict_get key c = Some (JArr l) ->
        exists l', dict_get key c' = Some (JArr l') /\ Forall2 (taken_over (default [] supported)) l l')
  /\ migrate_document key supported c' = (c', false, [])
  /\ (w = [] -> same_document key c c').
Proof.
  intros H. split; [|split; [|split]].
  - unfold migrate_document, migrate_unit_durations in H. destruct (dict_get key c) as [[| | | | |l|]|] eqn:E;
      try (injection H as <- _ _; by rewrite dict_del_set); [|by injection H as <- _ _].
    destruct (migrate_units _ l) as [[l' ch] w0]. injection H as <- _ _. by rewrite dict_del_set.
  - intros l Hl. unfold migrate_document, migrate_unit_durations in H. rewrite Hl in H.
    destruct (migrate_units _ l) as [[l' ch] w0] eqn:Em. injection H as <- _ _. exists l'. split; [apply dict_get_set_eq|].
    by eapply migrate_units_taken.
  - by eapply migrate_document_again.
  - intros ->. by eapply migrate_document_quiet.
Qed.

Definition old_document : dict :=
  [(u "units", JArr [JObj [(u "unit_id", JStr (u "E1U1"));
     (u "shots", JArr [JObj [(u "text", JStr (u "rain")); (u "duration", JInt 3)]; JObj [(u "duration", JInt 4)]]); (u "duration_override", JBool true)]])].

Lemma migrate_document_faithful_witness :
  exists c' w, migrate_document (u "units") (Some [4; 8]%Z) old_document = (c', true, w) /\ length w = 1
    /\ migrate_document (u "units") (Some [4; 8]%Z) c' = (c', false, []).
Proof.
  destruct (migrate_document (u "units") (Some [4; 8]%Z) old_document) as [[c' ch] w] eqn:E.
  destruct (migrate_document_faithful _ _ _ _ _ _ E) as (_ & _ & H & _). exists c', w. vm_compute in E. injection E as <- <- <-.
  split; [reflexivity|]. split; [reflexivity|exact H].
Defined.
