(* ===== verification/ScriptReview.v ===== *)
(** * The review gate between the two steps of a script

    [lib/script_review.py] and the operations of
    [server/services/script_review.py], with the names of
    [lib/draft_quarantine.py] and [lib/episode_paths.py].

    The state is the project's JSON object, the files under its directory that
    the gate reads and writes, and the registry of current artifacts, whose
    registration is an argument.  A file is a JSON document or other bytes.
    The Pydantic models are an argument too: [validate] gives the dumped
    document or refuses it.  A call that takes a lock runs in one piece; the
    recording of a confirmation is a step of its own. *)

From S2P Require Import Prelude Json ShotParser Speech EpisodeLedger EpisodePlanner EpisodeReset DurationMigration.

(** ** Python's [==] on decoded values

    Comparisons with a float are an argument. *)
Section equality.
Context (float_eq : json -> json -> bool).

Definition number_of (v : json) : option Z := match v with JInt z => Some z | JBool b => Some (if b then 1%Z else 0%Z) | _ => None end.
Definition is_number (v : json) : bool := match v with JInt _ | JBool _ | JFloat _ => true | _ => false end.

Fixpoint py_eq (a b : json) {struct a} : bool :=
  match a, b with
  | JNull, JNull => true
  | JStr x, JStr y => bool_decide (x = y)
  | JArr l, JArr m =>
      (fix go (l m : list json) : bool :=
         match l, m with
         | [], [] => true
         | x :: l, y :: m => py_eq x y && go l m
         | _, _ => false
         end) l m
  | JObj d, JObj e =>
      (length d =? length e) && List.forallb (fun kv => match dict_get kv.1 e with Some w => py_eq kv.2 w | None => false end) d
  | JFloat _, _ => is_number b && float_eq a b
  | _, JFloat _ => is_number a && float_eq a b
  | _, _ =>
      match number_of a, number_of b with
      | Some x, Some y => (x =? y)%Z
      | _, _ => false
      end
  end.

(** [d.get(k) == e.get(k)]: a missing member is [None]. *)
Definition member_eq (k : string) (d e : dict) : bool :=
  py_eq (default JNull (dict_get (u k) d)) (default JNull (dict_get (u k) e)).
End equality.

(** [v == s] for a string. *)
Definition is_str (v : option json) (s : pystr) : bool := match v with Some (JStr t) => bool_decide (t = s) | _ => false end.

(** ** Files and state *)

Inductive file := Doc (v : json) | Raw (bytes : pystr).
Abbreviation files := (gmap pystr file).

Inductive Step1Kind := drama | narration | reference_video.
#[export] Instance Step1Kind_eq_dec : EqDecision Step1Kind.
Proof. solve_decision. Defined.

Inductive QuarantineKind := QUARANTINE_KIND_STEP1 | QUARANTINE_KIND_STEP2 | QUARANTINE_KIND_DRAMA_STEP1.

Definition drafts_path (episode : Z) (filename : string) : pystr := u "drafts/" ++ episode_drafts_dir episode ++ u "/" ++ u filename.

Definition step1_filename (kind : Step1Kind) : string :=
  match kind with
  | drama => "step1_normalized_script.json"
  | narration => "step1_segments.json"
  | reference_video => "step1_reference_units.json"
  end.

Definition _QUARANTINE_FILENAMES (kind : QuarantineKind) : string :=
  match kind with
  | QUARANTINE_KIND_STEP1 => "step1_reference_units.invalid.json"
  | QUARANTINE_KIND_STEP2 => "step2_reference_script.invalid.json"
  | QUARANTINE_KIND_DRAMA_STEP1 => "step1_normalized_script.invalid.json"
  end.

Definition quarantine_path (episode : Z) (kind : QuarantineKind) : pystr := drafts_path episode (_QUARANTINE_FILENAMES kind).

Definition is_reference_video_project (project : dict) : bool :=
  is_str (dict_get (u "generation_mode") project) (u "reference_video").

(** A list or an object cannot be looked up in the table of names. *)
Definition step1_kind (project : dict) : result (option Step1Kind) :=
  let variant k := Ok (Some (if is_reference_video_project project then reference_video else k)) in
  match dict_get (u "content_mode") project with
  | Some (JStr s) =>
      if bool_decide (s = u "drama") then variant drama else if bool_decide (s = u "narration") then variant narration else Ok None
  | Some (JArr _) | Some (JObj _) => Raise TypeError
  | _ => Ok None
  end.

Definition is_applicable (project : dict) : result bool :=
  let! kind := step1_kind project in Ok (bool_decide (is_Some kind)).

Definition step1_path (project : dict) (episode : Z) : result (option pystr) :=
  let! kind := step1_kind project in
  Ok (match kind with Some k => Some (drafts_path episode (step1_filename k)) | None => None end).

Definition _STEP1_QUARANTINE_KIND (kind : Step1Kind) : option QuarantineKind :=
  match kind with
  | reference_video => Some QUARANTINE_KIND_STEP1
  | drama => Some QUARANTINE_KIND_DRAMA_STEP1
  | narration => None
  end.

Definition step1_quarantine_kind (project : dict) : result (option QuarantineKind) :=
  let! kind := step1_kind project in
  Ok (match kind with Some k => _STEP1_QUARANTINE_KIND k | None => None end).

Definition step1_quarantine_path (project : dict) (episode : Z) : result (option pystr) :=
  let! kind := step1_quarantine_kind project in
  Ok (match kind with Some k => Some (quarantine_path episode k) | None => None end).

Definition step1_quarantined (fs : files) (project : dict) (episode : Z) : result bool :=
  let! path := step1_quarantine_path project episode in
  Ok (match path with Some p => bool_decide (is_Some (fs !! p)) | None => false end).

Definition clear_quarantine (episode : Z) (kind : QuarantineKind) (fs : files) : files := delete (quarantine_path episode kind) fs.

Definition official_reference_step1_path (episode : Z) : pystr := drafts_path episode (step1_filename reference_video).

Definition REVIEW_FIELD : pystr := u "step1_review".
Definition STALE_STEP1_REVISION_FIELD : pystr := u "stale_step1_revision".
Definition STALE_STEP1_REBUILT_REVISION_FIELD : pystr := u "stale_step1_rebuilt_revision".

Inductive ReviewStatus := not_applicable | no_step1 | pending_review | confirmed.
#[export] Instance ReviewStatus_eq_dec : EqDecision ReviewStatus.
Proof. solve_decision. Defined.

(** The text of a file whose top level is an object. *)
Definition load_json_or_none (f : option file) : option json := match f with Some (Doc v) => Some v | _ => None end.
Definition _read_json (f : option file) : option dict := match f with Some (Doc (JObj m)) => Some m | _ => None end.

Section review.
Context (float_true : pystr -> bool) (float_eq : json -> json -> bool) (py_repr : json -> pystr).
Context (sha256 sha256_raw : pystr -> pystr).

(** ** Fingerprints *)

Definition is_surrogate (c : N) : bool := ((55296 <=? c) && (c <=? 57343))%N.

(** Text with a lone surrogate has no UTF-8 form. *)
Definition canonical_json_digest (v : json) : result pystr :=
  let text := dumps_sep true true v in
  if existsb is_surrogate text then Raise UnicodeEncodeError else Ok (sha256 text).

Definition content_fingerprint_of_data (data : json) : result pystr := canonical_json_digest data.

Definition content_fingerprint (f : option file) : result (option pystr) :=
  match f with
  | None => Ok None
  | Some (Raw bytes) => Ok (Some (sha256_raw bytes))
  | Some (Doc v) => let! fp := content_fingerprint_of_data v in Ok (Some fp)
  end.

(** ** The recorded confirmation *)

Definition is_episode (episode : Z) (e : json) : bool :=
  match e with
  | JObj m => match dict_get (u "episode") m with Some v => py_eq float_eq v (JInt episode) | None => false end
  | _ => false
  end.

Definition find_in (episode : Z) (l : list json) : option dict :=
  match List.find (is_episode episode) l with Some (JObj m) => Some m | _ => None end.

Definition find_episode (project : dict) (episode : Z) : result (option dict) :=
  let! episodes := iter_episodes float_true project in Ok (find_in episode episodes).

(** Assigning to a member of the entry that [find_episode] returns. *)
Fixpoint set_in (episode : Z) (k : pystr) (v : json) (l : list json) : list json :=
  match l with
  | [] => []
  | e :: rest =>
      if is_episode episode e
      then match e with JObj m => JObj (dict_set k v m) | _ => e end :: rest
      else e :: set_in episode k v rest
  end.

Definition set_episode (episode : Z) (k : pystr) (v : json) (project : dict) : dict :=
  match dict_get (u "episodes") project with
  | Some (JArr l) => dict_set (u "episodes") (JArr (set_in episode k v l)) project
  | _ => project
  end.

Definition stored_review (project : dict) (episode : Z) : result dict :=
  let! ep := find_episode project episode in
  Ok (match ep with
      | Some m => match dict_get REVIEW_FIELD m with Some (JObj review) => review | _ => [] end
      | None => []
      end).

(** [(project_path / script_file).exists()]; [on_disk] tells which paths exist. *)
Definition step2_generated (on_disk : pystr -> bool) (project : dict) (episode : Z) : result bool :=
  let! ep := find_episode project episode in
  let script_file := dict_get (u "script_file") (default [] ep) in
  if py_bool float_true script_file
  then match script_file with Some (JStr s) => Ok (on_disk s) | _ => Raise TypeError end
  else Ok (on_disk (episode_script_relpath episode)).

Definition review_status (on_disk : pystr -> bool) (fs : files) (project : dict) (episode : Z) : result ReviewStatus :=
  let! path := step1_path project episode in
  match path with
  | None => Ok not_applicable
  | Some path =>
      let! quarantined := step1_quarantined fs project episode in
      if quarantined then Ok pending_review
      else
        let! live := content_fingerprint (fs !! path) in
        match live with
        | None => Ok no_step1
        | Some live =>
            let! review := stored_review project episode in
            match dict_get (u "fingerprint") review with
            | None | Some JNull =>
                let! generated := step2_generated on_disk project episode in
                Ok (if generated then confirmed else pending_review)
            | Some fingerprint => Ok (if is_str (Some fingerprint) live then confirmed else pending_review)
            end
        end
  end.

Definition gate_blocks_step2 (on_disk : pystr -> bool) (fs : files) (project : dict) (episode : Z) : result bool :=
  let! status := review_status on_disk fs project episode in Ok (bool_decide (status = pending_review)).

Definition apply_confirmation (project : dict) (episode : Z) (fingerprint confirmed_at : pystr) : result (dict * bool) :=
  let! ep := find_episode project episode in
  Ok (match ep with
      | None => (project, false)
      | Some _ =>
          (set_episode episode REVIEW_FIELD
             (JObj [(u "fingerprint", JStr fingerprint); (u "confirmed_at", JStr confirmed_at)]) project, true)
      end).

(** [str(stored.get("confirmed_at") or "")] *)
Definition confirmed_at_of (stored : dict) : pystr :=
  let v := dict_get (u "confirmed_at") stored in
  if py_bool float_true v then match v with Some w => py_str py_repr w | None => [] end else [].

Definition carry_confirmation_through_migration (project : dict) (episode : Z) (before after : pystr) : result (dict * bool) :=
  let! stored := stored_review project episode in
  if negb (is_str (dict_get (u "fingerprint") stored) before) then Ok (project, false)
  else
    let! r := apply_confirmation project episode after (confirmed_at_of stored) in
    Ok (r.1, true).

(** The mutation of [migrate_step1_draft_in_place] where seconds were changed. *)
Definition _invalidate_grandfathered (project : dict) (episode : Z) (before : pystr) : result dict :=
  let! stored := stored_review project episode in
  if py_bool float_true (dict_get (u "fingerprint") stored) then Ok project
  else let! r := apply_confirmation project episode before (confirmed_at_of stored) in Ok r.1.

(** [entry.get(field) != expected]: a null counts as [None]. *)
Definition revision_is (v : json) (expected : option pystr) : bool :=
  match expected with Some s => is_str (Some v) s | None => match v with JNull => true | _ => false end end.

Definition complete_stale_step1_rebuild (fs : files) (project : dict) (episode : Z) (expected_stale_revision : option pystr)
    : result (pystr * dict) :=
  if (episode <? 1)%Z then Raise (Step1RebuildCompletionError "invalid_episode")
  else
    let! ep := find_episode project episode in
    match ep with
    | None => Raise (Step1RebuildCompletionError "not_stale")
    | Some entry =>
        if negb (is_str (dict_get (u "ledger_status") entry) (u "stale"))
        then Raise (Step1RebuildCompletionError "not_stale")
        else
          match dict_get STALE_STEP1_REVISION_FIELD entry with
          | None => Raise (Step1RebuildCompletionError "missing_baseline")
          | Some v =>
              if negb (revision_is v expected_stale_revision) then Raise (Step1RebuildCompletionError "baseline_conflict")
              else
                let! path := step1_path project episode in
                let! revision := match path with Some p => content_fingerprint (fs !! p) | None => Ok None end in
                match revision with
                | None => Raise (Step1RebuildCompletionError "step1_missing")
                | Some r => Ok (r, set_episode episode STALE_STEP1_REBUILT_REVISION_FIELD (JStr r) project)
                end
          end
    end.
End review.

(** ** Calls that change the state *)

Section state.
Context {Claims : Type}.

Record Room := mkRoom { project_of : dict; files_of : files; claims_of : Claims }.

Definition with_project (p : dict) (s : Room) : Room := mkRoom p (files_of s) (claims_of s).
End state.
Arguments Room : clear implicits.

Section service.
Context (nfc : pystr -> pystr) (is_decimal : N -> bool) (isdigit : N -> bool) (decimal : N -> option Z).
Context (float_true : pystr -> bool) (float_eq : json -> json -> bool) (py_repr : json -> pystr).
Context (sha256 sha256_raw : pystr -> pystr).
Context {Claims Basis : Type} (register : dict -> files -> Z -> option Basis -> Claims -> result Claims).
Context (validate : Step1Kind -> json -> option dict).

Notation Room := (Room Claims).
Notation act := (act Room).
Notation digest := (canonical_json_digest sha256).
Notation fingerprint_of := (content_fingerprint sha256 sha256_raw).
Notation find_episode := (find_episode float_true float_eq).
Notation apply_confirmation := (apply_confirmation float_true float_eq).
Notation stored_review := (stored_review float_true float_eq).

(** [ProjectManager.update_project]: a mutation that raises changes nothing. *)
Definition update_project (mutate : dict -> result dict) : act dict :=
  fun s => match mutate (project_of s) with Ok p => (Ok p, with_project p s) | Raise e => (Raise e, s) end.

(** [formal_step1_write_transaction]: the files of [write] and the claim change
    together; if the registration raises, the files are put back. *)
Definition formal_step1_write_transaction (episode : Z) (basis : option Basis) (write : files -> files) : act unit :=
  fun s =>
    match register (project_of s) (write (files_of s)) episode basis (claims_of s) with
    | Ok c => (Ok tt, mkRoom (project_of s) (write (files_of s)) c)
    | Raise e => (Raise e, s)
    end.

Definition write_step1_json (episode : Z) (path : pystr) (content : json) (basis : option Basis) : act unit :=
  formal_step1_write_transaction episode basis (fun fs => <[path := Doc content]> fs).

Definition delete_step1_file (episode : Z) (path : pystr) : act bool :=
  fun s =>
    match files_of s !! path with
    | None => (Ok false, s)
    | Some _ => (do! _ := formal_step1_write_transaction episode None (delete path) in ret true) s
    end.

(** [None] is [UNCHECKED_FINGERPRINT]. *)
Definition assert_base_fingerprint (f : option file) (expected : option (option pystr)) : result unit :=
  match expected with
  | None => Ok tt
  | Some expected =>
      let! actual := fingerprint_of f in
      if bool_decide (expected = actual) then Ok tt else Raise (Step1WriteConflict expected actual)
  end.

Definition write_formal_step1_locked (episode : Z) (path : pystr) (content : dict) (expected : option (option pystr))
    (dependent_quarantine : option QuarantineKind) (clear_dependent_quarantine : bool) (basis : option Basis) : act bool :=
  fun s =>
    (do! _ := lift (assert_base_fingerprint (files_of s !! path) expected) in
     let previous := default JNull (load_json_or_none (files_of s !! path)) in
     let changed := negb (py_eq float_eq previous (JObj content)) in
     do! _ := formal_step1_write_transaction episode basis (fun fs =>
                let fs := <[path := Doc (JObj content)]> fs in
                match dependent_quarantine with
                | Some kind => if changed && clear_dependent_quarantine then clear_quarantine episode kind fs else fs
                | None => fs
                end) in
     ret changed) s.

Definition write_step1_locked (episode : Z) (content : dict) (expected : option (option pystr)) (clear_step2_quarantine : bool)
    (basis : option Basis) : act bool :=
  write_formal_step1_locked episode (official_reference_step1_path episode) content expected (Some QUARANTINE_KIND_STEP2)
    clear_step2_quarantine basis.

Definition migrate_step1_draft_in_place (content : dict) (episode : Z) (supported_durations : option (list Z))
    : act (dict * option dict * list DurationWarning) :=
  do! before := lift (digest (JObj content)) in
  let '(content', changed, warnings) := migrate_document (u "units") supported_durations content in
  if negb changed then ret (content', None, [])
  else
    do! updated :=
      match warnings with
      | _ :: _ => update_project (fun p => _invalidate_grandfathered float_true float_eq py_repr p episode before)
      | [] =>
          do! after := lift (digest (JObj content')) in
          update_project (fun p => let! r := carry_confirmation_through_migration float_true float_eq py_repr p episode before after in Ok r.1)
      end in
    do! _ := write_step1_locked episode content' None false None in
    ret (content', Some updated, warnings).

(** ** The service *)

Definition _register_orphan_episodes (d : Disk) : act dict :=
  update_project (fun p => Ok (register_orphan_episode_entries isdigit decimal d p)).

Definition _require_episode (d : Disk) (project : dict) (episode : Z) : act dict :=
  do! ep := lift (find_episode project episode) in
  match ep with
  | Some _ => ret project
  | None =>
      if negb (bool_decide (episode ∈ (discover_episode_files d).*1)) then lift (Raise (ScriptReviewError "episode_not_found"))
      else
        do! project := _register_orphan_episodes d in
        do! ep := lift (find_episode project episode) in
        match ep with Some _ => ret project | None => lift (Raise (ScriptReviewError "episode_not_found")) end
  end.

Definition _resolve_step1_model (project : dict) : result Step1Kind :=
  let! kind := step1_kind project in
  match kind with Some k => Ok k | None => Raise (ScriptReviewError "not_applicable") end.

Definition _read_step1_migrated (project : dict) (episode : Z) (path : pystr) (supported_durations : option (list Z))
    : act (option dict * dict) :=
  fun s =>
    match _read_json (files_of s !! path) with
    | None => (Ok (None, project), s)
    | Some content =>
        (do! kind := lift (step1_kind project) in
         if negb (bool_decide (kind = Some reference_video)) then ret (Some content, project)
         else
           do! r := migrate_step1_draft_in_place content episode supported_durations in
           ret (Some r.1.1, match r.1.2 with Some p => if bool_decide (p = []) then project else p | None => project end)) s
    end.

(** Where a variant keeps its units, their skeleton, and the members that hold
    their ids and their speech. *)
Definition speech_shape (kind : Step1Kind) : option (string * string * string * string) :=
  match kind with
  | drama => Some ("scenes", "scenes", "scene_id", "utterances")
  | reference_video => Some ("units", "video_units", "unit_id", "shots")
  | narration => None
  end.

Definition unit_key (id_field : string) (unit : dict) : option pystr :=
  match dict_get (u id_field) unit with Some (JStr id) => Some id | _ => None end.

Definition units_by_id (id_field : string) (units : list dict) : list (pystr * dict) :=
  foldl (fun m unit => match unit_key id_field unit with Some id => aset id unit m | None => m end) [] units.

(** One unit of the candidate, with its marker brought up to date. *)
Definition admit_changed_unit (skeleton id_field speech_field : string) (previous_by_id : list (pystr * dict)) (unit : json) : result json :=
  match unit with
  | JObj m =>
      match unit_key id_field m with
      | None => Ok unit
      | Some id =>
          let old := aget id previous_by_id in
          let unchanged := match old with Some o => member_eq float_eq speech_field o m | None => false end in
          if unchanged then
            Ok (JObj (match old with
                      | Some o => match dict_get (u "needs_replan") o with
                                  | Some (JBool true) => dict_set (u "needs_replan") (JBool true) m
                                  | _ => m
                                  end
                      | None => m
                      end))
          else
            let! admission := admit_script_unit nfc skeleton m true in
            if allowed admission then Ok (JObj (dict_del (u "needs_replan") m)) else Raise (ScriptReviewError "speech_admission")
      end
  | _ => Ok unit
  end.

Fixpoint each_unit (f : json -> result json) (l : list json) : result (list json) :=
  match l with
  | [] => Ok []
  | x :: rest => let! x' := f x in let! rest' := each_unit f rest in Ok (x' :: rest')
  end.

Definition _require_changed_speech_admitted (kind : Step1Kind) (previous : option dict) (candidate : json) : result json :=
  match speech_shape kind, candidate with
  | Some (root, skeleton, id_field, speech_field), JObj c =>
      match dict_get (u root) c with
      | Some (JArr units) =>
          let! before := iter_objects float_true (match previous with Some p => dict_get (u root) p | None => None end) in
          let! units' := each_unit (admit_changed_unit skeleton id_field speech_field (units_by_id id_field before)) units in
          Ok (JObj (dict_set (u root) (JArr units') c))
      | _ => Ok candidate
      end
  | _, _ => Ok candidate
  end.

(** [for unit in document[root]] on a dumped document. *)
Definition units_at (root : string) (document : dict) : result (list json) :=
  match dict_get (u root) document with Some (JArr l) => Ok l | Some _ => Raise TypeError | None => Raise KeyError end.

Definition drop_false_marker (scene : json) : result json :=
  match scene with
  | JObj m => Ok (match dict_get (u "needs_replan") m with Some (JBool true) => scene | _ => JObj (dict_del (u "needs_replan") m) end)
  | _ => Raise AttributeError
  end.

Definition map_units (root : string) (f : json -> result json) (document : dict) : result dict :=
  let! units := units_at root document in
  let! units' := each_unit f units in
  Ok (dict_set (u root) (JArr units') document).

(** [rederive_unit_references(document["units"], project)] *)
Definition rederive_document (document project : dict) : result dict :=
  let! units := units_at "units" document in
  let! units' := rederive_unit_references nfc is_decimal float_true py_repr units project in
  Ok (dict_set (u "units") (JArr units') document).

(** [except Step1WriteConflict as exc: raise ScriptReviewError("conflict")] *)
Definition as_conflict {A} (m : act A) : act A :=
  fun s => match m s with
           | (Raise (Step1WriteConflict _ _), s') => (Raise (ScriptReviewError "conflict"), s')
           | r => r
           end.

(** The admitted document as the dictionary to be written. *)
Definition as_dict (v : json) : result dict := match v with JObj m => Ok m | _ => Raise TypeError end.

Definition save_reference (episode : Z) (path : pystr) (validated project : dict) (expected : option (option pystr)) : act unit :=
  do! validated := lift (rederive_document validated project) in
  fun s =>
    (do! admitted := lift (let! v := _require_changed_speech_admitted reference_video (_read_json (files_of s !! path)) (JObj validated) in as_dict v) in
     do! _ := write_step1_locked episode admitted expected true None in
     ret tt) s.

Definition save_other (kind : Step1Kind) (episode : Z) (path : pystr) (validated : dict) (expected : option (option pystr)) : act unit :=
  fun s =>
    (do! _ := lift (assert_base_fingerprint (files_of s !! path) expected) in
     do! admitted := lift (let! v := _require_changed_speech_admitted kind (_read_json (files_of s !! path)) (JObj validated) in as_dict v) in
     do! _ := write_formal_step1_locked episode path admitted None None true None in
     ret tt) s.

Definition _save_content_sync (d : Disk) (episode : Z) (content : json) (base_fingerprint : option pystr) : act unit :=
  fun s =>
    (do! path := lift (step1_path (project_of s) episode) in
     match path with
     | None => lift (Raise (ScriptReviewError "not_applicable"))
     | Some path =>
         do! project := _require_episode d (project_of s) episode in
         do! kind := lift (_resolve_step1_model project) in
         match validate kind content with
         | None =>
             fun s =>
               (do! _ := lift (_require_changed_speech_admitted kind (_read_json (files_of s !! path)) content) in
                lift (Raise (ScriptReviewError "invalid_content"))) s
         | Some validated =>
             do! validated := lift (if bool_decide (kind = drama) then map_units "scenes" drop_false_marker validated else Ok validated) in
             let expected := match base_fingerprint with Some b => Some (Some b) | None => None end in
             as_conflict (if bool_decide (kind = reference_video) then save_reference episode path validated project expected
                          else save_other kind episode path validated expected)
         end
     end) s.

(** The first marked unit of the document stops a confirmation. *)
Fixpoint refuse_marked (skeleton : string) (units : list json) : result unit :=
  match units with
  | [] => Ok tt
  | JObj m :: rest =>
      match dict_get (u "needs_replan") m with
      | Some (JBool true) =>
          let! _ := admit_script_unit nfc skeleton m false in Raise (ScriptReviewError "speech_admission")
      | _ => refuse_marked skeleton rest
      end
  | _ :: _ => Raise AttributeError
  end.

Fixpoint admit_all (units : list json) : result unit :=
  match units with
  | [] => Ok tt
  | JObj m :: rest =>
      let! admission := admit_script_unit nfc "video_units" m false in
      if allowed admission then admit_all rest else Raise (ScriptReviewError "speech_admission")
  | _ :: _ => Raise AttributeError
  end.

(** The part of [_confirm_sync] under the lock of the file: the document that
    is confirmed, and its fingerprint. *)
Definition confirm_content (d : Disk) (project : dict) (episode : Z) (supported_durations : option (list Z)) : act (dict * pystr) :=
  do! path := lift (step1_path project episode) in
  match path with
  | None => lift (Raise (ScriptReviewError "not_applicable"))
  | Some path =>
      do! project := _require_episode d project episode in
      do! quarantine := lift (step1_quarantine_path project episode) in
      fun s =>
        if match quarantine with Some q => bool_decide (is_Some (files_of s !! q)) | None => false end
        then (Raise (ScriptReviewError "quarantined"), s)
        else
          (do! r := _read_step1_migrated project episode path supported_durations in
           let content := r.1 in
           let project := r.2 in
           fun s =>
             if bool_decide (content = None) && negb (bool_decide (is_Some (files_of s !! path))) then (Raise (ScriptReviewError "no_step1"), s)
             else
               (do! kind := lift (_resolve_step1_model project) in
                match (match content with Some c => validate kind (JObj c) | None => None end), content with
                | Some dumped, Some content =>
                    do! _ := lift (match speech_shape kind with
                                   | Some (root, skeleton, _, _) => let! units := units_at root dumped in refuse_marked skeleton units
                                   | None => Ok tt
                                   end) in
                    if bool_decide (kind = reference_video) then
                      do! dumped := lift (rederive_document dumped project) in
                      do! units := lift (units_at "units" dumped) in
                      do! _ := lift (admit_all units) in
                      do! _ := write_step1_locked episode dumped None true None in
                      do! fp := lift (digest (JObj dumped)) in
                      ret (dumped, fp)
                    else
                      do! fp := lift (digest (JObj content)) in
                      ret (content, fp)
                | _, _ => lift (Raise (ScriptReviewError "invalid_content"))
                end) s) s
  end.

(** The mutation that records a confirmation. *)
Definition record_confirmation (episode : Z) (fingerprint confirmed_at : pystr) : act unit :=
  do! _ := update_project (fun p =>
             let! r := apply_confirmation p episode fingerprint confirmed_at in
             if (r.2 : bool) then Ok r.1 else Raise (ScriptReviewError "episode_not_found")) in
  ret tt.

Definition _confirm_sync (d : Disk) (project : dict) (episode : Z) (supported_durations : option (list Z)) (confirmed_at : pystr) : act unit :=
  do! r := confirm_content d project episode supported_durations in
  record_confirmation episode r.2 confirmed_at.

Record ReviewState := mkState {
  st_status : ReviewStatus;
  st_fingerprint : option pystr;
  st_confirmed_at : option json;
  st_content : option dict
}.

Definition _get_state_sync (d : Disk) (on_disk : pystr -> bool) (project : dict) (episode : Z) (supported_durations : option (list Z))
    : act ReviewState :=
  do! path := lift (step1_path project episode) in
  let status project := fun s => (review_status float_true float_eq sha256 sha256_raw on_disk (files_of s) project episode, s) in
  let view project fingerprint content status :=
    let! review := stored_review project episode in
    Ok (mkState status fingerprint (dict_get (u "confirmed_at") review) content) in
  match path with
  | None => do! st := status project in lift (view project None None st)
  | Some path =>
      do! project := _require_episode d project episode in
      do! r := _read_step1_migrated project episode path supported_durations in
      do! fp := (fun s => (fingerprint_of (files_of s !! path), s)) in
      do! st := status r.2 in
      lift (view r.2 fp r.1 st)
  end.
End service.
