(* ===== verification/ReviewGate.v ===== *)
(** * What the review gate guarantees

    Theorems about [ScriptReview]: a confirmation opens the gate, a save is
    all or nothing and never overwrites what its author has not seen, and over
    any history of calls, edits and migrations a gate that is open on a
    recorded confirmation is open for a document somebody confirmed. *)

From S2P Require Import Prelude Json ShotParser Speech EpisodeLedger EpisodePlanner EpisodeReset DurationMigration ScriptReview.
From Stdlib Require Import Sorted.

Section entries.
Context (float_true : pystr -> bool) (float_eq : json -> json -> bool).
Context (float_int : forall l n m, float_eq (JFloat l) (JInt n) = true -> float_eq (JFloat l) (JInt m) = true -> n = m).
Notation is_episode := (is_episode float_eq).
Notation find_in := (find_in float_eq).
Notation set_in := (set_in float_eq).
Notation find_episode := (find_episode float_true float_eq).
Notation stored_review := (stored_review float_true float_eq).
Notation apply_confirmation := (apply_confirmation float_true float_eq).

(** ** Finding and changing an entry *)

Lemma is_episode_one n m e : is_episode n e = true -> is_episode m e = true -> n = m.
Proof.
  destruct e as [| | | | | |d]; try done. cbn [ScriptReview.is_episode]. destruct (dict_get (u "episode") d) as [v|]; [|done].
  destruct v; cbn; try done; try lia. apply float_int.
Qed.

Lemma is_episode_set k v n m : k <> u "episode" -> is_episode n (JObj (dict_set k v m)) = is_episode n (JObj m).
Proof. intros Hk. cbn [ScriptReview.is_episode]. by rewrite dict_get_set_ne. Qed.

Lemma find_in_cons n e l : find_in n (e :: l) = match is_episode n e, e with true, JObj m => Some m | _, _ => find_in n l end.
Proof.
  unfold ScriptReview.find_in. cbn [List.find]. destruct (is_episode n e) eqn:E; [|done]. destruct e; done.
Qed.

Lemma find_in_set n k v l : k <> u "episode" -> find_in n (set_in n k v l) = option_map (dict_set k v) (find_in n l).
Proof.
  intros Hk. induction l as [|e l IH]; [done|]. cbn [ScriptReview.set_in]. destruct (is_episode n e) eqn:E.
  - destruct e as [| | | | | |m]; try done. rewrite !find_in_cons, is_episode_set, E by done. done.
  - rewrite !find_in_cons, E. by destruct e.
Qed.

Lemma find_in_set_ne n n' k v l : k <> u "episode" -> n <> n' -> find_in n' (set_in n k v l) = find_in n' l.
Proof.
  intros Hk Hn. induction l as [|e l IH]; [done|]. cbn [ScriptReview.set_in]. destruct (is_episode n e) eqn:E.
  - destruct e as [| | | | | |m]; try done. rewrite !find_in_cons, is_episode_set by done.
    destruct (is_episode n' (JObj m)) eqn:E'; [|done]. by pose proof (is_episode_one _ _ _ E E').
  - rewrite !find_in_cons, IH. done.
Qed.

Lemma find_in_app n l l' : find_in n (l ++ l') = match find_in n l with Some m => Some m | None => find_in n l' end.
Proof. induction l as [|e l IH]; [done|]. cbn [app]. rewrite !find_in_cons, IH. destruct (is_episode n e), e; done. Qed.

Lemma find_where {A} (p : A -> bool) l : List.find p l = head (where_ p l).
Proof. induction l as [|x l IH]; [done|]. cbn. by destruct (p x). Qed.

(** The entries of one number keep their order when the ledger is sorted. *)
Lemma find_in_sort isdigit decimal n l : find_in n (_sort_episodes_if_possible isdigit decimal l) = find_in n l.
Proof.
  unfold _sort_episodes_if_possible. destruct (List.forallb _ l) eqn:E; [|done]. unfold ScriptReview.find_in. rewrite !find_where.
  rewrite where_isort; [|apply entry_leb_total|apply entry_leb_trans]. rewrite isort_id; [done|].
  assert (Forall (fun e => episode_of isdigit decimal e = Some n) (where_ (is_episode n) l)) as Hall.
  { apply Forall_forall. intros e [He Hn]%elem_of_where. rewrite forallb_forall in E. apply list_elem_of_In, E, bool_decide_eq_true in He as [k Hk].
    destruct e as [| | | | | |m]; try done. cbn [ScriptReview.is_episode episode_of] in *. destruct (dict_get (u "episode") m) as [v|]; [|done].
    destruct v; try done. cbn in Hn |- *. f_equal. lia. }
  induction Hall as [|e l' He Hl IH]; constructor; [done|]. apply Forall_forall. intros x Hx. eapply Forall_forall in Hl; [|done].
  unfold entry_leb. rewrite He, Hl. cbn. apply Is_true_true. lia.
Qed.

Lemma find_new_entry d n nums m : find_in n (map (new_entry d) nums) = Some m -> dict_get REVIEW_FIELD m = None.
Proof.
  induction nums as [|k nums IH]; [done|]. cbn [map]. rewrite find_in_cons. destruct (is_episode n (new_entry d k)); [|done].
  unfold new_entry at 1. by intros [= <-].
Qed.

(** ** The ledger of a project *)

(** Only a list has entries that can be found. *)
Lemma find_episode_list p n m : find_episode p n = Ok (Some m) -> exists l, dict_get (u "episodes") p = Some (JArr l) /\ find_in n l = Some m.
Proof.
  unfold ScriptReview.find_episode, iter_episodes. destruct (dict_get (u "episodes") p) as [v|]; [|done].
  destruct v as [|b|z|f|s|l|o]; cbn [py_bool]; try done.
  - destruct b; done.
  - by destruct (negb _).
  - by destruct (float_true _).
  - cbn [bind]. intros [= H]. exfalso. revert H. induction s as [|c s IH]; [done|]. cbn [map]. by rewrite find_in_cons.
  - cbn [bind]. intros [= H]. eauto.
  - cbn [bind]. intros [= H]. exfalso. revert H. induction o as [|c o IH]; [done|]. cbn [map]. by rewrite find_in_cons.
Qed.

Lemma find_episode_of p n l : dict_get (u "episodes") p = Some (JArr l) -> find_episode p n = Ok (find_in n l).
Proof. intros H. unfold ScriptReview.find_episode, iter_episodes. by rewrite H. Qed.

Lemma find_set_episode p n k v n' : k <> u "episode" -> forall m, find_episode p n = Ok (Some m) ->
  find_episode (set_episode float_eq n k v p) n' = if bool_decide (n = n') then Ok (Some (dict_set k v m)) else find_episode p n'.
Proof.
  intros Hk m (l & Hl & Hm)%find_episode_list. unfold set_episode. rewrite Hl, (find_episode_of _ n' _ (dict_get_set_eq _ _ _)).
  case_bool_decide as E; [subst n'; by rewrite find_in_set, Hm|]. by rewrite find_in_set_ne, (find_episode_of _ _ _ Hl).
Qed.

Definition review_record (fp at_ : pystr) : dict := [(u "fingerprint", JStr fp); (u "confirmed_at", JStr at_)].

Lemma stored_review_of p n m : find_episode p n = Ok m ->
  stored_review p n = Ok (match m with Some m => match dict_get REVIEW_FIELD m with Some (JObj r) => r | _ => [] end | None => [] end).
Proof. unfold ScriptReview.stored_review. by intros ->. Qed.

Lemma confirmed_review p n fp at_ p' ok n' : apply_confirmation p n fp at_ = Ok (p', ok) ->
  (ok = true -> stored_review p' n = Ok (review_record fp at_)) /\ (n <> n' \/ ok = false -> stored_review p' n' = stored_review p n').
Proof.
  unfold ScriptReview.apply_confirmation. destruct (find_episode p n) as [[m|]|] eqn:E; [| |done]; cbn [bind].
  - intros H. apply Ok_inj, pair_equal_spec in H as [<- <-]. pose proof (fun k => find_set_episode p n REVIEW_FIELD (JObj (review_record fp at_)) k ltac:(intros [=]) m E) as Hf.
    unfold review_record in *. split.
    + intros _. unfold ScriptReview.stored_review. rewrite (Hf n), bool_decide_eq_true_2 by done. cbn [bind]. by rewrite dict_get_set_eq.
    + intros [Hn|]; [|done]. unfold ScriptReview.stored_review. by rewrite (Hf n'), bool_decide_eq_false_2.
  - intros H. apply Ok_inj, pair_equal_spec in H as [<- <-]. by split.
Qed.

(** Registering orphans leaves every confirmation as it is. *)
Lemma registered_review isdigit decimal d p n : stored_review (register_orphan_episode_entries isdigit decimal d p) n = stored_review p n.
Proof.
  unfold register_orphan_episode_entries.
  assert (dict_get (u "episodes") p = None \/ (exists l, dict_get (u "episodes") p = Some (JArr l)) ->
    stored_review (dict_set (u "episodes") (JArr (_sort_episodes_if_possible isdigit decimal
      (append_missing d (isort Z.leb (discover_episode_files d).*1) (known_numbers isdigit decimal (entries_of p)) (entries_of p)))) p) n = stored_review p n) as H.
  { intros Hp. destruct (append_missing_spec d (isort Z.leb (discover_episode_files d).*1) (known_numbers isdigit decimal (entries_of p)) (entries_of p))
      as (added & -> & _). unfold ScriptReview.stored_review at 1. rewrite (find_episode_of _ n _ (dict_get_set_eq _ _ _)). cbn [bind].
    rewrite find_in_sort, find_in_app.
    assert (find_episode p n = Ok (find_in n (entries_of p))) as Hf.
    { destruct Hp as [Hp|[l Hp]].
      - unfold ScriptReview.find_episode, iter_episodes, entries_of. by rewrite Hp.
      - rewrite (find_episode_of _ _ _ Hp). unfold entries_of. by rewrite Hp. }
    rewrite (stored_review_of _ _ _ Hf). destruct (find_in n (entries_of p)) as [m|]; [done|].
    destruct (find_in n (map (new_entry d) added)) as [m|] eqn:E; [|done]. by rewrite (find_new_entry _ _ _ _ E). }
  destruct (dict_get (u "episodes") p) as [[]|] eqn:E; try done; apply H; eauto.
Qed.
End entries.

Section gate.
Context (nfc : pystr -> pystr) (is_decimal : N -> bool) (isdigit : N -> bool) (decimal : N -> option Z).
Context (float_true : pystr -> bool) (float_eq : json -> json -> bool) (py_repr : json -> pystr).
Context (sha256 sha256_raw : pystr -> pystr).
Context {Claims Basis : Type} (register : dict -> files -> Z -> option Basis -> Claims -> result Claims).
Context (validate : Step1Kind -> json -> option dict).
Context (float_int : forall l n m, float_eq (JFloat l) (JInt n) = true -> float_eq (JFloat l) (JInt m) = true -> n = m).

Notation Room := (Room Claims).
Notation act := (act Room).
Notation digest := (canonical_json_digest sha256).
Notation fingerprint_of := (content_fingerprint sha256 sha256_raw).
Notation stored_review := (stored_review float_true float_eq).
Notation find_episode := (find_episode float_true float_eq).
Notation status_of := (review_status float_true float_eq sha256 sha256_raw).
Notation migrate := (migrate_step1_draft_in_place float_true float_eq py_repr sha256 sha256_raw register).
Notation require_episode := (_require_episode isdigit decimal float_true float_eq).
Notation read_migrated := (_read_step1_migrated float_true float_eq py_repr sha256 sha256_raw register).
Notation confirm_content := (confirm_content nfc is_decimal isdigit decimal float_true float_eq py_repr sha256 sha256_raw register validate).
Notation confirm := (_confirm_sync nfc is_decimal isdigit decimal float_true float_eq py_repr sha256 sha256_raw register validate).
Notation save := (_save_content_sync nfc is_decimal isdigit decimal float_true float_eq py_repr sha256 sha256_raw register validate).
Notation get_state := (_get_state_sync isdigit decimal float_true float_eq py_repr sha256 sha256_raw register).
Notation record_confirmation := (record_confirmation float_true float_eq).
Notation write_locked := (write_formal_step1_locked float_eq sha256 sha256_raw register).

(** ** What a recorded fingerprint rests on *)

(** The fingerprint of a document that was confirmed; of one that says the
    same as a document whose fingerprint is backed; or the mark that a
    migration leaves when it has changed the seconds of a document nobody had
    confirmed. *)
Inductive backed (log : list (Z * dict)) (n : Z) : pystr -> Prop :=
| approved v fp : (n, v) ∈ log -> digest (JObj v) = Ok fp -> backed log n fp
| carried c c' fp fp' : backed log n fp -> digest (JObj c) = Ok fp -> same_document (u "units") c c' -> digest (JObj c') = Ok fp' -> backed log n fp'
| voided c c' supported w ws fp : migrate_document (u "units") supported c = (c', true, w :: ws) -> digest (JObj c) = Ok fp -> backed log n fp.

Lemma backed_more log log' n fp : log ⊆ log' -> backed log n fp -> backed log' n fp.
Proof. intros Hl. induction 1; [eapply approved; eauto|eapply carried; eauto|eapply voided; eauto]. Qed.

(** The recorded fingerprint of an episode. *)
Definition recorded (p : dict) (n : Z) (v : json) : Prop :=
  exists r, stored_review p n = Ok r /\ dict_get (u "fingerprint") r = Some v /\ v <> JNull.

Definition sound (log : list (Z * dict)) (p : dict) : Prop := forall n v, recorded p n v -> exists fp, v = JStr fp /\ backed log n fp.

Lemma recorded_same p p' n v : stored_review p' n = stored_review p n -> recorded p' n v -> recorded p n v.
Proof. intros H (r & Hr & Hv). exists r. by rewrite <- H. Qed.

Lemma sound_more log log' p : log ⊆ log' -> sound log p -> sound log' p.
Proof. intros Hl Hs n v (fp & -> & Hb)%Hs. exists fp. split; [done|]. by eapply backed_more. Qed.

Lemma sound_confirm log p n fp at_ p' ok :
  sound log p -> apply_confirmation float_true float_eq p n fp at_ = Ok (p', ok) -> backed log n fp -> sound log p'.
Proof.
  intros Hs Ha Hb k v Hr. destruct (confirmed_review _ _ float_int _ _ _ _ _ _ k Ha) as [H1 H2].
  destruct (decide (n = k /\ ok = true)) as [[<- ->]|Hne].
  - destruct Hr as (r & Hr & Hv & _). rewrite H1 in Hr by done. apply Ok_inj in Hr as <-. injection Hv as <-. eauto.
  - apply Hs. eapply recorded_same; [|exact Hr]. apply H2. destruct ok; [left; naive_solver|by right].
Qed.

(** ** Calls that keep confirmations backed *)

Definition keeps (s s' : Room) : Prop := forall log, sound log (project_of s) -> sound log (project_of s').
Definition tame {A} (m : act A) : Prop := forall s, keeps s (m s).2.

Lemma tame_lift {A} (r : result A) : tame (lift r).
Proof. intros s log. done. Qed.
Lemma tame_ret {A} (a : A) : tame (ret a).
Proof. intros s log. done. Qed.
Lemma tame_then {A B} (m : act A) (k : A -> act B) : tame m -> (forall a, tame (k a)) -> tame (then_ m k).
Proof. intros Hm Hk s log Hs. unfold then_. specialize (Hm s log Hs). destruct (m s) as [[a|e] s']; [by apply Hk|done]. Qed.
Lemma tame_at {A} (k : Room -> act A) : (forall s0, tame (k s0)) -> tame (fun s => k s s).
Proof. intros H s. apply H. Qed.
Lemma tame_transaction n basis write : tame (formal_step1_write_transaction register n basis write).
Proof. intros s log Hs. unfold formal_step1_write_transaction. by destruct (register _ _ _ _ _). Qed.
Lemma tame_look {A} (f : Room -> result A) : tame (fun s => (f s, s)).
Proof. intros s log. done. Qed.

Lemma tame_update mutate : (forall log p p', sound log p -> mutate p = Ok p' -> sound log p') -> tame (update_project (Claims := Claims) mutate).
Proof. intros H s log Hs. unfold update_project. destruct (mutate (project_of s)) as [p|] eqn:E; [by eapply H|done]. Qed.

#[local] Hint Resolve tame_lift tame_ret tame_transaction tame_look : spool.

Lemma tame_write n path content expected dependent clear basis : tame (write_locked n path content expected dependent clear basis).
Proof.
  unfold write_formal_step1_locked. intros s. apply tame_then; [auto with spool|]. intros _. apply tame_then; auto with spool.
Qed.

Lemma tame_register d : tame (_register_orphan_episodes isdigit decimal d).
Proof. apply tame_update. intros log p p' Hs H n v Hr. apply Ok_inj in H as <-. apply Hs. eapply recorded_same; [apply registered_review|done]. Qed.

Lemma tame_require d p n : tame (require_episode d p n).
Proof.
  unfold _require_episode. apply tame_then; [auto with spool|]. intros [m|]; [auto with spool|]. case_goal; [auto with spool|].
  apply tame_then; [apply tame_register|]. intros q. apply tame_then; [auto with spool|]. intros [|]; auto with spool.
Qed.

Lemma carry_sound log p n c c' before after p' ok :
  sound log p -> digest (JObj c) = Ok before -> digest (JObj c') = Ok after -> same_document (u "units") c c' ->
  carry_confirmation_through_migration float_true float_eq py_repr p n before after = Ok (p', ok) -> sound log p'.
Proof.
  intros Hs Hb Ha Hsame H. unfold carry_confirmation_through_migration in H. apply bind_Ok in H as (stored & Hst & H).
  destruct (is_str _ before) eqn:E; cbn [negb] in H; [|by apply Ok_inj, pair_equal_spec in H as [<- _]].
  apply bind_Ok in H as ([p1 ok1] & Hap & H). apply Ok_inj, pair_equal_spec in H as [<- _]. cbn [fst].
  assert (dict_get (u "fingerprint") stored = Some (JStr before)) as Hfp.
  { unfold is_str in E. destruct (dict_get _ stored) as [[]|]; try done. by apply bool_decide_eq_true in E as ->. }
  destruct (Hs n (JStr before)) as (fp & [= <-] & Hbk); [by exists stored|].
  eapply sound_confirm; [exact Hs|exact Hap|]. by eapply carried.
Qed.

Lemma void_sound log p n c c' supported w ws before p' :
  sound log p -> digest (JObj c) = Ok before -> migrate_document (u "units") supported c = (c', true, w :: ws) ->
  _invalidate_grandfathered float_true float_eq py_repr p n before = Ok p' -> sound log p'.
Proof.
  intros Hs Hb Hm H. unfold _invalidate_grandfathered in H. apply bind_Ok in H as (stored & Hst & H).
  destruct (py_bool _ _); [by apply Ok_inj in H as <-|]. apply bind_Ok in H as ([p1 ok] & Hap & H). apply Ok_inj in H as <-. cbn [fst].
  eapply sound_confirm; [exact Hs|exact Hap|]. by eapply voided.
Qed.

Lemma tame_migrate content n supported : tame (migrate content n supported).
Proof.
  unfold migrate_step1_draft_in_place. intros s. unfold then_ at 1, lift at 1.
  destruct (digest (JObj content)) as [before|] eqn:Eb; [|by intros log].
  destruct (migrate_document _ supported content) as [[content' changed] warnings] eqn:Em. destruct changed; cbn [negb]; [|by intros log].
  revert s. apply tame_then.
  - destruct warnings as [|w ws].
    + intros s. unfold then_, lift. destruct (digest (JObj content')) as [after|] eqn:Ea; [|by intros log]. revert s.
      apply tame_update. intros log p p' Hs H. apply bind_Ok in H as ([p1 ok] & H & Hp). apply Ok_inj in Hp as <-. cbn [fst].
      eapply carry_sound; [exact Hs|exact Eb|exact Ea|by eapply migrate_document_quiet|exact H].
    + apply tame_update. intros log p p' Hs H. by eapply void_sound.
  - intros updated. apply tame_then; [apply tame_write|]. auto with spool.
Qed.

Lemma tame_read p n path supported : tame (read_migrated p n path supported).
Proof.
  intros s. unfold _read_step1_migrated. destruct (_read_json _) as [c|]; [|by intros log]. revert s. apply tame_then; [auto with spool|].
  intros kind. case_goal; [auto with spool|]. apply tame_then; [apply tame_migrate|]. auto with spool.
Qed.

Lemma tame_confirm_content d p n supported : tame (confirm_content d p n supported).
Proof.
  unfold ScriptReview.confirm_content. apply tame_then; [auto with spool|]. intros [path|]; [|auto with spool].
  apply tame_then; [apply tame_require|]. intros q. apply tame_then; [auto with spool|]. intros quarantine s. case_goal; [by intros log|].
  clear Heqb. revert s. apply tame_then; [apply tame_read|]. intros [content q2] s. cbn [fst snd]. destruct (bool_decide (content = None) && _); [by intros log|].
  revert s. apply tame_then; [auto with spool|]. intros kind.
  destruct (match content with Some c => validate kind (JObj c) | None => None end) as [dumped|]; [|destruct content; auto with spool].
  destruct content as [c|]; [|auto with spool]. apply tame_then; [auto with spool|]. intros _. destruct (bool_decide (kind = reference_video)).
  - do 3 (apply tame_then; [apply tame_lift|intros ?]). apply tame_then; [apply tame_write|]. intros _. apply tame_then; auto with spool.
  - apply tame_then; auto with spool.
Qed.

Lemma tame_conflict {A} (m : act A) : tame m -> tame (as_conflict m).
Proof. intros H s log Hs. specialize (H s log Hs). unfold as_conflict. destruct (m s) as [[|[]] s']; done. Qed.

Lemma tame_save d n content base : tame (save d n content base).
Proof.
  intros s0. unfold _save_content_sync. apply tame_then; [auto with spool|]. intros [path|]; [|auto with spool].
  apply tame_then; [apply tame_require|]. intros p. apply tame_then; [auto with spool|]. intros kind. destruct (validate kind content) as [v|].
  - apply tame_then; [auto with spool|]. intros v'. apply tame_conflict. case_goal.
    + unfold save_reference. apply tame_then; [auto with spool|]. intros v2 s. apply tame_then; [auto with spool|]. intros adm.
      apply tame_then; [apply tame_write|]. auto with spool.
    + unfold save_other. intros s. apply tame_then; [auto with spool|]. intros _. apply tame_then; [auto with spool|]. intros adm.
      apply tame_then; [apply tame_write|]. auto with spool.
  - intros s. apply tame_then; auto with spool.
Qed.

Lemma tame_get_state d on_disk p n supported : tame (get_state d on_disk p n supported).
Proof.
  unfold _get_state_sync. apply tame_then; [auto with spool|]. intros [path|].
  - apply tame_then; [apply tame_require|]. intros q. apply tame_then; [apply tame_read|]. intros r. apply tame_then; [auto with spool|]. intros fp.
    apply tame_then; [auto with spool|]. auto with spool.
  - apply tame_then; auto with spool.
Qed.

(** ** All histories *)

(** What can happen to a project: its files are rewritten by anybody, its
    JSON is edited without adding confirmations, the service is called, and a
    reviewer's confirmation is recorded, perhaps much later.  The log keeps
    the documents that reviewers have confirmed. *)
Inductive history : list (Z * dict) -> Room -> Prop :=
| h_start s : (forall n v, ~ recorded (project_of s) n v) -> history [] s
| h_files log s fs c : history log s -> history log (mkRoom (project_of s) fs c)
| h_edit log s p : history log s -> (forall n v, recorded p n v -> recorded (project_of s) n v) -> history log (with_project p s)
| h_save log s d n content base : history log s -> history log (save d n content base s).2
| h_get_state log s d on_disk p n supported : history log s -> history log (get_state d on_disk p n supported s).2
| h_refused log s d p n supported e s' : history log s -> confirm_content d p n supported s = (Raise e, s') -> history log s'
| h_confirmed log s d p n supported v fp s' : history log s -> confirm_content d p n supported s = (Ok (v, fp), s') -> history ((n, v) :: log) s'
| h_recorded log s n v fp at_ : history log s -> (n, v) ∈ log -> digest (JObj v) = Ok fp -> history log (record_confirmation n fp at_ s).2.

Lemma history_sound log s : history log s -> sound log (project_of s).
Proof.
  induction 1 as [s H|log s fs c _ IH|log s p _ IH H|log s d n content base _ IH|log s d on_disk p n sup _ IH|log s d p n sup e s' _ IH H
                 |log s d p n sup v fp s' _ IH H|log s n v fp at_ _ IH Hin Hfp].
  - intros n v Hr. by apply H in Hr.
  - done.
  - intros n v Hr. by apply IH, H.
  - by apply tame_save.
  - by apply tame_get_state.
  - pose proof (tame_confirm_content d p n sup s log IH) as Hk. by rewrite H in Hk.
  - pose proof (tame_confirm_content d p n sup s log IH) as Hk. rewrite H in Hk. eapply sound_more; [|exact Hk]. set_solver.
  - unfold ScriptReview.record_confirmation, then_, update_project.
    destruct (apply_confirmation float_true float_eq (project_of s) n fp at_) as [[p' ok]|] eqn:E; cbn [bind snd fst]; [|done].
    destruct ok; cbn [snd]; [|done]. eapply sound_confirm; [exact IH|exact E|]. by eapply approved.
Qed.


(** ** Runs of the calls *)

(** The two members that decide about the variant. *)
Definition same_axes (p p' : dict) : Prop :=
  dict_get (u "content_mode") p' = dict_get (u "content_mode") p /\ dict_get (u "generation_mode") p' = dict_get (u "generation_mode") p.

Lemma same_axes_refl p : same_axes p p.
Proof. done. Qed.
Lemma same_axes_trans p q r : same_axes p q -> same_axes q r -> same_axes p r.
Proof. unfold same_axes. intros [? ?] [? ?]. split; congruence. Qed.
Lemma same_axes_kind p p' : same_axes p p' -> step1_kind p' = step1_kind p.
Proof. intros [H1 H2]. unfold step1_kind, is_reference_video_project. by rewrite H1, H2. Qed.
Lemma same_axes_set k v p : k = u "episodes" -> same_axes p (dict_set k v p).
Proof. intros ->. split; by rewrite dict_get_set_ne by (intros [=]). Qed.
Lemma same_axes_register d p : same_axes p (register_orphan_episode_entries isdigit decimal d p).
Proof. unfold register_orphan_episode_entries. destruct (dict_get (u "episodes") p) as [[]|]; try done; by apply same_axes_set. Qed.
Lemma same_axes_episode n k v p : same_axes p (set_episode float_eq n k v p).
Proof. unfold set_episode. destruct (dict_get (u "episodes") p) as [[]|]; try done; by apply same_axes_set. Qed.
Lemma same_axes_confirm p n fp at_ p' ok : apply_confirmation float_true float_eq p n fp at_ = Ok (p', ok) -> same_axes p p'.
Proof.
  unfold apply_confirmation. intros (m & _ & H)%bind_Ok. apply Ok_inj in H. destruct m; apply pair_equal_spec in H as [<- _]; [apply same_axes_episode|done].
Qed.

(** A call of [_require_episode] touches the list of episodes only. *)
Lemma require_run d p n (s : Room) r (s' : Room) : require_episode d p n s = (r, s') ->
  files_of s' = files_of s /\ claims_of s' = claims_of s /\ same_axes (project_of s) (project_of s')
  /\ (forall m, stored_review (project_of s') m = stored_review (project_of s) m)
  /\ (forall q, r = Ok q -> (q = p /\ s' = s) \/ q = project_of s').
Proof.
  unfold _require_episode, then_, lift, ret. destruct (find_episode p n) as [[m|]|].
  - intros [<- <-]%pair_equal_spec. repeat split; try done. intros q [= <-]. by left.
  - destruct (negb _); [intros [<- <-]%pair_equal_spec; by repeat split|]. unfold _register_orphan_episodes, update_project.
    set (q := register_orphan_episode_entries _ _ _ _).
    assert (files_of (with_project q s) = files_of s /\ claims_of (with_project q s) = claims_of s /\ same_axes (project_of s) q
            /\ forall m, stored_review q m = stored_review (project_of s) m) as (H1 & H2 & H3 & H4).
    { split; [done|]. split; [done|]. split; [apply same_axes_register|]. intros m. apply registered_review. }
    destruct (find_episode q n) as [[m|]|]; intros [<- <-]%pair_equal_spec; repeat split; try apply H3; try done.
    intros x [= <-]. by right.
  - intros [<- <-]%pair_equal_spec. by repeat split.
Qed.

(** A transaction that succeeds has written; one that fails has not. *)
Lemma transaction_run n basis write (s : Room) r (s' : Room) : formal_step1_write_transaction register n basis write s = (r, s') ->
  project_of s' = project_of s
  /\ match r with Ok _ => files_of s' = write (files_of s) | Raise _ => s' = s end.
Proof. unfold formal_step1_write_transaction. destruct (register _ _ _ _ _); intros [<- <-]%pair_equal_spec; done. Qed.

Lemma write_run n path content expected dependent clear basis (s : Room) r (s' : Room) :
  write_locked n path content expected dependent clear basis s = (r, s') ->
  project_of s' = project_of s
  /\ match r with
     | Ok _ =>
         files_of s' !! path = (match dependent with Some k => if bool_decide (quarantine_path n k = path) then files_of s' !! path else Some (Doc (JObj content)) | None => Some (Doc (JObj content)) end)
         /\ (forall q, q <> path -> (forall k, dependent = Some k -> q <> quarantine_path n k) -> files_of s' !! q = files_of s !! q)
         /\ (forall q, q <> path -> files_of s !! q = None -> files_of s' !! q = None)
         /\ (forall e, expected = Some e -> fingerprint_of (files_of s !! path) = Ok e)
     | Raise _ => s' = s
     end.
Proof.
  unfold write_formal_step1_locked, then_ at 1, lift. destruct (assert_base_fingerprint _ _ _ _) as [[]|] eqn:Ea; [|intros [<- <-]%pair_equal_spec; done].
  unfold then_. destruct (formal_step1_write_transaction _ _ _ _ _) as [r1 s1] eqn:Et. apply transaction_run in Et as [Hp Ht].
  destruct r1 as [[]|]; [|intros [<- <-]%pair_equal_spec; done]. unfold ret. intros [<- <-]%pair_equal_spec. split; [done|].
  assert (forall e, expected = Some e -> fingerprint_of (files_of s !! path) = Ok e) as He.
  { intros e ->. cbn [assert_base_fingerprint] in Ea. apply bind_Ok in Ea as (actual & Hf & Ea). rewrite Hf.
    destruct (bool_decide (e = actual)) eqn:E; [|done]. by apply bool_decide_eq_true in E as ->. }
  rewrite Ht. destruct dependent as [k|].
  - repeat split; [| | |done].
    + case_bool_decide as Hq; [done|]. case_goal; unfold clear_quarantine; rewrite ?lookup_delete_ne, lookup_insert by done; by rewrite decide_True.
    + intros q Hq Hd. case_goal; unfold clear_quarantine; rewrite ?lookup_delete_ne, lookup_insert_ne by (done || (apply not_eq_sym; by apply Hd)); done.
    + intros q Hq Hn. case_goal; unfold clear_quarantine; [rewrite lookup_delete; case_decide; [done|]|]; by rewrite lookup_insert_ne.
  - repeat split; [| | |done].
    + rewrite lookup_insert. by rewrite decide_True.
    + intros q Hq _. by rewrite lookup_insert_ne.
    + intros q Hq Hn. by rewrite lookup_insert_ne.
Qed.

Lemma quarantine_not_step1 n k kind : quarantine_path n k <> drafts_path n (step1_filename kind).
Proof.
  unfold quarantine_path, drafts_path. intros H%app_inv_head%app_inv_head%app_inv_head%u_inj. by destruct k, kind.
Qed.

Lemma migrate_units_unchanged supported l : forall l' w, migrate_units supported l = (l', false, w) -> l' = l.
Proof.
  induction l as [|x l IH]; intros l' w; cbn [migrate_units]; [by intros [= <-]|].
  destruct (migrate_units supported l) as [[r c] w0]. specialize (IH r).
  destruct x as [| | | | | |m]; try (intros [= <- -> _]; f_equal; by eapply IH).
  destruct (migrate_unit supported m) as [m' [w'|]] eqn:E; [done|]. apply migrate_unit_none in E as ->. intros [= <- -> _]. f_equal. by eapply IH.
Qed.

Lemma migrate_unchanged key supported c c' w : migrate_document key supported c = (c', false, w) -> c' = c.
Proof.
  unfold migrate_document, migrate_unit_durations. destruct (dict_get key c) as [[| | | | |l|]|] eqn:E;
    try (intros [= <- _]; by apply dict_set_same); [|by intros [= <- _]].
  destruct (migrate_units _ l) as [[l' ch] w'] eqn:Em. intros [= <- -> _]. apply migrate_units_unchanged in Em as ->. by apply dict_set_same.
Qed.

(** The files that a migration leaves alone. *)
Lemma migrate_run content n supported (s : Room) content' upd w (s' : Room) :
  migrate content n supported s = (Ok (content', upd, w), s') ->
  same_axes (project_of s) (project_of s')
  /\ (upd = None -> s' = s /\ content' = content) /\ (forall p, upd = Some p -> p = project_of s')
  /\ files_of s' !! official_reference_step1_path n = (if upd then Some (Doc (JObj content')) else files_of s !! official_reference_step1_path n)
  /\ (forall q, q <> official_reference_step1_path n -> files_of s !! q = None -> files_of s' !! q = None).
Proof.
  unfold migrate_step1_draft_in_place. intros (before & s0 & [_ ->]%lift_Ok & H)%then_Ok.
  destruct (migrate_document _ supported content) as [[c' changed] warnings] eqn:Em. destruct changed; cbn [negb] in H.
  - apply then_Ok in H as (p & s1 & Hu & H).
    assert (same_axes (project_of s) (project_of s1) /\ p = project_of s1 /\ files_of s1 = files_of s) as (Hax & -> & Hfs).
    { assert (forall mutate, (forall q q', mutate q = Ok q' -> same_axes q q') -> update_project mutate s = (Ok p, s1) ->
        same_axes (project_of s) (project_of s1) /\ p = project_of s1 /\ files_of s1 = files_of s) as Hup.
      { intros mutate Hm. unfold update_project. destruct (mutate _) as [q|] eqn:E; [|done]. intros [[= <-] <-]%pair_equal_spec. split; [by apply Hm|done]. }
      destruct warnings as [|w0 ws].
      - apply then_Ok in Hu as (after & s2 & [_ ->]%lift_Ok & Hu). eapply Hup; [|exact Hu]. intros q q' ([q1 ok] & Hc & Hq)%bind_Ok. apply Ok_inj in Hq as <-.
        unfold carry_confirmation_through_migration in Hc. apply bind_Ok in Hc as (st & _ & Hc). destruct (negb _); [by apply Ok_inj, pair_equal_spec in Hc as [<- _]|].
        apply bind_Ok in Hc as ([q2 ok2] & Ha & Hc). apply Ok_inj, pair_equal_spec in Hc as [<- _]. by eapply same_axes_confirm.
      - eapply Hup; [|exact Hu]. intros q q' Hi. unfold _invalidate_grandfathered in Hi. apply bind_Ok in Hi as (st & _ & Hi).
        destruct (py_bool _ _); [by apply Ok_inj in Hi as <-|]. apply bind_Ok in Hi as ([q2 ok2] & Ha & Hc). apply Ok_inj in Hc as <-. by eapply same_axes_confirm. }
    apply then_Ok in H as (b & s2 & Hw & H). apply write_run in Hw as (Hp & Hf1 & _ & Hf3 & _).
    unfold ret in H. apply pair_equal_spec in H as [H <-]. apply Ok_inj, pair_equal_spec in H as [[<- <-]%pair_equal_spec <-].
    split; [by rewrite Hp|]. split; [done|]. split; [intros q [= <-]; by rewrite Hp|]. split.
    + rewrite bool_decide_eq_false_2 in Hf1 by apply quarantine_not_step1. exact Hf1.
    + intros q Hq Hn. apply Hf3; [done|]. by rewrite Hfs.
  - unfold ret in H. apply pair_equal_spec in H as [H <-]. apply Ok_inj, pair_equal_spec in H as [[<- <-]%pair_equal_spec <-].
    apply migrate_unchanged in Em as ->. done.
Qed.

Lemma read_run p n path supported (s : Room) content q (s' : Room) kind :
  step1_kind p = Ok (Some kind) -> path = drafts_path n (step1_filename kind) ->
  read_migrated p n path supported s = (Ok (content, q), s') ->
  same_axes (project_of s) (project_of s') /\ (q = p \/ q = project_of s')
  /\ (forall c, content = Some c -> files_of s' !! path = Some (Doc (JObj c)))
  /\ (forall k, files_of s !! quarantine_path n k = None -> files_of s' !! quarantine_path n k = None).
Proof.
  intros Hk -> H. unfold _read_step1_migrated in H. set (path := drafts_path n (step1_filename kind)) in *. destruct (_read_json (files_of s !! path)) as [c|] eqn:Er.
  2:{ apply pair_equal_spec in H as [H <-]. apply Ok_inj, pair_equal_spec in H as [<- <-]. repeat split; try done. by left. }
  assert (files_of s !! path = Some (Doc (JObj c))) as Hf.
  { unfold _read_json in Er. destruct (files_of s !! path) as [[[]|]|]; try done. by injection Er as <-. }
  apply then_Ok in H as (kind' & s0 & [Hk' ->]%lift_Ok & H). rewrite Hk in Hk'. apply Ok_inj in Hk' as <-.
  case_bool_decide as Hrv; cbn [negb] in H.
  - injection Hrv as ->. apply then_Ok in H as ([[c' upd] w] & s1 & Hm & H). apply pair_equal_spec in H as [H <-]. apply Ok_inj, pair_equal_spec in H as [<- <-].
    apply migrate_run in Hm as (Hax & Hn & Hs & Hof & Hq). cbn [fst snd]. split; [done|]. split; [|split].
    + destruct upd as [p'|]; [|by left]. case_bool_decide; [by left|right]. by apply Hs.
    + intros x [= <-]. change path with (official_reference_step1_path n). rewrite Hof. destruct upd; [done|]. by destruct (Hn eq_refl) as [_ ->].
    + intros k Hnk. apply Hq; [apply quarantine_not_step1|done].
  - apply pair_equal_spec in H as [H <-]. apply Ok_inj, pair_equal_spec in H as [<- <-]. repeat split; try done; [by left|]. by intros x [= <-].
Qed.

(** What a successful confirmation has found. *)
Lemma confirm_content_run d p n supported (s : Room) v fp (s' : Room) :
  p = project_of s -> confirm_content d p n supported s = (Ok (v, fp), s') ->
  exists kind, step1_kind (project_of s') = Ok (Some kind)
    /\ files_of s' !! drafts_path n (step1_filename kind) = Some (Doc (JObj v)) /\ digest (JObj v) = Ok fp
    /\ step1_quarantined (files_of s') (project_of s') n = Ok false.
Proof.
  intros Hp H. unfold ScriptReview.confirm_content in H. apply then_Ok in H as (path & s0 & [Hpath ->]%lift_Ok & H).
  unfold step1_path in Hpath. apply bind_Ok in Hpath as (kind & Hk & Hpath). apply Ok_inj in Hpath as <-. destruct kind as [kind|]; [|done].
  apply then_Ok in H as (p1 & s1 & Hreq & H). apply require_run in Hreq as (_ & _ & Hax1 & _ & Hp1).
  assert (p1 = project_of s1) as ->.
  { destruct (Hp1 _ eq_refl) as [[H1 H2]|H1]; [|done]. congruence. }
  rewrite Hp in Hk. pose proof (same_axes_kind _ _ Hax1) as Hk1. rewrite Hk in Hk1.
  apply then_Ok in H as (quarantine & s2 & [Hq ->]%lift_Ok & H). unfold step1_quarantine_path, step1_quarantine_kind in Hq. rewrite Hk1 in Hq. cbn [bind] in Hq.
  apply Ok_inj in Hq. destruct (match quarantine with Some q => _ | None => _ end) eqn:Enq; [done|].
  apply then_Ok in H as ([content q] & s2 & Hr & H). cbn [fst snd] in H.
  destruct (read_run _ _ _ _ _ _ _ _ _ Hk1 eq_refl Hr) as (Hax2 & Hqp & Hfile & Hquar).
  assert (step1_kind (project_of s2) = Ok (Some kind)) as Hk2 by (by rewrite (same_axes_kind _ _ Hax2)).
  assert (step1_kind q = Ok (Some kind)) as Hkq by (destruct Hqp as [-> | ->]; done).
  destruct (bool_decide (content = None) && _); [done|]. apply then_Ok in H as (kind' & s3 & [Hk' ->]%lift_Ok & H).
  unfold _resolve_step1_model in Hk'. rewrite Hkq in Hk'. cbn [bind] in Hk'. apply Ok_inj in Hk' as <-.
  destruct content as [c|]; [|done]. destruct (validate kind (JObj c)) as [dumped|]; [|done].
  apply then_Ok in H as ([] & s3 & [_ ->]%lift_Ok & H). specialize (Hfile c eq_refl).
  assert (forall fs p', step1_kind p' = Ok (Some kind) -> (forall k, files_of s1 !! quarantine_path n k = None -> fs !! quarantine_path n k = None) ->
            step1_quarantined fs p' n = Ok false) as Hgate.
  { intros fs p' Hkp Hn. unfold step1_quarantined, step1_quarantine_path, step1_quarantine_kind. rewrite Hkp. cbn [bind].
    destruct (_STEP1_QUARANTINE_KIND kind) as [k|]; [|done]. subst quarantine. apply bool_decide_eq_false, eq_None_not_Some, Hn in Enq. rewrite Enq.
    rewrite bool_decide_eq_false_2; [done|]. by intros [? [=]]. }
  case_bool_decide as Hrv.
  - subst kind. apply then_Ok in H as (dumped' & s3 & [_ ->]%lift_Ok & H). apply then_Ok in H as (units & s3 & [_ ->]%lift_Ok & H).
    apply then_Ok in H as ([] & s3 & [_ ->]%lift_Ok & H). apply then_Ok in H as (b & s3 & Hw & H). apply then_Ok in H as (fp' & s4 & [Hfp ->]%lift_Ok & H).
    unfold ret in H. apply pair_equal_spec in H as [H <-]. apply Ok_inj, pair_equal_spec in H as [<- <-].
    apply write_run in Hw as (Hp3 & Hf1 & _ & Hf3 & _). rewrite bool_decide_eq_false_2 in Hf1 by apply quarantine_not_step1.
    exists reference_video. rewrite Hp3. split; [done|]. split; [done|]. split; [done|]. apply Hgate; [done|].
    intros k Hn. apply Hf3; [apply quarantine_not_step1|]. by apply Hquar.
  - apply then_Ok in H as (fp' & s4 & [Hfp ->]%lift_Ok & H). unfold ret in H. apply pair_equal_spec in H as [H <-]. apply Ok_inj, pair_equal_spec in H as [<- <-].
    exists kind. split; [done|]. split; [done|]. split; [done|]. by apply Hgate.
Qed.

(** A confirmation that returns has recorded the fingerprint of the step1 now
    on disk: the gate is open. *)
Theorem confirm_opens_gate d n supported at_ (s s' : Room) on_disk :
  confirm d (project_of s) n supported at_ s = (Ok tt, s') ->
  status_of on_disk (files_of s') (project_of s') n = Ok confirmed
  /\ gate_blocks_step2 float_true float_eq sha256 sha256_raw on_disk (files_of s') (project_of s') n = Ok false.
Proof.
  intros H. unfold _confirm_sync in H. apply then_Ok in H as ([v fp] & s1 & Hc & H). cbn [fst snd] in H.
  apply confirm_content_run in Hc as (kind & Hk & Hf & Hfp & Hq); [|done]. unfold ScriptReview.record_confirmation in H.
  apply then_Ok in H as (p & s2 & Hu & H). unfold ret in H. apply pair_equal_spec in H as [_ <-]. unfold update_project in Hu.
  destruct (apply_confirmation float_true float_eq (project_of s1) n fp at_) as [[p' ok]|] eqn:Ha; cbn [bind fst snd] in Hu; [|done].
  destruct ok; [|done]. apply pair_equal_spec in Hu as [_ <-]. unfold with_project. cbn [project_of files_of].
  destruct (confirmed_review _ _ float_int _ _ _ _ _ _ n Ha) as [Hst _]. specialize (Hst eq_refl).
  pose proof (same_axes_confirm _ _ _ _ _ _ Ha) as Hax. pose proof (same_axes_kind _ _ Hax) as Hk'. rewrite Hk in Hk'.
  assert (status_of on_disk (files_of s1) p' n = Ok confirmed) as Hstat.
  { unfold review_status, step1_path. rewrite Hk'. cbn [bind].
    unfold step1_quarantined, step1_quarantine_path, step1_quarantine_kind in Hq |- *. rewrite Hk in Hq. rewrite Hk'. cbn [bind] in Hq |- *. apply Ok_inj in Hq. rewrite Hq.
    rewrite Hf. cbn [content_fingerprint]. unfold content_fingerprint_of_data. rewrite Hfp. cbn [bind]. rewrite Hst. cbn [bind].
    unfold review_record. cbn [dict_get]. rewrite bool_decide_eq_true_2 by done. cbn [is_str]. by rewrite bool_decide_eq_true_2. }
  split; [done|]. unfold gate_blocks_step2. by rewrite Hstat.
Qed.

(** ** Saving *)

(** What a write of a step1 has done, for the author who expected [base]. *)
Definition written (n : Z) (path : pystr) (expected : option (option pystr)) (s s' : Room) : Prop :=
  (exists doc, files_of s' !! path = Some (Doc (JObj doc)))
  /\ (forall q, q <> path -> q <> quarantine_path n QUARANTINE_KIND_STEP2 -> files_of s' !! q = files_of s !! q)
  /\ (forall e, expected = Some e -> fingerprint_of (files_of s !! path) = Ok e).

Lemma save_reference_run n v p expected (s : Room) r (s' : Room) :
  save_reference nfc is_decimal float_true float_eq py_repr sha256 sha256_raw register n (official_reference_step1_path n) v p expected s = (r, s') ->
  project_of s' = project_of s /\ match r with Ok _ => written n (official_reference_step1_path n) expected s s' | Raise _ => s' = s end.
Proof.
  unfold save_reference, then_ at 1, lift. destruct (rederive_document _ _ _ _ _ _) as [v1|]; [|intros [<- <-]%pair_equal_spec; done].
  unfold then_ at 1. destruct (bind _ as_dict) as [adm|]; [|intros [<- <-]%pair_equal_spec; done]. unfold then_.
  destruct (write_step1_locked _ _ _ _ _ _ _ _ _ s) as [rw s1] eqn:Ew. apply write_run in Ew as [Hp Hw].
  destruct rw; [|intros [<- <-]%pair_equal_spec; done]. unfold ret. intros [<- <-]%pair_equal_spec. split; [done|].
  destruct Hw as (H1 & H2 & _ & H4). rewrite bool_decide_eq_false_2 in H1 by apply quarantine_not_step1. split; [by eexists|]. split; [|done].
  intros q Hq Hd. apply H2; [done|]. by intros k [= <-].
Qed.

Lemma save_other_run kind n path v expected (s : Room) r (s' : Room) :
  save_other nfc float_true float_eq sha256 sha256_raw register kind n path v expected s = (r, s') ->
  project_of s' = project_of s /\ match r with Ok _ => written n path expected s s' | Raise _ => s' = s end.
Proof.
  unfold save_other, then_ at 1, lift. destruct (assert_base_fingerprint _ _ _ _) as [[]|] eqn:Ea; [|intros [<- <-]%pair_equal_spec; done].
  unfold then_ at 1. destruct (bind _ as_dict) as [adm|]; [|intros [<- <-]%pair_equal_spec; done]. unfold then_.
  destruct (write_formal_step1_locked _ _ _ _ _ _ _ _ _ _ _ s) as [rw s1] eqn:Ew. apply write_run in Ew as [Hp Hw].
  destruct rw; [|intros [<- <-]%pair_equal_spec; done]. unfold ret. intros [<- <-]%pair_equal_spec. split; [done|].
  destruct Hw as (H1 & H2 & _ & _). split; [by eexists|]. split; [intros q Hq _; by apply H2|].
  intros e ->. cbn [assert_base_fingerprint] in Ea. apply bind_Ok in Ea as (actual & Hf & Ea). rewrite Hf.
  destruct (bool_decide (e = actual)) eqn:E; [|done]. by apply bool_decide_eq_true in E as ->.
Qed.

Lemma save_run d n content base (s : Room) r (s' : Room) :
  save d n content base s = (r, s') ->
  (forall m, stored_review (project_of s') m = stored_review (project_of s) m) /\ same_axes (project_of s) (project_of s')
  /\ match r with
     | Raise _ => files_of s' = files_of s /\ claims_of s' = claims_of s
     | Ok _ => exists path, step1_path (project_of s) n = Ok (Some path) /\ written n path (option_map Some base) s s'
     end.
Proof.
  unfold _save_content_sync, then_ at 1, lift. destruct (step1_path (project_of s) n) as [path|] eqn:Epath; [|intros [<- <-]%pair_equal_spec; done].
  destruct path as [path|]; [|intros [<- <-]%pair_equal_spec; done]. unfold then_ at 1.
  destruct (require_episode d (project_of s) n s) as [rq s1] eqn:Er. apply require_run in Er as (Hf1 & Hc1 & Hax & Hst & Hq).
  destruct rq as [p|]; [|intros [<- <-]%pair_equal_spec; done].
  assert (step1_kind p = step1_kind (project_of s)) as Hk.
  { destruct (Hq p eq_refl) as [[-> _]| ->]; [done|by apply same_axes_kind]. }
  unfold then_ at 1, _resolve_step1_model. rewrite Hk. unfold step1_path in Epath. destruct (step1_kind (project_of s)) as [kind|]; [|done]. cbn [bind] in *.
  apply Ok_inj in Epath. destruct kind as [kind|]; [|done]. injection Epath as <-.
  destruct (validate kind content) as [v|].
  2:{ unfold then_. destruct (_require_changed_speech_admitted _ _ _ _ _ _); intros [<- <-]%pair_equal_spec; done. }
  unfold then_ at 1. destruct (if bool_decide (kind = drama) then _ else _) as [v'|]; [|intros [<- <-]%pair_equal_spec; done].
  replace (match base with Some b => Some (Some b) | None => None end) with (option_map Some base) by (by destruct base).
  assert (forall m : act unit, (forall r0 s0, m s1 = (r0, s0) -> project_of s0 = project_of s1
            /\ match r0 with Ok _ => written n (drafts_path n (step1_filename kind)) (option_map Some base) s1 s0 | Raise _ => s0 = s1 end) ->
          as_conflict m s1 = (r, s') ->
          (forall m0, stored_review (project_of s') m0 = stored_review (project_of s) m0) /\ same_axes (project_of s) (project_of s')
          /\ match r with
             | Raise _ => files_of s' = files_of s /\ claims_of s' = claims_of s
             | Ok _ => exists path, Ok (Some (drafts_path n (step1_filename kind))) = Ok (Some path) /\ written n path (option_map Some base) s s'
             end) as Hgo.
  { intros m Hm. unfold as_conflict. destruct (m s1) as [r0 s0] eqn:E. destruct (Hm _ _ eq_refl) as [Hp Hr].
    destruct r0 as [[]|e].
    - intros [<- <-]%pair_equal_spec. rewrite Hp. split; [done|]. split; [done|]. eexists. split; [done|].
      unfold written in *. by rewrite <- Hf1.
    - intros H. assert (s' = s1 /\ exists e', r = Raise e') as (-> & e' & ->).
      { destruct e; apply pair_equal_spec in H as [<- <-]; eauto. }
      done. }
  case_bool_decide as Hrv.
  - subst kind. apply Hgo. intros r0 s0. apply save_reference_run.
  - apply Hgo. intros r0 s0. apply save_other_run.
Qed.

End gate.

(** ** An example *)

Definition no_float : json -> json -> bool := fun _ _ => false.
Definition demo_step1 (text : string) : dict := [(u "segments", JArr [JObj [(u "novel_text", JStr (u text))]])].
Definition demo_room : Room unit :=
  mkRoom [(u "content_mode", JStr (u "narration")); (u "episodes", JArr [JObj [(u "episode", JInt 1)]])]
         {[ drafts_path 1 "step1_segments.json" := Doc (JObj (demo_step1 "Rain.")) ]} tt.
Definition demo_register : dict -> files -> Z -> option unit -> unit -> result unit := fun _ _ _ _ c => Ok c.
Definition demo_validate (kind : Step1Kind) (v : json) : option dict := match v with JObj m => Some m | _ => None end.
Definition demo_project_disk : Disk := mkDisk None false [] [] (fun _ => false) (fun _ => None).

Definition demo_confirm (s : Room unit) : result unit * Room unit :=
  _confirm_sync id is_digit is_digit (fun _ => None) (fun _ => true) no_float (fun _ => []) id id demo_register demo_validate
    demo_project_disk (project_of s) 1 None (u "now") s.
Definition demo_save (text : string) (base : option pystr) (s : Room unit) : result unit * Room unit :=
  _save_content_sync id is_digit is_digit (fun _ => None) (fun _ => true) no_float (fun _ => []) id id demo_register demo_validate
    demo_project_disk 1 (JObj (demo_step1 text)) base s.
Definition demo_status (s : Room unit) : result ReviewStatus :=
  review_status (fun _ => true) no_float id id (fun _ => false) (files_of s) (project_of s) 1.

Lemma no_float_int l n m : no_float (JFloat l) (JInt n) = true -> no_float (JFloat l) (JInt m) = true -> n = m.
Proof. discriminate. Qed.

Lemma confirm_opens_gate_witness : demo_status demo_room = Ok pending_review /\ demo_status (demo_confirm demo_room).2 = Ok confirmed.
Proof.
  split; [vm_compute; reflexivity|].
  assert (demo_confirm demo_room = (Ok tt, (demo_confirm demo_room).2)) as E by (vm_compute; reflexivity).
  exact (proj1 (confirm_opens_gate id is_digit is_digit (fun _ => None) (fun _ => true) no_float (fun _ => []) id id demo_register demo_validate
    no_float_int demo_project_disk 1 None (u "now") demo_room _ (fun _ => false) E)).
Defined.

Definition demo_base : pystr := dumps_sep true true (JObj (demo_step1 "Rain.")).


