(* ===== verification/VersionManager.v ===== *)
(** * File versions

    [lib/version_manager.py], with the table of [lib/resource_paths.py].

    The state is the media files of a project, by path, and [versions.json],
    which is absent or a JSON object.  Every file operation can fail: [faults]
    says what becomes of the next ones, and a failing copy may leave junk where
    it wrote.  Temporary files are not part of the state: a backup is the
    content it holds.  The hooks a caller passes are given by how they end.
    The two clocks are functions of the number of times they were read. *)

From S2P Require Import Prelude Json ScriptReview.

(** ** Resource types *)

Record ResourcePattern := mkPattern { subdir : string; extension : string; prefix : string }.

Definition _PATTERNS : list (string * ResourcePattern) :=
  [("storyboards", mkPattern "storyboards" ".png" "scene_");
   ("end_frames", mkPattern "end_frames" ".png" "scene_");
   ("videos", mkPattern "videos" ".mp4" "scene_");
   ("characters", mkPattern "characters" ".png" "");
   ("scenes", mkPattern "scenes" ".png" "");
   ("props", mkPattern "props" ".png" "");
   ("products", mkPattern "products" ".png" "");
   ("grids", mkPattern "grids" ".png" "");
   ("reference_videos", mkPattern "reference_videos" ".mp4" "");
   ("free_images", mkPattern "creations" ".png" "");
   ("free_videos", mkPattern "creations" ".mp4" "");
   ("audio", mkPattern "audio" ".wav" "segment_")].

Definition RESOURCE_TYPES : list string := _PATTERNS.*1.
Definition supported_type (rt : string) : bool := bool_decide (rt ∈ RESOURCE_TYPES).

Definition resource_extension (rt : string) : result string :=
  match aget rt _PATTERNS with Some p => Ok (extension p) | None => Raise ValueError end.

Definition resource_relative_path (rt : string) (rid : pystr) : result pystr :=
  match aget rt _PATTERNS with
  | Some p => Ok (u (subdir p) ++ u "/" ++ u (prefix p) ++ rid ++ u (extension p))
  | None => Raise ValueError
  end.

(** [self.EXTENSIONS.get(resource_type, ".png")] *)
Definition extension_of (rt : string) : string := match aget rt _PATTERNS with Some p => extension p | None => ".png" end.

(** ** The state, and operations that can fail *)

Inductive fault := Fine | Breaks | BreaksDirty (junk : pystr).

Record World := mkWorld {
  media : gmap pystr pystr;
  versions : option dict;
  faults : list fault;
  calls : nat;
  created : list pystr  (* the snapshots of the running call *)
}.

Definition with_media (m : gmap pystr pystr) (w : World) : World := mkWorld m (versions w) (faults w) (calls w) (created w).
Definition with_versions (v : option dict) (w : World) : World := mkWorld (media w) v (faults w) (calls w) (created w).
Definition with_created (l : list pystr) (w : World) : World := mkWorld (media w) (versions w) (faults w) (calls w) l.

Abbreviation io := (act World).

Definition next_fault : io fault :=
  fun w => match faults w with
           | [] => (Ok Fine, w)
           | f :: rest => (Ok f, mkWorld (media w) (versions w) rest (calls w) (created w))
           end.

Definition read : io World := fun w => (Ok w, w).

(** A change that happens or, if the operation breaks, does not. *)
Definition attempt (change : World -> World) : io unit :=
  do! f := next_fault in
  fun w => match f with Fine => (Ok tt, change w) | _ => (Raise OSError, w) end.

Definition unlink (path : pystr) : io unit := attempt (fun w => with_media (delete path (media w)) w).
Definition put (path content : pystr) : io unit := attempt (fun w => with_media (<[path := content]> (media w)) w).
Definition write_versions (v : option dict) : io unit := attempt (with_versions v).
Definition _save_versions (data : dict) : io unit := write_versions (Some data).

(** [os.replace] *)
Definition os_replace (src dst : pystr) : io unit :=
  do! w := read in
  match media w !! src with
  | Some content => attempt (fun w => with_media (<[dst := content]> (delete src (media w))) w)
  | None => lift (Raise FileNotFoundError)
  end.

(** [shutil.copy2] *)
Definition copy2 (src dst : pystr) : io unit :=
  do! w := read in
  match media w !! src with
  | Some content =>
      do! f := next_fault in
      fun w => match f with
               | Fine => (Ok tt, with_media (<[dst := content]> (media w)) w)
               | Breaks => (Raise OSError, w)
               | BreaksDirty junk => (Raise OSError, with_media (<[dst := junk]> (media w)) w)
               end
  | None => lift (Raise FileNotFoundError)
  end.

(** A copy into a temporary file: its content. *)
Definition copy_aside (src : pystr) : io pystr :=
  do! w := read in
  match media w !! src with
  | Some content => do! _ := attempt (fun w => w) in ret content
  | None => lift (Raise FileNotFoundError)
  end.

(** Whether a step of a rollback has worked. *)
Definition quietly (m : io unit) : io bool := fun w => match m w with (Ok _, w') => (Ok true, w') | (Raise _, w') => (Ok false, w') end.

Fixpoint all_quietly (l : list (io unit)) : io bool :=
  match l with
  | [] => ret true
  | m :: rest => do! a := quietly m in do! b := all_quietly rest in ret (a && b)
  end.

(** [try: ... except BaseException: roll back, and raise again] *)
Definition protect {A} (m : io A) (undo : World -> io bool) : io A :=
  fun w => match m w with
           | (Ok a, w') => (Ok a, w')
           | (Raise e, w') =>
               match undo w' w' with
               | (Ok true, w'') => (Raise e, w'')
               | (_, w'') => (Raise RollbackIncomplete, w'')
               end
           end.

(** The formal file as it was before the call. *)
Definition restore_current (current : pystr) (existed : bool) (backup : option pystr) : io unit :=
  match backup with
  | None => if existed then ret tt else unlink current
  | Some content => put current content
  end.

Definition hook (outcome : option (result unit)) : io unit := match outcome with Some r => lift r | None => ret tt end.

Definition note_snapshot (path : pystr) : io unit := fun w => (Ok tt, with_created (created w ++ [path]) w).
Definition begin_call : io unit := fun w => (Ok tt, with_created [] w).

Section manager.
Context (float_true : pystr -> bool) (float_pos : pystr -> bool) (float_eq : json -> json -> bool).
Context (py_repr : json -> pystr) (stamp iso : nat -> pystr) (project_name : pystr).

Definition tick (clock : nat -> pystr) : io pystr :=
  fun w => (Ok (clock (calls w)), mkWorld (media w) (versions w) (faults w) (S (calls w)) (created w)).

(** ** The records of a resource *)

Definition _PREVIOUS_CURRENT_VERSION : pystr := u "_previous_current_version".
Definition MANUAL_UPLOAD_VERSION_SOURCE : pystr := u "manual_upload".

Definition _load_versions : io dict :=
  fun w => (Ok (default (map (fun rt => (u rt, JObj [])) RESOURCE_TYPES) (versions w)), w).

Definition fresh_resource : dict := [(u "current_version", JInt 0); (u "versions", JArr [])].

(** [data.setdefault(key, value)], which must be an object. *)
Definition child (key : pystr) (fresh : dict) (data : dict) : result dict :=
  match dict_get key data with None => Ok fresh | Some (JObj m) => Ok m | Some _ => Raise AttributeError end.

(** The resource of a call that writes, and the data with it put back. *)
Definition resource_of (data : dict) (rt : string) (rid : pystr) : result dict :=
  let! bucket := child (u rt) [] data in child rid fresh_resource bucket.

Definition put_resource (data : dict) (rt : string) (rid : pystr) (res : dict) : dict :=
  dict_set (u rt) (JObj (dict_set rid (JObj res) (match dict_get (u rt) data with Some (JObj b) => b | _ => [] end))) data.

(** A value that is no list cannot be iterated over or appended to. *)
Definition records_of (res : dict) : result (list json) :=
  match dict_get (u "versions") res with
  | None => Ok []
  | Some (JArr l) => Ok l
  | Some (JStr _) | Some (JObj _) => Raise AttributeError
  | Some _ => Raise TypeError
  end.

(** [item.get("version", 0)]; a float is not modelled. *)
Definition version_number (item : json) : result Z :=
  match item with
  | JObj m =>
      match dict_get (u "version") m with
      | None => Ok 0%Z
      | Some (JInt z) => Ok z
      | Some (JBool b) => Ok (if b then 1%Z else 0%Z)
      | Some _ => Raise TypeError
      end
  | _ => Raise AttributeError
  end.

(** [max((... for item in records), default=0) + 1] *)
Fixpoint numbers_of (records : list json) : result (list Z) :=
  match records with
  | [] => Ok []
  | x :: rest => let! n := version_number x in let! ns := numbers_of rest in Ok (n :: ns)
  end.

Definition max_of (l : list Z) : Z := match l with [] => 0%Z | x :: rest => foldr Z.max x rest end.

Definition next_version (records : list json) : result Z := let! ns := numbers_of records in Ok (max_of ns + 1)%Z.

(** The previous selection; [clamp] where the code also refuses negative ones. *)
Definition previous_version (clamp : bool) (res : dict) : Z :=
  match dict_get (u "current_version") res with
  | Some (JInt z) => if clamp && (z <? 0)%Z then 0%Z else z
  | _ => 0%Z
  end.

Definition set_members (meta : dict) (m : dict) : dict := foldl (fun m kv => dict_set kv.1 kv.2 m) m meta.

Definition version_record (num : Z) (file prompt created_at : pystr) (meta : dict) (previous : Z) : dict :=
  dict_set _PREVIOUS_CURRENT_VERSION (JInt previous)
    (set_members meta [(u "version", JInt num); (u "file", JStr file); (u "prompt", JStr prompt); (u "created_at", JStr created_at)]).

Definition snapshot_path (rt : string) (rid : pystr) (num : Z) (timestamp : pystr) : pystr :=
  u "versions/" ++ u rt ++ u "/" ++ rid ++ u "_v" ++ dumps_int num ++ u "_" ++ timestamp ++ u (extension_of rt).

(** [_append_version] of the staged commits, and [_append_snapshot] of the
    paid one, which leaves the selection alone. *)
Definition append_version (select clamp : bool) (rt : string) (rid source prompt : pystr) (meta res : dict) : io (Z * dict) :=
  do! records := lift (records_of res) in
  let previous := previous_version clamp res in
  do! num := lift (next_version records) in
  do! timestamp := tick stamp in
  let path := snapshot_path rt rid num timestamp in
  do! _ := copy2 source path in
  do! _ := note_snapshot path in
  do! created_at := tick iso in
  let res := dict_set (u "versions") (JArr (records ++ [JObj (version_record num path prompt created_at meta previous)])) res in
  ret (num, if select then dict_set (u "current_version") (JInt num) res else res).

(** ** Reading *)

(** [for v in resource_data.get("versions", [])] *)
Definition iter_records (res : dict) : result (list json) :=
  match dict_get (u "versions") res with
  | Some (JStr []) | Some (JObj []) => Ok []
  | _ => records_of res
  end.

Definition lookup_resource (data : dict) (rt : string) (rid : pystr) : result (option json) :=
  let! bucket := child (u rt) [] data in Ok (dict_get rid bucket).

Definition version_view (current : option json) (item : json) : result dict :=
  match item with
  | JObj v =>
      match dict_get (u "version") v, current, dict_get (u "file") v with
      | Some n, Some c, Some f =>
          Ok (dict_set (u "file_url") (JStr (u "/api/v1/files/" ++ project_name ++ u "/" ++ py_str py_repr f))
                (dict_set (u "is_current") (JBool (py_eq float_eq n c)) v))
      | _, _, _ => Raise KeyError
      end
  | _ => Raise AttributeError
  end.

Fixpoint version_views (current : option json) (items : list json) : result (list dict) :=
  match items with
  | [] => Ok []
  | x :: rest => let! v := version_view current x in let! vs := version_views current rest in Ok (v :: vs)
  end.

Definition get_versions (rt : string) (rid : pystr) (w : World) : result (json * list dict) :=
  if negb (supported_type rt) then Raise (BadRequestError "unsupported_resource_type")
  else
    let! data := (_load_versions w).1 in
    let! res := lookup_resource data rt rid in
    if negb (py_bool float_true res) then Ok (JInt 0, [])
    else
      match res with
      | Some (JObj m) =>
          let! items := iter_records m in
          let! views := version_views (dict_get (u "current_version") m) items in
          Ok (default (JInt 0) (dict_get (u "current_version") m), views)
      | _ => Raise AttributeError
      end.

Definition get_current_version (rt : string) (rid : pystr) (w : World) : result json :=
  let! info := get_versions rt rid w in Ok info.1.

(** [version > 0] *)
Definition is_positive (v : json) : result bool :=
  match v with
  | JInt z => Ok (0 <? z)%Z
  | JBool b => Ok b
  | JFloat l => Ok (float_pos l)
  | _ => Raise TypeError
  end.

Definition has_versions (rt : string) (rid : pystr) (w : World) : result bool :=
  let! v := get_current_version rt rid w in is_positive v.

Fixpoint find_view (version : Z) (views : list dict) : option dict :=
  match views with
  | [] => None
  | v :: rest => if py_eq float_eq (default JNull (dict_get (u "version") v)) (JInt version) then Some v else find_view version rest
  end.

Definition get_version_metadata (rt : string) (rid : pystr) (version : Z) (key : pystr) (w : World) : result (option json) :=
  let! info := get_versions rt rid w in
  Ok (match find_view version info.2 with Some v => dict_get key v | None => None end).

Definition get_version_file_url (rt : string) (rid : pystr) (version : Z) (w : World) : result (option json) :=
  get_version_metadata rt rid version (u "file_url") w.

Definition get_version_prompt (rt : string) (rid : pystr) (version : Z) (w : World) : result (option json) :=
  get_version_metadata rt rid version (u "prompt") w.

Definition get_version_created_at (rt : string) (rid : pystr) (version : Z) (w : World) : result (option pystr) :=
  let! v := get_version_metadata rt rid version (u "created_at") w in
  Ok (match v with Some (JStr s) => Some s | _ => None end).

(** ** Adding *)

Definition add_version (rt : string) (rid prompt : pystr) (source_file : option pystr) (meta : dict) : io Z :=
  if negb (supported_type rt) then lift (Raise ValueError)
  else
    do! _ := begin_call in
    do! data := _load_versions in
    do! res := lift (resource_of data rt rid) in
    do! records := lift (records_of res) in
    let previous := previous_version false res in
    do! num := lift (next_version records) in
    do! timestamp := tick stamp in
    let path := snapshot_path rt rid num timestamp in
    do! w := read in
    do! _ := match source_file with
             | Some src => if bool_decide (is_Some (media w !! src)) then copy2 src path else ret tt
             | None => ret tt
             end in
    do! created_at := tick iso in
    do! _ := lift (match dict_get (u "versions") res with Some _ => Ok tt | None => Raise KeyError end) in
    let res := dict_set (u "versions") (JArr (records ++ [JObj (version_record num path prompt created_at meta previous)])) res in
    let res := dict_set (u "current_version") (JInt num) res in
    do! _ := _save_versions (put_resource data rt rid res) in
    ret num.

Definition backup_current (rt : string) (rid current prompt : pystr) (meta : dict) : io (option Z) :=
  do! w := read in
  if negb (bool_decide (is_Some (media w !! current))) then ret None
  else do! v := add_version rt rid prompt (Some current) meta in ret (Some v).

Definition ensure_current_tracked (rt : string) (rid current prompt : pystr) (meta : dict) : io (option Z) :=
  do! w := read in
  if negb (bool_decide (is_Some (media w !! current))) then ret None
  else if negb (supported_type rt) then lift (Raise ValueError)
  else
    do! tracked := lift (has_versions rt rid w) in
    if (tracked : bool) then ret None
    else do! v := add_version rt rid prompt (Some current) meta in ret (Some v).

Fixpoint update_first (version : Z) (meta : dict) (records : list json) : result (option (list json)) :=
  match records with
  | [] => Ok None
  | JObj m :: rest =>
      if py_eq float_eq (default JNull (dict_get (u "version") m)) (JInt version)
      then Ok (Some (JObj (set_members meta m) :: rest))
      else let! r := update_first version meta rest in Ok (match r with Some l => Some (JObj m :: l) | None => None end)
  | _ :: _ => Raise AttributeError
  end.

Definition update_version_metadata (rt : string) (rid : pystr) (version : Z) (meta : dict) : io bool :=
  if negb (supported_type rt) then lift (Raise ValueError)
  else
    do! data := _load_versions in
    do! res := lift (lookup_resource data rt rid) in
    if negb (py_bool float_true res) then ret false
    else
      match res with
      | Some (JObj m) =>
          do! records := lift (iter_records m) in
          do! updated := lift (update_first version meta records) in
          match updated with
          | None => ret false
          | Some l => do! _ := _save_versions (put_resource data rt rid (dict_set (u "versions") (JArr l) m)) in ret true
          end
      | _ => lift (Raise AttributeError)
      end.

(** ** Committing staged files *)

Definition is_tracked (res : dict) : bool := py_bool float_true (dict_get (u "current_version") res).

(** An untracked formal file enters the history first. *)
Definition track_current (clamp : bool) (rt : string) (rid current : pystr) (existed : bool) (res : dict) : io dict :=
  if existed && negb (is_tracked res)
  then do! r := append_version true clamp rt rid current [] [] res in ret r.2
  else ret res.

(** Undoing a commit: formal files, [versions.json], new snapshots. *)
Definition undo_commit (states : list (pystr * bool * option pystr)) (snapshot : option dict) (w : World) : io bool :=
  all_quietly (map (fun '(current, existed, backup) => restore_current current existed backup) (reverse states)
               ++ [write_versions snapshot] ++ map unlink (created w)).

Definition commit_staged_version (rt : string) (rid prompt staged current : pystr) (on_commit : option (result unit)) (meta : dict) : io Z :=
  if negb (supported_type rt) then lift (Raise ValueError)
  else
    do! w := read in
    if negb (bool_decide (is_Some (media w !! staged))) then lift (Raise FileNotFoundError)
    else
      do! _ := begin_call in
      let snapshot := versions w in
      let existed := bool_decide (is_Some (media w !! current)) in
      do! data := _load_versions in
      do! res := lift (resource_of data rt rid) in
      do! backup := protect (if existed then do! c := copy_aside current in ret (Some c) else ret None)
                            (undo_commit [(current, existed, None)] snapshot) in
      protect
        (do! res := track_current false rt rid current existed res in
         do! r := append_version true false rt rid staged prompt meta res in
         do! _ := os_replace staged current in
         do! _ := _save_versions (put_resource data rt rid r.2) in
         do! _ := hook on_commit in
         ret r.1)
        (undo_commit [(current, existed, backup)] snapshot).

Record StagedVersionCommit := mkCommit {
  sc_type : string;
  sc_id : pystr;
  sc_prompt : pystr;
  sc_staged : pystr;
  sc_current : pystr;
  sc_metadata : dict
}.

(** The checks before a batch, in their order. *)
Fixpoint check_batch (m : gmap pystr pystr) (identities : list (string * pystr)) (targets : list pystr) (batch : list StagedVersionCommit) : result unit :=
  match batch with
  | [] => Ok tt
  | c :: rest =>
      if negb (supported_type (sc_type c)) then Raise ValueError
      else if bool_decide ((sc_type c, sc_id c) ∈ identities) then Raise ValueError
      else if negb (bool_decide (is_Some (m !! sc_staged c))) then Raise FileNotFoundError
      else if bool_decide (sc_current c ∈ targets) then Raise ValueError
      else check_batch m ((sc_type c, sc_id c) :: identities) (sc_current c :: targets) rest
  end.

(** The commits of a batch one after the other; a failure undoes all of them.
    [states] are the formal files met so far. *)
Fixpoint commit_each (snapshot : option dict) (on_commit : option (result unit)) (batch : list StagedVersionCommit)
    (states : list (pystr * bool * option pystr)) (data : dict) (acc : list (string * pystr * Z)) : io (list (string * pystr * Z)) :=
  match batch with
  | [] =>
      protect
        (do! _ := _save_versions data in
         do! _ := hook on_commit in
         ret acc)
        (undo_commit states snapshot)
  | c :: rest =>
      do! w := read in
      let existed := bool_decide (is_Some (media w !! sc_current c)) in
      do! r := protect
        (do! res := lift (resource_of data (sc_type c) (sc_id c)) in
         do! backup := (if existed then do! b := copy_aside (sc_current c) in ret (Some b) else ret None) in
         ret (res, backup))
        (undo_commit states snapshot) in
      let states := states ++ [(sc_current c, existed, r.2)] in
      do! r := protect
        (do! res := track_current true (sc_type c) (sc_id c) (sc_current c) existed r.1 in
         do! r := append_version true true (sc_type c) (sc_id c) (sc_staged c) (sc_prompt c) (sc_metadata c) res in
         do! _ := os_replace (sc_staged c) (sc_current c) in
         ret r)
        (undo_commit states snapshot) in
      commit_each snapshot on_commit rest states (put_resource data (sc_type c) (sc_id c) r.2) (acc ++ [(sc_type c, sc_id c, r.1)])
  end.

Definition commit_staged_versions (batch : list StagedVersionCommit) (on_commit : option (result unit)) : io (list (string * pystr * Z)) :=
  match batch with
  | [] => ret []
  | _ =>
      do! w := read in
      do! _ := lift (check_batch (media w) [] [] batch) in
      do! _ := begin_call in
      do! data := _load_versions in
      commit_each (versions w) on_commit batch [] data []
  end.

(** ** Paid results *)

(** How the guard of a selection ends: a flag, or a callback. *)
Inductive selection := Flag (b : bool) | Guard (outcome : result bool).

Definition should_select (select_current : selection) (expected : option Z) (submitted : Z) : result bool :=
  if match expected with Some e => negb (e =? submitted)%Z | None => false end then Ok false
  else match select_current with Flag b => Ok b | Guard outcome => outcome end.

(** The first part: the paid file enters the history. *)
Definition record_paid (rt : string) (rid prompt staged current : pystr) (meta data res : dict) : io (Z * dict) :=
  do! w := read in
  do! res := (if bool_decide (is_Some (media w !! current)) && negb (is_tracked res)
              then do! r := append_version false true rt rid current [] [] res in
                   ret (dict_set (u "current_version") (JInt r.1) r.2)
              else ret res) in
  let res := match dict_get (u "current_version") res with
             | Some (JInt z) => if (z <? 0)%Z then dict_set (u "current_version") (JInt 0) res else res
             | None => res
             | Some _ => dict_set (u "current_version") (JInt 0) res
             end in
  do! r := append_version false true rt rid staged prompt meta res in
  do! _ := _save_versions (put_resource data rt rid r.2) in
  ret r.

Definition undo_history (snapshot : option dict) (staged : pystr) (w : World) : io bool :=
  all_quietly (write_versions snapshot :: map unlink (created w ++ [staged])).

(** The second part: the paid file becomes the formal one. *)
Definition select_paid (rt : string) (rid staged current : pystr) (on_select : option (result unit)) (data res : dict) (version : Z) : io unit :=
  do! w := read in
  let existed := bool_decide (is_Some (media w !! current)) in
  let prior := previous_version true res in
  let undo backup (_ : World) :=
    all_quietly [restore_current current existed backup;
                 _save_versions (put_resource data rt rid (dict_set (u "current_version") (JInt prior) res))] in
  do! backup := protect (if existed then do! c := copy_aside current in ret (Some c) else ret None) (undo None) in
  protect
    (do! _ := os_replace staged current in
     do! _ := _save_versions (put_resource data rt rid (dict_set (u "current_version") (JInt version) res)) in
     hook on_select)
    (undo backup).

(** [finally: _unlink_paths(staged_file)], whose failures are only logged. *)
Definition finally_unlink {A} (staged : pystr) (m : io A) : io A :=
  fun w => let '(r, w') := m w in let '(_, w'') := quietly (unlink staged) w' in (r, w'').

Record PaidVersionCommit := mkPaid { version : Z; selected : bool }.

Definition commit_staged_paid_version (rt : string) (rid prompt staged current : pystr) (select_current : selection)
    (expected_current_version : option Z) (on_select : option (result unit)) (meta : dict) : io PaidVersionCommit :=
  if negb (supported_type rt) then lift (Raise ValueError)
  else if match expected_current_version with Some e => (e <? 0)%Z | None => false end then lift (Raise ValueError)
  else
    do! w := read in
    if negb (bool_decide (is_Some (media w !! staged))) then lift (Raise FileNotFoundError)
    else
      do! _ := begin_call in
      do! data := _load_versions in
      do! res := lift (resource_of data rt rid) in
      let submitted := previous_version true res in
      do! r := protect (record_paid rt rid prompt staged current meta data res) (undo_history (versions w) staged) in
      match should_select select_current expected_current_version submitted with
      | Raise e => finally_unlink staged (lift (Raise e))
      | Ok false => finally_unlink staged (ret (mkPaid r.1 false))
      | Ok true =>
          finally_unlink staged
            (do! _ := select_paid rt rid staged current on_select data r.2 r.1 in ret (mkPaid r.1 true))
      end.

(** ** Going back *)

Fixpoint find_record (version : Z) (records : list json) : option dict :=
  match records with
  | [] => None
  | JObj m :: rest => if py_eq float_eq (default JNull (dict_get (u "version") m)) (JInt version) then Some m else find_record version rest
  | _ :: rest => find_record version rest
  end.

(** The loop of [restore_version], which wants a version of every record. *)
Fixpoint find_version (version : Z) (records : list json) : result (option dict) :=
  match records with
  | [] => Ok None
  | JObj m :: rest =>
      match dict_get (u "version") m with
      | Some v => if py_eq float_eq v (JInt version) then Ok (Some m) else find_version version rest
      | None => Raise KeyError
      end
  | _ :: _ => Raise TypeError
  end.

Definition restore_version (rt : string) (rid : pystr) (version : Z) (current : pystr) (on_restore : option (result unit)) : io (Z * json) :=
  if negb (supported_type rt) then lift (Raise (BadRequestError "unsupported_resource_type"))
  else
    do! data := _load_versions in
    do! found := lift (lookup_resource data rt rid) in
    if negb (py_bool float_true found) then lift (Raise (NotFoundError "version_resource_not_found"))
    else
      match found with
      | Some (JObj res) =>
          do! records := lift (match dict_get (u "versions") res with None => Raise KeyError | Some _ => iter_records res end) in
          do! target := lift (find_version version records) in
          match target with
          | None | Some [] => lift (Raise (NotFoundError "version_not_found"))
          | Some target =>
              do! file := lift (match dict_get (u "file") target with
                                | Some (JStr f) => Ok f | Some _ => Raise TypeError | None => Raise KeyError end) in
              do! w := read in
              if negb (bool_decide (is_Some (media w !! file))) then lift (Raise FileNotFoundError)
              else
                do! _ := begin_call in
                let existed := bool_decide (is_Some (media w !! current)) in
                let undo backup := undo_commit [(current, existed, backup)] (versions w) in
                do! backup := protect (if existed then do! c := copy_aside current in ret (Some c) else ret None) (undo None) in
                do! _ := protect
                  (do! _ := copy2 file current in
                   do! _ := _save_versions (put_resource data rt rid (dict_set (u "current_version") (JInt version) res)) in
                   hook on_restore)
                  (undo backup) in
                ret (version, default (JStr []) (dict_get (u "prompt") target))
          end
      | _ => lift (Raise TypeError)
      end.

(** The greatest version below the rejected one. *)
Definition legacy_previous (records : list json) (rejected_version : Z) : Z :=
  max_of (omap (fun x => match x with
                         | JObj m => match dict_get (u "version") m with
                                     | Some (JInt n) => if (n <? rejected_version)%Z then Some n else None
                                     | _ => None
                                     end
                         | _ => None
                         end) records).

(** The version a rejection goes back to, unless the caller names one. *)
Definition predecessor (records : list json) (rejected : dict) (rejected_version : Z) : Z :=
  match dict_get _PREVIOUS_CURRENT_VERSION rejected with
  | Some (JInt z) => if (0 <=? z)%Z then z else legacy_previous records rejected_version
  | _ => legacy_previous records rejected_version
  end.

Definition reject_current_version (rt : string) (rid : pystr) (rejected_version : Z) (restore_version : option Z) (current : pystr)
    (on_reject : option (result unit)) : io bool :=
  if negb (supported_type rt) then lift (Raise ValueError)
  else
    do! data := _load_versions in
    do! found := lift (lookup_resource data rt rid) in
    match found with
    | Some (JObj res) =>
        if negb (py_eq float_eq (default JNull (dict_get (u "current_version") res)) (JInt rejected_version)) then ret false
        else
          match dict_get (u "versions") res with
          | Some (JArr records) =>
              match find_record rejected_version records with
              | None => ret false
              | Some rejected =>
                  let target := match restore_version with Some v => v | None => predecessor records rejected rejected_version end in
                  if (target <? 0)%Z then lift (Raise ValueError)
                  else
                    let previous := find_record target records in
                    if (0 <? target)%Z && negb (bool_decide (is_Some previous)) then lift (Raise ValueError)
                    else
                      do! w := read in
                      do! _ := begin_call in
                      let existed := bool_decide (is_Some (media w !! current)) in
                      let undo backup := undo_commit [(current, existed, backup)] (versions w) in
                      do! backup := protect (if existed then do! c := copy_aside current in ret (Some c) else ret None) (undo None) in
                      protect
                        (do! res := match previous with
                           | None =>
                               do! _ := unlink current in ret (dict_set (u "current_version") (JInt 0) res)
                           | Some m =>
                               do! file := lift (match dict_get (u "file") m with
                                                 | Some (JStr f) => Ok f | Some _ => Raise TypeError | None => Raise KeyError end) in
                               do! content := copy_aside file in
                               do! _ := put current content in
                               ret (dict_set (u "current_version") (default JNull (dict_get (u "version") m)) res)
                           end in
                         do! _ := _save_versions (put_resource data rt rid res) in
                         do! _ := hook on_reject in
                         ret true)
                        (undo backup)
              end
          | _ => ret false
          end
    | _ => ret false
    end.
End manager.
