(* ===== verification/VersionHistory.v ===== *)
(** * What the version manager guarantees

    Theorems about [VersionManager]: what has entered the history stays in it
    unchanged whatever fails later, a commit that raises leaves the formal
    files and [versions.json] as they were, and a paid result is never lost
    once it is recorded. *)

From S2P Require Import Prelude Json ScriptReview VersionManager.

(** ** Snapshot paths *)

Lemma dumps_int_no_v z : 118%N ∉ dumps_int z.
Proof.
  assert (forall d, 118%N ∉ uint_codes d) as H by (induction d; cbn [uint_codes]; set_solver by lia).
  unfold dumps_int. case_goal; unfold dumps_nat; set_solver.
Qed.

(** The last [v] separates the id from the number. *)
Lemma split_last_v (a b d e : pystr) : 118%N ∉ d -> 118%N ∉ e -> a ++ u "_v" ++ d = b ++ u "_v" ++ e -> a = b /\ d = e.
Proof.
  intros Hd He H. change (u "_v") with [95%N; 118%N] in H.
  assert (forall x y p q : pystr, 118%N ∉ q -> length q <= length p -> x ++ [118%N] ++ p = y ++ [118%N] ++ q -> 118%N ∉ p -> p = q) as Hl.
  { intros x y p q Hq Hle E Hp. destruct (decide (length p = length q)) as [El|Hn].
    - apply (f_equal reverse) in E. rewrite !reverse_app in E. apply app_inj_1 in E as [E _]; [|rewrite !length_app, !length_reverse; cbn; lia].
      apply app_inj_1 in E as [E _]; [|by rewrite !length_reverse]. by apply (inj reverse).
    - exfalso. apply Hp. apply list_elem_of_lookup. exists (length p - S (length q)).
      assert (length x + S (length p) = length y + S (length q)) as Hlen by (apply (f_equal length) in E; rewrite !length_app in E; cbn in E; lia).
      assert ((x ++ [118%N] ++ p) !! (length y) = Some 118%N) as Hv by (rewrite E; by rewrite lookup_app_r, Nat.sub_diag by lia).
      rewrite lookup_app_r in Hv by lia. cbn [app] in Hv. replace (length y - length x) with (S (length p - S (length q))) in Hv by lia. exact Hv. }
  assert (d = e) as ->.
  { destruct (Nat.le_ge_cases (length d) (length e)) as [Hle|Hle].
    - symmetry. eapply (Hl (b ++ [95%N]) (a ++ [95%N])); [done|done| |done]. rewrite <- !app_assoc. done.
    - eapply (Hl (a ++ [95%N]) (b ++ [95%N])); [done|done| |done]. rewrite <- !app_assoc. done. }
  split; [|done]. by apply app_inv_tail in H.
Qed.

Lemma type_no_slash rt : supported_type rt = true -> 47%N ∉ u rt.
Proof.
  intros H%bool_decide_eq_true. assert (Forall (fun rt => 47%N ∉ u rt) RESOURCE_TYPES) as Hall by (apply (bool_decide_unpack _); vm_compute; exact I).
  rewrite Forall_forall in Hall. by apply Hall.
Qed.

Lemma split_slash_first (a b x y : pystr) : 47%N ∉ a -> 47%N ∉ b -> a ++ u "/" ++ x = b ++ u "/" ++ y -> a = b /\ x = y.
Proof.
  change (u "/") with [47%N]. revert b. induction a as [|c a IH]; intros [|k b] Ha Hb H; cbn [app] in H.
  - by injection H as ->.
  - injection H as <- _. set_solver.
  - injection H as -> _. set_solver.
  - injection H as -> H. destruct (IH b) as [-> ->]; [set_solver|set_solver|done|done].
Qed.

(** Snapshots of different versions have different paths. *)
Lemma snapshot_path_inj rt rt' rid rid' n n' t t' :
  supported_type rt = true -> supported_type rt' = true -> length t = length t' ->
  snapshot_path rt rid n t = snapshot_path rt' rid' n' t' -> rt = rt' /\ rid = rid' /\ n = n'.
Proof.
  intros H1 H2 Hl H. unfold snapshot_path in H. apply app_inv_head in H.
  apply split_slash_first in H as [Hrt%u_inj H]; [|by apply type_no_slash..]. subst rt'.
  rewrite !app_assoc in H. apply app_inv_tail in H. apply app_inj_2 in H as [H _]; [|done]. apply app_inv_tail in H.
  rewrite <- !app_assoc in H. apply split_last_v in H as [-> Hn]; [|apply dumps_int_no_v..]. split; [done|]. split; [done|].
  by rewrite <- (int_of_text_dumps n), <- (int_of_text_dumps n'), Hn.
Qed.

(** ** The recorded versions *)

Definition entry_in (res : dict) (num : Z) (file : pystr) : Prop :=
  exists l m, dict_get (u "versions") res = Some (JArr l) /\ JObj m ∈ l
    /\ dict_get (u "version") m = Some (JInt num) /\ dict_get (u "file") m = Some (JStr file).

Definition listed (data : dict) (rt : string) (rid : pystr) (num : Z) (file : pystr) : Prop :=
  exists bucket res, dict_get (u rt) data = Some (JObj bucket) /\ dict_get rid bucket = Some (JObj res) /\ entry_in res num file.

Definition in_history (v : option dict) (rt : string) (rid : pystr) (num : Z) (file : pystr) : Prop :=
  match v with Some data => listed data rt rid num file | None => False end.

(** The snapshot of a version is where the manager puts it. *)
Definition well_placed (rt : string) (rid : pystr) (num : Z) (file : pystr) : Prop := exists t, length t = 15 /\ file = snapshot_path rt rid num t.
Definition managed (data : dict) : Prop :=
  forall rt rid num file, listed data rt rid num file ->
    supported_type rt = true /\ well_placed rt rid num file /\ forall file', listed data rt rid num file' -> file' = file.

Lemma listed_put data rt rid res rt' rid' n f :
  listed (put_resource data rt rid res) rt' rid' n f ->
  (rt' = rt /\ rid' = rid /\ entry_in res n f) \/ listed data rt' rid' n f.
Proof.
  intros (b & r & Hb & Hr & He). unfold put_resource in Hb. destruct (decide (rt = rt')) as [<-|Hne].
  - rewrite dict_get_set_eq in Hb. injection Hb as <-. destruct (decide (rid = rid')) as [<-|Hne'].
    + rewrite dict_get_set_eq in Hr. injection Hr as <-. by left.
    + rewrite dict_get_set_ne in Hr by done. right. destruct (dict_get (u rt) data) as [[]|] eqn:E; try done. by exists members, r.
  - rewrite dict_get_set_ne in Hb by (by intros ?%u_inj). right. by exists b, r.
Qed.

Lemma put_listed data rt rid res rt' rid' n f :
  listed data rt' rid' n f -> (rt' = rt -> rid' = rid -> entry_in res n f) -> listed (put_resource data rt rid res) rt' rid' n f.
Proof.
  intros (b & r & Hb & Hr & He) Hsame. unfold put_resource. destruct (decide (rt = rt')) as [<-|Hne].
  - rewrite Hb. destruct (decide (rid = rid')) as [<-|Hne'].
    + eexists _, res. rewrite !dict_get_set_eq. eauto.
    + eexists _, r. rewrite dict_get_set_eq, dict_get_set_ne by done. eauto.
  - exists b, r. rewrite dict_get_set_ne by (by intros ?%u_inj). eauto.
Qed.

(** Members that say neither which version this is nor where it lies. *)
Definition clean (meta : dict) : Prop := Forall (fun kv : pystr * json => kv.1 <> u "version" /\ kv.1 <> u "file") meta.

Lemma set_members_get meta m k : Forall (fun kv : pystr * json => kv.1 <> k) meta -> dict_get k (set_members meta m) = dict_get k m.
Proof.
  unfold set_members. intros H. revert m. induction H as [|[k' v] meta Hk _ IH]; intros m; [done|]. cbn [foldl fst snd]. rewrite IH.
  by apply dict_get_set_ne.
Qed.

Lemma clean_keys meta : clean meta -> Forall (fun kv : pystr * json => kv.1 <> u "version") meta /\ Forall (fun kv : pystr * json => kv.1 <> u "file") meta.
Proof. intros H. split; (eapply Forall_impl; [exact H|]; cbn; tauto). Qed.

Lemma version_record_get num file prompt at_ meta prev : clean meta ->
  dict_get (u "version") (version_record num file prompt at_ meta prev) = Some (JInt num)
  /\ dict_get (u "file") (version_record num file prompt at_ meta prev) = Some (JStr file).
Proof.
  intros [H1 H2]%clean_keys. unfold version_record. rewrite !dict_get_set_ne by (intros [=]). rewrite !set_members_get by done. done.
Qed.

(** The next number is greater than all recorded ones. *)
Lemma max_of_ge l x : x ∈ l -> (x <= max_of l)%Z.
Proof.
  unfold max_of. destruct l as [|y l]; [by intros ?%not_elem_of_nil|].
  assert (forall z, z ∈ l -> (z <= foldr Z.max y l)%Z /\ (y <= foldr Z.max y l)%Z) as H.
  { induction l as [|c l IH]; intros z Hz; [by apply not_elem_of_nil in Hz|]. cbn [foldr]. apply elem_of_cons in Hz as [->|Hz].
    - destruct l as [|d l]; [cbn; lia|]. pose proof (IH d ltac:(left)). lia.
    - pose proof (IH z Hz). lia. }
  intros [->|Hx]%elem_of_cons; [|by apply H]. destruct l as [|c l]; [cbn; lia|]. apply (H c ltac:(left)).
Qed.

Lemma numbers_of_elem l ns m z : numbers_of l = Ok ns -> JObj m ∈ l -> dict_get (u "version") m = Some (JInt z) -> z ∈ ns.
Proof.
  revert ns. induction l as [|x l IH]; intros ns; [by intros _ ?%not_elem_of_nil|]. cbn [numbers_of].
  intros (n & Hn & H)%bind_Ok. apply bind_Ok in H as (ns' & Hns & H). apply Ok_inj in H as <-. intros [<-|Hin]%elem_of_cons Hz.
  - cbn [version_number] in Hn. rewrite Hz in Hn. apply Ok_inj in Hn as ->. left.
  - right. by eapply IH.
Qed.

Lemma next_version_greater l num m z : next_version l = Ok num -> JObj m ∈ l -> dict_get (u "version") m = Some (JInt z) -> (z < num)%Z.
Proof.
  intros (ns & Hns & H)%bind_Ok Hin Hz. apply Ok_inj in H as <-. pose proof (max_of_ge ns z (numbers_of_elem _ _ _ _ Hns Hin Hz)). lia.
Qed.

(** ** Calls that keep the history *)

Section history.
Context (w0 : World).

Definition fresh (p : pystr) : Prop := forall rt rid n f, in_history (versions w0) rt rid n f -> p <> f.

Record Inv (w : World) : Prop := {
  inv_media : forall rt rid n f, in_history (versions w0) rt rid n f -> media w !! f = media w0 !! f;
  inv_history : forall rt rid n f, in_history (versions w0) rt rid n f -> in_history (versions w) rt rid n f;
  inv_managed : forall data, versions w = Some data -> managed data;
  inv_created : Forall fresh (created w)
}.

Definition good_data (data : dict) : Prop :=
  (forall rt rid n f, in_history (versions w0) rt rid n f -> listed data rt rid n f) /\ managed data.

Definition good_res (rt : string) (rid : pystr) (res : dict) : Prop :=
  (forall n f, in_history (versions w0) rt rid n f -> entry_in res n f) /\ (forall n f, entry_in res n f -> well_placed rt rid n f /\ forall f', entry_in res n f' -> f' = f).

(** Contents of [versions.json] that keep the history. *)
Definition keeps (v : option dict) : Prop :=
  (forall rt rid n f, in_history (versions w0) rt rid n f -> in_history v rt rid n f) /\ (forall data, v = Some data -> managed data).

(** A call that keeps the history and gives a result with [Q]. *)
Definition triple {A} (m : io A) (Q : A -> Prop) : Prop := forall w, Inv w -> Inv (m w).2 /\ forall a, (m w).1 = Ok a -> Q a.

Lemma triple_ret {A} (a : A) (Q : A -> Prop) : Q a -> triple (ret a) Q.
Proof. intros H w Hw. split; [done|]. by intros x [= <-]. Qed.
Lemma triple_lift {A} (r : result A) (Q : A -> Prop) : (forall a, r = Ok a -> Q a) -> triple (lift r) Q.
Proof. intros H w Hw. split; [done|]. exact H. Qed.
Lemma triple_then {A B} (m : io A) (k : A -> io B) P Q : triple m P -> (forall a, P a -> triple (k a) Q) -> triple (then_ m k) Q.
Proof.
  intros Hm Hk w Hw. unfold then_. destruct (Hm w Hw) as [H1 H2]. destruct (m w) as [[a|e] w1]; [|done]. by apply Hk; [apply H2|].
Qed.
Lemma triple_weaken {A} (m : io A) (P Q : A -> Prop) : triple m P -> (forall a, P a -> Q a) -> triple m Q.
Proof. intros H HPQ w Hw. destruct (H w Hw) as [H1 H2]. split; [done|]. eauto. Qed.
Lemma triple_read (Q : World -> Prop) : (forall w, Inv w -> Q w) -> triple read Q.
Proof. intros H w Hw. split; [done|]. intros x [= <-]. by apply H. Qed.

Definition any {A} (_ : A) : Prop := True.

Lemma next_fault_same w : media (next_fault w).2 = media w /\ versions (next_fault w).2 = versions w /\ created (next_fault w).2 = created w.
Proof. unfold next_fault. by destruct (faults w). Qed.

Lemma Inv_same w w' : media w' = media w -> versions w' = versions w -> created w' = created w -> Inv w -> Inv w'.
Proof. intros H1 H2 H3 [I1 I2 I3 I4]. split; rewrite ?H1, ?H2, ?H3; done. Qed.

Lemma triple_fault : triple next_fault any.
Proof. intros w Hw. split; [|done]. destruct (next_fault_same w) as (H1 & H2 & H3). by eapply Inv_same. Qed.

Lemma triple_attempt change : (forall w, Inv w -> Inv (change w)) -> triple (attempt change) any.
Proof.
  intros H. unfold attempt. eapply triple_then; [apply triple_fault|]. intros f _ w Hw. split; [|done]. destruct f; [by apply H|done..].
Qed.

Lemma Inv_media w m : (forall rt rid n f, in_history (versions w0) rt rid n f -> m !! f = media w !! f) -> Inv w -> Inv (with_media m w).
Proof. intros H [I1 I2 I3 I4]. split; cbn; try done. intros rt rid n f Hf. rewrite (H _ _ _ _ Hf). by eapply I1. Qed.

Lemma triple_unlink p : fresh p -> triple (unlink p) any.
Proof. intros Hp. apply triple_attempt. intros w Hw. apply Inv_media; [|done]. intros rt rid n f Hf. by rewrite lookup_delete_ne by exact (Hp _ _ _ _ Hf). Qed.
Lemma triple_put p c : fresh p -> triple (put p c) any.
Proof. intros Hp. apply triple_attempt. intros w Hw. apply Inv_media; [|done]. intros rt rid n f Hf. by rewrite lookup_insert_ne by exact (Hp _ _ _ _ Hf). Qed.
Lemma triple_write v : keeps v -> triple (write_versions v) any.
Proof. intros [H1 H2]. apply triple_attempt. intros w [I1 I2 I3 I4]. by split. Qed.
Lemma triple_replace a b : fresh a -> fresh b -> triple (os_replace a b) any.
Proof.
  intros Ha Hb. unfold os_replace. eapply triple_then; [by apply (triple_read any)|]. intros w _. destruct (media w !! a); [|by apply triple_lift].
  apply triple_attempt. intros w' Hw. apply Inv_media; [|done]. intros rt rid n f Hf.
  by rewrite lookup_insert_ne, lookup_delete_ne by first [exact (Hb _ _ _ _ Hf)|exact (Ha _ _ _ _ Hf)].
Qed.
Lemma triple_copy2 a b : fresh b -> triple (copy2 a b) any.
Proof.
  intros Hb. unfold copy2. eapply triple_then; [by apply (triple_read any)|]. intros w _. destruct (media w !! a); [|by apply triple_lift].
  eapply triple_then; [apply triple_fault|]. intros f _ w' Hw. split; [|done].
  destruct f; cbn; try done; (apply Inv_media; [|done]; intros rt rid n f Hf; by rewrite lookup_insert_ne by exact (Hb _ _ _ _ Hf)).
Qed.
Lemma triple_copy_aside a : triple (copy_aside a) any.
Proof.
  unfold copy_aside. eapply triple_then; [by apply (triple_read any)|]. intros w _. destruct (media w !! a); [|by apply triple_lift].
  eapply triple_then; [apply triple_attempt; by intros|]. intros _ _. by apply triple_ret.
Qed.
Lemma triple_tick clock : triple (tick clock) (fun t => exists n, t = clock n).
Proof. intros w Hw. split; [by apply (Inv_same w)|]. intros a [= <-]. by eexists. Qed.
Lemma triple_note p : fresh p -> triple (note_snapshot p) any.
Proof. intros Hp w [I1 I2 I3 I4]. split; [|done]. split; cbn; try done. apply Forall_app. by split; [|constructor]. Qed.
Lemma triple_begin : triple begin_call any.
Proof. intros w [I1 I2 I3 I4]. split; [|done]. by split. Qed.
Lemma triple_hook o : triple (hook o) any.
Proof. unfold hook. destruct o; [by apply triple_lift|by apply triple_ret]. Qed.

Lemma triple_quietly m : triple m any -> triple (quietly m) any.
Proof. intros H w Hw. split; [|done]. unfold quietly. specialize (H w Hw) as [H _]. by destruct (m w) as [[]]. Qed.

Lemma triple_all_quietly l : Forall (fun m => triple m any) l -> triple (all_quietly l) any.
Proof.
  induction 1 as [|m l Hm _ IH]; cbn [all_quietly]; [by apply triple_ret|]. eapply triple_then; [by apply triple_quietly|]. intros a _.
  eapply triple_then; [exact IH|]. intros b _. by apply triple_ret.
Qed.

Lemma triple_protect {A} (m : io A) undo (Q : A -> Prop) : triple m Q -> (forall w, Inv w -> triple (undo w) any) -> triple (protect m undo) Q.
Proof.
  intros Hm Hu w Hw. unfold protect. destruct (Hm w Hw) as [H1 H2]. destruct (m w) as [[a|e] w1]; [done|]. cbn [snd] in H1.
  specialize (Hu w1 H1 w1 H1) as [Hu _]. destruct (undo w1 w1) as [[[]|] w2]; done.
Qed.

(** *** Resources and data *)

Lemma keeps_data data : good_data data -> keeps (Some data).
Proof. intros [H1 H2]. split; [exact H1|]. by intros d [= <-]. Qed.
Lemma keeps_versions w : Inv w -> keeps (versions w).
Proof. by intros [I1 I2 I3 I4]. Qed.

Lemma entry_set_other k v res n f : k <> u "versions" -> entry_in (dict_set k v res) n f <-> entry_in res n f.
Proof. intros Hk. unfold entry_in. by rewrite dict_get_set_ne. Qed.

Lemma good_res_other rt rid k v res : k <> u "versions" -> good_res rt rid res -> good_res rt rid (dict_set k v res).
Proof.
  intros Hk [H1 H2]. split.
  - intros n f Hf. apply entry_set_other; auto.
  - intros n f Hf%entry_set_other; [|done]. destruct (H2 _ _ Hf) as [Hp Hu]. split; [done|]. intros f' Hf'%entry_set_other; [|done]. auto.
Qed.

Lemma resource_of_listed data rt rid res n f : resource_of data rt rid = Ok res -> listed data rt rid n f <-> entry_in res n f.
Proof.
  unfold resource_of, child. intros (b & Hb & H)%bind_Ok. split.
  - intros (b' & r & Hb' & Hr & He). rewrite Hb' in Hb. apply Ok_inj in Hb as <-. rewrite Hr in H. by apply Ok_inj in H as <-.
  - intros He. destruct (dict_get (u rt) data) as [[]|] eqn:Eb; try discriminate Hb.
    + apply Ok_inj in Hb as ->. destruct (dict_get rid b) as [[]|] eqn:Er; try discriminate H.
      * apply Ok_inj in H as ->. by exists b, res.
      * apply Ok_inj in H as <-. destruct He as (l & m & Hl & Hm & _). cbv in Hl. injection Hl as <-. by apply not_elem_of_nil in Hm.
    + apply Ok_inj in Hb as <-. apply Ok_inj in H as <-. destruct He as (l & m & Hl & Hm & _). cbv in Hl. injection Hl as <-.
      by apply not_elem_of_nil in Hm.
Qed.

Lemma good_resource data rt rid res : good_data data -> resource_of data rt rid = Ok res -> good_res rt rid res.
Proof.
  intros [H1 H2] Hr. split.
  - intros n f Hf. eapply resource_of_listed; eauto.
  - intros n f Hf. eapply resource_of_listed in Hf; [|exact Hr]. destruct (H2 _ _ _ _ Hf) as (_ & Hp & Hu). split; [done|].
    intros f' Hf'. apply Hu. by eapply resource_of_listed.
Qed.

Lemma good_data_put data rt rid res : supported_type rt = true -> good_data data -> good_res rt rid res -> good_data (put_resource data rt rid res).
Proof.
  intros Hs [H1 H2] [R1 R2]. split.
  - intros rt' rid' n f Hf. apply put_listed; [auto|]. intros -> ->. auto.
  - assert (forall rt' rid' n f, listed (put_resource data rt rid res) rt' rid' n f ->
      (rt' = rt /\ rid' = rid /\ entry_in res n f) \/ (~ (rt' = rt /\ rid' = rid) /\ listed data rt' rid' n f)) as Hput.
    { intros rt' rid' n f (b & r & Hb & Hr & He). destruct (decide (rt' = rt /\ rid' = rid)) as [[-> ->]|Hne].
      - left. unfold put_resource in Hb. rewrite dict_get_set_eq in Hb. injection Hb as <-. rewrite dict_get_set_eq in Hr. by injection Hr as <-.
      - right. split; [done|]. destruct (listed_put data rt rid res rt' rid' n f) as [(-> & -> & _)|]; [by exists b, r|tauto|done]. }
    intros rt' rid' n f [(-> & -> & He)|(Hne & Hl)]%Hput.
    + destruct (R2 _ _ He) as [Hp Hu]. split; [done|]. split; [done|]. intros f' [(_ & _ & He')|(Hne & _)]%Hput; [auto|tauto].
    + destruct (H2 _ _ _ _ Hl) as (Hs' & Hp & Hu). split; [done|]. split; [done|]. intros f' [(-> & -> & _)|(_ & Hl')]%Hput; [tauto|auto].
Qed.

Lemma empty_buckets k (l : list string) v : dict_get k (map (fun rt => (u rt, JObj [])) l) = Some v -> v = JObj [].
Proof. induction l as [|x l IH]; cbn [map dict_get]; [done|]. case_goal; [by intros [= <-]|exact IH]. Qed.

Lemma triple_load : triple _load_versions good_data.
Proof.
  intros w Hw. split; [done|]. intros a H. unfold _load_versions in H. cbn [fst] in H. apply Ok_inj in H as <-. destruct (keeps_versions w Hw) as [K1 K2].
  destruct (versions w) as [d|] eqn:E; cbn [default]; [by split; [|apply K2]|]. split; [intros ???? Hf; by apply K1 in Hf|].
  intros rt rid n f (b & r & Hb & Hr & _). exfalso.
  apply empty_buckets in Hb. injection Hb as ->. discriminate Hr.
Qed.

(** *** Snapshots *)

Section snapshots.
Context (stamp iso : nat -> pystr) (stamp_length : forall n, length (stamp n) = 15) (start : Inv w0).

Lemma history_placed rt rid n f : in_history (versions w0) rt rid n f -> supported_type rt = true /\ well_placed rt rid n f.
Proof.
  intros H. destruct start as [_ _ Hm _]. destruct (versions w0) as [d|]; [|done]. destruct (Hm d eq_refl _ _ _ _ H) as (? & ? & _). done.
Qed.

(** Paths that are not under [versions/]. *)
Lemma outside_fresh p : ~ u "versions/" `prefix_of` p -> fresh p.
Proof.
  intros Hp rt rid n f Hf ->. apply history_placed in Hf as (_ & t & _ & ->). apply Hp. unfold snapshot_path. by eexists.
Qed.

Lemma records_entry res l n f : records_of res = Ok l ->
  entry_in res n f <-> exists m, JObj m ∈ l /\ dict_get (u "version") m = Some (JInt n) /\ dict_get (u "file") m = Some (JStr f).
Proof.
  unfold records_of, entry_in. intros H. split.
  - intros (l' & m & Hl & Hm & He). rewrite Hl in H. apply Ok_inj in H as <-. by exists m.
  - intros (m & Hm & He). destruct (dict_get (u "versions") res) as [[]|] eqn:E; try discriminate H; apply Ok_inj in H as <-.
    + by eexists _, m.
    + by apply not_elem_of_nil in Hm.
Qed.

Lemma snapshot_fresh rt rid res l num t :
  supported_type rt = true -> good_res rt rid res -> records_of res = Ok l -> next_version l = Ok num -> length t = 15 ->
  fresh (snapshot_path rt rid num t).
Proof.
  intros Hs [R1 _] Hl Hn Ht rt' rid' n f Hf E. pose proof (history_placed _ _ _ _ Hf) as (Hs' & t' & Ht' & ->).
  apply snapshot_path_inj in E as (<- & <- & <-); [|done..|by rewrite Ht, Ht'].
  apply R1, (records_entry _ _ _ _ Hl) in Hf as (m & Hm & Hv & _). pose proof (next_version_greater _ _ _ _ Hn Hm Hv). lia.
Qed.

Lemma good_res_append rt rid res l num t prompt at_ meta prev :
  clean meta -> good_res rt rid res -> records_of res = Ok l -> next_version l = Ok num -> length t = 15 ->
  good_res rt rid (dict_set (u "versions") (JArr (l ++ [JObj (version_record num (snapshot_path rt rid num t) prompt at_ meta prev)])) res).
Proof.
  intros Hc [R1 R2] Hl Hn Ht. set (new := version_record _ _ _ _ _ _).
  destruct (version_record_get num (snapshot_path rt rid num t) prompt at_ meta prev Hc) as [Hv Hf]. fold new in Hv, Hf.
  assert (records_of (dict_set (u "versions") (JArr (l ++ [JObj new])) res) = Ok (l ++ [JObj new])) as Hl' by (unfold records_of; by rewrite dict_get_set_eq).
  assert (forall n f, entry_in (dict_set (u "versions") (JArr (l ++ [JObj new])) res) n f <->
    (entry_in res n f /\ (n < num)%Z) \/ (n = num /\ f = snapshot_path rt rid num t)) as He.
  { intros n f. rewrite (records_entry _ _ _ _ Hl'), (records_entry _ _ _ _ Hl). split.
    - intros (m & [Hm|Hm]%elem_of_app & Hmv & Hmf).
      + left. split; [by exists m|]. by eapply next_version_greater.
      + apply list_elem_of_singleton in Hm. injection Hm as ->. right. rewrite Hmv in Hv. rewrite Hmf in Hf.
        split; [by injection Hv|]. by injection Hf.
    - intros [((m & Hm & He) & _)|[-> ->]].
      + exists m. split; [|done]. apply elem_of_app. by left.
      + exists new. split; [|done]. apply elem_of_app. right. by apply list_elem_of_singleton. }
  split.
  - intros n f Hh. apply He. left. split; [auto|]. apply R1, (records_entry _ _ _ _ Hl) in Hh as (m & Hm & Hmv & _).
    by eapply next_version_greater.
  - intros n f [[Ho Hlt]|[-> ->]]%He.
    + destruct (R2 _ _ Ho) as [Hp Hu]. split; [done|]. intros f' [[Ho' _]|[-> _]]%He; [auto|lia].
    + split; [by exists t|]. intros f' [[_ Hlt]|[_ ->]]%He; [lia|done].
Qed.

Lemma triple_append sel clamp rt rid source prompt meta res :
  supported_type rt = true -> clean meta -> good_res rt rid res ->
  triple (append_version stamp iso sel clamp rt rid source prompt meta res) (fun r => good_res rt rid r.2).
Proof.
  intros Hs Hc Hres. unfold append_version.
  eapply triple_then; [by apply (triple_lift _ (fun l => records_of res = Ok l))|]. intros l Hl.
  eapply triple_then; [by apply (triple_lift _ (fun n => next_version l = Ok n))|]. intros num Hn.
  eapply triple_then; [apply triple_tick|]. intros t [k ->].
  assert (fresh (snapshot_path rt rid num (stamp k))) as Hp by by apply (snapshot_fresh rt rid res l).
  eapply triple_then; [by apply triple_copy2|]. intros _ _. eapply triple_then; [by apply triple_note|]. intros _ _.
  eapply triple_then; [apply triple_tick|]. intros at_ _. apply triple_ret. cbn [snd].
  pose proof (good_res_append rt rid res l num (stamp k) prompt at_ meta (previous_version clamp res) Hc Hres Hl Hn (stamp_length k)) as Hg.
  destruct sel; [|exact Hg]. by apply good_res_other.
Qed.

(** *** The operations *)

Hint Resolve keeps_data keeps_versions good_data_put good_resource : core.

(** Runs through a call: the primitives keep the history; what [lift] gives
    is remembered as an equation. *)
Ltac triple_prim :=
  lazymatch goal with
  | |- triple (lift ?r) _ => apply (triple_lift r (fun a => r = Ok a)); by intros
  | |- triple read _ => apply (triple_read Inv); by intros
  | |- triple _load_versions _ => apply triple_load
  | |- triple begin_call _ => apply triple_begin
  | |- triple (tick _) _ => apply triple_tick
  | |- triple (hook _) _ => apply triple_hook
  | |- triple (copy_aside _) _ => apply triple_copy_aside
  | |- triple (copy2 _ _) _ => apply triple_copy2
  | |- triple (os_replace _ _) _ => apply triple_replace
  | |- triple (put _ _) _ => apply triple_put
  | |- triple (unlink _) _ => apply triple_unlink
  | |- triple (append_version _ _ _ _ _ _ _ _ _ _) _ => apply triple_append
  | |- triple (_save_versions _) _ => apply triple_write, keeps_data
  end; auto.
Ltac triple_bind := eapply triple_then; [triple_prim|].

Lemma triple_backup current existed : triple (if existed : bool then do! c := copy_aside current in ret (Some c) else ret None) any.
Proof. destruct existed; [triple_bind; intros; by apply triple_ret|by apply triple_ret]. Qed.

Lemma triple_restore_current current existed backup : fresh current -> triple (restore_current current existed backup) any.
Proof.
  intros H. unfold restore_current. destruct backup; [by apply triple_put|]. destruct existed; [by apply triple_ret|by apply triple_unlink].
Qed.

Lemma triple_undo states v w :
  Forall (fun s : pystr * bool * option pystr => fresh s.1.1) states -> keeps v -> Inv w -> triple (undo_commit states v w) any.
Proof.
  intros Hs Hv [_ _ _ Hc]. apply triple_all_quietly. rewrite !Forall_app, !Forall_map. split; [|split].
  - rewrite Forall_reverse. eapply Forall_impl; [exact Hs|]. intros [[c e] b] H. by apply triple_restore_current.
  - constructor; [by apply triple_write|constructor].
  - eapply Forall_impl; [exact Hc|]. intros p H. by apply triple_unlink.
Qed.

Lemma triple_track_current float_true clamp rt rid current existed res :
  supported_type rt = true -> good_res rt rid res -> triple (track_current float_true stamp iso clamp rt rid current existed res) (good_res rt rid).
Proof.
  intros Hs Hr. unfold track_current. case_goal; [|by apply triple_ret]. eapply triple_then; [apply triple_append; [done|by constructor|exact Hr]|].
  intros r Hg. by apply triple_ret.
Qed.

Lemma triple_add rt rid prompt source meta : clean meta -> triple (add_version stamp iso rt rid prompt source meta) any.
Proof.
  intros Hc. unfold add_version. case_goal; [by apply triple_lift|]. to_prop.
  triple_bind. intros _ _. triple_bind. intros data Hd. triple_bind. intros res Hr. triple_bind. intros l Hl. triple_bind. intros num Hn.
  triple_bind. intros t [k ->]. triple_bind. intros w _.
  assert (good_res rt rid res) as Hg by eauto.
  eapply (triple_then _ _ any); [destruct source as [src|]; [|by apply triple_ret]; case_goal; [|by apply triple_ret];
    by apply triple_copy2, (snapshot_fresh rt rid res l)|]. intros _ _.
  triple_bind. intros at_ _. triple_bind. intros _ _. eapply triple_then; [|intros; by apply triple_ret].
  apply triple_write, keeps_data, good_data_put; [done..|]. apply good_res_other; [done|]. by apply good_res_append.
Qed.

Lemma triple_backup_current rt rid current prompt meta : clean meta -> triple (backup_current stamp iso rt rid current prompt meta) any.
Proof.
  intros Hc. unfold backup_current. triple_bind. intros w _. case_goal; [by apply triple_ret|].
  eapply triple_then; [by apply triple_add|]. intros; by apply triple_ret.
Qed.

Lemma triple_ensure float_true float_pos float_eq py_repr name rt rid current prompt meta :
  clean meta -> triple (ensure_current_tracked float_true float_pos float_eq py_repr stamp iso name rt rid current prompt meta) any.
Proof.
  intros Hc. unfold ensure_current_tracked. triple_bind. intros w _. case_goal; [by apply triple_ret|]. case_goal; [by apply triple_lift|].
  triple_bind. intros tracked _. destruct tracked; [by apply triple_ret|].
  eapply triple_then; [by apply triple_add|]. intros; by apply triple_ret.
Qed.

(** Metadata of a record may change, its version and its file may not. *)
Lemma update_first_entry float_eq version meta l l' m :
  clean meta -> update_first float_eq version meta l = Ok (Some l') ->
  JObj m ∈ l -> exists m', JObj m' ∈ l' /\ dict_get (u "version") m' = dict_get (u "version") m /\ dict_get (u "file") m' = dict_get (u "file") m.
Proof.
  intros [H1 H2]%clean_keys. revert l'. induction l as [|x l IH]; intros l' H Hm; [discriminate H|]. destruct x; cbn [update_first] in H; try discriminate H.
  case_hyp.
  - apply Ok_inj in H. injection H as <-. apply elem_of_cons in Hm as [Hm|Hm].
    + injection Hm as ->. exists (set_members meta members). rewrite !set_members_get by done. split; [left|done].
    + exists m. split; [by right|done].
  - apply bind_Ok in H as (r & Hr & H). destruct r as [r|]; apply Ok_inj in H; [|discriminate H]. injection H as <-. apply elem_of_cons in Hm as [Hm|Hm].
    + injection Hm as ->. exists members. split; [left|done].
    + destruct (IH r Hr Hm) as (m' & Hm' & He). exists m'. split; [by right|done].
Qed.

Lemma update_first_entry_back float_eq version meta l l' m :
  clean meta -> update_first float_eq version meta l = Ok (Some l') ->
  JObj m ∈ l' -> exists m', JObj m' ∈ l /\ dict_get (u "version") m' = dict_get (u "version") m /\ dict_get (u "file") m' = dict_get (u "file") m.
Proof.
  intros [H1 H2]%clean_keys. revert l'. induction l as [|x l IH]; intros l' H Hm; [discriminate H|]. destruct x; cbn [update_first] in H; try discriminate H.
  case_hyp.
  - apply Ok_inj in H. injection H as <-. apply elem_of_cons in Hm as [Hm|Hm].
    + injection Hm as ->. exists members. rewrite !set_members_get by done. split; [left|done].
    + exists m. split; [by right|done].
  - apply bind_Ok in H as (r & Hr & H). destruct r as [r|]; apply Ok_inj in H; [|discriminate H]. injection H as <-. apply elem_of_cons in Hm as [Hm|Hm].
    + injection Hm as ->. exists members. split; [left|done].
    + destruct (IH r Hr Hm) as (m' & Hm' & He). exists m'. split; [by right|done].
Qed.

Lemma good_res_update float_eq version meta rt rid res l l' :
  clean meta -> good_res rt rid res -> dict_get (u "versions") res = Some (JArr l) -> update_first float_eq version meta l = Ok (Some l') ->
  good_res rt rid (dict_set (u "versions") (JArr l') res).
Proof.
  intros Hc [R1 R2] Hl Hu.
  assert (forall n f, entry_in (dict_set (u "versions") (JArr l') res) n f <-> entry_in res n f) as He.
  { intros n f. unfold entry_in. rewrite dict_get_set_eq, Hl. split; intros (k & m & [= <-] & Hm & Hv & Hf).
    - destruct (update_first_entry_back _ _ _ _ _ _ Hc Hu Hm) as (m' & ? & E1 & E2). rewrite <- E1 in Hv. rewrite <- E2 in Hf. by exists l, m'.
    - destruct (update_first_entry _ _ _ _ _ _ Hc Hu Hm) as (m' & ? & E1 & E2). rewrite <- E1 in Hv. rewrite <- E2 in Hf. by exists l', m'. }
  split; [intros n f Hf; apply He; auto|]. intros n f Hf%He. destruct (R2 _ _ Hf) as [Hp Hun]. split; [done|]. intros f' Hf'%He. auto.
Qed.

Lemma lookup_resource_of data rt rid res : lookup_resource data rt rid = Ok (Some (JObj res)) -> resource_of data rt rid = Ok res.
Proof. unfold lookup_resource, resource_of. intros (b & -> & H)%bind_Ok. apply Ok_inj in H. cbn. unfold child. by rewrite H. Qed.

Lemma triple_update float_true float_eq rt rid version meta :
  clean meta -> triple (update_version_metadata float_true float_eq rt rid version meta) any.
Proof.
  intros Hc. unfold update_version_metadata. case_goal; [by apply triple_lift|]. to_prop. triple_bind. intros data Hd. triple_bind. intros res Hr.
  case_goal; [by apply triple_ret|]. destruct res as [[]|]; try by apply triple_lift. apply lookup_resource_of in Hr.
  triple_bind. intros l Hl. triple_bind. intros [l'|] Hu; [|by apply triple_ret]. eapply triple_then; [|intros; by apply triple_ret].
  apply triple_write, keeps_data, good_data_put; [done..|].
  assert (good_res rt rid members) as Hg by eauto. destruct (dict_get (u "versions") members) as [[]|] eqn:E;
    unfold iter_records, records_of in Hl; rewrite E in Hl; try discriminate Hl.
  - destruct s; [apply Ok_inj in Hl as <-; discriminate Hu|discriminate Hl].
  - apply Ok_inj in Hl as <-. by eapply good_res_update.
  - destruct members0; [apply Ok_inj in Hl as <-; discriminate Hu|discriminate Hl].
  - apply Ok_inj in Hl as <-. discriminate Hu.
Qed.

(** Committing staged files. *)
Lemma triple_commit float_true rt rid prompt staged current on_commit meta :
  fresh staged -> fresh current -> clean meta -> triple (commit_staged_version float_true stamp iso rt rid prompt staged current on_commit meta) any.
Proof.
  intros Hst Hcu Hc. unfold commit_staged_version. case_goal; [by apply triple_lift|]. to_prop. triple_bind. intros w Hw. case_goal; [by apply triple_lift|].
  triple_bind. intros _ _. triple_bind. intros data Hd. triple_bind. intros res Hr.
  assert (forall existed backup w', Inv w' -> triple (undo_commit [(current, existed, backup)] (versions w) w') any) as Hundo
    by (intros; apply triple_undo; auto).
  eapply triple_then; [apply triple_protect; [apply triple_backup|auto]|]. intros backup _. apply triple_protect; [|auto].
  eapply triple_then; [apply triple_track_current; eauto|]. intros res' Hres'. eapply triple_then; [by apply triple_append|]. intros r Hres''.
  triple_bind. intros _ _. triple_bind. intros _ _. triple_bind. intros _ _. by apply triple_ret.
Qed.

Lemma triple_commit_each float_true snapshot on_commit batch states data acc :
  Forall (fun c => supported_type (sc_type c) = true /\ fresh (sc_staged c) /\ fresh (sc_current c) /\ clean (sc_metadata c)) batch ->
  Forall (fun s : pystr * bool * option pystr => fresh s.1.1) states -> keeps snapshot -> good_data data ->
  triple (commit_each float_true stamp iso snapshot on_commit batch states data acc) any.
Proof.
  intros Hb. revert states data acc. induction Hb as [|c batch (Hs & Hst & Hcu & Hc) _ IH]; intros states data acc Hstates Hk Hd; cbn [commit_each].
  - apply triple_protect; [|intros; by apply triple_undo]. triple_bind. intros _ _. triple_bind. intros _ _. by apply triple_ret.
  - triple_bind. intros w _. set (existed := bool_decide _).
    eapply (triple_then _ _ (fun r => good_res (sc_type c) (sc_id c) r.1)).
    { apply triple_protect; [|intros; by apply triple_undo]. triple_bind. intros res Hr. eapply triple_then; [apply triple_backup|].
      intros b _. apply triple_ret. cbn. eauto. }
    intros r Hr. assert (Forall (fun s : pystr * bool * option pystr => fresh s.1.1) (states ++ [(sc_current c, existed, r.2)])) as Hstates'
      by (apply Forall_app; split; [done|by constructor]).
    eapply (triple_then _ _ (fun r => good_res (sc_type c) (sc_id c) r.2)); [|intros r' Hr'; apply IH; auto].
    apply triple_protect; [|intros; by apply triple_undo]. eapply triple_then; [by apply triple_track_current|]. intros res' Hres'.
    eapply triple_then; [by apply triple_append|]. intros r' Hr'. triple_bind. intros _ _. by apply triple_ret.
Qed.

Lemma check_batch_supported m ids targets batch : check_batch m ids targets batch = Ok tt -> Forall (fun c => supported_type (sc_type c) = true) batch.
Proof.
  revert ids targets. induction batch as [|c batch IH]; intros ids targets H; [constructor|]. cbn [check_batch] in H.
  repeat case_hyp; try discriminate H. to_prop. constructor; eauto.
Qed.

Lemma triple_commit_batch float_true batch on_commit :
  Forall (fun c => fresh (sc_staged c) /\ fresh (sc_current c) /\ clean (sc_metadata c)) batch ->
  triple (commit_staged_versions float_true stamp iso batch on_commit) any.
Proof.
  intros Hb. unfold commit_staged_versions. destruct batch as [|c batch]; [by apply triple_ret|]. triple_bind. intros w Hw. triple_bind.
  intros [] Hcheck%check_batch_supported. triple_bind. intros _ _. triple_bind. intros data Hd. apply triple_commit_each; auto.
  rewrite Forall_forall in Hb, Hcheck |- *. auto.
Qed.

Lemma triple_finally {A} staged (m : io A) Q : fresh staged -> triple m Q -> triple (finally_unlink staged m) Q.
Proof.
  intros Hst Hm w Hw. unfold finally_unlink. destruct (Hm w Hw) as [H1 H2]. destruct (m w) as [r w1]. cbn [fst snd] in H1, H2.
  destruct (triple_quietly _ (triple_unlink staged Hst) w1 H1) as [H3 _]. by destruct (quietly (unlink staged) w1).
Qed.

Lemma triple_record_paid float_true rt rid prompt staged current meta data res :
  supported_type rt = true -> clean meta -> good_data data -> good_res rt rid res ->
  triple (record_paid float_true stamp iso rt rid prompt staged current meta data res) (fun r => good_res rt rid r.2).
Proof.
  intros Hs Hc Hd Hres. unfold record_paid. triple_bind. intros w _. eapply (triple_then _ _ (good_res rt rid)).
  { case_goal; [|by apply triple_ret]. eapply triple_then; [apply triple_append; [done|by constructor|done]|]. intros r Hr. apply triple_ret.
    by apply good_res_other. }
  intros res' Hres'. eapply (triple_then _ _ (fun r => good_res rt rid r.2)).
  { apply triple_append; [done..|]. repeat case_goal; try done; by apply good_res_other. }
  intros r Hr. triple_bind. intros _ _. by apply triple_ret.
Qed.

Lemma triple_select_paid rt rid staged current on_select data res num :
  supported_type rt = true -> fresh staged -> fresh current -> good_data data -> good_res rt rid res ->
  triple (select_paid rt rid staged current on_select data res num) any.
Proof.
  intros Hs Hst Hcu Hd Hres. unfold select_paid. triple_bind. intros w _.
  assert (forall z, triple (_save_versions (put_resource data rt rid (dict_set (u "current_version") (JInt z) res))) any) as Hsave
    by (intros; apply triple_write, keeps_data, good_data_put; [done..|by apply good_res_other]).
  assert (forall existed backup, triple (all_quietly [restore_current current existed backup;
    _save_versions (put_resource data rt rid (dict_set (u "current_version") (JInt (previous_version true res)) res))]) any) as Hundo
    by (intros; apply triple_all_quietly; constructor; [by apply triple_restore_current|constructor; [auto|constructor]]).
  eapply triple_then; [apply triple_protect; [apply triple_backup|auto]|]. intros backup _. apply triple_protect; [|auto].
  triple_bind. intros _ _. eapply triple_then; [apply Hsave|]. intros _ _. apply triple_hook.
Qed.

Lemma triple_paid float_true rt rid prompt staged current sel expected on_select meta :
  fresh staged -> fresh current -> clean meta ->
  triple (commit_staged_paid_version float_true stamp iso rt rid prompt staged current sel expected on_select meta) any.
Proof.
  intros Hst Hcu Hc. unfold commit_staged_paid_version. case_goal; [by apply triple_lift|]. to_prop. case_goal; [by apply triple_lift|]. triple_bind.
  intros w Hw. case_goal; [by apply triple_lift|]. triple_bind. intros _ _. triple_bind. intros data Hd. triple_bind. intros res Hr.
  eapply (triple_then _ _ (fun r => good_res rt rid r.2)).
  - apply triple_protect; [apply triple_record_paid; eauto|]. intros w' [_ _ _ Hcr]. apply triple_all_quietly. constructor; [apply triple_write; auto|].
    apply Forall_map, Forall_app. split; [eapply Forall_impl; [exact Hcr|]; intros p H; by apply triple_unlink|].
    constructor; [by apply triple_unlink|constructor].
  - intros r Hg. destruct (should_select _ _ _) as [[]|]; (apply triple_finally; [done|]); [|by apply triple_ret|by apply triple_lift].
    eapply triple_then; [apply triple_select_paid; eauto|]. intros; by apply triple_ret.
Qed.

(** Going back. *)
Lemma triple_undo_current current existed w backup w' :
  fresh current -> Inv w -> Inv w' -> triple (undo_commit [(current, existed, backup)] (versions w) w') any.
Proof. intros. apply triple_undo; auto. Qed.

Lemma triple_select rt rid data res v :
  supported_type rt = true -> good_data data -> resource_of data rt rid = Ok res ->
  triple (_save_versions (put_resource data rt rid (dict_set (u "current_version") v res))) any.
Proof. intros Hs Hd Hr. apply triple_write, keeps_data, good_data_put; [done..|]. apply good_res_other; [done|]. eauto. Qed.

Lemma triple_restore float_true float_eq rt rid num current on_restore :
  fresh current -> triple (restore_version float_true float_eq rt rid num current on_restore) any.
Proof.
  intros Hcu. unfold restore_version. case_goal; [by apply triple_lift|]. to_prop. triple_bind. intros data Hd. triple_bind. intros found Hr.
  case_goal; [by apply triple_lift|]. destruct found as [[]|]; try by apply triple_lift. apply lookup_resource_of in Hr.
  triple_bind. intros l _. triple_bind. intros [[|kv target]|] _; try by apply triple_lift. triple_bind. intros file _. triple_bind. intros w Hw.
  case_goal; [by apply triple_lift|]. triple_bind. intros _ _.
  eapply triple_then; [apply triple_protect; [apply triple_backup|intros; by apply triple_undo_current]|]. intros backup _.
  eapply triple_then; [apply triple_protect; [|intros; by apply triple_undo_current]|intros; by apply triple_ret].
  triple_bind. intros _ _. eapply triple_then; [by apply triple_select|]. intros _ _. apply triple_hook.
Qed.

Lemma triple_reject float_eq rt rid num target current on_reject :
  fresh current -> triple (reject_current_version float_eq rt rid num target current on_reject) any.
Proof.
  intros Hcu. unfold reject_current_version. case_goal; [by apply triple_lift|]. to_prop. triple_bind. intros data Hd. triple_bind. intros found Hr.
  destruct found as [[]|]; try by apply triple_ret. apply lookup_resource_of in Hr. case_goal; [by apply triple_ret|].
  destruct (dict_get (u "versions") members) as [[]|]; try by apply triple_ret. destruct (find_record _ _ _) as [rejected|]; [|by apply triple_ret].
  set (goes_to := match target with Some v => v | None => _ end). case_goal; [by apply triple_lift|]. case_goal; [by apply triple_lift|].
  triple_bind. intros w Hw. triple_bind. intros _ _.
  eapply triple_then; [apply triple_protect; [apply triple_backup|intros; by apply triple_undo_current]|]. intros backup _.
  apply triple_protect; [|intros; by apply triple_undo_current].
  eapply (triple_then _ _ (fun res => exists v, res = dict_set (u "current_version") v members)).
  { case_goal.
    - triple_bind. intros file _. triple_bind. intros content _. triple_bind. intros _ _. apply triple_ret. by eexists.
    - triple_bind. intros _ _. apply triple_ret. by eexists. }
  intros res [v ->]. eapply triple_then; [by apply triple_select|]. intros _ _. triple_bind. intros _ _. by apply triple_ret.
Qed.
End snapshots.
End history.

(** ** Any sequence of calls *)

(** What happens to a project: calls of the manager, and files written or
    deleted by other parts. *)
Inductive event :=
  | AddVersion (rt : string) (rid prompt : pystr) (source : option pystr) (meta : dict)
  | BackupCurrent (rt : string) (rid current prompt : pystr) (meta : dict)
  | EnsureTracked (rt : string) (rid current prompt : pystr) (meta : dict)
  | UpdateMetadata (rt : string) (rid : pystr) (num : Z) (meta : dict)
  | CommitStaged (c : StagedVersionCommit) (on_commit : option (result unit))
  | CommitBatch (batch : list StagedVersionCommit) (on_commit : option (result unit))
  | CommitPaid (c : StagedVersionCommit) (sel : selection) (expected : option Z) (on_select : option (result unit))
  | RestoreVersion (rt : string) (rid : pystr) (num : Z) (current : pystr) (on_restore : option (result unit))
  | RejectCurrent (rt : string) (rid : pystr) (num : Z) (target : option Z) (current : pystr) (on_reject : option (result unit))
  | Elsewhere (path : pystr) (content : option pystr).

Definition outside (p : pystr) : Prop := ~ u "versions/" `prefix_of` p.
Definition good_commit (c : StagedVersionCommit) : Prop := outside (sc_staged c) /\ outside (sc_current c) /\ clean (sc_metadata c).

Definition good_event (e : event) : Prop :=
  match e with
  | AddVersion _ _ _ _ meta | BackupCurrent _ _ _ _ meta | EnsureTracked _ _ _ _ meta | UpdateMetadata _ _ _ meta => clean meta
  | CommitStaged c _ | CommitPaid c _ _ _ => good_commit c
  | CommitBatch batch _ => Forall good_commit batch
  | RestoreVersion _ _ _ current _ | RejectCurrent _ _ _ _ current _ => outside current
  | Elsewhere path _ => outside path
  end.

Section sequences.
Context (float_true : pystr -> bool) (float_pos : pystr -> bool) (float_eq : json -> json -> bool).
Context (py_repr : json -> pystr) (stamp iso : nat -> pystr) (project_name : pystr).

Definition forget {A} (m : io A) : io unit := do! _ := m in ret tt.

Definition run_event (e : event) : io unit :=
  match e with
  | AddVersion rt rid prompt source meta => forget (add_version stamp iso rt rid prompt source meta)
  | BackupCurrent rt rid current prompt meta => forget (backup_current stamp iso rt rid current prompt meta)
  | EnsureTracked rt rid current prompt meta =>
      forget (ensure_current_tracked float_true float_pos float_eq py_repr stamp iso project_name rt rid current prompt meta)
  | UpdateMetadata rt rid num meta => forget (update_version_metadata float_true float_eq rt rid num meta)
  | CommitStaged c h =>
      forget (commit_staged_version float_true stamp iso (sc_type c) (sc_id c) (sc_prompt c) (sc_staged c) (sc_current c) h (sc_metadata c))
  | CommitBatch batch h => forget (commit_staged_versions float_true stamp iso batch h)
  | CommitPaid c sel expected h =>
      forget (commit_staged_paid_version float_true stamp iso (sc_type c) (sc_id c) (sc_prompt c) (sc_staged c) (sc_current c) sel expected h (sc_metadata c))
  | RestoreVersion rt rid num current h => forget (restore_version float_true float_eq rt rid num current h)
  | RejectCurrent rt rid num target current h => forget (reject_current_version float_eq rt rid num target current h)
  | Elsewhere path content => fun w => (Ok tt, with_media (partial_alter (fun _ => content) path (media w)) w)
  end.

(** The state after an event, whether it returned or raised; the snapshots
    created by the last call are forgotten. *)
Definition happens (e : event) (w : World) : World := (run_event e (with_created [] w)).2.

Definition managed_world (w : World) : Prop := match versions w with Some data => managed data | None => True end.

(** [w'] comes after [w] and has kept its history. *)
Definition keeps_history (w w' : World) : Prop :=
  managed_world w' /\ forall rt rid n f, in_history (versions w) rt rid n f -> in_history (versions w') rt rid n f /\ media w' !! f = media w !! f.

Lemma Inv_start w : managed_world w -> Inv (with_created [] w) (with_created [] w).
Proof. unfold managed_world. intros H. split; [done|done| |constructor]. cbn. intros d Hd. by rewrite Hd in H. Qed.

Lemma Inv_keeps w w' : Inv (with_created [] w) w' -> keeps_history w w'.
Proof.
  intros [I1 I2 I3 _]. split; [|intros rt rid n f H; by split; [eapply I2|eapply I1]].
  unfold managed_world. destruct (versions w') as [d|]; [by apply I3|done].
Qed.

Context (stamp_length : forall n, length (stamp n) = 15).

Lemma event_keeps e w : good_event e -> managed_world w -> keeps_history w (happens e w).
Proof.
  intros He Hw. apply Inv_keeps. pose proof (Inv_start w Hw) as H0. set (w0 := with_created [] w) in *.
  assert (forall p, outside p -> fresh w0 p) as Hp by (intros; by apply outside_fresh).
  assert (forall A (m : io A), triple w0 m any -> Inv w0 (forget m w0).2) as Hrun
    by (intros A m H; apply (triple_then w0 m _ any any); [done| |done]; by intros; apply triple_ret).
  destruct e; cbn [good_event] in He; unfold happens; cbn [run_event]; fold w0.
  1-9: apply Hrun.
  - by apply triple_add.
  - by apply triple_backup_current.
  - by apply triple_ensure.
  - by apply triple_update.
  - destruct He as (? & ? & ?). apply triple_commit; auto.
  - apply triple_commit_batch; [done..|]. eapply Forall_impl; [exact He|]. intros c (? & ? & ?). auto.
  - destruct He as (? & ? & ?). apply triple_paid; auto.
  - apply triple_restore; auto.
  - apply triple_reject; auto.
  - apply Inv_media; [|done]. intros rt rid n f Hf. apply lookup_partial_alter_ne. exact (Hp _ He _ _ _ _ Hf).
Qed.

Lemma events_keep es w : Forall good_event es -> managed_world w -> keeps_history w (foldl (fun w e => happens e w) w es).
Proof.
  intros He. revert w. induction He as [|e es He _ IH]; intros w Hw; cbn [foldl]; [by split|].
  destruct (event_keeps e w He Hw) as [Hm Hk]. destruct (IH _ Hm) as [Hm' Hk']. split; [done|]. intros rt rid n f Hf.
  destruct (Hk _ _ _ _ Hf) as [Hf' E]. destruct (Hk' _ _ _ _ Hf') as [Hf'' E']. split; [done|]. by rewrite E', E.
Qed.

End sequences.

(** ** A project *)

Definition demo_stamp (n : nat) : pystr := u "20240101T120000".
Definition demo_iso (n : nat) : pystr := u "2024-01-01T12:00:00Z".
Definition demo_formal : pystr := u "videos/scene_s1.mp4".
Definition demo_staged : pystr := u ".staging/s1.mp4".
Definition demo_snapshot (n : Z) : pystr := snapshot_path "videos" (u "s1") n (demo_stamp 0).

(** A staged video and a formal one that no version stands for. *)
Definition demo_world : World :=
  mkWorld (<[demo_formal := u "old"]> (<[demo_staged := u "new"]> ∅)) None [] 0 [].
Definition demo_commit : StagedVersionCommit := mkCommit "videos" (u "s1") (u "a cat") demo_staged demo_formal [].

Lemma demo_stamp_length n : length (demo_stamp n) = 15.
Proof. reflexivity. Qed.

Definition outside_bool (p : pystr) : bool := negb (bool_decide (u "versions/" `prefix_of` p)).
Lemma outside_decide p : outside_bool p = true -> outside p.
Proof. unfold outside_bool. intros H. by to_prop. Qed.

Lemma demo_good : good_commit demo_commit.
Proof. split; [|split]; [apply outside_decide; vm_compute; reflexivity..|constructor]. Qed.

(** The manager, with no float in sight. *)
Definition demo_run := run_event (fun _ => true) (fun _ => true) (fun _ _ => false) (fun _ => []) demo_stamp demo_iso (u "p").
Definition demo_happens := happens (fun _ => true) (fun _ => true) (fun _ _ => false) (fun _ => []) demo_stamp demo_iso (u "p").
Definition demo_tracked : World := demo_happens (CommitStaged demo_commit None) demo_world.

(** Restorations and commits, some with a hook that raises, and a rejection. *)
Definition demo_events : list event :=
  [RestoreVersion "videos" (u "s1") 1 demo_formal (Some (Raise KeyError)); Elsewhere demo_staged (Some (u "newer"));
   CommitStaged demo_commit (Some (Raise KeyError)); CommitStaged demo_commit None; RejectCurrent "videos" (u "s1") 2 None demo_formal None].

Lemma demo_events_good : Forall good_event demo_events.
Proof.
  pose proof demo_good as (H1 & H2 & H3).
  repeat (constructor; [first [exact H2|exact H1|exact demo_good]|]). constructor.
Qed.

