(* ===== verification/VersionAtomic.v ===== *)
(** * Calls of the version manager that fail, and calls that succeed

    A commit, a restoration or a rejection that raises leaves the formal files
    and [versions.json] as they were, unless the rollback itself fails, which
    it reports; one that returns has done all of its work.  A paid result stays
    recorded whatever becomes of its selection. *)

From S2P Require Import Prelude Json ScriptReview VersionManager VersionHistory.

(** ** What a call may touch *)

(** Outside of [versions/], only the files of [S] have changed; snapshots are
    created under [versions/]. *)
Definition frame (S : list pystr) (w w' : World) : Prop :=
  (forall p, outside p -> p ∉ S -> media w' !! p = media w !! p)
  /\ (Forall (fun p => ~ outside p) (created w) -> Forall (fun p => ~ outside p) (created w')).

Definition framed (S : list pystr) {A} (m : io A) : Prop := forall w, frame S w (m w).2.

#[export] Instance frame_refl S : Reflexive (frame S).
Proof. by split. Qed.
#[export] Instance frame_trans S : Transitive (frame S).
Proof.
  intros w1 w2 w3 [H1 C1] [H2 C2]. split; [|auto]. intros p Hp Hn. by rewrite H2, H1.
Qed.
Lemma frame_mono S S' w w' : S ⊆ S' -> frame S w w' -> frame S' w w'.
Proof. intros HS [H C]. split; [|done]. intros p Hp Hn. apply H; set_solver. Qed.

Section framing.
Context (S : list pystr).

Lemma framed_ret {A} (a : A) : framed S (ret a).
Proof. intros w. done. Qed.
Lemma framed_lift {A} (r : result A) : framed S (lift r).
Proof. intros w. done. Qed.
Lemma framed_read : framed S read.
Proof. intros w. done. Qed.
Lemma framed_hook h : framed S (hook h).
Proof. intros w. by destruct h. Qed.
Lemma framed_tick clock : framed S (tick clock).
Proof. intros w. done. Qed.
Lemma framed_then {A B} (m : io A) (k : A -> io B) : framed S m -> (forall a, framed S (k a)) -> framed S (then_ m k).
Proof.
  intros Hm Hk w. unfold then_. specialize (Hm w). destruct (m w) as [[a|e] w1]; [|done]. etrans; [exact Hm|apply Hk].
Qed.
Lemma framed_fault : framed S next_fault.
Proof. intros w. destruct (next_fault_same w) as (H1 & _ & H3). split; [by rewrite H1|by rewrite H3]. Qed.
Lemma framed_attempt change : (forall w, frame S w (change w)) -> framed S (attempt change).
Proof. intros H. apply framed_then; [apply framed_fault|]. intros [] w; [apply H|done..]. Qed.
Lemma framed_write v : framed S (write_versions v).
Proof. apply framed_attempt. intros w. by split. Qed.

(** A path the call may write. *)
Definition writable (p : pystr) : Prop := p ∈ S \/ ~ outside p.

Lemma frame_insert p c w : writable p -> frame S w (with_media (<[p := c]> (media w)) w).
Proof. intros Hp. split; [|done]. intros q Hq Hn. apply lookup_insert_ne. intros ->. by destruct Hp. Qed.
Lemma frame_delete p w : writable p -> frame S w (with_media (delete p (media w)) w).
Proof. intros Hp. split; [|done]. intros q Hq Hn. apply lookup_delete_ne. intros ->. by destruct Hp. Qed.
Lemma framed_unlink p : writable p -> framed S (unlink p).
Proof. intros Hp. apply framed_attempt. intros w. by apply frame_delete. Qed.
Lemma framed_put p c : writable p -> framed S (put p c).
Proof. intros Hp. apply framed_attempt. intros w. by apply frame_insert. Qed.
Lemma framed_replace a b : writable a -> writable b -> framed S (os_replace a b).
Proof.
  intros Ha Hb. unfold os_replace. apply framed_then; [apply framed_read|]. intros w. destruct (media w !! a); [|apply framed_lift].
  apply framed_attempt. intros w'. etrans; [by apply (frame_delete a)|]. by apply (frame_insert b _ (with_media _ w')).
Qed.
Lemma framed_copy2 a b : writable b -> framed S (copy2 a b).
Proof.
  intros Hb. unfold copy2. apply framed_then; [apply framed_read|]. intros w. destruct (media w !! a); [|apply framed_lift].
  apply framed_then; [apply framed_fault|]. intros [] w'; [by apply frame_insert|done|by apply frame_insert].
Qed.
Lemma framed_aside a : framed S (copy_aside a).
Proof.
  unfold copy_aside. apply framed_then; [apply framed_read|]. intros w. destruct (media w !! a); [|apply framed_lift].
  apply framed_then; [by apply framed_attempt|]. intros. apply framed_ret.
Qed.
Lemma framed_note p : ~ outside p -> framed S (note_snapshot p).
Proof. intros Hp w. split; [done|]. cbn. intros H. apply Forall_app. by split; [|constructor]. Qed.

Lemma snapshot_inside rt rid n t : ~ outside (snapshot_path rt rid n t).
Proof. intros H. apply H. unfold snapshot_path. by eexists. Qed.

Lemma framed_append stamp iso sel clamp rt rid source prompt meta res : framed S (append_version stamp iso sel clamp rt rid source prompt meta res).
Proof.
  unfold append_version. apply framed_then; [apply framed_lift|]. intros l. apply framed_then; [apply framed_lift|]. intros num.
  apply framed_then; [apply framed_tick|]. intros t. apply framed_then; [apply framed_copy2; right; apply snapshot_inside|]. intros _.
  apply framed_then; [apply framed_note, snapshot_inside|]. intros _. apply framed_then; [apply framed_tick|]. intros. apply framed_ret.
Qed.
Lemma framed_track float_true stamp iso clamp rt rid current existed res : framed S (track_current float_true stamp iso clamp rt rid current existed res).
Proof. unfold track_current. case_goal; [|apply framed_ret]. apply framed_then; [apply framed_append|]. intros. apply framed_ret. Qed.
Lemma framed_backup current existed : framed S (if existed : bool then do! c := copy_aside current in ret (Some c) else ret None).
Proof. destruct existed; [|apply framed_ret]. apply framed_then; [apply framed_aside|]. intros. apply framed_ret. Qed.
End framing.

(** ** Rolling back *)

Lemma quietly_true m w w' : quietly m w = (Ok true, w') -> m w = (Ok tt, w').
Proof. unfold quietly. destruct (m w) as [[[]|e] w1]; intros [=]; by subst. Qed.

Lemma all_quietly_cons m l w w' :
  all_quietly (m :: l) w = (Ok true, w') -> exists w1, m w = (Ok tt, w1) /\ all_quietly l w1 = (Ok true, w').
Proof.
  cbn [all_quietly]. intros (a & w1 & H1 & H)%then_Ok. apply then_Ok in H as (b & w2 & H2 & H). unfold ret in H. injection H as E <-.
  apply andb_true_iff in E as [-> ->]. exists w1. split; [by apply quietly_true|done].
Qed.

Lemma all_quietly_app l l' w w' :
  all_quietly (l ++ l') w = (Ok true, w') -> exists w1, all_quietly l w = (Ok true, w1) /\ all_quietly l' w1 = (Ok true, w').
Proof.
  revert w. induction l as [|m l IH]; intros w H; [by exists w|]. cbn [app] in H. apply all_quietly_cons in H as (w1 & H1 & H).
  destruct (IH w1 H) as (w2 & H2 & H3). exists w2. split; [|done]. cbn [all_quietly]. unfold then_, quietly. by rewrite H1, H2.
Qed.

Lemma attempt_Ok change w a w' : attempt change w = (Ok a, w') -> exists w1, w' = change w1 /\ media w1 = media w /\ versions w1 = versions w
  /\ created w1 = created w /\ calls w1 = calls w.
Proof.
  unfold attempt. intros (f & w1 & H1 & H)%then_Ok. exists w1. unfold next_fault in H1.
  destruct (faults w) as [|f' rest]; injection H1 as <- <-; [|destruct f'; try discriminate H]; injection H as _ <-; done.
Qed.

(** What is known of a formal file when it is restored: its old content, or
    that there was none, or nothing because it was not touched. *)
Definition settled (m0 : gmap pystr pystr) (s : pystr * bool * option pystr) : Prop :=
  match s.2 with
  | Some x => m0 !! s.1.1 = Some x
  | None => if s.1.2 then True else m0 !! s.1.1 = None
  end.
Definition restores (p : pystr) (s : pystr * bool * option pystr) : Prop :=
  s.1.1 = p /\ match s.2 with Some _ => True | None => if s.1.2 then False else True end.

Lemma restore_current_Ok m0 c ex b w w' :
  settled m0 (c, ex, b) -> restore_current c ex b w = (Ok tt, w') ->
  versions w' = versions w /\ created w' = created w
  /\ forall p, (restores p (c, ex, b) -> media w' !! p = m0 !! p) /\ (c <> p \/ ~ restores p (c, ex, b) -> media w' !! p = media w !! p).
Proof.
  intros Hs H. unfold restore_current in H. destruct b as [x|]; [|destruct ex].
  - apply attempt_Ok in H as (w1 & -> & E1 & E2 & E3 & _). cbn. rewrite E1. split; [done|]. split; [done|]. intros p. split.
    + intros [Hc _]. cbn in Hc. subst p. cbn in Hs. by rewrite lookup_insert_eq, Hs.
    + intros [Hc|Hn]; apply lookup_insert_ne; [done|]. intros ->. apply Hn. by split.
  - unfold ret in H. injection H as <-. split; [done|]. split; [done|]. intros p. split; [by intros [_ ?]|done].
  - apply attempt_Ok in H as (w1 & -> & E1 & E2 & E3 & _). cbn. rewrite E1. split; [done|]. split; [done|]. intros p. split.
    + intros [Hc _]. cbn in Hc. subst p. cbn in Hs. by rewrite lookup_delete_eq, Hs.
    + intros [Hc|Hn]; apply lookup_delete_ne; [done|]. intros ->. apply Hn. by split.
Qed.

Lemma restore_all_Ok m0 sts w w' :
  Forall (settled m0) sts -> all_quietly (map (fun '(c, ex, b) => restore_current c ex b) sts) w = (Ok true, w') ->
  versions w' = versions w /\ created w' = created w
  /\ forall p, media w !! p = m0 !! p \/ Exists (restores p) sts -> media w' !! p = m0 !! p.
Proof.
  intros Hs. revert w. induction Hs as [|[[c ex] b] sts Hs _ IH]; intros w H.
  - cbn in H. injection H as <-. split; [done|]. split; [done|]. intros p [?|?%Exists_nil]; done.
  - cbn [map] in H. apply all_quietly_cons in H as (w1 & H1 & H). apply (restore_current_Ok m0) in H1 as (E1 & E2 & E3); [|done].
    destruct (IH w1 H) as (F1 & F2 & F3). split; [congruence|]. split; [congruence|]. intros p Hp. apply F3. destruct (E3 p) as [Hy Hn].
    destruct (decide (c = p)) as [->|Hc].
    + destruct b as [x|]; [left; apply Hy; by split|]. destruct ex; [|left; apply Hy; by split].
      rewrite Hn by (right; intros [_ ?]; done). destruct Hp as [Hp|[[_ []]|Hp]%Exists_cons]; auto.
    + rewrite Hn by (by left). destruct Hp as [Hp|[[? _]|Hp]%Exists_cons]; [auto|done|auto].
Qed.

Lemma unlink_all_Ok (S : list pystr) l w w' :
  Forall (writable S) l -> all_quietly (map unlink l) w = (Ok true, w') ->
  versions w' = versions w /\ forall p, outside p -> p ∉ S -> media w' !! p = media w !! p.
Proof.
  intros Hl. revert w. induction Hl as [|q l Hq _ IH]; intros w H; [cbn in H; by injection H as <-|].
  cbn [map] in H. apply all_quietly_cons in H as (w1 & H1 & H). pose proof (framed_unlink S q Hq w) as [F _]. rewrite H1 in F. cbn in F.
  apply attempt_Ok in H1 as (w2 & -> & E1 & E2 & _). destruct (IH _ H) as [F1 F2]. split; [by rewrite F1|]. intros p Hp Hn.
  rewrite F2 by done. by apply F.
Qed.

(** A rollback that works restores [versions.json] and the formal files. *)
Lemma undo_commit_Ok m0 (S : list pystr) sts v w w' :
  Forall (settled m0) sts -> Forall (fun p => ~ outside p) (created w) ->
  (forall p, outside p -> p ∉ S -> media w !! p = m0 !! p \/ Exists (restores p) sts) ->
  undo_commit sts v w w = (Ok true, w') ->
  versions w' = v /\ forall p, outside p -> p ∉ S -> media w' !! p = m0 !! p.
Proof.
  intros Hs Hc Hp H. unfold undo_commit in H. apply all_quietly_app in H as (w1 & H1 & H). cbn [app] in H.
  apply all_quietly_cons in H as (w2 & H2 & H). apply (restore_all_Ok m0) in H1 as (E1 & E2 & E3); [|by apply Forall_reverse].
  apply attempt_Ok in H2 as (w3 & -> & F1 & F2 & _). apply (unlink_all_Ok []) in H as [G1 G2];
    [|eapply Forall_impl; [exact Hc|]; by right]. split; [by rewrite G1|].
  intros p Ho Hn. rewrite G2 by (done || apply not_elem_of_nil). cbn. rewrite F1. apply E3. destruct (Hp p Ho Hn) as [?|Hx]; [by left|right].
  rewrite Exists_exists in Hx |- *. destruct Hx as (x & Hx & Hr). exists x. by rewrite elem_of_reverse.
Qed.

(** ** Calls that raise *)

(** [w'] is [w], but for files of [S] and of [versions/]. *)
Definition undone (S : list pystr) (w w' : World) : Prop :=
  versions w' = versions w /\ forall p, outside p -> p ∉ S -> media w' !! p = media w !! p.

(** From [w1] on, a call that raises ends as if it had not run since [w0],
    unless it reports that its rollback has failed. *)
Definition atomic (S : list pystr) (w0 : World) {A} (m : io A) (w1 : World) : Prop :=
  forall e w', m w1 = (Raise e, w') -> e <> RollbackIncomplete -> undone S w0 w'.

Section atomic.
Context (S : list pystr) (w0 : World).

Lemma undone_refl : undone S w0 w0.
Proof. done. Qed.
Lemma atomic_ret {A} (a : A) w1 : atomic S w0 (ret a) w1.
Proof. intros e w' [=]. Qed.
Lemma atomic_lift {A} (r : result A) w1 : undone S w0 w1 -> atomic S w0 (lift r) w1.
Proof. intros H e w' E _. unfold lift in E. by injection E as _ <-. Qed.
Lemma atomic_then {A B} (m : io A) (k : A -> io B) w1 :
  atomic S w0 m w1 -> (forall a w2, m w1 = (Ok a, w2) -> atomic S w0 (k a) w2) -> atomic S w0 (then_ m k) w1.
Proof.
  intros Hm Hk e w' H Hne. unfold then_ in H. destruct (m w1) as [[a|e'] w2] eqn:E; [by eapply Hk|]. injection H as -> ->. by eapply Hm.
Qed.

(** The read-only and the infallible steps. *)
Lemma atomic_lift_then {A B} (r : result A) (k : A -> io B) w1 :
  undone S w0 w1 -> (forall a, r = Ok a -> atomic S w0 (k a) w1) -> atomic S w0 (then_ (lift r) k) w1.
Proof. intros H Hk. apply atomic_then; [by apply atomic_lift|]. intros a w2 [-> ->]%lift_Ok. by apply Hk. Qed.
Lemma atomic_read_then {B} (k : World -> io B) w1 : atomic S w0 (k w1) w1 -> atomic S w0 (then_ read k) w1.
Proof. intros H. apply atomic_then; [intros e w' [=]|]. intros a w2 E. unfold read in E. by injection E as <- <-. Qed.
Lemma atomic_begin_then {B} (k : unit -> io B) w1 : atomic S w0 (k tt) (with_created [] w1) -> atomic S w0 (then_ begin_call k) w1.
Proof. intros H. apply atomic_then; [intros e w' [=]|]. intros a w2 E. unfold begin_call in E. by injection E as <- <-. Qed.
Lemma atomic_load_then {B} (k : dict -> io B) w1 : (forall d, atomic S w0 (k d) w1) -> atomic S w0 (then_ _load_versions k) w1.
Proof.
  intros H. apply atomic_then; [intros e w' E; discriminate E|]. intros a w2 E. unfold _load_versions in E. apply pair_equal_spec in E as [_ <-]. apply H.
Qed.

Lemma protect_Ok {A} (m : io A) undo w a w' : protect m undo w = (Ok a, w') -> m w = (Ok a, w').
Proof. unfold protect. destruct (m w) as [[x|e] w1]; [done|]. by destruct (undo w1 w1) as [[[]|] w2]. Qed.

(** The work so far has touched [S1] and what is protected touches [S2]. *)
Lemma atomic_protect {A} (m : io A) sts S1 S2 w1 :
  frame S1 w0 w1 -> Forall (fun p => ~ outside p) (created w1) -> framed S2 m -> Forall (settled (media w0)) sts ->
  (forall p, outside p -> p ∉ S -> p ∈ S1 ++ S2 -> Exists (restores p) sts) ->
  atomic S w0 (protect m (undo_commit sts (versions w0))) w1.
Proof.
  intros [F1 _] Hc Hm Hs Hr e w' H Hne. specialize (Hm w1) as [M1 M2]. unfold protect in H. destruct (m w1) as [[x|e'] w2]; [discriminate H|].
  cbn [snd] in M1, M2. destruct (undo_commit _ _ w2 w2) as [[[]|] w3] eqn:E; injection H as <- <-; try done.
  eapply undo_commit_Ok in E as [E1 E2]; [by split; [exact E1|exact E2]|done|by apply M2|]. intros p Ho Hn.
  destruct (decide (p ∈ S1 ++ S2)) as [Hin|Hout]; [right; by apply Hr|left]. apply not_elem_of_app in Hout as [H1 H2]. by rewrite M1, F1.
Qed.
End atomic.

(** The backup of a formal file holds its content. *)
Lemma backup_Ok current w b w' :
  (if bool_decide (is_Some (media w !! current)) then do! c := copy_aside current in ret (Some c) else ret None) w = (Ok b, w') ->
  b = media w !! current /\ media w' = media w /\ created w' = created w /\ versions w' = versions w.
Proof.
  destruct (media w !! current) as [x|] eqn:E; cbn; [|intros H; by injection H as <- <-].
  intros (c & w1 & H1 & H)%then_Ok. unfold ret in H. injection H as <- <-. unfold copy_aside in H1. apply then_Ok in H1 as (w2 & w3 & H2 & H1).
  unfold read in H2. injection H2 as <- <-. rewrite E in H1. apply then_Ok in H1 as ([] & w4 & H2 & H1). unfold ret in H1. injection H1 as <- <-.
  apply attempt_Ok in H2 as (w5 & -> & ? & ? & ? & _). done.
Qed.

(** The two protected parts of a call that changes one formal file. *)
Lemma atomic_current {A B} (S : list pystr) current w0 (body : option pystr -> io A) (rest : option pystr -> io B) :
  let existed := bool_decide (is_Some (media w0 !! current)) in
  let undo b := undo_commit [(current, existed, b)] (versions w0) in
  (forall b, framed (current :: S) (body b)) ->
  (forall b w1, atomic S w0 (protect (body b) (undo b)) w1 -> atomic S w0 (rest b) w1) ->
  atomic S w0
    (do! backup := protect (if existed then do! c := copy_aside current in ret (Some c) else ret None) (undo None) in rest backup)
    (with_created [] w0).
Proof.
  intros existed undo Hbody Hrest. apply atomic_then.
  - apply (atomic_protect _ _ _ _ [] []); [done|constructor|apply framed_backup| |intros p _ _ Hp; by apply not_elem_of_nil in Hp].
    constructor; [|constructor]. unfold settled. cbn. subst existed. case_bool_decide as H; [done|]. by apply eq_None_not_Some.
  - intros b w1 H%protect_Ok. apply (backup_Ok current (with_created [] w0)) in H as (-> & Hm & Hc & Hv). apply Hrest.
    apply (atomic_protect _ _ _ _ [] (current :: S)); [split; [by rewrite Hm|by rewrite Hc]|by rewrite Hc|apply Hbody| |].
    + constructor; [|constructor]. unfold settled. cbn. destruct (media w0 !! current) eqn:E; [done|].
      subst existed. by rewrite bool_decide_eq_false_2 by (by intros [? ?]).
    + intros p _ Hn Hp. cbn in Hp. apply elem_of_cons in Hp as [-> |Hp]; [|done]. constructor. split; [done|]. cbn.
      destruct (media w0 !! current) eqn:E; [done|]. subst existed. by rewrite bool_decide_eq_false_2 by (by intros [? ?]).
Qed.

(** Runs a read-only beginning. *)
Ltac atomic_begin :=
  repeat first
    [ apply atomic_read_then
    | apply atomic_begin_then
    | apply atomic_load_then; intros ?
    | apply atomic_lift_then; [done|]; intros ? ?
    | apply atomic_ret
    | by apply atomic_lift ].

Ltac framed_body :=
  repeat first
    [ apply framed_ret | apply framed_lift | apply framed_hook | apply framed_write | apply framed_append | apply framed_track | apply framed_aside
    | apply framed_unlink; left; set_solver | apply framed_put; left; set_solver | apply framed_copy2; left; set_solver
    | apply framed_replace; left; set_solver | apply framed_then; [|intros ?] ].

Lemma atomic_commit float_true stamp iso rt rid prompt staged current h meta w :
  atomic [staged] w (commit_staged_version float_true stamp iso rt rid prompt staged current h meta) w.
Proof.
  unfold commit_staged_version. case_goal; atomic_begin. case_goal; atomic_begin.
  eapply (atomic_current [staged] current w); [|intros b w1 Hp; exact Hp]. intros b. framed_body.
Qed.

Lemma atomic_restore float_true float_eq rt rid num current h w :
  atomic [] w (restore_version float_true float_eq rt rid num current h) w.
Proof.
  unfold restore_version. case_goal; atomic_begin. case_goal; atomic_begin. case_goal; atomic_begin. case_goal; atomic_begin.
  case_goal; atomic_begin. case_goal; atomic_begin. case_goal; atomic_begin.
  eapply (atomic_current [] current w); [|intros b w1 Hp; apply atomic_then; [exact Hp|intros; apply atomic_ret]]. intros b. framed_body.
Qed.

Lemma atomic_reject float_eq rt rid num target current h w :
  atomic [] w (reject_current_version float_eq rt rid num target current h) w.
Proof.
  unfold reject_current_version. case_goal; atomic_begin. case_goal; atomic_begin. case_goal; atomic_begin. case_goal; atomic_begin.
  case_goal; atomic_begin. case_goal; atomic_begin. case_goal; atomic_begin.
  set (goes_to := match target with Some v => v | None => _ end). case_goal; atomic_begin. case_goal; atomic_begin.
  eapply (atomic_current [] current w); [|intros b w1 Hp; exact Hp]. intros b. framed_body. case_goal; framed_body.
Qed.

Lemma check_batch_targets m ids targets batch :
  check_batch m ids targets batch = Ok tt -> NoDup (map sc_current batch) /\ Forall (fun c => sc_current c ∉ targets) batch.
Proof.
  revert ids targets. induction batch as [|c batch IH]; intros ids targets H; [split; constructor|]. cbn [check_batch] in H.
  repeat case_hyp; try discriminate H. to_prop. apply IH in H as [Hn Ht]. rewrite Forall_forall in Ht. split.
  - cbn [map]. constructor; [|done]. intros (x & Hx & Hin)%list_elem_of_fmap. apply (Ht x Hin). rewrite <- Hx. left.
  - constructor; [done|]. apply Forall_forall. intros x Hx Hin. apply (Ht x Hx). by right.
Qed.

Lemma settled_backup w0 w current :
  media w !! current = media w0 !! current ->
  let s := (current, bool_decide (is_Some (media w !! current)), media w !! current) in settled (media w0) s /\ restores current s.
Proof.
  intros E. unfold settled, restores. cbn. rewrite E. destruct (media w0 !! current) eqn:E'; [done|].
  by rewrite bool_decide_eq_false_2 by (by intros [? ?]).
Qed.

Section batch.
Context (float_true : pystr -> bool) (stamp iso : nat -> pystr) (w0 : World) (S : list pystr).

Definition currents (sts : list (pystr * bool * option pystr)) : list pystr := map (fun s => s.1.1) sts.
Definition recorded (sts : list (pystr * bool * option pystr)) : Prop := Forall (fun s => settled (media w0) s /\ restores s.1.1 s) sts.

Lemma recorded_restores sts p : recorded sts -> p ∈ currents sts -> Exists (restores p) sts.
Proof.
  intros Hs (s & -> & Hin)%list_elem_of_fmap. apply Exists_exists. exists s. split; [done|]. unfold recorded in Hs. rewrite Forall_forall in Hs.
  by apply Hs.
Qed.
Lemma recorded_settled sts : recorded sts -> Forall (settled (media w0)) sts.
Proof. intros H. eapply Forall_impl; [exact H|]. by intros s [? _]. Qed.

(** Protecting more of the batch. *)
Lemma atomic_protect_batch {A} (m : io A) sts w1 :
  recorded sts -> frame (S ++ currents sts) w0 w1 -> Forall (fun p => ~ outside p) (created w1) -> framed (S ++ currents sts) m ->
  atomic S w0 (protect m (undo_commit sts (versions w0))) w1.
Proof.
  intros Hs Hf Hc Hm. eapply atomic_protect; [exact Hf|done|exact Hm|by apply recorded_settled|]. intros p _ Hn Hp. apply recorded_restores; [done|].
  set_solver.
Qed.

Lemma atomic_each h batch sts data acc w1 :
  NoDup (map sc_current batch) ->
  Forall (fun c => sc_current c ∉ currents sts /\ sc_current c ∉ S /\ sc_staged c ∈ S /\ outside (sc_current c)) batch ->
  recorded sts -> frame (S ++ currents sts) w0 w1 -> Forall (fun p => ~ outside p) (created w1) ->
  atomic S w0 (commit_each float_true stamp iso (versions w0) h batch sts data acc) w1.
Proof.
  intros Hnd Hall. revert sts data acc w1 Hall. induction batch as [|c batch IH]; intros sts data acc w1 Hall Hs Hf Hc; cbn [commit_each].
  { apply atomic_protect_batch; [done..|]. framed_body. }
  apply NoDup_cons in Hnd as [Hnew Hnd]. apply Forall_cons in Hall as [(H1 & H2 & H3 & H4) Hall].
  apply atomic_read_then. apply atomic_then.
  { apply atomic_protect_batch; [done..|]. framed_body. apply framed_backup. }
  intros [res b] w2 H%protect_Ok. apply then_Ok in H as (res' & w3 & Hres & H). apply lift_Ok in Hres as [_ ->].
  apply then_Ok in H as (b' & w4 & Hb & H). unfold ret in H. injection H as -> -> ->. apply backup_Ok in Hb as (-> & E1 & E2 & E3).
  cbn [fst snd]. set (st := (sc_current c, _, media w1 !! sc_current c)).
  assert (recorded (sts ++ [st])) as Hs'.
  { apply Forall_app. split; [done|]. constructor; [|constructor]. apply settled_backup. destruct Hf as [Hf _]. apply Hf; [done|]. set_solver. }
  assert (frame (S ++ currents (sts ++ [st])) w0 w2) as Hf2.
  { eapply frame_mono; [|etrans; [exact Hf|split; [by rewrite E1|by rewrite E2]]]. unfold currents. rewrite map_app. set_solver. }
  assert (S ++ currents (sts ++ [st]) = S ++ currents sts ++ [sc_current c]) as Hcur by (unfold currents; by rewrite map_app).
  assert (framed (S ++ currents (sts ++ [st])) (do! res := track_current float_true stamp iso true (sc_type c) (sc_id c) (sc_current c)
      (bool_decide (is_Some (media w1 !! sc_current c))) res in
    do! r := append_version stamp iso true true (sc_type c) (sc_id c) (sc_staged c) (sc_prompt c) (sc_metadata c) res in
    do! _ := os_replace (sc_staged c) (sc_current c) in ret r)) as Hm by (rewrite Hcur; framed_body).
  apply atomic_then; [apply atomic_protect_batch; [done|done|by rewrite E2|exact Hm]|].
  intros r w3 H%protect_Ok. specialize (Hm w2). rewrite H in Hm. cbn [snd] in Hm. apply IH; [done| |done|by etrans|].
  - rewrite Forall_forall in Hall |- *. intros x Hx. destruct (Hall x Hx) as (? & ? & ? & ?). split; [|done].
    unfold currents. rewrite map_app. intros [?|Hx']%elem_of_app; [done|]. apply list_elem_of_singleton in Hx'. change (st.1.1) with (sc_current c) in Hx'. apply Hnew. rewrite <- Hx'.
    by apply list_elem_of_fmap_2.
  - apply Hm. by rewrite E2.
Qed.
End batch.

Lemma atomic_batch float_true stamp iso batch h w :
  Forall (fun c => outside (sc_current c) /\ sc_current c ∉ map sc_staged batch) batch ->
  atomic (map sc_staged batch) w (commit_staged_versions float_true stamp iso batch h) w.
Proof.
  intros Hb. unfold commit_staged_versions. destruct batch as [|c0 batch0] eqn:Eb; [apply atomic_ret|]. rewrite <- Eb in *. clear c0 batch0 Eb.
  apply atomic_read_then, atomic_lift_then; [done|]. intros [] [Hn _]%check_batch_targets. apply atomic_begin_then, atomic_load_then. intros data. apply (atomic_each _ _ _ w); [done| |constructor|done|constructor].
  rewrite Forall_forall in Hb |- *. intros c Hc. destruct (Hb c Hc) as [Ho Hd]. split; [by apply not_elem_of_nil|]. split; [done|].
  split; [|done]. by apply list_elem_of_fmap_2.
Qed.

(** ** Calls that return *)

(** Strips the binds off a call that has returned. *)
Ltac run_ok H :=
  repeat lazymatch type of H with
  | then_ (lift _) _ _ = (Ok _, _) => let E := fresh "E" in apply then_Ok in H as (? & ? & E & H); apply lift_Ok in E as [E ->]
  | then_ read _ _ = (Ok _, _) => apply then_Ok in H as (? & ? & [= <- <-] & H)
  end.

Lemma copy2_Ok a b w x w' : copy2 a b w = (Ok x, w') ->
  exists c, media w !! a = Some c /\ media w' = <[b := c]> (media w) /\ versions w' = versions w.
Proof.
  unfold copy2. intros H. run_ok H. destruct (media w !! a) as [c|] eqn:E; [|discriminate H]. exists c. split; [done|].
  apply then_Ok in H as (f & w1 & H1 & H). destruct (next_fault_same w) as (F1 & F2 & _). rewrite H1 in F1, F2. cbn in F1, F2.
  destruct f; try discriminate H. injection H as _ <-. cbn. by rewrite F1.
Qed.

Lemma replace_Ok a b w x w' : os_replace a b w = (Ok x, w') ->
  exists c, media w !! a = Some c /\ media w' = <[b := c]> (delete a (media w)) /\ versions w' = versions w.
Proof.
  unfold os_replace. intros H. run_ok H. destruct (media w !! a) as [c|] eqn:E; [|discriminate H]. exists c. split; [done|].
  apply attempt_Ok in H as (w1 & -> & E1 & E2 & _). cbn. by rewrite E1.
Qed.

Lemma append_Ok stamp iso sel clamp rt rid source prompt meta res w num res' w' :
  append_version stamp iso sel clamp rt rid source prompt meta res w = (Ok (num, res'), w') ->
  exists l k at_ content, records_of res = Ok l /\ next_version l = Ok num /\ media w !! source = Some content
    /\ media w' = <[snapshot_path rt rid num (stamp k) := content]> (media w) /\ versions w' = versions w
    /\ let new := dict_set (u "versions") (JArr (l ++ [JObj (version_record num (snapshot_path rt rid num (stamp k)) prompt at_ meta (previous_version clamp res))])) res in
       res' = if sel then dict_set (u "current_version") (JInt num) new else new.
Proof.
  unfold append_version. intros H. run_ok H. apply then_Ok in H as (t & w1 & Ht & H). unfold tick in Ht. injection Ht as <- <-.
  apply then_Ok in H as (y & w2 & H2 & H). apply copy2_Ok in H2 as (c & Hc & Hm & Hv).
  apply then_Ok in H as (y' & w3 & H3 & H). unfold note_snapshot in H3. injection H3 as <- <-.
  apply then_Ok in H as (at_ & w4 & H4 & H). unfold tick in H4. injection H4 as <- <-. unfold ret in H. injection H as <- <- <-.
  eexists _, _, _, c. split; [exact E|]. split; [exact E0|]. split; [exact Hc|]. split; [exact Hm|]. split; [exact Hv|]. reflexivity.
Qed.

(** The effect of adding a version to a resource: a new number, its snapshot,
    and everything as before otherwise. *)
Lemma append_effect stamp iso sel clamp rt rid source prompt meta res w num res' w' :
  clean meta -> append_version stamp iso sel clamp rt rid source prompt meta res w = (Ok (num, res'), w') ->
  versions w' = versions w
  /\ exists content k, let f := snapshot_path rt rid num (stamp k) in
     media w !! source = Some content /\ media w' = <[f := content]> (media w) /\ entry_in res' num f
     /\ (forall n g, entry_in res n g -> (n < num)%Z /\ entry_in res' n g)
     /\ dict_get (u "current_version") res' = if sel then Some (JInt num) else dict_get (u "current_version") res.
Proof.
  intros Hc (l & k & at_ & c & Hl & Hn & Hs & Hm & Hv & Hres)%append_Ok. split; [done|]. exists c, k. intros f. fold f in Hm, Hres.
  set (record := version_record _ _ _ _ _ _) in Hres. set (new := dict_set (u "versions") _ res) in Hres. cbv zeta in Hres.
  destruct (version_record_get num f prompt at_ meta (previous_version clamp res) Hc) as [V1 V2].
  assert (dict_get (u "versions") res' = Some (JArr (l ++ [JObj record]))) as Hl'
    by (rewrite Hres; destruct sel; [rewrite dict_get_set_ne by done|]; apply dict_get_set_eq).
  split; [done|]. split; [done|]. unfold entry_in. rewrite Hl'. split; [|split].
  - eexists _, record. split; [done|]. split; [|done]. apply elem_of_app. right. by apply list_elem_of_singleton.
  - intros n g (l' & m & El & Hm' & Hmv & Hmf). unfold records_of in Hl. rewrite El in Hl. apply Ok_inj in Hl as ->.
    split; [by eapply next_version_greater|]. eexists _, m. split; [done|]. split; [|done]. apply elem_of_app. by left.
  - rewrite Hres. destruct sel; [by rewrite dict_get_set_eq|]. unfold new. by rewrite dict_get_set_ne.
Qed.

(** The record of a resource. *)
Definition holds (v : option dict) (rt : string) (rid : pystr) (res : dict) : Prop :=
  exists data bucket, v = Some data /\ dict_get (u rt) data = Some (JObj bucket) /\ dict_get rid bucket = Some (JObj res).

Lemma holds_put data rt rid res : holds (Some (put_resource data rt rid res)) rt rid res.
Proof. eexists _, _. split; [done|]. unfold put_resource. by rewrite !dict_get_set_eq. Qed.

Lemma holds_put_other data rt rid res rt' rid' r :
  ~ (rt' = rt /\ rid' = rid) -> holds (Some data) rt' rid' r -> holds (Some (put_resource data rt rid res)) rt' rid' r.
Proof.
  intros Hne (d & b & [= <-] & Hb & Hr). unfold put_resource. destruct (decide (rt = rt')) as [<-|Hn].
  - eexists _, _. split; [done|]. rewrite dict_get_set_eq. split; [done|]. rewrite dict_get_set_ne by (by intros ->; apply Hne). by rewrite Hb.
  - eexists _, b. split; [done|]. by rewrite dict_get_set_ne by (by intros ?%u_inj).
Qed.

(** The resource a call works on. *)
Lemma load_resource w data rt rid res :
  _load_versions w = (Ok data, w) -> resource_of data rt rid = Ok res ->
  (holds (versions w) rt rid res \/ (res = fresh_resource /\ forall r, ~ holds (versions w) rt rid r))
  /\ (forall n g, in_history (versions w) rt rid n g -> entry_in res n g)
  /\ forall rt' rid' r, holds (versions w) rt' rid' r -> holds (Some data) rt' rid' r.
Proof.
  unfold _load_versions. intros Hd Hr. apply pair_equal_spec in Hd as [Hd%Ok_inj _]. destruct (versions w) as [d|].
  - change (d = data) in Hd. subst d. split; [|split; [|done]].
    + unfold resource_of, child in Hr. apply bind_Ok in Hr as (b & Hb & Hr). destruct (dict_get (u rt) data) as [[]|] eqn:Eb; try discriminate Hb;
        apply Ok_inj in Hb; subst b.
      * destruct (dict_get rid members) as [[]|] eqn:Er; try discriminate Hr; apply Ok_inj in Hr; subst res;
          [left; by exists data, members|right; split; [done|]]. intros r (? & ? & [= <-] & E1 & E2). congruence.
      * cbn in Hr. apply Ok_inj in Hr as <-. right. split; [done|]. intros r (? & ? & [= <-] & E1 & E2). congruence.
    + intros n g Hg. by eapply resource_of_listed.
  - split; [|split; [done|]; by intros ??? (? & ? & [=] & _)]. right. split; [|by intros ? (? & ? & [=] & _)]. subst data.
    unfold resource_of in Hr. apply bind_Ok in Hr as (b & Hb & Hr). assert (b = []) as ->; [|by apply Ok_inj in Hr].
    unfold child in Hb. destruct (dict_get (u rt) _) as [v|] eqn:E in Hb; [|by apply Ok_inj in Hb].
    assert (v = JObj []) as ->; [|by apply Ok_inj in Hb]. by eapply empty_buckets.
Qed.

Lemma hook_Ok h w x w' : hook h w = (Ok x, w') -> w' = w.
Proof. unfold hook. destruct h; [by intros [_ ->]%lift_Ok|]. unfold ret. intros H. by injection H as _ <-. Qed.

Lemma lookup_insert_outside (rt : string) (n : Z) (rid t c p : pystr) (m : gmap pystr pystr) : outside p -> (<[snapshot_path rt rid n t := c]> m) !! p = m !! p.
Proof. intros Hp. apply lookup_insert_ne. intros <-. by apply snapshot_inside in Hp. Qed.

(** An untracked formal file is snapshotted, with nothing else changed. *)
Lemma track_effect float_true stamp iso rt rid current existed res w res' w' :
  track_current float_true stamp iso false rt rid current existed res w = (Ok res', w') ->
  versions w' = versions w
  /\ ((existed && negb (is_tracked float_true res) = false /\ res' = res /\ w' = w)
     \/ exists num old k, let f := snapshot_path rt rid num (stamp k) in
        existed && negb (is_tracked float_true res) = true
        /\ media w !! current = Some old /\ media w' = <[f := old]> (media w) /\ entry_in res' num f
        /\ (forall n g, entry_in res n g -> (n < num)%Z /\ entry_in res' n g)).
Proof.
  unfold track_current. destruct (existed && negb (is_tracked float_true res)) eqn:E.
  - intros ([num r] & w1 & H1 & H)%then_Ok. unfold ret in H. injection H as <- <-. apply append_effect in H1 as (Hv & c & k & Hs & Hm & He & Ho & _); [|constructor].
    split; [done|]. right. by exists num, c, k.
  - unfold ret. intros H. injection H as <- <-. split; [done|]. by left.
Qed.

(** ** Paid results *)

Section paid.
Context (float_true : pystr -> bool) (stamp iso : nat -> pystr) (stamp_length : forall n, length (stamp n) = 15).

Definition pointer (res : dict) : option json := dict_get (u "current_version") res.

(** A selection in force stays in force. *)
Definition same_pointer (res res' : dict) : Prop := forall z, pointer res = Some (JInt z) -> (0 < z)%Z -> pointer res' = Some (JInt z).

(** The paid content is a version of the resource, with its snapshot. *)
Definition kept (res : dict) (num : Z) (content : pystr) (w' : World) : Prop :=
  exists f, entry_in res num f /\ ~ outside f /\ media w' !! f = Some content.

Lemma tracked_positive res z : pointer res = Some (JInt z) -> (0 < z)%Z -> is_tracked float_true res = true.
Proof. unfold is_tracked, pointer. intros -> Hz. destruct z; done. Qed.

Lemma normalised_pointer res :
  let res' := match dict_get (u "current_version") res with
              | Some (JInt z) => if (z <? 0)%Z then dict_set (u "current_version") (JInt 0) res else res
              | None => res
              | Some _ => dict_set (u "current_version") (JInt 0) res
              end in
  same_pointer res res' /\ forall n g, entry_in res' n g <-> entry_in res n g.
Proof.
  cbv zeta. split.
  - intros z Hz Hp. unfold pointer in *. rewrite Hz. by destruct (Z.ltb_spec z 0); [lia|].
  - intros n g. repeat case_goal; try done; by apply entry_set_other.
Qed.

Lemma record_paid_Ok rt rid prompt staged current meta data res w num res' w' :
  outside staged -> clean meta -> record_paid float_true stamp iso rt rid prompt staged current meta data res w = (Ok (num, res'), w') ->
  versions w' = Some (put_resource data rt rid res')
  /\ exists content, media w !! staged = Some content /\ kept res' num content w'
  /\ (forall p, outside p -> media w' !! p = media w !! p)
  /\ (forall n g, entry_in res n g -> (n < num)%Z /\ entry_in res' n g) /\ same_pointer res res'.
Proof.
  intros Ho Hc H. unfold record_paid in H. run_ok H. apply then_Ok in H as (res1 & w1 & H1 & H).
  assert (same_pointer res res1 /\ (forall n g, entry_in res n g -> entry_in res1 n g) /\ forall p, outside p -> media w1 !! p = media w !! p) as (P1 & K1 & O1).
  { destruct (bool_decide _ && negb _) eqn:E.
    - apply then_Ok in H1 as ([n1 r1] & w2 & H1 & H2). unfold ret in H2. injection H2 as <- <-.
      apply append_effect in H1 as (_ & c & k & _ & M & _ & Hold & _); [|constructor]. cbn [fst snd]. split; [|split].
      + intros z Hz Hp. rewrite (tracked_positive _ _ Hz Hp), andb_false_r in E. discriminate E.
      + intros n g Hg. apply entry_set_other; [done|]. by apply Hold.
      + intros p Hp. by rewrite M, lookup_insert_outside.
    - unfold ret in H1. injection H1 as <- <-. split; [by intros z Hz _|done]. }
  destruct (normalised_pointer res1) as [P2 K2]. cbv zeta in P2, K2. set (res2 := match dict_get _ res1 with Some _ => _ | None => _ end) in *.
  apply then_Ok in H as ([n r] & w2 & H2 & H). apply append_effect in H2 as (_ & c & k & Hsrc & M & He & Hold & Hcur); [|done].
  apply then_Ok in H as (? & w3 & H3 & H). unfold ret in H. injection H as -> -> ->. apply attempt_Ok in H3 as (w4 & -> & M4 & _). cbn [snd].
  split; [done|]. exists c. split; [by rewrite <- (O1 staged)|]. split; [|split; [|split]].
  - eexists. split; [exact He|]. split; [apply snapshot_inside|]. cbn. by rewrite M4, M, lookup_insert_eq.
  - intros p Hp. cbn. by rewrite M4, M, lookup_insert_outside, O1.
  - intros n' g Hg. apply Hold, K2, K1, Hg.
  - intros z Hz Hp. unfold pointer. rewrite Hcur. apply P2; [by apply P1|done].
Qed.
(** What the second part never loses. *)
Definition stable (P : World -> Prop) {A} (m : io A) : Prop := forall w, P w -> P (m w).2.

Lemma stable_then P {A B} (m : io A) (k : A -> io B) : stable P m -> (forall a, stable P (k a)) -> stable P (then_ m k).
Proof. intros Hm Hk w Hw. unfold then_. specialize (Hm w Hw). destruct (m w) as [[a|e] w1]; [by apply Hk|done]. Qed.
Lemma stable_ret P {A} (a : A) : stable P (ret a).
Proof. by intros w. Qed.
Lemma stable_hook P h : stable P (hook h).
Proof. intros w Hw. by destruct h. Qed.
Lemma stable_quietly P m : stable P m -> stable P (quietly m).
Proof. intros H w Hw. unfold quietly. specialize (H w Hw). by destruct (m w) as [[]]. Qed.
Lemma stable_all_quietly P l : Forall (stable P) l -> stable P (all_quietly l).
Proof.
  induction 1 as [|m l Hm _ IH]; cbn [all_quietly]; [apply stable_ret|]. apply stable_then; [by apply stable_quietly|]. intros a.
  apply stable_then; [exact IH|]. intros. apply stable_ret.
Qed.
Lemma stable_protect P {A} (m : io A) undo : stable P m -> (forall w, stable P (undo w)) -> stable P (protect m undo).
Proof.
  intros Hm Hu w Hw. unfold protect. specialize (Hm w Hw). destruct (m w) as [[a|e] w1]; [done|]. specialize (Hu w1 w1 Hm).
  by destruct (undo w1 w1) as [[[]|] w2].
Qed.

(** The paid version stays in [versions.json], and its snapshot in place. *)
Definition safe (data : dict) (rt : string) (rid : pystr) (res : dict) (f content : pystr) (w : World) : Prop :=
  media w !! f = Some content
  /\ exists r', versions w = Some (put_resource data rt rid r') /\ forall n g, entry_in res n g -> entry_in r' n g.

Section safe.
Context (data : dict) (rt : string) (rid : pystr) (res : dict) (f content : pystr).
Abbreviation Safe := (safe data rt rid res f content).

Lemma safe_attempt change : (forall w, Safe w -> Safe (change w)) -> stable Safe (attempt change).
Proof.
  intros H w Hw. unfold attempt, then_, next_fault. destruct (faults w) as [|x l]; cbn; [by apply H|]. destruct x; cbn; [by apply H|done..].
Qed.
Lemma safe_put p c : f <> p -> stable Safe (put p c).
Proof. intros Hp. apply safe_attempt. intros w [Hf Hv]. split; [|done]. cbn. by rewrite lookup_insert_ne. Qed.
Lemma safe_unlink p : f <> p -> stable Safe (unlink p).
Proof. intros Hp. apply safe_attempt. intros w [Hf Hv]. split; [|done]. cbn. by rewrite lookup_delete_ne. Qed.
Lemma safe_save v : stable Safe (_save_versions (put_resource data rt rid (dict_set (u "current_version") v res))).
Proof.
  apply safe_attempt. intros w [Hf Hv]. split; [done|]. cbn. eexists. split; [done|]. intros n g Hg. by apply entry_set_other.
Qed.
Lemma safe_replace a b : f <> a -> f <> b -> stable Safe (os_replace a b).
Proof.
  intros Ha Hb. unfold os_replace. apply stable_then; [by intros w|]. intros w. destruct (media w !! a); [|by intros w'].
  apply safe_attempt. intros w' [Hf Hv]. split; [|done]. cbn. by rewrite lookup_insert_ne, lookup_delete_ne.
Qed.
Lemma safe_aside current existed : stable Safe (if existed : bool then do! c := copy_aside current in ret (Some c) else ret None).
Proof.
  destruct existed; [|apply stable_ret]. apply stable_then; [|intros; apply stable_ret]. unfold copy_aside. apply stable_then; [by intros w|].
  intros w. destruct (media w !! current); [|by intros w']. apply stable_then; [by apply safe_attempt|]. intros. apply stable_ret.
Qed.
Lemma safe_restore current existed b : f <> current -> stable Safe (restore_current current existed b).
Proof. intros H. unfold restore_current. destruct b; [by apply safe_put|]. destruct existed; [apply stable_ret|by apply safe_unlink]. Qed.

Lemma safe_select staged current h num : f <> staged -> f <> current -> stable Safe (select_paid rt rid staged current h data res num).
Proof.
  intros Hs Hc. unfold select_paid. apply stable_then; [by intros w|]. intros w.
  assert (forall existed b, stable Safe (all_quietly [restore_current current existed b;
    _save_versions (put_resource data rt rid (dict_set (u "current_version") (JInt (previous_version true res)) res))])) as Hundo
    by (intros; apply stable_all_quietly; constructor; [by apply safe_restore|constructor; [apply safe_save|constructor]]).
  apply stable_then; [apply stable_protect; [apply safe_aside|auto]|]. intros b. apply stable_protect; [|auto].
  apply stable_then; [by apply safe_replace|]. intros _. apply stable_then; [apply safe_save|]. intros _. apply stable_hook.
Qed.
End safe.
Lemma select_paid_Ok rt rid staged current h data res num w content x w' :
  media w !! staged = Some content -> select_paid rt rid staged current h data res num w = (Ok x, w') ->
  versions w' = Some (put_resource data rt rid (dict_set (u "current_version") (JInt num) res)) /\ media w' !! current = Some content.
Proof.
  intros Hs H. unfold select_paid in H. run_ok H. apply then_Ok in H as (b & w1 & H1%protect_Ok & H%protect_Ok).
  apply backup_Ok in H1 as (_ & M1 & _). apply then_Ok in H as (? & w2 & H2 & H). apply replace_Ok in H2 as (c & Hc & M2 & _).
  rewrite M1, Hs in Hc. injection Hc as <-. apply then_Ok in H as (? & w3 & H3 & H). apply attempt_Ok in H3 as (w4 & -> & M4 & _).
  apply hook_Ok in H as ->. split; [done|]. cbn. by rewrite M4, M2, lookup_insert_eq.
Qed.

Lemma undo_select_Ok w0 current b v w w' :
  settled (media w0) (current, bool_decide (is_Some (media w0 !! current)), b) ->
  (b = None -> is_Some (media w0 !! current) -> media w !! current = media w0 !! current) ->
  all_quietly [restore_current current (bool_decide (is_Some (media w0 !! current))) b; _save_versions v] w = (Ok true, w') ->
  versions w' = Some v /\ media w' !! current = media w0 !! current.
Proof.
  intros Hs Hb H. apply all_quietly_cons in H as (w1 & H1 & H). apply all_quietly_cons in H as (w2 & H2 & H).
  cbn in H. injection H as <-. apply attempt_Ok in H2 as (w3 & -> & M3 & _). split; [done|]. cbn. rewrite M3.
  apply (restore_current_Ok (media w0)) in H1 as (_ & _ & Hr); [|done]. destruct (Hr current) as [Hy Hn]. destruct b as [x|].
  - apply Hy. by split.
  - destruct (bool_decide _) eqn:E in Hy, Hn.
    + to_prop. rewrite Hn by (right; by intros [_ ?]). auto.
    + apply Hy. by split.
Qed.

Lemma select_paid_Raise rt rid staged current h data res num w e w' :
  outside current -> select_paid rt rid staged current h data res num w = (Raise e, w') -> e <> RollbackIncomplete ->
  versions w' = Some (put_resource data rt rid (dict_set (u "current_version") (JInt (previous_version true res)) res))
  /\ media w' !! current = media w !! current.
Proof.
  intros Ho H Hne. unfold select_paid in H. unfold then_ at 1, read in H. cbv zeta in H. unfold then_ at 1 in H.
  set (existed := bool_decide _) in H. set (backup := if existed then _ else _) in H. destruct (protect backup _ w) as [[b|e1] w1] eqn:E1.
  - apply protect_Ok in E1. apply backup_Ok in E1 as (-> & M1 & _). unfold protect in H.
    destruct (then_ _ _ w1) as [[y|e2] w2]; [discriminate H|].
    destruct (all_quietly _ w2) as [[[]|] w3] eqn:E3; injection H as <- <-; try done. eapply undo_select_Ok in E3; [done| |].
    + unfold settled. cbn. destruct (media w !! current) eqn:E; [done|]. by rewrite bool_decide_eq_false_2 by (by intros [? ?]).
    + intros Hb [y Hy]. by rewrite Hb in Hy.
  - injection H as -> ->. unfold protect in E1. assert (frame [] w (backup w).2) as [F _] by apply framed_backup.
    destruct (backup w) as [[y|e2] w2] eqn:E2; [discriminate E1|].
    destruct (all_quietly _ w2) as [[[]|] w3] eqn:E3; injection E1 as <- <-; try done. eapply undo_select_Ok in E3; [done| |].
    + unfold settled. cbn. case_bool_decide as Hx; [done|]. by apply eq_None_not_Some.
    + intros _ _. by apply F; [|apply not_elem_of_nil].
Qed.
(** The errors of the files and of the data, and of the checks of a call. *)
Definition own_error (e : exc) : bool :=
  match e with OSError | FileNotFoundError | AttributeError | TypeError | ValueError | RollbackIncomplete => true | _ => false end.
Definition raises_own {A} (m : io A) : Prop := forall w e w', m w = (Raise e, w') -> own_error e = true.
Definition errs_own {A} (r : result A) : Prop := forall e, r = Raise e -> own_error e = true.

Lemma own_then {A B} (m : io A) (k : A -> io B) : raises_own m -> (forall a, raises_own (k a)) -> raises_own (then_ m k).
Proof.
  intros Hm Hk w e w' H. unfold then_ in H. destruct (m w) as [[a|e'] w1] eqn:E; [by eapply Hk|]. injection H as -> ->. by eapply Hm.
Qed.
Lemma own_lift {A} (r : result A) : errs_own r -> raises_own (lift r).
Proof. intros Hr w e w' H. unfold lift in H. injection H as -> <-. by apply Hr. Qed.
Lemma own_ret {A} (a : A) : raises_own (ret a).
Proof. intros w e w' [=]. Qed.
Lemma own_attempt change : raises_own (attempt change).
Proof.
  intros w e w' H. unfold attempt, then_, next_fault in H. destruct (faults w) as [|[] l]; cbn in H; try discriminate H; by injection H as <- _.
Qed.
Lemma own_copy2 a b : raises_own (copy2 a b).
Proof.
  unfold copy2. apply own_then; [intros w e w' [=]|]. intros w. destruct (media w !! a); [|apply own_lift; by intros e [= <-]].
  apply own_then; [intros w1 e w' H; unfold next_fault in H; by destruct (faults w1)|]. intros [] w1 e w' H; [discriminate H|..]; by injection H as <- _.
Qed.

Lemma own_records res : errs_own (records_of res).
Proof. intros e H. unfold records_of in H. repeat case_hyp; try discriminate H; by injection H as <-. Qed.
Lemma own_numbers l : errs_own (numbers_of l).
Proof.
  induction l as [|x l IH]; intros e H; [discriminate H|]. cbn [numbers_of] in H. destruct (version_number x) as [n|e'] eqn:E.
  - cbn in H. destruct (numbers_of l) as [ns|e']; [discriminate H|]. by apply IH.
  - cbn in H. injection H as ->. unfold version_number in E. repeat case_hyp; try discriminate E; by injection E as <-.
Qed.
Lemma own_next l : errs_own (next_version l).
Proof. intros e H. unfold next_version in H. destruct (numbers_of l) eqn:E; [discriminate H|]. cbn in H. injection H as ->. by eapply own_numbers. Qed.
Lemma own_append sel clamp rt rid source prompt meta res : raises_own (append_version stamp iso sel clamp rt rid source prompt meta res).
Proof.
  unfold append_version. apply own_then; [apply own_lift, own_records|]. intros l. apply own_then; [apply own_lift, own_next|]. intros num.
  apply own_then; [intros w e w' [=]|]. intros t. apply own_then; [apply own_copy2|]. intros _. apply own_then; [intros w e w' [=]|]. intros _.
  apply own_then; [intros w e w' [=]|]. intros. apply own_ret.
Qed.
Lemma own_record_paid rt rid prompt staged current meta data res :
  raises_own (record_paid float_true stamp iso rt rid prompt staged current meta data res).
Proof.
  unfold record_paid. apply own_then; [intros w e w' [=]|]. intros w. apply own_then.
  - case_goal; [|apply own_ret]. apply own_then; [apply own_append|]. intros. apply own_ret.
  - intros res1. apply own_then; [apply own_append|]. intros r. apply own_then; [apply own_attempt|]. intros. apply own_ret.
Qed.
Lemma own_resource data rt rid : errs_own (resource_of data rt rid).
Proof.
  assert (forall k d0 d, errs_own (child k d0 d)) as Hc.
  { intros k d0 d e H. unfold child in H. repeat case_hyp; try discriminate H; by injection H as <-. }
  intros e H. unfold resource_of in H. destruct (child (u rt) [] data) as [b|e'] eqn:E; cbn [bind] in H; [by eapply Hc|].
  injection H as ->. by eapply Hc.
Qed.

(** The first part, when it fails. *)
Lemma record_paid_undone rt rid prompt staged current meta data res w0 w e w' :
  created w = [] -> protect (record_paid float_true stamp iso rt rid prompt staged current meta data res) (undo_history (versions w0) staged) w = (Raise e, w') ->
  own_error e = true /\ (e <> RollbackIncomplete -> versions w' = versions w0 /\ forall p, outside p -> p <> staged -> media w' !! p = media w !! p).
Proof.
  intros Hcr H. unfold protect in H. assert (framed [] (record_paid float_true stamp iso rt rid prompt staged current meta data res)) as Hf.
  { unfold record_paid. apply framed_then; [apply framed_read|]. intros w1. apply framed_then; [case_goal; framed_body|]. intros. framed_body. }
  specialize (Hf w) as [F C]. destruct (record_paid _ _ _ _ _ _ _ _ _ _ _ w) as [[x|e1] w1] eqn:E1; [discriminate H|]. cbn in F, C.
  apply own_record_paid in E1. destruct (undo_history _ _ w1 w1) as [[[]|] w2] eqn:E2; injection H as <- <-; try done. split; [done|]. intros _.
  unfold undo_history in E2. apply all_quietly_cons in E2 as (w3 & E3 & E2). apply attempt_Ok in E3 as (w4 & -> & M4 & _).
  apply (unlink_all_Ok [staged]) in E2 as [V2 M2].
  - split; [by rewrite V2|]. intros p Hp Hn. rewrite M2 by (done || by rewrite list_elem_of_singleton). cbn. rewrite M4. apply F; [done|].
    apply not_elem_of_nil.
  - apply Forall_app. split; [|constructor; [left; by apply list_elem_of_singleton|constructor]]. eapply Forall_impl; [apply C; by rewrite Hcr|].
    by right.
Qed.
Lemma finally_inv {A} staged (m : io A) w r w' :
  finally_unlink staged m w = (r, w') -> exists w2, m w = (r, w2) /\ versions w' = versions w2 /\ forall p, p <> staged -> media w' !! p = media w2 !! p.
Proof.
  unfold finally_unlink. destruct (m w) as [r1 w2]. destruct (quietly (unlink staged) w2) as [q w3] eqn:E. intros H. injection H as <- <-. exists w2.
  split; [done|]. unfold quietly, unlink, attempt, then_, next_fault in E. destruct (faults w2) as [|[] l]; cbn in E; injection E as _ <-; cbn;
    (split; [done|]); intros p Hp; by rewrite ?lookup_delete_ne by done.
Qed.

(** Version [num] of [res] is the paid content, and nothing has left. *)
Definition paid_version (w w' : World) (rt : string) (rid staged : pystr) (num : Z) (res : dict) : Prop :=
  holds (versions w') rt rid res
  /\ (exists content, media w !! staged = Some content /\ kept res num content w')
  /\ forall n g, in_history (versions w) rt rid n g -> (n < num)%Z /\ entry_in res n g.

(** What a commit of a paid result may leave behind. *)
Definition paid_outcome (rt : string) (rid staged current : pystr) (w : World) (r : result PaidVersionCommit) (w' : World) : Prop :=
  match r with
  | Ok p =>
      exists res, paid_version w w' rt rid staged (version p) res
      /\ if selected p then pointer res = Some (JInt (version p)) /\ media w' !! current = media w !! staged
         else media w' !! current = media w !! current /\ forall r0, holds (versions w) rt rid r0 -> same_pointer r0 res
  | Raise e =>
      e <> RollbackIncomplete -> media w' !! current = media w !! current
      /\ ((versions w' = versions w /\ own_error e = true)
         \/ exists num res, paid_version w w' rt rid staged num res /\ forall r0, holds (versions w) rt rid r0 -> same_pointer r0 res)
  end.

Lemma paid_outcome_early rt rid staged current w e w1 r w' :
  own_error e = true -> media w1 = media w -> versions w1 = versions w -> (Raise e, w1) = (r, w') -> paid_outcome rt rid staged current w r w'.
Proof. intros He Hm Hv E. injection E as <- <-. intros _. split; [by rewrite Hm|]. by left. Qed.

Lemma holds_fun v rt rid r r' : holds v rt rid r -> holds v rt rid r' -> r = r'.
Proof. intros (d & b & -> & Hb & Hr) (d' & b' & [= <-] & Hb' & Hr'). congruence. Qed.

(** The second part: [w] is the state before the call, [w1] after the first. *)
Section second.
Context (rt : string) (rid staged current : pystr) (w w1 : World) (data res0 res : dict) (num : Z) (content : pystr).
Context (Hos : outside staged) (Hoc : outside current) (Hsc : staged <> current) (Hst : media w !! staged = Some content).
Context (Hv : versions w1 = Some (put_resource data rt rid res)) (Hk : kept res num content w1) (Ho : forall p, outside p -> media w1 !! p = media w !! p).
Context (Hold : forall n g, in_history (versions w) rt rid n g -> (n < num)%Z /\ entry_in res n g).
Context (Hp : forall r0, holds (versions w) rt rid r0 -> same_pointer r0 res).

Lemma paid_set_pointer v w2 w' :
  (forall f, ~ outside f -> safe data rt rid res f content w1 -> safe data rt rid res f content w2) ->
  versions w2 = Some (put_resource data rt rid (dict_set (u "current_version") v res)) ->
  versions w' = versions w2 -> (forall p, p <> staged -> media w' !! p = media w2 !! p) ->
  paid_version w w' rt rid staged num (dict_set (u "current_version") v res).
Proof.
  intros Hsafe V2 V' M'. destruct Hk as (f & He & Hin & Hf). destruct (Hsafe f Hin) as [Hf2 _]; [split; [done|]; by exists res|].
  split; [rewrite V', V2; apply holds_put|]. split.
  - exists content. split; [done|]. exists f. split; [by apply entry_set_other|]. split; [done|]. rewrite M' by (by intros ->). done.
  - intros n g [? ?]%Hold. split; [done|]. by apply entry_set_other.
Qed.

Lemma paid_unselected w2 :
  versions w2 = versions w1 -> (forall p, p <> staged -> media w2 !! p = media w1 !! p) -> paid_version w w2 rt rid staged num res.
Proof.
  intros V M. split; [rewrite V, Hv; apply holds_put|]. split; [|done]. exists content. split; [done|]. destruct Hk as (f & He & Hin & Hf).
  exists f. split; [done|]. split; [done|]. by rewrite M by (by intros ->).
Qed.

Lemma second_selected h r w2 :
  finally_unlink staged (do! _ := select_paid rt rid staged current h data res num in ret (mkPaid num true)) w1 = (r, w2) ->
  match r with
  | Ok p => p = mkPaid num true /\ exists r', paid_version w w2 rt rid staged num r' /\ pointer r' = Some (JInt num) /\ media w2 !! current = Some content
  | Raise e => e <> RollbackIncomplete -> media w2 !! current = media w !! current /\
      exists r', paid_version w w2 rt rid staged num r' /\ forall r0, holds (versions w) rt rid r0 -> same_pointer r0 r'
  end.
Proof.
  intros (w3 & H & V & M)%finally_inv. assert (forall f, ~ outside f -> safe data rt rid res f content w1 -> safe data rt rid res f content
    (select_paid rt rid staged current h data res num w1).2) as Hsafe
    by (intros f Hif; apply safe_select; by intros ->).
  destruct (select_paid _ _ _ _ _ _ _ _ w1) as [[[]|e] w4] eqn:E; unfold then_ in H; rewrite E in H; cbn [snd] in Hsafe.
  - unfold ret in H. injection H as <- <-. split; [done|]. eapply select_paid_Ok in E as [V4 M4]; [|by rewrite Ho]. eexists.
    split; [by eapply paid_set_pointer|]. split; [apply dict_get_set_eq|]. by rewrite M.
  - injection H as <- <-. intros Hne. eapply select_paid_Raise in E as [V4 M4]; [|done..]. split; [rewrite M, M4, Ho; done|]. eexists.
    split; [by eapply paid_set_pointer|]. intros r0 Hr0 z Hz Hpos. unfold pointer. rewrite dict_get_set_eq.
    pose proof (Hp r0 Hr0 z Hz Hpos) as Hz'. unfold pointer in Hz'. unfold previous_version. rewrite Hz'. by destruct (Z.ltb_spec z 0); [lia|].
Qed.

Lemma second_part sel expected submitted h r w2 :
  match should_select sel expected submitted with
  | Raise e => finally_unlink staged (lift (Raise e))
  | Ok false => finally_unlink staged (ret (mkPaid num false))
  | Ok true => finally_unlink staged (do! _ := select_paid rt rid staged current h data res num in ret (mkPaid num true))
  end w1 = (r, w2) ->
  paid_outcome rt rid staged current w r w2.
Proof.
  destruct (should_select _ _ _) as [[]|e]; intros H.
  - apply second_selected in H. destruct r as [p|e].
    + destruct H as (-> & r' & Hpv & Hptr & Hc). exists r'. split; [done|]. cbn. by rewrite Hst.
    + intros Hne. destruct (H Hne) as (Hc & r' & Hpv & Hsame). split; [done|]. right. by exists num, r'.
  - apply finally_inv in H as (w3 & H & V & M). unfold ret in H. injection H as <- <-. exists res. split; [by apply paid_unselected|]. cbn.
    by rewrite M, Ho.
  - apply finally_inv in H as (w3 & H & V & M). unfold lift in H. injection H as <- <-. intros _. split; [by rewrite M, Ho|]. right. exists num, res.
    split; [by apply paid_unselected|done].
Qed.
End second.
End paid.

(** The calls that promise to undo what they did, and the files they consume. *)
Definition consumes (e : event) : option (list pystr) :=
  match e with
  | CommitStaged c _ => Some [sc_staged c]
  | CommitBatch batch _ => Some (map sc_staged batch)
  | RestoreVersion _ _ _ _ _ | RejectCurrent _ _ _ _ _ _ => Some []
  | _ => None
  end.

(** The formal files of a batch are none of its staged ones. *)
Definition apart (e : event) : Prop :=
  match e with
  | CommitBatch batch _ => Forall (fun c => outside (sc_current c) /\ sc_current c ∉ map sc_staged batch) batch
  | _ => True
  end.

Lemma forget_Raise {A} (m : io A) w e w' : forget m w = (Raise e, w') -> m w = (Raise e, w').
Proof. unfold forget, then_. destruct (m w) as [[a|e'] w1]; [discriminate|]. intros H. by injection H as -> ->. Qed.

Section theorems.
Context (float_true : pystr -> bool) (float_pos : pystr -> bool) (float_eq : json -> json -> bool).
Context (py_repr : json -> pystr) (stamp iso : nat -> pystr) (project_name : pystr).

(** C30: A commit of one staged file or of a batch, a restoration or a rejection that
    raises leaves [versions.json] and every file outside [versions/] as they
    were, the staged files it was given apart, wherever it has failed: a copy, a
    rename, the write of [versions.json], the hook of the caller.  The one
    exception is reported as such: a rollback that has failed itself. *)
Theorem failed_call_undone e S w exn w' :
  consumes e = Some S -> apart e ->
  run_event float_true float_pos float_eq py_repr stamp iso project_name e w = (Raise exn, w') -> exn <> RollbackIncomplete ->
  versions w' = versions w /\ forall p, outside p -> p ∉ S -> media w' !! p = media w !! p.
Proof.
  intros HS Ha H Hne. destruct e; cbn [consumes] in HS; try discriminate HS; injection HS as <-; cbn [run_event] in H; apply forget_Raise in H.
  - exact (atomic_commit _ _ _ _ _ _ _ _ _ _ _ _ _ H Hne).
  - exact (atomic_batch _ _ _ _ _ _ Ha _ _ H Hne).
  - exact (atomic_restore _ _ _ _ _ _ _ _ _ _ H Hne).
  - exact (atomic_reject _ _ _ _ _ _ _ _ _ _ H Hne).
Qed.

Context (stamp_length : forall n, length (stamp n) = 15).

(** A commit of a staged file that returns has put it in force: its number
    is greater than all of the resource before it, it is the selected version, its
    snapshot and the formal file hold the staged content, the staged file is
    gone, no earlier version has left the history, and the records of the other
    resources are as they were.  A formal file that no version stood for is in
    the history now. *)
Theorem commit_activates rt rid prompt staged current h meta w num w' :
  outside staged -> outside current -> staged <> current -> clean meta ->
  commit_staged_version float_true stamp iso rt rid prompt staged current h meta w = (Ok num, w') ->
  exists content f res,
    media w !! staged = Some content /\ holds (versions w') rt rid res
    /\ dict_get (u "current_version") res = Some (JInt num) /\ entry_in res num f
    /\ media w' !! f = Some content /\ media w' !! current = Some content /\ media w' !! staged = None
    /\ (forall n g, in_history (versions w) rt rid n g -> (n < num)%Z /\ entry_in res n g)
    /\ (forall old, media w !! current = Some old -> (forall r, holds (versions w) rt rid r -> is_tracked float_true r = false) ->
        exists n g, (n < num)%Z /\ entry_in res n g /\ media w' !! g = Some old)
    /\ forall rt' rid' r, ~ (rt' = rt /\ rid' = rid) -> holds (versions w) rt' rid' r -> holds (versions w') rt' rid' r.
Proof.
  intros Hos Hoc Hsc Hclean H. unfold commit_staged_version in H. case_hyp; [discriminate H|]. to_prop. rename Heqb into Hsup. run_ok H.
  case_hyp; [discriminate H|]. apply then_Ok in H as ([] & w1 & Hb & H). unfold begin_call in Hb. injection Hb as <-.
  apply then_Ok in H as (data & w2 & Hl & H). pose proof Hl as Hl'. unfold _load_versions in Hl'. apply pair_equal_spec in Hl' as [_ <-]. run_ok H.
  destruct (load_resource _ _ _ _ _ Hl E) as (Hr & Hh & Hd). cbn [versions with_created] in Hr, Hh, Hd.
  apply then_Ok in H as (b & w2 & Hb%protect_Ok & H%protect_Ok). apply (backup_Ok current (with_created [] w)) in Hb as (_ & M2 & _ & V2).
  apply then_Ok in H as (res1 & w3 & Ht & H). apply track_effect in Ht as (V3 & Ht).
  apply then_Ok in H as ([n r] & w4 & Ha & H). apply append_effect in Ha as (V4 & c & k & Hc & M4 & He & Ho & Hcur); [|done].
  apply then_Ok in H as (? & w5 & Hp & H). apply replace_Ok in Hp as (c' & Hc' & M5 & V5).
  apply then_Ok in H as (? & w6 & Hs & H). apply attempt_Ok in Hs as (w7 & -> & M7 & _).
  apply then_Ok in H as (? & w8 & Hk & H). unfold ret in H. injection H as <- <-. apply hook_Ok in Hk. subst w8.
  cbn [versions media with_versions fst snd] in *. rewrite M7, M5 in *. clear M7 w7 V5 w5 M5.
  assert (media w3 !! staged = Some c') as Hst by (rewrite M4, lookup_insert_outside in Hc' by done; done).
  rewrite Hst in Hc. injection Hc as ->. set (f := snapshot_path rt rid n (stamp k)) in *.
  assert (f <> current /\ f <> staged) as [Hfc Hfs] by (split; intros <-; [by apply snapshot_inside in Hoc|by apply snapshot_inside in Hos]).
  assert (media w3 !! staged = media w !! staged) as Hst3.
  { destruct Ht as [(_ & _ & ->)|(n1 & old & k1 & _ & _ & M3 & _)]; rewrite ?M3, ?lookup_insert_outside by done; by rewrite M2. }
  exists c, f, r. split; [by rewrite <- Hst3|]. split; [apply holds_put|]. split; [done|]. split; [done|].
  split; [by rewrite lookup_insert_ne, lookup_delete_ne, M4, lookup_insert_eq by done|]. split; [apply lookup_insert_eq|].
  split; [by rewrite lookup_insert_ne, lookup_delete_eq by done|].
  assert (forall n' g, entry_in x n' g -> (n' < n)%Z /\ entry_in r n' g) as Hkeep.
  { intros n' g Hg. destruct Ht as [(_ & -> & _)|(n1 & old & k1 & _ & _ & _ & _ & Ho1)]; [by apply Ho|]. apply Ho1 in Hg as [Hlt Hg].
    apply Ho in Hg as [Hlt' Hg]. done. }
  split; [auto|]. split; [|intros; by apply holds_put_other; [|apply Hd]].
  intros old Hold Huntracked. destruct Ht as [(Hex & _ & _)|(n1 & old' & k1 & _ & Hold' & M3 & He1 & _)].
  - exfalso. rewrite bool_decide_eq_true_2 in Hex by (by exists old). assert (is_tracked float_true x = false) as Hn; [|by rewrite Hn in Hex].
    destruct Hr as [Hr|[-> _]]; [by apply Huntracked|reflexivity].
  - rewrite M2 in Hold'. cbn in Hold'. rewrite Hold in Hold'. injection Hold' as <-. destruct (Ho _ _ He1) as [Hlt He2]. eexists _, _. split; [exact Hlt|].
    split; [exact He2|]. rewrite lookup_insert_ne, lookup_delete_ne by (intros E'; rewrite E' in *; by eapply snapshot_inside).
    rewrite M4, lookup_insert_ne, M3, lookup_insert_eq; [done|].
    intros (_ & _ & En)%snapshot_path_inj; [lia|done|done|by rewrite !stamp_length].
Qed.

End theorems.

(** ** The theorems at work *)

Definition demo_fails (e : event) (w : World) : World := (demo_run e w).2.

Lemma failed_call_undone_witness :
  (demo_run (CommitStaged demo_commit (Some (Raise KeyError))) demo_world).1 = Raise KeyError
  /\ versions (demo_fails (CommitStaged demo_commit (Some (Raise KeyError))) demo_world) = None
  /\ media (demo_fails (CommitStaged demo_commit (Some (Raise KeyError))) demo_world) !! demo_formal = Some (u "old").
Proof.
  split; [vm_compute; reflexivity|].
  destruct (failed_call_undone (fun _ => true) (fun _ => true) (fun _ _ => false) (fun _ => []) demo_stamp demo_iso (u "p")
    (CommitStaged demo_commit (Some (Raise KeyError))) [demo_staged] demo_world KeyError
    (demo_fails (CommitStaged demo_commit (Some (Raise KeyError))) demo_world) eq_refl I) as [V M].
  - vm_compute. reflexivity.
  - discriminate.
  - split; [exact V|]. rewrite M; [reflexivity|apply outside_decide; vm_compute; reflexivity|].
    apply (bool_decide_unpack _). vm_compute. exact I.
Defined.

Lemma commit_activates_witness :
  let r := commit_staged_version (fun _ => true) demo_stamp demo_iso "videos" (u "s1") (u "a cat") demo_staged demo_formal None [] demo_world in
  r.1 = Ok 2%Z /\ exists res f, holds (versions r.2) "videos" (u "s1") res /\ entry_in res 2 f
    /\ media r.2 !! f = Some (u "new") /\ media r.2 !! demo_formal = Some (u "new")
    /\ exists n g, (n < 2)%Z /\ entry_in res n g /\ media r.2 !! g = Some (u "old").
Proof.
  intros r. assert (r.1 = Ok 2%Z) as Hr by (vm_compute; reflexivity). split; [exact Hr|].
  destruct (commit_activates (fun _ => true) demo_stamp demo_iso demo_stamp_length
    "videos" (u "s1") (u "a cat") demo_staged demo_formal None [] demo_world 2 r.2) as (c & f & res & H1 & H2 & _ & H4 & H5 & H6 & _ & _ & H9 & _).
  - apply outside_decide. vm_compute. reflexivity.
  - apply outside_decide. vm_compute. reflexivity.
  - apply (bool_decide_unpack _). vm_compute. exact I.
  - constructor.
  - rewrite <- Hr. unfold r. apply surjective_pairing.
  - assert (media demo_world !! demo_staged = Some (u "new")) as H1' by (vm_compute; reflexivity). rewrite H1' in H1. injection H1 as <-.
    exists res, f. split; [exact H2|]. split; [exact H4|]. split; [exact H5|]. split; [exact H6|]. apply H9; [vm_compute; reflexivity|].
    intros x (d & b & Hd & _). discriminate Hd.
Defined.

