(* ===== verification/VersionRename.v ===== *)
(** * Moving the version history of an asset to a new name

    [VersionManager.rename_resource] of [lib/version_manager.py].  The snapshots
    are renamed one by one before [versions.json] is written, so a failure
    leaves some of them moved; the theorem is that running the call again
    finishes the work.  [nfc] is the Unicode normal form. *)

From S2P Require Import Prelude Json Assets AssetRename ScriptReview VersionManager VersionHistory VersionAtomic.

Section rename.
Context (nfc : pystr -> pystr).

(** [for v in record.get("versions", [])], of which only objects count. *)
Definition rename_items (res : dict) : result (list json) :=
  match dict_get (u "versions") res with
  | None => Ok []
  | Some (JArr l) => Ok l
  | Some (JStr _) | Some (JObj _) => Ok []
  | Some _ => Raise TypeError
  end.

(** The snapshot of a record that has one. *)
Definition record_file (item : json) : option pystr :=
  match item with
  | JObj m => match dict_get (u "file") m with Some (JStr f) => Some f | _ => None end
  | _ => None
  end.

(** [PurePosixPath(file.replace("\\", "/")).name] in normal form. *)
Definition snapshot_name (f : pystr) : pystr :=
  nfc (AssetRename.path_name (AssetRename.parse_path (map (fun c => if (c =? 92)%N then 47%N else c) f))).

(** The new path, for a snapshot that is named after the old id. *)
Definition renamed_file (rt : string) (old_id new_id f : pystr) : option pystr :=
  let prefix := nfc old_id ++ u "_v" in
  let name := snapshot_name f in
  if bool_decide (take (length prefix) name = prefix)
  then Some (u "versions/" ++ u rt ++ u "/" ++ new_id ++ u "_v" ++ drop (length prefix) name)
  else None.

Definition set_file (item : json) (f : pystr) : json :=
  match item with JObj m => JObj (dict_set (u "file") (JStr f) m) | _ => item end.

(** The loop over the records. *)
Fixpoint rename_records (rt : string) (old_id new_id : pystr) (items : list json) : io (list json) :=
  match items with
  | [] => ret []
  | x :: rest =>
      match record_file x with
      | Some f =>
          match renamed_file rt old_id new_id f with
          | Some dst =>
              do! w := read in
              do! _ := (if bool_decide (is_Some (media w !! f)) then os_replace f dst else ret tt) in
              do! rest := rename_records rt old_id new_id rest in
              ret (set_file x dst :: rest)
          | None => do! rest := rename_records rt old_id new_id rest in ret (x :: rest)
          end
      | None => do! rest := rename_records rt old_id new_id rest in ret (x :: rest)
      end
  end.

Definition rename_resource (rt : string) (old_id new_id : pystr) (dry_run : bool) : io nat :=
  if negb (supported_type rt) then lift (Raise ValueError)
  else
    do! data := _load_versions in
    match dict_get (u rt) data with
    | Some (JObj bucket) =>
        match Assets.resolve_asset_key nfc (Some (JObj bucket)) old_id with
        | Some key =>
            match dict_get key bucket with
            | Some (JObj res) =>
                if match Assets.resolve_asset_key nfc (Some (JObj bucket)) new_id with
                   | Some other => negb (bool_decide (other = key)) | None => false end
                then lift (Raise (AssetRenameHistoryCollisionError new_id))
                else
                  do! items := lift (rename_items res) in
                  let count := length (omap record_file items) in
                  if dry_run then ret count
                  else
                    do! items := rename_records rt old_id new_id items in
                    let res := match dict_get (u "versions") res with Some (JArr _) => dict_set (u "versions") (JArr items) res | _ => res end in
                    let bucket := dict_set key (JObj res) bucket in
                    let bucket := match Assets.rekey_equivalent_entries nfc bucket old_id new_id with Some (b, _) => b | None => bucket end in
                    do! _ := _save_versions (dict_set (u rt) (JObj bucket) data) in
                    ret count
            | _ => ret 0
            end
        | None => ret 0
        end
    | _ => ret 0
    end.
End rename.

(** ** The name of a snapshot *)

Lemma split_slash_end a word : 47%N ∉ a -> AssetRename.split_slash a word = [reverse word ++ a].
Proof.
  revert word. induction a as [|c a IH]; intros word H; cbn [AssetRename.split_slash]; [by rewrite app_nil_r|].
  destruct (N.eqb_spec c 47) as [->|_]; [set_solver|]. rewrite IH by set_solver. by rewrite reverse_cons, <- app_assoc.
Qed.
Lemma split_slash_step a b word : 47%N ∉ a -> AssetRename.split_slash (a ++ 47%N :: b) word = (reverse word ++ a) :: AssetRename.split_slash b [].
Proof.
  revert word. induction a as [|c a IH]; intros word H; cbn [app AssetRename.split_slash]; [by rewrite app_nil_r|].
  destruct (N.eqb_spec c 47) as [->|_]; [set_solver|]. rewrite IH by set_solver. by rewrite reverse_cons, <- app_assoc.
Qed.

Lemma path_name_snapshot rt name :
  47%N ∉ u rt -> 47%N ∉ name -> name <> [] -> name <> u "." ->
  AssetRename.path_name (AssetRename.parse_path (u "versions/" ++ u rt ++ u "/" ++ name)) = name.
Proof.
  intros Hrt Hn Hne Hdot. unfold AssetRename.path_name, AssetRename.parse_path. cbn [p_parts].
  change (u "versions/") with (u "versions" ++ [47%N]). change (u "/") with [47%N]. rewrite <- !app_assoc. cbn [app].
  rewrite split_slash_step by (apply (bool_decide_unpack _); vm_compute; exact I). rewrite split_slash_step by done. rewrite split_slash_end by done.
  change (reverse [] ++ ?x) with x.
  match goal with |- context [List.filter ?p [?a; ?b; ?c]] => change [a; b; c] with ([a; b] ++ [c]) end. rewrite List.filter_app. cbn [List.filter].
  rewrite (bool_decide_eq_false_2 (name = [])), (bool_decide_eq_false_2 (name = u ".")) by done. cbn [negb andb]. by rewrite last_snoc.
Qed.

(** Characters of a file name that the normal form leaves alone. *)
Definition plain (c : N) : bool := (c <? 128)%N && negb (c =? 47)%N && negb (c =? 92)%N.

Lemma dumps_int_plain z : Forall plain (dumps_int z).
Proof.
  assert (forall d, Forall plain (uint_codes d)) as H by (induction d; cbn [uint_codes]; [constructor|..]; by constructor).
  unfold dumps_int. case_goal; unfold dumps_nat; auto; by constructor.
Qed.

Lemma extension_plain rt : Forall plain (u (extension_of rt)).
Proof.
  unfold extension_of. assert (Forall (fun kv : string * ResourcePattern => Forall plain (u (extension kv.2))) _PATTERNS) as H
    by (apply (bool_decide_unpack _); vm_compute; exact I).
  destruct (aget rt _PATTERNS) as [p|] eqn:E; [|apply (bool_decide_unpack _); vm_compute; exact I].
  apply aget_Some_elem in E. rewrite Forall_forall in H. exact (H _ E).
Qed.

(** What follows the id in the name of a snapshot. *)
Definition tail (rt : string) (n : Z) (t : pystr) : pystr := dumps_int n ++ u "_" ++ t ++ u (extension_of rt).

Lemma tail_plain rt n t : Forall plain t -> Forall plain (u "_v" ++ tail rt n t).
Proof.
  intros Ht. unfold tail. rewrite !Forall_app. split; [apply (bool_decide_unpack _); vm_compute; exact I|]. split; [apply dumps_int_plain|].
  split; [apply (bool_decide_unpack _); vm_compute; exact I|]. split; [done|apply extension_plain].
Qed.

Lemma snapshot_path_tail rt rid n t : snapshot_path rt rid n t = u "versions/" ++ u rt ++ u "/" ++ rid ++ u "_v" ++ tail rt n t.
Proof. reflexivity. Qed.

Lemma plain_no l c : Forall plain l -> plain c = false -> c ∉ l.
Proof. intros H Hc Hin. rewrite Forall_forall in H. specialize (H c Hin). by rewrite Hc in H. Qed.

Lemma no_backslash s : 92%N ∉ s -> map (fun c => if (c =? 92)%N then 47%N else c) s = s.
Proof.
  induction s as [|c s IH]; intros H; [done|]. cbn [map]. destruct (N.eqb_spec c 92) as [->|_]; [set_solver|]. f_equal. apply IH. set_solver.
Qed.

Lemma type_plain rt : supported_type rt = true -> Forall plain (u rt).
Proof.
  intros H%bool_decide_eq_true. assert (Forall (fun rt => Forall plain (u rt)) RESOURCE_TYPES) as Hall by (apply (bool_decide_unpack _); vm_compute; exact I).
  rewrite Forall_forall in Hall. by apply Hall.
Qed.

Section names.
Context (nfc : pystr -> pystr) (nfc_ascii : forall s t, Forall plain t -> nfc (s ++ t) = nfc s ++ t).

Lemma snapshot_name_eq rt key n t :
  supported_type rt = true -> 47%N ∉ key -> 92%N ∉ key -> Forall plain t ->
  snapshot_name nfc (snapshot_path rt key n t) = nfc key ++ u "_v" ++ tail rt n t.
Proof.
  intros Hrt H47 H92 Ht. pose proof (type_plain rt Hrt) as Hp. pose proof (tail_plain rt n t Ht) as Htail.
  unfold snapshot_name. rewrite snapshot_path_tail. rewrite no_backslash.
  - rewrite path_name_snapshot; [by apply nfc_ascii|by apply (plain_no (u rt))| |..];
      [|intros E%(f_equal length); rewrite !length_app in E; cbn in E; lia..].
    intros [?|Hin]%elem_of_app; [done|]. by apply (plain_no _ 47%N Htail) in Hin.
  - rewrite !elem_of_app. intros [Hin|[Hin|[Hin|[Hin|Hin]]]].
    + revert Hin. apply (bool_decide_unpack _). vm_compute. exact I.
    + revert Hin. by apply (plain_no _ _ Hp).
    + revert Hin. apply (bool_decide_unpack _). vm_compute. exact I.
    + done.
    + rewrite <- elem_of_app in Hin. revert Hin. by apply (plain_no _ _ Htail).
Qed.

Lemma renamed_snapshot rt old key new n t :
  supported_type rt = true -> 47%N ∉ key -> 92%N ∉ key -> Forall plain t -> nfc key = nfc old ->
  renamed_file nfc rt old new (snapshot_path rt key n t) = Some (snapshot_path rt new n t).
Proof.
  intros Hrt H47 H92 Ht Hk. unfold renamed_file. rewrite snapshot_name_eq by done. rewrite Hk, app_assoc.
  rewrite take_app_length, bool_decide_eq_true_2 by done. rewrite drop_app_length. by rewrite snapshot_path_tail.
Qed.
End names.

(** ** Moving the snapshots *)

Section moving.
Context (nfc : pystr -> pystr) (nfc_ascii : forall s t, Forall plain t -> nfc (s ++ t) = nfc s ++ t).
Context (rt : string) (old key new : pystr) (supported : supported_type rt = true) (differ : key <> new).
Context (no_slash : 47%N ∉ key) (no_backslash_in_key : 92%N ∉ key) (same_name : nfc key = nfc old).

Abbreviation from x := (snapshot_path rt key x.1 x.2).
Abbreviation to x := (snapshot_path rt new x.1 x.2).
Definition stamped (x : Z * pystr) : Prop := length x.2 = 15 /\ Forall plain x.2.

(** The records of the numbers and timestamps [L]. *)
Definition describes (item : json) (x : Z * pystr) : Prop :=
  exists m, item = JObj m /\ dict_get (u "file") m = Some (JStr (from x)) /\ stamped x.

(** How far the snapshots of [L] have come: each is where it was or at its new
    place, and nothing else has changed. *)
Definition partly (L : list (Z * pystr)) (m0 m : gmap pystr pystr) : Prop :=
  (forall p, p ∉ map (fun x => from x) L -> p ∉ map (fun x => to x) L -> m !! p = m0 !! p)
  /\ forall x, x ∈ L -> (m !! from x = m0 !! from x /\ m !! to x = m0 !! to x)
       \/ (is_Some (m0 !! from x) /\ m !! from x = None /\ m !! to x = m0 !! from x).

Lemma from_to x y : stamped x -> stamped y -> from x <> to y.
Proof. intros [Hx _] [Hy _] (_ & E & _)%snapshot_path_inj; [done|done|done|congruence]. Qed.

Lemma path_inj rid x y : stamped x -> stamped y -> snapshot_path rt rid x.1 x.2 = snapshot_path rt rid y.1 y.2 -> x = y.
Proof.
  intros [Hx _] [Hy _] H. pose proof H as (_ & _ & En)%snapshot_path_inj; [|done|done|congruence]. destruct x as [n t], y as [n' t']. cbn [fst snd] in *. subst n'.
  unfold snapshot_path in H. do 7 apply app_inv_head in H. by apply app_inv_tail in H as ->.
Qed.

Lemma partly_move L m0 m x c :
  Forall stamped L -> x ∈ L -> partly L m0 m -> m !! from x = Some c -> partly L m0 (<[to x := c]> (delete (from x) m)).
Proof.
  intros HL Hx [Hout Hin] Hc. rewrite Forall_forall in HL. split.
  - intros p Hf Ht. rewrite lookup_insert_ne, lookup_delete_ne; [by apply Hout|..]; intros <-; [apply Hf|apply Ht];
      by apply (list_elem_of_fmap_2 (fun x => snapshot_path rt _ x.1 x.2)).
  - intros y Hy. destruct (decide (y = x)) as [->|Hne].
    + right. destruct (Hin x Hx) as [[H1 _]|(_ & H2 & _)]; [|congruence]. rewrite <- H1, Hc. split; [done|].
      split; [|by rewrite lookup_insert_eq]. rewrite lookup_insert_ne, lookup_delete_eq; [done|]. apply not_eq_sym, from_to; auto.
    + rewrite !lookup_insert_ne, !lookup_delete_ne; [by apply Hin|..].
      * apply from_to; auto.
      * intros E%path_inj; [by subst|auto..].
      * intros E%path_inj; [by subst|auto..].
      * apply not_eq_sym, from_to; auto.
Qed.

Lemma partly_refl L m : partly L m m.
Proof. split; [done|]. intros x _. by left. Qed.

(** Once gone from its old place, a snapshot that existed is at the new one. *)
Lemma partly_done L m0 m x c : partly L m0 m -> x ∈ L -> m !! from x = None -> m0 !! from x = Some c -> m !! to x = Some c.
Proof. intros [_ Hin] Hx Hn Hc. destruct (Hin x Hx) as [[H _]|(_ & _ & ->)]; [congruence|done]. Qed.

Lemma replace_outcome a b w r w' : os_replace a b w = (r, w') ->
  versions w' = versions w /\ (faults w = [] -> is_Some (media w !! a) -> r = Ok tt /\ faults w' = [])
  /\ ((r = Ok tt /\ exists c, media w !! a = Some c /\ media w' = <[b := c]> (delete a (media w))) \/ ((exists e, r = Raise e) /\ media w' = media w)).
Proof.
  intros H. unfold os_replace, then_, read in H. destruct (media w !! a) as [c|].
  - unfold attempt, then_, next_fault in H. destruct (faults w) as [|[] l] eqn:E; injection H as <- <-; cbn; (split; [done|]); (split; [done|]).
    1-2: left; split; [done|]; by exists c.
    all: right; split; [by eexists|done].
  - unfold lift in H. injection H as <- <-. split; [done|]. split; [by intros _ [? ?]|]. right. split; [by eexists|done].
Qed.

(** The record of a moved snapshot. *)
Definition moved (item : json) (x : Z * pystr) : json := set_file item (to x).

Lemma move_one L m0 x w r w1 :
  Forall stamped L -> x ∈ L -> partly L m0 (media w) ->
  (if bool_decide (is_Some (media w !! from x)) then os_replace (from x) (to x) else ret tt) w = (r, w1) ->
  versions w1 = versions w /\ partly L m0 (media w1) /\ (faults w = [] -> r = Ok tt /\ faults w1 = [])
  /\ (r = Ok tt -> media w1 !! from x = None) /\ forall y, y ∈ L -> media w !! from y = None -> media w1 !! from y = None.
Proof.
  intros HL Hx Hp E1. case_bool_decide as Hex.
  - apply replace_outcome in E1 as (V & F & [(-> & c & Hc & Hm)|([e ->] & Hm)]).
    + split; [done|]. rewrite Hm. split; [by apply partly_move|]. split; [auto|]. rewrite Forall_forall in HL. split.
      * intros _. rewrite lookup_insert_ne, lookup_delete_eq; [done|]. apply not_eq_sym, from_to; auto.
      * intros y Hy Hn. rewrite lookup_insert_ne by (apply not_eq_sym, from_to; auto). apply lookup_delete_None. by right.
    + split; [done|]. rewrite Hm. split; [done|]. split; [auto|]. split; [discriminate|done].
  - unfold ret in E1. injection E1 as <- <-. split; [done|]. split; [done|]. split; [done|]. split; [|done]. intros _. by apply eq_None_not_Some.
Qed.

Lemma rename_records_spec L m0 items K w r w' :
  Forall stamped L -> Forall2 describes items K -> K ⊆ L -> partly L m0 (media w) ->
  rename_records nfc rt old new items w = (r, w') ->
  partly L m0 (media w') /\ versions w' = versions w
  /\ (forall x, x ∈ L -> media w !! from x = None -> media w' !! from x = None)
  /\ (forall items', r = Ok items' -> items' = zip_with moved items K /\ forall x, x ∈ K -> media w' !! from x = None)
  /\ (faults w = [] -> (exists items', r = Ok items') /\ faults w' = []).
Proof.
  intros HL Hd. revert w r w'. induction Hd as [|item x items K (m & -> & Hf & Hst) _ IH]; intros w r w' HK Hp H.
  - cbn in H. unfold ret in H. injection H as <- <-. split; [done|]. split; [done|]. split; [done|]. split; [|by eauto].
    intros items' [= <-]. split; [done|]. intros x Hx. by apply not_elem_of_nil in Hx.
  - cbn [rename_records] in H. unfold record_file in H. rewrite Hf in H. destruct Hst as [Hlen Hplain].
    rewrite (renamed_snapshot nfc nfc_ascii rt old key new) in H by done. unfold then_ at 1, read in H. unfold then_ at 1 in H.
    assert (x ∈ L) as HxL by (apply HK; left).
    destruct ((if bool_decide (is_Some (media w !! from x)) then os_replace (from x) (to x) else ret tt) w) as [r1 w1] eqn:E1.
    apply (move_one L m0) in E1 as (V1 & P1 & F1 & N1 & K1); [|done..].
    destruct r1 as [[]|e]; [|injection H as <- <-; split; [done|]; split; [done|]; split; [done|]; split; [discriminate|]; intros ?%F1; naive_solver].
    unfold then_ in H. destruct (rename_records _ _ _ _ items w1) as [r2 w2] eqn:E2.
    destruct (IH w1 r2 w2) as (P2 & V2 & K2 & D2 & F2); [set_solver|done|done|].
    assert (w' = w2 /\ (forall l, r = Ok l -> exists l', r2 = Ok l' /\ l = moved (JObj m) x :: l') /\ (forall l', r2 = Ok l' -> exists l, r = Ok l)) as (-> & R1 & R2).
    { destruct r2 as [l2|e]; unfold ret in H; injection H as <- <-; (split; [done|]); (split; [|by eauto]); [|discriminate].
      intros l [= <-]. by exists l2. }
    split; [done|]. split; [congruence|]. split; [auto|]. split.
    + intros l (l' & -> & ->)%R1. destruct (D2 l' eq_refl) as [-> Hk]. split; [done|]. intros y [->|Hy]%elem_of_cons; auto.
    + intros Hno. destruct (F1 Hno) as [_ F1']. destruct (F2 F1') as [[l' Hl'] ?]. split; [|done]. by eapply R2.
Qed.
End moving.

(** ** The bucket *)

Section bucket.
Context (nfc : pystr -> pystr).
Abbreviation resolve b name := (Assets.resolve_asset_key nfc (Some (JObj b)) name).

Lemma resolve_last b name :
  match resolve b name with
  | Some k => exists l v r, b = l ++ (k, v) :: r /\ nfc k = nfc name /\ Forall (fun kv : pystr * json => nfc kv.1 <> nfc name) r
  | None => Forall (fun kv : pystr * json => nfc kv.1 <> nfc name) b
  end.
Proof.
  unfold Assets.resolve_asset_key, Assets.normalize_asset_name. cbn [bucket_members]. induction b as [|[k v] b IH] using rev_ind; [constructor|].
  rewrite foldl_snoc. cbn [fst]. case_bool_decide as E; [by exists b, v, []|]. set (found := foldl _ _ b) in *.
  destruct found as [k0|].
  - destruct IH as (l & v0 & r & -> & Hk & Hr). exists l, v0, (r ++ [(k, v)]). split; [by rewrite <- app_assoc|]. split; [done|].
    apply Forall_app. by split; [|constructor].
  - apply Forall_app. by split; [|constructor].
Qed.

Lemma dict_set_at k v v' (l r : dict) : k ∉ l.*1 -> dict_set k v' (l ++ (k, v) :: r) = l ++ (k, v') :: r.
Proof.
  induction l as [|[k0 v0] l IH]; intros H; cbn [app dict_set].
  - by rewrite bool_decide_eq_true_2.
  - rewrite bool_decide_eq_false_2 by set_solver. rewrite IH; [done|set_solver].
Qed.

Lemma split_unique k v v1 (l r l' r1 : dict) : k ∉ l.*1 -> k ∉ r.*1 -> l ++ (k, v) :: r = l' ++ (k, v1) :: r1 -> r = r1.
Proof.
  intros Hl Hr. revert l'. induction l as [|[a b] l IH]; intros [|c l'] E; cbn [app] in E.
  - by injection E as _ ->.
  - injection E as <- E. exfalso. apply Hr. rewrite E, fmap_app, fmap_cons. set_solver.
  - injection E as -> -> E. exfalso. apply Hl. left.
  - injection E as _ E. apply (IH ltac:(set_solver) l' E).
Qed.

(** Under the new name lies the record that was under the resolved key. *)
Lemma rekey_moves b old new key v v' :
  NoDup b.*1 -> resolve b old = Some key -> dict_get key b = Some v -> (resolve b new = None \/ resolve b new = Some key) ->
  exists b', Assets.rekey_equivalent_entries nfc (dict_set key v' b) old new = Some (b', v') /\ dict_get new b' = Some v'
    /\ forall x, x <> new -> nfc x <> nfc old -> dict_get x b' = dict_get x b.
Proof.
  intros Hnd Hold Hv Hnew. pose proof (resolve_last b old) as H. rewrite Hold in H. destruct H as (l & v0 & r & -> & Hk & Hr).
  assert (key ∉ l.*1 /\ key ∉ r.*1) as [Hl Hr'] by (rewrite fmap_app, fmap_cons in Hnd; apply NoDup_app in Hnd as (_ & Hd & [? _]%NoDup_cons); set_solver).
  rewrite (dict_set_at key v0 v') by done. set (b1 := l ++ (key, v') :: r).
  assert (b1.*1 = (l ++ (key, v0) :: r).*1) as Hkeys by (unfold b1; by rewrite !fmap_app, !fmap_cons).
  assert (new ∉ r.*1) as Hnr.
  { intros Hin. pose proof (resolve_last (l ++ (key, v0) :: r) new) as H. apply list_elem_of_fmap in Hin as (kv & -> & Hin).
    destruct Hnew as [E|E]; rewrite E in H.
    - rewrite Forall_forall in H. apply (H kv); [|done]. set_solver.
    - destruct H as (l' & v1 & r1 & E1 & _ & Hr1). apply split_unique in E1 as ->; [|done..]. rewrite Forall_forall in Hr1. by apply (Hr1 kv). }
  set (f := fun kv : pystr * json => (if bool_decide (nfc kv.1 = nfc old) then new else kv.1, kv.2)).
  assert (map f r = r) as Hfr.
  { clear - Hr. induction Hr as [|[k w] r Hk _ IH]; [done|]. cbn [map]. rewrite IH. unfold f. cbn [fst snd] in *. by rewrite bool_decide_eq_false_2. }
  assert (dict_get new (dict_of_pairs (map f b1)) = Some v') as Hget.
  { unfold b1. rewrite map_app. cbn [map]. rewrite Hfr. unfold f at 2. cbn [fst snd]. rewrite bool_decide_eq_true_2 by done.
    by apply Assets.dict_of_pairs_last. }
  exists (dict_of_pairs (map f b1)). split; [|split; [done|]].
  - unfold Assets.rekey_equivalent_entries. pose proof (resolve_last b1 old) as H. destruct (resolve b1 old) as [k|].
    + unfold Assets.normalize_asset_name. fold f. by rewrite Hget.
    + exfalso. unfold b1 in H. rewrite Forall_app, Forall_cons in H. tauto.
  - intros x Hx Hne. unfold dict_of_pairs, f. rewrite Assets.rekeyed_others by (by rewrite ?Hkeys). unfold b1.
    rewrite <- (dict_set_at key v0 v'), dict_get_set_ne by (done || by intros ->). by destruct (dict_get x _).
Qed.
End bucket.

(** ** Running the rename until it returns *)

Section theorem.
Context (nfc : pystr -> pystr) (nfc_ascii : forall s t, Forall plain t -> nfc (s ++ t) = nfc s ++ t).
Context (rt : string) (old key new : pystr).
Abbreviation rename := (rename_resource nfc rt old new false).
Abbreviation from x := (snapshot_path rt key x.1 x.2).
Abbreviation to x := (snapshot_path rt new x.1 x.2).

(** A history that can be renamed: [key] stands for the old id, and its
    snapshots, those of the numbers and timestamps [K], are named after it. *)
Record renamable (w : World) (res : dict) (items : list json) (K : list (Z * pystr)) : Prop := {
  rn_supported : supported_type rt = true;
  rn_differ : key <> new;
  rn_name : 47%N ∉ key /\ 92%N ∉ key;
  rn_bucket : exists data bucket, versions w = Some data /\ dict_get (u rt) data = Some (JObj bucket) /\ NoDup bucket.*1
    /\ Assets.resolve_asset_key nfc (Some (JObj bucket)) old = Some key /\ dict_get key bucket = Some (JObj res)
    /\ (Assets.resolve_asset_key nfc (Some (JObj bucket)) new = None \/ Assets.resolve_asset_key nfc (Some (JObj bucket)) new = Some key);
  rn_items : dict_get (u "versions") res = Some (JArr items);
  rn_records : Forall2 (describes rt key) items K
}.

(** Some attempts, all of which have raised. *)
Inductive retried : World -> World -> Prop :=
| retried_none w : retried w w
| retried_again w w1 e w2 : retried w w1 -> rename w1 = (Raise e, w2) -> retried w w2.

Lemma renamable_same_name w res items K : renamable w res items K -> nfc key = nfc old.
Proof.
  intros [_ _ _ (data & b & _ & _ & _ & Hr & _) _ _]. pose proof (resolve_last nfc b old) as H. rewrite Hr in H. by destruct H as (? & ? & ? & _ & ? & _).
Qed.

Lemma describes_stamped items K : Forall2 (describes rt key) items K -> Forall stamped K.
Proof. induction 1 as [|? ? ? ? (m & _ & _ & ?)]; by constructor. Qed.

Lemma attempt_Raise change w e w' : attempt change w = (Raise e, w') -> media w' = media w /\ versions w' = versions w /\ faults w <> [].
Proof.
  unfold attempt, then_, next_fault. destruct (faults w) as [|[] l]; intros H; try discriminate H; injection H as _ <-; done.
Qed.

(** One attempt. *)
Lemma rename_attempt w0 w res items K r w' :
  renamable w res items K -> partly rt key new K (media w0) (media w) -> rename w = (r, w') ->
  partly rt key new K (media w0) (media w') /\ (faults w = [] -> r = Ok (length items))
  /\ match r with
     | Raise _ => versions w' = versions w
     | Ok count =>
         count = length items /\ (forall x, x ∈ K -> media w' !! from x = None)
         /\ holds (versions w') rt new (dict_set (u "versions") (JArr (zip_with (moved rt new) items K)) res)
         /\ forall rid r, rid <> new -> nfc rid <> nfc old -> holds (versions w) rt rid r -> holds (versions w') rt rid r
     end.
Proof.
  intros HR Hp H. pose proof (renamable_same_name _ _ _ _ HR) as Hsame. destruct HR as [Hs Hne [H47 H92] (data & b & Hv & Hb & Hnd & Hold & Hk & Hnew) Hi Hrec].
  unfold rename_resource in H. rewrite Hs in H. cbn [negb] in H. unfold then_ at 1, _load_versions in H. rewrite Hv in H.
  change (default ?x (Some data)) with data in H. rewrite Hb, Hold, Hk in H.
  assert (match Assets.resolve_asset_key nfc (Some (JObj b)) new with Some other => negb (bool_decide (other = key)) | None => false end = false) as Hc
    by (destruct Hnew as [-> | ->]; [done|by rewrite bool_decide_eq_true_2]).
  rewrite Hc in H. assert (rename_items res = Ok items) as Hri by (unfold rename_items; by rewrite Hi).
  rewrite Hri, Hi in H. unfold then_ at 1, lift in H. unfold then_ at 1 in H.
  assert (length (omap record_file items) = length items) as Hlen.
  { clear - Hrec. induction Hrec as [|item x items K (m & -> & Hf & _) _ IH]; [done|]. cbn [omap list_omap record_file]. rewrite Hf. cbn. by rewrite IH. }
  rewrite Hlen in H. destruct (rename_records nfc rt old new items w) as [r1 w1] eqn:E1.
  eapply (rename_records_spec nfc nfc_ascii rt old key new Hs Hne H47 H92 Hsame K (media w0) items K) in E1 as (P1 & V1 & _ & D1 & F1);
    [|by eapply describes_stamped|done|done|done].
  destruct r1 as [items'|e]; [|injection H as <- <-; split; [done|]; split; [intros [[? [=]] _]%F1|done]].
  destruct (D1 items' eq_refl) as [-> Hgone]. set (items' := zip_with _ items K) in *.
  destruct (rekey_moves nfc b old new key (JObj res) (JObj (dict_set (u "versions") (JArr items') res)) Hnd Hold Hk Hnew) as (b' & Erk & Hget & Hother).
  rewrite Erk in H. unfold then_ in H. destruct (_save_versions _ w1) as [[[]|e] w2] eqn:E2; unfold ret in H; injection H as <- <-.
  - apply attempt_Ok in E2 as (w3 & -> & M3 & _). cbn [media with_versions versions]. rewrite M3. split; [done|]. split; [done|]. split; [done|]. split; [done|].
    split; [eexists _, b'; by rewrite dict_get_set_eq|]. intros rid r Hrid Hn (d & bk & Hd & Hbk & Hr). eexists _, b'. rewrite dict_get_set_eq.
    rewrite Hv in Hd. injection Hd as <-. rewrite Hb in Hbk. injection Hbk as <-. by rewrite Hother.
  - apply attempt_Raise in E2 as (M2 & V2 & F2). rewrite M2, V2, V1. split; [done|]. split; [|done]. intros [_ Hf]%F1. by apply F2 in Hf.
Qed.

Lemma retried_partly w w1 res items K :
  renamable w res items K -> retried w w1 -> versions w1 = versions w /\ partly rt key new K (media w) (media w1).
Proof.
  intros HR Ht. induction Ht as [w|w w1 e w2 Ht IH Hf]; [split; [done|apply partly_refl]|]. destruct (IH HR) as [V P].
  eapply rename_attempt in Hf as (P' & _ & V'); [split; [congruence|exact P']| |exact P]. destruct HR; split; try done. by rewrite V.
Qed.

(** Renaming an asset moves its whole version history, if need be in several
    attempts: whatever attempts have failed half way, with some snapshots moved
    and [versions.json] unwritten, the next one that meets no failure returns,
    and the next one that returns has put the record under the new name with every
    file rewritten, every snapshot that existed at its new place with the
    content it had before the first attempt and no longer at the old one, every other
    file untouched, and the other resources as they were.  [nfc] leaves plain
    ASCII at the end of a string alone. *)
Theorem rename_completes w w1 res items K :
  renamable w res items K -> retried w w1 ->
  (faults w1 = [] -> exists w2, rename w1 = (Ok (length items), w2))
  /\ forall count w2, rename w1 = (Ok count, w2) ->
     count = length items
     /\ holds (versions w2) rt new (dict_set (u "versions") (JArr (zip_with (moved rt new) items K)) res)
     /\ (forall x c, x ∈ K -> media w !! from x = Some c -> media w2 !! to x = Some c /\ media w2 !! from x = None)
     /\ (forall p, p ∉ map (fun x => from x) K -> p ∉ map (fun x => to x) K -> media w2 !! p = media w !! p)
     /\ forall rid r, rid <> new -> nfc rid <> nfc old -> holds (versions w) rt rid r -> holds (versions w2) rt rid r.
Proof.
  intros HR Ht. destruct (retried_partly _ _ _ _ _ HR Ht) as [V P]. assert (renamable w1 res items K) as HR1 by (destruct HR; split; try done; by rewrite V).
  split.
  - intros Hf. destruct (rename w1) as [r w2] eqn:E. eapply rename_attempt in E as (_ & Hr & _); [|exact HR1|exact P]. rewrite (Hr Hf). by exists w2.
  - intros count w2 E. eapply rename_attempt in E as (P2 & _ & -> & Hgone & Hh & Ho); [|exact HR1|exact P]. split; [done|]. split; [done|]. split.
    + intros x c Hx Hc. split; [|auto]. eapply partly_done; eauto.
    + split; [apply P2|]. intros rid r Hr Hn Hold. apply Ho; [done..|]. by rewrite V.
Qed.
End theorem.

(** ** A rename that breaks after the first snapshot *)

Definition demo_record (n : Z) : json :=
  JObj [(u "version", JInt n); (u "file", JStr (snapshot_path "characters" (u "cat") n (demo_stamp 0)))].
Definition demo_items : list json := [demo_record 1; demo_record 2].
Definition demo_history : dict := [(u "current_version", JInt 2); (u "versions", JArr demo_items)].
Definition demo_files : list (Z * pystr) := [(1%Z, demo_stamp 0); (2%Z, demo_stamp 0)].
Definition demo_project_world : World :=
  mkWorld (<[snapshot_path "characters" (u "cat") 1 (demo_stamp 0) := u "one"]> (<[snapshot_path "characters" (u "cat") 2 (demo_stamp 0) := u "two"]> ∅))
    (Some [(u "characters", JObj [(u "cat", JObj demo_history)])]) [Fine; Breaks] 0 [].
Definition demo_broken : World := (rename_resource id "characters" (u "cat") (u "dog") false demo_project_world).2.

Lemma demo_renamable : renamable id "characters" (u "cat") (u "cat") (u "dog") demo_project_world demo_history demo_items demo_files.
Proof.
  split.
  - reflexivity.
  - discriminate.
  - split; apply (bool_decide_unpack _); vm_compute; exact I.
  - eexists _, _. split; [reflexivity|]. split; [reflexivity|]. split; [apply NoDup_singleton|]. split; [vm_compute; reflexivity|].
    split; [reflexivity|]. left. vm_compute. reflexivity.
  - reflexivity.
  - repeat constructor; (eexists; split; [reflexivity|]; split; [reflexivity|]; split; [reflexivity|]);
      apply (bool_decide_unpack _); vm_compute; exact I.
Qed.

Lemma rename_completes_witness :
  media demo_broken !! snapshot_path "characters" (u "cat") 1 (demo_stamp 0) = None
  /\ versions demo_broken = versions demo_project_world
  /\ exists w2, rename_resource id "characters" (u "cat") (u "dog") false demo_broken = (Ok 2, w2)
     /\ media w2 !! snapshot_path "characters" (u "dog") 1 (demo_stamp 0) = Some (u "one")
     /\ media w2 !! snapshot_path "characters" (u "dog") 2 (demo_stamp 0) = Some (u "two").
Proof.
  split; [vm_compute; reflexivity|]. split; [vm_compute; reflexivity|].
  destruct (rename_completes id (fun s t _ => eq_refl) "characters" (u "cat") (u "cat") (u "dog") demo_project_world demo_broken
    demo_history demo_items demo_files demo_renamable) as [Hret Hdone].
  - apply (retried_again id "characters" (u "cat") (u "dog") demo_project_world demo_project_world OSError); [constructor|]. vm_compute. reflexivity.
  - destruct Hret as [w2 E]; [vm_compute; reflexivity|]. exists w2. split; [exact E|]. destruct (Hdone _ _ E) as (_ & _ & Hm & _).
    split; [apply (Hm (1%Z, demo_stamp 0) (u "one"))|apply (Hm (2%Z, demo_stamp 0) (u "two"))].
    + left.
    + vm_compute. reflexivity.
    + right. left.
    + vm_compute. reflexivity.
Defined.
