(* ===== verification/Codec.v ===== *)
(** * Bytes, base64 and indented JSON

    What the artifact manifest uses of Python's codecs: [str.encode] and
    [bytes.decode] for UTF-8, [base64.urlsafe_b64encode] and [b64decode], and
    [json.dumps] with [indent=2].  A byte is a number below 256. *)

From S2P Require Import Prelude Json.

(** ** UTF-8 *)

Definition is_scalar (c : N) : bool := (((c <? 0xd800) || (0xdfff <? c)) && (c <? 0x110000))%N.

Definition utf8_char (c : N) : list N :=
  (if c <? 0x80 then [c]
   else if c <? 0x800 then [0xc0 + c / 64; 0x80 + c mod 64]
   else if c <? 0x10000 then [0xe0 + c / 4096; 0x80 + c / 64 mod 64; 0x80 + c mod 64]
   else [0xf0 + c / 262144; 0x80 + c / 4096 mod 64; 0x80 + c / 64 mod 64; 0x80 + c mod 64])%N.

(** A lone surrogate has no UTF-8 form. *)
Definition utf8_encode (s : pystr) : result (list N) :=
  if forallb is_scalar s then Ok (s ≫= utf8_char) else Raise UnicodeEncodeError.

Definition is_cont (b : N) : bool := ((0x80 <=? b) && (b <? 0xc0))%N.

(** One character; a longer form than needed and a surrogate are refused. *)
Definition utf8_next (bs : list N) : option (N * list N) :=
  match bs with
  | a :: r =>
      (if a <? 0x80 then Some (a, r)
       else match r with
            | b :: r1 =>
                if (0xc0 <=? a) && (a <? 0xe0) && is_cont b then
                  let c := (a - 0xc0) * 64 + (b - 0x80) in if 0x80 <=? c then Some (c, r1) else None
                else match r1 with
                     | d :: r2 =>
                         if (0xe0 <=? a) && (a <? 0xf0) && is_cont b && is_cont d then
                           let c := (a - 0xe0) * 4096 + (b - 0x80) * 64 + (d - 0x80) in
                           if (0x800 <=? c) && is_scalar c then Some (c, r2) else None
                         else match r2 with
                              | e :: r3 =>
                                  if (0xf0 <=? a) && (a <? 0xf8) && is_cont b && is_cont d && is_cont e then
                                    let c := (a - 0xf0) * 262144 + (b - 0x80) * 4096 + (d - 0x80) * 64 + (e - 0x80) in
                                    if (0x10000 <=? c) && is_scalar c then Some (c, r3) else None
                                  else None
                              | [] => None
                              end
                     | [] => None
                     end
            | [] => None
            end)%N
  | [] => None
  end.

Fixpoint utf8_go (fuel : nat) (bs : list N) : option pystr :=
  match bs, fuel with
  | [], _ => Some []
  | _, O => None
  | _, S f =>
      match utf8_next bs with
      | Some (c, r) => match utf8_go f r with Some s => Some (c :: s) | None => None end
      | None => None
      end
  end.

Definition utf8_decode (bs : list N) : option pystr := utf8_go (length bs) bs.

(** [lia] knows division by a constant in this file. *)
#[local] Ltac Zify.zify_post_hook ::= Z.to_euclidean_division_equations.

Lemma is_cont_low x : is_cont (0x80 + x mod 64) = true.
Proof. unfold is_cont. apply andb_true_iff. rewrite N.leb_le, N.ltb_lt. lia. Qed.

(** Settle the comparisons of a goal by [lia]. *)
Ltac settle :=
  repeat match goal with
  | |- context [(?a <? ?b)%N] => first [rewrite (proj2 (N.ltb_lt a b)) by lia|rewrite (proj2 (N.ltb_ge a b)) by lia]
  | |- context [(?a <=? ?b)%N] => first [rewrite (proj2 (N.leb_le a b)) by lia|rewrite (proj2 (N.leb_gt a b)) by lia]
  end; cbn [andb orb negb].

Lemma utf8_next_char c r : is_scalar c = true -> utf8_next (utf8_char c ++ r) = Some (c, r).
Proof.
  intros Hs. unfold utf8_char. assert (c < 0x110000)%N as Hmax by (unfold is_scalar in Hs; to_prop; by apply N.ltb_lt).
  assert (forall x, x = c -> is_scalar x = true) as Hx by (by intros x ->).
  destruct (N.ltb_spec c 0x80); [cbn [app utf8_next]; by settle|].
  destruct (N.ltb_spec c 0x800).
  { cbn [app utf8_next]. rewrite is_cont_low. settle. f_equal. f_equal. lia. }
  destruct (N.ltb_spec c 0x10000).
  { cbn [app utf8_next]. rewrite !is_cont_low. settle. rewrite Hx by lia. f_equal. f_equal. lia. }
  cbn [app utf8_next]. rewrite !is_cont_low. settle. rewrite Hx by lia. f_equal. f_equal. lia.
Qed.

Lemma utf8_char_length c : 1 <= length (utf8_char c).
Proof. unfold utf8_char. repeat case_goal; cbn; lia. Qed.

Lemma utf8_round_trip s bs : utf8_encode s = Ok bs -> utf8_decode bs = Some s.
Proof.
  unfold utf8_encode. destruct (forallb is_scalar s) eqn:H; [|discriminate]. intros E. apply Ok_inj in E as <-. unfold utf8_decode.
  assert (forall n, length (s ≫= utf8_char) <= n -> utf8_go n (s ≫= utf8_char) = Some s) as Hgo; [|by apply Hgo].
  induction s as [|c s IH]; intros n Hn; [by destruct n|]. cbn [forallb] in H. to_prop. cbn [mbind list_bind] in *.
  rewrite length_app in Hn. pose proof (utf8_char_length c) as Hc. destruct n as [|n]; [lia|].
  destruct (utf8_char c ++ (s ≫= utf8_char)) as [|b bs] eqn:E; [apply (f_equal length) in E; rewrite length_app in E; cbn in E; lia|].
  cbn [utf8_go]. rewrite <- E, utf8_next_char by done. rewrite IH; [done|done|lia].
Qed.

Lemma utf8_char_byte c : (c < 0x110000)%N -> Forall (fun b => b < 256)%N (utf8_char c).
Proof. intros H. unfold utf8_char. repeat case_goal; repeat constructor; rewrite ?N.ltb_lt, ?N.ltb_ge in *; lia. Qed.

Lemma utf8_bytes s bs : utf8_encode s = Ok bs -> Forall (fun b => b < 256)%N bs.
Proof.
  unfold utf8_encode. destruct (forallb is_scalar s) eqn:H; [|discriminate]. intros E. apply Ok_inj in E as <-.
  induction s as [|c s IH]; [constructor|]. cbn [forallb] in H. to_prop. cbn [mbind list_bind]. apply Forall_app. split; [|auto].
  apply utf8_char_byte. unfold is_scalar in *. to_prop. by apply N.ltb_lt.
Qed.

(** ** Base64 *)

Definition c_equals : N := 61.

Definition b64_char (n : N) : N :=
  (if n <? 26 then 65 + n else if n <? 52 then 71 + n else if n <? 62 then n - 4 else if n =? 62 then 45 else 95)%N.

(** The URL-safe characters stand for those of the plain alphabet, which are
    accepted as well. *)
Definition b64_val (c : N) : option N :=
  (if (65 <=? c) && (c <=? 90) then Some (c - 65)
   else if (97 <=? c) && (c <=? 122) then Some (c - 71)
   else if (48 <=? c) && (c <=? 57) then Some (c + 4)
   else if (c =? 45) || (c =? 43) then Some 62
   else if (c =? 95) || (c =? 47) then Some 63 else None)%N.

Fixpoint urlsafe_b64encode (bs : list N) : pystr :=
  (match bs with
   | a :: b :: c :: r =>
       b64_char (a / 4) :: b64_char (a mod 4 * 16 + b / 16) :: b64_char (b mod 16 * 4 + c / 64) :: b64_char (c mod 64) :: urlsafe_b64encode r
   | [a; b] => [b64_char (a / 4); b64_char (a mod 4 * 16 + b / 16); b64_char (b mod 16 * 4); c_equals]
   | [a] => [b64_char (a / 4); b64_char (a mod 4 * 16); c_equals; c_equals]
   | [] => []
   end)%N.

Fixpoint b64decode (s : pystr) : option (list N) :=
  (match s with
   | [] => Some []
   | w :: x :: y :: z :: r =>
       match b64_val w, b64_val x with
       | Some w, Some x =>
           if (z =? c_equals) then
             match r with
             | [] =>
                 if y =? c_equals then Some [w * 4 + x / 16]
                 else match b64_val y with Some y => Some [w * 4 + x / 16; x mod 16 * 16 + y / 4] | None => None end
             | _ => None
             end
           else match b64_val y, b64_val z, b64decode r with
                | Some y, Some z, Some r => Some (w * 4 + x / 16 :: x mod 16 * 16 + y / 4 :: y mod 4 * 64 + z :: r)
                | _, _, _ => None
                end
       | _, _ => None
       end
   | _ => None
   end)%N.

(** [str.rstrip("=")], and the padding put back. *)
Fixpoint rstrip_equals (s : pystr) : pystr :=
  match s with
  | [] => []
  | c :: r => match rstrip_equals r with [] => if (c =? c_equals)%N then [] else [c] | t => c :: t end
  end.

Definition b64_pad (t : pystr) : pystr := t ++ repeat c_equals ((4 - length t mod 4) mod 4).

Lemma b64_char_val n : (n < 64)%N -> b64_val (b64_char n) = Some n /\ b64_char n <> c_equals.
Proof.
  intros H. assert (Forall (fun n => b64_val (b64_char n) = Some n /\ b64_char n <> c_equals) (map N.of_nat (seq 0 64))) as Hall
    by (apply (bool_decide_unpack _); vm_compute; exact I).
  rewrite Forall_forall in Hall. apply Hall, list_elem_of_In, List.in_map_iff. exists (N.to_nat n). rewrite N2Nat.id. split; [done|].
  apply List.in_seq. lia.
Qed.

Lemma rstrip_equals_cons c t : c <> c_equals -> rstrip_equals (c :: t) = c :: rstrip_equals t.
Proof. intros Hc%N.eqb_neq. cbn [rstrip_equals]. destruct (rstrip_equals t); [by rewrite Hc|done]. Qed.

(** Lists, three elements at a time. *)
Lemma triples_ind {A} (P : list A -> Prop) :
  P [] -> (forall a, P [a]) -> (forall a b, P [a; b]) -> (forall a b c r, P r -> P (a :: b :: c :: r)) -> forall l, P l.
Proof.
  intros H0 H1 H2 H3. assert (forall n l, length l <= n -> P l) as H; [|intros l; by apply (H (length l))].
  induction n as [|n IH]; intros [|a [|b [|c r]]] Hn; cbn in Hn; try done; try lia. apply H3, IH. lia.
Qed.

Lemma b64_pad_four w x y z t : b64_pad (w :: x :: y :: z :: t) = w :: x :: y :: z :: b64_pad t.
Proof.
  unfold b64_pad. cbn [app]. do 5 f_equal. cbn [length]. f_equal. f_equal. replace (S (S (S (S (length t))))) with (length t + 1 * 4) by lia.
  by rewrite Nat.Div0.mod_add.
Qed.

Lemma b64_padding bs : Forall (fun b => b < 256)%N bs -> b64_pad (rstrip_equals (urlsafe_b64encode bs)) = urlsafe_b64encode bs.
Proof.
  induction bs as [|a|a b|a b c r IH] using triples_ind; intros Hb; [done|..]; rewrite ?Forall_cons in Hb; cbn [urlsafe_b64encode].
  - rewrite 2!rstrip_equals_cons by (apply b64_char_val; lia). done.
  - rewrite 3!rstrip_equals_cons by (apply b64_char_val; lia). done.
  - rewrite 4!rstrip_equals_cons by (apply b64_char_val; lia).
    rewrite b64_pad_four. by rewrite IH by tauto.
Qed.

Lemma b64_round_trip bs : Forall (fun b => b < 256)%N bs -> b64decode (b64_pad (rstrip_equals (urlsafe_b64encode bs))) = Some bs.
Proof.
  intros Hb. rewrite b64_padding by done. revert Hb. assert (forall n, (n < 64)%N -> b64_val (b64_char n) = Some n) as Hv by (intros; by apply b64_char_val).
  induction bs as [|a|a b|a b c r IH] using triples_ind; intros Hb; [done|..]; rewrite ?Forall_cons in Hb; cbn [urlsafe_b64encode b64decode].
  - rewrite !Hv by lia. cbn. f_equal. f_equal. lia.
  - rewrite !Hv by lia. assert ((b64_char (b mod 16 * 4) =? c_equals)%N = false) as -> by (apply N.eqb_neq, b64_char_val; lia). cbn [N.eqb Pos.eqb c_equals].
    f_equal. f_equal; [lia|]. f_equal. lia.
  - rewrite !Hv by lia. assert ((b64_char (c mod 64) =? c_equals)%N = false) as -> by (apply N.eqb_neq, b64_char_val; lia).
    rewrite IH by tauto. f_equal. f_equal; [lia|]. f_equal; [lia|]. f_equal. lia.
Qed.

Lemma b64_ascii bs : Forall (fun b => b < 256)%N bs -> Forall (fun c => c < 128)%N (urlsafe_b64encode bs).
Proof.
  assert (forall n, (n < 64)%N -> (b64_char n < 128)%N) as Hc.
  { intros n Hn. unfold b64_char. repeat case_goal; rewrite ?N.ltb_lt, ?N.ltb_ge, ?N.eqb_eq, ?N.eqb_neq in *; lia. }
  induction bs as [|a|a b|a b c r IH] using triples_ind; intros Hb; rewrite ?Forall_cons in Hb; cbn [urlsafe_b64encode];
    repeat apply Forall_cons_2; try (apply Hc; lia); try done. apply IH. tauto.
Qed.

(** ** Indented JSON *)

Definition newline (level : nat) : pystr := 10%N :: repeat c_space (2 * level).

(** [json.dumps(value, ensure_ascii=False, indent=2)] *)
Fixpoint dumps_indent (level : nat) (j : json) : pystr :=
  match j with
  | JArr [] => u "[]"
  | JArr l =>
      [c_lbracket] ++ newline (S level) ++ join (c_comma :: newline (S level)) (map (dumps_indent (S level)) l) ++ newline level ++ [c_rbracket]
  | JObj [] => u "{}"
  | JObj m =>
      [c_lbrace] ++ newline (S level)
      ++ join (c_comma :: newline (S level)) (map (fun kv => dumps_str kv.1 ++ u ": " ++ dumps_indent (S level) kv.2) m)
      ++ newline level ++ [c_rbrace]
  | _ => dumps_sep false false j
  end.

Section indented.
Context (strict : bool).
Abbreviation parse_value := (parse_value strict).
Abbreviation parse_items := (parse_items strict).
Abbreviation parse_members := (parse_members strict).

Lemma skip_ws_newline level s : skip_ws (newline level ++ s) = skip_ws s.
Proof. unfold newline. cbn [app skip_ws]. change (is_ws 10) with true. cbn. induction (level + (level + 0)) as [|n IH]; [done|]. exact IH. Qed.

Lemma indent_head level j : wf_json j = true -> exists c t, dumps_indent level j = c :: t /\ value_head c.
Proof.
  intros Hwf. destruct j as [| | | | |[|x l]|[|kv m]]; try by apply (dumps_head false). all: by (eexists _, _; split; [reflexivity|]).
Qed.

Lemma skip_ws_indent level j r : wf_json j = true -> skip_ws (dumps_indent level j ++ r) = dumps_indent level j ++ r.
Proof. intros (c & t & -> & Hc & _)%(indent_head level). cbn. by rewrite Hc. Qed.

Definition parses_indent (j : json) : Prop :=
  wf_json j = true -> forall level fuel r, 2 * length (dumps_indent level j) + 1 <= fuel -> delim r ->
  parse_value fuel (dumps_indent level j ++ r) = Some (j, r).

Lemma items_close f s v level r :
  parse_value f s = Some (v, newline level ++ c_rbracket :: r) -> parse_items (S f) s = Some ([v], r).
Proof. intros H. cbn [Json.parse_items]. rewrite H, skip_ws_newline. done. Qed.

Lemma members_close f k R v level r :
  parse_value f (skip_ws R) = Some (v, newline level ++ c_rbrace :: r) ->
  parse_members (S f) (dumps_str k ++ c_colon :: R) = Some ([(k, v)], r).
Proof.
  intros H. unfold dumps_str. rewrite <- !app_assoc. cbn [app Json.parse_members]. rewrite scan_str_dumps. simpl.
  rewrite H, skip_ws_newline. done.
Qed.

Lemma delim_newline level r : delim (newline level ++ r).
Proof. unfold newline. cbn. by right; right; right. Qed.

Lemma items_indent level x l fuel r :
  Forall parses_indent (x :: l) -> Forall (fun j => wf_json j = true) (x :: l) ->
  let text := join (c_comma :: newline (S level)) (map (dumps_indent (S level)) (x :: l)) in
  2 * length text + 2 <= fuel -> parse_items fuel (text ++ newline level ++ c_rbracket :: r) = Some (x :: l, r).
Proof.
  revert x fuel. induction l as [|y l IH]; intros x fuel HP Hwf text Hfuel; subst text.
  - apply Forall_inv in HP, Hwf. destruct fuel as [|f]; [lia|]. cbn [map join] in *. eapply items_close, (HP Hwf); [lia|apply delim_newline].
  - apply Forall_cons in HP as [HPx HP], Hwf as [Hwx Hwf]. cbn [map] in *. rewrite join_cons2 in *. rewrite !length_app in Hfuel. cbn [length] in Hfuel.
    destruct fuel as [|f]; [lia|]. rewrite <- !app_assoc. cbn [app].
    erewrite parse_items_comma; [|apply (HPx Hwx); [lia|by left]]. rewrite skip_ws_newline.
    pose proof (IH y f HP Hwf) as IH'. cbn [map] in IH'. pose proof (Forall_inv Hwf) as Hwy.
    assert (forall R, skip_ws (join (c_comma :: newline (S level)) (dumps_indent (S level) y :: map (dumps_indent (S level)) l) ++ R)
      = join (c_comma :: newline (S level)) (dumps_indent (S level) y :: map (dumps_indent (S level)) l) ++ R) as Hs.
    { intros R. destruct l; cbn [map]; [|rewrite join_cons2, <- app_assoc]; by apply skip_ws_indent. }
    rewrite Hs, IH' by lia. done.
Qed.

Lemma members_indent level kv m fuel r :
  Forall (fun kv => parses_indent kv.2) (kv :: m) -> Forall (fun kv => wf_json kv.2 = true) (kv :: m) ->
  let text := join (c_comma :: newline (S level)) (map (fun kv : pystr * json => dumps_str kv.1 ++ u ": " ++ dumps_indent (S level) kv.2) (kv :: m)) in
  2 * length text + 2 <= fuel -> parse_members fuel (text ++ newline level ++ c_rbrace :: r) = Some (kv :: m, r).
Proof.
  revert kv fuel. induction m as [|kv' m IH]; intros [k v] fuel HP Hwf text Hfuel; subst text.
  - apply Forall_inv in HP, Hwf. destruct fuel as [|f]; [lia|]. cbn [map join fst snd] in *. rewrite !length_app in Hfuel. cbn [length] in Hfuel.
    rewrite <- !app_assoc. change (u ": " ++ ?x) with (c_colon :: c_space :: x). eapply members_close. cbn [skip_ws]. change (is_ws c_space) with true.
    rewrite skip_ws_indent by done. apply (HP Hwf); [lia|apply delim_newline].
  - apply Forall_cons in HP as [HPx HP], Hwf as [Hwx Hwf]. cbn [map fst snd] in *. rewrite join_cons2 in *. rewrite !length_app in Hfuel.
    cbn [length] in Hfuel. destruct fuel as [|f]; [lia|]. rewrite <- !app_assoc. change (u ": " ++ ?x) with (c_colon :: c_space :: x). cbn [app].
    erewrite parse_members_comma.
    2: { cbn [skip_ws]. change (is_ws c_space) with true. rewrite skip_ws_indent by done. apply (HPx Hwx); [lia|by left]. }
    rewrite skip_ws_newline. pose proof (IH kv' f HP Hwf) as IH'. cbn [map] in IH'.
    match goal with |- context [skip_ws (?J ++ ?R)] => assert (skip_ws (J ++ R) = J ++ R) as -> by (by destruct m) end.
    rewrite IH' by lia. done.
Qed.

Lemma parse_indent j : parses_indent j.
Proof.
  induction j as [|b|z|l|s|l IH|m IH] using json_ind'; intros Hwf level fuel r Hfuel Hr; try by apply (parse_value_back strict false).
  - destruct l as [|x l]; [by apply (parse_value_back strict false (JArr []))|]. cbn [dumps_indent] in *. rewrite !length_app in Hfuel. cbn [length] in Hfuel.
    destruct fuel as [|f]; [lia|]. apply wf_JArr in Hwf. pose proof (Forall_inv Hwf) as Hx. pose proof (items_indent level x l f r IH Hwf) as Hp.
    cbv zeta in Hp. destruct (indent_head (S level) x Hx) as (c & t & Ex & Hws & Hnb).
    assert (exists t', join (c_comma :: newline (S level)) (map (dumps_indent (S level)) (x :: l)) = c :: t') as [t' Ej].
    { cbn [map]. destruct l; cbn [map]; [by exists t|]. rewrite join_cons2, Ex. by eexists. }
    rewrite <- !app_assoc. cbn [app]. erewrite parse_array; [|rewrite skip_ws_newline, Ej; cbn [app skip_ws]; by rewrite Hws|done].
    change (c :: ?x ++ ?y) with ((c :: x) ++ y). rewrite <- Ej. rewrite Hp by lia. done.
  - destruct m as [|kv m]; [by apply (parse_value_back strict false (JObj []))|]. cbn [dumps_indent] in *. rewrite !length_app in Hfuel. cbn [length] in Hfuel.
    destruct fuel as [|f]; [lia|]. apply wf_JObj in Hwf as [Hnd Hwf]. pose proof (members_indent level kv m f r IH Hwf) as Hp. cbv zeta in Hp.
    set (J := join _ _) in *. assert (exists t', J = c_quote :: t') as [t' Ej] by (unfold J; destruct m; by eexists).
    rewrite <- !app_assoc. cbn [app]. rewrite (parse_object strict f _ c_quote (t' ++ newline level ++ c_rbrace :: r)); [|rewrite skip_ws_newline, Ej; reflexivity|done].
    change (c_quote :: t' ++ ?y) with ((c_quote :: t') ++ y). rewrite <- Ej. rewrite Hp by lia.
    rewrite bool_decide_eq_true_2, andb_false_r by done. by rewrite dict_of_pairs_id.
Qed.

(** A newline at the end does not matter. *)
Lemma loads_indent j : wf_json j = true -> loads_with strict (dumps_indent 0 j ++ [10%N]) = Some j.
Proof.
  intros Hwf. unfold loads_with. rewrite skip_ws_indent by done. rewrite (parse_indent j Hwf); [done|rewrite length_app; lia|].
  by right; right; right.
Qed.
End indented.
