(* ===== verification/ArtifactKey.v ===== *)
(** * The identities of artifacts

    [ArtifactKey] of [lib/artifact_manifest.py]: what a generated file is of,
    with a text form that can be read back.  [nfc] is the Unicode normal form.
    A value of Python that is not yet checked is a JSON value. *)

From S2P Require Import Prelude Json Assets Codec.

Module ArtifactKind.
Inductive t :=
| ASSET_SHEET | EPISODE_STEP1 | EPISODE_SCRIPT | EPISODE_GRID | EPISODE_STORYBOARD | EPISODE_VIDEO | EPISODE_AUDIO
| EPISODE_SUBTITLE | EPISODE_PRESENTATION | FREE_CREATION_ARTIFACT.

Definition value (k : t) : string :=
  match k with
  | ASSET_SHEET => "asset-sheet"
  | EPISODE_STEP1 => "episode-step1"
  | EPISODE_SCRIPT => "episode-script"
  | EPISODE_GRID => "episode-grid"
  | EPISODE_STORYBOARD => "episode-storyboard"
  | EPISODE_VIDEO => "episode-video"
  | EPISODE_AUDIO => "episode-audio"
  | EPISODE_SUBTITLE => "episode-subtitle"
  | EPISODE_PRESENTATION => "episode-presentation"
  | FREE_CREATION_ARTIFACT => "free-creation-artifact"
  end.

Definition all : list t :=
  [ASSET_SHEET; EPISODE_STEP1; EPISODE_SCRIPT; EPISODE_GRID; EPISODE_STORYBOARD; EPISODE_VIDEO; EPISODE_AUDIO;
   EPISODE_SUBTITLE; EPISODE_PRESENTATION; FREE_CREATION_ARTIFACT].

#[global] Instance eq_dec : EqDecision t.
Proof. solve_decision. Defined.

(** [ArtifactKind(value)] *)
Definition of_value (s : pystr) : result t :=
  match List.find (fun k => bool_decide (u (value k) = s)) all with Some k => Ok k | None => Raise ValueError end.

Lemma of_value_value k : of_value (u (value k)) = Ok k.
Proof. by destruct k. Qed.
End ArtifactKind.

Inductive component := CInt (z : Z) | CStr (s : pystr).
#[export] Instance component_eq_dec : EqDecision component.
Proof. solve_decision. Defined.

Record ArtifactKey := mkKey { kind : ArtifactKind.t; components : list component }.
#[export] Instance ArtifactKey_eq_dec : EqDecision ArtifactKey.
Proof. solve_decision. Defined.

Definition component_json (c : component) : json := match c with CInt z => JInt z | CStr s => JStr s end.

Definition _KEY_PREFIX : pystr := u "artifact-key-v1:".
Definition ASSET_TYPES : list pystr := map (fun kv => u kv.1) ASSET_SPECS.
Definition VARIANTS : list pystr := [u "post_production"; u "use_tts"].

(** [variant in {"post_production", "use_tts"}]: a list or a dict has no hash. *)
Definition is_variant (v : json) : result bool :=
  match v with
  | JStr s => Ok (bool_decide (s ∈ VARIANTS))
  | JArr _ | JObj _ => Raise TypeError
  | _ => Ok false
  end.

Section keys.
Context (nfc : pystr -> pystr).

Definition positive (e : json) : option Z := match e with JInt z => if (0 <? z)%Z then Some z else None | _ => None end.
Definition non_blank (r : json) : option pystr := match r with JStr (c :: s) => Some (c :: s) | _ => None end.

(** [ArtifactKey(kind, components)] with its [__post_init__]. *)
Definition make_key (k : ArtifactKind.t) (parts : list json) : result ArtifactKey :=
  match k, parts with
  | ArtifactKind.ASSET_SHEET, [JStr ty; JStr id] =>
      let id := asset_name_comparison_key nfc id in
      if bool_decide (ty ∈ ASSET_TYPES) && negb (bool_decide (id = [])) then Ok (mkKey k [CStr ty; CStr id]) else Raise ValueError
  | (ArtifactKind.EPISODE_STEP1 | ArtifactKind.EPISODE_SCRIPT), [e] =>
      match positive e with Some z => Ok (mkKey k [CInt z]) | None => Raise ValueError end
  | (ArtifactKind.EPISODE_GRID | ArtifactKind.EPISODE_STORYBOARD | ArtifactKind.EPISODE_VIDEO | ArtifactKind.EPISODE_AUDIO), [e; r] =>
      match positive e, non_blank r with Some z, Some s => Ok (mkKey k [CInt z; CStr s]) | _, _ => Raise ValueError end
  | (ArtifactKind.EPISODE_SUBTITLE | ArtifactKind.EPISODE_PRESENTATION), [e; r; v] =>
      match positive e, non_blank r with
      | Some z, Some s =>
          let! ok := is_variant v in
          match v with JStr variant => if (ok : bool) then Ok (mkKey k [CInt z; CStr s; CStr variant]) else Raise ValueError | _ => Raise ValueError end
      | _, _ => Raise ValueError
      end
  | ArtifactKind.FREE_CREATION_ARTIFACT, [id] =>
      match non_blank id with Some s => Ok (mkKey k [CStr s]) | None => Raise ValueError end
  | _, _ => Raise ValueError
  end.

Definition _episode_number (v : json) : result json := match v with JInt z => if (z <? 1)%Z then Raise ValueError else Ok v | _ => Raise ValueError end.
Definition _non_empty (v : json) : result json := match v with JStr (_ :: _) => Ok v | _ => Raise ValueError end.
Definition _rendition_variant (v : json) : result json := let! ok := is_variant v in if (ok : bool) then Ok v else Raise ValueError.

Definition asset_sheet (ty id : json) : result ArtifactKey :=
  match ty with
  | JStr t => if bool_decide (t ∈ ASSET_TYPES) then let! id := _non_empty id in make_key ArtifactKind.ASSET_SHEET [ty; id] else Raise ValueError
  | JArr _ | JObj _ => Raise TypeError
  | _ => Raise ValueError
  end.
Definition episode_only (k : ArtifactKind.t) (e : json) : result ArtifactKey := let! e := _episode_number e in make_key k [e].
Definition episode_step1 := episode_only ArtifactKind.EPISODE_STEP1.
Definition episode_script := episode_only ArtifactKind.EPISODE_SCRIPT.
Definition episode_resource (k : ArtifactKind.t) (e r : json) : result ArtifactKey :=
  let! e := _episode_number e in let! r := _non_empty r in make_key k [e; r].
Definition episode_grid := episode_resource ArtifactKind.EPISODE_GRID.
Definition episode_storyboard := episode_resource ArtifactKind.EPISODE_STORYBOARD.
Definition episode_video := episode_resource ArtifactKind.EPISODE_VIDEO.
Definition episode_audio := episode_resource ArtifactKind.EPISODE_AUDIO.
Definition episode_rendition (k : ArtifactKind.t) (e r v : json) : result ArtifactKey :=
  let! e := _episode_number e in let! r := _non_empty r in let! v := _rendition_variant v in make_key k [e; r; v].
Definition episode_subtitle := episode_rendition ArtifactKind.EPISODE_SUBTITLE.
Definition episode_presentation := episode_rendition ArtifactKind.EPISODE_PRESENTATION.
Definition free_creation (id : json) : result ArtifactKey := let! id := _non_empty id in make_key ArtifactKind.FREE_CREATION_ARTIFACT [id].

Definition episode_resource_artifacts (e r : json) : result (list ArtifactKey) :=
  let! a := episode_storyboard e r in
  let! b := episode_video e r in
  let! c := episode_audio e r in
  let! d := episode_subtitle e r (JStr (u "post_production")) in
  let! f := episode_subtitle e r (JStr (u "use_tts")) in
  let! g := episode_presentation e r (JStr (u "post_production")) in
  let! h := episode_presentation e r (JStr (u "use_tts")) in
  Ok [a; b; c; d; f; g; h].

Definition episode_number (k : ArtifactKey) : option Z :=
  match kind k with
  | ArtifactKind.ASSET_SHEET | ArtifactKind.FREE_CREATION_ARTIFACT => None
  | _ => match components k with CInt z :: _ => Some z | _ => None end
  end.

Definition encode (k : ArtifactKey) : result pystr :=
  let! payload := utf8_encode (dumps_sep true false (JArr (JStr (u (ArtifactKind.value (kind k))) :: map component_json (components k)))) in
  Ok (_KEY_PREFIX ++ rstrip_equals (urlsafe_b64encode payload)).

Definition _from_parts (kind_value : pystr) (parts : list json) : result ArtifactKey :=
  let! k := ArtifactKind.of_value kind_value in make_key k parts.

Definition decode (value : pystr) : result ArtifactKey :=
  if bool_decide (take (length _KEY_PREFIX) value = _KEY_PREFIX) then
    match b64decode (b64_pad (drop (length _KEY_PREFIX) value)) with
    | None => Raise ValueError
    | Some raw =>
        match utf8_decode raw with
        | None => Raise ValueError
        | Some text =>
            match loads text with
            | Some (JArr (JStr kind_value :: parts)) =>
                let! key := _from_parts kind_value parts in
                let! again := encode key in
                if bool_decide (again = value) then Ok key else Raise ValueError
            | _ => Raise ValueError
            end
        end
    end
  else Raise ValueError.

(** The keys that [ArtifactKey(...)] makes. *)
Definition valid (k : ArtifactKey) : Prop := exists parts, make_key (kind k) parts = Ok k.
End keys.

(** ** Reading back *)

Lemma non_blank_Some r s : non_blank r = Some s -> r = JStr s /\ s <> [].
Proof. destruct r as [| | | |[|c t]| |]; cbn; intros [= <-]; done. Qed.
Lemma non_blank_JStr s : s <> [] -> non_blank (JStr s) = Some s.
Proof. by destruct s. Qed.
Lemma positive_Some e z : positive e = Some z -> e = JInt z /\ (0 < z)%Z.
Proof. destruct e; cbn; try done. destruct (Z.ltb_spec 0 z0); intros [= <-]; done. Qed.

Section round_trip.
Context (nfc : pystr -> pystr) (key_idempotent : forall s, asset_name_comparison_key nfc (asset_name_comparison_key nfc s) = asset_name_comparison_key nfc s).

Lemma positive_again z : (0 < z)%Z -> positive (JInt z) = Some z.
Proof. intros H. cbn. by destruct (Z.ltb_spec 0 z); [|lia]. Qed.

(** A key is made again from its own components. *)
Lemma make_key_again k parts key : make_key nfc k parts = Ok key -> kind key = k /\ make_key nfc k (map component_json (components key)) = Ok key.
Proof.
  intros H. unfold make_key in H.
  destruct k; repeat (case_hyp; try discriminate H);
    try (apply bind_Ok in H as (ok & Hv & H); repeat (case_hyp; try discriminate H));
    repeat match goal with
    | E : positive _ = Some _ |- _ => apply positive_Some in E as [-> ?]
    | E : non_blank _ = Some _ |- _ => apply non_blank_Some in E as [-> ?]
    end; apply Ok_inj in H as <-; (split; [done|]); cbn [components map component_json make_key];
    rewrite ?positive_again, ?non_blank_JStr by done; try done.
  - rewrite key_idempotent. cbv zeta in *. by rewrite Heqb.
  - by rewrite Hv.
  - by rewrite Hv.
Qed.

Lemma decode_of_parts k v : encode k = Ok v -> make_key nfc (kind k) (map component_json (components k)) = Ok k -> decode nfc v = Ok k.
Proof.
  intros He Hm. pose proof He as He'. unfold encode in He. apply bind_Ok in He as (bs & Hu & He). apply Ok_inj in He as <-.
  unfold decode. rewrite take_app_length, bool_decide_eq_true_2, drop_app_length by done.
  rewrite b64_round_trip by (by eapply utf8_bytes). rewrite (utf8_round_trip _ _ Hu). rewrite loads_dumps.
  - unfold _from_parts. rewrite ArtifactKind.of_value_value. cbn [bind]. rewrite Hm. cbn [bind]. rewrite He'. cbn [bind].
    by rewrite bool_decide_eq_true_2.
  - apply wf_JArr. constructor; [done|]. apply List.Forall_map, Forall_forall. by intros [] _.
Qed.

Lemma valid_again k : valid nfc k -> make_key nfc (kind k) (map component_json (components k)) = Ok k.
Proof. intros [parts H]. by apply make_key_again in H as [_ H]. Qed.

Lemma decode_Ok v k : decode nfc v = Ok k -> encode k = Ok v /\ valid nfc k.
Proof.
  unfold decode. intros H. repeat (case_hyp; try discriminate H). apply bind_Ok in H as (key & Hk & H). apply bind_Ok in H as (again & Ha & H).
  repeat (case_hyp; try discriminate H). apply Ok_inj in H as <-. to_prop. subst again. split; [done|]. unfold _from_parts in Hk.
  apply bind_Ok in Hk as (kd & _ & Hk). pose proof (make_key_again _ _ _ Hk) as [E _]. eexists. by rewrite E.
Qed.

Lemma scalar_str s : forallb is_scalar s = true -> forallb is_scalar (dumps_str s) = true.
Proof.
  intros H. unfold dumps_str. rewrite !forallb_app. cbn [forallb]. rewrite !andb_true_iff. split; [done|]. split; [|done].
  induction s as [|c s IH]; [done|]. cbn [forallb] in H. to_prop. cbn [mbind list_bind]. rewrite forallb_app, IH by done. rewrite andb_true_r.
  assert (forall n, (n < 16)%N -> is_scalar (hex_digit n) = true) as Hhex.
  { intros n Hn. unfold hex_digit, is_scalar. destruct (N.ltb_spec n 10);
      (apply andb_true_iff; split; [apply orb_true_iff; left|]; apply N.ltb_lt; lia). }
  unfold escape_char. repeat case_goal; cbn [forallb]; rewrite ?andb_true_r; try done.
  rewrite !Hhex; [done|apply N.mod_lt; lia|apply N.Div0.div_lt_upper_bound]. rewrite N.ltb_lt in *. lia.
Qed.

Lemma scalar_int z : forallb is_scalar (dumps_int z) = true.
Proof.
  assert (forall d, forallb is_scalar (uint_codes d) = true) as H by (induction d; done). unfold dumps_int. case_goal; unfold dumps_nat; try done. cbn. by rewrite H.
Qed.

Lemma utf8_key k :
  Forall (fun c => match c with CStr s => forallb is_scalar s = true | CInt _ => True end) (components k) ->
  exists bs, utf8_encode (dumps_sep true false (JArr (JStr (u (ArtifactKind.value (kind k))) :: map component_json (components k)))) = Ok bs.
Proof.
  intros Hc. unfold utf8_encode. match goal with |- context [forallb is_scalar ?x] => assert (forallb is_scalar x = true) as ->; [|by eexists] end.
  cbn [dumps_sep]. rewrite !forallb_app. cbn [forallb]. rewrite andb_true_r. set (texts := map (dumps_sep true false) _).
  assert (Forall (fun t => forallb is_scalar t = true) texts) as Ht.
  { unfold texts. cbn [map]. constructor; [by destruct (kind k)|]. rewrite map_map. apply List.Forall_map. eapply Forall_impl; [exact Hc|].
    intros [z|s] Hs; [apply scalar_int|by apply scalar_str]. }
  assert (forallb is_scalar (join (c_comma :: gap true) texts) = true) as ->; [|done]. clearbody texts.
  induction Ht as [|t texts Hx Ht IH]; [done|]. destruct texts as [|y l]; [exact Hx|]. rewrite join_cons2, !forallb_app, Hx, IH. done.
Qed.

(** C32: The text of an artifact key names it exactly: every key that has a text is
    read back from it as itself, a text that is read gives a valid key whose text it
    is, so two keys never share a text and no key has two.  The comparison form
    of asset names is idempotent, and a key only lacks a text if a part of it holds
    a lone surrogate. *)
Theorem key_text_exact k v :
  (valid nfc k -> encode k = Ok v -> decode nfc v = Ok k) /\ (decode nfc v = Ok k -> encode k = Ok v /\ valid nfc k)
  /\ (forall k', valid nfc k -> valid nfc k' -> encode k = Ok v -> encode k' = Ok v -> k = k')
  /\ (Forall (fun c => match c with CStr s => forallb is_scalar s = true | CInt _ => True end) (components k) -> exists t, encode k = Ok t).
Proof.
  split; [|split; [apply decode_Ok|split]].
  - intros Hk He. apply decode_of_parts; [done|by apply valid_again].
  - intros k' Hk Hk' He He'. apply decode_of_parts in He; [|by apply valid_again]. apply decode_of_parts in He'; [|by apply valid_again]. congruence.
  - intros Hc. unfold encode. destruct (utf8_key k Hc) as [bs ->]. cbn [bind]. by eexists.
Qed.
End round_trip.

(** ** Examples *)

Definition demo_key : ArtifactKey := mkKey ArtifactKind.EPISODE_VIDEO [CInt 3; CStr [233; 49]%N].

Example demo_key_text : encode demo_key = Ok (u "artifact-key-v1:WyJlcGlzb2RlLXZpZGVvIiwzLCLDqTEiXQ").
Proof. vm_compute. reflexivity. Qed.

(** A key text whose variant is a list is refused with [TypeError], which the
    readers of the manifest do not expect: they catch [ValueError]. *)
Theorem decode_unhashable_variant nfc :
  exists v, decode nfc v = Raise TypeError.
Proof.
  exists (_KEY_PREFIX ++ rstrip_equals (urlsafe_b64encode (dumps_sep true false (JArr [JStr (u "episode-subtitle"); JInt 1; JStr (u "s1"); JArr []])))).
  vm_compute. reflexivity.
Qed.

Lemma lstrip_suffix s : exists w, s = w ++ lstrip s.
Proof.
  induction s as [|c s [w IH]]; [by exists []|]. cbn [lstrip]. destruct (is_space c); [|by exists []]. exists (c :: w). cbn. by rewrite <- IH.
Qed.
Lemma lstrip_head s : match lstrip s with c :: _ => is_space c = false | [] => True end.
Proof. induction s as [|c s IH]; [done|]. cbn [lstrip]. destruct (is_space c) eqn:E; done. Qed.
Lemma lstrip_fixed s : match s with c :: _ => is_space c = false | [] => True end -> lstrip s = s.
Proof. destruct s as [|c s]; [done|]. cbn. by intros ->. Qed.

Lemma strip_idempotent s : strip (strip s) = strip s.
Proof.
  unfold strip. set (r := lstrip s). set (q := lstrip (reverse r)). destruct (lstrip_suffix (reverse r)) as [w Hw]. fold q in Hw.
  apply (f_equal reverse) in Hw. rewrite reverse_involutive, reverse_app in Hw.
  rewrite (lstrip_fixed (reverse q)); [rewrite reverse_involutive; by rewrite (lstrip_fixed q) by apply lstrip_head|].
  pose proof (lstrip_head s) as Hh. fold r in Hh. rewrite Hw in Hh. by destruct (reverse q).
Qed.

Lemma key_text_exact_witness :
  valid id demo_key /\ decode id (u "artifact-key-v1:WyJlcGlzb2RlLXZpZGVvIiwzLCLDqTEiXQ") = Ok demo_key.
Proof.
  assert (valid id demo_key) as Hv by (exists [JInt 3; JStr [233; 49]%N]; reflexivity). split; [exact Hv|].
  apply (key_text_exact id strip_idempotent demo_key (u "artifact-key-v1:WyJlcGlzb2RlLXZpZGVvIiwzLCLDqTEiXQ")); [exact Hv|exact demo_key_text].
Defined.
