(* ===== verification/ArtifactStore.v ===== *)
(** * The manifest of artifacts: data and storage

    The storage half of [lib/artifact_manifest.py]: entries, paths, digests, the
    bytes of the manifest file, and the two adapters.  [nfc] and [casefold] are
    Python's.  The lock is one call at a time; a call of the project adapter may be
    refused before it does anything or interrupted after it has. *)

From S2P Require Import Prelude Json Assets AssetRename Codec ArtifactKey.

(** ** Entries *)

Record ArtifactManifestEntry := mkEntry { artifact_path : pystr; basis_digest : pystr }.
#[export] Instance entry_eq_dec : EqDecision ArtifactManifestEntry.
Proof. solve_decision. Defined.

Abbreviation claims := (gmap pystr ArtifactManifestEntry).

Definition MANIFEST_FILENAME : pystr := u ".matrixspooll_artifacts.json".
Definition LOCK_FILENAME : pystr := u ".artifact_manifest.lock".
Definition _RESERVED_ARTIFACT_PATHS : list pystr := [MANIFEST_FILENAME; LOCK_FILENAME].
Definition HASH_ALGORITHM : pystr := u "sha256-v1".
Definition MANIFEST_SCHEMA_VERSION : Z := 1.

Definition is_hex_lower (c : N) : bool := (((48 <=? c) && (c <=? 57)) || ((97 <=? c) && (c <=? 102)))%N.

(** [CONTENT_DIGEST_RE], [PREFIXED_DIGEST_RE] *)
Definition is_content_digest (s : pystr) : bool := (length s =? 64) && forallb is_hex_lower s.
Definition is_prefixed_digest (s : pystr) : bool :=
  let prefix := u "sha256-v1:" in
  bool_decide (take (length prefix) s = prefix) && is_content_digest (drop (length prefix) s).

(** [s.rstrip(" .") != s] *)
Definition ends_badly (s : pystr) : bool := match last s with Some c => (c =? 32)%N || (c =? 46)%N | None => false end.

(** [s.rstrip(" .")] *)
Fixpoint rstrip_dots (s : pystr) : pystr :=
  match s with
  | [] => []
  | c :: r => match rstrip_dots r with [] => if (c =? 32)%N || (c =? 46)%N then [] else [c] | t => c :: t end
  end.

(** [except ValueError], which a failed encoding is too. *)
Definition is_value_error (e : exc) : bool := match e with ValueError | UnicodeEncodeError => true | _ => false end.
Definition as_manifest_error {A} (r : result A) : result A :=
  match r with Raise e => if is_value_error e then Raise ArtifactManifestError else Raise e | Ok a => Ok a end.

Section store.
Context (nfc casefold : pystr -> pystr).

(** A drive or a Windows root needs a colon or two slashes at the start, which
    the other conditions refuse. *)
Definition normalize_path (value : pystr) : result pystr :=
  if bool_decide (value = []) || bool_decide (0%N ∈ value) || bool_decide (92%N ∈ value) then Raise ValueError
  else if negb (forallb is_scalar value) then Raise ValueError
  else
    let raw_parts := split_slash value [] in
    let path := parse_path value in
    if negb (bool_decide (p_root path = []))
       || existsb (fun part => bool_decide (part ∈ [[]; u "."; u ".."])) raw_parts
       || existsb ends_badly raw_parts
       || existsb (fun part => bool_decide (58%N ∈ part)) raw_parts
    then Raise ValueError
    else
      let normalized := path_str path in
      if bool_decide (normalized ∈ [u "."; []]) then Raise ValueError
      else if bool_decide (normalized ∈ _RESERVED_ARTIFACT_PATHS)
              || ((length (p_parts path) =? 1) && bool_decide (casefold (rstrip_dots normalized) ∈ map casefold _RESERVED_ARTIFACT_PATHS))
      then Raise ValueError
      else Ok normalized.

Definition normalize_artifact_path (value : json) : result pystr := match value with JStr s => normalize_path s | _ => Raise ValueError end.

(** What a file system that folds case takes for the same file. *)
Definition filesystem_identity (e : ArtifactManifestEntry) : pystr := casefold (nfc (artifact_path e)).

Definition unique_paths (entries : claims) : bool := bool_decide (NoDup (map (fun kv => filesystem_identity kv.2) (map_to_list entries))).

Definition _assert_unique_artifact_paths (entries : claims) : result unit := if unique_paths entries then Ok tt else Raise ArtifactManifestError.

(** ** Targets *)

Definition target_entry (entry : ArtifactManifestEntry) : result unit :=
  let! normalized := normalize_path (artifact_path entry) in
  if negb (bool_decide (normalized = artifact_path entry)) then Raise ValueError
  else if is_prefixed_digest (basis_digest entry) then Ok tt else Raise ValueError.

Fixpoint encode_targets (entries : list (ArtifactKey * ArtifactManifestEntry)) (encoded : claims) : result claims :=
  match entries with
  | [] => Ok encoded
  | (key, entry) :: rest =>
      let! _ := target_entry entry in
      let! text := encode key in
      if bool_decide (is_Some (encoded !! text)) then Raise ValueError else encode_targets rest (<[text := entry]> encoded)
  end.

Definition _encode_target_entries (entries : list (ArtifactKey * ArtifactManifestEntry)) : result claims := encode_targets entries ∅.

Fixpoint encode_optional (entries : list (ArtifactKey * option ArtifactManifestEntry)) : result (gmap pystr (option ArtifactManifestEntry)) :=
  match entries with
  | [] => Ok ∅
  | (key, entry) :: rest => let! text := encode key in let! others := encode_optional rest in Ok (if bool_decide (is_Some (others !! text)) then others else <[text := entry]> others)
  end.

Definition _encode_optional_entries (entries : list (ArtifactKey * option ArtifactManifestEntry)) : result (gmap pystr (option ArtifactManifestEntry)) :=
  let! _ := _encode_target_entries (omap (fun ke => match ke.2 with Some e => Some (ke.1, e) | None => None end) entries) in
  encode_optional entries.

(** ** Bytes *)

Definition entry_json (e : ArtifactManifestEntry) : json :=
  JObj [(u "artifact_path", JStr (artifact_path e)); (u "basis_digest", JStr (basis_digest e))].

Definition manifest_json (entries : claims) : json :=
  JObj [(u "entries", JObj (map (fun kv => (kv.1, entry_json kv.2)) (map_to_list entries)));
        (u "hash_algorithm", JStr HASH_ALGORITHM); (u "schema_version", JInt MANIFEST_SCHEMA_VERSION)].

Definition _serialize_manifest (entries : claims) : result (list N) :=
  let! _ := _assert_unique_artifact_paths entries in
  let! bytes := utf8_encode (dumps_indent 0 (sort_json (manifest_json entries))) in
  Ok (bytes ++ [10%N]).

(** [set(d) == {...}] *)
Definition has_keys (d : dict) (ks : list pystr) : bool :=
  forallb (fun kv => bool_decide (kv.1 ∈ ks)) d && forallb (fun k => bool_decide (k ∈ d.*1)) ks.

Definition member (k : pystr) (d : dict) : json := default JNull (dict_get k d).

Definition parse_entry (encoded_key : pystr) (raw : json) : result ArtifactManifestEntry :=
  let! _ := as_manifest_error (decode nfc encoded_key) in
  match raw with
  | JObj d =>
      if negb (has_keys d [u "artifact_path"; u "basis_digest"]) then Raise ArtifactManifestError
      else
        let! path := as_manifest_error (normalize_artifact_path (member (u "artifact_path") d)) in
        match member (u "artifact_path") d, member (u "basis_digest") d with
        | JStr given, JStr digest =>
            if negb (bool_decide (path = given)) then Raise ArtifactManifestError
            else if is_prefixed_digest digest then Ok (mkEntry path digest) else Raise ArtifactManifestError
        | _, _ => Raise ArtifactManifestError
        end
  | _ => Raise ArtifactManifestError
  end.

Fixpoint parse_entries (raw : dict) : result claims :=
  match raw with
  | [] => Ok ∅
  | (k, v) :: rest => let! e := parse_entry k v in let! others := parse_entries rest in Ok (<[k := e]> others)
  end.

Definition _parse_manifest (raw : list N) (validate_path_ownership : bool) : result claims :=
  match utf8_decode raw with
  | None => Raise ArtifactManifestError
  | Some text =>
      match loads_with true text with
      | Some (JObj payload) =>
          if negb (has_keys payload [u "entries"; u "hash_algorithm"; u "schema_version"]) then Raise ArtifactManifestError
          else
            match member (u "schema_version") payload, member (u "hash_algorithm") payload, member (u "entries") payload with
            | JInt v, JStr h, JObj raw_entries =>
                if negb (v =? MANIFEST_SCHEMA_VERSION)%Z || negb (bool_decide (h = HASH_ALGORITHM)) then Raise ArtifactManifestError
                else
                  let! entries := parse_entries raw_entries in
                  if validate_path_ownership then let! _ := _assert_unique_artifact_paths entries in Ok entries else Ok entries
            | _, _, _ => Raise ArtifactManifestError
            end
      | _ => Raise ArtifactManifestError
      end
  end.
End store.

(** ** Paths *)

Lemma split_slash_cons s word : exists w l, split_slash s word = w :: l.
Proof. revert word. induction s as [|c s IH]; intros word; cbn [split_slash]; [by eexists _, _|]. case_goal; [by eexists _, _|apply IH]. Qed.

Lemma join_split_slash s word : join [47%N] (split_slash s word) = reverse word ++ s.
Proof.
  revert word. induction s as [|c s IH]; intros word; cbn [split_slash]; [by rewrite app_nil_r|]. destruct (N.eqb_spec c 47) as [->|Hc].
  - destruct (split_slash_cons s []) as (w & l & E). specialize (IH []). rewrite E in *. rewrite join_cons2, IH. done.
  - rewrite IH. rewrite reverse_cons, <- app_assoc. done.
Qed.

(** A canonical path is its own normal form. *)
Lemma normalize_same casefold p q : normalize_path casefold p = Ok q -> q = p.
Proof.
  unfold normalize_path. case_goal; [discriminate|]. case_goal; [discriminate|]. cbv zeta.
  destruct (negb (bool_decide (p_root (parse_path p) = [])) || _ || _ || _) eqn:Hbad; [discriminate|].
  destruct (bool_decide (path_str _ ∈ [u "."; []])) eqn:Hdot; [discriminate|]. case_goal; [discriminate|]. intros <-%Ok_inj.
  rewrite !orb_false_iff in Hbad. destruct Hbad as [[[Hroot Hparts] _] _]. rewrite negb_false_iff, bool_decide_eq_true in Hroot.
  unfold path_str. rewrite Hroot. unfold parse_path. cbn [p_parts app].
  assert (where_ (fun w => negb (bool_decide (w = [])) && negb (bool_decide (w = u "."))) (split_slash p []) = split_slash p []) as ->.
  { revert Hparts. generalize (split_slash p []). induction l as [|w l IH]; [done|]. cbn [existsb where_]. rewrite orb_false_iff. intros [Hw Hl].
    rewrite bool_decide_eq_false in Hw. assert (negb (bool_decide (w = [])) && negb (bool_decide (w = u ".")) = true) as ->; [|by rewrite IH].
    rewrite andb_true_iff, !negb_true_iff, !bool_decide_eq_false. split; intros ->; apply Hw; set_solver. }
  rewrite join_split_slash. cbn [reverse app]. destruct p; [|done]. cbn in Heqb. discriminate Heqb.
Qed.

(** ** Reading what was written *)

Section round_trip.
Context (nfc casefold : pystr -> pystr).

(** Claims that a manifest can hold. *)
Record sound (m : claims) : Prop := {
  sound_entry : forall k e, m !! k = Some e -> (exists key, decode nfc k = Ok key) /\ target_entry casefold e = Ok tt;
  sound_unique : unique_paths nfc casefold m = true
}.

Lemma target_entry_Ok e : target_entry casefold e = Ok tt -> normalize_path casefold (artifact_path e) = Ok (artifact_path e) /\ is_prefixed_digest (basis_digest e) = true.
Proof.
  unfold target_entry. intros (p & Hp & H)%bind_Ok. repeat (case_hyp; try discriminate H). to_prop. by subst p.
Qed.

Lemma parse_entry_back k key e : decode nfc k = Ok key -> target_entry casefold e = Ok tt -> parse_entry nfc casefold k (entry_json e) = Ok e.
Proof.
  intros Hk [Hp Hd]%target_entry_Ok. unfold parse_entry. rewrite Hk. cbn [as_manifest_error bind entry_json].
  change (member (u "artifact_path") _) with (JStr (artifact_path e)). change (member (u "basis_digest") _) with (JStr (basis_digest e)).
  assert (has_keys [(u "artifact_path", JStr (artifact_path e)); (u "basis_digest", JStr (basis_digest e))] [u "artifact_path"; u "basis_digest"] = true) as ->
    by (vm_compute; reflexivity).
  cbn [negb normalize_artifact_path]. rewrite Hp. cbn [as_manifest_error bind]. rewrite bool_decide_eq_true_2, Hd by done. by destruct e.
Qed.

Lemma parse_entries_back (l : list (pystr * ArtifactManifestEntry)) :
  Forall (fun kv => (exists key, decode nfc kv.1 = Ok key) /\ target_entry casefold kv.2 = Ok tt) l ->
  parse_entries nfc casefold (map (fun kv => (kv.1, entry_json kv.2)) l) = Ok (list_to_map l).
Proof.
  induction 1 as [|[k e] l [[key Hk] He] _ IH]; [done|]. cbn [map parse_entries fst snd] in *. rewrite (parse_entry_back _ _ _ Hk He), IH. done.
Qed.

Lemma sort_manifest m :
  sort_json (manifest_json m) =
  JObj [(u "entries", JObj (map (fun kv => (kv.1, entry_json kv.2)) (isort key_leb (map_to_list m))));
        (u "hash_algorithm", JStr HASH_ALGORITHM); (u "schema_version", JInt MANIFEST_SCHEMA_VERSION)].
Proof.
  assert (forall v1 v2 v3 : json, isort key_leb [(u "entries", v1); (u "hash_algorithm", v2); (u "schema_version", v3)]
    = [(u "entries", v1); (u "hash_algorithm", v2); (u "schema_version", v3)]) as Hs by reflexivity.
  unfold manifest_json. cbn [sort_json map fst snd]. rewrite Hs. do 3 f_equal. f_equal. rewrite map_map.
  rewrite <- (isort_map key_leb key_leb (fun kv : pystr * ArtifactManifestEntry => (kv.1, entry_json kv.2))) by done. done.
Qed.

Lemma utf8_encode_app s t a b : utf8_encode s = Ok a -> utf8_encode t = Ok b -> utf8_encode (s ++ t) = Ok (a ++ b).
Proof.
  unfold utf8_encode. rewrite forallb_app. destruct (forallb is_scalar s); [|discriminate]. destruct (forallb is_scalar t); [|discriminate].
  intros Ha Hb. apply Ok_inj in Ha as <-. apply Ok_inj in Hb as <-. cbn. by rewrite bind_app.
Qed.

Fixpoint scalar_json (j : json) : bool :=
  match j with
  | JStr s | JFloat s => forallb is_scalar s
  | JArr l => List.forallb scalar_json l
  | JObj m => List.forallb (fun kv => forallb is_scalar kv.1 && scalar_json kv.2) m
  | _ => true
  end.

Lemma scalar_newline level : forallb is_scalar (newline level) = true.
Proof. unfold newline. cbn [forallb]. rewrite andb_true_l. by induction (2 * level). Qed.

Lemma scalar_join sep texts : forallb is_scalar sep = true -> Forall (fun t => forallb is_scalar t = true) texts -> forallb is_scalar (join sep texts) = true.
Proof.
  intros Hs. induction 1 as [|t texts Hx Ht IH]; [done|]. destruct texts as [|y l]; [exact Hx|]. by rewrite join_cons2, !forallb_app, Hx, IH, Hs.
Qed.

Lemma scalar_indent j : forall level, scalar_json j = true -> forallb is_scalar (dumps_indent level j) = true.
Proof.
  induction j as [| b | z | l | s | l IH | m IH] using json_ind'; intros level Hj; cbn [scalar_json] in Hj.
  - done.
  - by destruct b.
  - apply scalar_int.
  - exact Hj.
  - by apply scalar_str.
  - destruct l as [|x l]; [done|]. cbn [dumps_indent]. rewrite !forallb_app, !scalar_newline, scalar_join; [reflexivity|by cbn [forallb]; rewrite scalar_newline|].
    apply List.Forall_map. rewrite forallb_forall in Hj. rewrite Forall_forall in *. intros y Hy. apply IH; [done|]. by apply Hj, list_elem_of_In.
  - destruct m as [|x m]; [done|]. cbn [dumps_indent]. rewrite !forallb_app, !scalar_newline, scalar_join; [reflexivity|by cbn [forallb]; rewrite scalar_newline|].
    apply List.Forall_map. rewrite forallb_forall in Hj. rewrite Forall_forall in *. intros y Hy.
    apply list_elem_of_In, Hj in Hy as Hy'. apply andb_true_iff in Hy' as [Hk Hv]. rewrite !forallb_app, (scalar_str _ Hk), (IH _ (proj2 (list_elem_of_In _ _) Hy) _ Hv). reflexivity.
Qed.

Lemma scalar_below s : Forall (fun c => c < 128)%N s -> forallb is_scalar s = true.
Proof. induction 1 as [|c s Hc _ IH]; [done|]. cbn [forallb]. rewrite IH, andb_true_r. unfold is_scalar. apply andb_true_iff. rewrite orb_true_iff, !N.ltb_lt. lia. Qed.

Lemma rstrip_equals_prefix s : exists t, s = rstrip_equals s ++ t.
Proof.
  induction s as [|c s [t IH]]; [by exists []|]. cbn [rstrip_equals]. destruct (rstrip_equals s); [case_goal; by eexists|]. exists t. cbn. by rewrite IH at 1.
Qed.

Lemma scalar_key k key : decode nfc k = Ok key -> forallb is_scalar k = true.
Proof.
  intros H. assert (encode key = Ok k) as He.
  { unfold decode in H. repeat (case_hyp; try discriminate H). apply bind_Ok in H as (? & _ & H). apply bind_Ok in H as (again & Ha & H).
    repeat (case_hyp; try discriminate H). to_prop. apply Ok_inj in H as <-. by subst. }
  unfold encode in He. apply bind_Ok in He as (bs & Hbs & He). apply Ok_inj in He as <-. rewrite forallb_app, andb_true_iff. split; [done|].
  apply scalar_below. destruct (rstrip_equals_prefix (urlsafe_b64encode bs)) as [t Ht]. pose proof (b64_ascii bs (utf8_bytes _ _ Hbs)) as Ha.
  rewrite Ht in Ha. by apply Forall_app in Ha as [Ha _].
Qed.

Lemma normalize_scalar p q : normalize_path casefold p = Ok q -> forallb is_scalar p = true.
Proof. unfold normalize_path. case_goal; [discriminate|]. by destruct (forallb is_scalar p). Qed.

Lemma digest_scalar d : is_prefixed_digest d = true -> forallb is_scalar d = true.
Proof.
  unfold is_prefixed_digest, is_content_digest. set (prefix := u "sha256-v1:"). intros H. rewrite !andb_true_iff in H. destruct H as [Hp [_ Hh]].
  apply bool_decide_eq_true in Hp. rewrite <- (take_drop (length prefix) d), Hp, forallb_app, andb_true_iff. split; [done|].
  apply forallb_forall. rewrite forallb_forall in Hh. intros c Hc. specialize (Hh c Hc). unfold is_hex_lower, is_scalar in *.
  rewrite orb_true_iff, !andb_true_iff, !N.leb_le in Hh. rewrite andb_true_iff, orb_true_iff, !N.ltb_lt. lia.
Qed.

Lemma sound_list m : sound m -> Forall (fun kv => (exists key, decode nfc kv.1 = Ok key) /\ target_entry casefold kv.2 = Ok tt) (isort key_leb (map_to_list m)).
Proof. intros Hm. apply Forall_forall. intros [k e] Hk%elem_of_isort%elem_of_map_to_list. by apply (sound_entry _ Hm). Qed.

Definition manifest_text m : pystr := dumps_indent 0 (sort_json (manifest_json m)).

Lemma manifest_scalar m : sound m -> forallb is_scalar (manifest_text m) = true.
Proof.
  intros Hm. apply scalar_indent. rewrite sort_manifest. set (es := map _ _).
  assert (forall v, scalar_json v = true ->
    scalar_json (JObj [(u "entries", v); (u "hash_algorithm", JStr HASH_ALGORITHM); (u "schema_version", JInt MANIFEST_SCHEMA_VERSION)]) = true) as Htop.
  { intros v Hv. apply andb_true_iff. split; [|reflexivity]. apply andb_true_iff. split; [reflexivity|exact Hv]. }
  apply Htop. cbn [scalar_json]. apply forallb_forall. unfold es.
  intros kv ([k e] & <- & Hk)%in_map_iff. apply list_elem_of_In in Hk.
  pose proof (proj1 (Forall_forall _ _) (sound_list m Hm) _ Hk) as [[key Hd] [Hp Hh]%target_entry_Ok]. cbn [fst snd] in *.
  rewrite (scalar_key _ _ Hd), andb_true_l. apply andb_true_iff. split; [|apply andb_true_iff; split; [|reflexivity]];
    (apply andb_true_iff; split; [reflexivity|]); [by apply normalize_scalar in Hp|by apply digest_scalar].
Qed.

Lemma manifest_wf m : wf_json (manifest_json m) = true.
Proof.
  apply wf_JObj. split; [apply (bool_decide_unpack _); vm_compute; exact I|]. repeat constructor. cbn [snd]. apply wf_JObj. split.
  - rewrite <- list_fmap_compose. apply NoDup_fst_map_to_list.
  - apply List.Forall_map, Forall_forall. intros kv _. cbn [snd]. vm_compute. reflexivity.
Qed.

Lemma serialize_sound m : sound m -> exists bytes, _serialize_manifest nfc casefold m = Ok bytes /\ utf8_encode (manifest_text m ++ [10%N]) = Ok bytes.
Proof.
  intros Hm. unfold _serialize_manifest, _assert_unique_artifact_paths. rewrite (sound_unique _ Hm). cbn [bind]. fold (manifest_text m).
  assert (utf8_encode (manifest_text m) = Ok (manifest_text m ≫= utf8_char)) as He by (unfold utf8_encode; by rewrite manifest_scalar).
  rewrite He. cbn [bind]. eexists. split; [reflexivity|]. apply utf8_encode_app; [exact He|reflexivity].
Qed.

(** What is written is read. *)
Lemma parse_serialize m bytes own : sound m -> _serialize_manifest nfc casefold m = Ok bytes -> _parse_manifest nfc casefold bytes own = Ok m.
Proof.
  intros Hm Hb. destruct (serialize_sound m Hm) as (bytes' & Hb' & Hu). rewrite Hb in Hb'. apply Ok_inj in Hb' as <-.
  unfold _parse_manifest. rewrite (utf8_round_trip _ _ Hu). unfold manifest_text. rewrite loads_indent by apply wf_sort_json, manifest_wf.
  rewrite sort_manifest. match goal with |- context [has_keys ?d ?ks] => assert (has_keys d ks = true) as -> by (vm_compute; reflexivity) end.
  cbn [negb]. set (es := map _ _). change (member (u "schema_version") _) with (JInt MANIFEST_SCHEMA_VERSION).
  change (member (u "hash_algorithm") _) with (JStr HASH_ALGORITHM). change (member (u "entries") _) with (JObj es).
  cbv iota beta. assert (negb (MANIFEST_SCHEMA_VERSION =? MANIFEST_SCHEMA_VERSION)%Z || negb (bool_decide (HASH_ALGORITHM = HASH_ALGORITHM)) = false) as -> by reflexivity. unfold es. rewrite parse_entries_back by (by apply sound_list).
  assert (list_to_map (isort key_leb (map_to_list m)) = m) as ->.
  { rewrite (list_to_map_proper _ (map_to_list m)); [apply list_to_map_to_list|rewrite isort_perm; apply NoDup_fst_map_to_list|apply isort_perm]. }
  cbn [bind]. unfold _assert_unique_artifact_paths. rewrite (sound_unique _ Hm). by destruct own.
Qed.

Lemma parse_entry_Ok k j e : parse_entry nfc casefold k j = Ok e -> (exists key, decode nfc k = Ok key) /\ target_entry casefold e = Ok tt.
Proof.
  unfold parse_entry. intros (key & Hk & H)%bind_Ok. destruct j as [| | | | | |d]; try discriminate H. destruct (has_keys d _); [|discriminate H].
  cbn [negb] in H. apply bind_Ok in H as (p & Hp & H).
  destruct (member (u "artifact_path") d) as [| | | |s| |]; try discriminate H. destruct (member (u "basis_digest") d) as [| | | |h| |]; try discriminate H.
  destruct (decide (p = s)) as [->|]; [rewrite bool_decide_eq_true_2 in H by done|rewrite bool_decide_eq_false_2 in H by done; discriminate H].
  cbn [negb] in H. destruct (is_prefixed_digest h) eqn:Hd; [|discriminate H]. apply Ok_inj in H as <-. unfold as_manifest_error in *. split.
  - exists key. destruct (decode nfc k) as [a|x]; [congruence|]. by destruct (is_value_error x).
  - unfold target_entry. cbn [artifact_path basis_digest]. cbn [normalize_artifact_path] in Hp.
    destruct (normalize_path casefold s) as [q|x]; [apply Ok_inj in Hp as ->|by destruct (is_value_error x)].
    cbn [bind]. by rewrite bool_decide_eq_true_2, Hd.
Qed.

Lemma parse_entries_Ok raw m : parse_entries nfc casefold raw = Ok m ->
  forall k e, m !! k = Some e -> (exists key, decode nfc k = Ok key) /\ target_entry casefold e = Ok tt.
Proof.
  revert m. induction raw as [|[k j] raw IH]; cbn [parse_entries]; intros m H; [apply Ok_inj in H as <-; intros k e He; by rewrite lookup_empty in He|].
  apply bind_Ok in H as (e & He & H). apply bind_Ok in H as (others & Ho & H). apply Ok_inj in H as <-.
  intros k' e' [[<- <-]|[_ Hk]]%lookup_insert_Some; [by eapply parse_entry_Ok|by eapply IH].
Qed.

(** Only sound claims are read. *)
Lemma parse_sound bytes m : _parse_manifest nfc casefold bytes true = Ok m -> sound m.
Proof.
  unfold _parse_manifest. intros H. repeat (case_hyp; try discriminate H). apply bind_Ok in H as (es & He & H). apply bind_Ok in H as (x & Hx & H).
  apply Ok_inj in H as ->. constructor; [by eapply parse_entries_Ok|]. unfold _assert_unique_artifact_paths in Hx. by destruct (unique_paths _ _ _).
Qed.

(** Without the check of paths the same claims are read. *)
Lemma parse_unchecked bytes m : _parse_manifest nfc casefold bytes true = Ok m -> _parse_manifest nfc casefold bytes false = Ok m.
Proof.
  unfold _parse_manifest. intros H. repeat (case_hyp; try discriminate H). apply bind_Ok in H as (es & -> & H). apply bind_Ok in H as (x & _ & H). exact H.
Qed.
End round_trip.
