(* ===== verification/ArtifactAdapter.v ===== *)
(** * The manifest of artifacts: the storage seam

    [ArtifactManifestAdapter] of [lib/artifact_manifest.py] as a class: what the
    storage promises to the domain, stated on the claims it holds.  Its two
    implementations, in memory and in a file of the project, are instances.  The lock
    is one call at a time.  A call of the project adapter may be refused before it
    does anything, or interrupted after it has: the schedule of the state says which. *)

From S2P Require Import Prelude Json Assets AssetRename Codec ArtifactKey ArtifactStore.

(** ** What the storage sees *)

Record ArtifactBlocker := mkBlocker { blocker_code : string; blocker_path : pystr }.

Record ArtifactObservation := mkObservation { obs_path : pystr; present : bool; blocker : option ArtifactBlocker }.

Abbreviation changes := (gmap pystr (option ArtifactManifestEntry)).
Abbreviation scoped := (list (ArtifactKey * option ArtifactManifestEntry)).

(** [any(entries.get(key) != entry for ...)], negated. *)
Definition holds (expected : changes) (m : claims) : bool := forallb (fun kx => bool_decide (m !! kx.1 = kx.2)) (map_to_list expected).

Definition apply_change (m : claims) (kx : pystr * option ArtifactManifestEntry) : claims :=
  match kx.2 with Some e => <[kx.1 := e]> m | None => delete kx.1 m end.

(** [for key, entry in encoded_replacements.items(): ...] *)
Definition apply_changes (replacements : changes) (m : claims) : claims := foldl apply_change m (map_to_list replacements).

(** ** What a call should do *)

Inductive expectation :=
| Done (m : claims) (answer : bool -> Prop)
| Fails (e : exc).

Section spec.
Context (nfc casefold : pystr -> pystr).
Abbreviation unique_paths := (unique_paths nfc casefold).

Definition spec_put (m : claims) (t : pystr) (e : ArtifactManifestEntry) : expectation :=
  if bool_decide (m !! t = Some e) then Done m (eq false)
  else if unique_paths (<[t := e]> m) then Done (<[t := e]> m) (eq true) else Fails ArtifactManifestError.

Definition spec_delete (m : claims) (t : pystr) : expectation := Done (delete t m) (eq (bool_decide (is_Some (m !! t)))).

(** A swap that changes nothing may answer either way: the file of an adapter can
    change where the claims do not. *)
Definition spec_swap (m : claims) (expected replacements : changes) : expectation :=
  if holds expected m then
    let m' := apply_changes replacements m in
    if bool_decide (m' = m) then Done m (fun _ => True) else if unique_paths m' then Done m' (eq true) else Fails ArtifactManifestError
  else Done m (eq false).

Definition spec_snapshot (m expected replacement : claims) : expectation :=
  if unique_paths replacement then if bool_decide (m = expected) then Done replacement (eq true) else Done m (eq false)
  else Fails ArtifactManifestError.

(** The text of a key, which gives it back. *)
Definition names (key : ArtifactKey) (t : pystr) : Prop := encode key = Ok t /\ decode nfc t = Ok key.

Definition fit (e : ArtifactManifestEntry) : Prop := target_entry casefold e = Ok tt.
End spec.

(** ** The seam *)

Class Adapter (S : Type) := {
  inspect_artifact : S -> pystr -> ArtifactObservation;
  get_entry : ArtifactKey -> act S (option ArtifactManifestEntry);
  put_entry : ArtifactKey -> ArtifactManifestEntry -> act S bool;
  delete_entry : ArtifactKey -> act S bool;
  replace_entries_if_matches_atomically : scoped -> scoped -> act S bool;
  (** the claims that the storage holds, and how many calls are still to fail *)
  reads : S -> claims -> Prop;
  troubles : S -> nat
}.

Section promise.
Context {S : Type} `{Adapter S}.

(** A call does what is expected, or it fails by a trouble of the storage and has
    done all of it or nothing. *)
Definition implements (s : S) (out : result bool * S) (m : claims) (want : expectation) : Prop :=
  (troubles out.2 <= troubles s
   /\ match want with
      | Done m' answer => exists b, out.1 = Ok b /\ answer b /\ reads out.2 m'
      | Fails e => out.1 = Raise e /\ reads out.2 m
      end)
  \/ (troubles out.2 < troubles s /\ (exists e, out.1 = Raise e /\ e <> RollbackIncomplete)
      /\ (reads out.2 m \/ match want with Done m' _ => reads out.2 m' | Fails _ => False end)).

Definition answers (s : S) (out : result (option ArtifactManifestEntry) * S) (m : claims) (want : option ArtifactManifestEntry) : Prop :=
  reads out.2 m
  /\ ((troubles out.2 <= troubles s /\ out.1 = Ok want)
      \/ (troubles out.2 < troubles s /\ exists e, out.1 = Raise e /\ e <> RollbackIncomplete)).
End promise.

Class AdapterLaws (nfc casefold : pystr -> pystr) (S : Type) `{Adapter S} := {
  reads_sound s m : reads s m -> sound nfc casefold m;
  inspect_path s p : blocker (inspect_artifact s p) = None -> normalize_path casefold p = Ok (obs_path (inspect_artifact s p));
  get_law s m key t : reads s m -> names nfc key t -> answers s (get_entry key s) m (m !! t);
  put_law s m key t e : reads s m -> names nfc key t -> fit casefold e -> implements s (put_entry key e s) m (spec_put nfc casefold m t e);
  delete_law s m key t : reads s m -> names nfc key t -> implements s (delete_entry key s) m (spec_delete m t);
  swap_law s m expected replacements x y :
    reads s m -> Forall (fun ke => exists t, names nfc ke.1 t) replacements ->
    _encode_optional_entries casefold expected = Ok x -> _encode_optional_entries casefold replacements = Ok y ->
    implements s (replace_entries_if_matches_atomically expected replacements s) m (spec_swap nfc casefold m x y)
}.

(** ** In memory *)

Record Memory := mkMemory { entries : claims; artifacts : list pystr }.

Section memory.
Context (nfc casefold : pystr -> pystr).
Abbreviation _assert_unique_artifact_paths := (_assert_unique_artifact_paths nfc casefold).

Definition memory_inspect (s : Memory) (path : pystr) : ArtifactObservation :=
  match normalize_path casefold path with
  | Raise _ => mkObservation path false (Some (mkBlocker "artifact_path_invalid" path))
  | Ok normalized => mkObservation normalized (bool_decide (normalized ∈ artifacts s)) None
  end.

(** A write: the claims become the ones given. *)
Definition set_entries (m : claims) : act Memory unit := fun s => (Ok tt, mkMemory m (artifacts s)).
Definition get_entries : act Memory claims := fun s => (Ok (entries s), s).

Definition memory_get_entry (key : ArtifactKey) : act Memory (option ArtifactManifestEntry) :=
  do! m := get_entries in do! t := lift (encode key) in ret (m !! t).

Definition memory_put_entry (key : ArtifactKey) (entry : ArtifactManifestEntry) : act Memory bool :=
  do! t := lift (encode key) in
  do! m := get_entries in
  if bool_decide (m !! t = Some entry) then ret false
  else
    let updated := <[t := entry]> m in
    do! _ := lift (_assert_unique_artifact_paths updated) in
    do! _ := set_entries updated in
    ret true.

Definition memory_delete_entry (key : ArtifactKey) : act Memory bool :=
  do! t := lift (encode key) in
  do! m := get_entries in
  do! _ := set_entries (delete t m) in
  ret (bool_decide (is_Some (m !! t))).

Definition memory_swap (expected replacements : scoped) : act Memory bool :=
  do! encoded_expected := lift (_encode_optional_entries casefold expected) in
  do! encoded_replacements := lift (_encode_optional_entries casefold replacements) in
  do! m := get_entries in
  if negb (holds encoded_expected m) then ret false
  else
    let updated := apply_changes encoded_replacements m in
    if bool_decide (updated = m) then ret false
    else
      do! _ := lift (_assert_unique_artifact_paths updated) in
      do! _ := set_entries updated in
      ret true.

Definition memory_snapshot_swap (expected replacement : list (ArtifactKey * ArtifactManifestEntry)) : act Memory bool :=
  do! encoded_expected := lift (_encode_target_entries casefold expected) in
  do! encoded_replacement := lift (_encode_target_entries casefold replacement) in
  do! _ := lift (_assert_unique_artifact_paths encoded_replacement) in
  do! m := get_entries in
  if negb (bool_decide (m = encoded_expected)) then ret false
  else do! _ := set_entries encoded_replacement in ret true.

Definition memory_replace_entries (target : list (ArtifactKey * ArtifactManifestEntry)) : act Memory bool :=
  do! encoded := lift (_encode_target_entries casefold target) in
  do! _ := lift (_assert_unique_artifact_paths encoded) in
  do! m := get_entries in
  if bool_decide (m = encoded) then ret false
  else do! _ := set_entries encoded in ret true.
End memory.

(** ** In a file of the project *)

Inductive fault := Fine | Refused (e : exc) | Interrupted (e : exc).

(** What the operating system shows of a path below the project directory. *)
Inductive sight := Absent | Regular | Barred (code : string).

Record Project := mkProject { manifest : option (list N); look : pystr -> sight; schedule : list fault }.

Section project.
Context (nfc casefold : pystr -> pystr).
Abbreviation _serialize_manifest := (_serialize_manifest nfc casefold).

Definition project_inspect (s : Project) (path : pystr) : ArtifactObservation :=
  match normalize_path casefold path with
  | Raise _ => mkObservation path false (Some (mkBlocker "artifact_path_invalid" path))
  | Ok normalized =>
      match look s normalized with
      | Absent => mkObservation normalized false None
      | Regular => mkObservation normalized true None
      | Barred code => mkObservation normalized false (Some (mkBlocker code normalized))
      end
  end.

Definition _load_unlocked (file : option (list N)) (validate_path_ownership : bool) : result (claims * option (list N)) :=
  match file with
  | None => Ok (∅, None)
  | Some raw => let! m := _parse_manifest nfc casefold raw validate_path_ownership in Ok (m, Some raw)
  end.

(** [with self._locked()]: the body gives what it returns and the file it leaves. *)
Definition locked {A} (body : option (list N) -> result (A * option (list N))) : act Project A :=
  fun s =>
    let rest := tail (schedule s) in
    match head (schedule s) with
    | Some (Refused e) => (Raise e, mkProject (manifest s) (look s) rest)
    | f =>
        match body (manifest s) with
        | Raise e => (Raise e, mkProject (manifest s) (look s) rest)
        | Ok (a, file) => (match f with Some (Interrupted e) => Raise e | _ => Ok a end, mkProject file (look s) rest)
        end
    end.

Definition project_get_entry (key : ArtifactKey) : act Project (option ArtifactManifestEntry) :=
  locked (fun file => let! loaded := _load_unlocked file true in let! t := encode key in Ok (loaded.1 !! t, file)).

(** The end of a write: the file is left if its bytes are the same. *)
Definition write_if_changed (m : claims) (original : option (list N)) : result (bool * option (list N)) :=
  let! new_bytes := _serialize_manifest m in
  if bool_decide (original = Some new_bytes) then Ok (false, original) else Ok (true, Some new_bytes).

Definition project_put_entry (key : ArtifactKey) (entry : ArtifactManifestEntry) : act Project bool :=
  locked (fun file =>
    let! loaded := _load_unlocked file true in
    let '(m, original) := loaded in
    let! t := encode key in
    if bool_decide (m !! t = Some entry) && bool_decide (is_Some original) then Ok (false, file)
    else write_if_changed (<[t := entry]> m) original).

Definition project_delete_entry (key : ArtifactKey) : act Project bool :=
  locked (fun file =>
    let! loaded := _load_unlocked file true in
    let '(m, original) := loaded in
    let! t := encode key in
    match m !! t with
    | None => Ok (false, file)
    | Some _ =>
        let m := delete t m in
        if bool_decide (m = ∅) then Ok (true, None) else write_if_changed m original
    end).

Definition project_swap (expected replacements : scoped) : act Project bool :=
  do! encoded_expected := lift (_encode_optional_entries casefold expected) in
  do! encoded_replacements := lift (_encode_optional_entries casefold replacements) in
  locked (fun file =>
    let! loaded := _load_unlocked file true in
    let '(m, original) := loaded in
    if negb (holds encoded_expected m) then Ok (false, file)
    else
      let m := apply_changes encoded_replacements m in
      if bool_decide (m = ∅) then Ok (bool_decide (is_Some original), None) else write_if_changed m original).

Definition project_swap_one (key : ArtifactKey) (expected : ArtifactManifestEntry) (replacement : option ArtifactManifestEntry) : act Project bool :=
  project_swap [(key, Some expected)] [(key, replacement)].

Definition project_snapshot_swap (expected replacement : list (ArtifactKey * ArtifactManifestEntry)) : act Project bool :=
  do! encoded_expected := lift (_encode_target_entries casefold expected) in
  do! encoded_replacement := lift (_encode_target_entries casefold replacement) in
  do! new_bytes := lift (_serialize_manifest encoded_replacement) in
  locked (fun file =>
    let! loaded := _load_unlocked file true in
    let '(current, original) := loaded in
    if negb (bool_decide (current = encoded_expected)) then Ok (false, file)
    else if bool_decide (current = encoded_replacement) then Ok (true, file)
    else if bool_decide (encoded_replacement = ∅) then Ok (true, None)
    else if bool_decide (original = Some new_bytes) then Ok (true, file)
    else Ok (true, Some new_bytes)).

(** A formal file that can be registered. *)
Definition registrable (o : ArtifactObservation) : bool := match blocker o with Some _ => false | None => present o end.

(** [for entry in encoded.values(): observation = self.inspect_artifact(...)] *)
Definition all_there (m : claims) : act Project unit := fun s =>
  (if forallb (fun kv => registrable (project_inspect s (artifact_path kv.2))) (map_to_list m) then Ok tt else Raise ArtifactRegistrationError, s).

Definition project_replace_entries (target : list (ArtifactKey * ArtifactManifestEntry)) : act Project bool :=
  do! encoded := lift (_encode_target_entries casefold target) in
  do! _ := all_there encoded in
  do! new_bytes := lift (_serialize_manifest encoded) in
  locked (fun file =>
    let! loaded := _load_unlocked file true in
    if bool_decide (loaded.2 = Some new_bytes) then Ok (false, file) else Ok (true, Some new_bytes)).

(** [except ArtifactManifestError] *)
Definition is_manifest_error (e : exc) : bool := match e with ArtifactManifestError | ArtifactRegistrationError => true | _ => false end.

Definition replace_unreadable_entries_atomically (target : list (ArtifactKey * ArtifactManifestEntry)) : act Project bool :=
  do! encoded := lift (_encode_target_entries casefold target) in
  do! _ := all_there encoded in
  do! new_bytes := lift (_serialize_manifest encoded) in
  locked (fun file =>
    match _load_unlocked file true with
    | Raise e => if is_manifest_error e then Ok (true, Some new_bytes) else Raise e
    | Ok (current, _) => if bool_decide (current = encoded) then Ok (false, file) else Raise ArtifactManifestError
    end).

Fixpoint decode_all (l : list (pystr * ArtifactManifestEntry)) : result (list (ArtifactKey * ArtifactManifestEntry)) :=
  match l with
  | [] => Ok []
  | (k, e) :: r => let! key := decode nfc k in let! others := decode_all r in Ok ((key, e) :: others)
  end.

Definition project_snapshot_entries : act Project (list (ArtifactKey * ArtifactManifestEntry)) :=
  locked (fun file => let! loaded := _load_unlocked file true in let! decoded := decode_all (map_to_list loaded.1) in Ok (decoded, file)).

Definition repair_path_conflicted_entries_atomically
    (repair : list (ArtifactKey * ArtifactManifestEntry) -> result (list (ArtifactKey * ArtifactManifestEntry))) : act Project bool :=
  locked (fun file =>
    let! loaded := _load_unlocked file false in
    if unique_paths nfc casefold loaded.1 then Raise ArtifactManifestError
    else
      let! decoded := decode_all (map_to_list loaded.1) in
      let! repaired := repair decoded in
      let! replacement := _encode_target_entries casefold repaired in
      let! new_bytes := _serialize_manifest replacement in
      Ok (true, Some new_bytes)).
End project.

(** ** Claims and changes *)

Lemma foldl_apply (l : list (pystr * option ArtifactManifestEntry)) (m : claims) (k : pystr) : NoDup l.*1 ->
  foldl apply_change m l !! k = match (list_to_map l : changes) !! k with Some x => x | None => m !! k end.
Proof.
  revert m. induction l as [|[k' x] l IH]; intros m Hnd; [done|]. cbn [fmap list_fmap fst] in Hnd. apply NoDup_cons in Hnd as [Hk Hnd]. cbn [foldl].
  rewrite IH by done. cbn [list_to_map foldr fst snd]. change (foldr _ _ l) with (list_to_map l : changes). destruct (decide (k' = k)) as [->|Hne].
  - rewrite lookup_insert_eq, not_elem_of_list_to_map_1 by done. unfold apply_change. cbn [fst snd]. destruct x; [apply lookup_insert_eq|apply lookup_delete_eq].
  - rewrite lookup_insert_ne by done. destruct (list_to_map l !! k); [done|]. unfold apply_change. cbn [fst snd]. destruct x; [by apply lookup_insert_ne|by apply lookup_delete_ne].
Qed.

Lemma lookup_apply (r : changes) (m : claims) (k : pystr) : apply_changes r m !! k = match r !! k with Some x => x | None => m !! k end.
Proof. unfold apply_changes. rewrite foldl_apply by apply NoDup_fst_map_to_list. by rewrite list_to_map_to_list. Qed.

Lemma holds_spec (x : changes) (m : claims) : holds x m = true <-> forall k v, x !! k = Some v -> m !! k = v.
Proof.
  unfold holds. rewrite forallb_forall. split.
  - intros H k v Hk. specialize (H (k, v)). rewrite bool_decide_eq_true in H. by apply H, list_elem_of_In, elem_of_map_to_list.
  - intros H [k v] Hk%list_elem_of_In%elem_of_map_to_list. apply bool_decide_eq_true. by apply H.
Qed.

Section sound_claims.
Context (nfc casefold : pystr -> pystr).
Abbreviation unique_paths := (unique_paths nfc casefold).
Abbreviation filesystem_identity := (filesystem_identity nfc casefold).

Lemma unique_spec (m : claims) :
  unique_paths m = true <-> forall k1 k2 e1 e2, m !! k1 = Some e1 -> m !! k2 = Some e2 -> filesystem_identity e1 = filesystem_identity e2 -> k1 = k2.
Proof.
  unfold ArtifactStore.unique_paths. rewrite bool_decide_eq_true. set (f := fun kv : pystr * ArtifactManifestEntry => filesystem_identity kv.2). split.
  - intros H k1 k2 e1 e2 H1 H2 He. apply elem_of_map_to_list in H1, H2. apply list_elem_of_lookup in H1 as [i Hi], H2 as [j Hj].
    assert (i = j) as <-; [|congruence]. eapply (NoDup_lookup _ _ _ (f (k1, e1)) H); rewrite list_lookup_fmap; [by rewrite Hi|rewrite Hj; change (f (k1, e1)) with (filesystem_identity e1); by rewrite He].
  - intros H. apply (NoDup_fmap_2_strong f); [|apply NoDup_map_to_list]. intros [k1 e1] [k2 e2] H1%elem_of_map_to_list H2%elem_of_map_to_list He.
    cbn [f snd] in He. assert (k1 = k2) as <- by eauto. congruence.
Qed.

Lemma unique_empty : unique_paths ∅ = true.
Proof. apply unique_spec. intros k1 k2 e1 e2 H. by rewrite lookup_empty in H. Qed.

Lemma unique_subset (m m' : claims) : m' ⊆ m -> unique_paths m = true -> unique_paths m' = true.
Proof. rewrite !unique_spec. intros Hs H k1 k2 e1 e2 H1 H2. by apply H; eapply lookup_weaken. Qed.

Lemma sound_empty : sound nfc casefold ∅.
Proof. constructor; [intros k e H; by rewrite lookup_empty in H|apply unique_empty]. Qed.

Lemma sound_subset m m' : m' ⊆ m -> sound nfc casefold m -> sound nfc casefold m'.
Proof. intros Hs Hm. constructor; [intros k e He; eapply (sound_entry _ _ _ Hm), lookup_weaken; done|by eapply unique_subset, (sound_unique _ _ _ Hm)]. Qed.

Lemma sound_insert m key t e : sound nfc casefold m -> names nfc key t -> fit casefold e -> unique_paths (<[t := e]> m) = true -> sound nfc casefold (<[t := e]> m).
Proof.
  intros Hm [_ Hk] He Hu. constructor; [|done]. intros k e' [[<- <-]|[_ H]]%lookup_insert_Some; [eauto|by apply (sound_entry _ _ _ Hm)].
Qed.

Lemma names_inj key t t' : names nfc key t -> encode key = Ok t' -> t' = t.
Proof. intros [H _] H'. rewrite H in H'. by apply Ok_inj in H'. Qed.

Lemma encode_targets_fit l acc m : encode_targets casefold l acc = Ok m -> forall k e, (k, e) ∈ l -> fit casefold e.
Proof.
  revert acc. induction l as [|[k e] l IH]; intros acc H k' e' Hin; [by apply not_elem_of_nil in Hin|]. cbn [encode_targets] in H.
  apply bind_Ok in H as ([] & He & H). apply bind_Ok in H as (t & _ & H). case_hyp; [discriminate H|].
  apply elem_of_cons in Hin as [[= -> ->]|Hin]; [done|by eapply IH].
Qed.

Lemma normalize_raises p e : normalize_path casefold p = Raise e -> e <> RollbackIncomplete.
Proof. unfold normalize_path. repeat (case_goal; [by intros [= <-]|]). cbv zeta. repeat (case_goal; [by intros [= <-]|]). done. Qed.

Lemma encode_targets_raises l acc e : encode_targets casefold l acc = Raise e -> e <> RollbackIncomplete.
Proof.
  assert (forall en x, target_entry casefold en = Raise x -> x <> RollbackIncomplete) as Ht.
  { intros en x. unfold target_entry. destruct (normalize_path casefold (artifact_path en)) as [q|x'] eqn:E; cbn [bind].
    - repeat case_goal; by intros [= <-].
    - intros [= <-]. by eapply normalize_raises. }
  revert acc. induction l as [|[k en] l IH]; intros acc H; [done|]. cbn [encode_targets] in H.
  destruct (target_entry casefold en) as [[]|x] eqn:E; cbn [bind] in H; [|apply Ht in E; congruence].
  destruct (encode k) as [t|x] eqn:Ek; cbn [bind] in H; [case_hyp; [by injection H as <-|by eapply IH]|].
  unfold encode, utf8_encode in Ek. case_hyp; cbn [bind] in Ek; congruence.
Qed.

Lemma encode_optional_from (l : scoped) (y : changes) t x : encode_optional l = Ok y -> y !! t = Some x -> exists key, (key, x) ∈ l /\ encode key = Ok t.
Proof.
  revert y. induction l as [|[k e] l IH]; cbn [encode_optional]; intros y H Hx; [apply Ok_inj in H as <-; by rewrite lookup_empty in Hx|].
  apply bind_Ok in H as (t' & Ht & H). apply bind_Ok in H as (others & Ho & H). apply Ok_inj in H as <-.
  assert (others !! t = Some x \/ t' = t /\ e = x) as [Ht'|[-> ->]].
  { case_hyp; [by left|]. apply lookup_insert_Some in Hx as [[-> ->]|[_ Hx]]; [by right|by left]. }
  - destruct (IH _ Ho Ht') as (key & Hk & Hkt). exists key. split; [by apply elem_of_cons; right|done].
  - exists k. split; [by apply elem_of_cons; left|done].
Qed.

(** What the encoding of a scoped mapping holds. *)
Lemma encoded_change (l : scoped) (y : changes) t x : _encode_optional_entries casefold l = Ok y -> y !! t = Some x ->
  exists key, (key, x) ∈ l /\ encode key = Ok t /\ forall e, x = Some e -> fit casefold e.
Proof.
  unfold _encode_optional_entries. intros (m & Hm & H)%bind_Ok Hx. destruct (encode_optional_from _ _ _ _ H Hx) as (key & Hin & Ht).
  exists key. split; [done|]. split; [done|]. intros e ->. eapply encode_targets_fit; [exact Hm|]. apply list_elem_of_omap. by exists (key, Some e).
Qed.

Lemma sound_apply (l : scoped) (y : changes) m :
  sound nfc casefold m -> Forall (fun ke => exists t, names nfc ke.1 t) l -> _encode_optional_entries casefold l = Ok y ->
  unique_paths (apply_changes y m) = true -> sound nfc casefold (apply_changes y m).
Proof.
  intros Hm Hl Hy Hu. constructor; [|done]. intros k e. rewrite lookup_apply. destruct (y !! k) as [x|] eqn:Hk; [intros ->|apply (sound_entry _ _ _ Hm)].
  destruct (encoded_change _ _ _ _ Hy Hk) as (key & Hin & Ht & Hfit). split; [|by apply Hfit].
  rewrite Forall_forall in Hl. destruct (Hl _ Hin) as [t Hn]. cbn [fst] in Hn. rewrite (names_inj _ _ _ Hn Ht). exists key. apply Hn.
Qed.

Lemma encode_targets_from l acc m k e : encode_targets casefold l acc = Ok m -> m !! k = Some e ->
  acc !! k = Some e \/ exists key, (key, e) ∈ l /\ encode key = Ok k.
Proof.
  revert acc. induction l as [|[k' e'] l IH]; intros acc H Hk; [apply Ok_inj in H as <-; by left|]. cbn [encode_targets] in H.
  apply bind_Ok in H as ([] & He & H). apply bind_Ok in H as (t & Ht & H). case_hyp; [discriminate H|].
  destruct (IH _ H Hk) as [[[-> ->]|[_ Ha]]%lookup_insert_Some|(key & Hin & Hkt)].
  - right. exists k'. split; [by apply elem_of_cons; left|done].
  - by left.
  - right. exists key. split; [by apply elem_of_cons; right|done].
Qed.

Lemma sound_targets l m : Forall (fun ke => exists t, names nfc ke.1 t) l -> _encode_target_entries casefold l = Ok m ->
  unique_paths m = true -> sound nfc casefold m.
Proof.
  intros Hl Hm Hu. constructor; [|done]. intros k e Hk. destruct (encode_targets_from _ _ _ _ _ Hm Hk) as [H|(key & Hin & Ht)]; [by rewrite lookup_empty in H|].
  split; [|by eapply encode_targets_fit]. rewrite Forall_forall in Hl. destruct (Hl _ Hin) as [t Hn]. rewrite (names_inj _ _ _ Hn Ht). exists key. apply Hn.
Qed.
End sound_claims.

(** ** The instances *)

Section memory_instance.
Context (nfc casefold : pystr -> pystr).

#[export] Instance memory_adapter : Adapter Memory := {
  inspect_artifact := memory_inspect casefold;
  get_entry := memory_get_entry;
  put_entry := memory_put_entry nfc casefold;
  delete_entry := memory_delete_entry;
  replace_entries_if_matches_atomically := memory_swap nfc casefold;
  reads s m := entries s = m /\ sound nfc casefold m;
  troubles _ := 0
}.

(** Nothing goes wrong in memory. *)
Lemma memory_follows s out m want :
  match want with Done m' answer => exists b, out = (Ok b, mkMemory m' (artifacts s)) /\ answer b /\ sound nfc casefold m' | Fails e => out = (Raise e, s) end ->
  reads s m -> implements s out m want.
Proof.
  intros H Hr. left. destruct want as [m' answer|e].
  - destruct H as (b & -> & Hb & Hs). split; [done|]. by exists b.
  - by rewrite H.
Qed.

#[export] Instance memory_laws : AdapterLaws nfc casefold Memory.
Proof.
  constructor.
  - by intros s m [_ H].
  - intros s p. cbn [inspect_artifact memory_adapter]. unfold memory_inspect. by destruct (normalize_path casefold p).
  - intros s m key t [<- Hs] [Ht _]. split; [|left]; cbn; unfold memory_get_entry, then_; cbn; by rewrite Ht.
  - intros s m key t e [<- Hs] Hn He. apply memory_follows; [|done]. cbn [put_entry memory_adapter]. unfold spec_put, memory_put_entry, then_, lift, get_entries.
    rewrite (proj1 Hn). destruct (bool_decide (entries s !! t = Some e)); [exists false; split; [by destruct s|done]|].
    unfold _assert_unique_artifact_paths. destruct (unique_paths nfc casefold (<[t:=e]> (entries s))) eqn:Hu; [|done].
    exists true. split; [done|]. split; [done|]. by eapply sound_insert.
  - intros s m key t [<- Hs] Hn. apply memory_follows; [|done]. cbn [delete_entry memory_adapter]. unfold spec_delete, memory_delete_entry, then_, lift, get_entries.
    rewrite (proj1 Hn). eexists. split; [reflexivity|]. split; [done|]. eapply sound_subset; [apply delete_subseteq|done].
  - intros s m expected replacements x y [<- Hs] Hn Hx Hy. apply memory_follows; [|done].
    cbn [replace_entries_if_matches_atomically memory_adapter]. unfold spec_swap, memory_swap, then_, lift, get_entries. rewrite Hx, Hy. cbv beta zeta.
    destruct (holds x (entries s)); cbn [negb]; [|exists false; split; [by destruct s|done]].
    destruct (bool_decide (apply_changes y (entries s) = entries s)); [exists false; split; [by destruct s|done]|].
    unfold _assert_unique_artifact_paths. destruct (unique_paths nfc casefold (apply_changes y (entries s))) eqn:Hu; [|done].
    exists true. split; [done|]. split; [done|]. by eapply sound_apply.
Qed.
End memory_instance.

Section project_instance.
Context (nfc casefold : pystr -> pystr).

(** A file that holds the claims. *)
Definition loads_to (file : option (list N)) (m : claims) : Prop := _load_unlocked nfc casefold file true = Ok (m, file).

Definition fault_exc (f : fault) : option exc := match f with Fine => None | Refused e | Interrupted e => Some e end.
Definition is_trouble (f : fault) : bool := match f with Fine => false | _ => true end.

#[export] Instance project_adapter : Adapter Project := {
  inspect_artifact := project_inspect casefold;
  get_entry := project_get_entry nfc casefold;
  put_entry := project_put_entry nfc casefold;
  delete_entry := project_delete_entry nfc casefold;
  replace_entries_if_matches_atomically := project_swap nfc casefold;
  reads s m := loads_to (manifest s) m /\ Forall (fun f => fault_exc f <> Some RollbackIncomplete) (schedule s);
  troubles s := length (where_ is_trouble (schedule s))
}.

Lemma loads_sound file m : loads_to file m -> sound nfc casefold m.
Proof.
  unfold loads_to, _load_unlocked. destruct file as [raw|].
  - intros (m' & Hm & H)%bind_Ok. apply Ok_inj, pair_equal_spec in H as [<- _]. by eapply parse_sound.
  - intros H. apply Ok_inj, pair_equal_spec in H as [<- _]. apply sound_empty.
Qed.

Lemma loads_inj file m m' : loads_to file m -> loads_to file m' -> m = m'.
Proof. unfold loads_to. intros ->. by intros [[= ->] _]%Ok_inj%pair_equal_spec. Qed.

Lemma write_loads m original m0 : sound nfc casefold m -> loads_to original m0 ->
  exists b file, write_if_changed nfc casefold m original = Ok (b, file) /\ loads_to file m /\ (m <> m0 -> b = true) .
Proof.
  intros Hm H0. unfold write_if_changed. destruct (serialize_sound _ _ _ Hm) as (bytes & Hb & _). rewrite Hb. cbn [bind].
  assert (loads_to (Some bytes) m) as Hl.
  { unfold loads_to, _load_unlocked. by rewrite (parse_serialize _ _ _ _ true Hm Hb). }
  case_bool_decide as Ho; [|by exists true, (Some bytes)]. exists false, original. rewrite Ho in *. split; [done|]. split; [done|].
  intros Hne. by destruct Hne; eapply loads_inj.
Qed.

(** A locked call that does what is expected when nothing goes wrong. *)
Lemma locked_implements s m want body :
  reads s m ->
  match want with Done m' answer => exists b file, body (manifest s) = Ok (b, file) /\ answer b /\ loads_to file m' | Fails e => body (manifest s) = Raise e end ->
  implements s (locked body s) m want.
Proof.
  intros [Hl Hf] Hb. unfold implements, locked. cbn [troubles project_adapter]. destruct s as [file0 lk sch]. cbn [manifest look schedule] in *.
  destruct sch as [|f sch]; cbn [head tail where_ is_trouble]; [|apply Forall_cons in Hf as [Hf Hs]].
  - left. destruct want as [m' answer|e]; [destruct Hb as (b & file & -> & Ha & Hm')|rewrite Hb]; cbn [fst snd schedule length]; (split; [done|]); [by exists b|done].
  - assert (troubles (mkProject file0 lk sch) = length (where_ is_trouble sch)) as Htr by done.
    destruct f as [|e|e]; cbn [is_trouble] in *.
    + left. destruct want as [m' answer|e]; [destruct Hb as (b & file & -> & Ha & Hm')|rewrite Hb]; cbn [fst snd schedule]; (split; [done|]); [by exists b|done].
    + right. cbn [fst snd schedule length]. split; [lia|]. split; [exists e; split; [done|by intros ->]|]. by left.
    + destruct want as [m' answer|e'].
      * right. destruct Hb as (b & file & -> & Ha & Hm'). cbn [fst snd schedule length]. split; [lia|]. split; [exists e; split; [done|by intros ->]|]. by right.
      * left. rewrite Hb. cbn [fst snd schedule length]. split; [lia|done].
Qed.

Lemma get_answers s m t key : reads s m -> names nfc key t -> answers s (project_get_entry nfc casefold key s) m (m !! t).
Proof.
  intros [Hl Hf] [Ht _]. unfold answers, project_get_entry, locked. cbn [troubles reads project_adapter]. destruct s as [file lk sch]. cbn [manifest look schedule] in *.
  rewrite Hl. cbn [bind fst]. rewrite Ht. cbn [bind].
  destruct sch as [|f sch]; cbn [head tail where_ is_trouble]; [by split; [|left]|]. apply Forall_cons in Hf as [Hf Hs].
  destruct f as [|e|e]; cbn [fst snd manifest schedule length is_trouble]; (split; [done|]); [by left|right..]; (split; [lia|]); exists e; (split; [done|by intros ->]).
Qed.

Lemma loads_none m : loads_to None m -> m = ∅.
Proof. unfold loads_to. cbn [_load_unlocked]. by intros [<- _]%Ok_inj%pair_equal_spec. Qed.

Lemma put_implements s m key t e : reads s m -> names nfc key t -> fit casefold e -> implements s (project_put_entry nfc casefold key e s) m (spec_put nfc casefold m t e).
Proof.
  intros Hr Hn He. apply locked_implements; [done|]. destruct Hr as [Hl _]. pose proof (loads_sound _ _ Hl) as Hs.
  unfold spec_put. rewrite Hl. cbn [bind]. rewrite (proj1 Hn). cbn [bind]. case_bool_decide as Hg.
  - assert (is_Some (manifest s)) as Hsome.
    { destruct (manifest s); [done|]. apply loads_none in Hl as ->. by rewrite lookup_empty in Hg. }
    rewrite (bool_decide_eq_true_2 _ Hsome). by exists false, (manifest s).
  - destruct (unique_paths nfc casefold (<[t:=e]> m)) eqn:Hu; cbn [andb].
    + destruct (write_loads _ _ _ (sound_insert _ _ _ _ _ _ Hs Hn He Hu) Hl) as (b & file & -> & Hf & Hb). exists b, file. split; [done|]. split; [|done].
      rewrite Hb; [done|]. intros E. apply Hg. rewrite <- E. apply lookup_insert_eq.
    + unfold write_if_changed, _serialize_manifest, _assert_unique_artifact_paths. by rewrite Hu.
Qed.

Lemma delete_implements s m key t : reads s m -> names nfc key t -> implements s (project_delete_entry nfc casefold key s) m (spec_delete m t).
Proof.
  intros Hr Hn. apply locked_implements; [done|]. destruct Hr as [Hl _]. pose proof (loads_sound _ _ Hl) as Hs.
  unfold spec_delete. rewrite Hl. cbn [bind]. rewrite (proj1 Hn). cbn [bind]. destruct (m !! t) as [e|] eqn:Hg.
  - case_bool_decide as He; [exists true, None; rewrite He; done|].
    assert (sound nfc casefold (delete t m)) as Hd by (eapply sound_subset; [apply delete_subseteq|done]).
    destruct (write_loads _ _ _ Hd Hl) as (b & file & -> & Hf & Hb). exists b, file. split; [done|]. split; [|done]. rewrite Hb; [done|].
    intros E. rewrite <- E, lookup_delete_eq in Hg. done.
  - exists false, (manifest s). split; [done|]. split; [done|]. by rewrite delete_id.
Qed.

Lemma swap_implements s m expected replacements x y :
  reads s m -> Forall (fun ke => exists t, names nfc ke.1 t) replacements ->
  _encode_optional_entries casefold expected = Ok x -> _encode_optional_entries casefold replacements = Ok y ->
  implements s (project_swap nfc casefold expected replacements s) m (spec_swap nfc casefold m x y).
Proof.
  intros Hr Hn Hx Hy. unfold project_swap, then_, lift. rewrite Hx, Hy. apply locked_implements; [done|]. destruct Hr as [Hl _].
  pose proof (loads_sound _ _ Hl) as Hs. unfold spec_swap. rewrite Hl. cbn [bind].
  destruct (holds x m); cbn [negb]; [|by exists false, (manifest s)]. cbv zeta. set (m' := apply_changes y m).
  destruct (unique_paths nfc casefold m') eqn:Hu.
  - assert (sound nfc casefold m') as Hm' by (by eapply sound_apply). destruct (write_loads _ _ _ Hm' Hl) as (b & file & -> & Hf & Hb).
    destruct (decide (m' = ∅)) as [E|E]; [rewrite (bool_decide_eq_true_2 (m' = ∅)) by done|rewrite (bool_decide_eq_false_2 (m' = ∅)) by done].
    + case_bool_decide as Em; [exists (bool_decide (is_Some (manifest s))), None; rewrite <- Em, E; done|].
      exists (bool_decide (is_Some (manifest s))), None. split; [done|]. split; [|by rewrite E]. symmetry. apply bool_decide_eq_true.
      destruct (manifest s); [done|]. apply loads_none in Hl. congruence.
    + case_bool_decide as Em; [exists b, file; rewrite <- Em; done|]. exists b, file. split; [done|]. split; [by rewrite Hb|done].
  - assert (m' <> ∅) as E by (intros E; rewrite E, unique_empty in Hu; done). rewrite (bool_decide_eq_false_2 (m' = ∅)) by done.
    assert (m' <> m) as Em by (intros Em; rewrite Em, (sound_unique _ _ _ Hs) in Hu; done). rewrite bool_decide_eq_false_2 by done.
    unfold write_if_changed, _serialize_manifest, _assert_unique_artifact_paths. by rewrite Hu.
Qed.

#[export] Instance project_laws : AdapterLaws nfc casefold Project.
Proof.
  constructor.
  - intros s m [H _]. by eapply loads_sound.
  - intros s p. cbn [inspect_artifact project_adapter]. unfold project_inspect. destruct (normalize_path casefold p); [|done]. by destruct (look s a).
  - intros s m key t. apply get_answers.
  - intros s m key t e. apply put_implements.
  - intros s m key t. apply delete_implements.
  - intros s m expected replacements x y. apply swap_implements.
Qed.
End project_instance.

(** ** Sequences of calls *)

Inductive call :=
| CGet (key : ArtifactKey)
| CPut (key : ArtifactKey) (entry : ArtifactManifestEntry)
| CDelete (key : ArtifactKey)
| CSwap (expected replacements : scoped).

Inductive reply := RGet (r : result (option ArtifactManifestEntry)) | RDone (r : result bool).

Section sequences.
Context {S : Type} `{Adapter S}.

Definition perform (c : call) (s : S) : reply * S :=
  match c with
  | CGet key => let '(r, s) := get_entry key s in (RGet r, s)
  | CPut key e => let '(r, s) := put_entry key e s in (RDone r, s)
  | CDelete key => let '(r, s) := delete_entry key s in (RDone r, s)
  | CSwap x y => let '(r, s) := replace_entries_if_matches_atomically x y s in (RDone r, s)
  end.

Fixpoint perform_all (cs : list call) (s : S) : list (call * reply) * S :=
  match cs with
  | [] => ([], s)
  | c :: rest => let '(r, s) := perform c s in let '(l, s) := perform_all rest s in ((c, r) :: l, s)
  end.
End sequences.

Section specification.
Context (nfc casefold : pystr -> pystr).

(** A call the domain makes: of a key that has a text, with an entry in canonical form. *)
Definition fair (c : call) : Prop :=
  match c with
  | CGet key | CDelete key => exists t, names nfc key t
  | CPut key e => (exists t, names nfc key t) /\ fit casefold e
  | CSwap x y =>
      Forall (fun ke => exists t, names nfc ke.1 t) y
      /\ (exists x', _encode_optional_entries casefold x = Ok x') /\ exists y', _encode_optional_entries casefold y = Ok y'
  end.

(** What a call should do to the claims, and to answer. *)
Definition wanted (m : claims) (c : call) (want : expectation) : Prop :=
  match c with
  | CGet _ => False
  | CPut key e => exists t, names nfc key t /\ want = spec_put nfc casefold m t e
  | CDelete key => exists t, names nfc key t /\ want = spec_delete m t
  | CSwap x y => exists x' y', _encode_optional_entries casefold x = Ok x' /\ _encode_optional_entries casefold y = Ok y' /\ want = spec_swap nfc casefold m x' y'
  end.

Inductive spec_step (m : claims) : call -> reply -> claims -> Prop :=
| step_get key t : names nfc key t -> spec_step m (CGet key) (RGet (Ok (m !! t))) m
| step_done c m' answer b : wanted m c (Done m' answer) -> answer b -> spec_step m c (RDone (Ok b)) m'
| step_fails c e : wanted m c (Fails e) -> spec_step m c (RDone (Raise e)) m.

(** A call that failed has done all of it or nothing. *)
Inductive trouble_step (m : claims) : call -> reply -> claims -> Prop :=
| trouble_get key e : trouble_step m (CGet key) (RGet (Raise e)) m
| trouble_none c e : trouble_step m c (RDone (Raise e)) m
| trouble_all c m' answer e : wanted m c (Done m' answer) -> trouble_step m c (RDone (Raise e)) m'.

Inductive spec_run : nat -> claims -> list (call * reply) -> claims -> Prop :=
| run_nil n m : spec_run n m [] m
| run_step n m c r m1 l m' : spec_step m c r m1 -> spec_run n m1 l m' -> spec_run n m ((c, r) :: l) m'
| run_trouble n m c r m1 l m' : trouble_step m c r m1 -> spec_run n m1 l m' -> spec_run (S n) m ((c, r) :: l) m'.

Lemma spec_run_mono n n' m l m' : n <= n' -> spec_run n m l m' -> spec_run n' m l m'.
Proof.
  intros Hn Hr. revert n' Hn. induction Hr as [|n m c r m1 l m' Hs _ IH|n m c r m1 l m' Hs _ IH]; intros n' Hn.
  - constructor.
  - eapply run_step; [done|by apply IH].
  - destruct n' as [|n']; [lia|]. eapply run_trouble; [done|apply IH; lia].
Qed.

Context {S : Type} `{AdapterLaws nfc casefold S}.

Lemma implements_step s out m want c :
  implements s out m want -> wanted m c want ->
  exists m1, reads out.2 m1 /\ ((troubles out.2 <= troubles s /\ spec_step m c (RDone out.1) m1) \/ (troubles out.2 < troubles s /\ trouble_step m c (RDone out.1) m1)).
Proof.
  intros [[Ht Hw]|(Ht & (e & -> & _) & Hr)] Hc.
  - destruct want as [m' answer|e]; [destruct Hw as (b & -> & Hb & Hr)|destruct Hw as [-> Hr]]; eexists; (split; [done|left; split; [done|]]); by econstructor.
  - destruct want as [m' answer|e']; destruct Hr as [Hr|Hr]; try done; eexists; (split; [done|right; split; [done|]]); by econstructor.
Qed.

Lemma perform_step s m c : reads s m -> fair c ->
  exists m1, reads (perform c s).2 m1
  /\ ((troubles (perform c s).2 <= troubles s /\ spec_step m c (perform c s).1 m1) \/ (troubles (perform c s).2 < troubles s /\ trouble_step m c (perform c s).1 m1)).
Proof.
  intros Hr Hc. destruct c as [key|key e|key|x y]; cbn [fair perform] in *.
  - destruct Hc as [t Hn]. pose proof (get_law s m key t Hr Hn) as [Hr' Ha]. destruct (get_entry key s) as [r s']. cbn [fst snd] in *. exists m. split; [done|].
    destruct Ha as [[Ht ->]|(Ht & e & -> & _)]; [left|right]; (split; [done|]); by constructor.
  - destruct Hc as [[t Hn] He]. pose proof (put_law s m key t e Hr Hn He) as Hi. apply (implements_step _ _ _ _ (CPut key e)) in Hi; [|by exists t].
    by destruct (put_entry key e s).
  - destruct Hc as [t Hn]. pose proof (delete_law s m key t Hr Hn) as Hi. apply (implements_step _ _ _ _ (CDelete key)) in Hi; [|by exists t].
    by destruct (delete_entry key s).
  - destruct Hc as (Hn & [x' Hx] & [y' Hy]). pose proof (swap_law s m x y x' y' Hr Hn Hx Hy) as Hi.
    apply (implements_step _ _ _ _ (CSwap x y)) in Hi; [|by exists x', y']. by destruct (replace_entries_if_matches_atomically x y s).
Qed.

Lemma perform_all_run cs s m : reads s m -> Forall fair cs ->
  exists m', reads (perform_all cs s).2 m' /\ spec_run (troubles s) m (perform_all cs s).1 m'.
Proof.
  intros Hr Hc. revert s m Hr. induction Hc as [|c cs Hc _ IH]; intros s m Hr; cbn [perform_all]; [exists m; split; [done|constructor]|].
  destruct (perform_step s m c Hr Hc) as (m1 & Hr1 & Hs). destruct (perform c s) as [r s1]. cbn [fst snd] in *.
  destruct (IH s1 m1 Hr1) as (m' & Hr' & Hrun). destruct (perform_all cs s1) as [l s']. cbn [fst snd] in *. exists m'. split; [done|].
  destruct Hs as [[Ht Hs]|[Ht Hs]]; [eapply run_step, spec_run_mono; done|]. destruct (troubles s) as [|n]; [lia|].
  eapply run_trouble; [done|]. apply (spec_run_mono (troubles s1)); [lia|done].
Qed.
End specification.

Section project_theorems.
Context (nfc casefold : pystr -> pystr) (key_idempotent : forall s, asset_name_comparison_key nfc (asset_name_comparison_key nfc s) = asset_name_comparison_key nfc s).

Lemma names_valid key t : valid nfc key -> encode key = Ok t -> names nfc key t.
Proof. intros Hv He. split; [done|]. apply decode_of_parts; [done|by apply valid_again]. Qed.

(** C13: The manifest file refines a map of claims.  From a file that is read as some
    claims, any sequence of reads, registrations, removals and compare-and-swaps
    of valid keys is answered as on the map, and leaves a file that is read as the
    map's claims; a call that the storage fails has done all of its change or
    none, and there are no more such calls than troubles of the storage.  The
    storage in memory does the same without troubles. *)
Theorem storage_refines_claims cs s m :
  Forall (fair nfc casefold) cs ->
  (loads_to nfc casefold (manifest s) m -> Forall (fun f => fault_exc f <> Some RollbackIncomplete) (schedule s) ->
   exists m', loads_to nfc casefold (manifest (@perform_all _ (project_adapter nfc casefold) cs s).2) m'
   /\ spec_run nfc casefold (length (where_ is_trouble (schedule s))) m (@perform_all _ (project_adapter nfc casefold) cs s).1 m')
  /\ (forall mem, sound nfc casefold (entries mem) ->
      spec_run nfc casefold 0 (entries mem) (@perform_all _ (memory_adapter nfc casefold) cs mem).1
        (entries (@perform_all _ (memory_adapter nfc casefold) cs mem).2)).
Proof.
  intros Hc. split.
  - intros Hl Hs. pose proof (project_laws nfc casefold) as laws. destruct (perform_all_run (H := project_adapter nfc casefold) nfc casefold cs s m (conj Hl Hs) Hc) as (m' & [Hl' _] & Hrun).
    by exists m'.
  - intros mem Hm. pose proof (memory_laws nfc casefold) as laws.
    destruct (perform_all_run (H := memory_adapter nfc casefold) nfc casefold cs mem (entries mem) (conj eq_refl Hm) Hc) as (m' & [<- _] & Hrun). exact Hrun.
Qed.

Lemma locked_file {A} body (s s' : Project) (r : result A) : locked body s = (r, s') ->
  manifest s' = manifest s \/ exists a, body (manifest s) = Ok (a, manifest s').
Proof.
  unfold locked. destruct (head (schedule s)) as [[|e|e]|].
  2: { intros [_ <-]%pair_equal_spec. by left. }
  all: destruct (body (manifest s)) as [[a file]|e']; intros [_ <-]%pair_equal_spec; [right; by exists a|by left].
Qed.

(** A call without troubles is its body. *)
Lemma locked_calm {A} body (s : Project) : schedule s = [] ->
  @locked A body s = match body (manifest s) with Ok (a, file) => (Ok a, mkProject file (look s) []) | Raise e => (Raise e, mkProject (manifest s) (look s) []) end.
Proof. intros Hs. unfold locked. rewrite Hs. cbn [head tail]. by destruct (body (manifest s)) as [[a file]|e]. Qed.

Lemma serialized_loads m bytes : sound nfc casefold m -> _serialize_manifest nfc casefold m = Ok bytes -> loads_to nfc casefold (Some bytes) m.
Proof. intros Hm Hb. unfold loads_to, _load_unlocked. by rewrite (parse_serialize _ _ _ _ true Hm Hb). Qed.

End project_theorems.

(** ** Examples *)

Definition demo_digest : pystr := u "sha256-v1:0123456789abcdef0123456789abcdef0123456789abcdef0123456789abcdef".
Definition demo_entry : ArtifactManifestEntry := mkEntry (u "videos/e3.mp4") demo_digest.
Definition demo_project (file : option (list N)) (faults : list fault) : Project := mkProject file (fun _ => Regular) faults.

(** A manifest with a key text whose variant is a list: the readers catch
    [ValueError], and [TypeError] passes. *)
Definition unhashable_manifest : list N :=
  dumps_indent 0 (JObj [(u "entries", JObj [(_KEY_PREFIX ++ rstrip_equals (urlsafe_b64encode
    (dumps_sep true false (JArr [JStr (u "episode-subtitle"); JInt 1; JStr (u "s1"); JArr []]))), entry_json demo_entry)]);
    (u "hash_algorithm", JStr HASH_ALGORITHM); (u "schema_version", JInt 1)]).

(** Such a file is neither read nor, as an unreadable manifest is, replaced. *)
Theorem unhashable_manifest_stuck nfc casefold :
  (project_get_entry nfc casefold demo_key (demo_project (Some unhashable_manifest) [])).1 = Raise TypeError
  /\ (replace_unreadable_entries_atomically nfc casefold [] (demo_project (Some unhashable_manifest) [])).1 = Raise TypeError.
Proof. split; vm_compute; reflexivity. Qed.

Lemma demo_names : names id demo_key (u "artifact-key-v1:WyJlcGlzb2RlLXZpZGVvIiwzLCLDqTEiXQ").
Proof. split; vm_compute; reflexivity. Qed.
Lemma demo_fit : fit id demo_entry.
Proof. vm_compute. reflexivity. Qed.

Lemma demo_targets : _encode_target_entries id [(demo_key, demo_entry)] = Ok {[u "artifact-key-v1:WyJlcGlzb2RlLXZpZGVvIiwzLCLDqTEiXQ" := demo_entry]}.
Proof.
  unfold _encode_target_entries. cbn [encode_targets]. rewrite (demo_fit : target_entry id demo_entry = Ok tt). cbn [bind]. rewrite (proj1 demo_names). cbn [bind].
  rewrite lookup_empty, bool_decide_eq_false_2 by (by intros []). done.
Qed.

(** A registration that is interrupted, and a read. *)
Lemma storage_refines_claims_witness :
  exists m', loads_to id id (manifest (@perform_all _ (project_adapter id id) [CPut demo_key demo_entry; CGet demo_key] (demo_project None [Interrupted OSError])).2) m'
  /\ spec_run id id 1 ∅ (@perform_all _ (project_adapter id id) [CPut demo_key demo_entry; CGet demo_key] (demo_project None [Interrupted OSError])).1 m'.
Proof.
  apply (storage_refines_claims id id [CPut demo_key demo_entry; CGet demo_key] (demo_project None [Interrupted OSError]) ∅).
  - apply Forall_cons_2; [split; [exact (ex_intro _ _ demo_names)|exact demo_fit]|]. apply Forall_cons_2; [exact (ex_intro _ _ demo_names)|constructor].
  - reflexivity.
  - repeat constructor. discriminate.
Defined.

