(* ===== verification/ArtifactClaims.v ===== *)
(** * The manifest of artifacts: registration and comparison

    [ArtifactManifest] of [lib/artifact_manifest.py], against any storage that keeps
    the promises of [Adapter]: registering a claim, forgetting it, moving it to
    another key, and telling whether a formal file is current.  The errors that say
    a rollback was incomplete are [RollbackIncomplete]. *)

From S2P Require Import Prelude Json Assets AssetRename Codec ArtifactKey ArtifactStore ArtifactAdapter.

(** ** Source evidence *)

Record ArtifactBasisDescriptor := mkDescriptor { basis_kind : pystr; kind_version : Z; digest : pystr }.
#[export] Instance descriptor_eq_dec : EqDecision ArtifactBasisDescriptor.
Proof. solve_decision. Defined.

(** [ArtifactBasisDescriptor(...)] with its [__post_init__]. *)
Definition make_descriptor (k v d : json) : result ArtifactBasisDescriptor :=
  match k, v, d with
  | JStr (c :: s), JInt n, JStr h =>
      if (n <? 1)%Z then Raise ValueError else if is_prefixed_digest h then Ok (mkDescriptor (c :: s) n h) else Raise ValueError
  | _, _, _ => Raise ValueError
  end.

Definition descriptor_from_dict (value : json) : result ArtifactBasisDescriptor :=
  match value with
  | JObj d =>
      if negb (has_keys d [u "kind"; u "kind_version"; u "digest"]) then Raise ValueError
      else make_descriptor (member (u "kind") d) (member (u "kind_version") d) (member (u "digest") d)
  | _ => Raise ValueError
  end.

Definition descriptor_to_dict (b : ArtifactBasisDescriptor) : json :=
  JObj [(u "kind", JStr (basis_kind b)); (u "kind_version", JInt (kind_version b)); (u "digest", JStr (digest b))].

(** ** Comparison *)

Module ArtifactStatus.
Inductive t := CURRENT | STALE | MISSING | BLOCKED.
#[global] Instance eq_dec : EqDecision t.
Proof. solve_decision. Defined.
End ArtifactStatus.

Record ArtifactComparison := mkComparison { status : ArtifactStatus.t; compared_path : pystr; comparison_blocker : option ArtifactBlocker }.

Definition usable (c : ArtifactComparison) : bool := bool_decide (status c ∈ [ArtifactStatus.CURRENT; ArtifactStatus.STALE]).

(** ** Operations *)

Record ArtifactEntryRekeyPlan := mkPlan { before : scoped; after : scoped; changed : bool }.

Section operations.
Context (casefold : pystr -> pystr) {S : Type} `{Adapter S}.

Definition seen_now (path : pystr) : act S ArtifactObservation := fun s => (Ok (inspect_artifact s path), s).

Definition require_present (o : ArtifactObservation) : result unit :=
  match blocker o with Some _ => Raise ArtifactRegistrationError | None => if present o then Ok tt else Raise ArtifactRegistrationError end.

(** [try: body; except BaseException: undo; raise]: a failure of the undo says so. *)
Definition guarded {A} (body : act S A) (undo : act S unit) : act S A := fun s =>
  match body s with
  | (Ok a, s') => (Ok a, s')
  | (Raise e, s') => match undo s' with (Ok _, s'') => (Raise e, s'') | (Raise _, s'') => (Raise RollbackIncomplete, s'') end
  end.

(** Put the earlier claim back if this call's claim is there. *)
Definition restore_entry (key : ArtifactKey) (expected : ArtifactManifestEntry) (previous : option ArtifactManifestEntry) : act S unit :=
  do! current := get_entry key in
  if bool_decide (current = Some expected) then
    match previous with
    | None => do! _ := delete_entry key in ret tt
    | Some p => do! _ := put_entry key p in ret tt
    end
  else ret tt.

Definition register_descriptor (key : ArtifactKey) (path : pystr) (basis : ArtifactBasisDescriptor) : act S bool :=
  do! o := seen_now path in
  do! _ := lift (require_present o) in
  put_entry key (mkEntry (obs_path o) (digest basis)).

Definition register_descriptor_transactionally (key : ArtifactKey) (path : pystr) (basis : ArtifactBasisDescriptor) : act S bool :=
  do! previous := get_entry key in
  do! normalized := lift (normalize_path casefold path) in
  guarded (register_descriptor key path basis) (restore_entry key (mkEntry normalized (digest basis)) previous).

Definition register_entry_transactionally (key : ArtifactKey) (entry : ArtifactManifestEntry) : act S bool :=
  do! _ := lift (_encode_target_entries casefold [(key, entry)]) in
  do! o := seen_now (artifact_path entry) in
  do! _ := lift (require_present o) in
  let expected := mkEntry (obs_path o) (basis_digest entry) in
  do! previous := get_entry key in
  guarded (put_entry key expected) (restore_entry key expected previous).

Definition forget_entry_transactionally (key : ArtifactKey) : act S bool :=
  do! previous := get_entry key in
  match previous with
  | None => ret false
  | Some p =>
      guarded (delete_entry key)
        (do! current := get_entry key in
         match current with None => do! _ := put_entry key p in ret tt | Some _ => ret tt end)
  end.

Fixpoint _entries_match (expected : scoped) : act S bool :=
  match expected with
  | [] => ret true
  | (key, entry) :: rest => do! e := get_entry key in if bool_decide (e = entry) then _entries_match rest else ret false
  end.

(** The receipt of a commit holds what its plan does. *)
Definition commit (plan : ArtifactEntryRekeyPlan) : act S ArtifactEntryRekeyPlan :=
  if negb (changed plan) then ret plan
  else
    do! swapped :=
      guarded (replace_entries_if_matches_atomically (before plan) (after plan))
        (do! restored := replace_entries_if_matches_atomically (after plan) (before plan) in
         if (restored : bool) then ret tt
         else do! same := _entries_match (before plan) in if (same : bool) then ret tt else lift (Raise ArtifactManifestError)) in
    if (swapped : bool) then ret plan else lift (Raise ArtifactManifestError).

Definition compensate (receipt : ArtifactEntryRekeyPlan) : act S bool :=
  if negb (changed receipt) then ret false
  else
    do! restored := replace_entries_if_matches_atomically (after receipt) (before receipt) in
    if (restored : bool) then ret true
    else do! same := _entries_match (before receipt) in if (same : bool) then ret false else lift (Raise ArtifactManifestError).

(** [{key: entry for key in unique if (entry := get_entry(key)) is not None}] *)
Fixpoint gather_entries (keys : list ArtifactKey) : act S (list (ArtifactKey * ArtifactManifestEntry)) :=
  match keys with
  | [] => ret []
  | key :: rest =>
      do! e := get_entry key in
      do! others := gather_entries rest in
      ret (match e with Some e => (key, e) :: others | None => others end)
  end.

(** [dict.fromkeys(keys)] *)
Fixpoint distinct (keys seen : list ArtifactKey) : list ArtifactKey :=
  match keys with
  | [] => []
  | k :: r => if bool_decide (k ∈ seen) then distinct r seen else k :: distinct r (k :: seen)
  end.

Definition forget_entries_transactionally (keys : list ArtifactKey) : act S bool :=
  do! found := gather_entries (distinct keys []) in
  match found with
  | [] => ret false
  | _ =>
      do! receipt := commit (mkPlan (map (fun ke => (ke.1, Some ke.2)) found) (map (fun ke => (ke.1, None)) found) true) in
      ret (changed receipt)
  end.

Fixpoint normalize_rewrites (rewrites : list (pystr * pystr)) : result (gmap pystr pystr) :=
  match rewrites with
  | [] => Ok ∅
  | (source, target) :: rest =>
      let! source := normalize_path casefold source in
      let! target := normalize_path casefold target in
      let! others := normalize_rewrites rest in
      Ok (if bool_decide (is_Some (others !! source)) then others else <[source := target]> others)
  end.

Definition moved (rewrites : gmap pystr pystr) (e : ArtifactManifestEntry) : ArtifactManifestEntry :=
  mkEntry (default (artifact_path e) (rewrites !! artifact_path e)) (basis_digest e).

Definition plan_entry_rekey (source target : ArtifactKey) (artifact_path_rewrites : list (pystr * pystr)) : act S ArtifactEntryRekeyPlan :=
  do! rewrites := lift (normalize_rewrites artifact_path_rewrites) in
  do! source_entry := get_entry source in
  if bool_decide (source = target) then
    match source_entry with
    | None => ret (mkPlan [] [] false)
    | Some e =>
        let replacement := moved rewrites e in
        if bool_decide (replacement = e) then ret (mkPlan [] [] false)
        else ret (mkPlan [(source, Some e)] [(source, Some replacement)] true)
    end
  else
    do! target_entry := get_entry target in
    match target_entry with
    | Some _ => lift (Raise ArtifactManifestError)
    | None =>
        match source_entry with
        | None => ret (mkPlan [] [] false)
        | Some e => ret (mkPlan [(source, Some e); (target, None)] [(source, None); (target, Some (moved rewrites e))] true)
        end
    end.

Definition compare_entry (key : ArtifactKey) (path : pystr) (expected : option ArtifactManifestEntry) : act S ArtifactComparison := fun s =>
  let o := inspect_artifact s path in
  match blocker o with
  | Some b => (Ok (mkComparison ArtifactStatus.BLOCKED (obs_path o) (Some b)), s)
  | None =>
      if negb (present o) then (Ok (mkComparison ArtifactStatus.MISSING (obs_path o) None), s)
      else
        let '(r, s') := get_entry key s in
        match r with
        | Raise e =>
            if is_manifest_error e
            then (Ok (mkComparison ArtifactStatus.BLOCKED (obs_path o) (Some (mkBlocker "manifest_unreadable" (obs_path o)))), s')
            else (Raise e, s')
        | Ok None => (Ok (mkComparison ArtifactStatus.MISSING (obs_path o) None), s')
        | Ok (Some entry) =>
            if negb (bool_decide (artifact_path entry = obs_path o)) then (Ok (mkComparison ArtifactStatus.MISSING (obs_path o) None), s')
            else
              match
                match expected with
                | None => Ok None
                | Some e => let! normalized := normalize_path casefold (artifact_path e) in Ok (Some (mkEntry normalized (basis_digest e)))
                end
              with
              | Raise e => (Raise e, s')
              | Ok normalized_expected =>
                  let st := if bool_decide (Some entry = normalized_expected) then ArtifactStatus.CURRENT else ArtifactStatus.STALE in
                  (Ok (mkComparison st (obs_path o) None), s')
              end
        end
  end.
End operations.

(** ** Registration *)

Section proofs.
Context (nfc casefold : pystr -> pystr) {S : Type} `{AdapterLaws nfc casefold S}.

(** What a transactional call that is to bring [m] to [m1] has done. *)
Definition settled {A : Type} (n : nat) (m m1 : claims) (r : result A) (m' : claims) : Prop :=
  match r with
  | Ok _ => m' = m1
  | Raise RollbackIncomplete => 1 <= n /\ (m' = m \/ (m' = m1 /\ 2 <= n))
  | Raise _ => m' = m
  end.

Lemma settled_raise {A : Type} n m m1 e : e <> RollbackIncomplete -> settled n m m1 (Raise e : result A) m.
Proof. by destruct e. Qed.

Lemma get_cases s m key t : reads s m -> names nfc key t ->
  exists r s', get_entry key s = (r, s') /\ reads s' m /\ troubles s' <= troubles s
  /\ (r = Ok (m !! t) \/ exists e, r = Raise e /\ e <> RollbackIncomplete /\ troubles s' < troubles s).
Proof.
  intros Hr Hn. destruct (get_law s m key t Hr Hn) as [Hr' Ha]. destruct (get_entry key s) as [r s']. cbn [fst snd] in *. exists r, s'.
  destruct Ha as [[Ht ->]|(Ht & e & -> & He)]; (split; [done|]); (split; [done|]); (split; [lia|]); [by left|right; by exists e].
Qed.

(** A call that should bring the claims to [m1]. *)
Lemma implements_cases s out m m1 answer : implements s out m (Done m1 answer) ->
  exists r s', out = (r, s')
  /\ ((exists b, r = Ok b /\ answer b /\ reads s' m1 /\ troubles s' <= troubles s)
      \/ (exists e, r = Raise e /\ e <> RollbackIncomplete /\ troubles s' < troubles s /\ (reads s' m \/ reads s' m1))).
Proof.
  destruct out as [r s']. intros Hi. exists r, s'. split; [done|]. destruct Hi as [[Ht (b & Hb & Ha & Hr)]|(Ht & (e & He & Hne) & Hr)]; cbn [fst snd] in *.
  - left. by exists b.
  - right. by exists e.
Qed.

Lemma put_done s m key t e : reads s m -> names nfc key t -> fit casefold e -> unique_paths nfc casefold (<[t := e]> m) = true ->
  exists answer, implements s (put_entry key e s) m (Done (<[t := e]> m) answer) /\ forall b, answer b -> b = negb (bool_decide (m !! t = Some e)).
Proof.
  intros Hr Hn He Hu. pose proof (put_law s m key t e Hr Hn He) as Hp. unfold spec_put in Hp. rewrite Hu in Hp. case_bool_decide as Hm.
  - rewrite insert_id by done. eexists. by split; [exact Hp|intros b <-].
  - eexists. by split; [exact Hp|intros b <-].
Qed.

(** The claim put back is the one that was there. *)
Lemma restore_spec s m m' key t e : reads s m' -> sound nfc casefold m -> names nfc key t -> (m' = m \/ m' = <[t := e]> m) ->
  exists r s', restore_entry key e (m !! t) s = (r, s')
  /\ ((r = Ok tt /\ reads s' m) \/ (exists x, r = Raise x /\ 1 <= troubles s /\ (reads s' m \/ reads s' m'))).
Proof.
  intros Hr Hs Hn Hm'. unfold restore_entry, then_ at 1. destruct (get_cases s m' key t Hr Hn) as (r & s1 & -> & Hr1 & Ht1 & [->|(x & -> & _ & Hlt)]).
  2: { eexists _, s1. split; [done|]. right. exists x. split; [done|]. split; [lia|]. by right. }
  case_bool_decide as Hcur.
  2: { eexists _, s1. split; [done|]. left. split; [done|]. destruct Hm' as [-> | ->]; [done|]. by rewrite lookup_insert_eq in Hcur. }
  destruct (m !! t) as [p|] eqn:Hp.
  - assert (<[t := p]> m' = m) as Eback.
    { destruct Hm' as [-> | ->]; [|rewrite insert_insert_eq]; by apply insert_id. }
    destruct (sound_entry _ _ _ Hs t p Hp) as [_ Hfit].
    destruct (put_done s1 m' key t p Hr1 Hn Hfit) as (answer & Hput & _); [rewrite Eback; by apply (sound_unique _ _ _ Hs)|]. rewrite Eback in Hput.
    unfold then_. destruct (implements_cases _ _ _ _ _ Hput) as (r & s2 & -> & [(b & -> & _ & Hr2 & _)|(x & -> & _ & Hlt & Hr2)]).
    + eexists _, s2. split; [done|]. by left.
    + eexists _, s2. split; [done|]. right. exists x. split; [done|]. split; [lia|]. tauto.
  - destruct Hm' as [-> | ->]; [by rewrite Hcur in Hp|]. pose proof (delete_law s1 _ key t Hr1 Hn) as Hdel. unfold spec_delete in Hdel.
    rewrite delete_insert_id in Hdel by done. unfold then_.
    destruct (implements_cases _ _ _ _ _ Hdel) as (r & s2 & -> & [(b & -> & _ & Hr2 & _)|(x & -> & _ & Hlt & Hr2)]).
    + eexists _, s2. split; [done|]. by left.
    + eexists _, s2. split; [done|]. right. exists x. split; [done|]. split; [lia|]. tauto.
Qed.

(** A guarded call is settled when its undo leads back. *)
Lemma guarded_settled {A : Type} (body : act S A) (undo : act S unit) s m m1 r s' rb sb :
  body s = (rb, sb) ->
  ((exists b, rb = Ok b /\ reads sb m1)
   \/ (exists e m', rb = Raise e /\ e <> RollbackIncomplete /\ reads sb m' /\ troubles sb <= troubles s /\ (m' = m \/ (m' = m1 /\ troubles sb < troubles s)))) ->
  (forall m', reads sb m' -> m' = m \/ m' = m1 ->
   exists ru su, undo sb = (ru, su) /\ ((ru = Ok tt /\ reads su m) \/ (exists x, ru = Raise x /\ 1 <= troubles sb /\ (reads su m \/ reads su m')))) ->
  guarded body undo s = (r, s') -> exists m', reads s' m' /\ settled (troubles s) m m1 r m'.
Proof.
  intros Hb Hcases Hundo. unfold guarded. rewrite Hb. destruct Hcases as [(b & -> & Hr)|(e & m' & -> & He & Hr & Ht & Hm')].
  - intros [<- <-]%pair_equal_spec. by exists m1.
  - destruct (Hundo m' Hr) as (ru & su & -> & [[-> Hu]|(x & -> & H1 & Hu)]); [tauto|..]; intros [<- <-]%pair_equal_spec.
    + exists m. split; [done|by apply settled_raise].
    + destruct Hu as [Hu|Hu]; [exists m; split; [done|]; cbn; split; [lia|by left]|]. exists m'. split; [done|]. cbn. split; [lia|].
      destruct Hm' as [->|[-> Hlt]]; [by left|right; split; [done|lia]].
Qed.

(** What is left of a call that should bring the claims from [m] to [m1]. *)
Definition left_by {A : Type} (s : S) (m m1 : claims) (rb : result A) (sb : S) : Prop :=
  (exists b, rb = Ok b /\ reads sb m1)
  \/ (exists e m', rb = Raise e /\ e <> RollbackIncomplete /\ reads sb m' /\ troubles sb <= troubles s /\ (m' = m \/ (m' = m1 /\ troubles sb < troubles s))).

Lemma implements_left s rb sb m m1 answer : implements s (rb, sb) m (Done m1 answer) -> left_by s m m1 rb sb.
Proof.
  intros (r & s' & E & Hc)%implements_cases. apply pair_equal_spec in E as [<- <-]. destruct Hc as [(b & -> & _ & Hr & _)|(e & -> & He & Hlt & [Hr|Hr])].
  - left. by exists b.
  - right. exists e, m. split; [done|]. split; [done|]. split; [done|]. split; [lia|by left].
  - right. exists e, m1. split; [done|]. split; [done|]. split; [done|]. split; [lia|by right].
Qed.

Lemma implements_left_fails s rb sb m m1 x : x <> RollbackIncomplete -> implements s (rb, sb) m (Fails x) -> left_by s m m1 rb sb.
Proof.
  intros Hx [(Ht & Hr & Hrd)|(Ht & (e & Hr & He) & [Hrd|[]])]; cbn [fst snd] in *; right.
  - exists x, m. split; [done|]. split; [done|]. split; [done|]. split; [done|by left].
  - exists e, m. split; [done|]. split; [done|]. split; [done|]. split; [lia|by left].
Qed.

Lemma put_left s m key t e rb sb : reads s m -> names nfc key t -> fit casefold e -> put_entry key e s = (rb, sb) ->
  left_by s m (<[t := e]> m) rb sb /\ forall b, rb = Ok b -> b = negb (bool_decide (m !! t = Some e)).
Proof.
  intros Hr Hn He Ep. pose proof (put_law s m key t e Hr Hn He) as Hp. rewrite Ep in Hp. destruct (unique_paths nfc casefold (<[t := e]> m)) eqn:Hu.
  - destruct (put_done s m key t e Hr Hn He Hu) as (answer & Hi & Ha). rewrite Ep in Hi. split; [by eapply implements_left|].
    intros b ->. destruct (implements_cases _ _ _ _ _ Hi) as (r & s' & E & [(b' & -> & Hb & _)|(x & -> & _)]); apply pair_equal_spec in E as [E _]; [|done].
    apply Ok_inj in E as ->. by apply Ha.
  - assert (implements s (rb, sb) m (Fails ArtifactManifestError)) as Hf.
    { unfold spec_put in Hp. rewrite Hu in Hp. case_bool_decide as Hm; [|done].
      rewrite insert_id, (sound_unique _ _ _ (reads_sound _ _ Hr)) in Hu by done. done. }
    split; [by apply (implements_left_fails _ _ _ _ _ ArtifactManifestError)|]. intros b ->. destruct Hf as [(_ & Hx & _)|(_ & (x & Hx & _) & _)]; done.
Qed.

Lemma guarded_Ok {A : Type} (body : act S A) undo s b s' : guarded body undo s = (Ok b, s') -> body s = (Ok b, s').
Proof. unfold guarded. destruct (body s) as [[a|e] s1]; [done|]. by destruct (undo s1) as [[|] s2]. Qed.

(** A registration that is put back on failure. *)
Lemma put_settled s m key t e r s' : reads s m -> names nfc key t -> fit casefold e ->
  guarded (put_entry key e) (restore_entry key e (m !! t)) s = (r, s') ->
  exists m', reads s' m' /\ settled (troubles s) m (<[t := e]> m) r m' /\ forall b, r = Ok b -> b = negb (bool_decide (m !! t = Some e)).
Proof.
  intros Hr Hn He Hg. destruct (put_entry key e s) as [rb sb] eqn:Eput. destruct (put_left _ _ _ _ _ _ _ Hr Hn He Eput) as [Hl Hb].
  assert (exists m', reads s' m' /\ settled (troubles s) m (<[t := e]> m) r m') as (m' & Hr' & Hst).
  { eapply guarded_settled; [exact Eput|exact Hl| |exact Hg]. intros m' Hr' Hm'. apply restore_spec; [done|by eapply reads_sound|done..]. }
  exists m'. split; [done|]. split; [done|]. intros b ->. apply guarded_Ok in Hg. rewrite Eput in Hg. apply pair_equal_spec in Hg as [-> _]. by apply Hb.
Qed.

Lemma settled_mono {A : Type} n n' m m1 (r : result A) m' : n <= n' -> settled n m m1 r m' -> settled n' m m1 r m'.
Proof. intros Hn. destruct r as [a|e]; [done|]. destruct e; cbn; try done. intros [? [?|[? ?]]]; (split; [lia|]); [by left|right; split; [done|lia]]. Qed.

Lemma observed s p : require_present (inspect_artifact s p) = Ok tt ->
  normalize_path casefold p = Ok (obs_path (inspect_artifact s p)) /\ obs_path (inspect_artifact s p) = p.
Proof.
  intros Ho. assert (normalize_path casefold p = Ok (obs_path (inspect_artifact s p))) as Hp; [|split; [done|by eapply normalize_same]].
  apply inspect_path. unfold require_present in Ho. by destruct (blocker _).
Qed.

Lemma require_present_raises o : require_present o = Ok tt \/ require_present o = Raise ArtifactRegistrationError.
Proof. unfold require_present. destruct (blocker o); [by right|]. destruct (present o); [by left|by right]. Qed.

Lemma encode_one key e m : _encode_target_entries casefold [(key, e)] = Ok m -> fit casefold e.
Proof. intros Hm. eapply (encode_targets_fit casefold _ _ _ Hm key). by apply list_elem_of_singleton. Qed.

Lemma fit_normalized p q d : normalize_path casefold p = Ok q -> is_prefixed_digest d = true -> fit casefold (mkEntry q d).
Proof.
  intros Hp Hd. pose proof (normalize_same _ _ _ Hp) as ->. unfold fit, target_entry. cbn [artifact_path basis_digest]. rewrite Hp. cbn [bind].
  by rewrite bool_decide_eq_true_2, Hd.
Qed.

Lemma register_entry_settled s m key t e r s' : reads s m -> names nfc key t -> register_entry_transactionally casefold key e s = (r, s') ->
  exists m', reads s' m' /\ settled (troubles s) m (<[t := e]> m) r m'
  /\ forall b, r = Ok b -> b = negb (bool_decide (m !! t = Some e)) /\ fit casefold e /\ require_present (inspect_artifact s (artifact_path e)) = Ok tt.
Proof.
  intros Hr Hn. unfold register_entry_transactionally, then_ at 1, lift at 1.
  destruct (_encode_target_entries casefold [(key, e)]) as [enc|x] eqn:Henc.
  2: { intros [<- <-]%pair_equal_spec. exists m. split; [done|]. split; [|done]. apply settled_raise. by eapply encode_targets_raises. }
  apply encode_one in Henc as He. unfold then_ at 1, seen_now. unfold then_ at 1, lift.
  destruct (require_present_raises (inspect_artifact s (artifact_path e))) as [Ho|Ho]; rewrite Ho.
  2: { intros [<- <-]%pair_equal_spec. exists m. split; [done|]. split; [by apply settled_raise|done]. }
  destruct (observed _ _ Ho) as [_ Hobs]. rewrite Hobs. cbv zeta. unfold then_ at 1.
  assert (mkEntry (artifact_path e) (basis_digest e) = e) as -> by (by destruct e).
  destruct (get_cases s m key t Hr Hn) as (rg & s1 & -> & Hr1 & Ht1 & [->|(x & -> & Hx & _)]).
  2: { intros [<- <-]%pair_equal_spec. exists m. split; [done|]. split; [by apply settled_raise|done]. }
  intros Hg. destruct (put_settled s1 m key t e r s' Hr1 Hn He Hg) as (m' & Hr' & Hst & Hb). exists m'. split; [done|].
  split; [by eapply settled_mono|]. intros b Eb. split; [by apply Hb|]. by split.
Qed.

Lemma register_descriptor_settled s m key t p basis r s' : reads s m -> names nfc key t -> is_prefixed_digest (digest basis) = true ->
  register_descriptor_transactionally casefold key p basis s = (r, s') ->
  exists m', reads s' m' /\ settled (troubles s) m (<[t := mkEntry p (digest basis)]> m) r m'.
Proof.
  intros Hr Hn Hd. unfold register_descriptor_transactionally, then_ at 1.
  destruct (get_cases s m key t Hr Hn) as (rg & s1 & -> & Hr1 & Ht1 & [->|(x & -> & Hx & _)]).
  2: { intros [<- <-]%pair_equal_spec. exists m. split; [done|by apply settled_raise]. }
  unfold then_ at 1, lift at 1. destruct (normalize_path casefold p) as [q|x] eqn:Hq.
  2: { intros [<- <-]%pair_equal_spec. exists m. split; [done|]. apply settled_raise. by eapply normalize_raises. }
  pose proof (fit_normalized _ _ _ Hq Hd) as He. pose proof (normalize_same _ _ _ Hq) as ->. set (e := mkEntry p (digest basis)) in *.
  assert (forall sb m', reads sb m' -> m' = m \/ m' = <[t := e]> m -> exists ru su, restore_entry key e (m !! t) sb = (ru, su)
    /\ ((ru = Ok tt /\ reads su m) \/ (exists x, ru = Raise x /\ 1 <= troubles sb /\ (reads su m \/ reads su m')))) as Hundo
    by (intros sb m' Hr' Hm'; apply restore_spec; [done|by eapply reads_sound|done..]).
  intros Hg. destruct (register_descriptor key p basis s1) as [rb sb] eqn:Eb.
  assert (left_by s1 m (<[t := e]> m) rb sb) as Hl.
  { unfold register_descriptor, then_ at 1, seen_now, then_, lift in Eb. destruct (require_present_raises (inspect_artifact s1 p)) as [Ho|Ho]; rewrite Ho in Eb.
    - destruct (observed _ _ Ho) as [_ Hobs]. rewrite Hobs in Eb. by destruct (put_left _ _ _ _ _ _ _ Hr1 Hn He Eb) as [Hl _].
    - apply pair_equal_spec in Eb as [<- <-]. right. exists ArtifactRegistrationError, m. split; [done|]. split; [done|]. split; [done|]. split; [done|by left]. }
  destruct (guarded_settled _ _ s1 m (<[t := e]> m) r s' rb sb Eb Hl (Hundo sb) Hg) as (m' & Hr' & Hst).
  exists m'. split; [done|by eapply settled_mono].
Qed.

Lemma forget_settled s m key t r s' : reads s m -> names nfc key t -> forget_entry_transactionally key s = (r, s') ->
  exists m', reads s' m' /\ settled (troubles s) m (delete t m) r m' /\ forall b, r = Ok b -> b = bool_decide (is_Some (m !! t)).
Proof.
  intros Hr Hn. unfold forget_entry_transactionally, then_ at 1.
  destruct (get_cases s m key t Hr Hn) as (rg & s1 & -> & Hr1 & Ht1 & [->|(x & -> & Hx & _)]).
  2: { intros [<- <-]%pair_equal_spec. exists m. split; [done|]. split; [by apply settled_raise|done]. }
  destruct (m !! t) as [p|] eqn:Hp.
  2: { intros [<- <-]%pair_equal_spec. exists m. split; [done|]. split; [cbn; by rewrite delete_id|by intros b [= <-]]. }
  pose proof (delete_law s1 m key t Hr1 Hn) as Hdel. destruct (delete_entry key s1) as [rb sb] eqn:Ed. unfold spec_delete in Hdel. rewrite Hp in Hdel.
  intros Hg. pose proof (reads_sound _ _ Hr) as Hs. destruct (sound_entry _ _ _ Hs t p Hp) as [_ Hfit].
  assert (exists m', reads s' m' /\ settled (troubles s1) m (delete t m) r m') as (m' & Hr' & Hst).
  { eapply guarded_settled; [exact Ed|by eapply implements_left| |exact Hg]. intros m' Hm Hm'. unfold then_ at 1.
    destruct (get_cases sb m' key t Hm Hn) as (rg & s2 & -> & Hr2 & Ht2 & [->|(x & -> & _ & Hlt)]).
    2: { eexists _, s2. split; [done|]. right. exists x. split; [done|]. split; [lia|by right]. }
    destruct Hm' as [-> | ->]; [rewrite Hp; eexists _, s2; split; [done|by left]|]. rewrite lookup_delete_eq. unfold then_.
    assert (<[t := p]> (delete t m) = m) as Eback by (by rewrite insert_delete_id).
    destruct (put_done s2 _ key t p Hr2 Hn Hfit) as (answer & Hput & _); [rewrite Eback; by apply (sound_unique _ _ _ Hs)|]. rewrite Eback in Hput.
    destruct (implements_cases _ _ _ _ _ Hput) as (rp & s3 & -> & [(b & -> & _ & Hr3 & _)|(x & -> & _ & Hlt & Hr3)]); eexists _, s3; (split; [done|]).
    - by left.
    - right. exists x. split; [done|]. split; [lia|tauto]. }
  exists m'. split; [done|]. split; [by eapply settled_mono|]. intros b ->. apply guarded_Ok in Hg. rewrite Ed in Hg. apply pair_equal_spec in Hg as [-> _].
  destruct (implements_cases _ _ _ _ _ Hdel) as (r1 & s2 & E & [(b' & -> & Hb & _)|(x & -> & _)]); apply pair_equal_spec in E as [E _]; [|done].
  apply Ok_inj in E as ->. done.
Qed.

(** ** Moving claims *)

(** The claims agree with a scoped mapping. *)
Definition agrees (l : scoped) (m : claims) : Prop := forall key v t, (key, v) ∈ l -> names nfc key t -> m !! t = v.
Definition named (l : scoped) : Prop := Forall (fun ke => exists t, names nfc ke.1 t) l.

Lemma agrees_holds l x m : named l -> _encode_optional_entries casefold l = Ok x -> agrees l m -> holds x m = true.
Proof.
  intros Hn Hx Ha. apply holds_spec. intros k v Hk. destruct (encoded_change _ _ _ _ _ Hx Hk) as (key & Hin & Ht & _).
  unfold named in Hn. rewrite Forall_forall in Hn. destruct (Hn _ Hin) as [t Hnt]. cbn [fst] in Hnt. rewrite (names_inj _ _ _ _ Hnt Ht). by eapply Ha.
Qed.

Lemma entries_match_cases l s m : reads s m -> named l ->
  exists r s', _entries_match l s = (r, s') /\ reads s' m /\ troubles s' <= troubles s
  /\ ((r = Ok true /\ agrees l m) \/ (r = Ok false /\ ~ agrees l m) \/ (exists e, r = Raise e /\ e <> RollbackIncomplete /\ 1 <= troubles s)).
Proof.
  intros Hr Hn. revert s Hr. induction Hn as [|[key v] l [t Hk] Hn IH]; intros s Hr; cbn [_entries_match].
  - exists (Ok true), s. split; [done|]. split; [done|]. split; [done|]. left. split; [done|]. intros k v t H1. by apply not_elem_of_nil in H1.
  - cbn [fst] in Hk. unfold then_. destruct (get_cases s m key t Hr Hk) as (rg & s1 & -> & Hr1 & Ht1 & [->|(x & -> & Hx & Hlt)]).
    2: { eexists _, s1. split; [done|]. split; [done|]. split; [done|]. right; right. exists x. repeat split; done || lia. }
    case_bool_decide as Hv.
    + destruct (IH s1 Hr1) as (r & s2 & -> & Hr2 & Ht2 & Hc). exists r, s2. split; [done|]. split; [done|]. split; [lia|].
      destruct Hc as [[-> Ha]|[[-> Ha]|(e & -> & He & H1)]].
      * left. split; [done|]. intros k w t' [[= -> ->]|Hin]%elem_of_cons Hn'; [|by eapply Ha]. by rewrite (names_inj _ _ _ _ Hk (proj1 Hn')).
      * right; left. split; [done|]. intros Hb. apply Ha. intros k w t' Hin Hn'. eapply Hb; [|done]. by apply elem_of_cons; right.
      * right; right. exists e. repeat split; done || lia.
    + eexists _, s1. split; [done|]. split; [done|]. split; [done|]. right; left. split; [done|]. intros Hb. apply Hv. eapply Hb; [by apply elem_of_cons; left|done].
Qed.

(** Two scoped mappings of the same keys, which differ. *)
Definition same_scope (x y : changes) : Prop := forall k, is_Some (x !! k) <-> is_Some (y !! k).

Lemma apply_back x y m : same_scope x y -> holds x m = true -> apply_changes x (apply_changes y m) = m.
Proof.
  intros Hd Hx. rewrite holds_spec in Hx. apply map_eq. intros k. rewrite !lookup_apply. destruct (x !! k) as [v|] eqn:Ek; [by rewrite (Hx k v Ek)|].
  destruct (y !! k) as [w|] eqn:Ey; [|done]. destruct (proj2 (Hd k) (ex_intro _ _ Ey)). congruence.
Qed.

Lemma apply_holds y m : holds y (apply_changes y m) = true.
Proof. apply holds_spec. intros k v Hk. by rewrite lookup_apply, Hk. Qed.

Definition undo_swap (l l' : scoped) : act S unit :=
  do! restored := replace_entries_if_matches_atomically l' l in
  if (restored : bool) then ret tt else do! same := _entries_match l in if (same : bool) then ret tt else lift (Raise ArtifactManifestError).

(** The swap back leads to the claims before the swap. *)
Lemma undo_swap_spec l l' x y s m m' :
  named l -> named l' -> _encode_optional_entries casefold l = Ok x -> _encode_optional_entries casefold l' = Ok y -> same_scope x y ->
  sound nfc casefold m -> agrees l m -> holds y m = false -> reads s m' -> m' = m \/ m' = apply_changes y m ->
  exists r s', undo_swap l l' s = (r, s') /\ ((r = Ok tt /\ reads s' m) \/ (exists e, r = Raise e /\ 1 <= troubles s /\ (reads s' m \/ reads s' m'))).
Proof.
  intros Hl Hl' Hx Hy Hd Hs Ha Hne Hr Hm'. pose proof (agrees_holds _ _ _ Hl Hx Ha) as Hhx.
  pose proof (swap_law s m' l' l y x Hr Hl Hy Hx) as Hsw. unfold undo_swap, then_ at 1. unfold spec_swap in Hsw. destruct Hm' as [-> | ->].
  - rewrite Hne in Hsw. destruct (implements_cases _ _ _ _ _ Hsw) as (r & s1 & -> & [(b & -> & <- & Hr1 & Ht1)|(e & -> & _ & Hlt & Hr1)]).
    + unfold then_. destruct (entries_match_cases l s1 m Hr1 Hl) as (r & s2 & -> & Hr2 & Ht2 & [[-> _]|[[-> Hna]|(e & -> & _ & H1)]]); [|done|].
      * eexists _, s2. split; [done|]. by left.
      * eexists _, s2. split; [done|]. right. exists e. split; [done|]. split; [lia|by left].
    + eexists _, s1. split; [done|]. right. exists e. split; [done|]. split; [lia|tauto].
  - rewrite apply_holds, (apply_back x y m Hd Hhx) in Hsw. cbv zeta in Hsw. rewrite (sound_unique _ _ _ Hs) in Hsw.
    rewrite bool_decide_eq_false_2 in Hsw by (intros E; rewrite E in Hne; by rewrite apply_holds in Hne).
    destruct (implements_cases _ _ _ _ _ Hsw) as (r & s1 & -> & [(b & -> & <- & Hr1 & Ht1)|(e & -> & _ & Hlt & Hr1)]).
    + eexists _, s1. split; [done|]. by left.
    + eexists _, s1. split; [done|]. right. exists e. split; [done|]. split; [lia|tauto].
Qed.

Lemma commit_settled plan x y s m r s' :
  changed plan = true -> named (before plan) -> named (after plan) ->
  _encode_optional_entries casefold (before plan) = Ok x -> _encode_optional_entries casefold (after plan) = Ok y -> same_scope x y ->
  agrees (before plan) m -> holds y m = false -> reads s m -> commit plan s = (r, s') ->
  exists m', reads s' m' /\ settled (troubles s) m (apply_changes y m) r m' /\ forall p, r = Ok p -> p = plan.
Proof.
  intros Hch Hl Hl' Hx Hy Hd Ha Hne Hr. unfold commit. rewrite Hch. cbn [negb]. fold (undo_swap (before plan) (after plan)). unfold then_ at 1.
  pose proof (reads_sound _ _ Hr) as Hs. pose proof (swap_law s m _ _ _ _ Hr Hl' Hx Hy) as Hsw. unfold spec_swap in Hsw.
  rewrite (agrees_holds _ _ _ Hl Hx Ha) in Hsw. cbv zeta in Hsw.
  rewrite bool_decide_eq_false_2 in Hsw by (intros E; rewrite <- E in Hne; by rewrite apply_holds in Hne).
  destruct (replace_entries_if_matches_atomically (before plan) (after plan) s) as [rb sb] eqn:Eb.
  assert (left_by s m (apply_changes y m) rb sb /\ forall b, rb = Ok b -> b = true) as [Hlb Htrue].
  { destruct (unique_paths nfc casefold (apply_changes y m)).
    - split; [by eapply implements_left|]. intros b ->. destruct (implements_cases _ _ _ _ _ Hsw) as (r1 & s1 & E & [(b' & -> & <- & _)|(e & -> & _)]);
        apply pair_equal_spec in E as [E _]; [by apply Ok_inj in E|done].
    - split; [by apply (implements_left_fails _ _ _ _ _ ArtifactManifestError)|]. intros b ->. destruct Hsw as [(_ & E & _)|(_ & (e & E & _) & _)]; done. }
  match goal with |- context [guarded ?bd ?un s] => destruct (guarded bd un s) as [rg sg] eqn:Eg end.
  assert (exists m', reads sg m' /\ settled (troubles s) m (apply_changes y m) rg m') as (m' & Hr' & Hst).
  { eapply guarded_settled; [exact Eb|exact Hlb| |exact Eg]. intros m' Hm Hm'. by eapply undo_swap_spec. }
  destruct rg as [b|e].
  - apply guarded_Ok in Eg. rewrite Eb in Eg. apply pair_equal_spec in Eg as [-> ->]. rewrite (Htrue b eq_refl).
    intros [<- <-]%pair_equal_spec. exists m'. split; [done|]. split; [done|]. by intros p [= <-].
  - intros [<- <-]%pair_equal_spec. exists m'. split; [done|]. split; [exact Hst|done].
Qed.

Lemma compensate_spec receipt x y s m r s' :
  changed receipt = true -> named (before receipt) -> named (after receipt) ->
  _encode_optional_entries casefold (before receipt) = Ok x -> _encode_optional_entries casefold (after receipt) = Ok y ->
  reads s m -> compensate receipt s = (r, s') ->
  exists m', reads s' m' /\ match r with Ok _ => m' = apply_changes x m | Raise _ => m' = m \/ (m' = apply_changes x m /\ 1 <= troubles s) end.
Proof.
  intros Hch Hl Hl' Hx Hy Hr. unfold compensate. rewrite Hch. cbn [negb]. unfold then_ at 1.
  assert (forall m', agrees (before receipt) m' -> apply_changes x m' = m') as Hid.
  { intros m' Ha. pose proof (agrees_holds _ _ _ Hl Hx Ha) as Hh. rewrite holds_spec in Hh. apply map_eq. intros k. rewrite lookup_apply.
    destruct (x !! k) as [v|] eqn:Ek; [by rewrite (Hh k v Ek)|done]. }
  pose proof (swap_law s m _ _ _ _ Hr Hl Hy Hx) as Hsw. unfold spec_swap in Hsw. 
  assert (forall s1, reads s1 m -> troubles s1 <= troubles s ->
    (do! same := _entries_match (before receipt) in if (same : bool) then ret false else lift (Raise ArtifactManifestError)) s1 = (r, s') ->
    exists m', reads s' m' /\ match r with Ok _ => m' = apply_changes x m | Raise _ => m' = m \/ (m' = apply_changes x m /\ 1 <= troubles s) end) as Hcheck.
  { intros s1 Hr1 Ht1. unfold then_. destruct (entries_match_cases _ s1 m Hr1 Hl) as (r1 & s2 & -> & Hr2 & Ht2 & [[-> Ha]|[[-> _]|(e & -> & _ & _)]]);
      intros [<- <-]%pair_equal_spec; exists m; (split; [done|]); [by rewrite Hid|by left..]. }
  destruct (holds y m); [|destruct (implements_cases _ _ _ _ _ Hsw) as (r1 & s1 & -> & [(b & -> & <- & Hr1 & Ht1)|(e & -> & _ & Hlt & Hr1)])].
  - cbv zeta in Hsw. set (m1 := apply_changes x m) in *. case_bool_decide as Em.
    + destruct (implements_cases _ _ _ _ _ Hsw) as (r1 & s1 & -> & [(b & -> & _ & Hr1 & Ht1)|(e & -> & _ & Hlt & Hr1)]).
      * destruct b; [intros [<- <-]%pair_equal_spec; exists m; by rewrite Em|]. by apply Hcheck.
      * intros [<- <-]%pair_equal_spec. exists m. split; [tauto|by left].
    + destruct (unique_paths nfc casefold m1).
      * destruct (implements_cases _ _ _ _ _ Hsw) as (r1 & s1 & -> & [(b & -> & <- & Hr1 & Ht1)|(e & -> & _ & Hlt & Hr1)]); intros [<- <-]%pair_equal_spec; [by exists m1|].
        destruct Hr1 as [Hr1|Hr1]; [exists m; split; [done|by left]|exists m1; split; [done|right; split; [done|lia]]].
      * destruct (replace_entries_if_matches_atomically (after receipt) (before receipt) s) as [r1 s1].
        destruct Hsw as [(_ & E & Hr1)|(_ & (e & E & _) & [Hr1|[]])]; cbn [fst snd] in *; rewrite E; intros [<- <-]%pair_equal_spec; exists m; (split; [done|by left]).
  - by apply Hcheck.
  - intros [<- <-]%pair_equal_spec. exists m. split; [tauto|by left].
Qed.

(** ** Encoding a scoped mapping *)

Lemma names_same key key' t : names nfc key t -> names nfc key' t -> key = key'.
Proof. intros [_ H1] [_ H2]. rewrite H1 in H2. by apply Ok_inj in H2. Qed.

Lemma encode_targets_Ok l acc :
  NoDup l.*1 -> (forall k e, (k, e) ∈ l -> fit casefold e /\ exists t, names nfc k t /\ acc !! t = None) -> exists m, encode_targets casefold l acc = Ok m.
Proof.
  revert acc. induction l as [|[k e] l IH]; intros acc Hnd Hl; [by eexists|]. cbn [fmap list_fmap fst] in Hnd. apply NoDup_cons in Hnd as [Hk Hnd].
  destruct (Hl k e) as (He & t & Ht & Hacc); [by apply elem_of_cons; left|]. cbn [encode_targets]. rewrite (He : target_entry casefold e = Ok tt). cbn [bind].
  rewrite (proj1 Ht). cbn [bind]. rewrite Hacc, bool_decide_eq_false_2 by (by intros []). apply IH; [done|]. intros k' e' Hin.
  destruct (Hl k' e') as (He' & t' & Ht' & Hacc'); [by apply elem_of_cons; right|]. split; [done|]. exists t'. split; [done|].
  rewrite lookup_insert_ne; [done|]. intros <-. apply Hk. rewrite <- (names_same _ _ _ Ht' Ht). apply list_elem_of_fmap. by exists (k', e').
Qed.

Lemma encode_optional_Ok (l : scoped) : NoDup l.*1 -> named l ->
  exists y, encode_optional l = Ok y /\ forall k v, y !! k = Some v <-> exists key, (key, v) ∈ l /\ names nfc key k.
Proof.
  induction l as [|[key v] l IH]; intros Hnd Hn; cbn [encode_optional].
  - exists ∅. split; [done|]. intros k v. rewrite lookup_empty. split; [done|]. intros (key & Hin & _). by apply not_elem_of_nil in Hin.
  - cbn [fmap list_fmap fst] in Hnd. apply NoDup_cons in Hnd as [Hk Hnd]. apply Forall_cons in Hn as [[t Ht] Hn]. cbn [fst] in Ht.
    destruct (IH Hnd Hn) as (y & -> & Hy). rewrite (proj1 Ht). cbn [bind].
    assert (y !! t = None) as Hfresh.
    { destruct (y !! t) as [w|] eqn:E; [|done]. apply Hy in E as (key' & Hin & Ht'). destruct Hk. rewrite (names_same _ _ _ Ht Ht').
      apply list_elem_of_fmap. by exists (key', w). }
    rewrite Hfresh, bool_decide_eq_false_2 by (by intros []). eexists. split; [reflexivity|]. intros k w. rewrite lookup_insert_Some, Hy. split.
    + intros [[<- <-]|[_ (key' & Hin & Hk')]]; [exists key; split; [by apply elem_of_cons; left|done]|exists key'; split; [by apply elem_of_cons; right|done]].
    + intros (key' & [[= -> ->]|Hin]%elem_of_cons & Hk'); [left; split; [exact (names_inj nfc key _ _ Hk' (proj1 Ht))|done]|right]. split; [|by exists key'].
      intros <-. destruct Hk. rewrite (names_same _ _ _ Ht Hk'). apply list_elem_of_fmap. by exists (key', w).
Qed.

(** A scoped mapping of named keys and canonical entries is encoded as it is. *)
Lemma encode_scoped (l : scoped) : NoDup l.*1 -> named l -> (forall k e, (k, Some e) ∈ l -> fit casefold e) ->
  exists y, _encode_optional_entries casefold l = Ok y /\ forall k v, y !! k = Some v <-> exists key, (key, v) ∈ l /\ names nfc key k.
Proof.
  intros Hnd Hn Hf. destruct (encode_optional_Ok l Hnd Hn) as (y & Hy & Hspec). exists y. split; [|done]. unfold _encode_optional_entries.
  set (present := omap _ l). destruct (encode_targets_Ok present ∅) as [m Hm]; [| |unfold _encode_target_entries; by rewrite Hm].
  - unfold present. clear -Hnd. induction l as [|[k [e|]] l IH]; [constructor|..]; cbn [fmap list_fmap fst] in Hnd; apply NoDup_cons in Hnd as [Hk Hnd];
      cbn [omap list_omap snd fst]; [|by apply IH]. cbn [fmap list_fmap fst]. apply NoDup_cons. split; [|by apply IH].
    intros ([k' e'] & -> & Hin)%list_elem_of_fmap. apply Hk. apply list_elem_of_omap in Hin as ([k2 [e2|]] & Hin & E); [|done]. injection E as -> ->.
    apply list_elem_of_fmap. by exists (k', Some e').
  - intros k e Hin. apply list_elem_of_omap in Hin as ([k2 [e2|]] & Hin & E); [|done]. injection E as -> ->. split; [by eapply Hf|].
    unfold named in Hn. rewrite Forall_forall in Hn. destruct (Hn _ Hin) as [t Ht]. exists t. split; [done|apply lookup_empty].
Qed.

Lemma rewrites_canonical rw g p q : normalize_rewrites casefold rw = Ok g -> g !! p = Some q -> normalize_path casefold q = Ok q.
Proof.
  revert g. induction rw as [|[a b] rw IH]; cbn [normalize_rewrites]; intros g Hg Hp; [apply Ok_inj in Hg as <-; by rewrite lookup_empty in Hp|].
  apply bind_Ok in Hg as (a' & _ & Hg). apply bind_Ok in Hg as (b' & Hb & Hg). apply bind_Ok in Hg as (others & Ho & Hg). apply Ok_inj in Hg as <-.
  case_hyp; [by eapply IH|]. apply lookup_insert_Some in Hp as [[_ E]|[_ Hp]]; [|by eapply IH]. subst q. by rewrite (normalize_same _ _ _ Hb) in Hb |- *.
Qed.

Lemma moved_fit rw g e : normalize_rewrites casefold rw = Ok g -> fit casefold e -> fit casefold (moved g e).
Proof.
  intros Hg [Hp Hd]%target_entry_Ok. unfold moved. destruct (g !! artifact_path e) as [q|] eqn:Hq; cbn [default id]; [|by eapply fit_normalized].
  eapply fit_normalized; [|done]. by eapply rewrites_canonical.
Qed.

(** The claims with the one of a key moved to another. *)
Definition rekeyed (g : gmap pystr pystr) (from to : pystr) (m : claims) : claims :=
  match m !! from with None => m | Some e => <[to := moved g e]> (delete from m) end.

(** A plan that changes something. *)
Definition ready (plan : ArtifactEntryRekeyPlan) (x y : changes) (m m1 : claims) : Prop :=
  named (before plan) /\ named (after plan)
  /\ _encode_optional_entries casefold (before plan) = Ok x /\ _encode_optional_entries casefold (after plan) = Ok y
  /\ same_scope x y /\ agrees (before plan) m /\ holds y m = false /\ apply_changes y m = m1.

Lemma named_keys (l l' : scoped) : l.*1 = l'.*1 -> named l -> named l'.
Proof.
  unfold named. rewrite !Forall_forall. intros E Hn [k v] Hin. assert (k ∈ l.*1) as Hk by (rewrite E; apply list_elem_of_fmap; by exists (k, v)).
  apply list_elem_of_fmap in Hk as ([k' v'] & -> & Hin'). by apply (Hn _ Hin').
Qed.

Lemma ready_plan plan m m1 :
  NoDup (before plan).*1 -> (before plan).*1 = (after plan).*1 -> named (before plan) ->
  (forall k e, (k, Some e) ∈ before plan \/ (k, Some e) ∈ after plan -> fit casefold e) ->
  agrees (before plan) m -> (exists key v t, (key, v) ∈ after plan /\ names nfc key t /\ m !! t <> v) ->
  agrees (after plan) m1 -> (forall k, (forall key v, (key, v) ∈ after plan -> ~ names nfc key k) -> m1 !! k = m !! k) ->
  exists x y, ready plan x y m m1 /\ (forall k v, x !! k = Some v <-> exists key, (key, v) ∈ before plan /\ names nfc key k).
Proof.
  intros Hnd Ek Hn Hf Ha (key0 & v0 & t0 & Hin0 & Hn0 & Hd0) Ha1 Hrest. pose proof (named_keys _ _ Ek Hn) as Hn'.
  destruct (encode_scoped _ Hnd Hn) as (x & Hx & Sx); [intros k e Hin; eapply Hf; by left|].
  destruct (encode_scoped (after plan)) as (y & Hy & Sy); [by rewrite <- Ek|done|intros k e Hin; eapply Hf; by right|]. exists x, y. split; [|done].
  split; [done|]. split; [done|]. split; [done|]. split; [done|]. split; [|split; [done|split]].
  - assert (forall (l l' : scoped) (z z' : changes), l.*1 = l'.*1 -> (forall k v, z !! k = Some v <-> exists key, (key, v) ∈ l /\ names nfc key k) ->
      (forall k v, z' !! k = Some v <-> exists key, (key, v) ∈ l' /\ names nfc key k) -> forall k : pystr, is_Some (z !! k) -> is_Some (z' !! k)) as Hdir.
    { intros l l' z z' E Sz Sz' k [v (key & Hin & Hk)%Sz]. assert (key ∈ l'.*1) as Hkey by (rewrite <- E; apply list_elem_of_fmap; by exists (key, v)).
      apply list_elem_of_fmap in Hkey as ([key' v'] & -> & Hin'). exists v'. apply Sz'. by exists key'. }
    intros k. split; eapply Hdir; [exact Ek|done|done|symmetry; exact Ek|done|done].
  - apply not_true_iff_false. rewrite holds_spec. intros Hh. apply Hd0, Hh, Sy. by exists key0.
  - apply map_eq. intros k. rewrite lookup_apply. destruct (y !! k) as [v|] eqn:Eyk.
    + apply Sy in Eyk as (key & Hin & Hk). symmetry. by eapply Ha1.
    + symmetry. apply Hrest. intros key v Hin Hk. assert (y !! k = Some v) by (apply Sy; by exists key). congruence.
Qed.

Lemma plan_shape source target rw from to s m plan s1 :
  reads s m -> names nfc source from -> names nfc target to -> plan_entry_rekey casefold source target rw s = (Ok plan, s1) ->
  reads s1 m /\ troubles s1 <= troubles s /\ (source <> target -> m !! to = None)
  /\ exists g, normalize_rewrites casefold rw = Ok g
     /\ ((changed plan = false /\ rekeyed g from to m = m)
         \/ (changed plan = true /\ exists e, m !! from = Some e /\
             ((source = target /\ moved g e <> e /\ plan = mkPlan [(source, Some e)] [(source, Some (moved g e))] true)
              \/ (source <> target /\ plan = mkPlan [(source, Some e); (target, None)] [(source, None); (target, Some (moved g e))] true)))).
Proof.
  intros Hr Hs Ht. unfold plan_entry_rekey, then_ at 1, lift at 1. destruct (normalize_rewrites casefold rw) as [g|]; [|done].
  unfold then_ at 1. destruct (get_cases s m source from Hr Hs) as (r & s2 & -> & Hr2 & Ht2 & [->|(e & -> & _)]); [|done].
  case_bool_decide as Est.
  - subst target. pose proof (names_inj _ _ _ _ Hs (proj1 Ht)) as ->. destruct (m !! from) as [e|] eqn:He.
    + case_bool_decide as Em; intros [E <-]%pair_equal_spec; apply Ok_inj in E as <-; (split; [done|]); (split; [done|]); (split; [done|]); exists g; (split; [done|]).
      * left. split; [done|]. unfold rekeyed. by rewrite He, Em, insert_delete_eq, insert_id.
      * right. split; [done|]. exists e. split; [done|]. by left.
    + intros [E <-]%pair_equal_spec. apply Ok_inj in E as <-. split; [done|]. split; [done|]. split; [done|]. exists g. split; [done|]. left.
      split; [done|]. unfold rekeyed. by rewrite He.
  - unfold then_. destruct (get_cases s2 m target to Hr2 Ht) as (r & s3 & -> & Hr3 & Ht3 & [->|(e & -> & _)]); [|done].
    destruct (m !! to) as [w|] eqn:Hto; [done|]. destruct (m !! from) as [e|] eqn:He; intros [E <-]%pair_equal_spec; apply Ok_inj in E as <-;
      (split; [done|]); (split; [lia|]); (split; [done|]); exists g; (split; [done|]).
    + right. split; [done|]. exists e. split; [done|]. by right.
    + left. split; [done|]. unfold rekeyed. by rewrite He.
Qed.

(** A plan that changes something moves the claim and nothing else. *)
Lemma plan_ready source target rw g from to m e plan :
  sound nfc casefold m -> names nfc source from -> names nfc target to -> (source <> target -> m !! to = None) -> normalize_rewrites casefold rw = Ok g -> m !! from = Some e ->
  ((source = target /\ moved g e <> e /\ plan = mkPlan [(source, Some e)] [(source, Some (moved g e))] true)
   \/ (source <> target /\ plan = mkPlan [(source, Some e); (target, None)] [(source, None); (target, Some (moved g e))] true)) ->
  exists x y, ready plan x y m (rekeyed g from to m) /\ (forall k v, x !! k = Some v -> (k = from \/ k = to) /\ v = m !! k)
  /\ (forall k, k = from \/ k = to -> is_Some (x !! k)).
Proof.
  intros Hsound Hs Ht Hto Hg He Hplan. destruct (sound_entry _ _ _ Hsound from e He) as [_ Hfe]. pose proof (moved_fit _ _ _ Hg Hfe) as Hfm.
  assert (forall t, names nfc source t -> t = from) as Is by (intros t Hn; exact (names_inj _ _ _ _ Hs (proj1 Hn))).
  assert (forall t, names nfc target t -> t = to) as It by (intros t Hn; exact (names_inj _ _ _ _ Ht (proj1 Hn))).
  unfold rekeyed. rewrite He. destruct Hplan as [(<- & Hne & ->)|(Hst & ->)].
  - assert (to = from) as -> by (by apply Is).
    destruct (ready_plan (mkPlan [(source, Some e)] [(source, Some (moved g e))] true) m (<[from := moved g e]> (delete from m))) as (x & y & Hready & Sx);
      cbn [before after] in *.
    + apply NoDup_singleton.
    + done.
    + apply Forall_singleton. by exists from.
    + intros k w [Hin|Hin]; apply list_elem_of_singleton in Hin; by injection Hin as -> ->.
    + intros k v t Hin%list_elem_of_singleton Hk. injection Hin as -> ->. by rewrite (Is _ Hk).
    + exists source, (Some (moved g e)), from. split; [by apply list_elem_of_singleton|]. split; [done|]. congruence.
    + intros k v t Hin%list_elem_of_singleton Hk. injection Hin as -> ->. rewrite (Is _ Hk). apply lookup_insert_eq.
    + intros k Hk. assert (k <> from) by (intros ->; eapply Hk; [by apply list_elem_of_singleton|done]). by rewrite lookup_insert_ne, lookup_delete_ne.
    + exists x, y. split; [done|]. split.
      * intros k v (key & Hin%list_elem_of_singleton & Hk)%Sx. injection Hin as -> ->. rewrite (Is _ Hk). split; [by left|done].
      * intros k Hk. exists (Some e). apply Sx. exists source. split; [by apply list_elem_of_singleton|]. by destruct Hk as [-> | ->].
  - assert (from <> to) as Hft by (intros E; apply Hst; rewrite <- E in Ht; by eapply names_same).
    destruct (ready_plan (mkPlan [(source, Some e); (target, None)] [(source, None); (target, Some (moved g e))] true) m (<[to := moved g e]> (delete from m)))
      as (x & y & Hready & Sx); cbn [before after] in *.
    + apply NoDup_cons. split; [|apply NoDup_singleton]. by intros Hin%list_elem_of_singleton.
    + done.
    + apply Forall_cons. split; [by exists from|]. apply Forall_singleton. by exists to.
    + intros k w [Hin|Hin]; apply elem_of_cons in Hin as [Hin|Hin%list_elem_of_singleton]; by inversion Hin; subst.
    + intros k v t [Hin|Hin%list_elem_of_singleton]%elem_of_cons Hk; injection Hin as -> ->; [by rewrite (Is _ Hk)|rewrite (It _ Hk); by apply Hto].
    + exists source, None, from. split; [by apply elem_of_cons; left|]. split; [done|]. congruence.
    + intros k v t [Hin|Hin%list_elem_of_singleton]%elem_of_cons Hk; injection Hin as -> ->.
      * rewrite (Is _ Hk), lookup_insert_ne by done. apply lookup_delete_eq.
      * rewrite (It _ Hk). apply lookup_insert_eq.
    + intros k Hk. assert (k <> from) by (intros ->; eapply (Hk source); [by apply elem_of_cons; left|done]).
      assert (k <> to) by (intros ->; eapply (Hk target); [by apply elem_of_cons; right; apply list_elem_of_singleton|done]). by rewrite lookup_insert_ne, lookup_delete_ne.
    + exists x, y. split; [done|]. split.
      * intros k v (key & [Hin|Hin%list_elem_of_singleton]%elem_of_cons & Hk)%Sx; injection Hin as -> ->.
        -- rewrite (Is _ Hk). split; [by left|done].
        -- rewrite (It _ Hk). split; [by right|symmetry; by apply Hto].
      * intros k [-> | ->]; [exists (Some e)|exists None]; apply Sx; [exists source|exists target]; (split; [|done]); apply elem_of_cons; [by left|right]; by apply list_elem_of_singleton.
Qed.

(** ** Forgetting several claims *)

Lemma distinct_spec keys seen : NoDup (distinct keys seen) /\ forall k, k ∈ distinct keys seen <-> k ∈ keys /\ k ∉ seen.
Proof.
  revert seen. induction keys as [|k keys IH]; intros seen; cbn [distinct].
  - split; [constructor|]. intros k. split; [by intros ?%not_elem_of_nil|by intros [?%not_elem_of_nil _]].
  - case_bool_decide as Hk.
    + destruct (IH seen) as [Hnd Hel]. split; [done|]. intros k'. rewrite Hel, elem_of_cons. split; [tauto|]. intros [[->|?] ?]; tauto.
    + destruct (IH (k :: seen)) as [Hnd Hel]. split.
      * apply NoDup_cons. split; [|done]. rewrite Hel, elem_of_cons. tauto.
      * intros k'. rewrite !elem_of_cons, Hel, elem_of_cons. destruct (decide (k' = k)) as [->|]; tauto.
Qed.

Lemma gather_cases keys s m : reads s m -> Forall (fun key => exists t, names nfc key t) keys ->
  exists r s', gather_entries keys s = (r, s') /\ reads s' m /\ troubles s' <= troubles s
  /\ ((exists found, r = Ok found /\ (NoDup keys -> NoDup found.*1)
       /\ forall key e, (key, e) ∈ found <-> key ∈ keys /\ exists t, names nfc key t /\ m !! t = Some e)
      \/ (exists e, r = Raise e /\ e <> RollbackIncomplete)).
Proof.
  intros Hr Hn. revert s Hr. induction Hn as [|key keys [t Hk] Hn IH]; intros s Hr; cbn [gather_entries].
  - exists (Ok []), s. split; [done|]. split; [done|]. split; [done|]. left. exists []. split; [done|]. split; [constructor|]. intros key e.
    split; [by intros ?%not_elem_of_nil|by intros [?%not_elem_of_nil _]].
  - unfold then_ at 1. destruct (get_cases s m key t Hr Hk) as (rg & s1 & -> & Hr1 & Ht1 & [->|(x & -> & Hx & Hlt)]).
    2: { eexists _, s1. split; [done|]. split; [done|]. split; [done|]. right. by exists x. }
    unfold then_. destruct (IH s1 Hr1) as (r & s2 & -> & Hr2 & Ht2 & [(found & -> & Hnd & Hf)|(x & -> & Hx)]).
    2: { eexists _, s2. split; [done|]. split; [done|]. split; [lia|]. right. by exists x. }
    eexists _, s2. split; [done|]. split; [done|]. split; [lia|]. left. eexists. split; [reflexivity|]. split.
    + intros [Hkey Hnd']%NoDup_cons. destruct (m !! t) as [e|]; [|by apply Hnd]. cbn [fmap list_fmap fst]. apply NoDup_cons. split; [|by apply Hnd].
      intros ([key' e'] & -> & Hin)%list_elem_of_fmap. apply Hf in Hin as [Hin _]. done.
    + intros key' e'. rewrite elem_of_cons. destruct (m !! t) as [e|] eqn:He; rewrite ?elem_of_cons, Hf; split.
      * intros [[= -> ->]|[Hin Ht']]; [split; [by left|by exists t]|split; [by right|done]].
      * intros [[->|Hin] (t' & Hk' & He')]; [left|right; split; [done|by exists t']]. rewrite (names_inj _ _ _ _ Hk (proj1 Hk')) in He'. congruence.
      * intros [Hin Ht']. split; [by right|done].
      * intros [[->|Hin] (t' & Hk' & He')]; [|split; [done|by exists t']]. rewrite (names_inj _ _ _ _ Hk (proj1 Hk')) in He'. congruence.
Qed.

(** The claims without those of the keys. *)
Definition texts (keys : list ArtifactKey) : list pystr := omap (fun key => match encode key with Ok t => Some t | Raise _ => None end) keys.
Definition without (keys : list ArtifactKey) (m : claims) : claims := filter (fun kv => kv.1 ∉ texts keys) m.

Lemma texts_spec keys t : Forall (fun key => exists t, names nfc key t) keys -> t ∈ texts keys <-> exists key, key ∈ keys /\ names nfc key t.
Proof.
  intros Hn. unfold texts. rewrite list_elem_of_omap. split.
  - intros (key & Hin & Ht). exists key. split; [done|]. rewrite Forall_forall in Hn. destruct (Hn _ Hin) as [t' Ht']. rewrite (proj1 Ht') in Ht.
    by injection Ht as <-.
  - intros (key & Hin & Ht). exists key. split; [done|]. by rewrite (proj1 Ht).
Qed.

Lemma without_lookup keys m k : without keys m !! k = if bool_decide (k ∈ texts keys) then None else m !! k.
Proof.
  unfold without. case_bool_decide as Hk.
  - apply map_lookup_filter_None. right. intros v _ Hv. by apply Hv.
  - destruct (m !! k) as [e|] eqn:E; [by apply map_lookup_filter_Some|]. apply map_lookup_filter_None. by left.
Qed.

Lemma forget_entries_settled keys s m r s' : reads s m -> Forall (fun key => exists t, names nfc key t) keys -> forget_entries_transactionally keys s = (r, s') ->
  exists m', reads s' m' /\ settled (troubles s) m (without keys m) r m'.
Proof.
  intros Hr Hn. unfold forget_entries_transactionally, then_ at 1. destruct (distinct_spec keys []) as [Hd Hel].
  assert (Forall (fun key => exists t, names nfc key t) (distinct keys [])) as Hn'.
  { rewrite Forall_forall in *. intros key Hin. by apply Hn, Hel. }
  destruct (gather_cases _ s m Hr Hn') as (rg & s1 & -> & Hr1 & Ht1 & [(found & -> & Hnd & Hf)|(x & -> & Hx)]).
  2: { intros [<- <-]%pair_equal_spec. exists m. split; [done|by apply settled_raise]. }
  specialize (Hnd Hd). assert (forall key e, (key, e) ∈ found <-> key ∈ keys /\ exists t, names nfc key t /\ m !! t = Some e) as Hf'.
  { intros key e. rewrite Hf, Hel. split; [tauto|]. intros [? ?]. repeat split; try done. by intros ?%not_elem_of_nil. }
  destruct found as [|[key0 e0] rest] eqn:Efound.
  { intros [<- <-]%pair_equal_spec. exists m. split; [done|]. cbn. apply map_eq. intros k. rewrite without_lookup. case_bool_decide as Hk; [|done].
    apply texts_spec in Hk as (key & Hin & Ht); [|done]. destruct (m !! k) as [e|] eqn:He; [|done].
    assert ((key, e) ∈ []) as Hbad by (apply Hf'; split; [done|by exists k]). by apply not_elem_of_nil in Hbad. }
  rewrite <- Efound in *. set (plan := mkPlan _ _ true). destruct (proj1 (Hf' key0 e0)) as [Hin0 (t0 & Ht0 & He0)]; [rewrite Efound; by apply elem_of_cons; left|].
  pose proof (reads_sound _ _ Hr) as Hs.
  assert (forall key v, (key, v) ∈ before plan <-> exists e, v = Some e /\ (key, e) ∈ found) as Hbef.
  { intros key v. cbn [plan before]. rewrite list_elem_of_fmap. split; [intros ([k e] & [= -> ->] & Hin); by exists e|intros (e & -> & Hin); by exists (key, e)]. }
  assert (forall key v, (key, v) ∈ after plan <-> v = None /\ exists e, (key, e) ∈ found) as Haft.
  { intros key v. cbn [plan after]. rewrite list_elem_of_fmap.
    split; [intros ([k e] & [= -> ->] & Hin); split; [done|by exists e]|intros (-> & e & Hin); by exists (key, e)]. }
  destruct (ready_plan plan m (without keys m)) as (x & y & (Hb & Ha & Hx & Hy & Hsc & Hag & Hne & Hap) & _).
  - cbn [plan before]. rewrite <- list_fmap_compose. exact Hnd.
  - cbn [plan before after]. by rewrite <- !list_fmap_compose.
  - apply Forall_forall. intros [key v] (e & -> & Hin)%Hbef. apply Hf' in Hin as [_ (t & Ht & _)]. by exists t.
  - intros k e [(e' & [= <-] & Hin)%Hbef|[[=] _]%Haft]. apply Hf' in Hin as [_ (t & _ & He)]. by apply (sound_entry _ _ _ Hs t e He).
  - intros key v t (e & -> & Hin)%Hbef Ht. apply Hf' in Hin as [_ (t' & Ht' & He)]. by rewrite (names_inj _ _ _ _ Ht' (proj1 Ht)).
  - exists key0, None, t0. split; [|split; [done|congruence]]. apply Haft. split; [done|]. exists e0. rewrite Efound. by apply elem_of_cons; left.
  - intros key v t (-> & e & Hin)%Haft Ht. apply Hf' in Hin as [Hin _]. rewrite without_lookup, bool_decide_eq_true_2; [done|]. apply texts_spec; [done|]. by exists key.
  - intros k Hk. rewrite without_lookup. case_bool_decide as Hin; [|done]. apply texts_spec in Hin as (key & Hin & Ht); [|done].
    destruct (m !! k) as [e|] eqn:He; [|done]. destruct (Hk key None); [|done]. apply Haft. split; [done|]. exists e. apply Hf'. split; [done|by exists k].
  - unfold then_. destruct (commit plan s1) as [rc s2] eqn:Ec. destruct (commit_settled plan x y s1 m rc s2 eq_refl Hb Ha Hx Hy Hsc Hag Hne Hr1 Ec) as (m' & Hr' & Hst & _).
    rewrite Hap in Hst. intros Hres. exists m'. destruct rc as [p|e]; apply pair_equal_spec in Hres as [<- <-]; (split; [done|]); eapply settled_mono; [exact Ht1|exact Hst|exact Ht1|exact Hst].
Qed.

Lemma register_completes s m key t e : reads s m -> names nfc key t -> fit casefold e -> require_present (inspect_artifact s (artifact_path e)) = Ok tt ->
  unique_paths nfc casefold (<[t := e]> m) = true -> troubles s = 0 -> exists b s', register_entry_transactionally casefold key e s = (Ok b, s').
Proof.
  intros Hr Hn He Ho Hu H0'. unfold register_entry_transactionally, then_ at 1, lift at 1. destruct (encode_targets_Ok [(key, e)] ∅) as [m0 Hm0].
  { apply NoDup_singleton. }
  { intros k e' Hin%list_elem_of_singleton. injection Hin as -> ->. split; [done|]. exists t. split; [done|apply lookup_empty]. }
  unfold _encode_target_entries. rewrite Hm0. unfold then_ at 1, seen_now. unfold then_ at 1, lift. rewrite Ho. destruct (observed _ _ Ho) as [_ ->]. cbv zeta.
  assert (mkEntry (artifact_path e) (basis_digest e) = e) as -> by (by destruct e). unfold then_.
  destruct (get_cases s m key t Hr Hn) as (rg & s1 & -> & Hr1 & Ht1 & [->|(x & _ & _ & Hlt)]); [|lia].
  destruct (put_done s1 m key t e Hr1 Hn He Hu) as (answer & Hput & _). unfold guarded.
  destruct (implements_cases _ _ _ _ _ Hput) as (r & s2 & -> & [(b & -> & _)|(x & _ & _ & Hlt & _)]); [by exists b, s2|lia].
Qed.

(** C14: Registering or forgetting a claim is all or nothing.  After a call that
    returns, the claims are the old ones with exactly that change; after one that raises,
    they are the old ones; only when a call of the storage fails and another fails
    during the rollback may the change be there with an error, and the error then
    says that the rollback is incomplete.  An entry is only registered for a formal
    file that is present, in canonical form, and it is registered when the
    storage is sound and no other key claims its path. *)
Theorem claims_settled s m key t :
  reads s m -> names nfc key t ->
  (forall e r s', register_entry_transactionally casefold key e s = (r, s') ->
   exists m', reads s' m' /\ settled (troubles s) m (<[t := e]> m) r m'
   /\ forall b, r = Ok b -> b = negb (bool_decide (m !! t = Some e)) /\ fit casefold e /\ require_present (inspect_artifact s (artifact_path e)) = Ok tt)
  /\ (forall e, fit casefold e -> require_present (inspect_artifact s (artifact_path e)) = Ok tt -> unique_paths nfc casefold (<[t := e]> m) = true ->
      troubles s = 0 -> exists b s', register_entry_transactionally casefold key e s = (Ok b, s'))
  /\ (forall p k v d basis r s', make_descriptor k v d = Ok basis -> register_descriptor_transactionally casefold key p basis s = (r, s') ->
      exists m', reads s' m' /\ settled (troubles s) m (<[t := mkEntry p (digest basis)]> m) r m')
  /\ (forall r s', forget_entry_transactionally key s = (r, s') ->
      exists m', reads s' m' /\ settled (troubles s) m (delete t m) r m' /\ forall b, r = Ok b -> b = bool_decide (is_Some (m !! t)))
  /\ (forall keys r s', Forall (fun key => exists t, names nfc key t) keys -> forget_entries_transactionally keys s = (r, s') ->
      exists m', reads s' m' /\ settled (troubles s) m (without keys m) r m').
Proof.
  intros Hr Hn. split; [|split; [|split; [|split]]].
  - intros e r s'. by apply register_entry_settled.
  - intros e He Ho Hu H1. by eapply register_completes.
  - intros p k v d basis r s' Hb. apply register_descriptor_settled; [done|done|]. unfold make_descriptor in Hb. repeat (case_hyp; try discriminate Hb).
    by injection Hb as <-.
  - intros r s'. by apply forget_settled.
  - intros keys r s'. by apply forget_entries_settled.
Qed.

(** What a comparison that says current is evidence of. *)
Lemma compare_current s m key t path expected c s' : reads s m -> names nfc key t -> compare_entry casefold key path expected s = (Ok c, s') ->
  reads s' m /\ (status c = ArtifactStatus.CURRENT -> exists e, expected = Some e /\ m !! t = Some e /\ artifact_path e = path).
Proof.
  intros Hr Hn. unfold compare_entry. set (o := inspect_artifact s path). destruct (blocker o) as [b|] eqn:Hb; [by intros [[= <-] <-]%pair_equal_spec|].
  assert (obs_path o = path) as Hpath by (eapply normalize_same, inspect_path; exact Hb).
  destruct (present o) eqn:Hp; cbn [negb]; [|by intros [[= <-] <-]%pair_equal_spec].
  destruct (get_cases s m key t Hr Hn) as (r & s1 & -> & Hr1 & _ & [->|(x & -> & _)]); [|destruct (is_manifest_error x); by intros [[= <-] <-]%pair_equal_spec].
  destruct (m !! t) as [e|]; [|by intros [[= <-] <-]%pair_equal_spec].
  case_bool_decide as Hep; cbn [negb]; [|by intros [[= <-] <-]%pair_equal_spec].
  destruct expected as [[p d]|]; [|by intros [[= <-] <-]%pair_equal_spec]. cbn [artifact_path basis_digest].
  destruct (normalize_path casefold p) as [q|x] eqn:Hq; cbn [bind]; [|by intros [[= ] _]%pair_equal_spec]. apply normalize_same in Hq as ->.
  intros [[= <-] <-]%pair_equal_spec. split; [done|]. cbn [status]. case_bool_decide as E; [|done]. intros _. exists e. injection E as E.
  split; [by rewrite E|]. split; [done|congruence].
Qed.

(** Without troubles a present file has the status that its claim gives it. *)
Lemma compare_claimed s m key t e digest : reads s m -> names nfc key t -> troubles s = 0 -> m !! t = Some e ->
  require_present (inspect_artifact s (artifact_path e)) = Ok tt ->
  compare_entry casefold key (artifact_path e) (Some (mkEntry (artifact_path e) digest)) s
    = (Ok (mkComparison (if bool_decide (basis_digest e = digest) then ArtifactStatus.CURRENT else ArtifactStatus.STALE) (artifact_path e) None), (get_entry key s).2).
Proof.
  intros Hr Hn Hcalm He Ho. unfold require_present in Ho. unfold compare_entry. set (o := inspect_artifact s (artifact_path e)) in *.
  destruct (blocker o) eqn:Hb; [done|]. destruct (present o); [|done]. cbn [negb].
  pose proof (inspect_path s (artifact_path e) Hb) as Hq. fold o in Hq. pose proof (normalize_same _ _ _ Hq) as Hpath. rewrite Hpath in *.
  destruct (get_cases s m key t Hr Hn) as (r & s1 & -> & _ & _ & [->|(x & _ & _ & Hx)]); [|lia]. rewrite He.
  rewrite bool_decide_eq_true_2 by done. cbn [negb artifact_path basis_digest]. rewrite Hq. cbn [bind snd]. repeat f_equal.
  destruct e as [p d]. cbn [artifact_path basis_digest]. destruct (decide (d = digest)) as [-> |E]; [by rewrite !bool_decide_eq_true_2|]. rewrite !bool_decide_eq_false_2; [done|done|]. by intros [= ].
Qed.

(** C15: A formal file is current only with a claim for exactly its path and its
    present basis.  Whatever is compared, nothing is written; a usable file has a claim
    for its own path, and a current one has the claim that is expected.  With a
    sound storage the answer is exact: blocked if the file cannot be inspected,
    missing if it is absent or has no claim for its path, stale if the claim differs from
    the expected one, and current otherwise. *)
Theorem currency_exact s m key t path expected c s' :
  reads s m -> names nfc key t -> compare_entry casefold key path expected s = (Ok c, s') ->
  reads s' m
  /\ (usable c = true -> exists e, m !! t = Some e /\ artifact_path e = path /\ require_present (inspect_artifact s path) = Ok tt
                                   /\ (status c = ArtifactStatus.CURRENT <-> expected = Some e))
  /\ (troubles s = 0 ->
      (status c = ArtifactStatus.BLOCKED <-> blocker (inspect_artifact s path) <> None)
      /\ (status c = ArtifactStatus.MISSING <-> blocker (inspect_artifact s path) = None
            /\ (present (inspect_artifact s path) = false \/ forall e, m !! t = Some e -> artifact_path e <> path))).
Proof.
  intros Hr Hn. unfold compare_entry. set (o := inspect_artifact s path). destruct (blocker o) as [b|] eqn:Hb.
  { intros [E <-]%pair_equal_spec. apply Ok_inj in E as <-. split; [done|]. split; [done|]. intros _. split; split; try done. by intros [? _]. }
  assert (obs_path o = path) as Hpath by (eapply normalize_same, inspect_path; exact Hb). rewrite Hpath.
  destruct (present o) eqn:Hp; cbn [negb].
  2: { intros [E <-]%pair_equal_spec. apply Ok_inj in E as <-. split; [done|]. split; [done|]. intros _. split; split; try done. intros _. split; [done|by left]. }
  destruct (get_cases s m key t Hr Hn) as (r & s1 & -> & Hr1 & _ & [->|(x & -> & _ & Hlt)]).
  2: { destruct (is_manifest_error x); [|by intros [= ]]. intros [E <-]%pair_equal_spec. apply Ok_inj in E as <-. split; [done|]. split; [done|lia]. }
  assert (require_present o = Ok tt) as Hreq by (unfold require_present; by rewrite Hb, Hp).
  destruct (m !! t) as [e|] eqn:He.
  2: { intros [E <-]%pair_equal_spec. apply Ok_inj in E as <-. split; [done|]. split; [done|]. intros _. split; split; try done. intros _. split; [done|by right]. }
  case_bool_decide as Hep; cbn [negb].
  2: { intros [E <-]%pair_equal_spec. apply Ok_inj in E as <-. split; [done|]. split; [done|]. intros _. split; split; try done. intros _. split; [done|].
       right. by intros e' [= <-]. }
  set (nx := match expected with Some _ => _ | None => _ end). assert (nx = Ok expected \/ exists x, nx = Raise x) as [-> | [x ->]].
  { unfold nx. destruct expected as [[p d]|]; [|by left]. cbn [artifact_path basis_digest]. destruct (normalize_path casefold p) as [q|x] eqn:Hq; cbn [bind].
    - left. by rewrite (normalize_same _ _ _ Hq).
    - right. by exists x. }
  2: { by intros [= ]. }
  intros [E <-]%pair_equal_spec. apply Ok_inj in E as <-. split; [done|]. split.
  - intros _. exists e. split; [done|]. split; [done|]. split; [done|]. cbn [status]. case_bool_decide as Ex; split; done || congruence.
  - intros _. cbn [status]. split; (case_bool_decide; split; try done); intros [_ [Hbad|Hbad]]; try congruence; by destruct (Hbad e eq_refl).
Qed.

(** Moving a claim to another key keeps its evidence.  A plan is only made when
    the target key has no claim; its commit is all or nothing and leaves the source's
    digest under the target, with its path rewritten as asked and every other claim
    as it was; the compensation of a commit, even after changes of other claims, puts back
    exactly what the two keys had and touches nothing else. *)
Theorem rekey_moves_claim source target rw from to s m plan s1 :
  reads s m -> names nfc source from -> names nfc target to -> plan_entry_rekey casefold source target rw s = (Ok plan, s1) ->
  reads s1 m /\ (source <> target -> m !! to = None)
  /\ exists g, normalize_rewrites casefold rw = Ok g
  /\ forall r s2, commit plan s1 = (r, s2) ->
     exists m2, reads s2 m2 /\ settled (troubles s) m (rekeyed g from to m) r m2
     /\ forall receipt s3 m3 b s4, r = Ok receipt -> changed receipt = true -> reads s3 m3 -> compensate receipt s3 = (Ok b, s4) ->
        exists m4, reads s4 m4 /\ m4 !! from = m !! from /\ m4 !! to = m !! to /\ forall k, k <> from -> k <> to -> m4 !! k = m3 !! k.
Proof.
  intros Hr Hs Ht Hplan. destruct (plan_shape _ _ _ _ _ _ _ _ _ Hr Hs Ht Hplan) as (Hr1 & Htr & Hto & g & Hg & Hshape). split; [done|]. split; [done|].
  exists g. split; [done|]. intros r s2 Hc. destruct Hshape as [[Hch Hsame]|(Hch & e & He & Hcase)].
  - unfold commit in Hc. rewrite Hch in Hc. cbn [negb] in Hc. apply pair_equal_spec in Hc as [<- <-]. exists m. split; [done|]. split; [cbn; by rewrite Hsame|].
    intros receipt s3 m3 b s4 E%Ok_inj Hcr. subst receipt. by rewrite Hch in Hcr.
  - destruct (plan_ready _ _ _ _ _ _ _ _ _ (reads_sound _ _ Hr) Hs Ht Hto Hg He Hcase) as (x & y & (Hb & Ha & Hx & Hy & Hsc & Hag & Hne & Hap) & Sx & Dx).
    destruct (commit_settled plan x y s1 m r s2 Hch Hb Ha Hx Hy Hsc Hag Hne Hr1 Hc) as (m2 & Hr2 & Hst & Hrec). rewrite Hap in Hst.
    exists m2. split; [done|]. split; [by eapply settled_mono|]. intros receipt s3 m3 b s4 Er _ Hr3 Hcomp. rewrite (Hrec _ Er) in Hcomp.
    destruct (compensate_spec plan x y s3 m3 _ s4 Hch Hb Ha Hx Hy Hr3 Hcomp) as (m4 & Hr4 & ->). exists (apply_changes x m3). split; [done|].
    assert (forall k, k = from \/ k = to -> apply_changes x m3 !! k = m !! k) as Hback.
    { intros k Hk. rewrite lookup_apply. destruct (Dx k Hk) as [v Hv]. rewrite Hv. by apply (Sx k v Hv). }
    split; [apply Hback; by left|]. split; [apply Hback; by right|]. intros k Hf Hk. rewrite lookup_apply. destruct (x !! k) as [v|] eqn:Ev; [|done].
    destruct (Sx k v Ev) as [[?|?] _]; done.
Qed.
End proofs.

(** ** Examples *)

Definition demo_text : pystr := u "artifact-key-v1:WyJlcGlzb2RlLXZpZGVvIiwzLCLDqTEiXQ".
Definition demo_key2 : ArtifactKey := mkKey ArtifactKind.EPISODE_VIDEO [CInt 4; CStr [49]%N].
Definition demo_text2 : pystr := u "artifact-key-v1:WyJlcGlzb2RlLXZpZGVvIiw0LCIxIl0".
Definition demo_memory : Memory := mkMemory {[demo_text := demo_entry]} [artifact_path demo_entry].

Lemma demo_names2 : names id demo_key2 demo_text2.
Proof. split; vm_compute; reflexivity. Qed.

Lemma demo_reads : @reads _ (memory_adapter id id) demo_memory {[demo_text := demo_entry]}.
Proof.
  split; [done|]. apply (sound_insert id id ∅ demo_key); [apply sound_empty|exact demo_names|exact demo_fit|].
  apply unique_spec. intros k1 k2 e1 e2 [[<- _]|[_ H]]%lookup_insert_Some; [|by rewrite lookup_empty in H].
  intros [[<- _]|[_ H]]%lookup_insert_Some; [done|by rewrite lookup_empty in H].
Qed.

(** A registration that is interrupted is undone. *)
Lemma claims_settled_witness :
  let s := demo_project None [Fine; Interrupted OSError] in
  let out := @register_entry_transactionally id _ (project_adapter id id) demo_key demo_entry s in
  out.1 = Raise OSError
  /\ exists m', @reads _ (project_adapter id id) out.2 m' /\ settled 1 ∅ (<[demo_text := demo_entry]> ∅) out.1 m'.
Proof.
  cbv zeta. split; [vm_compute; reflexivity|].
  assert (@reads _ (project_adapter id id) (demo_project None [Fine; Interrupted OSError]) ∅) as Hr0.
  { split; [reflexivity|]. repeat constructor; discriminate. }
  destruct (proj1 (@claims_settled id id _ (project_adapter id id) (project_laws id id) _ ∅ demo_key demo_text Hr0 demo_names)
    demo_entry _ _ (surjective_pairing _)) as (m' & Hr & Hs & _).
  exists m'. split; [exact Hr|exact Hs].
Defined.

(** A file with the expected claim is current. *)
Lemma currency_exact_witness :
  exists s', @compare_entry id _ (memory_adapter id id) demo_key (artifact_path demo_entry) (Some demo_entry) demo_memory
    = (Ok (mkComparison ArtifactStatus.CURRENT (artifact_path demo_entry) None), s')
  /\ @reads _ (memory_adapter id id) s' {[demo_text := demo_entry]}.
Proof.
  exists demo_memory. split; [vm_compute; reflexivity|].
  apply (@currency_exact id id _ (memory_adapter id id) (memory_laws id id) demo_memory {[demo_text := demo_entry]} demo_key demo_text
    (artifact_path demo_entry) (Some demo_entry) (mkComparison ArtifactStatus.CURRENT (artifact_path demo_entry) None) demo_memory demo_reads demo_names).
  vm_compute. reflexivity.
Defined.

(** A claim moves to another episode. *)
Lemma rekey_moves_claim_witness :
  let plan := mkPlan [(demo_key, Some demo_entry); (demo_key2, None)] [(demo_key, None); (demo_key2, Some demo_entry)] true in
  @plan_entry_rekey id _ (memory_adapter id id) demo_key demo_key2 [] demo_memory = (Ok plan, demo_memory)
  /\ exists m2, @reads _ (memory_adapter id id) (@commit _ (memory_adapter id id) plan demo_memory).2 m2
     /\ settled 0 {[demo_text := demo_entry]} (rekeyed ∅ demo_text demo_text2 {[demo_text := demo_entry]}) (@commit _ (memory_adapter id id) plan demo_memory).1 m2.
Proof.
  cbv zeta.
  assert (@plan_entry_rekey id _ (memory_adapter id id) demo_key demo_key2 [] demo_memory
    = (Ok (mkPlan [(demo_key, Some demo_entry); (demo_key2, None)] [(demo_key, None); (demo_key2, Some demo_entry)] true), demo_memory)) as Hplan
    by (vm_compute; reflexivity).
  split; [exact Hplan|].
  destruct (@rekey_moves_claim id id _ (memory_adapter id id) (memory_laws id id) demo_key demo_key2 [] demo_text demo_text2 demo_memory _ _ _
    demo_reads demo_names demo_names2 Hplan) as (_ & _ & g & Hg & Hcommit).
  apply Ok_inj in Hg as <-. destruct (Hcommit _ _ (surjective_pairing _)) as (m2 & Hr & Hs & _). exists m2. split; [exact Hr|exact Hs].
Defined.
