(* ===== verification/ScriptEditor.v ===== *)
(** * Editing a script

    [lib/script_editor.py] and the part of [lib/script_skeleton.py] it uses: which
    list of a script holds its items, and the four operations on it.  A script
    is its JSON object, [py_repr] is Python's [repr] of a value that is not a
    string.  The list that stands for a missing key is not part of the script. *)

From S2P Require Import Prelude Json Speech EpisodeReset.

(** ** Skeletons *)

Definition SKELETONS : list (string * string) :=
  [("segments", "segment_id"); ("scenes", "scene_id"); ("shots", "shot_id"); ("video_units", "unit_id")].

Definition has (k : string) (d : dict) : bool := bool_decide (is_Some (dict_get (u k) d)).

Definition mode_is (script : dict) (mode : string) : bool :=
  match dict_get (u "content_mode") script with Some (JStr s) => bool_decide (s = u mode) | _ => false end.

Definition resolve_script_kind (script : dict) : string :=
  if has "video_units" script && negb (has "segments" script || has "scenes" script || has "shots" script) then "video_units"
  else if mode_is script "ad" then "shots"
  else if mode_is script "drama" then "scenes"
  else if mode_is script "narration" then if negb (has "segments" script) && has "scenes" script then "scenes" else "segments"
  else if has "scenes" script && negb (has "segments" script) then "scenes"
  else if has "shots" script && negb (has "segments" script) then "shots"
  else "segments".

(** [SKELETONS[kind].id_field] *)
Definition id_field_of (kind : string) : result string := match aget kind SKELETONS with Some f => Ok f | None => Raise KeyError end.

Definition resolve_kind_items (script : dict) (kind : option string) : result (option json * string * string) :=
  let resolved := default (resolve_script_kind script) kind in
  let! id_field := id_field_of resolved in
  Ok (dict_get (u resolved) script, id_field, resolved).

Definition resolve_items (script : dict) (kind : option string) : result (list json * string * string) :=
  let! found := resolve_kind_items script kind in
  let '(raw, id_field, kind) := found in
  match raw with
  | None => Ok ([], id_field, kind)
  | Some (JArr items) => Ok (items, id_field, kind)
  | Some _ => Raise ScriptEditError
  end.

(** The script after its list was changed in place. *)
Definition with_items (kind : string) (items : list json) (script : dict) : dict :=
  if has kind script then dict_set (u kind) (JArr items) script else script.

Section editor.
Context (py_repr : json -> pystr).

(** [str(item.get(id_field))] *)
Definition id_text (id_field : string) (d : dict) : pystr := py_str py_repr (default JNull (dict_get (u id_field) d)).

Definition has_id (id_field : string) (id : pystr) (item : json) : bool :=
  match item with JObj d => bool_decide (id_text id_field d = id) | _ => false end.

Fixpoint index_from (p : json -> bool) (items : list json) (i : nat) : option nat :=
  match items with [] => None | x :: r => if p x then Some i else index_from p r (S i) end.

Definition _find_index (items : list json) (id_field : string) (item_id : pystr) : result nat :=
  match index_from (has_id id_field item_id) items 0 with Some i => Ok i | None => Raise ScriptEditError end.

Definition _existing_ids (items : list json) (id_field : string) : list pystr :=
  omap (fun item => match item with JObj d => Some (id_text id_field d) | _ => None end) items.

(** [s.split(c)] *)
Fixpoint split_char (c : N) (s word : pystr) : list pystr :=
  match s with
  | [] => [reverse word]
  | x :: r => if (x =? c)%N then reverse word :: split_char c r [] else split_char c r (x :: word)
  end.

Definition stem_of (base : pystr) : pystr := default [] (head (split_char 95 base [])).
Definition suffixed (stem : pystr) (k : nat) : pystr := stem ++ u "_" ++ dumps_nat (N.of_nat k).

(** [while f"{stem}_{k}" in taken: k += 1] *)
Fixpoint next_free (fuel : nat) (stem : pystr) (taken : list pystr) (k : nat) : option nat :=
  match fuel with
  | O => None
  | S f => if bool_decide (suffixed stem k ∈ taken) then next_free f stem taken (S k) else Some k
  end.

Definition _next_suffixed_id (base : pystr) (taken : list pystr) : pystr :=
  let stem := stem_of base in suffixed stem (default 1 (next_free (S (length taken)) stem taken 1)).

Definition PROTECTED : list pystr :=
  map u ["generated_assets"; "needs_replan"; "migration_requires_content_replan"; "end_frame_image"; "segment_id"; "scene_id"; "unit_id"; "shot_id"].

Fixpoint set_path (parts : list pystr) (value : json) (d : dict) : result dict :=
  match parts with
  | [] => Raise ScriptEditError
  | [leaf] => Ok (dict_set leaf value d)
  | p :: rest =>
      match dict_get p d with
      | Some (JObj d') => let! d'' := set_path rest value d' in Ok (dict_set p (JObj d'') d)
      | _ => Raise ScriptEditError
      end
  end.

Definition _set_nested (obj : dict) (field_path : pystr) (value : json) : result dict :=
  let parts := split_char 46 field_path [] in
  if existsb (fun p => bool_decide (p = [])) parts then Raise ScriptEditError
  else if bool_decide (default [] (head parts) ∈ PROTECTED) then Raise ScriptEditError
  else set_path parts value obj.

Definition object_at (items : list json) (i : nat) : dict := match items !! i with Some (JObj d) => d | _ => [] end.

Definition patch_field (script : dict) (item_id field_path : pystr) (value : json) : result dict :=
  let! found := resolve_items script None in
  let '(items, id_field, kind) := found in
  let! idx := _find_index items id_field item_id in
  let! d := _set_nested (object_at items idx) field_path value in
  Ok (with_items kind (<[idx := JObj d]> items) script).

Definition insert_at (i : nat) (x : json) (l : list json) : list json := take i l ++ x :: drop i l.
Definition remove_at (i : nat) (l : list json) : list json := take i l ++ drop (S i) l.

(** A new identity has no products. *)
Definition fresh_item (id_field : string) (id : pystr) (d : dict) : dict :=
  adel (u "end_frame_image") (dict_set (u "generated_assets") (JObj []) (dict_set (u id_field) (JStr id) d)).

Definition insert_segment (script : dict) (after_id : pystr) (new_item : json) : result dict :=
  match new_item with
  | JObj d =>
      let! found := resolve_items script None in
      let '(items, id_field, kind) := found in
      let! idx := _find_index items id_field after_id in
      let item := fresh_item id_field (_next_suffixed_id after_id (_existing_ids items id_field)) d in
      Ok (with_items kind (insert_at (S idx) (JObj item) items) script)
  | _ => Raise ScriptEditError
  end.

Definition remove_segment (script : dict) (item_id : pystr) : result dict :=
  let! found := resolve_items script None in
  let '(items, id_field, kind) := found in
  let! idx := _find_index items id_field item_id in
  Ok (with_items kind (remove_at idx items) script).

(** The first part goes on as the anchor. *)
Definition anchor_part (id_field : string) (item_id : pystr) (anchor d : dict) : dict :=
  let d := dict_set (u id_field) (JStr item_id) d in
  let d := dict_set (u "generated_assets") (match dict_get (u "generated_assets") anchor with Some (JObj a) => JObj a | _ => JObj [] end) d in
  match dict_get (u "end_frame_image") anchor with
  | None | Some JNull => adel (u "end_frame_image") d
  | Some v => dict_set (u "end_frame_image") v d
  end.

Fixpoint other_parts (id_field : string) (item_id : pystr) (parts : list dict) (taken : list pystr) : list json :=
  match parts with
  | [] => []
  | d :: rest =>
      let new_id := _next_suffixed_id item_id taken in
      JObj (fresh_item id_field new_id d) :: other_parts id_field item_id rest (new_id :: taken)
  end.

Fixpoint objects (l : list json) : option (list dict) :=
  match l with
  | [] => Some []
  | JObj d :: r => match objects r with Some ds => Some (d :: ds) | None => None end
  | _ => None
  end.

Definition split_segment (script : dict) (item_id : pystr) (parts : list json) : result dict :=
  if length parts <? 2 then Raise ScriptEditError
  else
    match objects parts with
    | Some (first :: rest) =>
        let! found := resolve_items script None in
        let '(items, id_field, kind) := found in
        let! idx := _find_index items id_field item_id in
        let taken := _existing_ids items id_field in
        let new_parts := JObj (anchor_part id_field item_id (object_at items idx) first) :: other_parts id_field item_id rest taken in
        Ok (with_items kind (take idx items ++ new_parts ++ drop (S idx) items) script)
    | _ => Raise ScriptEditError
    end.
End editor.

(** ** The list of a script *)

Lemma aget_skeleton kind f : aget kind SKELETONS = Some f ->
  (kind = "segments" /\ f = "segment_id" \/ kind = "scenes" /\ f = "scene_id") \/ (kind = "shots" /\ f = "shot_id" \/ kind = "video_units" /\ f = "unit_id").
Proof. intros H%aget_Some_elem. unfold SKELETONS in H. rewrite !elem_of_cons in H. destruct H as [H|[H|[H|[H|H]]]]; [..|by apply not_elem_of_nil in H]; injection H as -> ->; tauto. Qed.

Lemma has_set k k' v d : has k d = true -> has k' (dict_set (u k) v d) = has k' d.
Proof.
  intros Hk. unfold has in *. destruct (decide (k = k')) as [<-|Hne]; [by rewrite dict_get_set_eq|]. rewrite dict_get_set_ne; [done|]. by intros ?%u_inj.
Qed.

Lemma resolve_kind_with k items script : has k script = true -> k <> "content_mode" ->
  resolve_script_kind (dict_set (u k) (JArr items) script) = resolve_script_kind script.
Proof.
  intros Hk Hne. unfold resolve_script_kind. rewrite !has_set by done.
  assert (forall m, mode_is (dict_set (u k) (JArr items) script) m = mode_is script m) as Hm.
  { intros m. unfold mode_is. rewrite dict_get_set_ne; [done|]. by intros ?%u_inj. }
  by rewrite !Hm.
Qed.

Lemma resolve_items_Ok script items f k : resolve_items script None = Ok (items, f, k) ->
  k = resolve_script_kind script /\ aget k SKELETONS = Some f
  /\ (dict_get (u k) script = Some (JArr items) \/ dict_get (u k) script = None /\ items = []).
Proof.
  unfold resolve_items, resolve_kind_items, id_field_of. cbn [default]. destruct (aget (resolve_script_kind script) SKELETONS) as [f'|] eqn:Ef; [|done].
  cbn [bind]. destruct (dict_get (u (resolve_script_kind script)) script) as [[]|] eqn:Ed; try discriminate; intros [[<- <-]%pair_equal_spec <-]%Ok_inj%pair_equal_spec; tauto.
Qed.

(** The script shows the list it was given. *)
Lemma resolve_with_items script items f k items' : resolve_items script None = Ok (items, f, k) ->
  resolve_items (with_items k items' script) None = Ok (if has k script then items' else [], f, k).
Proof.
  intros Hr. pose proof Hr as (Hk & Hf & Hd)%resolve_items_Ok. unfold with_items. destruct (has k script) eqn:Hh.
  - unfold resolve_items, resolve_kind_items. cbn [default]. rewrite resolve_kind_with; [|done|intros ->; apply aget_skeleton in Hf; naive_solver].
    rewrite <- Hk. unfold id_field_of. rewrite Hf. cbn [bind]. by rewrite dict_get_set_eq.
  - rewrite Hr. destruct Hd as [Hd|[_ ->]]; [|done]. unfold has in Hh. by rewrite Hd in Hh.
Qed.

Lemma with_items_other k items script key : key <> u k -> dict_get key (with_items k items script) = dict_get key script.
Proof. intros Hne. unfold with_items. case_goal; [|done]. by apply dict_get_set_ne. Qed.

Lemma sub_take {A} i (l : list A) : take i l ⊆ l.
Proof. rewrite <- (take_drop i l) at 2. set_solver. Qed.
Lemma sub_drop {A} i (l : list A) : drop i l ⊆ l.
Proof. rewrite <- (take_drop i l) at 2. set_solver. Qed.
Lemma NoDup_put {A} (x : A) a b : NoDup (a ++ x :: b) <-> x ∉ a ++ b /\ NoDup (a ++ b).
Proof. by rewrite <- Permutation_middle, NoDup_cons. Qed.

Section found.
Context (p : json -> bool).

Lemma index_from_Some l i j : index_from p l i = Some j -> exists x, i <= j /\ l !! (j - i) = Some x /\ p x = true /\ forall n y, n < j - i -> l !! n = Some y -> p y = false.
Proof.
  revert i. induction l as [|x l IH]; intros i H; [done|]. cbn [index_from] in H. destruct (p x) eqn:Hp.
  - injection H as <-. exists x. rewrite Nat.sub_diag. split; [lia|]. split; [done|]. split; [done|]. intros n y Hn. lia.
  - destruct (IH _ H) as (y & Hle & Hl & Hy & Hb). exists y. split; [lia|]. replace (j - i) with (S (j - S i)) by lia. split; [done|]. split; [done|].
    intros [|n] z Hn Hz; [by injection Hz as <-|]. apply (Hb n); [lia|done].
Qed.

Lemma index_from_None l i : index_from p l i = None -> forall x, x ∈ l -> p x = false.
Proof.
  revert i. induction l as [|x l IH]; intros i H y Hy; [by apply not_elem_of_nil in Hy|]. cbn [index_from] in H. destruct (p x) eqn:Hp; [done|].
  apply elem_of_cons in Hy as [->|Hy]; [done|by eapply IH].
Qed.
End found.

Section ids.
Context (py_repr : json -> pystr) (f : string).
Abbreviation ids l := (_existing_ids py_repr l f).

Lemma find_index_Ok items id i : _find_index py_repr items f id = Ok i -> exists d, items !! i = Some (JObj d) /\ id_text py_repr f d = id.
Proof.
  unfold _find_index. destruct (index_from _ items 0) as [j|] eqn:E; [|done]. intros [= <-]. apply index_from_Some in E as (x & _ & Hl & Hp & _).
  rewrite Nat.sub_0_r in Hl. unfold has_id in Hp. destruct x as [| | | | | |d]; try done. exists d. split; [done|]. by apply bool_decide_eq_true in Hp.
Qed.

Lemma elem_of_ids items id : id ∈ ids items <-> exists d, JObj d ∈ items /\ id_text py_repr f d = id.
Proof.
  unfold _existing_ids. rewrite list_elem_of_omap. split.
  - intros (x & Hx & E). destruct x as [| | | | | |d]; try done. injection E as <-. by exists d.
  - intros (d & Hd & <-). by exists (JObj d).
Qed.

Lemma find_index_None items id e : _find_index py_repr items f id = Raise e -> id ∉ ids items.
Proof.
  unfold _find_index. destruct (index_from _ items 0) as [j|] eqn:E; [done|]. intros _ (d & Hd & Hid)%elem_of_ids.
  pose proof (index_from_None _ _ _ E _ Hd) as Hp. unfold has_id in Hp. by apply bool_decide_eq_false in Hp.
Qed.

Lemma ids_app l l' : ids (l ++ l') = ids l ++ ids l'.
Proof. apply omap_app. Qed.

(** A list around one of its objects. *)
Lemma split_at items i d : items !! i = Some (JObj d) -> items = take i items ++ JObj d :: drop (S i) items /\ ids items = ids (take i items) ++ id_text py_repr f d :: ids (drop (S i) items).
Proof. intros H. pose proof (take_drop_middle _ _ _ H) as E. split; [by rewrite E|]. rewrite <- E at 1. by rewrite ids_app. Qed.

Lemma ids_insert items i d d' : items !! i = Some (JObj d) -> id_text py_repr f d' = id_text py_repr f d -> ids (<[i := JObj d']> items) = ids items.
Proof.
  intros Hi Hid. destruct (split_at _ _ _ Hi) as [_ ->]. rewrite insert_take_drop by (by apply lookup_lt_Some in Hi). rewrite ids_app. cbn. by rewrite <- Hid.
Qed.
End ids.

(** ** New ids *)

Lemma suffixed_inj stem k k' : suffixed stem k = suffixed stem k' -> k = k'.
Proof. unfold suffixed. intros H%app_inv_head%app_inv_head. apply dumps_nat_inj in H. lia. Qed.

Lemma next_free_None fuel stem taken k : next_free fuel stem taken k = None -> forall i, k <= i < k + fuel -> suffixed stem i ∈ taken.
Proof.
  revert k. induction fuel as [|fuel IH]; intros k H i Hi; [lia|]. cbn [next_free] in H. case_bool_decide as Hk; [|done].
  destruct (decide (i = k)) as [->|]; [done|]. apply (IH (S k)); [done|lia].
Qed.

Lemma next_free_Some fuel stem taken k i : next_free fuel stem taken k = Some i -> suffixed stem i ∉ taken.
Proof.
  revert k. induction fuel as [|fuel IH]; intros k H; [done|]. cbn [next_free] in H. case_bool_decide as Hk; [by eapply IH|]. by injection H as <-.
Qed.

(** The loop ends: one of as many numbers as there are ids, and one more, is free. *)
Lemma next_free_ends stem taken k : exists i, next_free (S (length taken)) stem taken k = Some i.
Proof.
  destruct (next_free _ _ _ _) as [i|] eqn:E; [by exists i|]. pose proof (next_free_None _ _ _ _ E) as Hall.
  assert (length (map (suffixed stem) (seq k (S (length taken)))) <= length taken) as Hlen; [|rewrite length_map, length_seq in Hlen; lia].
  apply NoDup_incl_length.
  - apply NoDup_ListNoDup, NoDup_fmap_2; [|apply NoDup_seq]. intros a b. apply suffixed_inj.
  - intros x (i & <- & Hi%in_seq)%in_map_iff. apply list_elem_of_In, Hall. lia.
Qed.

Lemma next_suffixed_fresh base taken : _next_suffixed_id base taken ∉ taken.
Proof. unfold _next_suffixed_id. destruct (next_free_ends (stem_of base) taken 1) as [i Hi]. rewrite Hi. cbn [default]. by eapply next_free_Some. Qed.

(** ** What belongs to an item *)

(** The products of an item: its generated files and its end frame. *)
Definition products (d : dict) : dict * option json :=
  (match dict_get (u "generated_assets") d with Some (JObj a) => a | _ => [] end,
   match dict_get (u "end_frame_image") d with None | Some JNull => None | Some v => Some v end).

Lemma set_path_other parts value d d' k : set_path parts value d = Ok d' -> head parts <> Some k -> dict_get k d' = dict_get k d.
Proof.
  destruct parts as [|p [|q rest]]; [done|..]; cbn [set_path head]; intros H Hk.
  - apply Ok_inj in H as <-. apply dict_get_set_ne. congruence.
  - destruct (dict_get p d) as [[| | | | | |d0]|]; try discriminate H. apply bind_Ok in H as (d1 & _ & H). apply Ok_inj in H as <-. apply dict_get_set_ne. congruence.
Qed.

Lemma set_nested_protected obj path value d k : _set_nested obj path value = Ok d -> k ∈ PROTECTED -> dict_get k d = dict_get k obj.
Proof.
  unfold _set_nested. case_goal; [done|]. destruct (bool_decide (default [] (head (split_char 46 path [])) ∈ PROTECTED)) eqn:Hp; [done|]. intros H Hk.
  eapply set_path_other; [exact H|]. intros E. rewrite E in Hp. cbn [default id] in Hp. by apply bool_decide_eq_false in Hp.
Qed.

Lemma skeleton_protected kind f : aget kind SKELETONS = Some f -> u f ∈ PROTECTED.
Proof. intros [[[_ ->]|[_ ->]]|[[_ ->]|[_ ->]]]%aget_skeleton; apply (bool_decide_unpack _); vm_compute; exact I. Qed.

Lemma skeleton_ids kind f : aget kind SKELETONS = Some f -> f <> "generated_assets" /\ f <> "end_frame_image" /\ f <> "needs_replan".
Proof. by intros [[[_ ->]|[_ ->]]|[[_ ->]|[_ ->]]]%aget_skeleton. Qed.

Lemma products_same d d' : dict_get (u "generated_assets") d' = dict_get (u "generated_assets") d -> dict_get (u "end_frame_image") d' = dict_get (u "end_frame_image") d ->
  products d' = products d.
Proof. unfold products. by intros -> ->. Qed.

Lemma set_nested_keeps py_repr kind f obj path value d : aget kind SKELETONS = Some f -> _set_nested obj path value = Ok d ->
  id_text py_repr f d = id_text py_repr f obj /\ products d = products obj.
Proof.
  intros Hf H. assert (forall k, k ∈ PROTECTED -> dict_get k d = dict_get k obj) as Hk by (intros k; by eapply set_nested_protected). split.
  - unfold id_text. by rewrite (Hk _ (skeleton_protected _ _ Hf)).
  - apply products_same; apply Hk; apply (bool_decide_unpack _); vm_compute; exact I.
Qed.

Lemma fresh_item_facts py_repr kind f id d : aget kind SKELETONS = Some f -> id_text py_repr f (fresh_item f id d) = id /\ products (fresh_item f id d) = ([], None).
Proof.
  intros (Hg & He & _)%skeleton_ids. unfold fresh_item. split.
  - unfold id_text. rewrite dict_get_adel by (by intros ?%u_inj). rewrite dict_get_set_ne by (by intros ?%u_inj). by rewrite dict_get_set_eq.
  - unfold products. rewrite dict_get_adel_eq, dict_get_adel by (by intros ?%u_inj). by rewrite dict_get_set_eq.
Qed.

Lemma anchor_part_facts py_repr kind f id anchor d : aget kind SKELETONS = Some f ->
  id_text py_repr f (anchor_part f id anchor d) = id /\ products (anchor_part f id anchor d) = products anchor.
Proof.
  intros (Hg & He & _)%skeleton_ids. unfold anchor_part. cbv zeta. set (d1 := dict_set (u "generated_assets") _ _).
  assert (id_text py_repr f d1 = id) as Hid.
  { unfold id_text, d1. rewrite dict_get_set_ne by (by intros ?%u_inj). by rewrite dict_get_set_eq. }
  assert (dict_get (u "generated_assets") d1 = Some (JObj (products anchor).1)) as Ha.
  { unfold d1. rewrite dict_get_set_eq. unfold products. cbn [fst]. by destruct (dict_get (u "generated_assets") anchor) as [[]|]. }
  assert (forall w, id_text py_repr f (dict_set (u "end_frame_image") w d1) = id /\ products (dict_set (u "end_frame_image") w d1) = ((products anchor).1, match w with JNull => None | v => Some v end)) as Hset.
  { intros w. unfold id_text, products. rewrite !dict_get_set_ne by (by intros ?%u_inj). rewrite dict_get_set_eq, Ha. split; [exact Hid|]. by destruct w. }
  assert (id_text py_repr f (adel (u "end_frame_image") d1) = id /\ products (adel (u "end_frame_image") d1) = ((products anchor).1, None)) as Hdel.
  { unfold id_text, products. rewrite dict_get_adel_eq, !dict_get_adel by (by intros ?%u_inj). rewrite Ha. split; [exact Hid|done]. }
  unfold products at 2. destruct (dict_get (u "end_frame_image") anchor) as [[]|]; try exact Hdel; apply Hset.
Qed.

(** ** The operations *)

Inductive edit :=
| EPatch (id path : pystr) (value : json)
| EInsert (after : pystr) (item : json)
| ERemove (id : pystr)
| ESplit (id : pystr) (parts : list json).

Section edits.
Context (py_repr : json -> pystr).

Definition edit_script (e : edit) (script : dict) : result dict :=
  match e with
  | EPatch id path value => patch_field py_repr script id path value
  | EInsert after item => insert_segment py_repr script after item
  | ERemove id => remove_segment py_repr script id
  | ESplit id parts => split_segment py_repr script id parts
  end.

(** An item of the new list is one of the old or has a new id and no products. *)
Definition owned (f : string) (old : list json) (x : json) : Prop :=
  match x with
  | JObj d =>
      (exists d0, JObj d0 ∈ old /\ id_text py_repr f d0 = id_text py_repr f d /\ products d0 = products d)
      \/ (id_text py_repr f d ∉ _existing_ids py_repr old f /\ products d = ([], None))
  | _ => x ∈ old
  end.

Lemma owned_old f old x : x ∈ old -> owned f old x.
Proof. intros Hx. destruct x; try done. left. by eexists. Qed.

Lemma Forall_owned_old f old l : l ⊆ old -> Forall (owned f old) l.
Proof. intros Hs. apply Forall_forall. intros x Hx. apply owned_old. by apply Hs. Qed.

Lemma other_parts_facts kind f id parts taken old : aget kind SKELETONS = Some f -> _existing_ids py_repr old f ⊆ taken ->
  Forall (owned f old) (other_parts f id parts taken) /\ NoDup (_existing_ids py_repr (other_parts f id parts taken) f)
  /\ (forall i, i ∈ _existing_ids py_repr (other_parts f id parts taken) f -> i ∉ taken).
Proof.
  intros Hf. revert taken. induction parts as [|d parts IH]; intros taken Hs; cbn [other_parts]; [split; [constructor|split; [constructor|]]; by intros i ?%not_elem_of_nil|].
  set (new := _next_suffixed_id id taken). destruct (fresh_item_facts py_repr kind f new d Hf) as [Hid Hp].
  assert (new ∉ taken) as Hnew by apply next_suffixed_fresh. destruct (IH (new :: taken)) as (Ho & Hnd & Hfresh); [set_solver|].
  assert (_existing_ids py_repr (JObj (fresh_item f new d) :: other_parts f id parts (new :: taken)) f
    = new :: _existing_ids py_repr (other_parts f id parts (new :: taken)) f) as -> by (unfold _existing_ids; cbn; by rewrite Hid).
  split; [constructor; [right; rewrite Hid, Hp; split; [set_solver|done]|done]|]. split.
  - apply NoDup_cons. split; [|done]. intros Hin. apply Hfresh in Hin. set_solver.
  - intros i [->|Hi]%elem_of_cons; [done|]. apply Hfresh in Hi. set_solver.
Qed.

Lemma edit_items e script script' items f k :
  resolve_items script None = Ok (items, f, k) -> edit_script e script = Ok script' -> NoDup (_existing_ids py_repr items f) ->
  exists items', script' = with_items k items' script /\ Forall (owned f items) items' /\ NoDup (_existing_ids py_repr items' f).
Proof.
  intros Hr He Hnd. pose proof Hr as (_ & Hf & _)%resolve_items_Ok. destruct e as [id path value|after item|id|id parts]; cbn [edit_script] in He.
  - unfold patch_field in He. rewrite Hr in He. cbn [bind] in He. apply bind_Ok in He as (i & Hi & He). apply bind_Ok in He as (d & Hd & He). apply Ok_inj in He as <-.
    apply find_index_Ok in Hi as (d0 & Hl & Hid). unfold object_at in Hd. rewrite Hl in Hd. destruct (set_nested_keeps py_repr _ _ _ _ _ _ Hf Hd) as [Hid' Hp].
    eexists. split; [reflexivity|]. split; [|by rewrite (ids_insert _ _ _ _ d0)].
    apply Forall_insert; [by apply Forall_owned_old|]. left. exists d0. split; [by eapply list_elem_of_lookup_2|done].
  - unfold insert_segment in He. destruct item as [| | | | | |d]; try discriminate He. rewrite Hr in He. cbn [bind] in He. apply bind_Ok in He as (i & Hi & He). apply Ok_inj in He as <-.
    set (new := _next_suffixed_id _ _). assert (new ∉ _existing_ids py_repr items f) as Hnew by apply next_suffixed_fresh.
    destruct (fresh_item_facts py_repr k f new d Hf) as [Hid Hp]. eexists. split; [reflexivity|]. unfold insert_at. split.
    + rewrite Forall_app, Forall_cons. split; [apply Forall_owned_old, sub_take|]. split; [right; by rewrite Hid, Hp|apply Forall_owned_old, sub_drop].
    + rewrite ids_app. cbn. rewrite Hid. change (omap _ (drop (S i) items)) with (_existing_ids py_repr (drop (S i) items) f).
      rewrite <- (take_drop (S i) items), ids_app in Hnd, Hnew. by apply NoDup_put.
  - unfold remove_segment in He. rewrite Hr in He. cbn [bind] in He. apply bind_Ok in He as (i & Hi & He). apply Ok_inj in He as <-.
    apply find_index_Ok in Hi as (d0 & Hl & Hid). eexists. split; [reflexivity|]. unfold remove_at. split.
    + rewrite Forall_app. split; apply Forall_owned_old; [apply sub_take|apply sub_drop].
    + destruct (split_at py_repr f _ _ _ Hl) as [_ E]. rewrite E in Hnd. rewrite ids_app. by apply NoDup_put in Hnd as [_ Hnd].
  - unfold split_segment in He. case_hyp; [discriminate He|]. destruct (objects parts) as [[|first rest]|]; try discriminate He.
    rewrite Hr in He. cbn [bind] in He. apply bind_Ok in He as (i & Hi & He). apply Ok_inj in He as <-. apply find_index_Ok in Hi as (d0 & Hl & Hid).
    unfold object_at. rewrite Hl. destruct (anchor_part_facts py_repr k f id d0 first Hf) as [Ha Hp]. destruct (split_at py_repr f _ _ _ Hl) as [_ E].
    destruct (other_parts_facts k f id rest (_existing_ids py_repr items f) items Hf) as (Ho & Hnd' & Hfresh); [done|].
    eexists. split; [reflexivity|]. split.
    + rewrite Forall_app. split; [apply Forall_owned_old, sub_take|]. cbn [app]. constructor; [left; exists d0; rewrite Ha, Hp; split; [by eapply list_elem_of_lookup_2|done]|].
      rewrite Forall_app. split; [done|apply Forall_owned_old, sub_drop].
    + rewrite ids_app. cbn [app]. assert (forall d l, _existing_ids py_repr (JObj d :: l) f = id_text py_repr f d :: _existing_ids py_repr l f) as -> by done.
      rewrite Ha, ids_app. set (new := _existing_ids py_repr (other_parts f id rest (_existing_ids py_repr items f)) f) in *. rewrite E, Hid in Hnd.
      assert (NoDup (new ++ _existing_ids py_repr (take i items) f ++ id :: _existing_ids py_repr (drop (S i) items) f)) as Hall.
      { apply NoDup_app. split; [done|]. split; [|done]. intros x Hx Hin. apply (Hfresh x Hx). by rewrite E, Hid. }
      eapply NoDup_Permutation_proper; [|exact Hall]. rewrite (Permutation_app_swap_app new). apply Permutation_app_head, Permutation_middle.
Qed.

Definition target_of (e : edit) : option pystr := match e with EPatch id _ _ | ERemove id | ESplit id _ => Some id | EInsert _ _ => None end.

(** An edit finds its anchor, so the list is there. *)
Lemma edit_listed e script script' items f k : resolve_items script None = Ok (items, f, k) -> edit_script e script = Ok script' -> has k script = true.
Proof.
  intros Hr He. assert (exists id i, _find_index py_repr items f id = Ok i) as (id & i & Hi).
  { destruct e as [id path value|after item|id|id parts]; cbn [edit_script] in He; unfold patch_field, insert_segment, remove_segment, split_segment in He.
    - rewrite Hr in He. cbn [bind] in He. apply bind_Ok in He as (i & Hi & _). by exists id, i.
    - destruct item; try discriminate He. rewrite Hr in He. cbn [bind] in He. apply bind_Ok in He as (i & Hi & _). by exists after, i.
    - rewrite Hr in He. cbn [bind] in He. apply bind_Ok in He as (i & Hi & _). by exists id, i.
    - case_hyp; [discriminate He|]. destruct (objects parts) as [[|first rest]|]; try discriminate He. rewrite Hr in He. cbn [bind] in He.
      apply bind_Ok in He as (i & Hi & _). by exists id, i. }
  apply find_index_Ok in Hi as (d & Hd & _). apply resolve_items_Ok in Hr as (_ & _ & [Hg|[_ ->]]); [|done]. unfold has. by rewrite Hg.
Qed.

(** The other items are kept as they are. *)
Lemma edit_keeps e script script' items f k d : resolve_items script None = Ok (items, f, k) -> edit_script e script = Ok script' ->
  JObj d ∈ items -> target_of e <> Some (id_text py_repr f d) -> exists items', script' = with_items k items' script /\ JObj d ∈ items'.
Proof.
  intros Hr He Hd Ht. pose proof (list_elem_of_lookup_1 _ _ Hd) as [j Hj].
  assert (forall i d0, items !! i = Some (JObj d0) -> id_text py_repr f d0 <> id_text py_repr f d -> JObj d ∈ take i items \/ JObj d ∈ drop (S i) items) as Hside.
  { intros i d0 Hi Hne. rewrite <- (take_drop_middle _ _ _ Hi), elem_of_app, elem_of_cons in Hd. destruct Hd as [?|[E|?]]; [by left| |by right]. congruence. }
  destruct e as [id path value|after item|id|id parts]; cbn [edit_script target_of] in *; unfold patch_field, insert_segment, remove_segment, split_segment in He.
  - rewrite Hr in He. cbn [bind] in He. apply bind_Ok in He as (i & Hi & He). apply bind_Ok in He as (d1 & _ & He). apply Ok_inj in He as <-.
    apply find_index_Ok in Hi as (d0 & Hl & <-). eexists. split; [reflexivity|]. apply (list_elem_of_lookup_2 _ j). rewrite list_lookup_insert_ne; [done|].
    intros ->. congruence.
  - destruct item; try discriminate He. rewrite Hr in He. cbn [bind] in He. apply bind_Ok in He as (i & Hi & He). apply Ok_inj in He as <-.
    eexists. split; [reflexivity|]. unfold insert_at. rewrite elem_of_app, elem_of_cons. rewrite <- (take_drop (S i) items), elem_of_app in Hd. tauto.
  - rewrite Hr in He. cbn [bind] in He. apply bind_Ok in He as (i & Hi & He). apply Ok_inj in He as <-. apply find_index_Ok in Hi as (d0 & Hl & <-).
    eexists. split; [reflexivity|]. unfold remove_at. rewrite elem_of_app. apply (Hside i d0 Hl). congruence.
  - case_hyp; [discriminate He|]. destruct (objects parts) as [[|first rest]|]; try discriminate He. rewrite Hr in He. cbn [bind] in He.
    apply bind_Ok in He as (i & Hi & He). apply Ok_inj in He as <-. apply find_index_Ok in Hi as (d0 & Hl & <-). eexists. split; [reflexivity|].
    rewrite !elem_of_app. destruct (Hside i d0 Hl); [congruence|by left|by right; right].
Qed.

Lemma with_items_inj k l l' script : has k script = true -> with_items k l script = with_items k l' script -> l = l'.
Proof. unfold with_items. intros -> E. apply (f_equal (dict_get (u k))) in E. rewrite !dict_get_set_eq in E. by injection E. Qed.

(** C34: An edit of a script touches its target and nothing else.  Whatever field is set,
    and whatever is inserted, removed or split, the script keeps its other fields and
    its kind; ids stay unique; every item other than the target stays as it was; and no
    item gains products it did not have: an item of the result has the products of
    the old item with its id, or an id no old item had and no products. *)
Theorem edit_sound e script script' items f k :
  resolve_items script None = Ok (items, f, k) -> NoDup (_existing_ids py_repr items f) -> edit_script e script = Ok script' ->
  exists items', resolve_items script' None = Ok (items', f, k) /\ NoDup (_existing_ids py_repr items' f) /\ Forall (owned f items) items'
  /\ (forall d, JObj d ∈ items -> target_of e <> Some (id_text py_repr f d) -> JObj d ∈ items')
  /\ (forall key, key <> u k -> dict_get key script' = dict_get key script).
Proof.
  intros Hr Hnd He. destruct (edit_items _ _ _ _ _ _ Hr He Hnd) as (items' & -> & Ho & Hnd'). pose proof (edit_listed _ _ _ _ _ _ Hr He) as Hh.
  exists items'. split; [by rewrite (resolve_with_items _ _ _ _ _ Hr), Hh|]. split; [done|]. split; [done|]. split.
  - intros d Hd Ht. destruct (edit_keeps _ _ _ _ _ _ _ Hr He Hd Ht) as (l & E & Hl). by apply with_items_inj in E as ->.
  - intros key Hk. by apply with_items_other.
Qed.
End edits.

(** ** Examples *)

Definition sample_item (id : string) (assets : dict) : json := JObj [(u "segment_id", JStr (u id)); (u "generated_assets", JObj assets)].
Definition sample_script : dict := [(u "content_mode", JStr (u "narration")); (u "segments", JArr [sample_item "E1S01" [(u "video", JStr (u "a.mp4"))]; sample_item "E1S01_1" []])].

(** The part split off gets the next free id and no products. *)
Lemma edit_sound_witness :
  exists script', edit_script (fun _ => []) (ESplit (u "E1S01") [JObj []; sample_item "X" [(u "video", JStr (u "a.mp4"))]]) sample_script = Ok script'
  /\ exists items', resolve_items script' None = Ok (items', "segment_id", "segments") /\ NoDup (_existing_ids (fun _ => []) items' "segment_id").
Proof.
  eexists. split; [vm_compute; reflexivity|].
  edestruct (edit_sound (fun _ => []) (ESplit (u "E1S01") [JObj []; sample_item "X" [(u "video", JStr (u "a.mp4"))]]) sample_script) as (items' & Hr & Hnd & _);
    [reflexivity|apply (bool_decide_unpack _); vm_compute; exact I|vm_compute; reflexivity|].
  exists items'. split; [exact Hr|exact Hnd].
Defined.
