(* ===== verification/ScriptBatch.v ===== *)
(** * Batches of script edits

    [lib/script_batch_edit.py] with [locked_episode_script] of
    [lib/project_manager.py]: an ordered command on a stored script is applied to a
    candidate, the candidate is checked as a whole, and script, project and
    manifest are committed together.  The validators, the preparation of the manifest's
    commit and the settling of the project file are arguments; so is the place that a
    validation message names.  The places of a problem
    within the command are not modelled. *)

From S2P Require Import Prelude Json ShotParser Speech EpisodeLedger DurationMigration ScriptReview ScriptEditor.

(** ** Commands and results *)

Inductive operation :=
| UpdateOperation (id : pystr) (fields : list (pystr * json))
| InsertAfterOperation (after_id : option pystr) (item : dict)
| MoveAfterOperation (id : pystr) (after_id : option pystr)
| RemoveOperation (id : pystr).

Record ScriptBatchEditCommand := mkCommand {
  c_script : option pystr;
  c_episode : option Z;
  c_expected_script_file : option pystr;
  c_expected_revision : pystr;
  c_operations : list operation
}.

Record ScriptBatchEditProblem := mkEditProblem {
  ep_code : string;
  ep_operation_index : option nat;
  ep_unit_id : option pystr;
  ep_reason : pystr;
  ep_next_action : string
}.

Record ScriptBatchEditResult := mkEditResult {
  er_success : bool;
  er_script : pystr;
  er_episode : option Z;
  er_before_revision : pystr;
  er_revision : pystr;
  er_affected_ids : list pystr;
  er_problems : list ScriptBatchEditProblem
}.

Definition _failure (script : pystr) (episode : option Z) (revision : pystr) (code : string) (reason : pystr) (next_action : string)
    (operation_index : option nat) (unit_id : option pystr) : ScriptBatchEditResult :=
  mkEditResult false script episode revision revision [] [mkEditProblem code operation_index unit_id reason next_action].

(** [_operation_id] *)
Definition _operation_id (op : operation) : option pystr :=
  match op with
  | InsertAfterOperation _ item =>
      head (omap (fun f => match dict_get (u f) item with Some (JStr s) => Some s | _ => None end) ["segment_id"; "scene_id"; "shot_id"; "unit_id"])
  | UpdateOperation id _ | MoveAfterOperation id _ | RemoveOperation id => Some id
  end.

Section batch.
Context (nfc : pystr -> pystr) (is_decimal : N -> bool).
Context (float_true : pystr -> bool) (float_eq : json -> json -> bool) (py_repr : json -> pystr).
Abbreviation admit_script_unit := (admit_script_unit nfc).

(** ** Operations *)

Fixpoint admission_in (id_field kind : string) (item_id : pystr) (items : list json) : result (option SpeechPreparation) :=
  match items with
  | [] => Ok None
  | JObj d :: rest =>
      if bool_decide (id_text py_repr id_field d = item_id) then let! p := admit_script_unit kind d false in Ok (Some p)
      else admission_in id_field kind item_id rest
  | _ :: rest => admission_in id_field kind item_id rest
  end.

Definition _admission_for (script : dict) (item_id : pystr) : result (option SpeechPreparation) :=
  let! found := resolve_items script None in
  let '(items, id_field, kind) := found in
  admission_in id_field kind item_id items.

Definition _rederive_video_unit_references (item project : dict) : result dict :=
  match dict_get (u "shots") item with
  | Some (JArr _) =>
      let! l := rederive_unit_references nfc is_decimal float_true py_repr [JObj item] project in
      match l with [JObj d] => Ok d | _ => Ok item end
  | _ => Ok item
  end.

Fixpoint patch_fields (script : dict) (id : pystr) (fields : list (pystr * json)) : result dict :=
  match fields with
  | [] => Ok script
  | (field, value) :: rest => let! script := patch_field py_repr script id field value in patch_fields script id rest
  end.

(** What an update does to the item besides setting its fields. *)
Definition settle_update (kind : string) (roots : list pystr) (before item project : dict) : result dict :=
  if bool_decide (kind = "video_units") then
    let body_changed := bool_decide (u "shots" ∈ roots) && negb (member_eq float_eq "shots" item before) in
    let! item := if body_changed && negb (bool_decide (u "references" ∈ roots)) then _rederive_video_unit_references item project else Ok item in
    let references_changed := bool_decide (u "references" ∈ roots) && negb (member_eq float_eq "references" item before) in
    if bool_decide (u "shots" ∈ roots) || bool_decide (u "references" ∈ roots) || bool_decide (u "duration_seconds" ∈ roots)
    then refresh_video_unit_replan_state nfc float_true item (body_changed || references_changed || bool_decide (u "duration_seconds" ∈ roots)) body_changed
    else Ok item
  else
    let! before_content := admit_script_unit kind before true in
    let! after_content := admit_script_unit kind item true in
    Ok (if negb (bool_decide (after_content = before_content)) && allowed after_content then adel (u "needs_replan") item else item).

Definition roots_of (fields : list (pystr * json)) : list pystr := map (fun fv => default [] (head (split_char 46 fv.1 []))) fields.

Definition insert_position (items : list json) (id_field : string) (after_id : option pystr) : result nat :=
  match after_id with None => Ok 0 | Some a => let! i := _find_index py_repr items id_field a in Ok (S i) end.

(** The products of an inserted item: those of the item removed under its id. *)
Definition restore_products (removed : option dict) (item : dict) : dict :=
  match removed with
  | None => adel (u "end_frame_image") (dict_set (u "generated_assets") (JObj []) item)
  | Some r =>
      let item := dict_set (u "generated_assets") (match dict_get (u "generated_assets") r with Some (JObj a) => JObj a | _ => JObj [] end) item in
      match dict_get (u "end_frame_image") r with
      | None | Some JNull => adel (u "end_frame_image") item
      | Some v => dict_set (u "end_frame_image") v item
      end
  end.

Record applied := mkApplied {
  a_id : pystr;
  a_before : option SpeechPreparation;
  a_after : option SpeechPreparation;
  a_script : dict;
  a_removed : list (pystr * dict)
}.

Definition _apply_operation (script : dict) (op : operation) (project : dict) (removed : list (pystr * dict)) : result applied :=
  match op with
  | UpdateOperation id fields =>
      let! before := _admission_for script id in
      let! found := resolve_items script None in
      let '(items, id_field, kind) := found in
      let! index := _find_index py_repr items id_field id in
      let item := object_at items index in
      let! _ := admit_script_unit kind item true in
      let! patched := patch_fields script id fields in
      let! found' := resolve_items patched None in
      let items' := found'.1.1 in
      let! item' := settle_update kind (roots_of fields) item (object_at items' index) project in
      let script' := with_items kind (<[index := JObj item']> items') patched in
      let! after := _admission_for script' id in
      Ok (mkApplied id before after script' removed)
  | InsertAfterOperation after_id new_item =>
      let! found := resolve_items script None in
      let '(items, id_field, kind) := found in
      match dict_get (u id_field) new_item with
      | Some (JStr (c :: id)) =>
          let item_id := c :: id in
          if existsb (has_id py_repr id_field item_id) items then Raise ScriptEditError
          else
            let! position := insert_position items id_field after_id in
            let item := restore_products (aget item_id removed) new_item in
            let! item :=
              if bool_decide (kind = "video_units") then
                let! item := if has "references" item then Ok item else _rederive_video_unit_references item project in
                refresh_video_unit_replan_state nfc float_true item true true
              else Ok item in
            let script' := with_items kind (insert_at position (JObj item) items) script in
            let! after := _admission_for script' item_id in
            Ok (mkApplied item_id None after script' (adel item_id removed))
      | _ => Raise ScriptEditError
      end
  | MoveAfterOperation id after_id =>
      if bool_decide (after_id = Some id) then Raise ScriptEditError
      else
        let! found := resolve_items script None in
        let '(items, id_field, kind) := found in
        let! source := _find_index py_repr items id_field id in
        let! before := _admission_for script id in
        let item := default JNull (items !! source) in
        let rest := remove_at source items in
        let! position := insert_position rest id_field after_id in
        let script' := with_items kind (insert_at position item rest) script in
        let! after := _admission_for script' id in
        Ok (mkApplied id before after script' removed)
  | RemoveOperation id =>
      let! found := resolve_items script None in
      let '(items, id_field, kind) := found in
      let! index := _find_index py_repr items id_field id in
      let! before := _admission_for script id in
      Ok (mkApplied id before None (with_items kind (remove_at index items) script) (aset id (object_at items index) removed))
  end.

(** ** Admission *)

(** A dict comprehension: a later item of the same id replaces the value. *)
Fixpoint admissions_in (id_field kind : string) (items : list json) (acc : list (pystr * SpeechPreparation)) : result (list (pystr * SpeechPreparation)) :=
  match items with
  | [] => Ok acc
  | JObj d :: rest =>
      match dict_get (u id_field) d with
      | Some (JStr s) =>
          let! p := admit_script_unit kind d false in
          admissions_in id_field kind rest (aset s p acc)
      | _ => admissions_in id_field kind rest acc
      end
  | _ :: rest => admissions_in id_field kind rest acc
  end.

Definition _admissions (script : dict) : result (list (pystr * SpeechPreparation)) :=
  let! found := resolve_items script None in
  let '(items, id_field, kind) := found in
  admissions_in id_field kind items [].

(** Which operation touched an id last, and which changed its speech last. *)
Abbreviation touches := (list (pystr * nat)).

Definition speech_problem (operation_index : option nat) (p : SpeechProblem) : ScriptBatchEditProblem :=
  mkEditProblem (speech_code_value (sp_code p)) operation_index (Some (sp_unit_id p)) (u (speech_reason_value (sp_reason p))) (speech_action_value (sp_action p)).

Definition is_replan (p : SpeechProblem) : bool := match sp_code p with NEEDS_REPLAN => true | _ => false end.

Definition admission_problems (before : list (pystr * SpeechPreparation)) (speech_change last_touch : touches) (ia : pystr * SpeechPreparation) : list ScriptBatchEditProblem :=
  let '(item_id, admission) := ia in
  if allowed admission then []
  else if bool_decide (aget item_id before = Some admission) then []
  else
    let index := match aget item_id speech_change with Some i => Some i | None => aget item_id last_touch end in
    let problems := pr_problems admission in
    let actionable := if existsb (fun p => negb (is_replan p)) problems then where_ (fun p => negb (is_replan p)) problems else problems in
    map (speech_problem index) actionable.

Definition _new_speech_problems (candidate : dict) (before : list (pystr * SpeechPreparation)) (speech_change last_touch : touches)
    : result (list ScriptBatchEditProblem) :=
  let! now := _admissions candidate in
  Ok (flat_map (admission_problems before speech_change last_touch) now).

(** ** Applying the whole command *)

Record progress := mkProgress {
  g_script : dict;
  g_removed : list (pystr * dict);
  g_affected : list pystr;
  g_last_touch : touches;
  g_speech_change : touches
}.

(** [for index, operation in enumerate(command.operations)]: the first operation
    that does not apply is reported with its index. *)
Fixpoint apply_all (ops : list operation) (index : nat) (project : dict) (g : progress) : result (progress + nat * operation) :=
  match ops with
  | [] => Ok (inl g)
  | op :: rest =>
      match _apply_operation (g_script g) op project (g_removed g) with
      | Raise ScriptEditError => Ok (inr (index, op))
      | Raise e => Raise e
      | Ok a =>
          apply_all rest (S index) project
            (mkProgress (a_script a) (a_removed a)
               (if bool_decide (a_id a ∈ g_affected g) then g_affected g else g_affected g ++ [a_id a])
               (aset (a_id a) index (g_last_touch g))
               (if bool_decide (a_before a = a_after a) then g_speech_change g else aset (a_id a) index (g_speech_change g)))
      end
  end.
End batch.

(** ** Script file names and paths *)

(** A step of a path. *)
Inductive path_part := PName (s : pystr) | PIndex (z : Z).
#[export] Instance part_eq_dec : EqDecision path_part.
Proof. solve_decision. Defined.

Definition sample_digit (c : N) : option Z := if (48 <=? c)%N && (c <=? 57)%N then Some (Z.of_N c - 48)%Z else None.

(** [posixpath.normpath] *)
Definition push_component (slashes : nat) (stack : list pystr) (comp : pystr) : list pystr :=
  if bool_decide (comp ∈ [[]; u "."]) then stack
  else if negb (bool_decide (comp = u "..")) then comp :: stack
  else
    match stack with
    | [] => if bool_decide (slashes = 0) then [comp] else []
    | top :: rest => if bool_decide (top = u "..") then comp :: stack else rest
    end.

Definition normpath (path : pystr) : pystr :=
  let slashes := match path with
                 | 47%N :: 47%N :: 47%N :: _ => 1
                 | 47%N :: 47%N :: _ => 2
                 | 47%N :: _ => 1
                 | _ => 0
                 end in
  let comps := reverse (foldl (push_component slashes) [] (split_char 47 path [])) in
  let joined := match comps with [] => [] | c :: rest => c ++ flat_map (fun x => 47%N :: x) rest end in
  match replicate slashes 47%N ++ joined with [] => u "." | text => text end.

Definition removeprefix (prefix s : pystr) : pystr := if bool_decide (take (length prefix) s = prefix) then drop (length prefix) s else s.

Definition normalize_script_filename (script_filename : pystr) : pystr :=
  let normalized := removeprefix (u "scripts/") (normpath script_filename) in
  if bool_decide (normalized = u ".") then [] else normalized.

(** [re.search(r"episode[-_\s]*(\d+)", name, re.IGNORECASE)]: the characters that match
    each letter, and the digits after the first match.  Separators are not digits, so
    the greedy match never backtracks. *)
Definition EPISODE : list (list N) := [[101; 69]; [112; 80]; [105; 73; 304; 305]; [115; 83; 383]; [111; 79]; [100; 68]; [101; 69]]%N.

Fixpoint after_letters (letters : list (list N)) (s : pystr) : option pystr :=
  match letters, s with
  | [], _ => Some s
  | l :: letters, c :: r => if bool_decide (c ∈ l) then after_letters letters r else None
  | _, [] => None
  end.

Fixpoint skip_separators (s : pystr) : pystr :=
  match s with
  | c :: r => if ((c =? 45) || (c =? 95))%N || is_space c then skip_separators r else s
  | [] => []
  end.

Section filename.
Context (decimal : N -> option Z).

Fixpoint leading_digits (s : pystr) : pystr :=
  match s with
  | c :: r => if bool_decide (is_Some (decimal c)) then c :: leading_digits r else []
  | [] => []
  end.

Fixpoint search_episode (s : pystr) : option pystr :=
  match after_letters EPISODE s with
  | Some rest => match leading_digits (skip_separators rest) with [] => match s with [] => None | _ :: r => search_episode r end | digits => Some digits end
  | None => match s with [] => None | _ :: r => search_episode r end
  end.

Definition _filename_episode (script_file : pystr) : result (option Z) :=
  match search_episode script_file with
  | None => Ok None
  | Some digits => if 4300 <? length digits then Raise ValueError else Ok (int_value decimal 0 digits)
  end.

(** [_parse_path]: names between dots and brackets, and indices in brackets. *)
Fixpoint dotted (s : pystr) : pystr :=
  match s with
  | 58%N :: 32%N :: r => 46%N :: dotted r
  | c :: r => (if (c =? 58)%N then 46%N else c) :: dotted r
  | [] => []
  end.

Definition number (digits : pystr) : result path_part := if 4300 <? length digits then Raise ValueError else Ok (PIndex (default 0%Z (int_value decimal 0 digits))).

Definition flush (word : pystr) : result (list path_part) :=
  match word with
  | [] => Ok []
  | _ => let! p := if List.forallb (fun c => bool_decide (is_Some (decimal c))) word then number (reverse word) else Ok (PName (reverse word)) in Ok [p]
  end.

Fixpoint scan_path (inside : bool) (word s : pystr) : result (list path_part) :=
  match s with
  | [] => flush word
  | c :: r =>
      if inside then scan_path (negb (c =? 93)%N) [] r
      else if ((c =? 46) || (c =? 93))%N then let! p := flush word in let! rest := scan_path false [] r in Ok (p ++ rest)
      else if (c =? 91)%N then
        let! p := flush word in
        let digits := leading_digits r in
        if negb (bool_decide (digits = [])) && bool_decide (head (drop (length digits) r) = Some 93%N)
        then let! i := number digits in let! rest := scan_path true [] r in Ok (p ++ i :: rest)
        else let! rest := scan_path false [] r in Ok (p ++ rest)
      else scan_path false (c :: word) r
  end.

Definition _parse_path (value : pystr) : result (list path_part) := scan_path false [] (dotted value).

(** ** The operation a message is blamed on *)

Definition _unit_id_at_location (script : dict) (path : list path_part) : result (option pystr) :=
  let! found := resolve_items script None in
  let '(items, id_field, kind) := found in
  Ok (match path with
      | PName name :: PIndex z :: _ =>
          if negb (bool_decide (name = u kind)) || (z <? 0)%Z then None
          else match items !! Z.to_nat z with
               | Some (JObj d) => match dict_get (u id_field) d with Some (JStr s) => Some s | _ => None end
               | _ => None
               end
      | _ => None
      end).

Definition _operation_field_affects_location (field : pystr) (location : list path_part) : result bool :=
  let! field_path := _parse_path field in
  Ok (bool_decide (take (length location) field_path = location) || bool_decide (take (length field_path) location = field_path)
      || bool_decide (head location = Some (PName (u "references"))) && bool_decide (head field_path = Some (PName (u "shots")))).

Fixpoint any_field (fields : list (pystr * json)) (location : list path_part) : result bool :=
  match fields with
  | [] => Ok false
  | (field, _) :: rest => let! b := _operation_field_affects_location field location in if b : bool then Ok true else any_field rest location
  end.

Definition is_responsible (item_id : pystr) (location : list path_part) (op : operation) : result bool :=
  match op with
  | UpdateOperation id fields => if bool_decide (id = item_id) then any_field fields location else Ok false
  | InsertAfterOperation _ _ => Ok (bool_decide (_operation_id op = Some item_id))
  | _ => Ok false
  end.

(** The last one, the search starting at the end. *)
Fixpoint last_responsible (item_id : pystr) (location : list path_part) (ops : list operation) (index : nat) : result (option nat) :=
  match ops with
  | [] => Ok None
  | op :: rest =>
      let! later := last_responsible item_id location rest (S index) in
      match later with
      | Some i => Ok (Some i)
      | None => let! b := is_responsible item_id location op in Ok (if b : bool then Some index else None)
      end
  end.

Definition _responsible_operation (item_id : option pystr) (location : list path_part) (operations : list operation) : result (option nat) :=
  let relative_path := match location with _ :: PIndex _ :: r => r | _ => [] end in
  match item_id, relative_path with
  | Some id, _ :: _ => last_responsible id relative_path operations 0
  | _, _ => Ok None
  end.
End filename.

Example parse_path_mixed : _parse_path sample_digit (u "segments[12]: shots.0[x].text") = Ok [PName (u "segments"); PIndex 12; PName (u "shots"); PIndex 0; PName (u "x"); PName (u "text")].
Proof. reflexivity. Qed.

Example filename_episode_10 : _filename_episode sample_digit (u "my_EPISODE-_ 10_v2.json") = Ok (Some 10%Z).
Proof. reflexivity. Qed.
Example normalize_aliases : map normalize_script_filename [u "episode_1.json"; u "scripts/episode_1.json"; u "./episode_1.json"; u "./scripts//episode_1.json"; u "./."; u "a/../../x"]
  = [u "episode_1.json"; u "episode_1.json"; u "episode_1.json"; u "episode_1.json"; []; u "../x"].
Proof. reflexivity. Qed.

(** ** Execution *)

Record Store {Claims : Type} := mkStore { s_scripts : gmap pystr dict; s_project : dict; s_claims : Claims }.
Arguments Store : clear implicits.
Arguments mkStore {_} _ _ _.

(** Which of the writes of a commit fail, and whether the old files can be put back. *)
Record faults := mkFaults { f_script : bool; f_project : bool; f_restore : bool }.

Section execution.
Context (nfc : pystr -> pystr) (is_decimal : N -> bool).
Context (float_true : pystr -> bool) (float_eq : json -> json -> bool) (py_repr : json -> pystr).
Context (sha256 : pystr -> pystr) (now : json).
Context (decimal : N -> option Z).
Context {Claims Msg : Type} (msg_key : Msg -> string) (_validation_location : Msg -> list path_part).
Context (structure : dict -> list Msg) (references : dict -> dict -> list Msg).
Context (admit_project : dict -> result unit) (settle_project : dict -> dict -> pystr -> result dict).
Context (prepare_commit : Z -> pystr -> list pystr -> list pystr -> result (Claims -> result Claims)).

Definition script_revision (script : dict) : result pystr :=
  let! fp := content_fingerprint_of_data sha256 (JObj script) in Ok (u "sha256-v1:" ++ fp).

Definition py_equal (v : option json) (z : Z) : bool := py_eq float_eq (default JNull v) (JInt z).

Definition resolve_script_file (c : ScriptBatchEditCommand) (project : dict) : result pystr :=
  match c_script c with
  | Some s => Ok (normalize_script_filename s)
  | None =>
      match dict_get (u "episodes") project with
      | Some (JArr episodes) =>
          let entry := head (omap (fun item => match item with JObj d => if py_equal (dict_get (u "episode") d) (default 0%Z (c_episode c)) then Some d else None | _ => None end) episodes) in
          match entry with
          | Some d =>
              match dict_get (u "script_file") d with
              | Some (JStr file) =>
                  let bound := normalize_script_filename file in
                  match c_expected_script_file c with
                  | Some e => if bool_decide (bound = normalize_script_filename e) then Ok bound else Raise EpisodeScriptReboundError
                  | None => Ok bound
                  end
              | _ => Raise FileNotFoundError
              end
          | None => Raise FileNotFoundError
          end
      | _ => Raise FileNotFoundError
      end
  end.

(** The archive rules for empty scripts do not apply to drafts. *)
Definition _candidate_validation_errors (candidate : dict) (errors : list Msg) : result (list Msg) :=
  let! found := resolve_items candidate None in
  match found.1.1 with
  | _ :: _ => Ok errors
  | [] => Ok (where_ (fun m => negb (bool_decide (msg_key m ∈ ["val_array_empty"; "val_ad_shots_missing"; "val_video_units_missing"]))) errors)
  end.

(** [{item[f] for item in items if isinstance(item.get(f), str)}] *)
Fixpoint string_ids (f : string) (items : list json) : result (list pystr) :=
  match items with
  | [] => Ok []
  | JObj d :: rest => let! ids := string_ids f rest in Ok (match dict_get (u f) d with Some (JStr s) => s :: ids | _ => ids end)
  | _ => Raise AttributeError
  end.

Definition _prepare_manifest_commit (script : dict) (script_file : pystr) (ids removed : list pystr) : result (option (Claims -> result Claims)) :=
  match dict_get (u "episode") script with
  | Some (JInt e) =>
      if (e <? 1)%Z then Ok None
      else let! commit := prepare_commit e (u "scripts/" ++ normalize_script_filename script_file) ids removed in Ok (Some commit)
  | _ => Ok None
  end.

(** [except (ArtifactManifestError, OSError, UnicodeError, ValueError)], a migration
    error going on. *)
Definition is_manifest_failure (e : exc) : bool :=
  match e with
  | ArtifactManifestError | ArtifactRegistrationError | OSError | FileNotFoundError | UnicodeEncodeError | ValueError | ScriptEditError => true
  | _ => false
  end.

Record accepted := mkAccepted { ac_candidate : dict; ac_affected : list pystr; ac_commit : option (Claims -> result Claims) }.

(** The commit that lists the candidate's items and drops those that are gone. *)
Definition manifest_commit (resolved : pystr) (g : progress) : result (option (Claims -> result Claims)) :=
  let! found := resolve_items (g_script g) None in
  let '(items, id_field, _) := found in
  let! final_ids := string_ids id_field items in
  _prepare_manifest_commit (g_script g) resolved final_ids (where_ (fun i => negb (bool_decide (i ∈ final_ids))) (g_affected g)).

(** What is checked of the candidate, in order. *)
Definition check_candidate (c : ScriptBatchEditCommand) (resolved : pystr) (episode : option Z) (revision : pystr) (project : dict)
    (before : list (pystr * SpeechPreparation)) (g : progress) : result (ScriptBatchEditResult + accepted) :=
  let candidate := g_script g in
  let fail code reason next := _failure resolved episode revision code (u reason) next in
  let! speech := _new_speech_problems nfc candidate before (g_speech_change g) (g_last_touch g) in
  match speech with
  | _ :: _ => Ok (inl (mkEditResult false resolved episode revision revision [] speech))
  | [] =>
      let invalid code reason (m : Msg) :=
        let location := _validation_location m in
        let! unit := _unit_id_at_location candidate location in
        let! index := _responsible_operation decimal unit location (c_operations c) in
        Ok (inl (fail code reason (if bool_decide (is_Some index) then "fix_operation" else "repair_script") index unit)) in
      match structure candidate with
      | m :: _ => invalid "schema_invalid" "candidate_schema_invalid" m
      | [] =>
          let! errors := _candidate_validation_errors candidate (references project candidate) in
          match errors with
          | m :: _ => invalid "references_invalid" "candidate_references_invalid" m
          | [] =>
              match manifest_commit resolved g with
              | Ok commit => Ok (inr (mkAccepted candidate (g_affected g) commit))
              | Raise e => if is_manifest_failure e then Ok (inl (fail "manifest_invalid" "artifact_manifest_unavailable" "retry" None None)) else Raise e
              end
          end
      end
  end.

Definition preflight (c : ScriptBatchEditCommand) (resolved : pystr) (episode : option Z) (revision : pystr) (project script : dict)
    : result (ScriptBatchEditResult + accepted) :=
  let fail code reason next := _failure resolved episode revision code (u reason) next in
  if negb (bool_decide (c_expected_revision c = revision)) then Ok (inl (fail "revision_conflict" "revision_mismatch" "refresh_script" None None))
  else
    let! expected_episode := match c_episode c with Some e => Ok (Some e) | None => _filename_episode decimal resolved end in
    let mismatch := match expected_episode with Some e => negb (py_equal (dict_get (u "episode") script) e) | None => false end in
    if mismatch then Ok (inl (fail "schema_invalid" "episode_binding_mismatch" "refresh_script" None None))
    else
      match _admissions nfc script with
      | Raise ScriptEditError => Ok (inl (fail "schema_invalid" "stored_schema_invalid" "repair_script" None None))
      | Raise e => Raise e
      | Ok before =>
          let! done := apply_all nfc is_decimal float_true float_eq py_repr (c_operations c) 0 project (mkProgress script [] [] [] []) in
          match done with
          | inr (index, op) => Ok (inl (fail "operation_invalid" "operation_invalid" "fix_operation" (Some index) (_operation_id op)))
          | inl g => check_candidate c resolved episode revision project before g
          end
      end.

(** [_write_script_unlocked]: the metadata of the script. *)
Definition stamp (script : dict) : dict :=
  let metadata := match dict_get (u "metadata") script with Some (JObj m) => m | _ => [] end in
  let setdefault k v m := if bool_decide (is_Some (dict_get (u k) m)) then m else dict_set (u k) v m in
  let metadata := dict_set (u "updated_at") now (setdefault "status" (JStr (u "draft")) (setdefault "created_at" now metadata)) in
  dict_set (u "metadata") (JObj metadata) script.

(** [require_filename_episode_consistency] *)
Definition consistent_name (script : dict) (file : pystr) : result unit :=
  let episode := match dict_get (u "episode") script with
                 | Some (JInt z) => Some z
                 | Some (JBool b) => Some (if b then 1 else 0)%Z
                 | _ => None
                 end in
  match search_episode decimal (normalize_script_filename file), episode with
  | Some digits, Some z =>
      let! found := _filename_episode decimal (normalize_script_filename file) in
      if bool_decide (found = Some z) then Ok tt else Raise ValueError
  | _, _ => Ok tt
  end.

(** The writes of the commit, in order; the first failure ends them.  A script
    with a lone surrogate cannot be written. *)
Definition commit_writes (f : faults) (file : pystr) (a : accepted) (s : Store Claims) : result unit * Store Claims :=
  let written := stamp (ac_candidate a) in
  match consistent_name (ac_candidate a) file with
  | Raise e => (Raise e, s)
  | Ok _ =>
      if existsb is_surrogate (dumps_sep true true (JObj written)) then (Raise UnicodeEncodeError, s)
      else if f_script f then (Raise OSError, s)
      else
        let s1 := mkStore (<[file := written]> (s_scripts s)) (s_project s) (s_claims s) in
        match settle_project (s_project s) written file with
        | Raise e => (Raise e, s1)
        | Ok project' =>
            if f_project f then (Raise OSError, s1)
            else
              let s2 := mkStore (s_scripts s1) project' (s_claims s1) in
              match ac_commit a with
              | None => (Ok tt, s2)
              | Some commit =>
                  match commit (s_claims s2) with
                  | Ok claims' => (Ok tt, mkStore (s_scripts s2) (s_project s2) claims')
                  | Raise e => (Raise e, s2)
                  end
              end
        end
  end.

(** [formal_write_transaction]: the two files are put back on failure. *)
Definition commit_all (f : faults) (file : pystr) (a : accepted) (s : Store Claims) : result unit * Store Claims :=
  match commit_writes f file a s with
  | (Ok _, s') => (Ok tt, s')
  | (Raise e, s') => if f_restore f then (Raise RollbackIncomplete, s') else (Raise e, mkStore (s_scripts s) (s_project s) (s_claims s'))
  end.

(** The answers to what was raised inside the locked section. *)
Definition answer (resolved : pystr) (episode : option Z) (revision : pystr) (e : exc) : result ScriptBatchEditResult :=
  match e with
  | FileNotFoundError => Raise FileNotFoundError
  | EpisodeScriptReboundError => Ok (_failure resolved episode revision "revision_conflict" (u "script_binding_changed") "refresh_script" None None)
  | ProjectMigrationError violation => Ok (_failure resolved episode revision "project_migration_failed" violation "retry_project_migration" None None)
  | _ => Ok (_failure resolved episode revision "commit_failed" (u "durable_commit_failed") "retry" None None)
  end.

(** [peek] is the project as it was read before the locks were taken. *)
Definition execute (c : ScriptBatchEditCommand) (verdict : option pystr) (peek : dict) (f : faults) (s : Store Claims)
    : result ScriptBatchEditResult * Store Claims :=
  match verdict with
  | Some reason =>
      (Ok (_failure (match c_script c with Some n => normalize_script_filename n | None => [] end) (c_episode c) (c_expected_revision c)
             "project_migration_failed" reason "retry_project_migration" None None), s)
  | None =>
      let initial := match c_script c with
                     | Some n => normalize_script_filename n
                     | None => match normalize_script_filename <$> c_expected_script_file c with
                               | Some (x :: n) => x :: n
                               | _ => episode_script_filename (default 0%Z (c_episode c))
                               end
                     end in
      let expected := c_expected_revision c in
      match resolve_script_file c peek with
      | Raise e => (answer initial (c_episode c) expected e, s)
      | Ok first =>
          match admit_project (s_project s) with
          | Raise e => (answer first (c_episode c) expected e, s)
          | Ok _ =>
              match resolve_script_file c (s_project s) with
              | Raise e => (answer first (c_episode c) expected e, s)
              | Ok resolved =>
                  if negb (bool_decide (resolved = first)) then (answer resolved (c_episode c) expected EpisodeScriptReboundError, s)
                  else
                    match s_scripts s !! resolved with
                    | None => (Raise FileNotFoundError, s)
                    | Some stored =>
                        let script := (migrate_document (u "video_units") None stored).1.1 in
                        match script_revision script with
                        | Raise e => (answer resolved (c_episode c) expected e, s)
                        | Ok revision =>
                            let episode := match c_episode c with
                                           | Some e => Some e
                                           | None => match dict_get (u "episode") script with Some (JInt z) => Some z | _ => None end
                                           end in
                            match preflight c resolved episode revision (s_project s) script with
                            | Raise e => (answer resolved episode revision e, s)
                            | Ok (inl rejected) => (Ok rejected, s)
                            | Ok (inr a) =>
                                match commit_all f resolved a s with
                                | (Raise e, s') => (answer resolved episode revision e, s')
                                | (Ok _, s') =>
                                    match script_revision (stamp (ac_candidate a)) with
                                    | Raise e => (Raise e, s')
                                    | Ok after => (Ok (mkEditResult true resolved episode revision after (ac_affected a) []), s')
                                    end
                                end
                            end
                        end
                    end
              end
          end
      end
  end.
End execution.

(** ** What an operation does to the list *)

Lemma index_from_intro p l i j x : l !! j = Some x -> p x = true -> (forall n y, n < j -> l !! n = Some y -> p y = false) -> index_from p l i = Some (i + j).
Proof.
  revert i j. induction l as [|z l IH]; intros i j Hx Hp Hb; [done|]. cbn [index_from]. destruct j as [|j].
  - injection Hx as ->. by rewrite Hp, Nat.add_0_r.
  - rewrite (Hb 0 z) by (done || lia). rewrite (IH (S i) j); [f_equal; lia|done|done|]. intros n y Hn Hy. apply (Hb (S n)); [lia|done].
Qed.

Lemma elem_of_aset_pair {V} k (v : V) (d : list (pystr * V)) e : e ∈ aset k v d -> e = (k, v) \/ e ∈ d.
Proof.
  induction d as [|[k' v'] d IH]; cbn [aset]; [rewrite list_elem_of_singleton; by left|]. case_bool_decide as E; [subst k'|]; rewrite !elem_of_cons; tauto.
Qed.

Section lists.
Context (py_repr : json -> pystr) (f : string).
Abbreviation ids l := (_existing_ids py_repr l f).
Abbreviation id_text := (id_text py_repr f).

Lemma find_index_insert items i d : _find_index py_repr items f (id_text d) = Ok i -> _find_index py_repr (<[i := JObj d]> items) f (id_text d) = Ok i.
Proof.
  unfold _find_index. destruct (index_from _ items 0) as [j|] eqn:E; [|done]. intros [= <-]. apply index_from_Some in E as (x & _ & Hl & Hp & Hb). rewrite Nat.sub_0_r in *.
  rewrite (index_from_intro _ _ 0 j (JObj d)); [done|apply list_lookup_insert_eq; by eapply lookup_lt_Some|unfold has_id; by apply bool_decide_eq_true|].
  intros n y Hn Hy. rewrite list_lookup_insert_ne in Hy by lia. by eapply Hb.
Qed.

Lemma elem_insert (items : list json) (i : nat) (x y : json) : y ∈ <[i := x]> items -> y = x \/ y ∈ items.
Proof.
  intros (j & Hj)%list_elem_of_lookup_1. destruct (decide (i = j)) as [->|Hne].
  - destruct (decide (j < length items)); [rewrite list_lookup_insert_eq in Hj by done; left; congruence|].
    rewrite list_insert_ge in Hj by lia. apply list_elem_of_lookup_2 in Hj. by right.
  - rewrite list_lookup_insert_ne in Hj by done. right. by eapply list_elem_of_lookup_2.
Qed.

(** Objects of a list with unique ids are told apart by them. *)
Lemma same_object items d d' : NoDup (ids items) -> JObj d ∈ items -> JObj d' ∈ items -> id_text d = id_text d' -> d = d'.
Proof.
  intros Hnd [i Hi]%list_elem_of_lookup_1 Hd' E. destruct (split_at py_repr f _ _ _ Hi) as [Ei Eids]. rewrite Eids in Hnd. apply NoDup_put in Hnd as [Hout _].
  rewrite <- ids_app in Hout. rewrite Ei, elem_of_app, elem_of_cons in Hd'. destruct Hd' as [Hd'|[[= ->]|Hd']]; [|done|]; destruct Hout; rewrite E;
    apply elem_of_ids; exists d'; (split; [|done]); apply elem_of_app; [by left|by right].
Qed.

(** ** Invariant of a batch *)

Context (items : list json).

(** The products an id has: those of the stored item, or none. *)
Definition fine (id : pystr) (p : dict * option json) : Prop :=
  (exists d, JObj d ∈ items /\ id_text d = id /\ products d = p) \/ (id ∉ ids items /\ p = ([], None)).

Record edit_inv (cur : list json) (removed : list (pystr * dict)) (affected : list pystr) : Prop := {
  ok_ids : NoDup (ids cur);
  ok_products : forall d, JObj d ∈ cur -> fine (id_text d) (products d);
  ok_removed : forall id d, (id, d) ∈ removed -> fine id (products d);
  ok_cover : forall id, id ∈ ids items -> id ∈ ids cur \/ is_Some (aget id removed);
  ok_kept : forall d, JObj d ∈ items -> id_text d ∉ affected -> JObj d ∈ cur;
  ok_new : forall d, JObj d ∈ cur -> id_text d ∉ affected -> JObj d ∈ items
}.

Lemma edit_inv_start : NoDup (ids items) -> edit_inv items [] [].
Proof.
  intros Hnd. constructor; try done.
  - intros d Hd. left. by exists d.
  - by intros id d ?%not_elem_of_nil.
  - intros id Hid. by left.
Qed.

Lemma fine_same p p' d0 id : fine id p -> p' = p -> d0 = id -> fine d0 p'.
Proof. by intros H -> ->. Qed.

(** Setting an object that keeps its id and its products. *)
Lemma edit_inv_set cur removed affected i d0 d : edit_inv cur removed affected -> cur !! i = Some (JObj d0) -> id_text d = id_text d0 -> products d = products d0 ->
  forall affected', affected ⊆ affected' -> id_text d ∈ affected' -> edit_inv (<[i := JObj d]> cur) removed affected'.
Proof.
  intros H Hi Hid Hp affected' Hs Ha. constructor.
  - rewrite (ids_insert py_repr f cur i d0 d Hi Hid). apply H.
  - intros x [[= ->]|Hx]%elem_insert; [|by apply H]. rewrite Hid, Hp. apply H. by eapply list_elem_of_lookup_2.
  - apply H.
  - intros id. rewrite (ids_insert py_repr f cur i d0 d Hi Hid). apply H.
  - intros x Hx Hnot. assert (JObj x ∈ cur) as Hcur by (apply (ok_kept _ _ _ H); [done|set_solver]). apply list_elem_of_lookup_1 in Hcur as [j Hj].
    apply (list_elem_of_lookup_2 _ j). rewrite list_lookup_insert_ne; [done|]. intros ->. rewrite Hi in Hj. injection Hj as ->. by rewrite Hid in Ha.
  - intros x [[= ->]|Hx]%elem_insert Hnot; [done|]. apply (ok_new _ _ _ H); [done|set_solver].
Qed.

Lemma edit_inv_remove cur removed affected i d : edit_inv cur removed affected -> cur !! i = Some (JObj d) ->
  forall affected', affected ⊆ affected' -> id_text d ∈ affected' -> edit_inv (remove_at i cur) (aset (id_text d) d removed) affected'.
Proof.
  intros H Hi affected' Hs Ha. destruct (split_at py_repr f _ _ _ Hi) as [Ei Eids]. pose proof (ok_ids _ _ _ H) as Hnd. rewrite Eids in Hnd. apply NoDup_put in Hnd as [Hout Hnd].
  assert (forall x, x ∈ remove_at i cur -> x ∈ cur) as Hsub by (intros x; unfold remove_at; rewrite elem_of_app; intros [?|?]; [by eapply sub_take|by eapply sub_drop]).
  constructor.
  - unfold remove_at. by rewrite ids_app.
  - intros x Hx. apply H. by apply Hsub.
  - intros id x [[= -> ->]|Hx]%elem_of_aset_pair; [apply H; by eapply list_elem_of_lookup_2|by apply H].
  - intros id Hid. unfold remove_at. rewrite ids_app, aget_aset. case_bool_decide as E; [by right|].
    destruct (ok_cover _ _ _ H id Hid) as [Hc|Hc]; [left|by right]. rewrite Eids, elem_of_app, elem_of_cons in Hc. rewrite elem_of_app. destruct Hc as [?|[?|?]]; [by left|congruence|by right].
  - intros x Hx Hnot. assert (JObj x ∈ cur) as Hcur by (apply (ok_kept _ _ _ H); [done|set_solver]). rewrite Ei, elem_of_app, elem_of_cons in Hcur.
    unfold remove_at. rewrite elem_of_app. destruct Hcur as [?|[[= ->]|?]]; [by left|done|by right].
  - intros x Hx Hnot. apply (ok_new _ _ _ H); [by apply Hsub|set_solver].
Qed.

Lemma edit_inv_insert cur removed affected i d : edit_inv cur removed affected -> id_text d ∉ ids cur -> fine (id_text d) (products d) ->
  forall affected', affected ⊆ affected' -> id_text d ∈ affected' -> edit_inv (insert_at i (JObj d) cur) (adel (id_text d) removed) affected'.
Proof.
  intros H Hnew Hf affected' Hs Ha. assert (forall x, x ∈ insert_at i (JObj d) cur <-> x = JObj d \/ x ∈ cur) as Hel.
  { intros x. unfold insert_at. rewrite elem_of_app, elem_of_cons. rewrite <- (take_drop i cur) at 3. rewrite elem_of_app. tauto. }
  assert (ids (insert_at i (JObj d) cur) = ids (take i cur) ++ id_text d :: ids (drop i cur)) as Eids by (unfold insert_at; by rewrite ids_app).
  assert (ids cur = ids (take i cur) ++ ids (drop i cur)) as Ecur by (rewrite <- ids_app, take_drop; done).
  constructor.
  - rewrite Eids. apply NoDup_put. rewrite <- Ecur. split; [done|apply H].
  - intros x [[= ->]|Hx]%Hel; [done|by apply H].
  - intros id x Hx. unfold adel in Hx. apply elem_of_where in Hx as [Hx _]. by apply H.
  - intros id Hid. rewrite Eids, elem_of_app, elem_of_cons, aget_adel. case_bool_decide as E; [left; right; by left|].
    destruct (ok_cover _ _ _ H id Hid) as [Hc|Hc]; [|by right]. left. rewrite Ecur, elem_of_app in Hc. tauto.
  - intros x Hx Hnot. apply Hel. right. apply (ok_kept _ _ _ H); [done|set_solver].
  - intros x [[= ->]|Hx]%Hel Hnot; [done|]. apply (ok_new _ _ _ H); [done|set_solver].
Qed.

Lemma edit_inv_move cur removed affected i d j : edit_inv cur removed affected -> cur !! i = Some (JObj d) ->
  forall affected', affected ⊆ affected' -> id_text d ∈ affected' -> edit_inv (insert_at j (JObj d) (remove_at i cur)) removed affected'.
Proof.
  intros H Hi affected' Hs Ha. destruct (split_at py_repr f _ _ _ Hi) as [Ei _].
  assert (insert_at j (JObj d) (remove_at i cur) ≡ₚ cur) as Hperm.
  { unfold insert_at. rewrite <- Permutation_middle, take_drop. rewrite Ei at 2. unfold remove_at. by rewrite <- Permutation_middle. }
  assert (ids (insert_at j (JObj d) (remove_at i cur)) ≡ₚ ids cur) as Hids by (unfold _existing_ids; by rewrite Hperm).
  constructor.
  - rewrite Hids. apply H.
  - intros x. rewrite Hperm. apply H.
  - apply H.
  - intros id. rewrite Hids. apply H.
  - intros x Hx Hnot. rewrite Hperm. apply (ok_kept _ _ _ H); [done|set_solver].
  - intros x. rewrite Hperm. intros Hx Hnot. apply (ok_new _ _ _ H); [done|set_solver].
Qed.
End lists.

(** ** Operations keep the invariant *)

Section operations.
Context (nfc : pystr -> pystr) (is_decimal : N -> bool).
Context (float_true : pystr -> bool) (float_eq : json -> json -> bool) (py_repr : json -> pystr).
Abbreviation apply_operation := (_apply_operation nfc is_decimal float_true float_eq py_repr).

(** The keys that the settling of an item may change. *)
Definition derived : list pystr := [u "references"; u "needs_replan"; migration_key].

Lemma rederive_other item project item' key : _rederive_video_unit_references nfc is_decimal float_true py_repr item project = Ok item' ->
  key ∉ derived -> dict_get key item' = dict_get key item.
Proof.
  unfold _rederive_video_unit_references. destruct (dict_get (u "shots") item) as [[]|]; try (by intros ->%Ok_inj).
  intros (l0 & Hl & H)%bind_Ok Hk. cbn [rederive_unit_references] in Hl. apply bind_Ok in Hl as (x & Hx & Hl). cbn [bind] in Hl. apply Ok_inj in Hl as <-.
  unfold rederive_unit in Hx. apply bind_Ok in Hx as (shots & _ & Hx). cbv zeta in Hx. apply Ok_inj in Hx as <-. apply Ok_inj in H as <-.
  apply dict_get_set_ne. intros <-. apply Hk. by apply elem_of_cons; left.
Qed.

Lemma refresh_other item a b item' key : refresh_video_unit_replan_state nfc float_true item a b = Ok item' -> key ∉ derived -> dict_get key item' = dict_get key item.
Proof.
  intros H Hk. assert (key <> u "needs_replan") as H1 by (intros ->; apply Hk; by do 1 (apply elem_of_cons; right); apply elem_of_cons; left).
  assert (key <> migration_key) as H2 by (intros ->; apply Hk; by do 2 (apply elem_of_cons; right); apply elem_of_cons; left).
  unfold refresh_video_unit_replan_state in H. cbv zeta in H. set (item1 := if b then _ else _) in *.
  assert (dict_get key item1 = dict_get key item) as E1 by (unfold item1; destruct b; [by apply dict_get_adel|done]).
  assert (dict_get key (dict_set (u "needs_replan") (JBool true) item1) = dict_get key item) as Emark by (by rewrite dict_get_set_ne).
  assert (item' = dict_set (u "needs_replan") (JBool true) item1 \/ item' = adel (u "needs_replan") item1 \/ item' = item1) as [-> | [-> | ->]]; [|done|by rewrite dict_get_adel|done].
  repeat (case_hyp; try (apply bind_Ok in H as (ps & _ & H))); apply Ok_inj in H as <-; tauto.
Qed.

Lemma settle_other kind roots before item project item' key : settle_update nfc is_decimal float_true float_eq py_repr kind roots before item project = Ok item' ->
  key ∉ derived -> dict_get key item' = dict_get key item.
Proof.
  unfold settle_update. intros H Hk. destruct (bool_decide (kind = "video_units")).
  - apply bind_Ok in H as (item1 & H1 & H). assert (dict_get key item1 = dict_get key item) as E1.
    { destruct (_ && negb _) in H1; [by eapply rederive_other|by apply Ok_inj in H1 as <-]. }
    rewrite <- E1. destruct (_ || _ || _) in H; [by eapply refresh_other|by apply Ok_inj in H as <-].
  - apply bind_Ok in H as (p & _ & H). apply bind_Ok in H as (q & _ & H). apply Ok_inj in H as <-. destruct (_ && allowed q); [|done].
    apply dict_get_adel. intros ->. apply Hk. by apply elem_of_cons; right; apply elem_of_cons; left.
Qed.

Lemma settled_keeps kind f d d' : aget kind SKELETONS = Some f -> (forall key, key ∉ derived -> dict_get key d' = dict_get key d) ->
  id_text py_repr f d' = id_text py_repr f d /\ products d' = products d.
Proof.
  intros Hf H. assert (u f ∉ derived /\ u "generated_assets" ∉ derived /\ u "end_frame_image" ∉ derived) as (H1 & H2 & H3).
  { apply aget_skeleton in Hf as [[[_ ->]|[_ ->]]|[[_ ->]|[_ ->]]]; repeat split; apply (bool_decide_unpack _); vm_compute; exact I. }
  split; [unfold id_text; by rewrite (H _ H1)|apply products_same; by apply H].
Qed.

(** Setting fields changes one object and keeps its id and products. *)
Lemma patch_fields_items script id fields items f k i d script' :
  resolve_items script None = Ok (items, f, k) -> has k script = true -> _find_index py_repr items f id = Ok i -> items !! i = Some (JObj d) ->
  patch_fields py_repr script id fields = Ok script' ->
  exists d', script' = with_items k (<[i := JObj d']> items) script /\ id_text py_repr f d' = id_text py_repr f d /\ products d' = products d.
Proof.
  revert script items d. induction fields as [|[path value] fields IH]; intros script items d Hr Hh Hi Hd H; cbn [patch_fields] in H.
  - apply Ok_inj in H as <-. exists d. split; [|done]. rewrite list_insert_id by done. unfold with_items. rewrite Hh. symmetry. apply dict_set_same.
    apply resolve_items_Ok in Hr as (_ & _ & [Hg|[Hg _]]); [done|]. unfold has in Hh. by rewrite Hg in Hh.
  - apply bind_Ok in H as (s1 & Hp & H). unfold patch_field in Hp. rewrite Hr in Hp. cbn [bind] in Hp. rewrite Hi in Hp. cbn [bind] in Hp.
    apply bind_Ok in Hp as (d1 & Hs & Hp). apply Ok_inj in Hp as <-. unfold object_at in Hs. rewrite Hd in Hs.
    pose proof Hr as (_ & Hf & _)%resolve_items_Ok. destruct (set_nested_keeps py_repr _ _ _ _ _ _ Hf Hs) as [Hid Hprod].
    pose proof (find_index_Ok _ _ _ _ _ Hi) as (d0 & Hd0 & Hid0). rewrite Hd in Hd0. injection Hd0 as <-.
    assert (_find_index py_repr (<[i := JObj d1]> items) f id = Ok i) as Hi1.
    { rewrite <- Hid0, <- Hid in *. by apply find_index_insert. }
    destruct (IH (with_items k (<[i := JObj d1]> items) script) (<[i := JObj d1]> items) d1) as (d' & -> & Hid' & Hp').
    + by rewrite (resolve_with_items _ _ _ _ _ Hr), Hh.
    + unfold with_items. rewrite Hh. by rewrite has_set.
    + done.
    + apply list_lookup_insert_eq. by eapply lookup_lt_Some.
    + done.
    + exists d'. split; [|split; congruence]. rewrite list_insert_insert_eq. unfold with_items. rewrite Hh, has_set by done. rewrite Hh. apply dict_set_set.
Qed.

Lemma has_with_items k items script : has k (with_items k items script) = has k script.
Proof. unfold with_items. destruct (has k script) eqn:E; [by rewrite has_set|done]. Qed.

Lemma restore_products_keeps kind f removed item : aget kind SKELETONS = Some f ->
  id_text py_repr f (restore_products removed item) = id_text py_repr f item
  /\ products (restore_products removed item) = match removed with Some r => products r | None => ([], None) end.
Proof.
  intros Hf. pose proof (skeleton_ids _ _ Hf) as (Hg & He & _). destruct removed as [r|]; cbn [restore_products].
  - assert (anchor_part f (id_text py_repr f item) r item = restore_products (Some r) (dict_set (u f) (JStr (id_text py_repr f item)) item)) as Ea by done.
    set (item1 := dict_set (u "generated_assets") _ item).
    assert (id_text py_repr f item1 = id_text py_repr f item) as Hid by (unfold id_text, item1; by rewrite dict_get_set_ne by (by intros ?%u_inj)).
    assert (dict_get (u "generated_assets") item1 = Some (JObj (products r).1)) as Ha.
    { unfold item1. rewrite dict_get_set_eq. unfold products. cbn [fst]. by destruct (dict_get (u "generated_assets") r) as [[]|]. }
    assert (forall w, id_text py_repr f (dict_set (u "end_frame_image") w item1) = id_text py_repr f item
      /\ products (dict_set (u "end_frame_image") w item1) = ((products r).1, match w with JNull => None | v => Some v end)) as Hset.
    { intros w. rewrite <- Hid. unfold id_text, products. rewrite !dict_get_set_ne by (by intros ?%u_inj). rewrite dict_get_set_eq, Ha. split; [done|]. by destruct w. }
    assert (id_text py_repr f (adel (u "end_frame_image") item1) = id_text py_repr f item /\ products (adel (u "end_frame_image") item1) = ((products r).1, None)) as Hdel.
    { rewrite <- Hid. unfold id_text, products. rewrite dict_get_adel_eq, !dict_get_adel by (by intros ?%u_inj). by rewrite Ha. }
    unfold products at 2. destruct (dict_get (u "end_frame_image") r) as [[]|]; try exact Hdel; apply Hset.
  - unfold id_text, products. rewrite dict_get_adel_eq, !dict_get_adel by (by intros ?%u_inj). rewrite dict_get_set_ne by (by intros ?%u_inj). by rewrite dict_get_set_eq.
Qed.

(** The script after an operation, as the invariant sees it. *)
Definition op_ok (items : list json) (f k : string) (script script' : dict) (removed' : list (pystr * dict)) (affected' : list pystr) : Prop :=
  exists cur', resolve_items script' None = Ok (cur', f, k) /\ edit_inv py_repr f items cur' removed' affected'
  /\ has k script' = has k script /\ forall key, key <> u k -> dict_get key script' = dict_get key script.

Lemma op_ok_intro items f k script cur l removed' affected' :
  resolve_items script None = Ok (cur, f, k) -> has k script = true -> edit_inv py_repr f items l removed' affected' -> op_ok items f k script (with_items k l script) removed' affected'.
Proof.
  intros Hr Hh Hb. exists l. split; [by rewrite (resolve_with_items _ _ _ _ _ Hr), Hh|]. split; [done|]. split; [by apply has_with_items|]. intros key Hk. by apply with_items_other.
Qed.

Lemma listed script cur f k i x : resolve_items script None = Ok (cur, f, k) -> cur !! i = Some x -> has k script = true.
Proof. intros (_ & _ & [Hg|[_ ->]])%resolve_items_Ok Hi; [unfold has; by rewrite Hg|done]. Qed.

Section step.
Context (items : list json) (f k : string) (script : dict) (cur : list json) (removed : list (pystr * dict)) (affected affected' : list pystr) (project : dict).
Context (Hr : resolve_items script None = Ok (cur, f, k)) (Hok : edit_inv py_repr f items cur removed affected) (Hsub : affected ⊆ affected').

Lemma update_ok id fields a : apply_operation script (UpdateOperation id fields) project removed = Ok a -> a_id a ∈ affected' ->
  op_ok items f k script (a_script a) (a_removed a) affected'.
Proof.
  intros H Ha. pose proof Hr as (_ & Hf & _)%resolve_items_Ok. cbn [_apply_operation] in H. apply bind_Ok in H as (before & _ & H). rewrite Hr in H. cbn [bind] in H.
  apply bind_Ok in H as (i & Hi & H). apply bind_Ok in H as (p & _ & H). apply bind_Ok in H as (s1 & Hp & H).
  pose proof (find_index_Ok _ _ _ _ _ Hi) as (d & Hd & Hid). pose proof (listed _ _ _ _ _ _ Hr Hd) as Hh.
  destruct (patch_fields_items _ _ _ _ _ _ _ _ _ Hr Hh Hi Hd Hp) as (d' & -> & Hid' & Hp'). apply bind_Ok in H as (found & Hf' & H).
  rewrite (resolve_with_items _ _ _ _ _ Hr), Hh in Hf'. apply Ok_inj in Hf' as <-. cbn [fst] in H. apply bind_Ok in H as (item' & Hset & H).
  apply bind_Ok in H as (after & _ & H). apply Ok_inj in H as <-. cbn [a_script a_removed a_id] in *.
  unfold object_at in Hset. rewrite list_lookup_insert_eq in Hset by (by eapply lookup_lt_Some).
  destruct (settled_keeps k f d' item' Hf) as [Hid2 Hp2]; [intros key; by eapply settle_other|].
  rewrite list_insert_insert_eq. replace (with_items k (<[i := JObj item']> cur) (with_items k (<[i := JObj d']> cur) script)) with (with_items k (<[i := JObj item']> cur) script).
  - apply (op_ok_intro _ _ _ _ cur); [done|done|]. apply (edit_inv_set _ _ _ _ _ affected i d); [done|done|congruence|congruence|done|]. by rewrite Hid2, Hid', Hid.
  - unfold with_items. rewrite Hh, has_set, Hh by done. symmetry. apply dict_set_set.
Qed.

Lemma remove_ok id a : apply_operation script (RemoveOperation id) project removed = Ok a -> a_id a ∈ affected' ->
  op_ok items f k script (a_script a) (a_removed a) affected'.
Proof.
  intros H Ha. cbn [_apply_operation] in H. rewrite Hr in H. cbn [bind] in H. apply bind_Ok in H as (i & Hi & H). apply bind_Ok in H as (before & _ & H).
  apply Ok_inj in H as <-. cbn [a_script a_removed a_id] in *. pose proof (find_index_Ok _ _ _ _ _ Hi) as (d & Hd & Hid). unfold object_at. rewrite Hd.
  apply (op_ok_intro _ _ _ _ cur); [done|by eapply listed|]. rewrite <- Hid in *. by apply (edit_inv_remove _ _ _ _ _ affected).
Qed.

Lemma move_ok id after_id a : apply_operation script (MoveAfterOperation id after_id) project removed = Ok a -> a_id a ∈ affected' ->
  op_ok items f k script (a_script a) (a_removed a) affected'.
Proof.
  intros H Ha. cbn [_apply_operation] in H. case_bool_decide; [discriminate H|]. rewrite Hr in H. cbn [bind] in H. apply bind_Ok in H as (i & Hi & H).
  apply bind_Ok in H as (before & _ & H). apply bind_Ok in H as (j & _ & H). apply bind_Ok in H as (after & _ & H). apply Ok_inj in H as <-.
  cbn [a_script a_removed a_id] in *. pose proof (find_index_Ok _ _ _ _ _ Hi) as (d & Hd & Hid). rewrite Hd. change (default JNull (Some (JObj d))) with (JObj d).
  apply (op_ok_intro _ _ _ _ cur); [done|by eapply listed|]. apply (edit_inv_move _ _ _ _ _ affected); [done|done|done|by rewrite Hid].
Qed.

Lemma insert_ok after_id item a : (has k script = false -> items = []) -> apply_operation script (InsertAfterOperation after_id item) project removed = Ok a ->
  a_id a ∈ affected' -> op_ok items f k script (a_script a) (a_removed a) affected'.
Proof.
  intros Hnone H Ha. pose proof Hr as (_ & Hf & Hd)%resolve_items_Ok. cbn [_apply_operation] in H. rewrite Hr in H. cbn [bind] in H.
  destruct (dict_get (u f) item) as [[| | | |[|c id]| |]|] eqn:Eid; try discriminate H. set (item_id := c :: id) in *.
  destruct (existsb (has_id py_repr f item_id) cur) eqn:Hdup; [discriminate H|]. apply bind_Ok in H as (j & _ & H). apply bind_Ok in H as (item1 & H1 & H).
  apply bind_Ok in H as (after & _ & H). apply Ok_inj in H as <-. cbn [a_script a_removed a_id] in *.
  destruct (restore_products_keeps k f (aget item_id removed) item Hf) as [Hrid Hrp].
  assert (id_text py_repr f item1 = item_id /\ products item1 = match aget item_id removed with Some r => products r | None => ([], None) end) as [Hid Hp].
  { destruct (settled_keeps k f (restore_products (aget item_id removed) item) item1 Hf) as [E1 E2].
    - intros key Hk. destruct (bool_decide (k = "video_units")); [|by apply Ok_inj in H1 as <-]. apply bind_Ok in H1 as (item2 & H2 & H1).
      rewrite (refresh_other _ _ _ _ _ H1 Hk). destruct (has "references" _); [by apply Ok_inj in H2 as <-|by eapply rederive_other].
    - rewrite E1, E2, Hrid, Hrp. split; [|done]. unfold id_text. by rewrite Eid. }
  assert (item_id ∉ _existing_ids py_repr cur f) as Hnew.
  { intros (d & Hin & Hd')%elem_of_ids. assert (existsb (has_id py_repr f item_id) cur = true); [|congruence]. apply existsb_exists. exists (JObj d).
    split; [by apply list_elem_of_In|]. unfold has_id. by apply bool_decide_eq_true. }
  assert (fine py_repr f items item_id (products item1)) as Hfine.
  { rewrite Hp. destruct (aget item_id removed) as [r|] eqn:Er; [apply (ok_removed _ _ _ _ _ _ Hok); by apply aget_Some_elem|]. right. split; [|done].
    intros Hin. destruct (ok_cover _ _ _ _ _ _ Hok _ Hin) as [?|[? E]]; [done|congruence]. }
  destruct (has k script) eqn:Hh.
  - apply (op_ok_intro _ _ _ _ cur); [done|done|]. rewrite <- Hid in *. by apply (edit_inv_insert _ _ _ _ _ affected).
  - exists []. unfold with_items. rewrite Hh. destruct Hd as [Hd|[_ Hd]]; [unfold has in Hh; by rewrite Hd in Hh|]. subst cur. rewrite (Hnone eq_refl) in *. split; [done|]. split; [|done].
    constructor.
    + constructor.
    + by intros d ?%not_elem_of_nil.
    + intros i d Hin. unfold adel in Hin. apply elem_of_where in Hin as [Hin _]. by apply (ok_removed _ _ _ _ _ _ Hok).
    + by intros i ?%not_elem_of_nil.
    + by intros d ?%not_elem_of_nil.
    + by intros d ?%not_elem_of_nil.
Qed.
End step.

Lemma apply_ok items f k script cur removed affected affected' project op a :
  resolve_items script None = Ok (cur, f, k) -> edit_inv py_repr f items cur removed affected -> affected ⊆ affected' -> (has k script = false -> items = []) ->
  apply_operation script op project removed = Ok a -> a_id a ∈ affected' -> op_ok items f k script (a_script a) (a_removed a) affected'.
Proof. intros Hr Hok Hs Hn H Ha. destruct op; [by eapply update_ok|by eapply insert_ok|by eapply move_ok|by eapply remove_ok]. Qed.

Lemma apply_all_ok items f k ops index project g g' cur :
  resolve_items (g_script g) None = Ok (cur, f, k) -> edit_inv py_repr f items cur (g_removed g) (g_affected g) -> (has k (g_script g) = false -> items = []) ->
  apply_all nfc is_decimal float_true float_eq py_repr ops index project g = Ok (inl g') ->
  op_ok items f k (g_script g) (g_script g') (g_removed g') (g_affected g').
Proof.
  revert index g cur. induction ops as [|op ops IH]; intros index g cur Hr Hok Hn H; cbn [apply_all] in H.
  - apply Ok_inj in H. injection H as <-. by exists cur.
  - destruct (_apply_operation _ _ _ _ _ (g_script g) op project (g_removed g)) as [a|e] eqn:Ea; [|destruct e; discriminate H].
    set (affected' := if bool_decide (a_id a ∈ g_affected g) then g_affected g else g_affected g ++ [a_id a]) in *.
    assert (g_affected g ⊆ affected' /\ a_id a ∈ affected') as [Hs Ha].
    { unfold affected'. destruct (decide (a_id a ∈ g_affected g)) as [E|E]; [rewrite bool_decide_eq_true_2 by done|rewrite bool_decide_eq_false_2 by done];
      split; [intros x Hx; exact Hx|exact E|intros x Hx; apply elem_of_app; by left|apply elem_of_app; right; by apply list_elem_of_singleton]. }
    destruct (apply_ok _ _ _ _ _ _ _ _ _ _ _ Hr Hok Hs Hn Ea Ha) as (cur' & Hr' & Hok' & Hh' & Hkeys).
    apply (IH _ _ cur') in H; [|exact Hr'|exact Hok'|cbn [g_script]; rewrite Hh'; exact Hn]. destruct H as (cur2 & Hr2 & Hok2 & Hh2 & Hkeys2).
    exists cur2. split; [done|]. split; [done|]. cbn [g_script] in *. split; [congruence|]. intros key Hk. rewrite Hkeys2, Hkeys by done. done.
Qed.
End operations.

(** ** Theorems *)

Section theorems.
Context (nfc : pystr -> pystr) (is_decimal : N -> bool).
Context (float_true : pystr -> bool) (float_eq : json -> json -> bool) (py_repr : json -> pystr).

(** C35: A batch of edits never loses or forges a product.  However items are updated,
    inserted, moved and removed, ids stay unique and the script keeps its kind and its
    other fields; every item of the candidate has exactly the products that the stored
    script holds under its id, also when it was removed and inserted again, and
    an id that the stored script does not have has none; items that no operation names are
    in the candidate as they were, and no others are. *)
Theorem batch_keeps_products ops project script items f k g :
  resolve_items script None = Ok (items, f, k) -> NoDup (_existing_ids py_repr items f) ->
  apply_all nfc is_decimal float_true float_eq py_repr ops 0 project (mkProgress script [] [] [] []) = Ok (inl g) ->
  exists items', resolve_items (g_script g) None = Ok (items', f, k) /\ NoDup (_existing_ids py_repr items' f)
  /\ (forall d, JObj d ∈ items' ->
      (exists d0, JObj d0 ∈ items /\ id_text py_repr f d0 = id_text py_repr f d /\ products d0 = products d)
      \/ (id_text py_repr f d ∉ _existing_ids py_repr items f /\ products d = ([], None)))
  /\ (forall d, id_text py_repr f d ∉ g_affected g -> JObj d ∈ items' <-> JObj d ∈ items)
  /\ (forall key, key <> u k -> dict_get key (g_script g) = dict_get key script).
Proof.
  intros Hr Hnd H. pose (g0 := mkProgress script [] [] [] []). assert (resolve_items (g_script g0) None = Ok (items, f, k)) as Hr0 by exact Hr.
  assert (has k (g_script g0) = false -> items = []) as Hn.
  { intros Hh. apply resolve_items_Ok in Hr as (_ & _ & [Hg|[_ E]]); [|done]. unfold has, g0 in Hh. cbn [g_script] in Hh. by rewrite Hg in Hh. }
  pose proof (apply_all_ok nfc is_decimal float_true float_eq py_repr items f k ops 0 project g0 g items Hr0 (edit_inv_start py_repr f items Hnd) Hn H)
    as (items' & Hr' & Hok & _ & Hkeys).
  exists items'. split; [done|]. split; [apply Hok|]. split; [apply Hok|]. split; [|exact Hkeys].
  intros d Hd. split; intros Hin; [by apply (ok_new _ _ _ _ _ _ Hok)|by apply (ok_kept _ _ _ _ _ _ Hok)].
Qed.

(** A unit that is not admitted was not admitted before, for the same speech. *)
Lemma no_speech_problems before speech_change last_touch id p : admission_problems before speech_change last_touch (id, p) = [] -> allowed p = true \/ aget id before = Some p.
Proof.
  unfold admission_problems. destruct (allowed p) eqn:Ha; [by left|]. case_bool_decide as Hb; [by right|]. cbv zeta. intros H. apply map_eq_nil in H. exfalso.
  destruct (existsb (fun q => negb (is_replan q)) (pr_problems p)) eqn:He.
  - apply existsb_exists in He as (q & Hq & Hn). rewrite where_nil in H. specialize (H q (proj2 (list_elem_of_In _ _) Hq)). congruence.
  - unfold allowed in Ha. by rewrite H in Ha.
Qed.

Section execute.
Context (sha256 : pystr -> pystr) (now : json).
Context (decimal : N -> option Z).
Context {Claims Msg : Type} (msg_key : Msg -> string) (_validation_location : Msg -> list path_part).
Context (structure : dict -> list Msg) (references : dict -> dict -> list Msg).
Context (admit_project : dict -> result unit) (settle_project : dict -> dict -> pystr -> result dict).
Context (prepare_commit : Z -> pystr -> list pystr -> list pystr -> result (Claims -> result Claims)).
Abbreviation preflight := (preflight nfc is_decimal float_true float_eq py_repr decimal msg_key _validation_location structure references prepare_commit).
Abbreviation execute := (execute nfc is_decimal float_true float_eq py_repr sha256 now decimal msg_key _validation_location structure references admit_project settle_project prepare_commit).
Abbreviation commit_all := (commit_all now decimal settle_project).
Abbreviation script_revision := (script_revision sha256).

Lemma preflight_rejects c resolved episode revision project script r : preflight c resolved episode revision project script = Ok (inl r) -> er_success r = false.
Proof.
  unfold ScriptBatch.preflight. case_goal; [by intros [= <-]|]. intros (expected & _ & H)%bind_Ok. revert H. cbv zeta. case_goal; [by intros [= <-]|]. destruct (_admissions nfc script) as [before|e].
  2: { destruct e; try done. by intros [= <-]. }
  intros (done_ & _ & H)%bind_Ok. destruct done_ as [g|[index op]]; [|by injection H as <-]. unfold check_candidate in H. cbv zeta in H. apply bind_Ok in H as (speech & _ & H).
  destruct speech; [|by injection H as <-]. destruct (structure (g_script g)) as [|m ms]; [|apply bind_Ok in H as (un & _ & H); apply bind_Ok in H as (ix & _ & H); by injection H as <-].
  apply bind_Ok in H as (errors & _ & H). destruct errors as [|m ms]; [|apply bind_Ok in H as (un & _ & H); apply bind_Ok in H as (ix & _ & H); by injection H as <-].
  destruct (manifest_commit _ resolved g) as [cm|e]; [done|]. destruct (is_manifest_failure e); [by injection H as <-|done].
Qed.

Lemma preflight_accepts c resolved episode revision project script a : preflight c resolved episode revision project script = Ok (inr a) ->
  c_expected_revision c = revision
  /\ exists before g, _admissions nfc script = Ok before
     /\ apply_all nfc is_decimal float_true float_eq py_repr (c_operations c) 0 project (mkProgress script [] [] [] []) = Ok (inl g)
     /\ ac_candidate a = g_script g /\ ac_affected a = g_affected g /\ manifest_commit prepare_commit resolved g = Ok (ac_commit a) /\ structure (g_script g) = []
     /\ exists units, _admissions nfc (g_script g) = Ok units /\ forall id p, (id, p) ∈ units -> allowed p = true \/ aget id before = Some p.
Proof.
  unfold ScriptBatch.preflight. destruct (decide (c_expected_revision c = revision)) as [Hrev|Hrev]; [rewrite bool_decide_eq_true_2 by done|by rewrite bool_decide_eq_false_2].
  cbn [negb]. intros (expected & _ & H)%bind_Ok. revert H. cbv zeta. case_goal; [done|]. destruct (_admissions nfc script) as [before|e]; [|by destruct e]. intros (done_ & Hg & H)%bind_Ok. split; [done|].
  destruct done_ as [g|[index op]]; [|done]. exists before, g. split; [done|]. split; [done|]. unfold check_candidate in H. cbv zeta in H. apply bind_Ok in H as (speech & Hs & H).
  destruct speech; [|done]. destruct (structure (g_script g)) as [|m ms] eqn:Hst; [|apply bind_Ok in H as (un & _ & H); by apply bind_Ok in H as (ix & _ & H)].
  apply bind_Ok in H as (errors & _ & H). destruct errors as [|m ms]; [|apply bind_Ok in H as (un & _ & H); by apply bind_Ok in H as (ix & _ & H)].
  destruct (manifest_commit _ resolved g) as [cm|e]; [|by destruct (is_manifest_failure e)].
  injection H as <-. split; [done|]. split; [done|]. split; [done|]. split; [done|]. unfold _new_speech_problems in Hs. apply bind_Ok in Hs as (units & Hu & Hs). apply Ok_inj in Hs.
  exists units. split; [done|]. intros id p Hin. rewrite flat_map_nil in Hs. by eapply no_speech_problems, (Hs _ Hin).
Qed.

(** The manifest after its commit, if the script has one. *)
Definition committed (commit : option (Claims -> result Claims)) (before after : Claims) : Prop :=
  match commit with None => after = before | Some run => run before = Ok after end.

Lemma commit_cases f file (a : @accepted Claims) (s : Store Claims) r s' : commit_all f file a s = (r, s') ->
  (r = Ok tt /\ s_scripts s' = <[file := stamp now (ac_candidate a)]> (s_scripts s) /\ settle_project (s_project s) (stamp now (ac_candidate a)) file = Ok (s_project s')
   /\ committed (ac_commit a) (s_claims s) (s_claims s') /\ existsb is_surrogate (dumps_sep true true (JObj (stamp now (ac_candidate a)))) = false)
  \/ (exists e, r = Raise e /\ (f_restore f = false -> s' = s)).
Proof.
  unfold ScriptBatch.commit_all. destruct (commit_writes now decimal settle_project f file a s) as [[[]|e] s1] eqn:Ew; unfold commit_writes in Ew; cbv zeta in Ew.
  - intros [<- <-]%pair_equal_spec. left. split; [done|]. destruct (consistent_name _ _ file); [|done]. destruct (existsb is_surrogate _) eqn:Esur; [done|].
    destruct (f_script f); [done|]. destruct (settle_project _ _ file) as [project'|] eqn:Ep; [|done]. destruct (f_project f); [done|].
    unfold committed. destruct (ac_commit a) as [commit|]; [destruct (commit _) eqn:Ecm|]; try done; apply pair_equal_spec in Ew as [_ <-]; done.
  - intros H. right. assert (s_claims s1 = s_claims s) as Ec.
    { destruct (consistent_name _ _ file); [|by apply pair_equal_spec in Ew as [_ <-]]. destruct (existsb is_surrogate _); [by apply pair_equal_spec in Ew as [_ <-]|].
      destruct (f_script f); [by apply pair_equal_spec in Ew as [_ <-]|]. destruct (settle_project _ _ file); [|by apply pair_equal_spec in Ew as [_ <-]].
      destruct (f_project f); [by apply pair_equal_spec in Ew as [_ <-]|]. destruct (ac_commit a) as [commit|]; [|done]. destruct (commit _); [done|]. by apply pair_equal_spec in Ew as [_ <-]. }
    destruct (f_restore f); apply pair_equal_spec in H as [<- <-]; [by exists RollbackIncomplete|]. exists e. split; [done|]. intros _. rewrite Ec. by destruct s.
Qed.

Lemma answer_fails resolved episode revision e r : answer resolved episode revision e = Ok r -> er_success r = false.
Proof. destruct e; cbn [answer]; try done; by intros [= <-]. Qed.

(** C36: A batch of edits is all or nothing and never overwrites what its author has not
    seen.  A command that succeeds found the stored script at the revision it expected;
    the script then stored is the candidate of all its operations in order, which is
    structurally valid and in which every unit is admitted to speech or has exactly
    the defects it had; its revision is the one reported, and the project and the manifest
    are settled with it.  A command that is
    refused, or that fails while committing, leaves script, project and manifest as they
    were, unless the old files cannot be put back. *)
Theorem batch_all_or_nothing_edit c verdict peek f s r s' :
  execute c verdict peek f s = (r, s') ->
  match r with
  | Ok res =>
      if er_success res then
        exists stored before g units commit,
          s_scripts s !! er_script res = Some stored
          /\ script_revision (migrate_document (u "video_units") None stored).1.1 = Ok (c_expected_revision c) /\ er_before_revision res = c_expected_revision c
          /\ apply_all nfc is_decimal float_true float_eq py_repr (c_operations c) 0 (s_project s)
               (mkProgress (migrate_document (u "video_units") None stored).1.1 [] [] [] []) = Ok (inl g)
          /\ er_affected_ids res = g_affected g /\ structure (g_script g) = []
          /\ _admissions nfc (migrate_document (u "video_units") None stored).1.1 = Ok before /\ _admissions nfc (g_script g) = Ok units
          /\ (forall id p, (id, p) ∈ units -> allowed p = true \/ aget id before = Some p)
          /\ s_scripts s' = <[er_script res := stamp now (g_script g)]> (s_scripts s) /\ script_revision (stamp now (g_script g)) = Ok (er_revision res)
          /\ settle_project (s_project s) (stamp now (g_script g)) (er_script res) = Ok (s_project s')
          /\ manifest_commit prepare_commit (er_script res) g = Ok commit /\ committed commit (s_claims s) (s_claims s')
      else f_restore f = false -> s' = s
  | Raise _ => f_restore f = false -> s' = s
  end.
Proof.
  assert (forall x y z e, match answer x y z e with Ok res => er_success res = false | Raise _ => True end) as Hans.
  { intros x y z e. destruct (answer x y z e) eqn:E; [by eapply answer_fails|done]. }
  assert (forall x y z e (P : Prop) (Q : ScriptBatchEditResult -> Prop), P ->
    match answer x y z e with Ok res => if er_success res then Q res else P | Raise _ => P end) as Hfail.
  { intros x y z e P Q HP. pose proof (Hans x y z e) as H. destruct (answer x y z e); [by rewrite H|done]. }
  unfold ScriptBatch.execute. destruct verdict as [reason|]; [by intros [<- <-]%pair_equal_spec|]. cbv zeta.
  destruct (resolve_script_file _ c peek) as [first|e]; [|intros [<- <-]%pair_equal_spec; by apply Hfail].
  destruct (admit_project (s_project s)) as [|e]; [|intros [<- <-]%pair_equal_spec; by apply Hfail].
  destruct (resolve_script_file _ c (s_project s)) as [resolved|e]; [|intros [<- <-]%pair_equal_spec; by apply Hfail].
  case_bool_decide; cbn [negb]; [|intros [<- <-]%pair_equal_spec; by apply Hfail].
  destruct (s_scripts s !! resolved) as [stored|] eqn:Hstored; [|by intros [<- <-]%pair_equal_spec]. set (script := (migrate_document _ None stored).1.1).
  destruct (script_revision script) as [revision|e] eqn:Hrev; [|intros [<- <-]%pair_equal_spec; by apply Hfail].
  set (episode := match c_episode c with Some e => Some e | None => _ end).
  destruct (preflight c resolved episode revision (s_project s) script) as [[rej|acc]|e] eqn:Hpre.
  - intros [<- <-]%pair_equal_spec. by rewrite (preflight_rejects _ _ _ _ _ _ _ Hpre).
  - destruct (preflight_accepts _ _ _ _ _ _ _ Hpre) as (Hexp & before & g & Hadm & Hg & Hcand & Haff & Hm & Hst & units & Hunits & Hsp).
    destruct (commit_all f resolved acc s) as [rc sc] eqn:Hc. destruct (commit_cases _ _ _ _ _ _ Hc) as [(-> & Hscr & Hset & Hcl & Hsur)|(e & -> & Hback)].
    + rewrite Hcand in *. assert (script_revision (stamp now (g_script g)) = Ok (u "sha256-v1:" ++ sha256 (dumps_sep true true (JObj (stamp now (g_script g)))))) as Hafter.
      { unfold ScriptBatch.script_revision, content_fingerprint_of_data, canonical_json_digest. cbv zeta. by rewrite Hsur. }
      rewrite Hafter. intros [<- <-]%pair_equal_spec. cbn [er_success er_script er_before_revision er_affected_ids er_revision].
      exists stored, before, g, units, (ac_commit acc). fold script. rewrite Hexp. repeat (split; [done|]). done.
    + intros [<- <-]%pair_equal_spec. by apply Hfail.
  - intros [<- <-]%pair_equal_spec. by apply Hfail.
Qed.
End execute.
End theorems.

(** ** Examples *)

Definition forged (id : string) : dict := [(u "segment_id", JStr (u id)); (u "video_prompt", JObj [(u "dialogue", JArr [])]); (u "novel_text", JStr (u "text")); (u "generated_assets", JObj [(u "video", JStr (u "x.mp4"))])].
Definition sample_operations : list operation :=
  [RemoveOperation (u "E1S01"); InsertAfterOperation (Some (u "E1S01_1")) (forged "E1S01"); InsertAfterOperation None (forged "E1S02"); MoveAfterOperation (u "E1S01_1") None].

Abbreviation sample_apply := (apply_all (fun s => s) (fun _ => false) (fun _ => false) (fun _ _ => false) (fun _ => [])).
Definition sample_batch : option progress := match sample_apply sample_operations 0 [] (mkProgress sample_script [] [] [] []) with Ok (inl g) => Some g | _ => None end.

(** An item that was removed and inserted again has its own products, not those
    that the command gives it. *)
Example sample_candidate : (fun g => (resolve_items (g_script g) None, g_affected g)) <$> sample_batch
  = Some (Ok ([sample_item "E1S01_1" []; JObj (dict_set (u "generated_assets") (JObj []) (forged "E1S02"));
               JObj (dict_set (u "generated_assets") (JObj [(u "video", JStr (u "a.mp4"))]) (forged "E1S01"))], "segment_id", "segments"),
          [u "E1S01"; u "E1S02"; u "E1S01_1"]).
Proof. vm_compute. reflexivity. Qed.

Lemma batch_keeps_products_witness :
  exists g items', sample_batch = Some g /\ resolve_items (g_script g) None = Ok (items', "segment_id", "segments")
  /\ NoDup (_existing_ids (fun _ => []) items' "segment_id").
Proof.
  eexists. 
  edestruct (batch_keeps_products (fun s => s) (fun _ => false) (fun _ => false) (fun _ _ => false) (fun _ => []) sample_operations [] sample_script) as (items' & Hr & Hnd & _);
    [reflexivity|apply (bool_decide_unpack _); vm_compute; exact I|vm_compute; reflexivity|].
  exists items'. split; [vm_compute; reflexivity|]. split; [exact Hr|exact Hnd].
Defined.

Definition sample_store : Store nat := mkStore {[ u "episode_1.json" := dict_set (u "episode") (JInt 1) sample_script ]} [] 0.
Abbreviation sample_execute := (execute (fun s => s) (fun _ => false) (fun _ => false) (fun _ _ => false) (fun _ => []) (fun s => u "digest") JNull sample_digit
  (fun _ : unit => ""%string) (fun _ => []) (fun _ => []) (fun _ _ => []) (fun _ => Ok tt) (fun p _ _ => Ok p) (fun _ _ _ _ => Ok (fun n => Ok (S n)))).
Definition sample_command : ScriptBatchEditCommand := mkCommand (Some (u "./episode_1.json")) None None (u "sha256-v1:digest") sample_operations.

Lemma batch_all_or_nothing_edit_witness :
  exists res s', sample_execute sample_command None [] (mkFaults false false false) sample_store = (Ok res, s') /\ er_success res = true /\ s_claims s' = 1
  /\ exists script, s_scripts s' = <[u "episode_1.json" := script]> (s_scripts sample_store).
Proof.
  eexists _, _. split; [vm_compute; reflexivity|]. split; [reflexivity|]. split; [reflexivity|].
  epose proof (batch_all_or_nothing_edit (fun s => s) (fun _ => false) (fun _ => false) (fun _ _ => false) (fun _ => []) (fun s => u "digest") JNull sample_digit
    (fun _ : unit => ""%string) (fun _ => []) (fun _ => []) (fun _ _ => []) (fun _ => Ok tt) (fun p _ _ => Ok p) (fun _ _ _ _ => Ok (fun n => Ok (S n)))
    sample_command None [] (mkFaults false false false) sample_store _ _ ltac:(vm_compute; reflexivity)) as H.
  cbv beta iota delta [er_success] in H. destruct H as (stored & before & g & units & commit & _ & _ & _ & _ & _ & _ & _ & _ & _ & Hs & _). eexists. exact Hs.
Defined.
