(* ===== verification/Narration.v ===== *)
(** * Narration of a video

    [lib/narration_delivery.py] with [ArtifactBasis] of [lib/artifact_manifest.py]: whether
    a request that wants the recorded narration in its video may be paid for, and for how
    many seconds.  The state is that of any storage of claims ([Adapter]).  A duration
    is the rational value of a finite float; the resolver of the voice settings and the
    probe of the audio file are arguments. *)

From S2P Require Import Prelude Json Queue Speech Guards EpisodeLedger ScriptReview VersionManager ArtifactKey ArtifactStore ArtifactAdapter ArtifactClaims.
From Stdlib Require Import QArith.
Import DurationSlots.
Local Open Scope nat_scope.

(** ** Canonical bases *)

Section basis.
Context (sha256 : pystr -> pystr).

(** [_normalize_json]: numbers must be finite. *)
Fixpoint finite_json (j : json) : bool :=
  match j with
  | JFloat l => negb (bool_decide (l = u "NaN") || bool_decide (l = u "Infinity") || bool_decide (l = u "-Infinity"))
  | JArr items => List.forallb finite_json items
  | JObj members => List.forallb (fun kv => finite_json kv.2) members
  | _ => true
  end.

(** [ArtifactBasis.build], and the descriptor of the basis. *)
Definition build_basis (basis_kind : pystr) (version : Z) (inputs : dict) : result ArtifactBasisDescriptor :=
  if bool_decide (basis_kind = []) then Raise ValueError
  else if (version <? 1)%Z then Raise ValueError
  else if negb (finite_json (JObj inputs)) then Raise ValueError
  else
    let! d := canonical_json_digest sha256 (JObj [(u "inputs", JObj inputs); (u "kind", JStr basis_kind); (u "kind_version", JInt version)]) in
    Ok (mkDescriptor basis_kind version (u "sha256-v1:" ++ d)).
End basis.

(** ** Requests and their answers *)

Module NarrationTtsStatus.
Inductive t := NOT_APPLICABLE | NOT_CONFIGURED | MISSING | GENERATING | STALE | CURRENT | UNMEASURABLE | BLOCKED.
#[global] Instance eq_dec : EqDecision t.
Proof. solve_decision. Defined.
End NarrationTtsStatus.

(** A measured duration: infinities and NaN are not finite. *)
Inductive pyfloat := Fin (q : Q) | NotFinite.

Record TtsSynthesisSettings := mkSettings { provider_id : pystr; model_id : pystr; voice : pystr; speed : option pystr }.

Record NarrationAudioEvidence := mkEvidence { comparison : ArtifactComparison; audio_present : bool; duration_seconds : option pyfloat }.

Inductive param := PInt (z : Z) | PNumber (q : Q) | PText (s : pystr) | PTier (a : Adjustment) | PNone.

Record NarrationDeliveryProblem := mkDeliveryProblem {
  np_code : string;
  np_reason : string;
  np_action : string;
  np_locations : list SpeechFieldLocation;
  np_params : list (string * param);
  np_blocking : bool
}.

Record NarrationDeliveryPreparation := mkDelivery {
  nd_delivery : NarrationDelivery;
  nd_unit_id : pystr;
  nd_speech_mode : option SpeechMode;
  nd_tts_status : NarrationTtsStatus.t;
  nd_artifact_path : pystr;
  nd_basis_digest : option pystr;
  nd_actual_duration : option Q;
  nd_problems : list NarrationDeliveryProblem
}.

Definition delivery_allowed (p : NarrationDeliveryPreparation) : bool := negb (existsb np_blocking (nd_problems p)).

Definition duration_floor (p : NarrationDeliveryPreparation) : option Q :=
  if bool_decide (nd_delivery p = USE_TTS) && bool_decide (nd_tts_status p = NarrationTtsStatus.CURRENT) then nd_actual_duration p else None.

Record VideoRequestCostFacts := mkCostFacts {
  vf_provider_id : pystr;
  vf_model_id : pystr;
  vf_resolution : option pystr;
  vf_duration_seconds : Z;
  vf_generate_audio : bool
}.

Record NarratedVideoDurationPreparation := mkNarrated {
  nv_narration : NarrationDeliveryPreparation;
  nv_planned : Z;
  nv_duration_input : Q;
  nv_request_duration : option Z;
  nv_adjustment : option Adjustment;
  nv_problems : list NarrationDeliveryProblem;
  nv_current_visual : option Z;
  nv_current_reusable_visual : option Z
}.

Definition duration_allowed (p : NarratedVideoDurationPreparation) : bool :=
  bool_decide (is_Some (nv_request_duration p)) && negb (existsb np_blocking (nv_problems p)).

Definition _problem (code reason action : string) (path : list path_item) (params : list (string * param)) : NarrationDeliveryProblem :=
  mkDeliveryProblem code reason action [at_path path] params true.

Definition video_request_cost_unavailable_problem (facts : VideoRequestCostFacts) : NarrationDeliveryProblem :=
  _problem "video_request_cost_unavailable" "video_request_cost_unavailable" "retry_cost_estimate" [Key "duration_seconds"]
    [("provider", PText (vf_provider_id facts)); ("model", PText (vf_model_id facts)); ("request_duration", PInt (vf_duration_seconds facts))].

Definition _speech_problems (preparation : SpeechPreparation) : list NarrationDeliveryProblem :=
  map (fun p => mkDeliveryProblem (speech_code_value (sp_code p)) (speech_reason_value (sp_reason p)) (speech_action_value (sp_action p)) (sp_locations p) [] true)
    (pr_problems preparation).

(** ** The state of the narration *)

Section narration.
Context (nfc sha256 : pystr -> pystr).

(** The lines of the narrator in canonical form. *)
Definition narrator_part (x : SpeechUtterance) : option pystr :=
  match su_owner x with
  | NARRATOR => or_none (strip (nfc (unify_newlines (su_text x))))
  | _ => None
  end.

Definition canonical_narration_text (preparation : SpeechPreparation) : pystr := join [10%N] (omap narrator_part (pr_utterances preparation)).

Definition build_narration_audio_basis_from_canonical_text (text : pystr) (settings : TtsSynthesisSettings) : result ArtifactBasisDescriptor :=
  if bool_decide (text = []) then Raise ValueError
  else
    build_basis sha256 (u "narration-delivery/tts-audio") 1
      [(u "text", JStr text); (u "provider_id", JStr (provider_id settings)); (u "model_id", JStr (model_id settings)); (u "voice", JStr (voice settings));
       (u "speed", match speed settings with Some l => JFloat l | None => JNull end)].

Definition is_narration (preparation : SpeechPreparation) : bool := bool_decide (pr_mode preparation = Some NARRATOR_VOICEOVER).

Definition build_narration_audio_basis (preparation : SpeechPreparation) (settings : TtsSynthesisSettings) : result ArtifactBasisDescriptor :=
  if negb (bool_decide (pr_problems preparation = [])) then Raise ValueError
  else if negb (is_narration preparation) then Raise ValueError
  else if bool_decide (canonical_narration_text preparation = []) then Raise ValueError
  else build_narration_audio_basis_from_canonical_text (canonical_narration_text preparation) settings.

Definition AUDIO : list path_item := [Key "generated_assets"; Key "narration_audio"].

(** Status, problem of a request that needs the audio, and duration. *)
Definition audio_state (evidence : option NarrationAudioEvidence) : NarrationTtsStatus.t * list NarrationDeliveryProblem * option Q :=
  match evidence with
  | None => (NarrationTtsStatus.MISSING, [_problem "tts_missing" "current_tts_audio_missing" "generate_tts" AUDIO []], None)
  | Some e =>
      if bool_decide (status (comparison e) = ArtifactStatus.BLOCKED)
      then (NarrationTtsStatus.BLOCKED, [_problem "tts_state_unavailable" "tts_artifact_state_blocked" "repair_tts_state" AUDIO []], None)
      else if negb (audio_present e) then (NarrationTtsStatus.MISSING, [_problem "tts_missing" "current_tts_audio_missing" "generate_tts" AUDIO []], None)
      else if negb (bool_decide (status (comparison e) = ArtifactStatus.CURRENT))
      then (NarrationTtsStatus.STALE, [_problem "tts_stale" "tts_basis_changed" "regenerate_tts" AUDIO []], None)
      else
        let unmeasurable := (NarrationTtsStatus.UNMEASURABLE, [_problem "tts_duration_unavailable" "tts_media_duration_unavailable" "repair_tts_audio" AUDIO []], None) in
        match duration_seconds e with
        | Some (Fin q) => if Qle_bool q 0 then unmeasurable else (NarrationTtsStatus.CURRENT, [], Some q)
        | _ => unmeasurable
        end
  end.

Definition needing (delivery : NarrationDelivery) (l : list NarrationDeliveryProblem) : list NarrationDeliveryProblem :=
  match delivery with USE_TTS => l | POST_PRODUCTION => [] end.

(** A synthesis under way replaces what is known of the audio. *)
Definition while_generating (delivery : NarrationDelivery) (st : NarrationTtsStatus.t) (actual : option Q) (problems : list NarrationDeliveryProblem)
    : NarrationTtsStatus.t * option Q * list NarrationDeliveryProblem :=
  if bool_decide (st ∈ [NarrationTtsStatus.MISSING; NarrationTtsStatus.STALE; NarrationTtsStatus.UNMEASURABLE; NarrationTtsStatus.CURRENT]) then
    let kept := where_ (fun p => negb (bool_decide (np_code p ∈ ["tts_missing"; "tts_stale"; "tts_duration_unavailable"]))) problems in
    (NarrationTtsStatus.GENERATING, None,
     kept ++ needing delivery (if bool_decide (length kept = 0) then [_problem "tts_generating" "tts_generation_in_progress" "wait_for_tts" AUDIO []] else []))
  else (st, actual, problems).

Definition prepare_narration_delivery (delivery : NarrationDelivery) (preparation : SpeechPreparation) (artifact_path : pystr)
    (settings : option TtsSynthesisSettings) (evidence : option NarrationAudioEvidence) (tts_in_progress : bool) : result NarrationDeliveryPreparation :=
  let problems := _speech_problems preparation in
  let! found :=
    if negb (is_narration preparation) then
      Ok (NarrationTtsStatus.NOT_APPLICABLE,
          problems ++ needing delivery (if bool_decide (length problems = 0)
            then [_problem "tts_not_applicable" "unit_has_no_narrator_voiceover" "choose_post_production" [Key "narration_delivery"] []] else []), None, None)
    else
      match settings with
      | None =>
          Ok (NarrationTtsStatus.NOT_CONFIGURED,
              problems ++ needing delivery [_problem "tts_not_configured" "tts_provider_unavailable" "configure_tts" [Key "generation_settings"; Key "audio_backend"] []], None, None)
      | Some st =>
          let! basis := build_narration_audio_basis preparation st in
          let '(state, extra, actual) := audio_state evidence in
          Ok (state, problems ++ needing delivery extra, Some (digest basis), actual)
      end in
  let '(state, problems, basis_digest, actual) := found in
  let '(state, actual, problems) := if tts_in_progress then while_generating delivery state actual problems else (state, actual, problems) in
  Ok (mkDelivery delivery (pr_unit_id preparation) (pr_mode preparation) state artifact_path basis_digest actual problems).

(** ** The duration of the video *)

Definition not_positive (d : option Z) : bool := match d with Some z => (z <=? 0)%Z | None => false end.

Definition prepare_narrated_video_duration (narration : NarrationDeliveryPreparation) (planned : Z) (supported : list Z) (confirmed : option Z)
    (current_visual current_reusable : option Z) : result NarratedVideoDurationPreparation :=
  if (planned <=? 0)%Z then Raise ValueError
  else if not_positive current_visual || not_positive current_reusable then Raise ValueError
  else
    let durations := isort Z.leb (remove_dups (where_ (fun d => (0 <? d)%Z) supported)) in
    let floor := default 0%Q (duration_floor narration) in
    let duration_input := if Qle_bool floor (inject_Z planned) then inject_Z planned else floor in
    let problems := nd_problems narration in
    match durations with
    | [] =>
        Ok (mkNarrated narration planned duration_input None None
              (problems ++ [_problem "video_supported_durations_missing" "video_duration_tiers_unavailable" "configure_video_model" [Key "duration_seconds"] []])
              current_visual current_reusable)
    | _ =>
        let slot := resolve_duration_slot duration_input durations in
        let '(request, problems) :=
          match problems with
          | _ :: _ => (Some (seconds slot), problems)
          | [] =>
              if match adjustment slot with DOWN => true | _ => false end then
                (None, [_problem "needs_replan" "request_duration_exceeds_maximum" "replan_unit" [Key "duration_seconds"]
                          [("duration_input", PNumber duration_input); ("maximum_duration", PInt (seconds slot))]])
              else if negb (bool_decide (seconds slot = default planned current_visual)) && negb (bool_decide (confirmed = Some (seconds slot))) then
                (Some (seconds slot),
                 [_problem "reference_duration_confirmation_required" "request_duration_uses_different_tier" "confirm_duration" [Key "duration_seconds"]
                    [("script_duration", PInt planned); ("duration_input", PNumber duration_input); ("request_duration", PInt (seconds slot));
                     ("adjustment", PTier (adjustment slot)); ("current_visual_duration", match current_visual with Some z => PInt z | None => PNone end)]])
              else (Some (seconds slot), [])
          end in
        Ok (mkNarrated narration planned duration_input request (Some (adjustment slot)) problems current_visual current_reusable)
    end.

Definition video_request_reuses_current_visual (request current_reusable : option Z) : bool :=
  bool_decide (is_Some request) && bool_decide (current_reusable = request).

Definition video_request_requires_exact_quote (request : option Z) (planned : Z) (current_visual current_reusable : option Z) : bool :=
  if negb (bool_decide (is_Some request)) || video_request_reuses_current_visual request current_reusable then false
  else bool_decide (is_Some current_visual) || negb (bool_decide (request = Some planned)).

(** The preparation with one more problem. *)
Definition add_output_problem (p : NarratedVideoDurationPreparation) (x : NarrationDeliveryProblem) : NarratedVideoDurationPreparation :=
  mkNarrated (nv_narration p) (nv_planned p) (nv_duration_input p) (nv_request_duration p) (nv_adjustment p) (nv_problems p ++ [x])
    (nv_current_visual p) (nv_current_reusable_visual p).

Definition prepare_narrated_video_output (p : NarratedVideoDurationPreparation) (actual : option pyfloat) : result NarratedVideoDurationPreparation :=
  if negb (bool_decide (nd_delivery (nv_narration p) = USE_TTS)) || negb (duration_allowed p) then Ok p
  else
    match nd_actual_duration (nv_narration p) with
    | None => Raise ValueError
    | Some tts_duration =>
        let unavailable :=
          add_output_problem p (_problem "video_duration_unavailable" "generated_video_duration_unavailable" "regenerate_video" [Key "generated_assets"; Key "video_clip"]
                                  [("tts_duration", PNumber tts_duration)]) in
        match actual with
        | Some (Fin q) =>
            if Qle_bool q 0 then Ok unavailable
            else if negb (Qle_bool tts_duration q) then
              Ok (add_output_problem p (_problem "video_shorter_than_tts" "generated_video_shorter_than_current_tts" "regenerate_video"
                                          [Key "generated_assets"; Key "video_clip"] [("video_duration", PNumber q); ("tts_duration", PNumber tts_duration)]))
            else Ok p
        | _ => Ok unavailable
        end
    end.

(** ** From the present project *)

Section current.
Context (casefold : pystr -> pystr) {S : Type} `{Adapter S}.

Definition prepare_current_narration_delivery (episode : Z) (preparation : SpeechPreparation) (delivery : NarrationDelivery)
    (resolved : result TtsSynthesisSettings) (probe : pystr -> result (option pyfloat)) (tts_in_progress : bool) : act S NarrationDeliveryPreparation :=
  do! path := lift (resource_relative_path "audio" (pr_unit_id preparation)) in
  let without_settings := lift (prepare_narration_delivery delivery preparation path None None false) in
  match delivery with
  | POST_PRODUCTION => without_settings
  | USE_TTS =>
      if negb (bool_decide (pr_problems preparation = [])) || negb (is_narration preparation) then without_settings
      else
        match resolved with
        | Raise ValueError => without_settings
        | Raise e => lift (Raise e)
        | Ok settings =>
            do! basis := lift (build_narration_audio_basis preparation settings) in
            do! key := lift (episode_audio nfc (JInt episode) (JStr (pr_unit_id preparation))) in
            do! c := compare_entry casefold key path (Some (mkEntry path (digest basis))) in
            do! o := seen_now path in
            do! duration := lift (if bool_decide (status c = ArtifactStatus.CURRENT) && present o
                                  then match probe path with Raise FileNotFoundError => Ok None | r => r end else Ok None) in
            lift (prepare_narration_delivery delivery preparation path (Some settings) (Some (mkEvidence c (present o) duration)) tts_in_progress)
        end
  end.

Definition prepare_current_narrated_video_duration (episode : Z) (preparation : SpeechPreparation) (delivery : NarrationDelivery) (planned : Z) (supported : list Z)
    (confirmed : option Z) (resolved : result TtsSynthesisSettings) (probe : pystr -> result (option pyfloat)) (tts_in_progress : bool) (current_visual : option Z)
    : act S NarratedVideoDurationPreparation :=
  do! prepared := prepare_current_narration_delivery episode preparation delivery resolved probe tts_in_progress in
  lift (prepare_narrated_video_duration prepared planned supported confirmed current_visual None).

Definition register_narration_audio_transactionally (episode : Z) (preparation : SpeechPreparation) (settings : TtsSynthesisSettings) : act S ArtifactBasisDescriptor :=
  do! path := lift (resource_relative_path "audio" (pr_unit_id preparation)) in
  do! key := lift (episode_audio nfc (JInt episode) (JStr (pr_unit_id preparation))) in
  do! basis := lift (build_narration_audio_basis preparation settings) in
  do! previous := get_entry key in
  do! _ := guarded (register_descriptor key path basis) (restore_entry key (mkEntry path (digest basis)) previous) in
  ret basis.
End current.
End narration.

(** ** What an answer means *)

Section answers.
Context (nfc sha256 : pystr -> pystr).
Abbreviation prepare_narration_delivery := (prepare_narration_delivery nfc sha256).
Abbreviation build_narration_audio_basis := (build_narration_audio_basis nfc sha256).

Definition blocks (l : list NarrationDeliveryProblem) : Prop := Forall (fun x => np_blocking x = true) l.

Lemma blocks_needing delivery l : blocks l -> blocks (needing delivery l).
Proof. destruct delivery; [constructor|done]. Qed.

Lemma blocks_speech preparation : blocks (_speech_problems preparation).
Proof. apply Forall_forall. by intros x (p & -> & _)%list_elem_of_fmap. Qed.

Lemma blocks_audio evidence : blocks (audio_state evidence).1.2.
Proof. destruct evidence as [e|]; cbn [audio_state]; cbv zeta; repeat case_goal; repeat constructor. all: destruct (duration_seconds e) as [[q|]|]; repeat case_goal; repeat constructor. Qed.

Lemma blocks_generating delivery st actual problems : blocks problems -> blocks (while_generating delivery st actual problems).2.
Proof.
  intros Hb. unfold while_generating. cbv zeta. case_goal; [|done]. cbn [snd]. apply Forall_app. split.
  - apply Forall_forall. intros x [Hx _]%elem_of_where. by eapply Forall_forall in Hb.
  - apply blocks_needing. case_goal; repeat constructor.
Qed.

(** Every problem blocks, so a request is allowed when there is none. *)
Lemma delivery_blocks delivery preparation path settings evidence busy p :
  prepare_narration_delivery delivery preparation path settings evidence busy = Ok p -> blocks (nd_problems p).
Proof.
  unfold Narration.prepare_narration_delivery. cbv zeta. intros (found & Hf & H)%bind_Ok. destruct found as [[[st problems] d] actual].
  assert (blocks problems) as Hb.
  { destruct (negb (is_narration preparation)).
    - apply Ok_inj in Hf. injection Hf as _ <- _ _. apply Forall_app. split; [apply blocks_speech|apply blocks_needing]. case_goal; repeat constructor.
    - destruct settings as [cfg|].
      + apply bind_Ok in Hf as (basis & _ & Hf). pose proof (blocks_audio evidence) as Ha. destruct (audio_state evidence) as [[a b] c]. apply Ok_inj in Hf. injection Hf as _ <- _ _.
        apply Forall_app. split; [apply blocks_speech|by apply blocks_needing].
      + apply Ok_inj in Hf. injection Hf as _ <- _ _. apply Forall_app. split; [apply blocks_speech|apply blocks_needing; repeat constructor]. }
  destruct busy.
  - pose proof (blocks_generating delivery st actual problems Hb) as Hg. destruct (while_generating delivery st actual problems) as [[a b] c]. by apply Ok_inj in H as <-.
  - by apply Ok_inj in H as <-.
Qed.

Lemma not_blocked l : blocks l -> negb (existsb np_blocking l) = true -> l = [].
Proof. destruct 1 as [|x l Hx _]; [done|]. cbn [existsb]. by rewrite Hx. Qed.

Lemma audio_ready evidence st actual : audio_state evidence = (st, [], actual) ->
  st = NarrationTtsStatus.CURRENT /\ exists e q, evidence = Some e /\ status (comparison e) = ArtifactStatus.CURRENT /\ duration_seconds e = Some (Fin q)
  /\ (0 < q)%Q /\ actual = Some q.
Proof.
  destruct evidence as [e|]; cbn [audio_state]; [|by intros [= ]]. cbv zeta. case_goal; [by intros [= ]|]. case_goal; [by intros [= ]|].
  destruct (bool_decide (status (comparison e) = ArtifactStatus.CURRENT)) eqn:Hc; [apply bool_decide_eq_true in Hc|by intros [= ]].
  cbn [negb]. destruct (duration_seconds e) as [[q|]|] eqn:Hq; [|by intros [= ]..]. destruct (Qle_bool q 0) eqn:Hle; [by intros [= ]|].
  intros [= <- <-]. split; [done|]. exists e, q. split; [done|]. split; [done|]. split; [done|]. split; [|done]. apply Qnot_le_lt. intros H%Qle_bool_iff. congruence.
Qed.

Lemma audio_current path q : Qle_bool q 0 = false ->
  audio_state (Some (mkEvidence (mkComparison ArtifactStatus.CURRENT path None) true (Some (Fin q)))) = (NarrationTtsStatus.CURRENT, [], Some q).
Proof. intros Hq. cbn [audio_state comparison status audio_present duration_seconds negb]. rewrite bool_decide_eq_false_2, bool_decide_eq_true_2 by done. cbn [negb]. by rewrite Hq. Qed.

Lemma audio_stale path d : audio_state (Some (mkEvidence (mkComparison ArtifactStatus.STALE path None) true d))
  = (NarrationTtsStatus.STALE, [_problem "tts_stale" "tts_basis_changed" "regenerate_tts" AUDIO []], None).
Proof. cbn [audio_state comparison status audio_present duration_seconds negb]. by rewrite !bool_decide_eq_false_2. Qed.

(** A request for the narration that is not refused has a current, measured audio. *)
Lemma delivery_ready preparation path settings evidence busy p :
  prepare_narration_delivery USE_TTS preparation path settings evidence busy = Ok p -> nd_problems p = [] ->
  busy = false /\ pr_problems preparation = [] /\ pr_mode preparation = Some NARRATOR_VOICEOVER
  /\ exists cfg basis e q, settings = Some cfg /\ build_narration_audio_basis preparation cfg = Ok basis /\ evidence = Some e
     /\ status (comparison e) = ArtifactStatus.CURRENT /\ duration_seconds e = Some (Fin q) /\ (0 < q)%Q /\ duration_floor p = Some q.
Proof.
  unfold Narration.prepare_narration_delivery. cbv zeta. intros (found & Hf & H)%bind_Ok Hnone. destruct found as [[[st problems] d] actual].
  assert (problems = [] -> st = NarrationTtsStatus.CURRENT /\ pr_problems preparation = [] /\ pr_mode preparation = Some NARRATOR_VOICEOVER
    /\ exists cfg basis e q, settings = Some cfg /\ build_narration_audio_basis preparation cfg = Ok basis /\ evidence = Some e
       /\ status (comparison e) = ArtifactStatus.CURRENT /\ duration_seconds e = Some (Fin q) /\ (0 < q)%Q /\ actual = Some q) as Hready.
  { intros ->. destruct (is_narration preparation) eqn:Hm; cbn [negb needing] in Hf; [apply bool_decide_eq_true in Hm|].
    2: { apply Ok_inj in Hf. injection Hf as _ Hf _ _. apply app_nil in Hf as [E Hf]. rewrite E, bool_decide_eq_true_2 in Hf by done. discriminate Hf. }
    destruct settings as [cfg|]; [|apply Ok_inj in Hf; injection Hf as _ Hf _ _; by apply app_nil in Hf as [_ Hf]].
    apply bind_Ok in Hf as (basis & Hb & Hf). destruct (audio_state evidence) as [[a b] c] eqn:Ha. apply Ok_inj in Hf. injection Hf as -> [Hs ->]%app_nil _ ->.
    apply map_eq_nil in Hs. destruct (audio_ready _ _ _ Ha) as (-> & e & q & -> & He & Hq & Hpos & ->). split; [done|]. split; [done|]. split; [done|]. by exists cfg, basis, e, q. }
  assert (problems = [] /\ busy = false) as [-> ->].
  { destruct busy; [|by apply Ok_inj in H as <-]. exfalso. unfold while_generating in H. cbv zeta in H. destruct (bool_decide (st ∈ _)) eqn:Hst.
    - apply Ok_inj in H as <-. cbn [nd_problems needing] in Hnone. destruct (where_ _ problems) as [|x l]; [|discriminate Hnone]. rewrite bool_decide_eq_true_2 in Hnone by done. discriminate Hnone.
    - apply Ok_inj in H as <-. cbn [nd_problems] in Hnone. apply Hready in Hnone as [-> _]. by vm_compute in Hst. }
  destruct (Hready eq_refl) as (-> & Hp & Hm & cfg & basis & e & q & -> & Hb & -> & He & Hq & Hpos & ->). split; [done|]. split; [done|]. split; [done|].
  exists cfg, basis, e, q. apply Ok_inj in H as <-. done.
Qed.

(** Without the narration only the speech of the unit counts. *)
Lemma post_ready preparation path p : prepare_narration_delivery POST_PRODUCTION preparation path None None false = Ok p -> nd_problems p = [] ->
  pr_problems preparation = [] /\ duration_floor p = None.
Proof.
  unfold Narration.prepare_narration_delivery. cbv zeta. intros (found & Hf & H)%bind_Ok Hnone. destruct found as [[[st problems] d] actual]. apply Ok_inj in H as <-.
  cbn [nd_problems] in Hnone. subst problems. split; [|done].
  destruct (negb (is_narration preparation)); apply Ok_inj in Hf; injection Hf as _ Hf _ _; apply app_nil in Hf as [Hf _]; by apply map_eq_nil in Hf.
Qed.

Abbreviation needed nar planned := (if Qle_bool (default 0%Q (duration_floor nar)) (inject_Z planned) then inject_Z planned else default 0%Q (duration_floor nar)).

(** A tier holds what is needed exactly if it holds the plan and the narration. *)
Lemma needed_le nar planned d : (0 < planned)%Z ->
  (needed nar planned <= inject_Z d)%Q <-> (planned <= d)%Z /\ forall q, duration_floor nar = Some q -> (q <= inject_Z d)%Q.
Proof.
  intros Hp. destruct (duration_floor nar) as [q|]; cbn [from_option id].
  - destruct (Qle_bool q (inject_Z planned)) eqn:Hq; [apply Qle_bool_iff in Hq; rewrite <- Zle_Qle; split|].
    + intros H. split; [done|]. intros q' [= <-]. eapply Qle_trans; [exact Hq|]. by rewrite <- Zle_Qle.
    + by intros [? _].
    + assert (inject_Z planned < q)%Q as Hlt by (apply Qnot_le_lt; intros H%Qle_bool_iff; congruence). split.
      * intros H. split; [|by intros q' [= <-]]. rewrite Zle_Qle. eapply Qle_trans; [apply Qlt_le_weak; exact Hlt|exact H].
      * intros [_ H]. by apply H.
  - assert (Qle_bool 0 (inject_Z planned) = true) as ->. { apply Qle_bool_iff. change 0%Q with (inject_Z 0). rewrite <- Zle_Qle. lia. }
    rewrite <- Zle_Qle. naive_solver.
Qed.

Lemma duration_ready nar planned supported confirmed cv cr p :
  prepare_narrated_video_duration nar planned supported confirmed cv cr = Ok p -> blocks (nd_problems nar) -> duration_allowed p = true ->
  nd_problems nar = [] /\ exists d, nv_request_duration p = Some d /\ d ∈ supported /\ (d = default planned cv \/ confirmed = Some d) /\ (planned <= d)%Z
  /\ (forall q, duration_floor nar = Some q -> (q <= inject_Z d)%Q)
  /\ (forall d', d' ∈ supported -> (planned <= d')%Z -> (forall q, duration_floor nar = Some q -> (q <= inject_Z d')%Q) -> (d <= d')%Z).
Proof.
  unfold prepare_narrated_video_duration. destruct (planned <=? 0)%Z eqn:Hpl; [done|]. apply Z.leb_gt in Hpl. case_goal; [done|]. cbv zeta.
  set (durations := isort Z.leb (remove_dups (where_ (fun d => (0 <? d)%Z) supported))). intros H Hb Hal. unfold duration_allowed in Hal. apply andb_prop in Hal as [Hsome Hno].
  destruct durations as [|x l] eqn:Hd; [by apply Ok_inj in H as <-|]. rewrite <- Hd in H.
  assert (forall d, d ∈ durations <-> d ∈ supported /\ (0 < d)%Z) as Hin.
  { intros d. unfold durations. rewrite elem_of_isort, elem_of_remove_dups, elem_of_where, Z.ltb_lt. done. }
  destruct (slot_holds_length (needed nar planned) durations) as (Hs & Hfit & Hbad & _); [by rewrite Hd|]. set (slot := resolve_duration_slot (needed nar planned) durations) in *.
  destruct (nd_problems nar) as [|y ys] eqn:Hn.
  2: { apply Ok_inj in H as <-. cbn [nv_problems] in Hno. by apply not_blocked in Hno. }
  split; [done|]. exists (seconds slot).
  assert (adjustment slot <> DOWN /\ nv_request_duration p = Some (seconds slot) /\ (seconds slot = default planned cv \/ confirmed = Some (seconds slot))) as (Hadj & Hreq & Hconf).
  { destruct (decide (seconds slot = default planned cv)) as [E1|E1]; [rewrite (bool_decide_eq_true_2 _ E1) in H|rewrite (bool_decide_eq_false_2 _ E1) in H];
    (destruct (decide (confirmed = Some (seconds slot))) as [E2|E2]; [rewrite (bool_decide_eq_true_2 _ E2) in H|rewrite (bool_decide_eq_false_2 _ E2) in H]);
    destruct (adjustment slot); cbn [negb andb] in H; apply Ok_inj in H as <-; cbn [nv_problems nv_request_duration] in *; try done; (split; [done|]); (split; [done|]); tauto. }
  assert (exists d, d ∈ durations /\ (needed nar planned <= inject_Z d)%Q) as Hex.
  { destruct (List.existsb (fun d => Qle_bool (needed nar planned) (inject_Z d)) durations) eqn:He.
    - apply existsb_exists in He as (d & Hd' & Hle). exists d. split; [by apply list_elem_of_In|by apply Qle_bool_iff].
    - exfalso. apply Hadj, Hbad. intros d Hd' Hle. apply Qle_bool_iff in Hle. apply not_true_iff_false in He. apply He. apply existsb_exists. exists d. split; [by apply list_elem_of_In|done]. }
  destruct (Hfit Hex) as (Hle & Hmin & _). apply (needed_le _ _ _ Hpl) in Hle as [Hle Hq]. split; [done|]. split; [by apply Hin|]. split; [done|]. split; [done|]. split; [done|].
  intros d' Hd' Hpd Hqd. apply Hmin; [apply Hin; split; [done|lia]|]. by apply needed_le.
Qed.
End answers.

(** ** Theorems *)

Section theorems.
Context (nfc sha256 casefold : pystr -> pystr) {S : Type} `{AdapterLaws nfc casefold S}.
Abbreviation build_narration_audio_basis := (build_narration_audio_basis nfc sha256).
Abbreviation prepare_current_narration_delivery := (prepare_current_narration_delivery nfc sha256 casefold).
Abbreviation prepare_current_narrated_video_duration := (prepare_current_narrated_video_duration nfc sha256 casefold).
Abbreviation audio_path preparation := (resource_relative_path "audio" (pr_unit_id preparation)).
Abbreviation audio_key episode preparation := (episode_audio nfc (JInt episode) (JStr (pr_unit_id preparation))).

(** Whatever is asked, nothing is written; a request for the narration that is not
    refused has a claim for the present text and voice. *)
Lemma current_delivery s m episode preparation delivery resolved probe busy p s' t :
  reads s m -> (forall key, audio_key episode preparation = Ok key -> names nfc key t) ->
  prepare_current_narration_delivery episode preparation delivery resolved probe busy s = (Ok p, s') ->
  reads s' m /\ blocks (nd_problems p)
  /\ (nd_problems p = [] -> pr_problems preparation = []
      /\ match delivery with
         | POST_PRODUCTION => duration_floor p = None
         | USE_TTS => busy = false /\ pr_mode preparation = Some NARRATOR_VOICEOVER
             /\ exists settings basis path q, resolved = Ok settings /\ build_narration_audio_basis preparation settings = Ok basis /\ audio_path preparation = Ok path
                /\ m !! t = Some (mkEntry path (digest basis)) /\ probe path = Ok (Some (Fin q)) /\ (0 < q)%Q /\ duration_floor p = Some q
         end).
Proof.
  intros Hr Hn Hp. unfold Narration.prepare_current_narration_delivery in Hp. apply then_Ok in Hp as (path & s0 & Hpath & Hp). unfold lift in Hpath. apply pair_equal_spec in Hpath as [Hpath <-].
  assert (forall x y, lift (prepare_narration_delivery nfc sha256 delivery preparation path None None false) s = (Ok x, y) ->
    y = s /\ prepare_narration_delivery nfc sha256 delivery preparation path None None false = Ok x) as Hplain by (intros x y [? <-]%pair_equal_spec; done).
  destruct delivery.
  - apply Hplain in Hp as [-> Hp]. split; [done|]. split; [by eapply delivery_blocks|]. intros Hnone. by apply (post_ready _ _ _ _ _ Hp).
  - destruct (negb (bool_decide (pr_problems preparation = [])) || negb (is_narration preparation)) eqn:Hu.
    { apply Hplain in Hp as [-> Hp]. split; [done|]. split; [by eapply delivery_blocks|]. intros Hnone. by apply delivery_ready in Hp as (_ & _ & _ & cfg & basis & e & q & ? & _). }
    destruct resolved as [settings|x].
    2: { destruct x; try (by apply pair_equal_spec in Hp as [? _]); apply Hplain in Hp as [-> Hp]; (split; [done|]); (split; [by eapply delivery_blocks|]);
         intros Hnone; by apply delivery_ready in Hp as (_ & _ & _ & cfg & basis & e & q & ? & _). }
    apply then_Ok in Hp as (basis & s0 & Hb & Hp). apply pair_equal_spec in Hb as [Hb <-]. apply then_Ok in Hp as (key & s0 & Hk & Hp). apply pair_equal_spec in Hk as [Hk <-].
    apply then_Ok in Hp as (c & s1 & Hc & Hp). apply then_Ok in Hp as (o & s2 & Ho & Hp). apply pair_equal_spec in Ho as [Ho <-]. apply then_Ok in Hp as (dur & s2 & Hd & Hp).
    apply pair_equal_spec in Hd as [Hd <-]. apply pair_equal_spec in Hp as [Hp <-].
    destruct (compare_current nfc casefold s m key t path _ c s1 Hr (Hn key Hk) Hc) as [Hr1 Hcur]. split; [done|]. split; [by eapply delivery_blocks|]. intros Hnone.
    destruct (delivery_ready _ _ _ _ _ _ _ _ Hp Hnone) as (-> & Hpr & Hm & cfg & basis' & e & q & [= <-] & Hb' & [= <-] & He & Hq & Hpos & Hfl).
    cbn [comparison duration_seconds] in He, Hq. destruct (Hcur He) as (entry & [= <-] & Hmt & _). split; [done|]. split; [done|]. split; [done|].
    exists settings, basis, path, q. do 4 (split; [done|]). split; [|done]. subst dur. rewrite (bool_decide_eq_true_2 _ He) in Hd. cbn [andb] in Hd.
    destruct (present o); [|by injection Hd]. destruct (probe path) as [r|x]; [by injection Hd as ->|]. by destruct x.
Qed.

(** C37: A video is only asked for at a length that its plan and its narration fit in, and
    at another price than expected only with consent.  A request that is allowed names
    the shortest supported tier that holds the planned length and, if the narration is to be
    in the video, the recorded narration; it is the tier of the present video or of the
    plan, or the user has confirmed it.  The narration is then present, measured, not being
    made anew, and its claim in the manifest is that of exactly the present text of the
    narrator and the present voice.  Asking changes nothing. *)
Theorem narrated_request_sound s m episode preparation delivery planned supported confirmed resolved probe busy current_visual p s' t :
  reads s m -> (forall key, audio_key episode preparation = Ok key -> names nfc key t) ->
  prepare_current_narrated_video_duration episode preparation delivery planned supported confirmed resolved probe busy current_visual s = (Ok p, s') ->
  reads s' m
  /\ (duration_allowed p = true ->
      pr_problems preparation = []
      /\ exists d, nv_request_duration p = Some d /\ d ∈ supported /\ (planned <= d)%Z /\ (d = default planned current_visual \/ confirmed = Some d)
      /\ match delivery with
         | POST_PRODUCTION => forall d', d' ∈ supported -> (planned <= d')%Z -> (d <= d')%Z
         | USE_TTS => busy = false /\ pr_mode preparation = Some NARRATOR_VOICEOVER
             /\ exists settings basis path q, resolved = Ok settings /\ build_narration_audio_basis preparation settings = Ok basis /\ audio_path preparation = Ok path
                /\ m !! t = Some (mkEntry path (digest basis)) /\ probe path = Ok (Some (Fin q)) /\ (0 < q)%Q /\ (q <= inject_Z d)%Q
                /\ forall d', d' ∈ supported -> (planned <= d')%Z -> (q <= inject_Z d')%Q -> (d <= d')%Z
         end).
Proof.
  intros Hr Hn Hp. apply then_Ok in Hp as (nar & s1 & Hnar & Hp). apply pair_equal_spec in Hp as [Hp <-].
  destruct (current_delivery _ _ _ _ _ _ _ _ _ _ _ Hr Hn Hnar) as (Hr1 & Hb & Hready). split; [done|]. intros Hal.
  destruct (duration_ready _ _ _ _ _ _ _ Hp Hb Hal) as (Hnone & d & Hreq & Hd & Hconf & Hpl & Hq & Hmin). destruct (Hready Hnone) as [Hpr Hcase]. split; [done|].
  exists d. do 4 (split; [done|]). destruct delivery.
  - intros d' Hd' Hpd. apply Hmin; [done|done|]. rewrite Hcase. by intros q.
  - destruct Hcase as (Hbusy & Hm & settings & basis & path & q & Hcfg & Hbasis & Hpath & Hmt & Hprobe & Hpos & Hfl). split; [done|]. split; [done|].
    exists settings, basis, path, q. do 6 (split; [done|]). split; [by apply Hq|]. intros d' Hd' Hpd Hqd. apply Hmin; [done|done|]. rewrite Hfl. by intros q' [= <-].
Qed.

Section registered.
Context (sha256_hex : forall text, is_content_digest (sha256 text) = true).

Lemma basis_prefixed preparation settings basis : build_narration_audio_basis preparation settings = Ok basis -> is_prefixed_digest (digest basis) = true.
Proof.
  unfold Narration.build_narration_audio_basis, build_narration_audio_basis_from_canonical_text, build_basis. intros H1.
  repeat match type of H1 with (if ?b then Raise _ else _) = _ => destruct b; [discriminate H1|] end. apply bind_Ok in H1 as (d & Hd & E).
  apply Ok_inj in E as <-. cbn [digest]. unfold canonical_json_digest in Hd. cbv zeta in Hd.
  destruct (existsb _ _) in Hd; [done|]. apply Ok_inj in Hd as <-.
  unfold is_prefixed_digest. cbv zeta. rewrite take_app_length, drop_app_length, bool_decide_eq_true_2 by done. apply sha256_hex.
Qed.

(** A registration that returns has put the claim there. *)
Lemma registered_claim s m episode preparation settings basis s' key t path :
  reads s m -> audio_key episode preparation = Ok key -> names nfc key t -> audio_path preparation = Ok path ->
  register_narration_audio_transactionally nfc sha256 episode preparation settings s = (Ok basis, s') ->
  build_narration_audio_basis preparation settings = Ok basis /\ reads s' (<[t := mkEntry path (digest basis)]> m).
Proof.
  intros Hr Hk Hn Hpath Hx. unfold register_narration_audio_transactionally in Hx. rewrite Hpath, Hk in Hx.
  apply then_Ok in Hx as (path' & s0 & E & Hx). apply pair_equal_spec in E as [E <-]. apply Ok_inj in E as <-.
  apply then_Ok in Hx as (key' & s0 & E & Hx). apply pair_equal_spec in E as [E <-]. apply Ok_inj in E as <-.
  apply then_Ok in Hx as (basis' & s0 & Hb & Hx). apply pair_equal_spec in Hb as [Hb <-]. apply then_Ok in Hx as (previous & s1 & Hget & Hx).
  apply then_Ok in Hx as (b & s2 & Hg & Hx). apply pair_equal_spec in Hx as [Hx <-]. apply Ok_inj in Hx as <-. split; [done|].
  assert (exists q, normalize_path casefold path = Ok q) as [q Hq].
  { unfold guarded in Hg. destruct (register_descriptor key path basis' s1) as [[b'|e] s3] eqn:Hreg.
    - unfold register_descriptor in Hreg. apply then_Ok in Hreg as (o & s4 & Ho & Hreg). apply pair_equal_spec in Ho as [Ho <-]. apply Ok_inj in Ho as <-.
      apply then_Ok in Hreg as (x & s4 & Hreq & _). apply pair_equal_spec in Hreq as [Hreq _]. unfold require_present in Hreq.
      destruct (blocker (inspect_artifact s1 path)) eqn:Hbl; [done|]. eexists. by apply inspect_path.
    - destruct (restore_entry _ _ _ s3) as [[]]; by apply pair_equal_spec in Hg as [? _]. }
  assert (register_descriptor_transactionally casefold key path basis' s = (Ok b, s2)) as Htx.
  { unfold register_descriptor_transactionally, then_ at 1. rewrite Hget. unfold then_, lift. rewrite Hq. by rewrite (normalize_same _ _ _ Hq). }
  destruct (register_descriptor_settled nfc casefold s m key t path basis' (Ok b) s2 Hr Hn (basis_prefixed _ _ _ Hb) Htx) as (m' & Hr' & Hst). cbn in Hst. by subst m'.
Qed.

(** C38: A narration that was registered is current for as long as its text and voice are
    what they were.  After a registration that returned, a request for the same unit
    with any text and voice is answered: if their basis has the digest that was registered
    the narration is current, the request is allowed and the video must hold its
    measured length; otherwise it is stale and the request is refused. *)
Theorem registered_narration_current s m episode preparation settings basis s1 key t path preparation' settings' basis' probe q :
  reads s m -> audio_key episode preparation = Ok key -> names nfc key t -> audio_path preparation = Ok path ->
  register_narration_audio_transactionally nfc sha256 episode preparation settings s = (Ok basis, s1) ->
  troubles s1 = 0 -> require_present (inspect_artifact s1 path) = Ok tt -> present (inspect_artifact (get_entry key s1).2 path) = true ->
  probe path = Ok (Some (Fin q)) -> (0 < q)%Q ->
  pr_unit_id preparation' = pr_unit_id preparation -> pr_mode preparation' = Some NARRATOR_VOICEOVER ->
  build_narration_audio_basis preparation' settings' = Ok basis' ->
  exists p s2, prepare_current_narration_delivery episode preparation' USE_TTS (Ok settings') probe false s1 = (Ok p, s2)
  /\ nd_basis_digest p = Some (digest basis')
  /\ if decide (digest basis' = digest basis) then nd_tts_status p = NarrationTtsStatus.CURRENT /\ delivery_allowed p = true /\ duration_floor p = Some q
     else nd_tts_status p = NarrationTtsStatus.STALE /\ delivery_allowed p = false.
Proof.
  intros Hr Hk Hn Hpath Hreg Hcalm Ho Ho2 Hprobe Hpos Hid Hmode Hb'.
  destruct (registered_claim _ _ _ _ _ _ _ _ _ _ Hr Hk Hn Hpath Hreg) as [_ Hr1]. set (e := mkEntry path (digest basis)) in *.
  pose proof (compare_claimed nfc casefold s1 _ key t e (digest basis') Hr1 Hn Hcalm (lookup_insert_eq m t e) Ho) as Hc. cbn [artifact_path basis_digest e] in Hc.
  assert (pr_problems preparation' = []) as Hpr.
  { unfold Narration.build_narration_audio_basis in Hb'. destruct (decide (pr_problems preparation' = [])) as [E|E]; [done|]. by rewrite (bool_decide_eq_false_2 _ E) in Hb'. }
  assert (is_narration preparation' = true) as Hnar by (by apply bool_decide_eq_true).
  unfold Narration.prepare_current_narration_delivery. rewrite Hid, Hpath. unfold then_ at 1, lift at 1. rewrite Hnar, (bool_decide_eq_true_2 _ Hpr). cbn [negb orb].
  rewrite Hb'. unfold then_ at 1, lift at 1. rewrite Hk. unfold then_ at 1, lift at 1. unfold then_ at 1. rewrite Hc. unfold then_ at 1, seen_now at 1. cbn [status].
  unfold then_ at 1, lift. rewrite Ho2, Hprobe. unfold prepare_narration_delivery. rewrite Hnar, Hb'. cbn [negb bind].
  assert (_speech_problems preparation' = []) as Hsp by (unfold _speech_problems; by rewrite Hpr).
  assert (Qle_bool q 0 = false) as Hq by (apply not_true_iff_false; intros Hle%Qle_bool_iff; by apply Qle_not_lt in Hle).
  destruct (decide (digest basis' = digest basis)) as [E|E].
  - rewrite (bool_decide_eq_true_2 (digest basis = digest basis')) by done. rewrite bool_decide_eq_true_2 by done. cbn [andb]. rewrite audio_current by done.
    rewrite Hsp. cbn [app needing bind]. eexists _, _. split; [reflexivity|]. done.
  - rewrite (bool_decide_eq_false_2 (digest basis = digest basis')) by congruence. rewrite (bool_decide_eq_false_2 (ArtifactStatus.STALE = ArtifactStatus.CURRENT)) by done.
    cbn [andb]. rewrite audio_stale. rewrite Hsp. cbn [app needing bind]. eexists _, _. split; [reflexivity|]. done.
Qed.
End registered.
End theorems.

(** ** Examples *)

Definition demo_sha (text : pystr) : pystr := replicate 63 48%N ++ [48 + N.of_nat (length text) mod 10]%N.
Lemma demo_sha_hex text : is_content_digest (demo_sha text) = true.
Proof.
  unfold is_content_digest, demo_sha. rewrite length_app, length_replicate. cbn [length Nat.add Nat.eqb andb]. rewrite forallb_app. cbn [forallb]. rewrite andb_true_r.
  apply andb_true_intro. split; [reflexivity|]. pose proof (N.mod_lt (N.of_nat (length text)) 10 ltac:(lia)) as Hlt. set (r := (N.of_nat (length text) mod 10)%N) in *.
  unfold is_hex_lower. apply orb_true_intro. left. apply andb_true_intro. split; apply N.leb_le; lia.
Qed.

Definition demo_speech : SpeechPreparation := mkPreparation (u "S1") (Some NARRATOR_VOICEOVER) [mkUtterance NARRATOR (u "once upon a time") None (at_path [])] [].
Definition demo_settings : TtsSynthesisSettings := mkSettings (u "p") (u "m") (u "v") None.
Definition demo_audio : pystr := u "audio/segment_S1.wav".
Definition demo_store : Memory := mkMemory ∅ [demo_audio].
Definition demo_probe (path : pystr) : result (option pyfloat) := Ok (Some (Fin (9 # 2))).
Definition demo_audio_key : ArtifactKey := mkKey ArtifactKind.EPISODE_AUDIO [CInt 1; CStr (u "S1")].
Definition demo_audio_text : pystr := match encode demo_audio_key with Ok t => t | Raise _ => [] end.

Lemma demo_audio_names : names id demo_audio_key demo_audio_text.
Proof. split; vm_compute; reflexivity. Qed.

Lemma demo_store_reads : @reads _ (memory_adapter id id) demo_store ∅.
Proof. split; [done|]. apply sound_empty. Qed.

Abbreviation demo_registered := (@register_narration_audio_transactionally id demo_sha _ (memory_adapter id id) 1 demo_speech demo_settings demo_store).
Definition demo_basis : ArtifactBasisDescriptor := match build_narration_audio_basis id demo_sha demo_speech demo_settings with Ok b => b | Raise _ => mkDescriptor [] 0 [] end.
Definition demo_claims : claims := {[demo_audio_text := mkEntry demo_audio (digest demo_basis)]}.

Lemma demo_registration : demo_registered = (Ok demo_basis, mkMemory demo_claims [demo_audio]).
Proof. vm_compute. reflexivity. Qed.

Lemma demo_claims_read : @reads _ (memory_adapter id id) (mkMemory demo_claims [demo_audio]) demo_claims.
Proof.
  destruct (@registered_claim id demo_sha id _ (memory_adapter id id) (memory_laws id id) demo_sha_hex demo_store ∅ 1%Z demo_speech demo_settings demo_basis
    (mkMemory demo_claims [demo_audio]) demo_audio_key demo_audio_text demo_audio demo_store_reads eq_refl demo_audio_names eq_refl demo_registration) as [_ Hr]. exact Hr.
Qed.

(** A narration of 4.5 seconds is current after its registration. *)
Lemma registered_narration_current_witness :
  exists p s2, demo_registered = (Ok demo_basis, mkMemory demo_claims [demo_audio])
    /\ @prepare_current_narration_delivery id demo_sha id _ (memory_adapter id id) 1 demo_speech USE_TTS (Ok demo_settings) demo_probe false (mkMemory demo_claims [demo_audio]) = (Ok p, s2)
    /\ duration_floor p = Some (9 # 2).
Proof.
  destruct (@registered_narration_current id demo_sha id _ (memory_adapter id id) (memory_laws id id) demo_sha_hex demo_store ∅ 1%Z demo_speech demo_settings
    demo_basis (mkMemory demo_claims [demo_audio]) demo_audio_key demo_audio_text demo_audio demo_speech demo_settings demo_basis demo_probe (9 # 2)) as (p & s2 & Hp & _ & Hcur);
    [exact demo_store_reads|reflexivity|exact demo_audio_names|reflexivity|exact demo_registration|reflexivity|vm_compute; reflexivity|vm_compute; reflexivity|reflexivity|reflexivity
    |reflexivity|reflexivity|vm_compute; reflexivity|].
  exists p, s2. split; [exact demo_registration|]. split; [exact Hp|]. rewrite decide_True in Hcur by reflexivity. apply Hcur.
Defined.

(** The narration of 4.5 seconds in a plan of 4 needs the tier of 5 seconds, which was confirmed. *)
Lemma narrated_request_sound_witness :
  exists p s2, @prepare_current_narrated_video_duration id demo_sha id _ (memory_adapter id id) 1 demo_speech USE_TTS 4 [10; 5; 4]%Z (Some 5%Z) (Ok demo_settings) demo_probe false None
    (mkMemory demo_claims [demo_audio]) = (Ok p, s2)
  /\ duration_allowed p = true /\ exists d, nv_request_duration p = Some d /\ (4 <= d)%Z /\ (d = 4%Z \/ Some 5%Z = Some d).
Proof.
  eexists _, _. split; [vm_compute; reflexivity|]. split; [reflexivity|].
  edestruct (@narrated_request_sound id demo_sha id _ (memory_adapter id id) (memory_laws id id) (mkMemory demo_claims [demo_audio]) demo_claims
    1%Z demo_speech USE_TTS 4%Z [10; 5; 4]%Z (Some 5%Z) (Ok demo_settings) demo_probe false None) as [_ Hal];
    [exact demo_claims_read| |vm_compute; reflexivity|].
  - intros key [= <-]. exact demo_audio_names.
  - destruct (Hal eq_refl) as (_ & d & Hd & _ & Hle & Hc & _). exists d. split; [exact Hd|]. split; [exact Hle|exact Hc].
Defined.
