(* ===== verification/Presentation.v ===== *)
(** * Presentation of a unit: subtitles and tracks

    [lib/speech_presentation.py] with the utterances, the evidence of media and the two
    bases of [lib/speech_artifact_provenance.py] it uses: the timing of the subtitles of
    one video, and where the narration lies on it.  A duration is the rational value
    of a finite float; [microseconds] is [round(float(seconds) * 1_000_000)] and
    [float_repr] the text of a float. *)

From S2P Require Import Prelude Json Queue Assets Speech EpisodeLedger ScriptReview Codec ArtifactStore ArtifactClaims ScriptEditor Narration.
From Stdlib Require Import QArith.
Local Open Scope nat_scope.

(** ** Utterances *)

Record SubtitleUtteranceEvidence := mkSubtitle { sub_owner : SpeechOwner; sub_text : pystr; sub_speaker : option pystr }.

Definition owner_value (o : SpeechOwner) : string := match o with CHARACTER => "character" | NARRATOR => "narrator" end.
Definition speech_mode_value (m : SpeechMode) : string :=
  match m with CHARACTER_SPEECH => "character_speech" | NARRATOR_VOICEOVER => "narrator_voiceover" | SILENT => "silent" end.

Definition optional_text (s : option pystr) : json := match s with Some t => JStr t | None => JNull end.

Definition utterance_basis_input (x : SubtitleUtteranceEvidence) : json :=
  JObj [(u "owner", JStr (u (owner_value (sub_owner x)))); (u "speaker", optional_text (sub_speaker x)); (u "text", JStr (sub_text x))].

Section utterances.
Context (nfc : pystr -> pystr).

Definition _canonical_text (value : pystr) : pystr := strip (nfc (unify_newlines value)).

(** [SubtitleUtteranceEvidence(...)] with its [__post_init__]. *)
Definition make_subtitle (owner : SpeechOwner) (text : pystr) (speaker : option pystr) : result SubtitleUtteranceEvidence :=
  let normalized_text := _canonical_text text in
  if bool_decide (normalized_text = []) then Raise ValueError
  else
    match owner with
    | CHARACTER =>
        let normalized_speaker := asset_name_comparison_key nfc (default [] speaker) in
        if bool_decide (normalized_speaker = []) then Raise ValueError else Ok (mkSubtitle owner normalized_text (Some normalized_speaker))
    | NARRATOR => match speaker with Some _ => Raise ValueError | None => Ok (mkSubtitle owner normalized_text None) end
    end.

Definition _require_prepared_speech (preparation : SpeechPreparation) : result SpeechMode :=
  match pr_problems preparation, pr_mode preparation with [], Some m => Ok m | _, _ => Raise ValueError end.

Fixpoint subtitles_of (l : list SpeechUtterance) : result (list SubtitleUtteranceEvidence) :=
  match l with
  | [] => Ok []
  | x :: rest =>
      let text := _canonical_text (su_text x) in
      if bool_decide (text = []) then subtitles_of rest
      else
        let! s := make_subtitle (su_owner x) text (su_speaker x) in
        let! others := subtitles_of rest in
        Ok (s :: others)
  end.

Definition project_subtitle_utterances (preparation : SpeechPreparation) : result (list SubtitleUtteranceEvidence) :=
  let! _ := _require_prepared_speech preparation in
  subtitles_of (pr_utterances preparation).
End utterances.

(** ** Timing *)

Record SubtitleCue := mkCue {
  start_microseconds : Z;
  duration_microseconds : Z;
  cue_text : pystr;
  cue_owner : SpeechOwner;
  cue_speaker : option pystr
}.

Definition end_microseconds (c : SubtitleCue) : Z := (start_microseconds c + duration_microseconds c)%Z.

Definition cue_to_dict (c : SubtitleCue) : json :=
  JObj [(u "start_microseconds", JInt (start_microseconds c)); (u "duration_microseconds", JInt (duration_microseconds c)); (u "text", JStr (cue_text c));
        (u "owner", JStr (u (owner_value (cue_owner c)))); (u "speaker", optional_text (cue_speaker c))].

Definition weight (x : SubtitleUtteranceEvidence) : Z := Z.of_nat (length (sub_text x)).
Definition total_weight (l : list SubtitleUtteranceEvidence) : Z := foldr (fun x n => (weight x + n)%Z) 0%Z l.

(** The loop of [distribute]. *)
Fixpoint allocate (boundary total cumulative : Z) (l : list SubtitleUtteranceEvidence) : result (list SubtitleCue) :=
  match l with
  | [] => Ok []
  | x :: rest =>
      let start := (boundary * cumulative / total)%Z in
      let cumulative := (cumulative + weight x)%Z in
      let finish := (boundary * cumulative / total)%Z in
      if (finish <=? start)%Z then Raise ValueError
      else
        let! cues := allocate boundary total cumulative rest in
        Ok (mkCue start (finish - start) (sub_text x) (sub_owner x) (sub_speaker x) :: cues)
  end.

(** [MechanicalSubtitleTiming.distribute] *)
Definition distribute (utterances : list SubtitleUtteranceEvidence) (boundary : Z) : result (list SubtitleCue) :=
  if (boundary <=? 0)%Z then Raise ValueError
  else
    match utterances with
    | [] => Ok []
    | _ =>
        let total := total_weight utterances in
        if (total <=? 0)%Z then Raise ValueError else allocate boundary total 0 utterances
    end.

(** [SubtitleTimingPolicy] *)
Record timing_policy := mkTiming { basis_identity : dict; distribute_with : list SubtitleUtteranceEvidence -> Z -> result (list SubtitleCue) }.

Definition MechanicalSubtitleTiming : timing_policy :=
  mkTiming [(u "kind", JStr (u "mechanical-text-length")); (u "version", JInt 1)] distribute.

(** ** Media and tracks *)

Inductive MediaSelection := current_version | history.
Inductive MediaCurrency := current_basis | stale.

Record SelectedMediaEvidence := mkMediaEvidence { ev_basis : ArtifactBasisDescriptor; ev_content_digest : pystr; ev_actual_duration : Q }.

Record PresentationMedia := mkMedia {
  pm_artifact_path : pystr;
  pm_version : Z;
  pm_selection : MediaSelection;
  pm_currency : MediaCurrency;
  pm_evidence : SelectedMediaEvidence
}.

Record VideoPresentationTrack := mkVideoTrack { vt_media : PresentationMedia; vt_start : Z; vt_duration : Z; vt_audio_enabled : bool; vt_gain : Q }.
Record NarrationPresentationTrack := mkNarrationTrack { nt_media : PresentationMedia; nt_start : Z; nt_duration : Z; nt_gain : Q }.

Record SpeechPresentation := mkPresentation {
  sp_present_unit : pystr;
  sp_variant : NarrationDelivery;
  sp_speech_mode : SpeechMode;
  sp_selection : MediaSelection;
  sp_currency : MediaCurrency;
  sp_video : VideoPresentationTrack;
  sp_narration_audio : option NarrationPresentationTrack;
  sp_subtitles : list SubtitleCue;
  sp_subtitle_basis : ArtifactBasisDescriptor;
  sp_presentation_basis : ArtifactBasisDescriptor
}.

Definition presentation_artifact_paths (episode : Z) (resource_id : pystr) (variant : NarrationDelivery) : result (pystr * pystr) :=
  if (episode <=? 0)%Z then Raise ValueError
  else if bool_decide (resource_id = []) then Raise ValueError
  else
    let! bytes := utf8_encode resource_id in
    let token := rstrip_equals (urlsafe_b64encode bytes) in
    let tail := u "/episode_" ++ dumps_int episode ++ u "/" ++ token ++ u "." ++ delivery_text variant ++ u ".json" in
    Ok (u "subtitles" ++ tail, u "presentations" ++ tail).

Section presentation.
Context (nfc sha256 : pystr -> pystr) (microseconds : Q -> Z) (float_repr : Q -> pystr).

Definition _duration_microseconds (seconds : Q) : result Z :=
  if Qle_bool seconds 0 then Raise ValueError
  else let d := microseconds seconds in if (d <=? 0)%Z then Raise ValueError else Ok d.

Definition evidence_basis_input (e : SelectedMediaEvidence) : json :=
  JObj [(u "basis", descriptor_to_dict (ev_basis e)); (u "content_digest", JStr (ev_content_digest e));
        (u "actual_duration_seconds", JFloat (float_repr (ev_actual_duration e)))].

Definition build_mechanical_subtitle_basis (preparation : SpeechPreparation) (variant : NarrationDelivery) (video : SelectedMediaEvidence)
    (narration_audio : option SelectedMediaEvidence) (policy : dict) : result ArtifactBasisDescriptor :=
  let! mode := _require_prepared_speech preparation in
  let narrator_uses_tts := bool_decide (mode = NARRATOR_VOICEOVER) && bool_decide (variant = USE_TTS) in
  let! boundary := if narrator_uses_tts then match narration_audio with Some a => Ok a | None => Raise ValueError end else Ok video in
  let! utterances := project_subtitle_utterances nfc preparation in
  build_basis sha256 (u "artifact-speech/mechanical-subtitle") 1
    [(u "variant", JStr (delivery_text variant)); (u "mode", JStr (u (speech_mode_value mode))); (u "utterances", JArr (map utterance_basis_input utterances));
     (u "boundary_media", evidence_basis_input boundary); (u "timing_policy", JObj policy)].

Definition build_presentation_basis (variant : NarrationDelivery) (video : SelectedMediaEvidence) (subtitle : ArtifactBasisDescriptor)
    (narration_audio : option SelectedMediaEvidence) (provider_audio_enabled : bool) (transition_to_next : pystr) : result ArtifactBasisDescriptor :=
  match variant, narration_audio with
  | USE_TTS, None | POST_PRODUCTION, Some _ => Raise ValueError
  | _, _ =>
      build_basis sha256 (u "artifact-speech/presentation") 2
        [(u "variant", JStr (delivery_text variant)); (u "transition_to_next", JStr transition_to_next); (u "video", evidence_basis_input video);
         (u "subtitle", descriptor_to_dict subtitle); (u "narration_audio", match narration_audio with Some a => evidence_basis_input a | None => JNull end);
         (u "mix_policy", JObj [(u "kind", JStr (u "provider-original-plus-optional-tts")); (u "version", JInt 1); (u "provider_video_gain", JFloat (u "1.0"));
                                (u "narration_audio_gain", JFloat (u "1.0")); (u "provider_audio_enabled", JBool provider_audio_enabled)])]
  end.

Definition is_history_media (m : PresentationMedia) : bool := match pm_selection m with history => true | current_version => false end.
Definition is_stale_media (m : PresentationMedia) : bool := match pm_currency m with stale => true | current_basis => false end.

(** The narration's length, if it fits in the video. *)
Definition narration_length (video_duration : Z) (narration_audio : option PresentationMedia) : result (option Z) :=
  match narration_audio with
  | None => Ok None
  | Some a =>
      let! d := _duration_microseconds (ev_actual_duration (pm_evidence a)) in
      if (video_duration <? d)%Z then Raise ValueError else Ok (Some d)
  end.

Definition materialize_speech_presentation (preparation : SpeechPreparation) (variant : NarrationDelivery) (video : PresentationMedia) (provider_audio_enabled : bool)
    (narration_audio : option PresentationMedia) (transition_to_next : pystr) (timing : timing_policy) : result SpeechPresentation :=
  let! mode := _require_prepared_speech preparation in
  if bool_decide (variant = USE_TTS) && negb (bool_decide (mode = NARRATOR_VOICEOVER)) then Raise ValueError
  else if bool_decide (variant = USE_TTS) && negb (bool_decide (is_Some narration_audio)) then Raise ValueError
  else if bool_decide (variant = POST_PRODUCTION) && bool_decide (is_Some narration_audio) then Raise ValueError
  else
    let! video_duration := _duration_microseconds (ev_actual_duration (pm_evidence video)) in
    let! narration_duration := narration_length video_duration narration_audio in
    let! utterances := project_subtitle_utterances nfc preparation in
    let! subtitles := distribute_with timing utterances (default video_duration narration_duration) in
    let narration_evidence := pm_evidence <$> narration_audio in
    let! subtitle_basis := build_mechanical_subtitle_basis preparation variant (pm_evidence video) narration_evidence (basis_identity timing) in
    let! presentation_basis := build_presentation_basis variant (pm_evidence video) subtitle_basis narration_evidence provider_audio_enabled transition_to_next in
    let sources := video :: match narration_audio with Some a => [a] | None => [] end in
    Ok (mkPresentation (pr_unit_id preparation) variant mode
          (if existsb is_history_media sources then history else current_version) (if existsb is_stale_media sources then stale else current_basis)
          (mkVideoTrack video 0 video_duration provider_audio_enabled (if provider_audio_enabled then 1 else 0)%Q)
          (match narration_audio, narration_duration with Some a, Some d => Some (mkNarrationTrack a 0 d 1%Q) | _, _ => None end)
          subtitles subtitle_basis presentation_basis).

(** ** Documents *)

Definition subtitle_artifact_dict (p : SpeechPresentation) : json :=
  JObj [(u "schema_version", JInt 1); (u "unit_id", JStr (sp_present_unit p)); (u "variant", JStr (delivery_text (sp_variant p))); (u "timing", JStr (u "mechanical"));
        (u "adjustable", JBool true); (u "basis", descriptor_to_dict (sp_subtitle_basis p)); (u "cues", JArr (map cue_to_dict (sp_subtitles p)))].

(** [f"{n:0{width}d}"] of a natural number. *)
Definition padded (width : nat) (n : Z) : pystr := let digits := dumps_int n in repeat 48%N (width - length digits) ++ digits.

Definition _vtt_timestamp (us : Z) : pystr :=
  let milliseconds := (us / 1000)%Z in
  let hours := (milliseconds / 3600000)%Z in
  let remainder := (milliseconds mod 3600000)%Z in
  let minutes := (remainder / 60000)%Z in
  let remainder := (remainder mod 60000)%Z in
  padded 2 hours ++ u ":" ++ padded 2 minutes ++ u ":" ++ padded 2 (remainder / 1000) ++ u "." ++ padded 3 (remainder mod 1000).

(** Blank lines would end the cue. *)
Definition _webvtt_cue_text (text : pystr) : pystr := join [10%N] (where_ (fun line => negb (bool_decide (strip line = []))) (split_char 10 text [])).

Fixpoint vtt_blocks (index : Z) (cues : list SubtitleCue) : list pystr :=
  match cues with
  | [] => []
  | c :: rest =>
      [dumps_int index; _vtt_timestamp (start_microseconds c) ++ u " --> " ++ _vtt_timestamp (end_microseconds c); _webvtt_cue_text (cue_text c); []]
      ++ vtt_blocks (index + 1) rest
  end.

Definition subtitles_webvtt (cues : list SubtitleCue) : pystr := join [10%N] (u "WEBVTT" :: [] :: vtt_blocks 1 cues).
End presentation.

(** ** The subtitles cover the time exactly *)

(** Cues that follow one another without a gap from [a] to [b]. *)
Fixpoint tiles (a : Z) (cues : list SubtitleCue) (b : Z) : Prop :=
  match cues with
  | [] => a = b
  | c :: rest => start_microseconds c = a /\ (0 < duration_microseconds c)%Z /\ tiles (end_microseconds c) rest b
  end.

Definition said (c : SubtitleCue) : SubtitleUtteranceEvidence := mkSubtitle (cue_owner c) (cue_text c) (cue_speaker c).

(** The part of the time that an utterance gets, up to a microsecond. *)
Definition fair_share (boundary total : Z) (x : SubtitleUtteranceEvidence) (c : SubtitleCue) : Prop :=
  (Z.abs (total * duration_microseconds c - boundary * weight x) < total)%Z.

Lemma allocate_tiles boundary total l c cues : (0 < total)%Z -> allocate boundary total c l = Ok cues ->
  map said cues = l /\ tiles (boundary * c / total) cues (boundary * (c + total_weight l) / total) /\ Forall2 (fair_share boundary total) l cues.
Proof.
  intros Ht. revert c cues. induction l as [|x l IH]; intros c cues H; cbn [allocate] in H.
  - apply Ok_inj in H as <-. cbn. rewrite Z.add_0_r. by repeat constructor.
  - cbv zeta in H. destruct (_ <=? _)%Z eqn:Hle in H; [done|]. apply Z.leb_gt in Hle. apply bind_Ok in H as (rest & Hrest & H). apply Ok_inj in H as <-.
    destruct (IH _ _ Hrest) as (Hsaid & Htile & Hfair). cbn [map said tiles total_weight foldr]. split; [|split].
    + unfold said at 1. cbn [cue_owner cue_text cue_speaker]. rewrite Hsaid. by destruct x.
    + cbn [start_microseconds duration_microseconds]. split; [done|]. split; [lia|]. unfold end_microseconds. cbn [start_microseconds duration_microseconds].
      replace (boundary * c / total + (boundary * (c + weight x) / total - boundary * c / total))%Z with (boundary * (c + weight x) / total)%Z by lia.
      unfold total_weight in Htile. by rewrite Z.add_assoc.
    + constructor; [|done]. unfold fair_share. cbn [duration_microseconds].
      pose proof (Z.div_mod (boundary * c) total ltac:(lia)). pose proof (Z.mod_pos_bound (boundary * c) total Ht).
      pose proof (Z.div_mod (boundary * (c + weight x)) total ltac:(lia)). pose proof (Z.mod_pos_bound (boundary * (c + weight x)) total Ht). lia.
Qed.

Lemma allocate_total boundary total l c : (0 < total <= boundary)%Z -> Forall (fun x => (0 < weight x)%Z) l -> exists cues, allocate boundary total c l = Ok cues.
Proof.
  intros Ht. revert c. induction l as [|x l IH]; intros c Hw; [by exists []|]. apply Forall_cons in Hw as [Hx Hl]. cbn [allocate]. cbv zeta.
  destruct (IH (c + weight x)%Z Hl) as [cues ->]. cbn [bind].
  assert (boundary * c / total + 1 <= boundary * (c + weight x) / total)%Z as Hle.
  { rewrite <- Z.div_add by lia. apply Z.div_le_mono; [lia|]. nia. }
  replace (_ <=? _)%Z with false by lia. eexists. reflexivity.
Qed.

(** The utterances of a unit have text. *)
Lemma subtitles_visible nfc l subs : subtitles_of nfc l = Ok subs -> Forall (fun x => (0 < weight x)%Z) subs.
Proof.
  revert subs. induction l as [|x l IH]; intros subs H; cbn [subtitles_of] in H; [by apply Ok_inj in H as <-|]. cbv zeta in H.
  destruct (bool_decide _) in H; [by apply IH|]. apply bind_Ok in H as (s & Hs & H). apply bind_Ok in H as (others & Ho & H). apply Ok_inj in H as <-. constructor; [|by apply IH].
  assert (sub_text s <> []) as Hne.
  { unfold make_subtitle in Hs. cbv zeta in Hs. case_bool_decide as Ht; [done|]. destruct (su_owner x).
    - case_bool_decide; [done|]. by apply Ok_inj in Hs as <-.
    - destruct (su_speaker x); [done|]. by apply Ok_inj in Hs as <-. }
  unfold weight. destruct (sub_text s); [done|]. cbn [length]. lia.
Qed.

Lemma distribute_tiles utterances boundary cues : utterances <> [] -> distribute utterances boundary = Ok cues ->
  map said cues = utterances /\ tiles 0 cues boundary /\ Forall2 (fair_share boundary (total_weight utterances)) utterances cues.
Proof.
  intros Hne H. unfold distribute in H. destruct (boundary <=? 0)%Z; [done|]. destruct utterances as [|x l]; [done|]. cbv zeta in H.
  destruct (_ <=? 0)%Z eqn:Ht in H; [done|]. apply Z.leb_gt in Ht.
  destruct (allocate_tiles _ _ _ _ _ Ht H) as (Hs & Htile & Hf). split; [done|]. split; [|done]. rewrite Z.mul_0_r, Z.add_0_l, Z.div_mul in Htile by lia.
  by rewrite Z.div_0_l in Htile by lia.
Qed.

(** C39: Subtitles cover the time exactly.  The cues are the utterances in their order;
    the first starts at zero, each starts where the one before ends, every cue has
    a positive length, and the last ends at the boundary; each gets the part of the
    time that its text is of the whole text, to less than a microsecond.  For the utterances
    of a unit the timing succeeds whenever the time has a microsecond for each character. *)
Theorem subtitles_tile nfc preparation utterances boundary :
  project_subtitle_utterances nfc preparation = Ok utterances -> utterances <> [] ->
  (forall cues, distribute utterances boundary = Ok cues ->
     map said cues = utterances /\ tiles 0 cues boundary /\ Forall2 (fair_share boundary (total_weight utterances)) utterances cues)
  /\ ((total_weight utterances <= boundary)%Z -> exists cues, distribute utterances boundary = Ok cues).
Proof.
  intros Hu Hne. split; [intros cues; by apply distribute_tiles|]. intros Hle. apply bind_Ok in Hu as (mode & _ & Hu). apply subtitles_visible in Hu as Hw.
  unfold distribute. destruct utterances as [|x l]; [done|]. assert (0 < total_weight (x :: l))%Z as Ht.
  { clear Hle Hne Hu. apply Forall_cons in Hw as [Hx Hl]. cbn [total_weight foldr]. induction Hl as [|y l Hy _ IH]; cbn [foldr]; lia. }
  replace (boundary <=? 0)%Z with false by lia. cbv zeta. replace (total_weight (x :: l) <=? 0)%Z with false by lia. by apply allocate_total.
Qed.

Definition sample_speech : SpeechPreparation :=
  mkPreparation (u "S1") (Some NARRATOR_VOICEOVER) [mkUtterance NARRATOR (u " abc") None (at_path []); mkUtterance NARRATOR (u "defghi") None (at_path [])] [].

(** Three characters and six, in a tenth of a second. *)
Lemma subtitles_tile_witness :
  exists utterances cues, project_subtitle_utterances id sample_speech = Ok utterances /\ distribute utterances 100000 = Ok cues
  /\ map duration_microseconds cues = [33333; 66667]%Z /\ tiles 0 cues 100000.
Proof.
  eexists _, _. split; [vm_compute; reflexivity|]. split; [vm_compute; reflexivity|]. split; [vm_compute; reflexivity|].
  refine (proj1 (proj2 (proj1 (subtitles_tile id sample_speech _ 100000 _ _) _ _))); [vm_compute; reflexivity|discriminate|vm_compute; reflexivity].
Defined.

(** ** A presentation is consistent *)

Section sound.
Context (nfc sha256 : pystr -> pystr) (microseconds : Q -> Z) (float_repr : Q -> pystr).
Abbreviation materialize := (materialize_speech_presentation nfc sha256 microseconds float_repr).

Lemma duration_positive q d : _duration_microseconds microseconds q = Ok d -> (0 < d)%Z /\ d = microseconds q.
Proof. unfold _duration_microseconds. destruct (Qle_bool q 0); [done|]. cbv zeta. destruct (_ <=? 0)%Z eqn:Hd; [done|]. apply Z.leb_gt in Hd. by intros <-%Ok_inj. Qed.

Lemma narration_fits video_duration narration_audio d : narration_length microseconds video_duration narration_audio = Ok d ->
  match narration_audio with
  | None => d = None
  | Some a => exists n, d = Some n /\ n = microseconds (ev_actual_duration (pm_evidence a)) /\ (0 < n <= video_duration)%Z
  end.
Proof.
  unfold narration_length. destruct narration_audio as [a|]; [|by intros <-%Ok_inj]. intros (n & Hn & H)%bind_Ok. apply duration_positive in Hn as [Hpos Hn].
  destruct (video_duration <? n)%Z eqn:Hlt; [done|]. apply Z.ltb_ge in Hlt. apply Ok_inj in H as <-. by exists n.
Qed.

(** C40: A presentation says what its media are.  Its subtitles are exactly the visible
    utterances of the unit and cover, without gap or overlap, the narration if there is one
    and the video otherwise; a narration is there exactly if it was asked for, only
    for a unit that a narrator speaks, starts with the video and never lasts longer; the
    presentation is current exactly if everything in it is, and of the present
    selection exactly if everything in it is. *)
Theorem presentation_sound preparation variant video provider_audio narration_audio transition p :
  materialize preparation variant video provider_audio narration_audio transition MechanicalSubtitleTiming = Ok p ->
  exists utterances boundary, project_subtitle_utterances nfc preparation = Ok utterances /\ map said (sp_subtitles p) = utterances
  /\ (utterances <> [] -> tiles 0 (sp_subtitles p) boundary) /\ (0 < boundary <= vt_duration (sp_video p))%Z
  /\ vt_media (sp_video p) = video /\ vt_duration (sp_video p) = microseconds (ev_actual_duration (pm_evidence video))
  /\ match sp_narration_audio p with
     | Some n => variant = USE_TTS /\ pr_mode preparation = Some NARRATOR_VOICEOVER /\ narration_audio = Some (nt_media n)
                 /\ nt_start n = 0%Z /\ nt_duration n = boundary /\ boundary = microseconds (ev_actual_duration (pm_evidence (nt_media n)))
     | None => variant = POST_PRODUCTION /\ narration_audio = None /\ boundary = vt_duration (sp_video p)
     end
  /\ (sp_currency p = current_basis <-> is_stale_media video = false /\ forall a, narration_audio = Some a -> is_stale_media a = false)
  /\ (sp_selection p = current_version <-> is_history_media video = false /\ forall a, narration_audio = Some a -> is_history_media a = false).
Proof.
  unfold materialize_speech_presentation. intros (mode & Hmode & H)%bind_Ok.
  destruct (bool_decide (variant = USE_TTS) && negb (bool_decide (mode = NARRATOR_VOICEOVER))) eqn:E1; [done|].
  destruct (bool_decide (variant = USE_TTS) && negb (bool_decide (is_Some narration_audio))) eqn:E2; [done|].
  destruct (bool_decide (variant = POST_PRODUCTION) && bool_decide (is_Some narration_audio)) eqn:E3; [done|].
  apply bind_Ok in H as (vd & Hvd & H). apply bind_Ok in H as (nd & Hnd & H). apply bind_Ok in H as (utterances & Hu & H). apply bind_Ok in H as (subtitles & Hs & H).
  cbv zeta in H. apply bind_Ok in H as (sb & _ & H). apply bind_Ok in H as (pb & _ & H). apply Ok_inj in H as <-.
  cbn [sp_subtitles sp_video sp_narration_audio sp_currency sp_selection vt_duration vt_media]. apply duration_positive in Hvd as [Hvpos Hvd]. apply narration_fits in Hnd.
  assert (pr_mode preparation = Some mode) as Hpm.
  { unfold _require_prepared_speech in Hmode. destruct (pr_problems preparation); [|done]. destruct (pr_mode preparation); [|done]. by apply Ok_inj in Hmode as <-. }
  exists utterances, (default vd nd). split; [done|].
  assert (map said subtitles = utterances /\ (utterances <> [] -> tiles 0 subtitles (default vd nd))) as [Hsaid Htile].
  { cbn [distribute_with MechanicalSubtitleTiming] in Hs. destruct utterances as [|x l].
    - unfold distribute in Hs. destruct (_ <=? 0)%Z in Hs; [done|]. by apply Ok_inj in Hs as <-.
    - destruct (distribute_tiles (x :: l) (default vd nd) subtitles) as (Hsaid & Htile & _); [done|exact Hs|]. done. }
  split; [done|]. split; [done|].
  assert (forall f : PresentationMedia -> bool, existsb f (video :: match narration_audio with Some a => [a] | None => [] end) = false
    <-> f video = false /\ forall a, narration_audio = Some a -> f a = false) as Hall.
  { intros f. cbn [existsb]. rewrite orb_false_iff. destruct narration_audio as [a|]; cbn [existsb]; [rewrite orb_false_r|]; naive_solver. }
  rewrite <- !Hall. assert (forall b : bool, (if b then stale else current_basis) = current_basis <-> b = false) as -> by (by intros []).
  assert (forall b : bool, (if b then history else current_version) = current_version <-> b = false) as -> by (by intros []).
  destruct narration_audio as [a|].
  - destruct Hnd as (n & -> & Hn & Hfit). cbn [from_option id]. split; [lia|]. split; [done|]. split; [done|]. split; [|done]. cbn [nt_media nt_start nt_duration].
    destruct variant; [done|]. split; [done|]. split; [|done]. destruct (decide (mode = NARRATOR_VOICEOVER)) as [-> |E]; [done|]. rewrite (bool_decide_eq_false_2 _ E) in E1. by vm_compute in E1.
  - subst nd. cbn [from_option id]. split; [lia|]. split; [done|]. split; [done|]. split; [|done]. destruct variant; [done|by vm_compute in E2].
Qed.
End sound.

(** ** Examples *)

Definition sample_media (path : string) (seconds : Q) (c : MediaCurrency) : PresentationMedia :=
  mkMedia (u path) 1 current_version c (mkMediaEvidence (mkDescriptor (u "k") 1 (u "d")) (u "c") seconds).
Definition sample_microseconds (q : Q) : Z := (Qnum q * 1000000 / Zpos (Qden q))%Z.

(** A narration of two seconds on a video of three. *)
Lemma presentation_sound_witness :
  exists p, materialize_speech_presentation id (fun s => s) sample_microseconds (fun _ => u "1.5") sample_speech USE_TTS (sample_media "v.mp4" (3 # 1) current_basis) true
      (Some (sample_media "a.wav" (2 # 1) stale)) (u "cut") MechanicalSubtitleTiming = Ok p
  /\ sp_currency p = stale /\ tiles 0 (sp_subtitles p) 2000000.
Proof.
  eexists. split; [vm_compute; reflexivity|]. split; [reflexivity|].
  destruct (presentation_sound id (fun s => s) sample_microseconds (fun _ => u "1.5") sample_speech USE_TTS (sample_media "v.mp4" (3 # 1) current_basis) true
      (Some (sample_media "a.wav" (2 # 1) stale)) (u "cut") _ ltac:(vm_compute; reflexivity)) as (utterances & boundary & Hu & Hs & Ht & _ & _ & _ & Hn & _).
  destruct Hn as (_ & _ & _ & _ & <- & _). apply Ht. rewrite <- Hs. discriminate.
Defined.

(** The text of the subtitles. *)
Example webvtt_text : subtitles_webvtt [mkCue 0 61001000 (u "abc") NARRATOR None]
  = u "WEBVTT" ++ [10; 10; 49; 10]%N ++ u "00:00:00.000 --> 00:01:01.001" ++ [10%N] ++ u "abc" ++ [10%N].
Proof. vm_compute. reflexivity. Qed.
